(* ===== verification/_CoqProject ===== *)
-Q . S2P
Prelude.v
Bit.v
Bitmap.v
Atomic.v
Spinlock.v
PhysMem.v
Mem.v
Objpool.v
PageTable.v
Mmu.v
Vpage.v
Dlist.v
Hlist.v
Cpu.v
Gic.v
Vm.v
Vgic.v
VgicInv.v
VgicLr.v
VgicSpec.v
VgicRegs.v
Lcm.v
Irq.v
Vmm.v
ArchVmm.v
Gic3.v
Vgic3.v
Smmu.v
Smmu3.v
Smmu3Cmd.v
Smmu3Ste.v
GuestMem.v
Rq.v
Aborts.v
VmInit.v
Printk.v
Sched.v
Boot.v
Config.v
