(* ===== verification/Prelude.v ===== *)
(** * avisor: a verification of the hypervisor under [src/avisor]

    avisor is a type-1 hypervisor for AArch64.  At start-up every CPU sets up
    the physical memory, the interrupt controller and the message system, looks
    for a VM that still wants CPUs, builds the VM's address space and virtual
    interrupt controller, and enters the guest.  From then on it runs when a
    guest traps, when an interrupt arrives, or when another CPU sends a message.
    The sources named below are under [src/avisor/src].  The build that is
    modelled is the one of the Makefile: GICv2, no IOMMU, AArch64; the scheduler
    is the one compiled with [SCHEDULE], the two IOMMU drivers are those
    compiled with [SMMU_VERSION], and the GICv3 driver is the one compiled with
    [GIC_VERSION] 3.

    ** The files, bottom up

    - [Prelude]: machine integers with their wrap-around, outcomes ([Ok], or a
      [Halt] with its reason), the state and error monads, tactics, hints and
      lemmas all files share.
    - [Bit] ([lib/inc/bit.h], [core/inc/util.h]): masks and bit fields at their
      widths, page rounding, range tests.
    - [Bitmap] ([lib/bitmap.c]): bitmaps as arrays of 32-bit granules.
    - [Atomic] ([lib/inc/atomic.h]): the atomic counters, and in [Llsc] their
      loops of exclusive accesses, instruction by instruction.
    - [Spinlock] ([lib/inc/spinlock.h]): the ticket lock, as functions for the
      sequential components and, in [Smp], as interleaved atomic accesses.
    - [PhysMem] ([lib/string.c]): byte-addressed memory, the memory and string
      routines.
    - [Mem] ([core/mem.c]): the root page pool; the class [PageAllocator] is what
      it promises to the address spaces.
    - [Objpool] ([core/objpool.c]): object pools.
    - [PageTable] ([core/inc/page_table.h], [arch_page_table.c]): descriptors,
      entries and the walk, with [translate] as the MMU's reading of them.
    - [Mmu], [Vpage] ([core/mmu.c], [arch_mem.c]): building and taking down
      translations; [Vpage] holds the proofs of the search for virtual pages.
    - [Dlist] ([lib/inc/list.h]): intrusive lists as pointer writes on a heap of
      links, and the sequences they represent; [Hlist], the hash lists.
    - [Cpu] ([core/cpu.c], [core/inc/cpu.h]): [Barrier], the synchronisation
      token under interleaving; [Msg], the messages between CPUs.
    - [Gic] ([gic.c], [gicv2.c]): the GICv2 driver over a register file (class
      [GicHw]) whose laws (class [GicLaws]) are the architecture's.
    - [Vm] ([core/inc/vm.h], parts of [core/vm.c], [arch_vm.c]): VMs, virtual
      CPUs, their numbers, emulated devices, the list of VMs.
    - [Vgic], [VgicInv], [VgicLr], [VgicSpec], [VgicRegs] ([vgic.c], [vgicv2.c]):
      the virtual interrupt controller; its definitions, its invariant, list
      registers, spilling, register emulation and messages.
    - [Lcm] ([core/lcm.c], [hypercall.c]): snapshots, restore, restart, halt and
      the dispatch of hypercalls.
    - [Irq] ([core/interrupts.c], [gic_handle], [timer.c]): from a physical
      interrupt to a handler or a guest; the hypervisor's timer.
    - [Vmm] ([core/vmm.c]): which CPU runs which VM; allocation of VMs.
    - [ArchVmm] ([arch_vmm.c], [arch_platform.c]): the control registers of
      stage-2 translation and the page-table descriptor they go with.
    - [Gic3] ([gicv3.c], [gicv3.h]): the GICv3 driver, over distributor,
      redistributors and system registers (class [Gic3Hw], laws [Gic3Laws]).
    - [Vgic3] ([vgicv3.c]): routing, redistributor registers and software
      interrupts of the virtual GICv3.
    - [Smmu] ([smmuv2.c], [iommu.c]): the SMMUv2 driver, over its registers.
    - [Smmu3], [Smmu3Cmd], [Smmu3Ste] ([smmuv3.c], [iommu.c]): the SMMUv3 driver
      over the memory it shares with the SMMU (class [SmmuHw], laws [SmmuLaws]);
      its definitions, the command queue, the stream table.
    - [GuestMem] ([core/vm.c], [core/io.c], [iommu.c]): the memory of a guest.
    - [Rq] ([core/rq.c]): queues shared between VMs.
    - [Aborts] ([aborts.c], [core/inc/emul.h]): traps of a guest.
    - [VmInit] ([vm_init] of [core/vm.c], [arch_vm.c]): the start of a VM by all
      its CPUs, interleaved between the barriers.
    - [Printk] ([lib/printk.c], [core/console.c], [uart.c]): formatted output.
    - [Sched] ([core/sched.c]): the scheduler.
    - [Boot] ([main.c], [cpu_init], [interrupts_init], [vmm_init]): the start of
      the system by all CPUs, interleaved access by access where they share
      memory without a lock.
    - [Config] ([config.c], [entry.h], [platform.c]): the shipped configuration
      and platform, and that they meet what the theorems ask.

    ** How the code is represented

    A C function is a Rocq function of the same name.  Integers are [Z] with the
    wrap-around of their C type written out ([u32], [u64], [i32], ...).  State is
    passed explicitly, through the monad [st]; the result of a call that does not
    return normally is [Halt]: [HError] for the [ERROR] macro, which prints and
    spins for ever, [HFault] for an access outside an array or through a null
    pointer, [HDeadlock] for a lock that is never released, [HFuel] for fuel that
    ran out.  A theorem that says that a function returns proves [Ok]; fuel is
    then either enough by hypothesis, with the bound spelled out (the length of
    the list that is walked, the size of the pool, the number of levels), or
    chosen in the definition (the bits of a bitmap, the entries of a table).
    Hardware and code outside [src] are parameters: the interrupt controller's
    registers ([GicHw], [Gic3Hw]), the SMMU ([SmmuHw]), the address translation
    instruction (of which the theorems ask that it walks the tables in memory,
    [Vpage.at_walks]), the contents of uninitialised stack slots.  Locks other
    than the two that [Spinlock.Smp] and [Cpu.Barrier] study are taken and released as functions: an operation's
    critical section is atomic, which the mutual exclusion and the refinement of
    [Spinlock.Smp] justify.  Memory barriers, TLB and cache maintenance and
    printing have no effect on the modelled state.

    ** What the theorems show

    - Isolation and memory: [GuestMem.guest_translations_isolated] (of stage-2
      translation: what a guest's tables do not map the abort handler reaches for
      it), [GuestMem.vm_init_memory_correct], [Rq.rq_shared],
      [Vpage.mem_alloc_map_correct], [Vpage.mem_map_correct],
      [Vpage.mem_expand_pte_correct], [Mem.pp_alloc_correct],
      [Mem.live_blocks_disjoint], [Mem.mem_init_correct],
      [Objpool.objpool_alloc_free], [Bitmap.bitmap_find_consec_first_fit],
      [PhysMem.memcpy_correct].
    - Concurrency: the exclusive-access loops are atomic ([Atomic.Llsc]); the
      ticket lock refines a queue lock, excludes and makes
      progress ([Spinlock.Smp]); the barrier keeps its CPUs within a round
      ([Cpu.Barrier]); the CPUs' searches for a VM ([Vmm.vmm_assign_correct]).
    - Interrupts: the invariant of the virtual controller
      ([VgicInv.vgic_invariant]), the round trip through list registers and
      delivery ([VgicLr]), register reads and forwarded writes ([VgicRegs]), the
      choice among spilled interrupts ([VgicSpec]), the way from the device to
      the guest and the ownership of interrupts, exclusive when they are
      assigned one after the other ([Irq.interrupts_exclusive]) and not when
      assignments overlap ([Irq.interrupts_assign_race]); for a GICv3
      the round trip of a CPU interface, bringing up a CPU and the target of
      software interrupts ([Gic3.gicc_state_roundtrip],
      [Gic3.gic_cpu_init_correct], [Gic3.gic_send_sgi_target]), routes and
      software interrupts of a guest ([Vgic3.vgic_route_exact],
      [Vgic3.sgir_targets]).
    - Devices: the set-up of an SMMUv2 ([Smmu.smmu_init_correct],
      [Smmu.smmu_write_ctxbnk_correct]), which the driver never gives a device
      ([Smmu.iommu_never_adds]; [Smmu.smmu_streams_isolated] is what its entries
      would guarantee); with an SMMUv3 the entries of the devices given to a
      VM name its tables and no others change when the stream table is linear
      ([Smmu3Ste.iommu_vm_init_assigns]), while the first device of a block in a
      two-level table opens the block ([Smmu3Ste.l2_strtab_bypasses]); commands
      are taken in order ([Smmu3Cmd.cmdq_executes_in_order]).
    - Life cycle and scheduling: [Lcm.checkpoint_restore_roundtrip];
      [Sched.select_vcpu_correct], the choice of a virtual CPU whatever the other
      CPUs run; [Sched.schedule_correct] and [Sched.sched_reachable], the whole
      scheduler on one physical CPU with virtual CPUs of distinct numbers.
    - Start-up: [Boot.boot_ordered] and [Boot.boot_progress], that the barriers of
      the start keep every CPU behind what it needs and that none waits for ever
      before [vm_init];
      [VmInit.vm_init_correct] and [VmInit.vm_init_progress], the VM
      its CPUs build together; [Vmm.vmm_alloc_vm_correct];
      [ArchVmm.vmm_arch_init_walks], that the hardware walks the tables the
      software builds.
    - Output: [Printk.printk_renders], [Printk.printed_numbers_read_back].
    - Traps: [Aborts.aborts_passthrough_correct],
      [Aborts.aborts_emulated_correct].
    - Lists: [Dlist.list_ops_refine], [Hlist.hlist_ops_refine].
    - Where the code does not do what it means to: theorems about the error
      paths, such as [Vpage.mem_free_ppages_deadlock],
      [VgicSpec.vgic_refill_lrs_waits], [Boot.boot_reserve_lost],
      [Boot.boot_vm_lost], [Sched.task_struct_init_twice],
      [Vm.vm_list_registered_twice], [Lcm.guest_reset_not_restored], and
      lemmas beside them ([Sched.sched_entry_shared], [Rq.rq_close_deadlock],
      [VgicRegs.pending_in_lr_unseen], ...).

    ** Limits of the statements

    A theorem with [or_error] says what holds when the call returns, and that it
    otherwise ends in [ERROR], not in a fault or a deadlock.  Sequential
    operations of the virtual interrupt controller, the SMMUs and the life cycle
    run one after the other; the interleavings that are studied are those of
    [Atomic.Llsc], [Spinlock.Smp], [Cpu.Barrier], [Vmm], [Irq.race_step],
    [VmInit] and [Boot].  [Boot] ends where [vm_init] is called, and
    [VmInit.vm_init_progress] with the first barrier of
    [cpu_sync_and_clear_msgs], after which the CPUs can deadlock
    ([Cpu.Barrier.cpu_sync_and_clear_deadlock]).

    ** Not modelled

    - Of [vgicv3.c], which is not part of the build: the set-up of its lists, and
      what [vgic.c] does with list registers in that version.
    - [sysregs.h], [arch_tlb.h], [fences.h], [start.S], [exception.S]: single
      instructions and assembly.
    - The unikraft tree, a vendored guest operating system. *)

From Stdlib Require Export ZArith Lia Bool.
From stdpp Require Export base numbers list gmap.

#[export] Set Default Goal Selector "!".

Global Open Scope Z_scope.

(** ** Machine integers

    A w-bit unsigned integer is a [Z] in [0, 2^w); the functions below are the
    C conversions to the unsigned types the source uses.  [lsl32]/[lsl64] are
    the left shifts of a 32-bit or 64-bit unsigned value by a register amount:
    AArch64's LSLV takes the amount modulo the width.  (C leaves amounts
    outside [0, width) undefined, so a theorem that is meant for the C program
    states the range.) *)

Definition u8 (x : Z) : Z := x mod 2 ^ 8.
Definition u16 (x : Z) : Z := x mod 2 ^ 16.
Definition u32 (x : Z) : Z := x mod 2 ^ 32.
Definition u64 (x : Z) : Z := x mod 2 ^ 64.

(** The conversion to [int]: values above [INT_MAX] wrap to the negatives. *)
Definition i32 (x : Z) : Z :=
  let y := u32 x in if y <? 2 ^ 31 then y else y - 2 ^ 32.

(** The conversion to [long]. *)
Definition i64 (x : Z) : Z :=
  let y := u64 x in if y <? 2 ^ 63 then y else y - 2 ^ 64.

Definition lsl32 (x n : Z) : Z := u32 (Z.shiftl x (n mod 32)).
Definition lsl64 (x n : Z) : Z := u64 (Z.shiftl x (n mod 64)).

(** [~x] on 32- and 64-bit unsigned operands. *)
Definition not32 (x : Z) : Z := u32 (Z.lnot x).
Definition not64 (x : Z) : Z := u64 (Z.lnot x).

(** [(size_t)-1]. *)
Definition SIZE_MAX : Z := 2 ^ 64 - 1.

(** ** Outcomes

    What a call does besides returning: it may spin for ever in the [ERROR] or
    [ASSERT] macro ([HError]), wait for a spinlock its own CPU already holds
    ([HDeadlock]), or access an object outside its bounds ([HFault], undefined
    behaviour in C).  [HFuel] is not a behaviour of the program: it marks a
    loop whose fuel was too small.  A theorem that a loop ends shows that it does
    not appear with enough fuel, one that a loop never ends that it appears
    whatever the fuel. *)
Inductive halt : Type :=
| HError
| HDeadlock
| HFault
| HFuel.

Inductive outcome (A : Type) : Type :=
| Ok (a : A)
| Halt (h : halt).

Arguments Ok {A} a.
Arguments Halt {A} h.

#[export] Instance outcome_ret : MRet outcome := fun A a => Ok a.
#[export] Instance outcome_bind : MBind outcome := fun A B f m =>
  match m with
  | Ok a => f a
  | Halt h => Halt h
  end.

#[export] Instance halt_eq_dec : EqDecision halt.
Proof. solve_decision. Defined.

(** [a[i]] on an array held as a list: reading or writing outside it faults. *)
Definition rd {A} (l : list A) (i : Z) : outcome A :=
  if (i <? 0) then Halt HFault
  else match l !! Z.to_nat i with
       | Some x => Ok x
       | None => Halt HFault
       end.

Definition wr {A} (l : list A) (i : Z) (x : A) : outcome (list A) :=
  if (0 <=? i) && (i <? Z.of_nat (length l))
  then Ok (<[Z.to_nat i := x]> l) else Halt HFault.

(** [while (cond) body] on a loop state, with fuel. *)
Fixpoint while {S : Type} (fuel : nat) (cond : S -> outcome bool)
    (body : S -> outcome S) (s : S) : outcome S :=
  match fuel with
  | O => Halt HFuel
  | Datatypes.S fuel' =>
      b ← cond s;
      if (b : bool) then s' ← body s; while fuel' cond body s' else Ok s
  end.

(** [for (i = 0; i < n; i++) body(i)]. *)
Fixpoint for_loop {S : Type} (n : nat) (i : Z) (body : Z -> S -> outcome S)
    (s : S) : outcome S :=
  match n with
  | O => Ok s
  | Datatypes.S n' => s' ← body i s; for_loop n' (i + 1) body s'
  end.

(** *** State

    Code that threads one state through many calls: [st S A] is a call that
    reads and writes a state [S] and may halt. *)
Definition st (S A : Type) : Type := S -> outcome (A * S).

#[export] Instance st_ret {S} : MRet (st S) := fun A a s => Ok (a, s).
#[export] Instance st_bind {S} : MBind (st S) := fun A B f m s =>
  match m s with
  | Ok (a, s) => f a s
  | Halt h => Halt h
  end.

Definition gets {S A : Type} (f : S -> A) : st S A := fun s => Ok (f s, s).
Definition modify {S : Type} (f : S -> S) : st S () := fun s => Ok ((), f s).
Definition stop {S A : Type} (h : halt) : st S A := fun _ => Halt h.
Definition lift {S A : Type} (o : outcome A) : st S A := fun s =>
  match o with
  | Ok a => Ok (a, s)
  | Halt h => Halt h
  end.

(** [if (b) m] without an [else]. *)
Definition when {S : Type} (b : bool) (m : st S ()) : st S () := if b then m else mret ().

(** [for (i = lo; i < lo + n; i++) body(i)]. *)
Fixpoint for_st {S : Type} (n : nat) (i : Z) (body : Z -> st S ()) : st S () :=
  match n with
  | O => mret ()
  | Datatypes.S n => body i ;; for_st n (i + 1) body
  end.

(** ** Tactics and hint databases *)

Create Rewrite HintDb avisor.
Create Rewrite HintDb zbits.
#[export] Hint Rewrite Z.land_spec Z.lor_spec Z.lxor_spec Z.ldiff_spec
  Z.bits_0 : zbits.

(** Split a boolean comparison of integers in the goal or in a hypothesis into
    its two cases with the arithmetic fact. *)
Ltac zcase_eqn e :=
  lazymatch e with
  | Z.ltb ?a ?b => destruct (Z.ltb_spec a b)
  | Z.leb ?a ?b => destruct (Z.leb_spec a b)
  | Z.eqb ?a ?b => destruct (Z.eqb_spec a b)
  end.

Ltac zcase :=
  match goal with
  | |- context [Z.ltb ?a ?b] => zcase_eqn (Z.ltb a b)
  | |- context [Z.leb ?a ?b] => zcase_eqn (Z.leb a b)
  | |- context [Z.eqb ?a ?b] => zcase_eqn (Z.eqb a b)
  | _ : context [Z.ltb ?a ?b] |- _ => zcase_eqn (Z.ltb a b)
  | _ : context [Z.leb ?a ?b] |- _ => zcase_eqn (Z.leb a b)
  | _ : context [Z.eqb ?a ?b] |- _ => zcase_eqn (Z.eqb a b)
  end; try lia; simpl in *; try reflexivity.

(** Euclidean facts about [a / b] and [a mod b] for a positive constant [b],
    so that [lia] can use them. *)
Ltac divmod a b :=
  pose proof (Z.div_mod a b ltac:(lia));
  pose proof (Z.mod_pos_bound a b ltac:(lia)).

(** Invert a successful monadic computation step by step. *)
Lemma bind_Ok {A B} (m : outcome A) (f : A -> outcome B) (b : B) :
  m ≫= f = Ok b <-> exists a, m = Ok a /\ f a = Ok b.
Proof. destruct m; unfold mbind, outcome_bind; naive_solver. Qed.

(** Run the bind whose first computation is known to return. *)
Ltac mstep := cbn beta iota delta [mbind outcome_bind mret outcome_ret].

Ltac inv_bind H :=
  let a := fresh "a" in let E := fresh "E" in
  apply bind_Ok in H as (a & E & H).

(** ** Generic lemmas *)

Lemma u64_small x : 0 <= x < 2 ^ 64 -> u64 x = x.
Proof. apply Z.mod_small. Qed.

Lemma u32_small x : 0 <= x < 2 ^ 32 -> u32 x = x.
Proof. apply Z.mod_small. Qed.

Lemma u64_range x : 0 <= u64 x < 2 ^ 64.
Proof. apply Z.mod_pos_bound. lia. Qed.

Lemma u32_range x : 0 <= u32 x < 2 ^ 32.
Proof. apply Z.mod_pos_bound. lia. Qed.

Lemma u8_range x : 0 <= u8 x < 2 ^ 8.
Proof. apply Z.mod_pos_bound. lia. Qed.

Lemma i32_small x : 0 <= x < 2 ^ 31 -> i32 x = x.
Proof. intros. unfold i32. rewrite u32_small by lia. zcase. Qed.

Lemma i32_SIZE_MAX : i32 SIZE_MAX = -1.
Proof. reflexivity. Qed.

#[export] Hint Rewrite u64_small u32_small i32_small using lia : avisor.

(** Membership in a half-open interval, as a boolean. *)
Lemma in_interval_true lo hi a : lo <= a < hi -> (lo <=? a) && (a <? hi) = true.
Proof. intros. repeat zcase. Qed.

Lemma in_interval_false lo hi a :
  a < lo \/ hi <= a -> (lo <=? a) && (a <? hi) = false.
Proof. intros. repeat zcase. Qed.

Section loops.
Context {S : Type}.

(** Total correctness of [while]: an invariant, a measure that decreases and
    no halting in between. *)
Lemma while_rule (I Q : S -> Prop) (m : S -> nat)
    (cond : S -> outcome bool) (body : S -> outcome S) :
  (forall s, I s -> exists b, cond s = Ok b /\
     if b : bool then exists s', body s = Ok s' /\ I s' /\ (m s' < m s)%nat
     else Q s) ->
  forall fuel s, I s -> (m s < fuel)%nat ->
  exists s', while fuel cond body s = Ok s' /\ Q s'.
Proof.
  intros Hstep fuel. induction fuel as [|fuel IH]; intros s HI Hm; [lia|].
  destruct (Hstep s HI) as (b & Hc & Hb). simpl. rewrite Hc. simpl.
  destruct b.
  - destruct Hb as (s' & Hbody & HI' & Hlt). rewrite Hbody. simpl.
    apply IH; [done|lia].
  - eauto.
Qed.

(** Total correctness of a counted loop. *)
Lemma for_loop_rule (I : Z -> S -> Prop) (body : Z -> S -> outcome S) :
  forall (n : nat) (i : Z),
  (forall j s, i <= j < i + Z.of_nat n -> I j s ->
     exists s', body j s = Ok s' /\ I (j + 1) s') ->
  forall s, I i s ->
  exists s', for_loop n i body s = Ok s' /\ I (i + Z.of_nat n) s'.
Proof.
  induction n as [|n IH]; intros i Hstep s HI; simpl.
  - exists s. rewrite Z.add_0_r. done.
  - destruct (Hstep i s) as (s1 & Hb & HI1); [lia|done|]. rewrite Hb. simpl.
    destruct (IH (i + 1)) with (s := s1) as (s' & Hr & HI'); [|done|].
    + intros j s2 Hj. apply Hstep. lia.
    + exists s'. split; [done|].
      replace (i + Z.of_nat (Datatypes.S n)) with (i + 1 + Z.of_nat n) by lia.
      done.
Qed.

End loops.

(** *** Calls that may end in [ERROR]

    [or_error Q o]: the call returns a result that satisfies [Q], or it stops in
    the [ERROR] macro; nothing else happens. *)
Definition or_error {A : Type} (Q : A -> Prop) (o : outcome A) : Prop :=
  match o with
  | Ok a => Q a
  | Halt h => h = HError
  end.

Lemma or_error_bind {A B : Type} (Q : A -> Prop) (R : B -> Prop) (o : outcome A)
    (f : A -> outcome B) :
  or_error Q o -> (forall a, Q a -> or_error R (f a)) -> or_error R (o ≫= f).
Proof. destruct o; simpl; auto. Qed.

Lemma or_error_mono {A : Type} (Q R : A -> Prop) (o : outcome A) :
  or_error Q o -> (forall a, Q a -> R a) -> or_error R o.
Proof. destruct o; simpl; auto. Qed.

Lemma while_or_error {S : Type} (I Q : S -> Prop) (m : S -> nat)
    (cond : S -> outcome bool) (body : S -> outcome S) :
  (forall s, I s -> exists b, cond s = Ok b /\
     if b : bool then or_error (fun s' => I s' /\ (m s' < m s)%nat) (body s) else Q s) ->
  forall fuel s, I s -> (m s < fuel)%nat -> or_error Q (while fuel cond body s).
Proof.
  intros Hstep fuel. induction fuel as [|fuel IH]; intros s HI Hm; [lia|].
  destruct (Hstep s HI) as (b & Hc & Hb). simpl. rewrite Hc. simpl. destruct b; [|done].
  apply (or_error_bind _ _ _ _ Hb). intros s' [HI' Hlt]. apply IH; [done|lia].
Qed.

(** A loop that goes on until it faults. *)
Lemma while_fault {S : Type} (I : S -> Prop) (m : S -> nat) (cond : S -> outcome bool) (body : S -> outcome S) :
  (forall s, I s -> cond s = Ok true /\ (body s = Halt HFault \/ exists s', body s = Ok s' /\ I s' /\ (m s' < m s)%nat)) ->
  forall fuel s, I s -> (m s < fuel)%nat -> while fuel cond body s = Halt HFault.
Proof.
  intros Hstep fuel. induction fuel as [|fuel IH]; intros s HI Hm; [lia|].
  destruct (Hstep s HI) as [Hc Hb]. simpl. rewrite Hc. simpl.
  destruct Hb as [->|(s' & -> & HI' & Hlt)]; [done|]. simpl. apply IH; [done|lia].
Qed.

Lemma for_or_error {S : Type} (I : Z -> S -> Prop) (body : Z -> S -> outcome S) :
  forall (n : nat) (i : Z),
  (forall j s, i <= j < i + Z.of_nat n -> I j s -> or_error (I (j + 1)) (body j s)) ->
  forall s, I i s -> or_error (I (i + Z.of_nat n)) (for_loop n i body s).
Proof.
  induction n as [|n IH]; intros i Hstep s HI; simpl.
  - by rewrite Z.add_0_r.
  - apply (or_error_bind (I (i + 1))); [apply Hstep; [lia|done]|]. intros s' HI'.
    replace (i + Z.of_nat (Datatypes.S n)) with (i + 1 + Z.of_nat n) by lia.
    apply IH; [|done]. intros j s2 Hj. apply Hstep. lia.
Qed.

(** *** Invariants and frames of stateful code

    [keeps P R m Q]: from a state with [P], if [m] returns it does so in a state
    with [P] that [R] relates to the first one, with a result in [Q]. *)
Definition keeps {S A : Type} (P : S -> Prop) (R : S -> S -> Prop) (m : st S A) (Q : A -> Prop) : Prop :=
  forall s a s', P s -> m s = Ok (a, s') -> P s' /\ R s s' /\ Q a.

Section keeps.
Context {S : Type} (P : S -> Prop) (R : S -> S -> Prop) `{!PreOrder R}.

Lemma keeps_ret {A} (a : A) (Q : A -> Prop) : Q a -> keeps P R (mret a) Q.
Proof. intros Ha s b s' HP [= <- <-]. done. Qed.

Lemma keeps_bind {A B} (m : st S A) (f : A -> st S B) (Q : A -> Prop) (T : B -> Prop) :
  keeps P R m Q -> (forall a, Q a -> keeps P R (f a) T) -> keeps P R (m ≫= f) T.
Proof.
  intros Hm Hf s b s' HP E. unfold mbind, st_bind in E. destruct (m s) as [[a s1]|] eqn:Em; [|done].
  destruct (Hm _ _ _ HP Em) as (HP1 & HR1 & Ha). destruct (Hf a Ha _ _ _ HP1 E) as (HP2 & HR2 & Hb).
  split; [done|]. split; [by etrans|done].
Qed.

(** The same with a step that [R] does not cover before or after it. *)
Lemma keeps_bind_l {A B} (R' : S -> S -> Prop) (m : st S A) (f : A -> st S B) (Q : A -> Prop) (T : B -> Prop) :
  (forall a b c, R a b -> R' b c -> R' a c) ->
  keeps P R m Q -> (forall a, Q a -> keeps P R' (f a) T) -> keeps P R' (m ≫= f) T.
Proof.
  intros HR Hm Hf s b s' HP E. unfold mbind, st_bind in E. destruct (m s) as [[a s1]|] eqn:Em; [|done].
  destruct (Hm _ _ _ HP Em) as (HP1 & HR1 & Ha). destruct (Hf a Ha _ _ _ HP1 E) as (HP2 & HR2 & Hb).
  split; [done|]. split; [by eapply HR|done].
Qed.

Lemma keeps_mono {A} (m : st S A) (Q T : A -> Prop) :
  keeps P R m Q -> (forall a, Q a -> T a) -> keeps P R m T.
Proof. intros Hm HQ s a s' HP E. destruct (Hm s a s' HP E) as (? & ? & ?). auto. Qed.

Lemma keeps_gets {A} (f : S -> A) : keeps P R (gets f) (fun _ => True).
Proof. intros s a s' HP [= <- <-]. done. Qed.

Lemma keeps_stop {A} h (Q : A -> Prop) : keeps P R (stop h) Q.
Proof. by intros s a s' HP. Qed.

Lemma keeps_lift {A} (o : outcome A) : keeps P R (lift o) (fun a => o = Ok a).
Proof. intros s a s' HP. unfold lift. destruct o; [|done]. by intros [= <- <-]. Qed.

Lemma keeps_if {A} (b : bool) (m1 m2 : st S A) (Q : A -> Prop) :
  (b = true -> keeps P R m1 Q) -> (b = false -> keeps P R m2 Q) -> keeps P R (if b then m1 else m2) Q.
Proof. destruct b; auto. Qed.

Lemma keeps_when (b : bool) (m : st S ()) :
  (b = true -> keeps P R m (fun _ => True)) -> keeps P R (when b m) (fun _ => True).
Proof. intros Hm. apply keeps_if; [done|]. intros _. by apply keeps_ret. Qed.

Lemma keeps_for n i (body : Z -> st S ()) :
  (forall j, i <= j < i + Z.of_nat n -> keeps P R (body j) (fun _ => True)) ->
  keeps P R (for_st n i body) (fun _ => True).
Proof.
  revert i. induction n as [|n IH]; intros i Hb; simpl; [by apply keeps_ret|].
  apply (keeps_bind _ _ (fun _ => True)); [apply Hb; lia|]. intros _ _. apply IH.
  intros j Hj. apply Hb. lia.
Qed.
End keeps.

Arguments while : simpl never.
Arguments for_loop : simpl never.

Section arrays.
Context {A : Type}.
Implicit Type l : list A.

Lemma rd_Ok l i x :
  rd l i = Ok x <-> 0 <= i /\ l !! Z.to_nat i = Some x.
Proof.
  unfold rd. destruct (Z.ltb_spec i 0); [split; [done|lia]|].
  destruct (l !! Z.to_nat i); naive_solver.
Qed.

Lemma rd_in_range l i :
  0 <= i < Z.of_nat (length l) -> exists x, rd l i = Ok x.
Proof.
  intros Hi. destruct (lookup_lt_is_Some_2 l (Z.to_nat i)) as [x Hx]; [lia|].
  exists x. apply rd_Ok. split; [lia|done].
Qed.

Lemma rd_out_of_range l i :
  ~ (0 <= i < Z.of_nat (length l)) -> rd l i = Halt HFault.
Proof.
  intros Hi. unfold rd. destruct (Z.ltb_spec i 0); [done|].
  rewrite lookup_ge_None_2 by lia. done.
Qed.

Lemma wr_Ok l i x :
  0 <= i < Z.of_nat (length l) -> wr l i x = Ok (<[Z.to_nat i := x]> l).
Proof.
  intros Hi. unfold wr.
  destruct (Z.leb_spec 0 i), (Z.ltb_spec i (Z.of_nat (length l))); done || lia.
Qed.

End arrays.

(** *** Bits *)

Lemma testbit_small n w i :
  0 <= n < 2 ^ w -> 0 <= w <= i -> Z.testbit n i = false.
Proof.
  intros Hn Hi. rewrite <- (Z.mod_small n (2 ^ w)) by done.
  apply Z.mod_pow2_bits_high. lia.
Qed.

Lemma testbit_u32 x i :
  Z.testbit (u32 x) i = (i <? 32) && Z.testbit x i.
Proof.
  unfold u32. destruct (Z.ltb_spec i 32); simpl.
  - destruct (Z.leb_spec 0 i).
    + rewrite Z.mod_pow2_bits_low by lia. done.
    + rewrite !Z.testbit_neg_r by lia. done.
  - rewrite Z.mod_pow2_bits_high by lia. done.
Qed.

Lemma testbit_u64 x i :
  Z.testbit (u64 x) i = (i <? 64) && Z.testbit x i.
Proof.
  unfold u64. destruct (Z.ltb_spec i 64); simpl.
  - destruct (Z.leb_spec 0 i).
    + rewrite Z.mod_pow2_bits_low by lia. done.
    + rewrite !Z.testbit_neg_r by lia. done.
  - rewrite Z.mod_pow2_bits_high by lia. done.
Qed.

Lemma testbit_lsl32 x n i :
  0 <= n < 32 -> 0 <= i ->
  Z.testbit (lsl32 x n) i = (i <? 32) && Z.testbit x (i - n).
Proof.
  intros. unfold lsl32. rewrite Z.mod_small by lia.
  rewrite testbit_u32, Z.shiftl_spec by lia. done.
Qed.

Lemma testbit_not32 x i :
  0 <= i -> Z.testbit (not32 x) i = (i <? 32) && negb (Z.testbit x i).
Proof. intros. unfold not32. rewrite testbit_u32, Z.lnot_spec by lia. done. Qed.

Lemma testbit_not64 x i :
  0 <= i -> Z.testbit (not64 x) i = (i <? 64) && negb (Z.testbit x i).
Proof. intros. unfold not64. rewrite testbit_u64, Z.lnot_spec by lia. done. Qed.

Lemma testbit_1 i : Z.testbit 1 i = (i =? 0).
Proof.
  destruct (Z.eqb_spec i 0) as [->|Hi]; [done|].
  destruct (Z.ltb_spec i 0); [by rewrite Z.testbit_neg_r by lia|].
  apply (testbit_small 1 1); lia.
Qed.

Lemma testbit_ones_pow n i :
  0 <= n -> 0 <= i -> Z.testbit (2 ^ n - 1) i = (i <? n).
Proof.
  intros. replace (2 ^ n - 1) with (Z.ones n) by (rewrite Z.ones_equiv; lia).
  apply Z.testbit_ones_nonneg; lia.
Qed.

Lemma bits_eq_u (w x y : Z) :
  0 <= w -> 0 <= x < 2 ^ w -> 0 <= y < 2 ^ w ->
  (forall i, 0 <= i < w -> Z.testbit x i = Z.testbit y i) -> x = y.
Proof.
  intros Hw Hx Hy H. apply Z.bits_inj'. intros i Hi.
  destruct (Z.ltb_spec i w); [apply H; lia|].
  rewrite !(testbit_small _ w) by lia. done.
Qed.

(** Bitwise operations keep a value in its width. *)
Lemma bits_bound (w x : Z) :
  0 <= w -> 0 <= x -> (forall i, w <= i -> Z.testbit x i = false) -> x < 2 ^ w.
Proof.
  intros Hw Hx H. destruct (Z.ltb_spec x (2 ^ w)); [done|exfalso].
  assert (0 < x) by (pose proof (Z.pow_pos_nonneg 2 w); lia).
  assert (w <= Z.log2 x) by (apply Z.log2_le_pow2; lia).
  pose proof (Z.bit_log2 x ltac:(lia)) as Hb. rewrite H in Hb by lia. done.
Qed.

Lemma lor_range w x y :
  0 <= w -> 0 <= x < 2 ^ w -> 0 <= y < 2 ^ w -> 0 <= Z.lor x y < 2 ^ w.
Proof.
  intros Hw Hx Hy. split; [apply Z.lor_nonneg; lia|].
  apply bits_bound; [lia|apply Z.lor_nonneg; lia|].
  intros i Hi. rewrite Z.lor_spec, !(testbit_small _ w) by lia. done.
Qed.

Lemma land_range w x y :
  0 <= w -> 0 <= x < 2 ^ w -> 0 <= y -> 0 <= Z.land x y < 2 ^ w.
Proof.
  intros Hw Hx Hy. split; [apply Z.land_nonneg; lia|].
  apply bits_bound; [lia|apply Z.land_nonneg; lia|].
  intros i Hi. rewrite Z.land_spec, (testbit_small x w) by lia. done.
Qed.

(** A mask test [x & m] is zero exactly when the two share no bit. *)
Lemma land_zero_iff x m :
  0 <= x -> Z.land x m = 0 <->
  (forall i, 0 <= i -> Z.testbit m i = true -> Z.testbit x i = false).
Proof.
  intros Hx. split.
  - intros H i Hi Hm. apply (f_equal (fun z => Z.testbit z i)) in H.
    rewrite Z.land_spec, Hm, Z.bits_0, andb_true_r in H. done.
  - intros H. apply Z.bits_inj'. intros i Hi. rewrite Z.land_spec, Z.bits_0.
    specialize (H i Hi). destruct (Z.testbit m i); [by rewrite H|].
    apply andb_false_r.
Qed.

(** *** Counting *)

(** How many positions of [lo, lo+n) satisfy [f]. *)
Definition zcount (f : Z -> bool) (lo n : Z) : Z :=
  Z.of_nat (length (filter (fun i => f i = true) (seqZ lo n))).

Section zcount.
Implicit Types f g : Z -> bool.

Lemma zcount_nil f lo n : n <= 0 -> zcount f lo n = 0.
Proof. intros. unfold zcount. rewrite seqZ_nil by lia. done. Qed.

Lemma zcount_cons f lo n :
  0 < n -> zcount f lo n = (if f lo then 1 else 0) + zcount f (lo + 1) (n - 1).
Proof.
  intros. unfold zcount. rewrite seqZ_cons by lia. rewrite filter_cons.
  change (Z.succ lo) with (lo + 1). change (Z.pred n) with (n - 1).
  destruct (f lo) eqn:E.
  - rewrite decide_True by done. rewrite length_cons. lia.
  - rewrite decide_False by done. lia.
Qed.

Lemma zcount_app f lo n m :
  0 <= n -> 0 <= m -> zcount f lo (n + m) = zcount f lo n + zcount f (lo + n) m.
Proof.
  intros. unfold zcount. rewrite seqZ_app by lia. rewrite filter_app, length_app. lia.
Qed.

Lemma zcount_range f lo n : 0 <= n -> 0 <= zcount f lo n <= n.
Proof.
  intros. unfold zcount.
  pose proof (length_filter (fun i => f i = true) (seqZ lo n)) as H1.
  rewrite length_seqZ in H1. lia.
Qed.

(** Induction over the positions of an interval, from its first one. *)
Lemma interval_ind (P : Z -> Z -> Prop) :
  (forall lo n, n <= 0 -> P lo n) ->
  (forall lo n, 0 < n -> P (lo + 1) (n - 1) -> P lo n) ->
  forall lo n, P lo n.
Proof.
  intros H0 HS lo n. destruct (Z.leb_spec n 0); [by apply H0|].
  remember (Z.to_nat n) as k eqn:E. revert lo n H E.
  induction k as [|k IH]; intros; [lia|].
  apply HS; [lia|]. destruct (Z.leb_spec (n - 1) 0); [by apply H0|].
  apply IH; lia.
Qed.

Lemma zcount_ext f g lo n :
  (forall i, lo <= i < lo + n -> f i = g i) -> zcount f lo n = zcount g lo n.
Proof.
  revert lo n. apply (interval_ind (fun lo n => _ -> _)).
  - intros. rewrite !zcount_nil by done. done.
  - intros lo n Hn IH H. rewrite (zcount_cons f), (zcount_cons g) by lia.
    rewrite IH by (intros; apply H; lia). rewrite (H lo) by lia. reflexivity.
Qed.

Lemma zcount_all f lo n :
  0 <= n -> (forall i, lo <= i < lo + n -> f i = true) -> zcount f lo n = n.
Proof.
  intros Hn H. rewrite (zcount_ext f (fun _ => true)) by exact H. clear H.
  revert lo n Hn. apply (interval_ind (fun lo n => _ -> _)).
  - intros. rewrite zcount_nil; lia.
  - intros lo n Hn IH ?. rewrite zcount_cons, IH by lia. lia.
Qed.

Lemma zcount_none f lo n :
  (forall i, lo <= i < lo + n -> f i = false) -> zcount f lo n = 0.
Proof.
  intros H. rewrite (zcount_ext f (fun _ => false)) by exact H. clear H.
  revert lo n. apply interval_ind.
  - intros. rewrite zcount_nil; lia.
  - intros lo n Hn IH. rewrite zcount_cons, IH by lia. lia.
Qed.

(** A position that satisfies [f] counts. *)
Lemma zcount_pos f lo n i : lo <= i < lo + n -> f i = true -> 0 < zcount f lo n.
Proof.
  intros Hi Hf. replace n with ((i - lo) + (n - (i - lo))) by lia.
  rewrite zcount_app by lia.
  rewrite (zcount_cons f (lo + (i - lo))) by lia.
  replace (lo + (i - lo)) with i by lia. rewrite Hf.
  pose proof (zcount_range f lo (i - lo)).
  pose proof (zcount_range f (i + 1) (n - (i - lo) - 1)). lia.
Qed.

(** Flipping a stretch that did not count to one that counts: the number of
    positions grows by its length. *)
Lemma zcount_flip f g lo n a k :
  lo <= a -> 0 <= k -> a + k <= lo + n ->
  (forall i, a <= i < a + k -> f i = false) ->
  (forall i, lo <= i < lo + n ->
     g i = if (a <=? i) && (i <? a + k) then true else f i) ->
  zcount g lo n = zcount f lo n + k.
Proof.
  intros Ha Hk Hn Hf Hg.
  replace n with ((a - lo) + (k + (n - (a - lo) - k))) by lia.
  rewrite !zcount_app by lia. replace (lo + (a - lo)) with a by lia.
  rewrite (zcount_ext g f lo) by (intros; rewrite Hg by lia; repeat zcase).
  rewrite (zcount_ext g f (a + k)) by (intros; rewrite Hg by lia; repeat zcase).
  rewrite (zcount_none f a k) by exact Hf.
  rewrite (zcount_all g a k); [lia|done|].
  intros i Hi. rewrite Hg by lia. repeat zcase.
Qed.

End zcount.
