(* ===== verification/Bit.v ===== *)
(** Bit and address arithmetic of [lib/inc/bit.h] and [core/inc/util.h]: the
    run-time masks, the accessor family the [BIT_OPS_GEN] macro generates for
    32- and 64-bit words, page rounding and range tests.

    The macro is one section over the word width; its instances [bit32_*],
    [bit64_*] and [bit_*] ([unsigned long], 64 bits) follow it. *)

From S2P Require Import Prelude.

(** ** [bit.h] *)

Definition BIT32_MASK (off len : Z) : Z :=
  lsl32 (u32 (lsl32 (lsl32 1 (len - 1)) 1 - 1)) off.

Definition BIT64_MASK (off len : Z) : Z :=
  lsl64 (u64 (lsl64 (lsl64 1 (len - 1)) 1 - 1)) off.

Definition BIT_MASK (off len : Z) : Z :=
  lsl64 (u64 (lsl64 (lsl64 1 (len - 1)) 1 - 1)) off.

Definition max (n1 n2 : Z) : Z := if n2 <? n1 then n1 else n2.
Definition min (n1 n2 : Z) : Z := if n1 <? n2 then n1 else n2.

Section BIT_OPS_GEN.
Context (W : nat) (lsl : Z -> Z -> Z) (NOT : Z -> Z) (MASK : Z -> Z -> Z).

Definition PRE_get (word off : Z) : Z := Z.land word (lsl 1 off).

Definition PRE_set (word off : Z) : Z := Z.lor word (lsl 1 off).

Definition PRE_clear (word off : Z) : Z := Z.land word (NOT (lsl 1 off)).

Definition PRE_extract (word off len : Z) : Z :=
  Z.land (Z.shiftr word (off mod Z.of_nat W)) (MASK 0 len).

Definition PRE_insert (word val off len : Z) : Z :=
  Z.lor (Z.land (NOT (MASK off len)) word) (lsl (Z.land (MASK 0 len) val) off).

(** [while (mask != 0U) { if ((mask & word) != 0U) break; mask <<= 1U; pos++; }]:
    the loop leaves with the mask and the position it stopped at. *)
Definition PRE_ffs (word : Z) : outcome Z :=
  '(mask, pos) ← while (S W)
    (fun '(mask, _) => Ok (negb (mask =? 0) && (Z.land mask word =? 0)))
    (fun '(mask, pos) => Ok (lsl mask 1, u64 (pos + 1)))
    (1, 0);
  Ok (if negb (mask =? 0) then pos else SIZE_MAX).

Definition PRE_count (word : Z) : outcome Z :=
  '(_, count) ← while (S W)
    (fun '(mask, _) => Ok (negb (mask =? 0)))
    (fun '(mask, count) =>
       Ok (lsl mask 1,
           if negb (Z.land mask word =? 0) then u64 (count + 1) else count))
    (1, 0);
  Ok count.

End BIT_OPS_GEN.

Definition bit32_get := PRE_get lsl32.
Definition bit32_set := PRE_set lsl32.
Definition bit32_clear := PRE_clear lsl32 not32.
Definition bit32_extract := PRE_extract 32 BIT32_MASK.
Definition bit32_insert := PRE_insert lsl32 not32 BIT32_MASK.
Definition bit32_ffs := PRE_ffs 32 lsl32.
Definition bit32_count := PRE_count 32 lsl32.

Definition bit64_get := PRE_get lsl64.
Definition bit64_set := PRE_set lsl64.
Definition bit64_clear := PRE_clear lsl64 not64.
Definition bit64_extract := PRE_extract 64 BIT64_MASK.
Definition bit64_insert := PRE_insert lsl64 not64 BIT64_MASK.
Definition bit64_ffs := PRE_ffs 64 lsl64.
Definition bit64_count := PRE_count 64 lsl64.

Definition bit_get := PRE_get lsl64.
Definition bit_set := PRE_set lsl64.
Definition bit_clear := PRE_clear lsl64 not64.
Definition bit_extract := PRE_extract 64 BIT_MASK.
Definition bit_insert := PRE_insert lsl64 not64 BIT_MASK.
Definition bit_ffs := PRE_ffs 64 lsl64.
Definition bit_count := PRE_count 64 lsl64.

(** ** [mem_cfg.h], [util.h] *)

Definition PAGE_SIZE : Z := 0x1000.

(** [ALIGN(VAL, TO) ((((VAL) + (TO)-1) / (TO)) * TO)] on [size_t] operands. *)
Definition ALIGN (VAL TO : Z) : Z := u64 (u64 (VAL + TO - 1) / TO * TO).

Definition IS_ALIGNED (VAL TO : Z) : bool := VAL mod TO =? 0.

Definition NUM_PAGES (SZ : Z) : Z := ALIGN SZ PAGE_SIZE / PAGE_SIZE.

Definition ULONG_MAX : Z := 2 ^ 64 - 1.

Definition range_in_range (base1 size1 base2 size2 : Z) : bool :=
  let limit1 := u64 (base1 + size1) in
  let limit2 := u64 (base2 + size2) in
  let limit1 := if limit1 <? base1 then ULONG_MAX else limit1 in
  let limit2 := if limit2 <? base2 then ULONG_MAX else limit2 in
  (base2 <=? base1) && (limit1 <=? limit2).

Definition in_range (addr base size : Z) : bool := range_in_range addr 0 base size.

(** ** Lemmas *)

(** What the generated accessors rely on: [lsl], [NOT] and [MASK] are the
    operations of a [w]-bit word. *)
Class WordOps (w : Z) (lsl : Z -> Z -> Z) (NOT : Z -> Z) (MASK : Z -> Z -> Z) := {
  word_width : 1 < w <= 64;
  word_lsl_range x n : 0 <= lsl x n < 2 ^ w;
  word_lsl x n i : 0 <= n < w -> 0 <= i ->
    Z.testbit (lsl x n) i = (i <? w) && Z.testbit x (i - n);
  word_not_range x : 0 <= NOT x < 2 ^ w;
  word_not x i : 0 <= i -> Z.testbit (NOT x) i = (i <? w) && negb (Z.testbit x i);
  word_mask_range off len : 0 <= MASK off len < 2 ^ w;
  word_mask off len i : 0 <= off < w -> 1 <= len <= w -> 0 <= i ->
    Z.testbit (MASK off len) i = (i <? w) && (off <=? i) && (i <? off + len);
}.

Lemma testbit_lsl64 x n i :
  0 <= n < 64 -> 0 <= i ->
  Z.testbit (lsl64 x n) i = (i <? 64) && Z.testbit x (i - n).
Proof.
  intros. unfold lsl64. rewrite Z.mod_small by lia.
  rewrite testbit_u64, Z.shiftl_spec by lia. done.
Qed.

(** [(1 << (len-1) << 1) - 1] is [2^len - 1], also for the full width, where
    the second shift drops the bit and the subtraction wraps. *)
Lemma mask_base32 len :
  1 <= len <= 32 -> u32 (lsl32 (lsl32 1 (len - 1)) 1 - 1) = 2 ^ len - 1.
Proof.
  intros Hl. unfold lsl32. rewrite (Z.mod_small (len - 1)) by lia.
  rewrite (Z.mod_small 1 32) by lia. rewrite !Z.shiftl_mul_pow2 by lia.
  rewrite Z.mul_1_l. pose proof (Z.pow_le_mono_r 2 (len - 1) 31).
  rewrite (u32_small (2 ^ (len - 1))) by lia.
  replace (2 ^ (len - 1) * 2 ^ 1) with (2 ^ len)
    by (rewrite <- Z.pow_add_r by lia; f_equal; lia).
  destruct (Z.eqb_spec len 32) as [->|]; [done|].
  pose proof (Z.pow_le_mono_r 2 len 31).
  pose proof (Z.pow_pos_nonneg 2 len).
  rewrite !u32_small; [lia|lia|rewrite u32_small; lia].
Qed.

Lemma mask_base64 len :
  1 <= len <= 64 -> u64 (lsl64 (lsl64 1 (len - 1)) 1 - 1) = 2 ^ len - 1.
Proof.
  intros Hl. unfold lsl64. rewrite (Z.mod_small (len - 1)) by lia.
  rewrite (Z.mod_small 1 64) by lia. rewrite !Z.shiftl_mul_pow2 by lia.
  rewrite Z.mul_1_l. pose proof (Z.pow_le_mono_r 2 (len - 1) 63).
  rewrite (u64_small (2 ^ (len - 1))) by lia.
  replace (2 ^ (len - 1) * 2 ^ 1) with (2 ^ len)
    by (rewrite <- Z.pow_add_r by lia; f_equal; lia).
  destruct (Z.eqb_spec len 64) as [->|]; [done|].
  pose proof (Z.pow_le_mono_r 2 len 63).
  pose proof (Z.pow_pos_nonneg 2 len).
  rewrite !u64_small; [lia|lia|rewrite u64_small; lia].
Qed.

(** [ones] shifted to [off]: the bit range [off, off+len). *)
Lemma testbit_ones_at len i off :
  0 <= len -> 0 <= i ->
  Z.testbit (2 ^ len - 1) (i - off) = (off <=? i) && (i <? off + len).
Proof.
  intros. destruct (Z.leb_spec off i); simpl.
  - rewrite testbit_ones_pow by lia. repeat zcase.
  - apply Z.testbit_neg_r. lia.
Qed.

#[export] Instance word32 : WordOps 32 lsl32 not32 BIT32_MASK.
Proof.
  split; intros; try apply u32_range; [lia|by apply testbit_lsl32| |].
  - by apply testbit_not32.
  - unfold BIT32_MASK. rewrite mask_base32 by lia.
    rewrite testbit_lsl32, testbit_ones_at by lia. apply andb_assoc.
Qed.

#[export] Instance word64 : WordOps 64 lsl64 not64 BIT64_MASK.
Proof.
  split; intros; try apply u64_range; [lia|by apply testbit_lsl64| |].
  - by apply testbit_not64.
  - unfold BIT64_MASK. rewrite mask_base64 by lia.
    rewrite testbit_lsl64, testbit_ones_at by lia. apply andb_assoc.
Qed.

#[export] Instance wordul : WordOps 64 lsl64 not64 BIT_MASK := word64.

Lemma BIT32_MASK_testbit off len i :
  0 <= off < 32 -> 1 <= len <= 32 -> 0 <= i ->
  Z.testbit (BIT32_MASK off len) i = (i <? 32) && (off <=? i) && (i <? off + len).
Proof. apply word_mask. Qed.

(** Number of set bits of [word] among the positions [lo, lo+n). *)
Definition popcount_from (word lo : Z) (n : nat) : Z :=
  zcount (Z.testbit word) lo (Z.of_nat n).

Lemma popcount_from_S word lo n :
  popcount_from word lo (S n) =
  (if Z.testbit word lo then 1 else 0) + popcount_from word (lo + 1) n.
Proof.
  unfold popcount_from. rewrite zcount_cons by lia.
  replace (Z.of_nat (S n) - 1) with (Z.of_nat n) by lia. done.
Qed.

Section word_ops_lemmas.
Context {w lsl NOT MASK} `{!WordOps w lsl NOT MASK}.

(** The single-bit mask of position [k]; past the top it is gone. *)
Definition onebit (k : Z) : Z := if k <? w then 2 ^ k else 0.

Lemma lsl_1 n : 0 <= n < w -> lsl 1 n = 2 ^ n.
Proof.
  intros Hn. pose proof word_width. apply (bits_eq_u w); [lia|apply word_lsl_range| |].
  - split; [lia|]. apply Z.pow_lt_mono_r; lia.
  - intros i Hi. rewrite word_lsl, testbit_1, Z.pow2_bits_eqb by lia.
    destruct (Z.ltb_spec i w); [|lia]. simpl.
    destruct (Z.eqb_spec (i - n) 0), (Z.eqb_spec n i); lia || done.
Qed.

Lemma lsl_onebit k : 0 <= k -> lsl (onebit k) 1 = onebit (k + 1).
Proof.
  intros Hk. pose proof word_width. apply (bits_eq_u w); [lia|apply word_lsl_range| |].
  - unfold onebit. destruct (Z.ltb_spec (k + 1) w); [|lia].
    split; [lia|]. apply Z.pow_lt_mono_r; lia.
  - intros i Hi. rewrite word_lsl by lia. unfold onebit.
    destruct (Z.ltb_spec i w); [|lia]. simpl.
    destruct (Z.ltb_spec k w), (Z.ltb_spec (k + 1) w);
      rewrite ?Z.pow2_bits_eqb, ?Z.bits_0 by lia; lia.
Qed.

Lemma onebit_zero k : 0 <= k -> (onebit k =? 0) = negb (k <? w).
Proof.
  intros. unfold onebit. destruct (Z.ltb_spec k w); simpl; [|done].
  apply Z.eqb_neq. pose proof (Z.pow_pos_nonneg 2 k). lia.
Qed.

Lemma land_onebit word k :
  0 <= k < w -> (Z.land (onebit k) word =? 0) = negb (Z.testbit word k).
Proof.
  intros Hk. unfold onebit. destruct (Z.ltb_spec k w); [|lia].
  pose proof (Z.pow_pos_nonneg 2 k).
  destruct (Z.testbit word k) eqn:E; simpl; [apply Z.eqb_neq|apply Z.eqb_eq].
  - intros Hz. apply (f_equal (fun z => Z.testbit z k)) in Hz.
    rewrite Z.land_spec, Z.pow2_bits_true, E, Z.bits_0 in Hz by lia. done.
  - apply Z.bits_inj'. intros i Hi.
    rewrite Z.land_spec, Z.pow2_bits_eqb, Z.bits_0 by lia.
    destruct (Z.eqb_spec k i) as [->|]; [by rewrite E|done].
Qed.

Lemma PRE_get_spec word off :
  0 <= off < w ->
  PRE_get lsl word off = if Z.testbit word off then 2 ^ off else 0.
Proof.
  intros. unfold PRE_get. rewrite lsl_1 by lia. apply Z.bits_inj'. intros i Hi.
  rewrite Z.land_spec, Z.pow2_bits_eqb by lia.
  destruct (Z.eqb_spec off i) as [->|].
  - destruct (Z.testbit word i); [by rewrite Z.pow2_bits_true by lia|by rewrite Z.bits_0].
  - rewrite andb_false_r. destruct (Z.testbit word off); [|by rewrite Z.bits_0].
    rewrite Z.pow2_bits_false by lia. done.
Qed.

Lemma PRE_set_testbit word off i :
  0 <= off < w -> 0 <= i ->
  Z.testbit (PRE_set lsl word off) i = (off =? i) || Z.testbit word i.
Proof.
  intros. unfold PRE_set. rewrite lsl_1, Z.lor_spec, Z.pow2_bits_eqb by lia.
  apply orb_comm.
Qed.

Lemma PRE_clear_testbit word off i :
  0 <= off < w -> 0 <= i < w ->
  Z.testbit (PRE_clear lsl NOT word off) i = negb (off =? i) && Z.testbit word i.
Proof.
  intros. unfold PRE_clear. rewrite lsl_1, Z.land_spec, word_not by lia.
  rewrite Z.pow2_bits_eqb by lia. destruct (Z.ltb_spec i w); [|lia].
  apply andb_comm.
Qed.

Lemma PRE_extract_testbit W word off len i :
  Z.of_nat W = w -> 0 <= off < w -> 1 <= len <= w -> 0 <= i ->
  Z.testbit (PRE_extract W MASK word off len) i =
  (i <? len) && Z.testbit word (i + off).
Proof.
  intros HW ???. unfold PRE_extract. rewrite HW, (Z.mod_small off w) by lia.
  rewrite Z.land_spec, Z.shiftr_spec, word_mask by lia.
  destruct (Z.ltb_spec i w), (Z.leb_spec 0 i), (Z.ltb_spec i len),
    (Z.ltb_spec i (0 + len)); try lia; simpl;
    rewrite ?andb_true_r, ?andb_false_r; done.
Qed.

Lemma PRE_extract_div W word off len :
  Z.of_nat W = w -> 0 <= off < w -> 1 <= len <= w -> 0 <= word < 2 ^ w ->
  PRE_extract W MASK word off len = word / 2 ^ off mod 2 ^ len.
Proof.
  intros HW Ho Hl Hw. apply Z.bits_inj'. intros i Hi.
  rewrite PRE_extract_testbit by lia. destruct (Z.ltb_spec i len); simpl.
  - rewrite Z.mod_pow2_bits_low, <- Z.shiftr_div_pow2, Z.shiftr_spec by lia. done.
  - rewrite Z.mod_pow2_bits_high by lia. done.
Qed.

Lemma PRE_insert_testbit word val off len i :
  0 <= off < w -> 1 <= len <= w -> 0 <= i < w ->
  Z.testbit (PRE_insert lsl NOT MASK word val off len) i =
  if (off <=? i) && (i <? off + len) then Z.testbit val (i - off)
  else Z.testbit word i.
Proof.
  intros. unfold PRE_insert.
  rewrite Z.lor_spec, Z.land_spec, word_not, word_mask, word_lsl, Z.land_spec by lia.
  destruct (Z.ltb_spec i w); [|lia]. simpl.
  destruct (Z.leb_spec off i); simpl.
  - rewrite word_mask by lia.
    destruct (Z.ltb_spec (i - off) w), (Z.leb_spec 0 (i - off)); try lia; simpl.
    destruct (Z.ltb_spec i (off + len)), (Z.ltb_spec (i - off) (0 + len)); try lia; simpl;
      rewrite ?orb_false_r, ?andb_true_r; done.
  - rewrite (Z.testbit_neg_r _ (i - off)) by lia. simpl. apply orb_false_r.
Qed.

End word_ops_lemmas.

(** The two scanning loops, as theorems over the width. *)
Section scan_lemmas.
Context {lsl NOT MASK} (W : nat) `{!WordOps (Z.of_nat W) lsl NOT MASK}.

Let mask_at (k : Z) : Z := onebit (w := Z.of_nat W) k.

Lemma onebit_0 : mask_at 0 = 1.
Proof.
  unfold mask_at, onebit. destruct (Z.ltb_spec 0 (Z.of_nat W)); [done|].
  pose proof word_width. lia.
Qed.

Lemma PRE_ffs_spec word :
  exists r, PRE_ffs W lsl word = Ok r /\
  ((0 <= r < Z.of_nat W /\ Z.testbit word r = true /\
    forall j, 0 <= j < r -> Z.testbit word j = false) \/
   (r = SIZE_MAX /\ forall j, 0 <= j < Z.of_nat W -> Z.testbit word j = false)).
Proof.
  pose proof word_width as Hw. unfold PRE_ffs.
  edestruct (while_rule
    (fun '(mask, pos) => 0 <= pos <= Z.of_nat W /\ mask = mask_at pos /\
       forall j, 0 <= j < pos -> Z.testbit word j = false)
    (fun '(mask, pos) => mask = mask_at pos /\ 0 <= pos <= Z.of_nat W /\
       (forall j, 0 <= j < pos -> Z.testbit word j = false) /\
       (pos < Z.of_nat W -> Z.testbit word pos = true))
    (fun '(_, pos) => Z.to_nat (Z.of_nat W - pos)))
    as ([mask pos] & -> & -> & Hpos & Hlow & Hhit).
  - intros [mask pos] (Hpos & -> & Hlow). eexists; split; [done|].
    unfold mask_at. rewrite onebit_zero by lia. rewrite negb_involutive.
    destruct (Z.ltb_spec pos (Z.of_nat W)); simpl; [|naive_solver lia].
    rewrite land_onebit by lia. destruct (Z.testbit word pos) eqn:E; simpl;
      [done|].
    rewrite u64_small by lia. eexists; split; [done|]. rewrite lsl_onebit by lia.
    split_and!; try lia; try done.
    intros j Hj. destruct (Z.eqb_spec j pos) as [->|]; [done|]. apply Hlow. lia.
  - simpl. rewrite onebit_0. split_and!; lia || done.
  - simpl. lia.
  - simpl. unfold mask_at. rewrite onebit_zero by lia. eexists; split; [done|].
    destruct (Z.ltb_spec pos (Z.of_nat W)); simpl; [left|right].
    + split_and!; try lia; [by apply Hhit|done].
    + split; [done|]. intros j Hj. apply Hlow. lia.
Qed.

Lemma PRE_count_spec word :
  PRE_count W lsl word = Ok (popcount_from word 0 W).
Proof.
  pose proof word_width as Hw. unfold PRE_count.
  edestruct (while_rule
    (fun '(mask, count) => exists k : nat, (k <= W)%nat /\ mask = mask_at (Z.of_nat k) /\
       0 <= count <= Z.of_nat k /\
       count + popcount_from word (Z.of_nat k) (W - k) = popcount_from word 0 W)
    (fun '(_, count) => count = popcount_from word 0 W)
    (fun '(mask, _) => if mask =? 0 then 0%nat else
       Z.to_nat (Z.of_nat W - Z.log2 mask)))
    as ([mask count] & -> & ->).
  - intros [mask count] (k & Hk & -> & Hc & Hsum). eexists; split; [done|].
    unfold mask_at. rewrite !onebit_zero by lia. rewrite negb_involutive.
    destruct (Z.ltb_spec (Z.of_nat k) (Z.of_nat W)); simpl.
    + rewrite land_onebit, negb_involutive by lia. eexists; split; [done|].
      rewrite lsl_onebit, onebit_zero by lia.
      replace (W - k)%nat with (S (W - S k)) in Hsum by lia.
      rewrite popcount_from_S in Hsum.
      split.
      * exists (S k). replace (Z.of_nat (S k)) with (Z.of_nat k + 1) by lia.
        split_and!; [lia|done|..];
          destruct (Z.testbit word (Z.of_nat k)); rewrite ?u64_small; lia.
      * unfold onebit. destruct (Z.ltb_spec (Z.of_nat k) (Z.of_nat W)); [|lia].
        rewrite Z.log2_pow2 by lia.
        destruct (Z.ltb_spec (Z.of_nat k + 1) (Z.of_nat W)); simpl; [|lia].
        rewrite Z.log2_pow2; lia.
    + replace (W - k)%nat with 0%nat in Hsum by lia.
      unfold popcount_from at 1 in Hsum. rewrite zcount_nil in Hsum; lia.
  - exists 0%nat. rewrite Nat.sub_0_r. split_and!; [lia|by rewrite <- onebit_0|lia|lia|done].
  - simpl. rewrite Z.sub_0_r. lia.
  - done.
Qed.

End scan_lemmas.

(** *** Page arithmetic *)

Lemma NUM_PAGES_eq sz :
  0 <= sz <= 2 ^ 64 - PAGE_SIZE -> NUM_PAGES sz = (sz + PAGE_SIZE - 1) / PAGE_SIZE.
Proof.
  intros Hs. unfold NUM_PAGES, ALIGN, PAGE_SIZE in *.
  rewrite (u64_small (sz + _ - 1)) by lia.
  rewrite u64_small by (divmod (sz + 0x1000 - 1) 0x1000; lia).
  rewrite Z.div_mul by lia. done.
Qed.

(** [NUM_PAGES] is the least number of pages that holds [sz] bytes. *)
Lemma NUM_PAGES_bounds sz :
  0 <= sz <= 2 ^ 64 - PAGE_SIZE ->
  sz <= NUM_PAGES sz * PAGE_SIZE < sz + PAGE_SIZE.
Proof.
  intros Hs. rewrite NUM_PAGES_eq by done. unfold PAGE_SIZE in *.
  divmod (sz + 0x1000 - 1) 0x1000. lia.
Qed.

Lemma NUM_PAGES_exact k :
  0 <= k < 2 ^ 52 - 1 -> NUM_PAGES (k * PAGE_SIZE) = k.
Proof.
  intros Hk. rewrite NUM_PAGES_eq by (unfold PAGE_SIZE; lia). unfold PAGE_SIZE.
  symmetry. apply (Z.div_unique _ _ _ (0x1000 - 1)); lia.
Qed.

Lemma ALIGN_page b :
  0 <= b <= 2 ^ 64 - PAGE_SIZE -> b mod PAGE_SIZE = 0 -> ALIGN b PAGE_SIZE = b.
Proof.
  intros Hb Hal. unfold ALIGN, PAGE_SIZE in *. rewrite (u64_small (b + _ - 1)) by lia.
  divmod b 0x1000.
  rewrite <- (Z.div_unique (b + 0x1000 - 1) 0x1000 (b / 0x1000) (0x1000 - 1)) by lia.
  rewrite u64_small; lia.
Qed.

(** [in_range] tests the closed interval: the address one past the end of
    the range passes. *)
Lemma in_range_spec addr base size :
  0 <= addr < 2 ^ 64 -> 0 <= base -> 0 <= size -> base + size < 2 ^ 64 ->
  in_range addr base size = true <-> base <= addr <= base + size.
Proof.
  intros. unfold in_range, range_in_range. rewrite Z.add_0_r.
  rewrite !u64_small by lia. repeat zcase.
Qed.

(** ** The properties *)

(** [bit32_insert] writes exactly the field [off, off+len) and
    [bit32_extract] reads it back; the bits outside the field are unchanged. *)
Theorem bit32_insert_extract word val off len :
  0 <= word < 2 ^ 32 -> 0 <= off -> 1 <= len -> off + len <= 32 -> 0 <= val < 2 ^ len ->
  bit32_extract (bit32_insert word val off len) off len = val /\
  forall i, 0 <= i < 32 -> ~ (off <= i < off + len) ->
    Z.testbit (bit32_insert word val off len) i = Z.testbit word i.
Proof.
  intros Hw Ho Hl Hle Hv. split.
  - apply Z.bits_inj'. intros i Hi. unfold bit32_extract, bit32_insert.
    rewrite (PRE_extract_testbit (w := 32)) by lia. destruct (Z.ltb_spec i len).
    + rewrite (PRE_insert_testbit (w := 32)), in_interval_true by lia. simpl. f_equal. lia.
    + simpl. symmetry. apply (testbit_small val len); lia.
  - intros i Hi Hn. unfold bit32_insert.
    rewrite (PRE_insert_testbit (w := 32)), in_interval_false by lia. done.
Qed.

Lemma bit32_insert_extract_witness :
  bit32_extract (bit32_insert 0xFFFFFFFF 5 8 4) 8 4 = 5.
Proof. apply (bit32_insert_extract 0xFFFFFFFF 5 8 4); lia. Defined.

(** [bit_ffs] of a word is the position of its lowest set bit, or [-1] (as a
    [size_t]) when no bit is set, and [bit_count] is the number of set bits; both
    loops end within 64 steps. *)
Theorem bit_ffs_count word :
  bit_count word = Ok (popcount_from word 0 64) /\
  exists r, bit_ffs word = Ok r /\
  ((0 <= r < 64 /\ Z.testbit word r = true /\
    forall j, 0 <= j < r -> Z.testbit word j = false) \/
   (r = SIZE_MAX /\ forall j, 0 <= j < 64 -> Z.testbit word j = false)).
Proof.
  split; [apply (PRE_count_spec 64)|]. apply (PRE_ffs_spec 64 (lsl := lsl64)).
Qed.
