(* ===== verification/Bitmap.v ===== *)
(** The bitmap library: [lib/bitmap.c] and [lib/inc/bitmap.h].

    A bitmap is an array of 32-bit granules; an access outside the array
    faults.  The word-at-a-time routines are related to the plain sequence of
    bits [bit map i]: counting a run, finding the first fit and setting a
    range. *)

From S2P Require Import Prelude Bit.

Abbreviation bitmap_t := (list Z).

Definition BITMAP_GRANULE_LEN : Z := 32.
Definition BITMAP_GRANULE_MASK (O L : Z) : Z := BIT32_MASK O L.

Definition BITMAP_SIZE (SIZE : Z) : Z :=
  SIZE / BITMAP_GRANULE_LEN + (if SIZE mod BITMAP_GRANULE_LEN =? 0 then 0 else 1).

Definition bitmap_set (map : bitmap_t) (bit : Z) : outcome bitmap_t :=
  w ← rd map (bit / BITMAP_GRANULE_LEN);
  wr map (bit / BITMAP_GRANULE_LEN) (Z.lor w (lsl32 1 (bit mod BITMAP_GRANULE_LEN))).

Definition bitmap_clear (map : bitmap_t) (bit : Z) : outcome bitmap_t :=
  w ← rd map (bit / BITMAP_GRANULE_LEN);
  wr map (bit / BITMAP_GRANULE_LEN)
    (Z.land w (not32 (lsl32 1 (bit mod BITMAP_GRANULE_LEN)))).

Definition bitmap_get (map : bitmap_t) (bit : Z) : outcome Z :=
  w ← rd map (bit / BITMAP_GRANULE_LEN);
  Ok (if Z.land w (lsl32 1 (bit mod BITMAP_GRANULE_LEN)) =? 0 then 0 else 1).

Definition bitmap_clear_consecutive (map : bitmap_t) (start n : Z) : outcome bitmap_t :=
  for_loop (Z.to_nat n) 0 (fun i map => bitmap_clear map (u64 (start + i))) map.

Definition bitmap_count (map : bitmap_t) (start n : Z) (set : bool) : outcome Z :=
  for_loop (Z.to_nat (n - start)) start
    (fun i count => b ← bitmap_get map i;
       Ok (if b =? (if set then 1 else 0) then u64 (count + 1) else count)) 0.

(** [for (i = start; i < size; i++)] with the early return: [k] iterations
    are left. *)
Fixpoint find_nth_from (map : bitmap_t) (k : nat) (i count nth bit : Z) : outcome Z :=
  match k with
  | O => Ok SIZE_MAX
  | S k' =>
      b ← bitmap_get map i;
      if b =? bit then
        let count := u64 (count + 1) in
        if count =? nth then Ok i else find_nth_from map k' (i + 1) count nth bit
      else find_nth_from map k' (i + 1) count nth bit
  end.

Definition bitmap_find_nth (map : bitmap_t) (size nth start : Z) (set : bool) : outcome Z :=
  let bit := if set then 1 else 0 in
  if (size <=? 0) || (nth <=? 0) || (start <? 0) then Ok SIZE_MAX
  else find_nth_from map (Z.to_nat (size - start)) start 0 nth bit.

(** The three stages of [bitmap_count_consecutive]: the part of the first
    granule, whole granules, single bits.  Each maps (count, pos). *)
Definition count_first_word (map : bitmap_t) (start first_word_bits : Z) (set : bool)
    (s : Z * Z) : outcome (Z * Z) :=
  let '(count, pos) := s in
  let init_mask :=
    BITMAP_GRANULE_MASK (start mod BITMAP_GRANULE_LEN) first_word_bits in
  let mask := if set then init_mask else not32 init_mask in
  w ← rd map (pos / BITMAP_GRANULE_LEN);
  Ok (if Z.land (Z.lxor w mask) init_mask =? 0
      then (u64 (count + first_word_bits), u64 (pos + first_word_bits))
      else (count, pos)).

Definition count_words (map : bitmap_t) (size n : Z) (set : bool)
    (s : Z * Z) : outcome (Z * Z) :=
  let mask := if set then not32 0 else 0 in
  while (S (Z.to_nat size))
    (fun '(count, pos) =>
       if pos <? size then
         w ← rd map (pos / BITMAP_GRANULE_LEN);
         Ok ((Z.lxor w mask =? 0) && (count <? n))
       else Ok false)
    (fun '(count, pos) =>
       Ok (u64 (count + BITMAP_GRANULE_LEN), u64 (pos + BITMAP_GRANULE_LEN)))
    s.

Definition count_bits (map : bitmap_t) (size n : Z) (set : bool)
    (s : Z * Z) : outcome (Z * Z) :=
  while (S (Z.to_nat size))
    (fun '(count, pos) =>
       if pos <? size then
         b ← bitmap_get map pos;
         Ok (Bool.eqb (negb (b =? 0)) set && (count <? n))
       else Ok false)
    (fun '(count, pos) => Ok (u64 (count + 1), u64 (pos + 1)))
    s.

Definition bitmap_count_consecutive (map : bitmap_t) (size start n : Z) : outcome Z :=
  let start_offset := start mod BITMAP_GRANULE_LEN in
  let first_word_bits := min (BITMAP_GRANULE_LEN - start_offset) n in
  b ← bitmap_get map start;
  let set := negb (b =? 0) in
  if n <=? 1 then Ok n else
  s ← count_first_word map start first_word_bits set (0, start);
  s ← count_words map size n set s;
  '(count, _) ← count_bits map size n set s;
  Ok count.

(** The loop of [bitmap_find_consec] leaves with [i] at a long enough run or
    past the end.  The test [(i = bitmap_find_nth(..)) < 0] of an unsigned
    value is never true, so it has no effect. *)
Definition bitmap_find_consec (map : bitmap_t) (size start n : Z) (set : bool) : outcome Z :=
  i ← bitmap_find_nth map size 1 start set;
  '(i, _) ← while (S (S (Z.to_nat size)))
    (fun '(i, found) => Ok ((i <? size) && negb found))
    (fun '(i, _) =>
       count ← bitmap_count_consecutive map size i n;
       if count <? n then
         let i := u64 (i + count) in
         c ← bitmap_count_consecutive map size i SIZE_MAX;
         Ok (u64 (i + c), false)
       else Ok (i, true))
    (i, false);
  Ok (if size <=? i then SIZE_MAX else i).

Definition bitmap_set_consecutive (map : bitmap_t) (start n : Z) : outcome bitmap_t :=
  let pos := start in
  let count := n in
  let start_offset := start mod BITMAP_GRANULE_LEN in
  let first_word_bits := min (BITMAP_GRANULE_LEN - start_offset) count in
  w ← rd map (pos / BITMAP_GRANULE_LEN);
  map ← wr map (pos / BITMAP_GRANULE_LEN)
    (Z.lor w (BITMAP_GRANULE_MASK start_offset first_word_bits));
  let pos := u64 (pos + first_word_bits) in
  let count := u64 (count - first_word_bits) in
  '(map, pos, count) ← while (S (Z.to_nat n))
    (fun '(_, _, count) => Ok (BITMAP_GRANULE_LEN <=? count))
    (fun '(map, pos, count) =>
       w ← rd map (pos / BITMAP_GRANULE_LEN);
       map ← wr map (pos / BITMAP_GRANULE_LEN) (Z.lor w (not32 0));
       Ok (map, u64 (pos + BITMAP_GRANULE_LEN), u64 (count - BITMAP_GRANULE_LEN)))
    (map, pos, count);
  if 0 <? count then
    w ← rd map (pos / BITMAP_GRANULE_LEN);
    wr map (pos / BITMAP_GRANULE_LEN) (Z.lor w (BITMAP_GRANULE_MASK 0 count))
  else Ok map.

(** ** The bits of a bitmap *)

(** Bit [i]; bits outside the array read as clear. *)
Definition bit (map : bitmap_t) (i : Z) : bool :=
  Z.testbit (default 0 (map !! Z.to_nat (i / 32))) (i mod 32).

(** Number of bits the array holds. *)
Definition nbits (map : bitmap_t) : Z := 32 * Z.of_nat (length map).

(** Granules are 32-bit words, and positions fit an [int] ([pp_alloc] stores
    the index in one). *)
Definition bitmap_wf (map : bitmap_t) : Prop :=
  Forall (fun w => 0 <= w < 2 ^ 32) map /\ nbits map < 2 ^ 31.

(** Bits [i, i+n) all have value [v]. *)
Definition run (map : bitmap_t) (v : bool) (i n : Z) : Prop :=
  forall j, i <= j < i + n -> bit map j = v.

(** ** Reading and writing granules *)

Lemma granule_index map i :
  0 <= i < nbits map -> 0 <= i / 32 < Z.of_nat (length map).
Proof. unfold nbits. intros. divmod i 32. lia. Qed.

Lemma rd_granule map i :
  0 <= i < nbits map ->
  rd map (i / 32) = Ok (default 0 (map !! Z.to_nat (i / 32))).
Proof.
  intros Hi. pose proof (granule_index map i Hi) as Hg.
  destruct (rd_in_range map (i / 32) Hg) as [w Hw]. rewrite Hw.
  apply rd_Ok in Hw as [_ ->]. done.
Qed.

Lemma granule_bit map i j :
  i / 32 = j / 32 ->
  Z.testbit (default 0 (map !! Z.to_nat (i / 32))) (j mod 32) = bit map j.
Proof. intros ->. done. Qed.

Lemma granule_range map i :
  bitmap_wf map -> 0 <= default 0 (map !! i) < 2 ^ 32.
Proof.
  intros [Hwf _]. destruct (map !! i) as [w|] eqn:E; simpl; [|lia].
  apply (Forall_lookup_1 _ _ _ _ Hwf E).
Qed.

Lemma bit_out map i : nbits map <= i -> bit map i = false.
Proof.
  intros Hi. unfold bit, nbits in *. divmod i 32.
  rewrite lookup_ge_None_2 by lia. simpl. apply Z.bits_0.
Qed.

Lemma bitmap_get_Ok map i :
  0 <= i < nbits map -> bitmap_get map i = Ok (if bit map i then 1 else 0).
Proof.
  intros Hi. unfold bitmap_get, BITMAP_GRANULE_LEN. rewrite rd_granule by done.
  simpl. divmod i 32. change (Z.land ?w (lsl32 1 ?o)) with (PRE_get lsl32 w o).
  rewrite (PRE_get_spec (w := 32)) by lia. unfold bit.
  destruct (Z.testbit _ _); [|done].
  destruct (Z.eqb_spec (2 ^ (i mod 32)) 0); [|done].
  pose proof (Z.pow_pos_nonneg 2 (i mod 32)). lia.
Qed.

Lemma bitmap_get_fault map i :
  nbits map <= i -> bitmap_get map i = Halt HFault.
Proof.
  intros Hi. unfold bitmap_get, BITMAP_GRANULE_LEN, nbits in *. divmod i 32.
  rewrite rd_out_of_range by lia. done.
Qed.

Lemma nbits_insert map k w : nbits (<[k := w]> map) = nbits map.
Proof. unfold nbits. rewrite length_insert. done. Qed.

Lemma bit_insert map p w i :
  0 <= p < nbits map -> 0 <= i ->
  bit (<[Z.to_nat (p / 32) := w]> map) i =
  if i / 32 =? p / 32 then Z.testbit w (i mod 32) else bit map i.
Proof.
  intros Hp Hi. pose proof (granule_index map p Hp). unfold bit.
  divmod i 32. destruct (Z.eqb_spec (i / 32) (p / 32)) as [E|E].
  - rewrite E, list_lookup_insert_eq by lia. done.
  - rewrite list_lookup_insert_ne by lia. done.
Qed.

Lemma bitmap_wf_insert map k w :
  bitmap_wf map -> 0 <= w < 2 ^ 32 -> bitmap_wf (<[k := w]> map).
Proof.
  intros [Hf Hn] Hw. split; [by apply Forall_insert|]. by rewrite nbits_insert.
Qed.

(** Read-modify-write of one granule: the shared step of every writer. *)
Lemma granule_update map p (f : Z -> Z) (g : bool -> Z -> bool) :
  bitmap_wf map -> 0 <= p < nbits map ->
  (forall w, 0 <= w < 2 ^ 32 -> 0 <= f w < 2 ^ 32) ->
  (forall w o, 0 <= w < 2 ^ 32 -> 0 <= o < 32 ->
     Z.testbit (f w) o = g (Z.testbit w o) o) ->
  exists map',
    rd map (p / BITMAP_GRANULE_LEN) ≫=
      (fun w => wr map (p / BITMAP_GRANULE_LEN) (f w)) = Ok map' /\
    bitmap_wf map' /\ nbits map' = nbits map /\
    forall i, 0 <= i -> bit map' i =
      if i / 32 =? p / 32 then g (bit map i) (i mod 32) else bit map i.
Proof.
  intros Hwf Hp Hr Hg. unfold BITMAP_GRANULE_LEN. rewrite rd_granule by done. simpl.
  pose proof (granule_range map (Z.to_nat (p / 32)) Hwf) as Hw.
  rewrite wr_Ok by (by apply granule_index). eexists; split; [done|].
  split; [apply bitmap_wf_insert; auto|]. split; [apply nbits_insert|].
  intros i Hi. rewrite bit_insert by lia.
  destruct (Z.eqb_spec (i / 32) (p / 32)) as [E|E]; [|done].
  rewrite Hg by (try done; apply Z.mod_pos_bound; lia).
  rewrite granule_bit by done. done.
Qed.

(** A position is the pair of its granule and its offset. *)
Lemma pos_eq i j : i / 32 = j / 32 -> i mod 32 = j mod 32 -> i = j.
Proof. intros. rewrite (Z.div_mod i 32), (Z.div_mod j 32) by lia. lia. Qed.

Lemma bitmap_set_spec map p :
  bitmap_wf map -> 0 <= p < nbits map ->
  exists map', bitmap_set map p = Ok map' /\ bitmap_wf map' /\
    nbits map' = nbits map /\
    forall i, 0 <= i -> bit map' i = (p =? i) || bit map i.
Proof.
  intros Hwf Hp. divmod p 32.
  destruct (granule_update map p (fun w => PRE_set lsl32 w (p mod 32))
    (fun b o => (p mod 32 =? o) || b)) as (map' & E & Hwf' & Hn & Hb); try done.
  - intros w Hw. apply lor_range; [lia|done|]. apply u32_range.
  - intros w o Hw Ho. apply (PRE_set_testbit (w := 32)); lia.
  - exists map'. split_and!; [done..|]. intros i Hi. rewrite Hb by done.
    destruct (Z.eqb_spec (i / 32) (p / 32)), (Z.eqb_spec (p mod 32) (i mod 32)),
      (Z.eqb_spec p i); subst; done || (exfalso; auto using pos_eq).
Qed.

Lemma bitmap_clear_spec map p :
  bitmap_wf map -> 0 <= p < nbits map ->
  exists map', bitmap_clear map p = Ok map' /\ bitmap_wf map' /\
    nbits map' = nbits map /\
    forall i, 0 <= i -> bit map' i = negb (p =? i) && bit map i.
Proof.
  intros Hwf Hp. divmod p 32.
  destruct (granule_update map p (fun w => PRE_clear lsl32 not32 w (p mod 32))
    (fun b o => negb (p mod 32 =? o) && b)) as (map' & E & Hwf' & Hn & Hb); try done.
  - intros w Hw. apply land_range; [lia|done|]. apply u32_range.
  - intros w o Hw Ho. apply (PRE_clear_testbit (w := 32)); lia.
  - exists map'. split_and!; [done..|]. intros i Hi. rewrite Hb by done.
    destruct (Z.eqb_spec (i / 32) (p / 32)), (Z.eqb_spec (p mod 32) (i mod 32)),
      (Z.eqb_spec p i); subst; done || (exfalso; auto using pos_eq).
Qed.

(** A cleared bitmap. *)
Lemma bit_replicate k i : bit (replicate k 0) i = false.
Proof.
  unfold bit. destruct (replicate k 0 !! _) as [w|] eqn:E; [|apply Z.bits_0].
  apply lookup_replicate in E as [-> _]. apply Z.bits_0.
Qed.

Lemma bitmap_wf_replicate k : 32 * Z.of_nat k < 2 ^ 31 -> bitmap_wf (replicate k 0).
Proof.
  intros Hk. split; [apply Forall_replicate; lia|]. unfold nbits. rewrite length_replicate. lia.
Qed.

(** ** Loops over single bits *)

Lemma bitmap_clear_consecutive_spec map start n :
  bitmap_wf map -> 0 <= start -> 0 <= n -> start + n <= nbits map ->
  exists map', bitmap_clear_consecutive map start n = Ok map' /\ bitmap_wf map' /\
    nbits map' = nbits map /\
    forall i, 0 <= i ->
      bit map' i = negb ((start <=? i) && (i <? start + n)) && bit map i.
Proof.
  intros Hwf Hs Hn Hle. pose proof (proj2 Hwf) as Hmax.
  unfold bitmap_clear_consecutive.
  destruct (for_loop_rule (fun k m => bitmap_wf m /\ nbits m = nbits map /\
      forall i, 0 <= i ->
        bit m i = negb ((start <=? i) && (i <? start + k)) && bit map i)
    (fun i m => bitmap_clear m (u64 (start + i))) (Z.to_nat n) 0)
    with (s := map) as (map' & E & Hwf' & Hn' & Hb).
  - intros j m Hj (Hm & Hnm & Hbm). rewrite u64_small by lia.
    destruct (bitmap_clear_spec m (start + j)) as (m' & -> & Hm' & Hnm' & Hbm');
      [done|lia|].
    eexists; split; [done|]. split; [done|]. split; [lia|]. intros i Hi.
    rewrite Hbm', Hbm by done. rewrite andb_assoc. f_equal.
    destruct (Z.eqb_spec (start + j) i); repeat zcase.
  - split; [done|]. split; [done|]. intros. repeat zcase.
  - exists map'. rewrite E. split_and!; try done. intros i Hi. rewrite Hb by done.
    replace (0 + Z.of_nat (Z.to_nat n)) with n by lia. done.
Qed.

Lemma bitmap_count_spec map start n set :
  0 <= start -> n <= nbits map -> nbits map < 2 ^ 31 ->
  bitmap_count map start n set =
  Ok (zcount (fun i => Bool.eqb (bit map i) set) start (n - start)).
Proof.
  intros Hs Hn Hmax. unfold bitmap_count.
  destruct (for_loop_rule (fun k c =>
      c = zcount (fun i => Bool.eqb (bit map i) set) start (k - start))
    (fun i count => b ← bitmap_get map i;
       Ok (if b =? (if set then 1 else 0) then u64 (count + 1) else count))
    (Z.to_nat (n - start)) start) with (s := 0) as (c & E & Hc).
  - intros j c Hj ->. rewrite bitmap_get_Ok by lia. simpl. eexists; split; [done|].
    replace (j + 1 - start) with ((j - start) + 1) by lia.
    rewrite (zcount_app _ start (j - start) 1) by lia.
    replace (start + (j - start)) with j by lia.
    rewrite (zcount_cons _ j), (zcount_nil _ (j + 1)) by lia.
    pose proof (zcount_range (fun i => Bool.eqb (bit map i) set) start (j - start)).
    rewrite u64_small by lia. destruct (bit map j), set; simpl; lia.
  - rewrite Z.sub_diag, zcount_nil by lia. done.
  - rewrite E, Hc. destruct (Z.leb_spec start n).
    + replace (start + Z.of_nat (Z.to_nat (n - start)) - start) with (n - start) by lia.
      done.
    + rewrite !zcount_nil by lia. done.
Qed.

(** [i] is the [nth] position (counted from 1) of value [set] at or after
    [start]. *)
Definition is_nth (map : bitmap_t) (set : bool) (start nth i : Z) : Prop :=
  start <= i /\ bit map i = set /\
  zcount (fun j => Bool.eqb (bit map j) set) start (i - start) = nth - 1.

Lemma find_nth_from_spec map set nth start k i count :
  0 <= start <= i -> i + Z.of_nat k <= nbits map -> nbits map < 2 ^ 31 ->
  count = zcount (fun j => Bool.eqb (bit map j) set) start (i - start) ->
  count < nth ->
  exists r, find_nth_from map k i count nth (if set then 1 else 0) = Ok r /\
  ((i <= r < i + Z.of_nat k /\ is_nth map set start nth r) \/
   (r = SIZE_MAX /\
    zcount (fun j => Bool.eqb (bit map j) set) start (i + Z.of_nat k - start) < nth)).
Proof.
  revert i count. induction k as [|k IH]; intros i count Hi Hk Hmax Hc Hlt.
  { exists SIZE_MAX. split; [done|]. right. split; [done|].
    rewrite Z.add_0_r. lia. }
  simpl. rewrite bitmap_get_Ok by lia. simpl.
  assert (Hnext : zcount (fun j => Bool.eqb (bit map j) set) start (i + 1 - start) =
    count + (if Bool.eqb (bit map i) set then 1 else 0)).
  { replace (i + 1 - start) with ((i - start) + 1) by lia.
    rewrite zcount_app by lia. replace (start + (i - start)) with i by lia.
    rewrite (zcount_cons _ i), (zcount_nil _ (i + 1)) by lia. lia. }
  pose proof (zcount_range (fun j => Bool.eqb (bit map j) set) start (i - start)).
  assert (Htest : ((if bit map i then 1 else 0) =? (if set then 1 else 0)) =
    Bool.eqb (bit map i) set) by (destruct (bit map i), set; done).
  rewrite Htest. destruct (Bool.eqb (bit map i) set) eqn:E.
  - rewrite u64_small by lia. destruct (Z.eqb_spec (count + 1) nth).
    + exists i. split; [done|]. left. split; [lia|].
      split; [lia|]. split; [by apply eqb_prop|]. lia.
    + destruct (IH (i + 1) (count + 1)) as (r & -> & Hr); try lia.
      exists r. split; [done|]. destruct Hr as [[??]|[??]]; [left|right].
      * split; [lia|done].
      * split; [done|]. replace (i + Z.of_nat (S k)) with (i + 1 + Z.of_nat k); lia.
  - destruct (IH (i + 1) count) as (r & -> & Hr); try lia.
    exists r. split; [done|]. destruct Hr as [[??]|[??]]; [left|right].
    + split; [lia|done].
    + split; [done|]. replace (i + Z.of_nat (S k)) with (i + 1 + Z.of_nat k); lia.
Qed.

(** [bitmap_find_nth] returns the position of the [nth] bit of the wanted
    value in [start, size), or [(size_t)-1] when there are fewer. *)
Lemma bitmap_find_nth_spec map size nth start set :
  0 <= start -> 0 < size <= nbits map -> nbits map < 2 ^ 31 -> 0 < nth ->
  exists r, bitmap_find_nth map size nth start set = Ok r /\
  ((start <= r < size /\ is_nth map set start nth r) \/
   (r = SIZE_MAX /\
    zcount (fun j => Bool.eqb (bit map j) set) start (size - start) < nth)).
Proof.
  intros Hs Hsz Hmax Hn. unfold bitmap_find_nth.
  destruct (Z.leb_spec size 0), (Z.leb_spec nth 0), (Z.ltb_spec start 0); try lia.
  simpl. destruct (Z.leb_spec size start).
  - replace (Z.to_nat (size - start)) with 0%nat by lia. exists SIZE_MAX.
    split; [done|]. right. rewrite zcount_nil by lia. done.
  - destruct (find_nth_from_spec map set nth start (Z.to_nat (size - start)) start 0)
      as (r & -> & Hr); try lia.
    { rewrite Z.sub_diag, zcount_nil by lia. done. }
    exists r. split; [done|]. replace (start + Z.of_nat (Z.to_nat (size - start)))
      with size in Hr by lia. done.
Qed.

(** The first position of the wanted value: the case [nth = 1]. *)
Lemma bitmap_find_first_spec map size start set :
  0 <= start -> 0 < size <= nbits map -> nbits map < 2 ^ 31 ->
  exists r, bitmap_find_nth map size 1 start set = Ok r /\
  ((start <= r < size /\ bit map r = set /\ run map (negb set) start (r - start)) \/
   (r = SIZE_MAX /\ run map (negb set) start (size - start))).
Proof.
  intros Hs Hsz Hmax.
  destruct (bitmap_find_nth_spec map size 1 start set) as (r & -> & Hr); try lia.
  exists r. split; [done|].
  assert (Hrun : forall n, zcount (fun j => Bool.eqb (bit map j) set) start n <= 0 ->
    run map (negb set) start n).
  { intros n Hn j Hj. destruct (Bool.eqb (bit map j) set) eqn:E.
    - pose proof (zcount_pos (fun j => Bool.eqb (bit map j) set) start n j Hj E). lia.
    - destruct (bit map j), set; done. }
  destruct Hr as [(Hr & _ & Hb & Hc)|[-> Hc]]; [left|right].
  - split_and!; try lia; [done|]. apply Hrun. lia.
  - split; [done|]. apply Hrun. lia.
Qed.

(** ** Setting a range *)

(** The positions of one granule from [p] on, as offsets. *)
Lemma granule_interval p len i :
  0 <= p -> 1 <= len <= 32 - p mod 32 ->
  (i / 32 =? p / 32) && ((p mod 32 <=? i mod 32) && (i mod 32 <? p mod 32 + len)) =
  (p <=? i) && (i <? p + len).
Proof.
  intros Hp Hl. divmod p 32. divmod i 32.
  destruct (Z.eqb_spec (i / 32) (p / 32)); simpl; repeat zcase.
Qed.

Lemma granule_or map p len :
  bitmap_wf map -> 0 <= p < nbits map -> 1 <= len <= 32 - p mod 32 ->
  exists map',
    rd map (p / BITMAP_GRANULE_LEN) ≫=
      (fun w => wr map (p / BITMAP_GRANULE_LEN)
         (Z.lor w (BITMAP_GRANULE_MASK (p mod 32) len))) = Ok map' /\
    bitmap_wf map' /\ nbits map' = nbits map /\
    forall i, 0 <= i -> bit map' i = (p <=? i) && (i <? p + len) || bit map i.
Proof.
  intros Hwf Hp Hl. divmod p 32.
  destruct (granule_update map p
    (fun w => Z.lor w (BITMAP_GRANULE_MASK (p mod 32) len))
    (fun b o => (p mod 32 <=? o) && (o <? p mod 32 + len) || b))
    as (map' & E & Hwf' & Hn & Hb); try done.
  - intros w Hw. apply lor_range; [lia|done|]. apply word_mask_range.
  - intros w o Hw Ho. unfold BITMAP_GRANULE_MASK.
    rewrite Z.lor_spec, BIT32_MASK_testbit by lia.
    destruct (Z.ltb_spec o 32); [|lia]. apply orb_comm.
  - exists map'. split_and!; [done..|]. intros i Hi.
    rewrite Hb, <- (granule_interval p len i) by lia.
    destruct (i / 32 =? p / 32); done.
Qed.

(** [~0] on a granule is the mask of all 32 bits. *)
Lemma full_mask : not32 0 = BITMAP_GRANULE_MASK 0 32.
Proof. reflexivity. Qed.

Lemma first_word_pos p n :
  0 <= p -> 1 <= n ->
  let fw := min (BITMAP_GRANULE_LEN - p mod 32) n in
  1 <= fw <= 32 - p mod 32 /\ fw <= n /\ (fw < n -> (p + fw) mod 32 = 0).
Proof.
  intros Hp Hn fw. unfold fw, min, BITMAP_GRANULE_LEN. divmod p 32.
  destruct (Z.ltb_spec (32 - p mod 32) n); split_and!; try lia.
  intros _. replace (p + (32 - p mod 32)) with ((p / 32 + 1) * 32) by lia.
  apply Z.mod_mul. lia.
Qed.

Lemma bitmap_set_consecutive_spec map start n :
  bitmap_wf map -> 0 <= start -> 1 <= n -> start + n <= nbits map ->
  exists map', bitmap_set_consecutive map start n = Ok map' /\ bitmap_wf map' /\
    nbits map' = nbits map /\
    forall i, 0 <= i ->
      bit map' i = (start <=? i) && (i <? start + n) || bit map i.
Proof.
  intros Hwf Hs Hn Hle. pose proof (proj2 Hwf) as Hmax.
  destruct (first_word_pos start n) as (Hfw & Hfn & Halign); [lia..|].
  unfold bitmap_set_consecutive. set (fw := min _ _) in *.
  destruct (granule_or map start fw) as (m1 & E1 & Hwf1 & Hn1 & Hb1); try done; [lia|].
  apply bind_Ok in E1 as (w & Erd & Ewr). unfold BITMAP_GRANULE_LEN in *.
  rewrite Erd. simpl. rewrite Ewr. simpl. rewrite !u64_small by lia.
  edestruct (while_rule (fun '(m, pos, count) => bitmap_wf m /\ nbits m = nbits map /\
       0 <= count /\ start < pos /\ pos + count = start + n /\
       (0 < count -> pos mod 32 = 0) /\
       forall i, 0 <= i -> bit m i = (start <=? i) && (i <? pos) || bit map i)
    (fun '(m, pos, count) => bitmap_wf m /\ nbits m = nbits map /\
       0 <= count < 32 /\ start < pos /\ pos + count = start + n /\
       (0 < count -> pos mod 32 = 0) /\
       forall i, 0 <= i -> bit m i = (start <=? i) && (i <? pos) || bit map i)
    (fun '(_, _, count) => Z.to_nat count))
    as ([[m pos] count] & -> & Hwf2 & Hn2 & Hc & Hp & Hsum & Hal & Hb2).
  - intros [[m pos] count] (Hm & Hnm & Hc & Hp & Hsum & Hal & Hb).
    eexists; split; [done|]. destruct (Z.leb_spec 32 count); [|naive_solver lia].
    destruct (granule_or m pos 32) as (m' & E & Hm' & Hnm' & Hb'); try done; try lia.
    apply bind_Ok in E as (w' & Er & Ew). unfold BITMAP_GRANULE_LEN in *.
    rewrite Er. simpl. rewrite Hal in Ew by lia. rewrite full_mask, Ew. simpl.
    eexists; split; [done|]. rewrite !u64_small by lia.
    split_and!; try lia; [done| |].
    + intros _. rewrite <- Zplus_mod_idemp_l, Hal by lia. done.
    + intros i Hi. rewrite Hb', Hb by done. repeat zcase.
  - split_and!; try lia; [done|]. intros i Hi. rewrite Hb1 by done. done.
  - simpl. lia.
  - simpl. destruct (Z.ltb_spec 0 count).
    + destruct (granule_or m pos count) as (m' & E & Hm' & Hnm' & Hb'); try done; try lia.
      apply bind_Ok in E as (w' & Er & Ew). unfold BITMAP_GRANULE_LEN in *.
      rewrite Er. simpl. rewrite Hal in Ew by lia. rewrite Ew.
      eexists; split; [done|]. split_and!; [done|lia|].
      intros i Hi. rewrite Hb', Hb2 by done. repeat zcase.
    + exists m. split_and!; try done. intros i Hi. rewrite Hb2 by done. repeat zcase.
Qed.

(** ** Counting a run *)

(** The word test of the first granule: the bits under the mask all equal [v]. *)
Lemma masked_word_test w (v : bool) o len :
  0 <= w < 2 ^ 32 -> 0 <= o < 32 -> 1 <= len <= 32 - o ->
  let M := BITMAP_GRANULE_MASK o len in
  (Z.land (Z.lxor w (if v then M else not32 M)) M =? 0) = true <->
  (forall k, o <= k < o + len -> Z.testbit w k = v).
Proof.
  intros Hw Ho Hl M. rewrite Z.eqb_eq.
  assert (HM : 0 <= M < 2 ^ 32) by apply word_mask_range.
  assert (HM' : 0 <= (if v then M else not32 M)) by
    (destruct v; [lia|apply u32_range]).
  rewrite land_zero_iff by (apply Z.lxor_nonneg; lia).
  assert (HMk : forall k, 0 <= k < 32 ->
    Z.testbit M k = (o <=? k) && (k <? o + len)).
  { intros k Hk. unfold M, BITMAP_GRANULE_MASK. rewrite BIT32_MASK_testbit by lia.
    destruct (Z.ltb_spec k 32); [done|lia]. }
  split; intros H k Hk.
  - assert (HMt : Z.testbit M k = true) by (rewrite HMk by lia; repeat zcase).
    specialize (H k ltac:(lia) HMt). rewrite Z.lxor_spec in H.
    destruct v; [rewrite HMt in H|rewrite testbit_not32, HMt in H by lia];
      destruct (Z.testbit w k), (Z.ltb_spec k 32); simpl in H; done || lia.
  - intros HMt. destruct (Z.ltb_spec k 32);
      [|rewrite (testbit_small M 32) in HMt by lia; done].
    pose proof HMt as HMt'. rewrite HMk in HMt' by lia.
    rewrite Z.lxor_spec, H by (repeat zcase).
    destruct v; [by rewrite HMt|rewrite testbit_not32, HMt by lia].
    by rewrite andb_false_r.
Qed.

(** The test of a whole granule. *)
Lemma whole_word_test w (v : bool) :
  0 <= w < 2 ^ 32 ->
  (Z.lxor w (if v then not32 0 else 0) =? 0) = true <->
  (forall k, 0 <= k < 32 -> Z.testbit w k = v).
Proof.
  intros Hw. rewrite Z.eqb_eq, Z.lxor_eq_0_iff.
  assert (Hv : forall k, 0 <= k < 32 ->
    Z.testbit (if v then not32 0 else 0) k = v).
  { intros k Hk. destruct v; [|apply Z.bits_0].
    rewrite testbit_not32, Z.bits_0 by lia. repeat zcase. }
  split; [intros -> k Hk; by apply Hv|].
  intros H. apply (bits_eq_u 32); [lia|done| |].
  - destruct v; [apply u32_range|lia].
  - intros k Hk. rewrite Hv, H by done. done.
Qed.

Lemma pos_div q o : 0 <= o < 32 -> (o + q * 32) / 32 = q.
Proof. intros. rewrite Z.div_add, Z.div_small by lia. lia. Qed.

Lemma pos_mod q o : 0 <= o < 32 -> (o + q * 32) mod 32 = o.
Proof. intros. rewrite Z.mod_add, Z.mod_small by lia. lia. Qed.

(** Runs seen through one granule. *)
Lemma run_granule map v p len :
  0 <= p -> 1 <= len <= 32 - p mod 32 ->
  run map v p len <->
  (forall k, p mod 32 <= k < p mod 32 + len ->
     Z.testbit (default 0 (map !! Z.to_nat (p / 32))) k = v).
Proof.
  intros Hp Hl. divmod p 32. split; intros Hr k Hk.
  - rewrite <- (Hr (p - p mod 32 + k)) by lia. unfold bit.
    replace (p - p mod 32 + k) with (k + p / 32 * 32) by lia.
    rewrite pos_div, pos_mod by lia. done.
  - specialize (Hr (k - p + p mod 32) ltac:(lia)). unfold bit.
    replace k with ((k - p + p mod 32) + p / 32 * 32) by lia.
    rewrite pos_div, pos_mod by lia. done.
Qed.

Lemma run_app map v i n m : 0 <= n -> run map v i n -> run map v (i + n) m -> run map v i (n + m).
Proof.
  intros Hn H1 H2 j Hj. destruct (Z.ltb_spec j (i + n)); [apply H1|apply H2]; lia.
Qed.

Lemma run_sub map v i n j m :
  run map v i n -> i <= j -> j + m <= i + n -> run map v j m.
Proof. intros H ?? k Hk. apply H. lia. Qed.

Section count_run.
Context (map : bitmap_t) (size start n : Z).
Context (Hwf : bitmap_wf map) (Hstart : 0 <= start < nbits map)
  (Hsize : size <= nbits map) (Hn : 2 <= n < 2 ^ 64).

Let v := bit map start.
Let fw := min (BITMAP_GRANULE_LEN - start mod 32) n.

(** [count] positions from [start] were seen, all of the first bit's value. *)
Let counted (s : Z * Z) : Prop :=
  s.2 = start + s.1 /\ 0 <= s.1 /\ s.2 <= nbits map /\ run map v start s.1.

Let at_granule (s : Z * Z) : Prop :=
  n <= s.1 \/ s.2 mod 32 = 0 \/ (~ run map v start fw /\ s.1 = 0).

Lemma count_first_word_spec :
  exists s, count_first_word map start fw v (0, start) = Ok s /\
    counted s /\ at_granule s.
Proof using All.
  pose proof (proj2 Hwf) as Hmax.
  destruct (first_word_pos start n) as (Hfw & Hfn & Halign); [lia..|].
  fold fw in Hfw, Hfn, Halign. unfold count_first_word, BITMAP_GRANULE_LEN.
  rewrite rd_granule by done. simpl. divmod start 32.
  pose proof (granule_range map (Z.to_nat (start / 32)) Hwf) as Hw.
  pose proof (masked_word_test _ v (start mod 32) fw Hw ltac:(lia) ltac:(lia)) as Htest.
  cbv zeta in Htest. rewrite <- run_granule in Htest by lia.
  eexists; split; [done|]. unfold counted, at_granule. destruct (_ =? 0); simpl.
  - rewrite !u64_small by lia.
    split_and!; try lia; [unfold nbits in *; lia|by apply Htest].
  - split_and!; try lia; [intros j Hj; lia|]. right; right. split; [|done].
    intros Hr. apply Htest in Hr. done.
Qed.

Lemma count_words_spec s :
  counted s -> at_granule s ->
  exists s', count_words map size n v s = Ok s' /\ counted s'.
Proof using All.
  intros Hs Ha. pose proof (proj2 Hwf) as Hmax.
  destruct (first_word_pos start n) as (Hfw & _); [lia..|]. fold fw in Hfw.
  apply (while_rule (fun s => counted s /\ at_granule s) counted
    (fun s => Z.to_nat (size - s.2))); [|done|destruct Hs; lia].
  clear s Hs Ha. intros [c p] [(Hp & Hc & Hle & Hr) Hal]. simpl in *.
  destruct (Z.ltb_spec p size); [|by exists false].
  rewrite rd_granule by lia. simpl. eexists; split; [done|].
  pose proof (whole_word_test _ v (granule_range map (Z.to_nat (p / 32)) Hwf)) as Htest.
  unfold BITMAP_GRANULE_LEN. destruct (_ =? 0); [|done].
  destruct (Z.ltb_spec c n); [|done]. pose proof (proj1 Htest eq_refl) as Hall.
  destruct Hal as [?|[Hal|[Hno ?]]]; simpl in *; [lia| |].
  - eexists; split; [done|]. unfold counted, at_granule; simpl. unfold nbits in *.
    divmod p 32. rewrite !u64_small by lia. split_and!; try lia.
    + apply run_app; [lia|done|]. rewrite <- Hp. apply run_granule; [lia|lia|].
      intros k Hk. apply Hall. lia.
    + right; left. rewrite <- Zplus_mod_idemp_l, Hal. done.
  - exfalso. apply Hno. assert (p = start) as -> by lia. divmod start 32.
    apply run_granule; [lia|lia|]. intros k Hk. apply Hall. lia.
Qed.

Lemma count_bits_spec s :
  counted s ->
  exists s', count_bits map size n v s = Ok s' /\ counted s' /\
    (s'.1 < n -> size <= s'.2 \/ bit map s'.2 = negb v).
Proof using All.
  intros Hs. pose proof (proj2 Hwf) as Hmax.
  apply (while_rule counted (fun s => counted s /\
     (s.1 < n -> size <= s.2 \/ bit map s.2 = negb v))
    (fun s => Z.to_nat (size - s.2))); [|done|destruct Hs; lia].
  clear s Hs. intros [c p] (Hp & Hc & Hle & Hr). simpl in *.
  destruct (Z.ltb_spec p size);
    [|exists false; split; [done|]; split; [done|]; simpl; lia].
  rewrite bitmap_get_Ok by lia. simpl. eexists; split; [done|].
  destruct (Bool.eqb _ v) eqn:Ev; simpl.
  - destruct (Z.ltb_spec c n); [|split; [done|]; simpl; lia].
    eexists; split; [done|]. unfold counted; simpl. rewrite !u64_small by lia.
    split_and!; try lia. apply run_app; [lia|done|].
    intros j Hj. replace j with p by lia. destruct (bit map p), v; done.
  - split; [done|]. intros _. right. destruct (bit map p), v; done.
Qed.

End count_run.

(** What the count returns: the length of a run of the first bit's value that
    reaches [n], the end, or a bit of the other value.  It may exceed [n], and
    the run may go past [size], because whole granules are counted at once. *)
Lemma bitmap_count_consecutive_spec map size start n :
  bitmap_wf map -> 0 <= start < nbits map -> size <= nbits map -> 0 <= n < 2 ^ 64 ->
  exists c, bitmap_count_consecutive map size start n = Ok c /\
    0 <= c /\ start + c <= nbits map /\ run map (bit map start) start c /\
    (c < n -> size <= start + c \/ bit map (start + c) = negb (bit map start)).
Proof.
  intros Hwf Hs Hsz Hn. unfold bitmap_count_consecutive.
  rewrite bitmap_get_Ok by done. mstep. destruct (Z.leb_spec n 1).
  { exists n. split; [done|]. split_and!; try lia.
    intros j Hj. replace j with start by lia. done. }
  replace (negb ((if bit map start then 1 else 0) =? 0)) with (bit map start)
    by (by destruct (bit map start)).
  destruct (count_first_word_spec map size start n) as (s1 & E1 & H1 & Ha); try lia; try done.
  destruct (count_words_spec map size start n) with (s := s1) as (s2 & E2 & H2); try lia; try done.
  destruct (count_bits_spec map size start n) with (s := s2)
    as ([c p] & E3 & (Hp & Hc & Hle & Hr) & Hstop); try lia; try done.
  change (start mod BITMAP_GRANULE_LEN) with (start mod 32).
  rewrite E1. simpl. rewrite E2. simpl. rewrite E3. simpl in *. subst p. eauto 10.
Qed.

(** ** First fit *)

Section find_consec.
Context (map : bitmap_t) (size start n : Z) (set : bool) (g : Z).
Context (Hwf : bitmap_wf map) (Hstart : 0 <= start < 2 ^ 64) (Hsize : 0 < size <= nbits map)
  (Hn : 1 <= n < 2 ^ 64).
(** A bit of the other value at or after the last position stops every run. *)
Context (Hg : size - 1 <= g < nbits map) (Hguard : bit map g = negb set).

Lemma run_before_guard i c : i <= g -> run map set i c -> i + c <= g.
Proof using All.
  intros Hi Hr. destruct (Z.leb_spec (i + c) g); [done|exfalso].
  specialize (Hr g ltac:(lia)). rewrite Hr in Hguard. by destruct set.
Qed.

(** Position [i] is where the scan stands: no fit starts before it. *)
Let scanned (i : Z) : Prop :=
  start <= i <= SIZE_MAX /\ (i < size -> bit map i = set) /\
  (forall j, start <= j < i -> i < size \/ j + n <= size -> ~ run map set j n).

Lemma skip_short_run i :
  i < size -> scanned i ->
  exists count, bitmap_count_consecutive map size i n = Ok count /\
  if count <? n then
    exists c, bitmap_count_consecutive map size (u64 (i + count)) SIZE_MAX = Ok c /\
      i < u64 (u64 (i + count) + c) /\ scanned (u64 (u64 (i + count) + c))
  else run map set i n.
Proof using All.
  intros Hi (Hsi & Hbi & Hnone). specialize (Hbi Hi). pose proof (proj2 Hwf) as Hmax.
  destruct (bitmap_count_consecutive_spec map size i n)
    as (k & -> & Hk & Hkn & Hrun & Hstop); [done|lia..|].
  rewrite Hbi in *. exists k. split; [done|]. destruct (Z.ltb_spec k n).
  2: { apply (run_sub _ _ i k); [done|lia|lia]. }
  specialize (Hstop ltac:(lia)). pose proof (run_before_guard i k ltac:(lia) Hrun).
  assert (0 < k).
  { destruct (Z.eqb_spec k 0) as [->|]; [|lia]. rewrite Z.add_0_r in Hstop.
    destruct Hstop as [?|Hx]; [lia|]. rewrite Hbi in Hx. by destruct set. }
  rewrite (u64_small (i + k)) by lia.
  destruct (bitmap_count_consecutive_spec map size (i + k) SIZE_MAX)
    as (c & -> & Hc & Hcn & Hrun2 & Hstop2); [done|unfold SIZE_MAX; lia..|].
  exists c. split; [done|]. rewrite u64_small by lia. split; [lia|].
  unfold SIZE_MAX in *. specialize (Hstop2 ltac:(lia)).
  split_and!; [lia..| |].
  - intros Hlt. destruct Hstop as [?|Hs1], Hstop2 as [?|Hs2]; try lia.
    rewrite Hs2, Hs1. by destruct set.
  - intros j Hj Hor Hr. destruct (Z.ltb_spec j i).
    { apply (Hnone j); [lia|lia|done]. }
    destruct (Z.leb_spec size (i + k)) as [Hend|Hmid].
    { pose proof (run_before_guard j n ltac:(lia) Hr). lia. }
    destruct Hstop as [?|Hs1]; [lia|].
    assert (Hx : bit map (Z.max j (i + k)) = bit map (i + k)).
    { destruct (Z.leb_spec (i + k) j); [apply Hrun2; lia|by rewrite Z.max_r by lia]. }
    rewrite Hr, Hs1 in Hx by lia. by destruct set.
Qed.

Lemma bitmap_find_consec_spec :
  exists r, bitmap_find_consec map size start n set = Ok r /\
  ((start <= r < size /\ r + n <= g /\ run map set r n /\
    forall j, start <= j < r -> ~ run map set j n) \/
   (r = SIZE_MAX /\ forall j, start <= j -> j + n <= size -> ~ run map set j n)).
Proof using All.
  pose proof (proj2 Hwf) as Hmax. unfold bitmap_find_consec.
  destruct (bitmap_find_first_spec map size start set) as (i0 & -> & Hi0); [lia..|].
  mstep.
  assert (Hscan0 : scanned i0).
  { destruct Hi0 as [(Hr & Hb & Hrun)|(-> & Hrun)]; unfold scanned, SIZE_MAX in *.
    - split_and!; [lia..|done|]. intros j Hj _ Hr'. specialize (Hr' j ltac:(lia)).
      rewrite Hrun in Hr' by lia. by destruct set.
    - split_and!; [lia..|lia|]. intros j Hj Hor Hr'. specialize (Hr' j ltac:(lia)).
      rewrite Hrun in Hr' by lia. by destruct set. }
  edestruct (while_rule
    (fun '(i, found) => scanned i /\ ((found : bool) -> i < size /\ run map set i n))
    (fun '(i, _) => scanned i /\ (i < size -> run map set i n))
    (fun '(i, found) => if found : bool then 0%nat else S (Z.to_nat (size - i))))
    as ([i f] & -> & (Hsi & Hbi & Hnone) & Hfit).
  - intros [i found] (Hsc & Hf). eexists; split; [done|].
    destruct (Z.ltb_spec i size); [|split; [done|lia]].
    destruct found; simpl; [naive_solver|].
    destruct (skip_short_run i) as (k & -> & Hk); [done..|]. mstep.
    destruct (k <? n).
    + destruct Hk as (c & -> & Hlt & Hsc'). mstep. eexists; split; [done|].
      split; [by split|]. lia.
    + eexists; split; [done|]. split; [done|lia].
  - done.
  - simpl. destruct Hscan0. lia.
  - mstep. eexists; split; [done|]. destruct (Z.leb_spec size i); [right|left].
    + split; [done|]. intros j Hj Hle. apply Hnone; [|by right].
      split; [lia|]. lia.
    + split_and!; [lia..|apply run_before_guard; auto with lia|auto|].
      intros j Hj. apply Hnone; [lia|by left].
Qed.

End find_consec.

(** *** No bit stops the search *)

Lemma bitmap_find_consec_fault map start n set :
  bitmap_wf map -> 0 <= start < nbits map -> 1 <= n < 2 ^ 64 -> bit map (nbits map - 1) = set ->
  (forall j, start <= j -> j + n <= nbits map -> ~ run map set j n) ->
  bitmap_find_consec map (nbits map) start n set = Halt HFault.
Proof.
  intros Hwf Hs Hn Hlast Hno. pose proof (proj2 Hwf) as Hmax. unfold bitmap_find_consec. set (size := nbits map) in *.
  destruct (bitmap_find_first_spec map size start set) as (i0 & -> & Hi0); [lia..|]. mstep.
  assert (start <= i0 < size /\ bit map i0 = set) as Hi.
  { destruct Hi0 as [(? & ? & _)|(-> & Hr)]; [done|]. rewrite Hr in Hlast by lia. by destruct set. }
  rewrite (while_fault (fun '(i, found) => found = false /\ start <= i < size /\ bit map i = set) (fun '(i, _) => Z.to_nat (size - i))); [done| |done|lia].
  intros [i found] (-> & Hr & Hb). cbn [negb]. rewrite (proj2 (Z.ltb_lt i size)) by lia. split; [done|].
  destruct (bitmap_count_consecutive_spec map size i n) as (k & -> & Hk & Hkn & Hrun & Hstop); [done|lia..|]. rewrite Hb in Hrun, Hstop. mstep.
  destruct (Z.ltb_spec k n).
  2: { destruct (Hno i); [lia|lia|]. apply (run_sub _ _ i k); [done|lia|lia]. }
  rewrite u64_small by lia. destruct (Z.leb_spec size (i + k)).
  { left. unfold bitmap_count_consecutive. by rewrite bitmap_get_fault by lia. }
  destruct (Hstop ltac:(lia)) as [?|Hmid]; [lia|]. right. destruct (bitmap_count_consecutive_spec map size (i + k) SIZE_MAX) as (c & -> & Hc & Hcn & Hrun2 & Hstop2); [done|unfold SIZE_MAX; lia..|].
  mstep. rewrite u64_small by lia. eexists. split; [done|]. unfold SIZE_MAX in Hstop2. rewrite Hmid in Hrun2, Hstop2.
  assert (0 < k). { destruct (Z.eqb_spec k 0) as [->|]; [|lia]. rewrite Z.add_0_r, Hb in Hmid. by destruct set. }
  destruct (Z.leb_spec size (i + k + c)).
  { specialize (Hrun2 (size - 1) ltac:(lia)). rewrite Hlast in Hrun2. by destruct set. }
  split_and!; [done|lia|lia| |lia]. destruct Hstop2 as [?|Hb2]; [lia|lia|]. rewrite Hb2. by destruct set.
Qed.

(** ** The properties *)

(** C28: [bitmap_find_consec], which skips whole granules and whole runs, is a first-fit
    search, provided that a bit of the other value stands in the array at or
    behind position [size - 1].  It then returns without reading outside the array:
    either the first position from [start] on where [n] consecutive bits have the
    wanted value (they may go past [size], but end before that bit), or [-1],
    and then no such run fits below [size]. *)
Theorem bitmap_find_consec_first_fit map size start n set g :
  bitmap_wf map -> 0 <= start < 2 ^ 64 -> 0 < size <= nbits map -> 1 <= n < 2 ^ 64 ->
  size - 1 <= g < nbits map -> bit map g = negb set ->
  exists r, bitmap_find_consec map size start n set = Ok r /\
  ((start <= r < size /\ r + n <= g /\ run map set r n /\
    forall j, start <= j < r -> ~ run map set j n) \/
   (r = SIZE_MAX /\ forall j, start <= j -> j + n <= size -> ~ run map set j n)).
Proof. intros. by apply bitmap_find_consec_spec. Qed.

Lemma bitmap_find_consec_first_fit_witness :
  exists r, bitmap_find_consec [0x0F; 0x80000000] 64 0 40 false = Ok r /\
  ((0 <= r < 64 /\ r + 40 <= 63 /\ run [0x0F; 0x80000000] false r 40 /\
    forall j, 0 <= j < r -> ~ run [0x0F; 0x80000000] false j 40) \/
   (r = SIZE_MAX /\ forall j, 0 <= j -> j + 40 <= 64 -> ~ run [0x0F; 0x80000000] false j 40)).
Proof.
  apply (bitmap_find_consec_first_fit [0x0F; 0x80000000] 64 0 40 false 63);
    [|lia|unfold nbits; simpl; lia|lia|unfold nbits; simpl; lia|reflexivity].
  split; [repeat constructor; lia|unfold nbits; simpl; lia].
Defined.

(** [bitmap_set_consecutive], which writes whole granules at a time, sets
    exactly the bits [start, start+n). *)
Theorem bitmap_set_consecutive_exact map start n :
  bitmap_wf map -> 0 <= start -> 1 <= n -> start + n <= nbits map ->
  exists map', bitmap_set_consecutive map start n = Ok map' /\ bitmap_wf map' /\
    nbits map' = nbits map /\
    forall i, 0 <= i ->
      bit map' i = (start <=? i) && (i <? start + n) || bit map i.
Proof. apply bitmap_set_consecutive_spec. Qed.

Lemma bitmap_set_consecutive_exact_witness :
  exists map', bitmap_set_consecutive [0; 0; 0] 5 60 = Ok map' /\ bitmap_wf map' /\
    nbits map' = 96 /\
    forall i, 0 <= i -> bit map' i = (5 <=? i) && (i <? 5 + 60) || bit [0; 0; 0] i.
Proof.
  apply (bitmap_set_consecutive_exact [0; 0; 0] 5 60); [|lia|lia|unfold nbits; simpl; lia].
  split; [repeat constructor; lia|unfold nbits; simpl; lia].
Defined.

(** C33: without such a bit the search runs off the array.  When the bits searched are
    all the array holds, the last of them has the wanted value and no run is long
    enough, [bitmap_find_consec] does not report failure: it reads past the
    end of the array. *)
Theorem bitmap_find_consec_overrun map start n set :
  bitmap_wf map -> 0 <= start < nbits map -> 1 <= n < 2 ^ 64 -> bit map (nbits map - 1) = set ->
  (forall j, start <= j -> j + n <= nbits map -> ~ run map set j n) ->
  bitmap_find_consec map (nbits map) start n set = Halt HFault.
Proof. apply bitmap_find_consec_fault. Qed.

(** 40 free pages are asked of a pool of 64, of which page 30 is taken. *)
Lemma bitmap_find_consec_overrun_witness : bitmap_find_consec [0x40000000; 0] 64 0 40 false = Halt HFault.
Proof.
  apply (bitmap_find_consec_overrun [0x40000000; 0] 0 40 false).
  - split; [repeat constructor; lia|unfold nbits; simpl; lia].
  - unfold nbits. simpl. lia.
  - lia.
  - reflexivity.
  - unfold nbits. simpl. intros j Hj Hle Hr. specialize (Hr 30 ltac:(lia)). discriminate Hr.
Defined.
