(* ===== verification/Atomic.v ===== *)
(** Atomic operations: [lib/inc/atomic.h].

    The routines are loops of a load-exclusive and a store-exclusive instruction.
    The other files use them as if each were one access to memory; this file
    shows that they may.  A routine is the function the loop applies to the
    value it has loaded; the machine interleaves the CPUs' loads and stores, and
    a store-exclusive succeeds only while the CPU's exclusive monitor is held: it
    is lost when anybody writes the word, and may be lost at any time. *)

From S2P Require Import Prelude.

(** ** The counters *)

(** [atomic_t] holds an [int], [atomic64_t] a [long]: what the routines make of
    the counter, and what the macros test. *)
Definition atomic_add (i v : Z) : Z := i32 (v + i).
Definition atomic_add_return (i v : Z) : Z := i32 (v + i).
Definition atomic_sub (i v : Z) : Z := i32 (v - i).
Definition atomic_sub_return (i v : Z) : Z := i32 (v - i).
Definition atomic_inc_return (v : Z) : Z := atomic_add_return 1 v.
Definition atomic_dec_return (v : Z) : Z := atomic_sub_return 1 v.
Definition atomic_inc_and_test (v : Z) : bool := atomic_add_return 1 v =? 0.
Definition atomic_dec_and_test (v : Z) : bool := atomic_sub_return 1 v =? 0.
Definition atomic_sub_and_test (i v : Z) : bool := atomic_sub_return i v =? 0.
Definition atomic_add_negative (i v : Z) : bool := atomic_add_return i v <? 0.

Definition atomic64_add (i v : Z) : Z := i64 (v + i).
Definition atomic64_add_return (i v : Z) : Z := i64 (v + i).
Definition atomic64_sub (i v : Z) : Z := i64 (v - i).
Definition atomic64_sub_return (i v : Z) : Z := i64 (v - i).
Definition atomic64_add_negative (a v : Z) : bool := atomic64_add_return a v <? 0.
Definition atomic64_inc_return (v : Z) : Z := atomic64_add_return 1 v.
Definition atomic64_inc_and_test (v : Z) : bool := atomic64_inc_return v =? 0.
Definition atomic64_sub_and_test (a v : Z) : bool := atomic64_sub_return a v =? 0.
Definition atomic64_dec_return (v : Z) : Z := atomic64_sub_return 1 v.
Definition atomic64_dec_and_test (v : Z) : bool := atomic64_dec_return v =? 0.

Module Llsc.

(** ** The routines *)

(** What a loop stores for the value it has loaded, or that it leaves without
    storing, and what it returns. *)
Record rmw := Rmw { upd : Z -> option Z; ret : Z -> Z }.

(** The routine run alone: the word afterwards and the result. *)
Definition run_rmw (r : rmw) (v : Z) : Z * Z := (default v (upd r v), ret r v).

(** A CPU runs a loop of exclusive accesses, a loop of [cmpxchg] around a plain
    load, or stores a value. *)
Inductive op := ORmw (r : rmw) | OCas (r : rmw) | OSet (v : Z).

Definition add_op (i : Z) : op := ORmw (Rmw (fun v => Some (atomic_add i v)) (fun _ => 0)).
Definition add_return_op (i : Z) : op := ORmw (Rmw (fun v => Some (atomic_add_return i v)) (atomic_add_return i)).
Definition sub_op (i : Z) : op := ORmw (Rmw (fun v => Some (atomic_sub i v)) (fun _ => 0)).
Definition sub_return_op (i : Z) : op := ORmw (Rmw (fun v => Some (atomic_sub_return i v)) (atomic_sub_return i)).
Definition atomic_cmpxchg (old new : Z) : op := ORmw (Rmw (fun v => if v =? old then Some new else None) (fun v => v)).

Definition add64_op (i : Z) : op := ORmw (Rmw (fun v => Some (atomic64_add i v)) (fun _ => 0)).
Definition add64_return_op (i : Z) : op := ORmw (Rmw (fun v => Some (atomic64_add_return i v)) (atomic64_add_return i)).
Definition sub64_op (i : Z) : op := ORmw (Rmw (fun v => Some (atomic64_sub i v)) (fun _ => 0)).
Definition sub64_return_op (i : Z) : op := ORmw (Rmw (fun v => Some (atomic64_sub_return i v)) (atomic64_sub_return i)).
Definition atomic64_cmpxchg (old new : Z) : op := ORmw (Rmw (fun v => if v =? old then Some new else None) (fun v => v)).

(** [subs] sets the sign flag from the 64-bit difference. *)
Definition atomic64_dec_if_positive : op :=
  ORmw (Rmw (fun v => let result := i64 (v - 1) in if result <? 0 then None else Some result) (fun v => i64 (v - 1))).

Definition atomic_read : op := OCas (Rmw (fun _ => None) (fun v => v)).
Definition atomic_set (i : Z) : op := OSet i.

Definition __atomic_add_unless (a u : Z) : op :=
  OCas (Rmw (fun c => if c =? u then None else Some (i32 (c + a))) (fun c => c)).
Definition atomic64_add_unless (a u : Z) : op :=
  OCas (Rmw (fun c => if c =? u then None else Some (i64 (c + a))) (fun c => Z.b2z (negb (c =? u)))).
Definition atomic64_inc_not_zero : op := atomic64_add_unless 1 0.

(** ** CPUs at the level of instructions *)

(** At the start; with a value loaded (in a loop of exclusive accesses by the
    load-exclusive); in a [cmpxchg] whose load-exclusive has found the value
    expected; finished. *)
Inductive tpc := TLoad | TLoaded (old : Z) | TArmed (old : Z) | TDone (res : Z).

Record thread := Thread { t_op : op; t_pc : tpc; t_excl : bool }.
Record machine := Machine { word : Z; threads : list thread }.

(** A write of the word takes every monitor. *)
Definition lose (t : thread) : thread := Thread (t_op t) (t_pc t) false.
(** CPU [c] executes an instruction: the word it leaves, the CPU afterwards, and
    whether it wrote the word. *)
Inductive instr (w : Z) : thread -> Z -> thread -> bool -> Prop :=
| i_ldxr r e : instr w (Thread (ORmw r) TLoad e) w (Thread (ORmw r) (TLoaded w) true) false
| i_stxr r old new : upd r old = Some new ->
    instr w (Thread (ORmw r) (TLoaded old) true) new (Thread (ORmw r) (TDone (ret r old)) false) true
| i_retry r old new e : upd r old = Some new ->
    instr w (Thread (ORmw r) (TLoaded old) e) w (Thread (ORmw r) TLoad false) false
| i_leave r old e : upd r old = None ->
    instr w (Thread (ORmw r) (TLoaded old) e) w (Thread (ORmw r) (TDone (ret r old)) e) false
| i_read r e : instr w (Thread (OCas r) TLoad e) w (Thread (OCas r) (TLoaded w) e) false
| i_cas_hit r new e : upd r w = Some new ->
    instr w (Thread (OCas r) (TLoaded w) e) w (Thread (OCas r) (TArmed w) true) false
| i_cas_miss r c new e : upd r c = Some new -> w <> c ->
    instr w (Thread (OCas r) (TLoaded c) e) w (Thread (OCas r) (TLoaded w) true) false
| i_cas_stxr r c new : upd r c = Some new ->
    instr w (Thread (OCas r) (TArmed c) true) new (Thread (OCas r) (TDone (ret r c)) false) true
| i_cas_retry r c e : instr w (Thread (OCas r) (TArmed c) e) w (Thread (OCas r) (TLoaded c) false) false
| i_cas_leave r c e : upd r c = None ->
    instr w (Thread (OCas r) (TLoaded c) e) w (Thread (OCas r) (TDone (ret r c)) e) false
| i_str v e : instr w (Thread (OSet v) TLoad e) v (Thread (OSet v) (TDone 0) false) true
| i_lose t : instr w t w (lose t) false.

Inductive step : machine -> machine -> Prop :=
| s_instr w ts c t w' t' (wrote : bool) : ts !! c = Some t -> instr w t w' t' wrote ->
    step (Machine w ts) (Machine w' (<[c := t']> (if wrote then lose <$> ts else ts))).

Definition start (w : Z) (ops : list op) : machine := Machine w ((fun o => Thread o TLoad false) <$> ops).

(** ** One access per routine *)

Record amachine := AMachine { aword : Z; athreads : list (op * option Z) }.

Definition run_op (o : op) (w : Z) : Z * Z :=
  match o with ORmw r | OCas r => run_rmw r w | OSet v => (v, 0) end.

Inductive astep : amachine -> amachine -> Prop :=
| a_run w ts c o : ts !! c = Some (o, None) ->
    astep (AMachine w ts) (AMachine (fst (run_op o w)) (<[c := (o, Some (snd (run_op o w)))]> ts)).

Definition astart (w : Z) (ops : list op) : amachine := AMachine w ((fun o => (o, None)) <$> ops).

(** ** The simulation *)

(** A CPU at the level of instructions and the same CPU with atomic routines.  A
    routine that will leave without storing has taken effect when it loaded. *)
Definition sim_thread (w : Z) (t : thread) (a : op * option Z) : Prop :=
  t_op t = a.1 /\
  match t_pc t, t_op t with
  | TLoad, _ => a.2 = None
  | TLoaded old, ORmw r =>
      match upd r old with
      | Some _ => a.2 = None /\ (t_excl t = true -> old = w)
      | None => a.2 = Some (ret r old)
      end
  | TLoaded c, OCas r => a.2 = match upd r c with Some _ => None | None => Some (ret r c) end
  | TArmed c, OCas r => a.2 = None /\ is_Some (upd r c) /\ (t_excl t = true -> c = w)
  | TLoaded _, OSet _ | TArmed _, _ => False
  | TDone res, _ => a.2 = Some res
  end.

Record sim (m : machine) (a : amachine) : Prop := {
  sim_word : aword a = word m;
  sim_threads : Forall2 (sim_thread (word m)) (threads m) (athreads a);
}.

Lemma sim_start w ops : sim (start w ops) (astart w ops).
Proof.
  split; [done|]. cbn. apply Forall2_fmap_2. induction ops as [|o ops IH]; constructor; [|done]. by split.
Qed.

Lemma sim_thread_lose w w' t a : sim_thread w t a -> sim_thread w' (lose t) a.
Proof.
  intros [Ho Hp]. split; [done|]. cbn [t_pc t_op lose]. destruct (t_pc t) as [|old|old|res], (t_op t) as [r|r|v]; try done.
  - destruct (upd r old); [|done]. by destruct Hp.
  - by destruct Hp as (? & ? & _).
Qed.

(** A load: a routine that will not store takes effect there. *)
Lemma load_sim w r o e : o = ORmw r \/ o = OCas r ->
  (w = w /\ sim_thread w (Thread o (TLoaded w) e) (o, None)) \/
  (@None Z = None /\ w = (run_op o w).1 /\ sim_thread w (Thread o (TLoaded w) e) (o, Some (run_op o w).2)).
Proof.
  intros Ho. destruct (upd r w) as [new|] eqn:Hu; [left|right]; (split; [done|]); destruct Ho as [-> | ->]; repeat split; cbn; by rewrite Hu.
Qed.

(** The atomic machine keeps up with one instruction of one CPU: it stays where it
    is, or runs the routine. *)
Lemma instr_sim w t w' t' wrote a : instr w t w' t' wrote -> sim_thread w t a ->
  (w' = w /\ sim_thread w t' a) \/
  (a.2 = None /\ w' = (run_op a.1 w).1 /\ sim_thread w' t' (a.1, Some (run_op a.1 w).2)).
Proof.
  intros Hi. destruct a as [o res]. destruct Hi; intros [Ho Hp]; cbn in Ho, Hp; subst o; try (subst res).
  - by eapply load_sim; auto.
  - rewrite H in Hp. destruct Hp as [-> Hold]. specialize (Hold eq_refl). subst old. right. split; [done|].
    split; cbn; [by rewrite H|by split].
  - rewrite H in Hp. destruct Hp as [-> _]. left. by split.
  - rewrite H in Hp. subst res. left. by split.
  - by eapply load_sim; auto.
  - left. split; [done|]. split; [done|]. cbn. rewrite H. eauto.
  - rewrite H. by eapply load_sim; auto.
  - destruct Hp as (-> & _ & Hc). specialize (Hc eq_refl). subst c. right. split; [done|]. split; cbn; [by rewrite H|by split].
  - destruct Hp as (-> & [new Hu] & _). left. split; [done|]. split; [done|]. cbn. by rewrite Hu.
  - rewrite H. left. by split.
  - right. by repeat split.
  - left. split; [done|]. apply (sim_thread_lose w). by split.
Qed.

(** Only a write changes the word. *)
Lemma instr_word w t w' t' : instr w t w' t' false -> w' = w.
Proof. remember false as b eqn:Hb. by destruct 1. Qed.

Lemma step_sim m m' a : sim m a -> step m m' -> exists a', rtc astep a a' /\ sim m' a'.
Proof.
  intros [Hw Hs] Hst. destruct a as [aw ats]. cbn in Hw. subst aw. destruct Hst as [w ts c t w' t' wrote Hc Hi].
  cbn [word threads athreads] in *. destruct (Forall2_lookup_l _ _ _ _ _ Hs Hc) as (a & Ha & Hsim).
  assert (Forall2 (sim_thread w') (if wrote then lose <$> ts else ts) ats) as Hs'.
  { destruct wrote; [|by rewrite (instr_word _ _ _ _ Hi)]. apply Forall2_fmap_l. apply (Forall2_impl _ _ _ _ Hs).
    intros x y. apply sim_thread_lose. }
  destruct (instr_sim _ _ _ _ _ _ Hi Hsim) as [[-> Ht]|(Hn & Hrun & Ht)].
  - exists (AMachine w ats). split; [done|]. split; [done|]. cbn. rewrite <- (list_insert_id ats c a) by done.
    by apply Forall2_insert.
  - destruct a as [o res]. cbn in Hn, Hrun, Ht. subst res w'. eexists. split; [apply rtc_once; by apply a_run|].
    split; [done|]. cbn. by apply Forall2_insert.
Qed.

Lemma steps_sim m m' a : sim m a -> rtc step m m' -> exists a', rtc astep a a' /\ sim m' a'.
Proof.
  intros Hs Hst. revert a Hs. induction Hst as [m|m m1 m2 H1 _ IH]; intros a Hs; [by exists a|].
  destruct (step_sim _ _ _ Hs H1) as (a1 & Ha1 & Hs1). destruct (IH a1 Hs1) as (a2 & Ha2 & Hs2). exists a2. split; [by etrans|done].
Qed.

(** ** A CPU left alone finishes *)

(** CPU [c] alone, up to a state in which it is finished. *)
Definition alone (c : nat) (m : machine) : Prop :=
  exists m' t, rtc step m m' /\ threads m' !! c = Some t /\ exists res, t_pc t = TDone res.

Lemma alone_done c w ts t res : ts !! c = Some t -> t_pc t = TDone res -> alone c (Machine w ts).
Proof. intros Hc Hd. exists (Machine w ts), t. split; [apply rtc_refl|by eauto]. Qed.

(** It is enough that the CPU can execute an instruction and finish from there. *)
Lemma alone_step c w ts t w' t' wrote : ts !! c = Some t -> instr w t w' t' wrote ->
  (forall ts', ts' !! c = Some t' -> alone c (Machine w' ts')) -> alone c (Machine w ts).
Proof.
  intros Hc Hi Hn. pose proof (lookup_lt_Some _ _ _ Hc) as Hl.
  destruct (Hn (<[c := t']> (if wrote then lose <$> ts else ts))) as (m' & t1 & Hst & H1).
  { apply list_lookup_insert_eq. destruct wrote; [by rewrite length_fmap|done]. }
  exists m', t1. split; [|done]. eapply rtc_l; [by eapply s_instr|done].
Qed.

Lemma alone_ldxr c w ts r e : ts !! c = Some (Thread (ORmw r) TLoad e) -> alone c (Machine w ts).
Proof.
  intros Hc. destruct (upd r w) as [new|] eqn:Hu.
  - eapply alone_step; [done|apply i_ldxr|]. intros ts1 Hc1. eapply alone_step; [done|by apply i_stxr|].
    intros ts2 Hc2. by eapply alone_done.
  - eapply alone_step; [done|apply i_ldxr|]. intros ts1 Hc1. eapply alone_step; [done|by apply i_leave|].
    intros ts2 Hc2. by eapply alone_done.
Qed.

(** A [cmpxchg] that expects the value the word has. *)
Lemma alone_cas c w ts r e : ts !! c = Some (Thread (OCas r) (TLoaded w) e) -> alone c (Machine w ts).
Proof.
  intros Hc. destruct (upd r w) as [new|] eqn:Hu.
  - eapply alone_step; [done|by eapply i_cas_hit|]. intros ts1 Hc1. eapply alone_step; [done|by apply i_cas_stxr|].
    intros ts2 Hc2. by eapply alone_done.
  - eapply alone_step; [done|by apply i_cas_leave|]. intros ts1 Hc1. by eapply alone_done.
Qed.

Lemma alone_loaded c w ts r old e : ts !! c = Some (Thread (OCas r) (TLoaded old) e) -> alone c (Machine w ts).
Proof.
  intros Hc. destruct (decide (w = old)) as [<-|Hne]; [by eapply alone_cas|]. destruct (upd r old) as [new|] eqn:Hu.
  - eapply alone_step; [done|by eapply i_cas_miss|]. intros ts1 Hc1. by eapply alone_cas.
  - eapply alone_step; [done|by apply i_cas_leave|]. intros ts1 Hc1. by eapply alone_done.
Qed.

Lemma alone_finishes w ts c t a : ts !! c = Some t -> sim_thread w t a -> alone c (Machine w ts).
Proof.
  intros Hc [_ Hp]. destruct t as [o p e]. cbn in Hp. destruct p as [|old|old|res], o as [r|r|v]; try done; try (by eapply alone_done).
  - by eapply alone_ldxr.
  - eapply alone_step; [done|apply i_read|]. intros ts1 Hc1. by eapply alone_cas.
  - eapply alone_step; [done|apply i_str|]. intros ts1 Hc1. by eapply alone_done.
  - destruct (upd r old) as [new|] eqn:Hu.
    + eapply alone_step; [done|by eapply i_retry|]. intros ts1 Hc1. by eapply alone_ldxr.
    + eapply alone_step; [done|by apply i_leave|]. intros ts1 Hc1. by eapply alone_done.
  - by eapply alone_loaded.
  - eapply alone_step; [done|apply i_cas_retry|]. intros ts1 Hc1. by eapply alone_loaded.
Qed.

(** ** The property *)

(** C17: the routines of atomic.h are atomic.  In every interleaving of the
    instructions of any number of CPUs, whatever monitors are lost, the word and
    the results of the routines that have finished are those of a run of the
    machine in which every routine is a single access; a routine that has not
    executed its load has not taken effect; and every CPU can still finish. *)
Theorem llsc_refines_atomic w ops m : rtc step (start w ops) m ->
  (exists a, rtc astep (astart w ops) a /\ aword a = word m /\
     (forall c o res e, threads m !! c = Some (Thread o (TDone res) e) -> athreads a !! c = Some (o, Some res)) /\
     (forall c o e, threads m !! c = Some (Thread o TLoad e) -> athreads a !! c = Some (o, None))) /\
  (forall c t, threads m !! c = Some t -> alone c m).
Proof.
  intros Hs. destruct (steps_sim _ _ _ (sim_start w ops) Hs) as (a & Ha & [Hw Hsim]). split.
  - exists a. split; [done|]. split; [done|]. split; intros c o; intros;
      destruct (Forall2_lookup_l _ _ _ _ _ Hsim ltac:(eassumption)) as ([o' res'] & Hac & Ho & Hr); cbn in Ho, Hr; by subst o' res'.
  - intros c t Hc. destruct (Forall2_lookup_l _ _ _ _ _ Hsim Hc) as (x & _ & Hx). destruct m as [v ts]. by eapply alone_finishes.
Qed.

(** One CPU has added 5 to 1, the other has not loaded yet. *)
Lemma llsc_refines_atomic_witness : exists a, rtc astep (astart 1 [add_return_op 5; __atomic_add_unless 7 1]) a /\
  aword a = 6 /\ athreads a !! 0%nat = Some (add_return_op 5, Some 6) /\ athreads a !! 1%nat = Some (__atomic_add_unless 7 1, None).
Proof.
  destruct (llsc_refines_atomic 1 [add_return_op 5; __atomic_add_unless 7 1]
    (Machine 6 [Thread (add_return_op 5) (TDone 6) false; Thread (__atomic_add_unless 7 1) TLoad false])) as [(a & Ha & Hw & Hr & Hl) _].
  - eapply rtc_l; [eapply (s_instr 1 _ 0); [reflexivity|apply i_ldxr]|]. apply rtc_once.
    apply (s_instr 1 [Thread (add_return_op 5) (TLoaded 1) true; Thread (__atomic_add_unless 7 1) TLoad false] 0 (Thread (add_return_op 5) (TLoaded 1) true) 6
      (Thread (add_return_op 5) (TDone 6) false) true); [reflexivity|]. by apply i_stxr.
  - exists a. split; [exact Ha|]. split; [exact Hw|]. split; [by apply (Hr 0%nat _ _ false)|by apply (Hl 1%nat _ false)].
Defined.

End Llsc.
