(* ===== verification/Spinlock.v ===== *)
(** The ticket spinlock of [lib/inc/spinlock.h].

    [spin_lock] and [spin_unlock] are the two inline-assembly routines.  The
    other components call them as functions: their critical sections are
    atomic, a lock is free when an operation starts, and a [spin_lock] that
    finds its lock taken waits for its own CPU ([HDeadlock]).

    That the lock earns this reading is the second half of the file: the
    routines run by several CPUs, interleaved one atomic access at a time,
    implement a first-come first-served queue. *)

From S2P Require Import Prelude.

Record spinlock_t := Spinlock { ticket : Z; next : Z }.

Definition SPINLOCK_INITVAL : spinlock_t := Spinlock 0 0.

Definition spinlock_init (lock : spinlock_t) : spinlock_t := Spinlock 0 0.

(** [ldaxr/add/stxr/cbnz]: read the ticket and store its successor, atomically. *)
Definition get_ticket (lock : spinlock_t) : Z * spinlock_t :=
  (ticket lock, Spinlock (u32 (ticket lock + 1)) (next lock)).

(** [ldar/cmp/b.eq]: is it this ticket's turn. *)
Definition my_turn (t : Z) (lock : spinlock_t) : bool := t =? next lock.

Definition spin_lock (lock : spinlock_t) : outcome spinlock_t :=
  let '(t, lock') := get_ticket lock in
  if my_turn t lock' then Ok lock' else Halt HDeadlock.

Definition spin_unlock (lock : spinlock_t) : spinlock_t :=
  Spinlock (ticket lock) (u32 (next lock + 1)).

(** Nobody holds or waits for the lock. *)
Definition unlocked (lock : spinlock_t) : Prop :=
  ticket lock = next lock /\ 0 <= next lock < 2 ^ 32.

(** ** Several CPUs *)

Module Smp.

(** Where a CPU stands: outside, spinning with its ticket in a register, or in
    its critical section. *)
Inductive pc : Type :=
| Idle
| Waiting (t : Z)
| Holding.

Record sys := Sys { lock : spinlock_t; cpus : list pc }.

Inductive step : sys -> sys -> Prop :=
| step_ticket s c t l :
    cpus s !! c = Some Idle -> get_ticket (lock s) = (t, l) ->
    step s (Sys l (<[c := Waiting t]> (cpus s)))
| step_acquire s c t :
    cpus s !! c = Some (Waiting t) -> my_turn t (lock s) = true ->
    step s (Sys (lock s) (<[c := Holding]> (cpus s)))
| step_release s c :
    cpus s !! c = Some Holding ->
    step s (Sys (spin_unlock (lock s)) (<[c := Idle]> (cpus s))).

Definition init (n : nat) : sys := Sys SPINLOCK_INITVAL (replicate n Idle).

Definition reachable (n : nat) : sys -> Prop := rtc step (init n).

(** The specification: a queue of CPUs, whose head may have been granted the
    lock. *)
Record fifo := Fifo { queue : list nat; granted : bool }.

Inductive spec_step : fifo -> fifo -> Prop :=
| spec_enqueue q b c : c ∉ q -> spec_step (Fifo q b) (Fifo (q ++ [c]) b)
| spec_grant q c : spec_step (Fifo (c :: q) false) (Fifo (c :: q) true)
| spec_dequeue q c : spec_step (Fifo (c :: q) true) (Fifo q false).

(** The state the lock and the CPUs are in when the queue is [f]. *)
Record implements (s : sys) (f : fifo) : Prop := {
  impl_nodup : NoDup (queue f);
  impl_next : 0 <= next (lock s) < 2 ^ 32;
  impl_ticket : ticket (lock s) = u32 (next (lock s) + Z.of_nat (length (queue f)));
  impl_granted : granted f = true -> queue f <> [];
  impl_pos k c : queue f !! k = Some c ->
    cpus s !! c = Some (if granted f && (k =? 0)%nat then Holding
                        else Waiting (u32 (next (lock s) + Z.of_nat k)));
  impl_idle c p : cpus s !! c = Some p -> c ∉ queue f -> p = Idle;
}.

Lemma implements_init n : implements (init n) (Fifo [] false).
Proof.
  split; try done; simpl.
  - apply NoDup_nil_2.
  - intros c p Hp _. apply lookup_replicate in Hp as [-> _]. done.
Qed.

(** Every queued CPU exists, so the queue is no longer than the CPUs. *)
Lemma implements_length s f :
  implements s f -> (length (queue f) <= length (cpus s))%nat.
Proof.
  intros H. rewrite <- (length_seq (length (cpus s)) 0).
  apply submseteq_length, NoDup_submseteq; [apply (impl_nodup _ _ H)|].
  intros c Hc. apply elem_of_seq. apply list_elem_of_lookup in Hc as [k Hk].
  apply (impl_pos _ _ H), lookup_lt_Some in Hk. lia.
Qed.

Lemma u32_add_l a b : u32 (u32 a + b) = u32 (a + b).
Proof. apply Zplus_mod_idemp_l. Qed.

(** Only the head's ticket equals [next] while fewer than 2^32 wait. *)
Lemma ticket_is_next a k :
  0 <= a < 2 ^ 32 -> Z.of_nat k < 2 ^ 32 -> u32 (a + Z.of_nat k) = a -> k = 0%nat.
Proof.
  intros Ha Hk H. unfold u32 in H. destruct (decide (a + Z.of_nat k < 2 ^ 32)).
  - rewrite Z.mod_small in H by lia. lia.
  - replace (a + Z.of_nat k) with ((a + Z.of_nat k - 2 ^ 32) + 1 * 2 ^ 32) in H by lia.
    rewrite Z.mod_add, Z.mod_small in H by lia. lia.
Qed.

Lemma waiting_position s f c t :
  implements s f -> cpus s !! c = Some (Waiting t) ->
  exists k, queue f !! k = Some c /\ t = u32 (next (lock s) + Z.of_nat k).
Proof.
  intros H Hc. destruct (decide (c ∈ queue f)) as [Hin|Hout].
  - apply list_elem_of_lookup in Hin as [k Hk]. exists k. split; [done|].
    pose proof (impl_pos _ _ H k c Hk) as Hp. rewrite Hc in Hp.
    destruct (granted f && _); naive_solver.
  - pose proof (impl_idle _ _ H c _ Hc Hout). done.
Qed.

Lemma holding_position s f c :
  implements s f -> cpus s !! c = Some Holding ->
  granted f = true /\ exists q, queue f = c :: q.
Proof.
  intros H Hc. destruct (decide (c ∈ queue f)) as [Hin|Hout].
  - apply list_elem_of_lookup in Hin as [k Hk].
    pose proof (impl_pos _ _ H k c Hk) as Hp. rewrite Hc in Hp.
    destruct (granted f); [|done]. split; [done|].
    destruct (queue f) as [|c' q]; [done|]. destruct k; [|done]. naive_solver.
  - pose proof (impl_idle _ _ H c _ Hc Hout). done.
Qed.

(** ** The three steps, against the queue *)

Lemma sim_ticket s f c t l :
  implements s f -> cpus s !! c = Some Idle -> get_ticket (lock s) = (t, l) ->
  Z.of_nat (length (cpus s)) < 2 ^ 32 ->
  c ∉ queue f /\
  implements (Sys l (<[c := Waiting t]> (cpus s))) (Fifo (queue f ++ [c]) (granted f)).
Proof.
  intros H Hc Ht Hn. unfold get_ticket in Ht. simplify_eq.
  pose proof (lookup_lt_Some _ _ _ Hc) as Hlt.
  assert (Hout : c ∉ queue f).
  { intros [k Hk]%list_elem_of_lookup. pose proof (impl_pos _ _ H k c Hk) as Hp.
    rewrite Hc in Hp. destruct (granted f && _); done. }
  split; [done|]. split; simpl.
  - apply NoDup_app. split_and!; [apply (impl_nodup _ _ H)| |apply NoDup_singleton].
    intros x Hx ->%list_elem_of_singleton. done.
  - apply (impl_next _ _ H).
  - rewrite (impl_ticket _ _ H), u32_add_l, length_app. f_equal. simpl. lia.
  - intros _. by destruct (queue f).
  - intros k c' Hk. apply lookup_app_Some in Hk as [Hk|[Hk1 Hk2]].
    + rewrite list_lookup_insert_ne by (intros ->; apply Hout; by eapply list_elem_of_lookup_2).
      apply (impl_pos _ _ H); done.
    + apply list_lookup_singleton_Some in Hk2 as [Hk2 ->].
      rewrite list_lookup_insert_eq by done.
      assert (k = length (queue f)) as -> by lia.
      rewrite (impl_ticket _ _ H). destruct (granted f) eqn:Eg; [|done]. simpl.
      pose proof (impl_granted _ _ H Eg). destruct (queue f); done.
  - intros c' p Hp Hout'. rewrite not_elem_of_app, list_elem_of_singleton in Hout'.
    rewrite list_lookup_insert_ne in Hp by naive_solver.
    apply (impl_idle _ _ H c'); naive_solver.
Qed.

Lemma sim_acquire s f c t :
  implements s f -> cpus s !! c = Some (Waiting t) -> my_turn t (lock s) = true ->
  Z.of_nat (length (cpus s)) < 2 ^ 32 ->
  granted f = false /\
  exists q, queue f = c :: q /\
  implements (Sys (lock s) (<[c := Holding]> (cpus s))) (Fifo (c :: q) true).
Proof.
  intros H Hc Ht Hn. pose proof (implements_length s f H) as Hlen.
  destruct (waiting_position s f c t H Hc) as (k & Hk & ->).
  pose proof (lookup_lt_Some _ _ _ Hk) as Hkl.
  apply Z.eqb_eq, ticket_is_next in Ht as ->; [|apply (impl_next _ _ H)|lia].
  pose proof (impl_pos _ _ H 0 c Hk) as Hp. rewrite Hc in Hp.
  destruct (granted f) eqn:Eg; [done|]. split; [done|].
  destruct (queue f) as [|c' q] eqn:Eq; [done|]. simpl in Hk. simplify_eq.
  exists q. split; [done|].
  assert (Hpos : forall k c', (c :: q) !! k = Some c' ->
    cpus s !! c' = Some (Waiting (u32 (next (lock s) + Z.of_nat k)))).
  { intros j c' Hj. pose proof (impl_pos _ _ H j c') as Hq. rewrite Eq, Eg in Hq. auto. }
  pose proof (impl_nodup _ _ H) as Hnd. rewrite Eq in Hnd.
  split; simpl; try done.
  - apply (impl_next _ _ H).
  - rewrite (impl_ticket _ _ H), Eq. done.
  - intros j c' Hj. destruct j as [|j]; simpl in *; simplify_eq.
    + apply list_lookup_insert_eq. by eapply lookup_lt_Some.
    + rewrite list_lookup_insert_ne; [by apply (Hpos (S j))|].
      intros ->. apply NoDup_cons in Hnd as [Hnd _]. apply Hnd.
      by eapply list_elem_of_lookup_2.
  - intros c' p Hp' Hout. rewrite list_lookup_insert_ne in Hp' by set_solver.
    apply (impl_idle _ _ H c'); [done|]. by rewrite Eq.
Qed.

Lemma sim_release s f c :
  implements s f -> cpus s !! c = Some Holding ->
  granted f = true /\
  exists q, queue f = c :: q /\
  implements (Sys (spin_unlock (lock s)) (<[c := Idle]> (cpus s))) (Fifo q false).
Proof.
  intros H Hc. destruct (holding_position s f c H Hc) as (Hg & q & Eq).
  split; [done|]. exists q. split; [done|].
  pose proof (impl_nodup _ _ H) as Hnd. rewrite Eq in Hnd.
  apply NoDup_cons in Hnd as [Hnc Hnd].
  split; simpl; try done.
  - apply u32_range.
  - rewrite (impl_ticket _ _ H), Eq, u32_add_l. f_equal. simpl. lia.
  - intros k c' Hk.
    rewrite list_lookup_insert_ne by (intros ->; apply Hnc; by eapply list_elem_of_lookup_2).
    pose proof (impl_pos _ _ H (S k) c') as Hp. rewrite Eq, Hg in Hp.
    rewrite (Hp Hk), u32_add_l. simpl. do 3 f_equal. lia.
  - intros c' p Hp Hout. destruct (decide (c = c')) as [->|Hne].
    + rewrite list_lookup_insert_eq in Hp by (by eapply lookup_lt_Some). naive_solver.
    + rewrite list_lookup_insert_ne in Hp by done.
      apply (impl_idle _ _ H c'); [done|]. rewrite Eq. set_solver.
Qed.

Lemma simulation s f s' :
  implements s f -> Z.of_nat (length (cpus s)) < 2 ^ 32 -> step s s' ->
  exists f', spec_step f f' /\ implements s' f' /\ length (cpus s') = length (cpus s).
Proof.
  intros H Hn Hst. destruct f as [q b]. destruct Hst as [s c t l Hc Ht|s c t Hc Ht|s c Hc].
  - destruct (sim_ticket s _ c t l H Hc Ht Hn) as [Hout H'].
    eexists; split; [by constructor|]. split; [done|]. apply length_insert.
  - destruct (sim_acquire s _ c t H Hc Ht Hn) as (Hg & q' & Hq & H'). simpl in *. subst.
    eexists; split; [by constructor|]. split; [done|]. apply length_insert.
  - destruct (sim_release s _ c H Hc) as (Hg & q' & Hq & H'). simpl in *. subst.
    eexists; split; [by constructor|]. split; [done|]. apply length_insert.
Qed.

Lemma reachable_implements n s :
  Z.of_nat n < 2 ^ 32 -> reachable n s ->
  exists f, rtc spec_step (Fifo [] false) f /\ implements s f /\ length (cpus s) = n.
Proof.
  intros Hn Hr. revert s Hr. apply rtc_ind_r.
  - exists (Fifo [] false). split; [done|]. split; [apply implements_init|].
    apply length_replicate.
  - intros y z _ Hst (f & Hf & Hi & Hl).
    destruct (simulation y f z Hi) as (f' & Hs & Hi' & Hl'); [lia|done|].
    exists f'. split; [by eapply rtc_r|]. split; [done|lia].
Qed.

(** C3: the ticket lock implements a first-come first-served lock.
    Any interleaving of any number of CPUs below 2^32 is matched step for step
    by the queue: taking a ticket appends the CPU, seeing its turn grants the
    lock to the head, releasing removes the head. *)
Theorem ticket_lock_refines_fifo (n : nat) (s s' : sys) :
  Z.of_nat n < 2 ^ 32 -> reachable n s -> step s s' ->
  exists f f', rtc spec_step (Fifo [] false) f /\ implements s f /\
    spec_step f f' /\ implements s' f'.
Proof.
  intros Hn Hr Hst. destruct (reachable_implements n s Hn Hr) as (f & Hf & Hi & Hl).
  destruct (simulation s f s' Hi) as (f' & Hs & Hi' & _); [lia|done|]. eauto 10.
Qed.

Lemma ticket_lock_refines_fifo_witness :
  exists f f', rtc spec_step (Fifo [] false) f /\
    implements (init 2) f /\ spec_step f f' /\
    implements (Sys (Spinlock 1 0) [Idle; Waiting 0]) f'.
Proof.
  apply (ticket_lock_refines_fifo 2); [lia|apply rtc_refl|].
  apply (step_ticket (init 2) 1 0 (Spinlock 1 0)); reflexivity.
Defined.

(** Mutual exclusion: two CPUs are never in the critical section of the
    same lock at once. *)
Theorem ticket_lock_mutex (n : nat) (s : sys) (a b : nat) :
  Z.of_nat n < 2 ^ 32 -> reachable n s ->
  cpus s !! a = Some Holding -> cpus s !! b = Some Holding -> a = b.
Proof.
  intros Hn Hr Ha Hb. destruct (reachable_implements n s Hn Hr) as (f & _ & Hi & _).
  destruct (holding_position s f a Hi Ha) as (_ & qa & Ea).
  destruct (holding_position s f b Hi Hb) as (_ & qb & Eb). congruence.
Qed.

Lemma ticket_lock_mutex_witness : (1 = 1)%nat.
Proof.
  apply (ticket_lock_mutex 2 (Sys (Spinlock 1 0) [Idle; Holding]));
    [lia| |reflexivity|reflexivity].
  eapply rtc_l; [apply (step_ticket (init 2) 1 0 (Spinlock 1 0)); reflexivity|].
  eapply rtc_once.
  apply (step_acquire (Sys (Spinlock 1 0) [Idle; Waiting 0]) 1 0); reflexivity.
Defined.

(** No CPU waits for ever behind nobody: while some CPU waits, either a
    CPU is in the critical section or the longest-waiting one can enter. *)
Theorem ticket_lock_progress (n : nat) (s : sys) (c : nat) (t : Z) :
  Z.of_nat n < 2 ^ 32 -> reachable n s -> cpus s !! c = Some (Waiting t) ->
  (exists h, cpus s !! h = Some Holding) \/
  (exists h t', cpus s !! h = Some (Waiting t') /\ my_turn t' (lock s) = true).
Proof.
  intros Hn Hr Hc. destruct (reachable_implements n s Hn Hr) as (f & _ & Hi & _).
  destruct (waiting_position s f c t Hi Hc) as (k & Hk & _).
  destruct (queue f) as [|h q] eqn:Eq; [done|].
  pose proof (impl_pos _ _ Hi 0 h) as Hp. rewrite Eq in Hp. specialize (Hp eq_refl).
  destruct (granted f); [by left; exists h|right]. exists h. eexists; split; [exact Hp|].
  unfold my_turn. rewrite Z.add_0_r, u32_small by apply (impl_next _ _ Hi).
  apply Z.eqb_refl.
Qed.

Lemma ticket_lock_progress_witness :
  (exists h, [Idle; Waiting 0] !! h = Some Holding) \/
  (exists h t', [Idle; Waiting 0] !! h = Some (Waiting t') /\
     my_turn t' (Spinlock 1 0) = true).
Proof.
  apply (ticket_lock_progress 2 (Sys (Spinlock 1 0) [Idle; Waiting 0]) 1 0);
    [lia| |reflexivity].
  eapply rtc_once. apply (step_ticket (init 2) 1 0 (Spinlock 1 0)); reflexivity.
Defined.

End Smp.

(** Sequentially: a free lock is taken and given back free. *)
Lemma spin_lock_unlock l :
  unlocked l ->
  exists l', spin_lock l = Ok l' /\ unlocked (spin_unlock l') /\
    spin_lock l' = Halt HDeadlock.
Proof.
  intros [Ht Hr]. unfold spin_lock, get_ticket, my_turn. simpl. rewrite Ht, Z.eqb_refl.
  eexists; split; [done|]. split; [split; [done|apply u32_range]|]. simpl.
  destruct (Z.eqb_spec (u32 (next l + 1)) (next l)) as [E|]; [exfalso|done].
  unfold u32 in E. destruct (decide (next l + 1 < 2 ^ 32)).
  - rewrite Z.mod_small in E by lia. lia.
  - replace (next l + 1) with (1 * 2 ^ 32) in E by lia. rewrite Z.mod_mul in E; lia.
Qed.
