(* ===== verification/PhysMem.v ===== *)
(** Physical memory and the memory and string routines of [lib/string.c].

    The hypervisor runs on physical addresses.  Memory is a finite map from
    byte addresses to bytes; an address that was never written reads as 0 in
    the map, and the theorems hold for every initial map.  Words are stored
    little endian. *)

From S2P Require Import Prelude Bit.

Abbreviation mem := (gmap Z Z).

Definition load8 (m : mem) (a : Z) : Z := default 0 (m !! a).
Definition store8 (m : mem) (a v : Z) : mem := <[a := u8 v]> m.

(** [n]-byte little-endian access. *)
Fixpoint load_le (m : mem) (a : Z) (n : nat) : Z :=
  match n with
  | O => 0
  | S n' => load8 m a + 256 * load_le m (a + 1) n'
  end.

Fixpoint store_le (m : mem) (a : Z) (n : nat) (v : Z) : mem :=
  match n with
  | O => m
  | S n' => store_le (store8 m a v) (a + 1) n' (v / 256)
  end.

Definition load32 (m : mem) (a : Z) : Z := load_le m a 4.
Definition load64 (m : mem) (a : Z) : Z := load_le m a 8.
Definition store32 (m : mem) (a v : Z) : mem := store_le m a 4 v.
Definition store64 (m : mem) (a v : Z) : mem := store_le m a 8 v.

(** The bytes of a literal, one after the other. *)
Fixpoint store_bytes (m : mem) (a : Z) (l : list Z) : mem :=
  match l with
  | [] => m
  | c :: l => store_bytes (store8 m a c) (a + 1) l
  end.

(** ** [string.c] *)

Definition WORD_SIZE : Z := 8.

(** The byte loop both tails of [memcpy] end in: bytes [i, count). *)
Definition copy_tail (dst src count : Z) (i : Z) (m : mem) : outcome mem :=
  for_loop (Z.to_nat (count - i)) i
    (fun k m => Ok (store8 m (dst + k) (load8 m (src + k)))) m.

(** The word loop leaves with [i], and with its flag set when the [break] was
    taken. *)
Definition copy_words (dst src count : Z) (m : mem) : outcome (Z * mem) :=
  '(i, _, m) ← while (S (Z.to_nat count))
    (fun '(i, brk, _) => Ok ((i <? count) && negb brk))
    (fun '(i, _, m) =>
       if u64 (count - 1) <? u64 (i + (WORD_SIZE - 1)) then Ok (i, true, m)
       else Ok (u64 (i + WORD_SIZE), false,
                store64 m (dst + i) (load64 m (src + i))))
    (0, false, m);
  Ok (i, m).

Definition memcpy (m : mem) (dst src count : Z) : outcome mem :=
  if (Z.land src (WORD_SIZE - 1) =? 0) && (Z.land dst (WORD_SIZE - 1) =? 0) then
    '(i, m) ← copy_words dst src count m;
    if i <=? u64 (count - 1) then copy_tail dst src count i m else Ok m
  else copy_tail dst src count 0 m.

Definition memset (m : mem) (dest c count : Z) : outcome mem :=
  for_loop (Z.to_nat count) 0 (fun k m => Ok (store8 m (dest + k) (u8 c))) m.

Section strings.
(** The unbounded scans get their fuel from the caller; the lemmas say how much
    is enough. *)
Context (fuel : nat).

Definition strlen (m : mem) (s : Z) : outcome Z :=
  sc ← while fuel (fun sc => Ok (negb (load8 m sc =? 0))) (fun sc => Ok (sc + 1)) s;
  Ok (u64 (sc - s)).

(** The test reads the byte before it looks at the remaining length. *)
Definition strnlen (m : mem) (s n : Z) : outcome Z :=
  '(str, _) ← while fuel
    (fun '(str, n) => Ok (negb (load8 m str =? 0) && negb (n =? 0)))
    (fun '(str, n) => Ok (str + 1, u64 (n - 1)))
    (s, n);
  Ok (u64 (str - s)).

(** The copying [while] of [strcat] and [strcpy], whose test is the assignment:
    the state after each copy, with the byte just copied. *)
Definition copy_string (m : mem) (dest src : Z) : outcome mem :=
  '(_, _, _, m) ← while fuel
    (fun '(_, _, last, _) => Ok (negb (last =? 0)))
    (fun '(dest, src, _, m) =>
       let c := load8 m src in Ok (dest + 1, src + 1, c, store8 m dest c))
    (dest + 1, src + 1, load8 m src, store8 m dest (load8 m src));
  Ok m.

Definition strcpy (m : mem) (dest src : Z) : outcome (Z * mem) :=
  m ← copy_string m dest src; Ok (dest, m).

Definition strcat (m : mem) (dest src : Z) : outcome (Z * mem) :=
  d ← while fuel (fun d => Ok (negb (load8 m d =? 0))) (fun d => Ok (d + 1)) dest;
  m ← copy_string m d src;
  Ok (dest, m).

Definition strcmp (m : mem) (str0 str1 : Z) : outcome Z :=
  '(tmp0, tmp1) ← while fuel
    (fun '(tmp0, tmp1) => Ok ((load8 m tmp0 =? load8 m tmp1) &&
       (negb (load8 m tmp0 =? 0) && negb (load8 m tmp1 =? 0))))
    (fun '(tmp0, tmp1) => Ok (tmp0 + 1, tmp1 + 1))
    (str0, str1);
  Ok (i32 (tmp0 - tmp1)).

End strings.

(** ** Loads and stores *)

Lemma load8_store8 m a v b :
  load8 (store8 m a v) b = if a =? b then u8 v else load8 m b.
Proof.
  unfold load8, store8. rewrite lookup_insert.
  destruct (Z.eqb_spec a b), (decide (a = b)); done.
Qed.

Lemma load8_store_le m a n v b :
  load8 (store_le m a n v) b =
  if (a <=? b) && (b <? a + Z.of_nat n) then u8 (v / 256 ^ (b - a)) else load8 m b.
Proof.
  revert m a v. induction n as [|n IH]; intros m a v; cbn [store_le].
  { destruct (Z.leb_spec a b), (Z.ltb_spec b (a + Z.of_nat 0)); lia || done. }
  rewrite IH, load8_store8.
  destruct (Z.leb_spec (a + 1) b), (Z.ltb_spec b (a + 1 + Z.of_nat n)),
    (Z.leb_spec a b), (Z.ltb_spec b (a + Z.of_nat (S n))), (Z.eqb_spec a b);
    simpl; try lia; try done.
  - rewrite Z.div_div by lia. f_equal. f_equal.
    rewrite <- (Z.pow_1_r 256) at 1. rewrite <- Z.pow_add_r by lia. f_equal. lia.
  - subst. rewrite Z.sub_diag, Z.div_1_r. done.
Qed.

(** Memory whose cells hold bytes. *)
Definition bytes_ok (m : mem) : Prop := forall a, 0 <= load8 m a < 256.

Lemma store_le_ok m a n v : bytes_ok m -> bytes_ok (store_le m a n v).
Proof.
  intros H b. rewrite load8_store_le. destruct (_ && _); [apply u8_range|apply H].
Qed.

(** [load_le] reads the bytes it covers and nothing else. *)
Lemma load_le_ext m m' a a' n :
  (forall k, 0 <= k < Z.of_nat n -> load8 m (a + k) = load8 m' (a' + k)) ->
  load_le m a n = load_le m' a' n.
Proof.
  revert a a'. induction n as [|n IH]; intros a a' H; simpl; [done|].
  f_equal.
  - specialize (H 0 ltac:(lia)). rewrite !Z.add_0_r in H. done.
  - f_equal. apply IH. intros k Hk. rewrite <- !Z.add_assoc. apply H. lia.
Qed.

Lemma load_le_range m a n : bytes_ok m -> 0 <= load_le m a n < 256 ^ Z.of_nat n.
Proof.
  intros H. revert a. induction n as [|n IH]; intros a; simpl; [lia|].
  rewrite Nat2Z.inj_succ, Z.pow_succ_r by lia.
  specialize (IH (a + 1)). specialize (H a). lia.
Qed.

(** The byte at offset [k] of a word that was read. *)
Lemma load_le_byte m a n k :
  bytes_ok m -> 0 <= k < Z.of_nat n -> u8 (load_le m a n / 256 ^ k) = load8 m (a + k).
Proof.
  intros H. revert a k. induction n as [|n IH]; intros a k Hk; [lia|]. simpl.
  specialize (H a) as Ha. destruct (Z.eqb_spec k 0) as [->|].
  - rewrite Z.div_1_r, Z.add_0_r. unfold u8.
    rewrite Z.mul_comm, Z.mod_add by lia. apply Z.mod_small. lia.
  - replace k with (1 + (k - 1)) at 1 by lia.
    rewrite Z.pow_add_r, <- Z.div_div by lia. change (256 ^ 1) with 256.
    rewrite Z.mul_comm, Z.div_add, (Z.div_small (load8 m a)), Z.add_0_l by lia.
    rewrite IH by lia. f_equal. lia.
Qed.

Lemma load_store_le m a n v :
  0 <= v < 256 ^ Z.of_nat n -> load_le (store_le m a n v) a n = v.
Proof.
  revert m a v. induction n as [|n IH]; intros m a v Hv; cbn [load_le store_le].
  { simpl in Hv. lia. }
  rewrite Nat2Z.inj_succ, Z.pow_succ_r in Hv by lia.
  rewrite IH by (split; [apply Z.div_pos|apply Z.div_lt_upper_bound]; lia).
  rewrite load8_store_le.
  destruct (Z.leb_spec (a + 1) a); [lia|]. simpl.
  rewrite load8_store8, Z.eqb_refl. unfold u8. change (2 ^ 8) with 256.
  divmod v 256. lia.
Qed.

Lemma load_store_le_ne m a n v b k :
  b + Z.of_nat k <= a \/ a + Z.of_nat n <= b ->
  load_le (store_le m a n v) b k = load_le m b k.
Proof.
  intros Hd. apply load_le_ext. intros j Hj. rewrite load8_store_le.
  destruct (Z.leb_spec a (b + j)), (Z.ltb_spec (b + j) (a + Z.of_nat n)); done || lia.
Qed.

Lemma load8_store_bytes_out m a l b :
  b < a \/ a + Z.of_nat (length l) <= b -> load8 (store_bytes m a l) b = load8 m b.
Proof.
  revert m a. induction l as [|c l IH]; intros m a Hb; simpl in *; [done|].
  rewrite IH, load8_store8 by lia. destruct (Z.eqb_spec a b); [lia|done].
Qed.

Lemma load8_store_bytes m a l k c :
  l !! k = Some c -> load8 (store_bytes m a l) (a + Z.of_nat k) = u8 c.
Proof.
  revert m a k. induction l as [|c' l IH]; intros m a k Hk; [done|].
  destruct k as [|k]; simpl in *.
  - injection Hk as ->. rewrite Z.add_0_r, load8_store_bytes_out, load8_store8 by lia.
    by rewrite Z.eqb_refl.
  - replace (a + Z.of_nat (S k)) with (a + 1 + Z.of_nat k) by lia. by apply IH.
Qed.

Lemma load_store_bytes_ne m a l b n :
  b + Z.of_nat n <= a \/ a + Z.of_nat (length l) <= b ->
  load_le (store_bytes m a l) b n = load_le m b n.
Proof.
  intros H. apply load_le_ext. intros j Hj. apply load8_store_bytes_out. lia.
Qed.

Lemma load64_store64 m a v : 0 <= v < 2 ^ 64 -> load64 (store64 m a v) a = v.
Proof. intros. apply load_store_le. done. Qed.

Lemma load64_store64_ne m a v b :
  b + 8 <= a \/ a + 8 <= b -> load64 (store64 m a v) b = load64 m b.
Proof. intros. apply load_store_le_ne. simpl. lia. Qed.

(** ** [memcpy] and [memset] *)

(** [m'] is [m] with the first [n] bytes at [src] copied to [dst]: the
    reference [memcpy] is compared with. *)
Definition copied (m m' : mem) (dst src n : Z) : Prop :=
  forall a, load8 m' a =
    if (dst <=? a) && (a <? dst + n) then load8 m (src + (a - dst)) else load8 m a.

(** The two ranges of [n] bytes share no address. *)
Definition separate (a b n : Z) : Prop := a + n <= b \/ b + n <= a.

Section memcpy.
Context (m : mem) (dst src count : Z).
Context (Hok : bytes_ok m) (Hsep : separate dst src count) (Hcount : 0 <= count < 2 ^ 63).

Lemma copied_ok m' k : copied m m' dst src k -> bytes_ok m'.
Proof using Hok.
  intros H a. rewrite H. destruct (_ && _); apply Hok.
Qed.

(** Storing the next [n] bytes extends the copied prefix. *)
Lemma copied_extend m' (k : Z) (n : nat) :
  copied m m' dst src k -> 0 <= k -> k + Z.of_nat n <= count ->
  copied m (store_le m' (dst + k) n (load_le m' (src + k) n)) dst src (k + Z.of_nat n).
Proof using Hok Hsep.
  intros H Hk Hle a. unfold separate in Hsep. rewrite load8_store_le.
  destruct (Z.leb_spec (dst + k) a), (Z.ltb_spec a (dst + k + Z.of_nat n)); simpl.
  - rewrite load_le_byte by (try lia; by apply (copied_ok m' k)).
    rewrite H, !in_interval_false, in_interval_true by lia. f_equal. lia.
  - rewrite H, !in_interval_false by lia. done.
  - rewrite H. f_equal. repeat zcase.
  - lia.
Qed.

Lemma copied_byte m' k :
  copied m m' dst src k -> 0 <= k < count ->
  copied m (store8 m' (dst + k) (load8 m' (src + k))) dst src (k + 1).
Proof using Hok Hsep.
  intros H Hk. pose proof (copied_extend m' k 1 H) as He. simpl in He.
  rewrite Z.mul_0_r, Z.add_0_r in He. apply He; lia.
Qed.

Lemma copy_tail_spec m' i :
  copied m m' dst src i -> 0 <= i <= count ->
  exists m'', copy_tail dst src count i m' = Ok m'' /\ copied m m'' dst src count.
Proof using Hok Hsep.
  intros H Hi. unfold copy_tail.
  destruct (for_loop_rule (fun k m' => copied m m' dst src k)
    (fun k m => Ok (store8 m (dst + k) (load8 m (src + k))))
    (Z.to_nat (count - i)) i) with (s := m') as (m'' & E & Hc); [|done|].
  - intros k s Hk Hs. eexists; split; [done|]. apply copied_byte; [done|lia].
  - exists m''. split; [done|].
    replace (i + Z.of_nat (Z.to_nat (count - i))) with count in Hc by lia. done.
Qed.

Lemma copied_0 : copied m m dst src 0.
Proof using Type. intros a. repeat zcase. Qed.

Lemma copy_words_spec :
  exists i m', copy_words dst src count m = Ok (i, m') /\
    copied m m' dst src i /\ 0 <= i <= count.
Proof using All.
  unfold copy_words.
  edestruct (while_rule
    (fun '(i, _, m') => copied m m' dst src i /\ 0 <= i <= count)
    (fun '(i, _, m') => copied m m' dst src i /\ 0 <= i <= count)
    (fun '(i, brk, _) => if brk : bool then 0%nat else Z.to_nat (count - i)))
    as ([[i b] m'] & -> & Hc & Hi).
  - intros [[i brk] m'] (Hc & Hi). eexists; split; [done|].
    destruct (Z.ltb_spec i count); [|done]. destruct brk; [done|]. simpl.
    unfold WORD_SIZE. rewrite !u64_small by lia.
    destruct (Z.ltb_spec (count - 1) (i + (8 - 1))).
    + eexists; split; [done|]. split; [done|]. lia.
    + eexists; split; [done|].
      split; [|lia]. split; [|lia]. apply (copied_extend m' i 8); [done|lia|simpl; lia].
  - split; [apply copied_0|lia].
  - simpl. lia.
  - mstep. eauto.
Qed.

(** On separate ranges, both the word-wise and the byte-wise path copy exactly
    [count] bytes. *)
Lemma memcpy_spec :
  exists m', memcpy m dst src count = Ok m' /\ copied m m' dst src count.
Proof using All.
  unfold memcpy. destruct (_ && _).
  - destruct copy_words_spec as (i & m' & -> & Hc & Hi). mstep.
    destruct (Z.leb_spec i (u64 (count - 1))); [by apply (copy_tail_spec m' i)|].
    exists m'. split; [done|]. destruct (Z.eqb_spec count 0).
    + assert (i = count) as <- by lia. done.
    + rewrite u64_small in * by lia. assert (i = count) as <- by lia. done.
  - apply copy_tail_spec; [apply copied_0|lia].
Qed.

End memcpy.

Lemma memset_spec m dest c count :
  0 <= count ->
  exists m', memset m dest c count = Ok m' /\
  forall a, load8 m' a =
    if (dest <=? a) && (a <? dest + count) then u8 c else load8 m a.
Proof.
  intros Hc. unfold memset.
  destruct (for_loop_rule (fun k m' => forall a, load8 m' a =
      if (dest <=? a) && (a <? dest + k) then u8 c else load8 m a)
    (fun k m => Ok (store8 m (dest + k) (u8 c))) (Z.to_nat count) 0)
    with (s := m) as (m' & E & H).
  - intros k s Hk Hs. eexists; split; [done|]. intros a. rewrite load8_store8, Hs.
    unfold u8 at 1. rewrite (Z.mod_small (u8 c)) by apply u8_range.
    destruct (Z.eqb_spec (dest + k) a); repeat zcase.
  - intros a. repeat zcase.
  - exists m'. split; [done|]. replace (0 + Z.of_nat (Z.to_nat count)) with count in H by lia.
    done.
Qed.

(** ** The properties *)

(** C29: [memcpy], which copies eight bytes at a time when both addresses are
    aligned, copies exactly [count] bytes and changes nothing else, for any two
    ranges that do not overlap. *)
Theorem memcpy_correct m dst src count :
  bytes_ok m -> separate dst src count -> 0 <= count < 2 ^ 63 ->
  exists m', memcpy m dst src count = Ok m' /\ copied m m' dst src count.
Proof. apply memcpy_spec. Qed.

Lemma memcpy_correct_witness :
  exists m', memcpy {[0x1000 := 7; 0x1008 := 9]} 0x2000 0x1000 11 = Ok m' /\
    copied {[0x1000 := 7; 0x1008 := 9]} m' 0x2000 0x1000 11.
Proof.
  apply (memcpy_correct {[0x1000 := 7; 0x1008 := 9]} 0x2000 0x1000 11).
  - intros a. unfold load8. destruct (decide (a = 0x1000)) as [->|]; [done|].
    destruct (decide (a = 0x1008)) as [->|]; [done|].
    rewrite lookup_insert_ne, lookup_singleton_ne by done. done.
  - unfold separate. lia.
  - lia.
Defined.

(** [strcmp] returns the distance of the two pointers, not the order of the
    strings: on two equal strings at different addresses it is not 0. *)
Theorem strcmp_equal_strings :
  let m : mem := {[0x10 := 65; 0x11 := 0; 0x20 := 65; 0x21 := 0]} in
  strcmp 4 m 0x10 0x20 = Ok (-16).
Proof. reflexivity. Qed.
