(* ===== verification/Mem.v ===== *)
(** The physical page allocator: [core/mem.c] and [core/inc/mem.h].

    The root page pool hands out runs of 4 KiB pages of the region between the
    linker symbols [__mem_vm_begin] and [__mem_vm_end], tracked by a bitmap kept
    in the last pages of the region.  The bitmap's storage is the list of its
    granules; everything else that is written to memory goes to [ram]. *)

From S2P Require Import Prelude Bit Bitmap Spinlock PhysMem.

(** ** Data *)

Record ppages := Ppages { pp_base : Z; pp_nr_pages : Z }.

Record page_pool := PagePool {
  base : Z;
  nr_pages : Z;
  free : Z;
  last : Z;
  bitmap : bitmap_t;
  lock : spinlock_t;
}.

Record mem_region := MemRegion { mr_base : Z; mr_size : Z; mr_pool : page_pool }.

Definition VM_BASE : Z := 0x50000000 + 8 * (2 * PAGE_SIZE).
Definition VM_SIZE : Z := 0x78000000.
Definition SHARED_MEM_SIZE : Z := 0x1000000.
Definition SHARED_MEM_BASE : Z := 0x70000000.

(** The globals of [mem.c]: the root pool, the pointer to the shared-memory
    descriptor, and RAM.  A [struct shared_memory_device] at [p] has [va] at
    [p], [pa] at [p + 8] and [size] at [p + 16]. *)
Record memsys := MemSys { root_page_pool : page_pool; shared_mem : Z; ram : mem }.

Definition sizeof_shared_memory_device : Z := 24.

(** ** Operations *)

Definition mem_ppages_get (base nr_pages : Z) : ppages := Ppages base nr_pages.

Definition set_lock (pool : page_pool) (l : spinlock_t) : page_pool :=
  PagePool (base pool) (nr_pages pool) (free pool) (last pool) (bitmap pool) l.

(** What the search loop of [pp_alloc] keeps: the pool, the output argument,
    [curr] and [ok]. *)
Record search := Search { s_pool : page_pool; s_out : ppages; s_curr : Z; s_ok : bool }.

(** One iteration of the inner [while]; the flag says whether it [break]s.
    [bit] is an [int], and so is the product [bit * PAGE_SIZE]. *)
Definition pp_alloc_iter (n : Z) (aligned : bool) (start : Z) (s : search)
    : outcome (search * bool) :=
  let pool := s_pool s in
  r ← bitmap_find_consec (bitmap pool) (nr_pages pool) (s_curr s) n false;
  let bit := i32 r in
  if bit <? 0 then
    let next_aligned := u64 (n - (base pool / PAGE_SIZE) mod n) mod n in
    Ok (Search pool (s_out s) (if aligned then next_aligned else 0) (s_ok s), true)
  else if aligned && negb (u64 (bit + start) mod n =? 0) then
    Ok (Search pool (s_out s) (u64 (bit + u64 (bit + start) mod n)) (s_ok s), false)
  else
    map ← bitmap_set_consecutive (bitmap pool) bit n;
    Ok (Search
          (PagePool (base pool) (nr_pages pool) (u64 (free pool - n)) (u64 (bit + n))
             map (lock pool))
          (Ppages (u64 (base pool + i32 (bit * PAGE_SIZE))) n)
          (s_curr s) true, true).

(** One pass of the outer [for]: [while (pool->free != 0) ..]. *)
Definition pp_alloc_pass (n : Z) (aligned : bool) (start : Z) (s : search) : outcome search :=
  '(s, _) ← while (S (S (S (Z.to_nat (nr_pages (s_pool s))))))
    (fun '(s, brk) => Ok (negb (free (s_pool s) =? 0) && negb brk))
    (fun '(s, _) => pp_alloc_iter n aligned start s)
    (s, false);
  Ok s.

Definition pp_alloc (pool : page_pool) (n : Z) (aligned : bool) (out : ppages)
    : outcome (bool * page_pool * ppages) :=
  let out := Ppages (pp_base out) 0 in
  if n =? 0 then Ok (true, pool, out) else
  l ← spin_lock (lock pool);
  let pool := set_lock pool l in
  let start := if aligned then base pool / PAGE_SIZE mod n else 0 in
  let curr := u64 (last pool + u64 (last pool + start) mod n) in
  s ← pp_alloc_pass n aligned start (Search pool out curr false);
  s ← (if s_ok s then Ok s else pp_alloc_pass n aligned start s);
  Ok (s_ok s, set_lock (s_pool s) (spin_unlock (lock (s_pool s))), s_out s).

(** [ERROR] spins for ever. *)
Definition mem_alloc_ppages (pool : page_pool) (n : Z) (aligned : bool)
    : outcome (ppages * page_pool) :=
  '(ok, pool, pages) ← pp_alloc pool n aligned (Ppages 0 0);
  if (ok : bool) then Ok (pages, pool) else Halt HError.

Definition mem_alloc_page (pool : page_pool) (n : Z) (phys_aligned : bool)
    : outcome (Z * page_pool) :=
  '(pages, pool) ← mem_alloc_ppages pool n phys_aligned;
  Ok (pp_base pages, pool).

(** Both failures end in [ERROR], so the [return false] after it is not
    reached. *)
Definition mem_free_page (pool : page_pool) (page n : Z) : outcome (bool * page_pool) :=
  if (page =? 0) || (n =? 0) then Halt HError else
  l ← spin_lock (lock pool);
  let bit := u64 (page - base pool) / PAGE_SIZE in
  if nr_pages pool <=? bit then Halt HError else
  map ← bitmap_clear_consecutive (bitmap pool) bit n;
  Ok (true, PagePool (base pool) (nr_pages pool) (u64 (free pool + n)) (last pool)
              map (spin_unlock l)).

Definition mem_get_free_pages (pool : page_pool) : Z := free pool.

(** The bitmap takes the last pages before [mem_vm_end]; [memset] clears its
    granules, 1024 per page. *)
Definition root_pool_set_up_bitmap (mem_vm_end : Z) (root_pool : page_pool)
    : outcome (bool * page_pool) :=
  let bitmap_nr_pages := nr_pages root_pool / (8 * PAGE_SIZE) +
    (if nr_pages root_pool mod (8 * PAGE_SIZE) =? 0 then 0 else 1) in
  if nr_pages root_pool <=? bitmap_nr_pages then Halt HError else
  let bitmap_size := u64 (bitmap_nr_pages * PAGE_SIZE) in
  let bitmap_base := u64 (mem_vm_end - bitmap_size) in
  let bitmap_pp := mem_ppages_get bitmap_base bitmap_nr_pages in
  if pp_base bitmap_pp =? 0 then Halt HError else
  let root_bitmap := replicate (Z.to_nat (bitmap_size / 4)) 0 in
  let pageoff := NUM_PAGES (u64 (pp_base bitmap_pp - base root_pool)) in
  map ← bitmap_set_consecutive root_bitmap pageoff (pp_nr_pages bitmap_pp);
  Ok (true, PagePool (base root_pool) (nr_pages root_pool)
              (u64 (free root_pool - pp_nr_pages bitmap_pp)) (last root_pool) map
              (lock root_pool)).

(** [memcpy(pa, "Ciallo!\0", 8)]: the bytes of the literal. *)
Definition ciallo : list Z := [67; 105; 97; 108; 108; 111; 33; 0].

Definition shared_memory_init (ms : memsys) : outcome memsys :=
  '(p, pool) ← mem_alloc_page (root_page_pool ms)
     (NUM_PAGES sizeof_shared_memory_device) false;
  let m := store64 (ram ms) p SHARED_MEM_BASE in
  let m := store64 m (p + 16) SHARED_MEM_SIZE in
  '(pa, pool) ← mem_alloc_page pool (NUM_PAGES (load64 m (p + 16))) false;
  let m := store64 m (p + 8) pa in
  if load64 m (p + 8) =? 0 then Halt HError else
  Ok (MemSys pool p (store_bytes m (load64 m (p + 8)) ciallo)).

(** [root_mem_region] is static, so [last] and [lock] start as zeros. *)
Definition mem_init (mem_vm_begin mem_vm_end : Z) (m : mem) : outcome memsys :=
  let zeroed := PagePool 0 0 0 0 [] SPINLOCK_INITVAL in
  let region := MemRegion mem_vm_begin (u64 (mem_vm_end - mem_vm_begin)) zeroed in
  let nr := mr_size region / PAGE_SIZE in
  let root_pool := PagePool (ALIGN (mr_base region) PAGE_SIZE) nr nr
    (last (mr_pool region)) (bitmap (mr_pool region)) (lock (mr_pool region)) in
  '(ok, root_pool) ← root_pool_set_up_bitmap mem_vm_end root_pool;
  if (ok : bool) then shared_memory_init (MemSys root_pool 0 m) else Halt HError.

(** ** The invariant *)

Definition page_free (pool : page_pool) (i : Z) : bool := negb (bit (bitmap pool) i).

(** What holds of the root pool, its lock apart.  The last page holds (part
    of) the bitmap, so its bit stays set: it stops every run of free pages
    inside the pool.  [2^19] pages (2 GiB) is the largest pool for which
    [bit * PAGE_SIZE] fits the [int] it is computed in; the region lies below
    [2^48], the largest physical address of the page tables. *)
Record pool_ok (pool : page_pool) : Prop := {
  wf_bitmap : bitmap_wf (bitmap pool);
  wf_nr : 0 < nr_pages pool <= 2 ^ 19;
  wf_size : nr_pages pool <= nbits (bitmap pool);
  wf_guard : bit (bitmap pool) (nr_pages pool - 1) = true;
  wf_free : free pool = zcount (page_free pool) 0 (nr_pages pool);
  wf_last : 0 <= last pool <= nr_pages pool;
  wf_base : 0 <= base pool /\ base pool mod PAGE_SIZE = 0;
  wf_limit : base pool + nr_pages pool * PAGE_SIZE < 2 ^ 48;
}.

(** Between operations nobody holds the lock. *)
Definition pool_wf (pool : page_pool) : Prop := pool_ok pool /\ unlocked (lock pool).

(** [pool'] is [pool] with the free pages [i, i+n) taken. *)
Definition allocated (pool pool' : page_pool) (i n : Z) : Prop :=
  0 <= i /\ i + n < nr_pages pool /\
  base pool' = base pool /\ nr_pages pool' = nr_pages pool /\
  (forall j, i <= j < i + n -> page_free pool j = true) /\
  (forall j, 0 <= j ->
     page_free pool' j = negb ((i <=? j) && (j <? i + n)) && page_free pool j).

(** [n] consecutive free pages start at [j]. *)
Definition fits (pool : page_pool) (n j : Z) : Prop := run (bitmap pool) false j n.

(** *** Counting free pages *)

Lemma allocated_count pool pool' i n :
  allocated pool pool' i n -> 0 <= n ->
  zcount (page_free pool') 0 (nr_pages pool) =
  zcount (page_free pool) 0 (nr_pages pool) - n.
Proof.
  intros (Hi & Hle & _ & _ & Hf & Hg) Hn.
  rewrite (zcount_flip (page_free pool') (page_free pool) 0 (nr_pages pool) i n);
    try lia; intros j Hj.
  - rewrite Hg by lia. repeat zcase.
  - rewrite Hg by lia. destruct (Z.leb_spec i j), (Z.ltb_spec j (i + n)); simpl; try done.
    apply Hf. lia.
Qed.

Lemma no_free_page pool j :
  pool_ok pool -> free pool = 0 -> 0 <= j < nr_pages pool -> page_free pool j = false.
Proof.
  intros Hwf H0 Hj. destruct (page_free pool j) eqn:E; [exfalso|done].
  pose proof (zcount_pos (page_free pool) 0 (nr_pages pool) j ltac:(lia) E).
  rewrite (wf_free _ Hwf) in H0. lia.
Qed.

(** ** [pp_alloc] *)

Section pp_alloc.
Context (n : Z) (aligned : bool) (Hn : 1 <= n < 2 ^ 64).

Definition start_of (pool : page_pool) : Z :=
  if aligned then base pool / PAGE_SIZE mod n else 0.

(** The result of a successful search: [n] pages taken at [i], the output
    argument filled in, aligned to their size when asked for. *)
Definition found (pool : page_pool) (s : search) : Prop :=
  exists i, allocated pool (s_pool s) i n /\ pool_ok (s_pool s) /\
    lock (s_pool s) = lock pool /\
    s_out s = Ppages (base pool + i * PAGE_SIZE) n /\
    (aligned = true -> (base pool / PAGE_SIZE + i) mod n = 0).

Lemma start_of_range pool : pool_ok pool -> 0 <= start_of pool < 2 ^ 52.
Proof using Hn.
  intros Hok. unfold start_of. destruct aligned; [|lia].
  pose proof (wf_base _ Hok). pose proof (wf_limit _ Hok). pose proof (wf_nr _ Hok).
  unfold PAGE_SIZE in *. divmod (base pool) 0x1000.
  pose proof (Z.mod_le (base pool / 0x1000) n ltac:(lia) ltac:(lia)).
  pose proof (Z.mod_pos_bound (base pool / 0x1000) n). lia.
Qed.

(** Taking a run the search found. *)
Lemma take_run pool map' i l :
  pool_ok pool -> 0 <= i -> i + n < nr_pages pool -> fits pool n i ->
  bitmap_wf map' -> nbits map' = nbits (bitmap pool) ->
  (forall j, 0 <= j -> bit map' j = (i <=? j) && (j <? i + n) || bit (bitmap pool) j) ->
  let pool' := PagePool (base pool) (nr_pages pool) (u64 (free pool - n)) (u64 (i + n)) map' l in
  allocated pool pool' i n /\ pool_ok pool'.
Proof using Hn.
  intros Hok Hi Hle Hfit Hwf' Hnb Hbit pool'.
  pose proof (wf_nr _ Hok). pose proof (wf_size _ Hok).
  assert (Ha : allocated pool pool' i n).
  { split_and!; [done..| |]; unfold page_free; intros j Hj; simpl.
    - rewrite Hfit by lia. done.
    - rewrite Hbit by lia. apply negb_orb. }
  split; [done|]. pose proof (allocated_count _ _ _ _ Ha ltac:(lia)) as Hc.
  pose proof (zcount_range (page_free pool') 0 (nr_pages pool) ltac:(lia)).
  pose proof (zcount_range (page_free pool) 0 (nr_pages pool) ltac:(lia)).
  pose proof (wf_free _ Hok). pose proof (wf_last _ Hok).
  split; simpl; try apply Hok; try done; try lia.
  - rewrite Hbit, (wf_guard _ Hok) by lia. apply orb_true_r.
  - fold pool'. rewrite u64_small by lia. lia.
  - rewrite u64_small by lia. lia.
Qed.

(** Where the next search starts after one that misaligned at [i]. *)
Lemma next_curr pool i :
  pool_ok pool -> 0 <= i < nr_pages pool ->
  u64 (i + start_of pool) mod n <> 0 ->
  i < u64 (i + u64 (i + start_of pool) mod n) < 2 ^ 64.
Proof using Hn.
  intros Hok Hi Hne. pose proof (start_of_range _ Hok). pose proof (wf_nr _ Hok).
  rewrite (u64_small (i + start_of pool)) in * by lia.
  pose proof (Z.mod_pos_bound (i + start_of pool) n ltac:(lia)).
  pose proof (Z.mod_le (i + start_of pool) n ltac:(lia) ltac:(lia)).
  rewrite u64_small; lia.
Qed.

Lemma aligned_pos pool i :
  pool_ok pool -> 0 <= i < nr_pages pool -> aligned = true ->
  u64 (i + start_of pool) mod n = 0 -> (base pool / PAGE_SIZE + i) mod n = 0.
Proof using Hn.
  intros Hok Hi Hal. pose proof (start_of_range _ Hok). pose proof (wf_nr _ Hok).
  rewrite u64_small by lia. unfold start_of. rewrite Hal.
  rewrite Zplus_mod_idemp_r, Z.add_comm. done.
Qed.

(** One iteration from [curr]: nothing fits from there on, or a misaligned fit
    moves [curr] forward, or the pages are taken. *)
Lemma pp_alloc_iter_spec s :
  pool_ok (s_pool s) -> 0 <= s_curr s < 2 ^ 64 ->
  exists s' brk, pp_alloc_iter n aligned (start_of (s_pool s)) s = Ok (s', brk) /\
  ((brk = true /\ s_ok s' = true /\ found (s_pool s) s') \/
   (s_pool s' = s_pool s /\ s_out s' = s_out s /\ s_ok s' = s_ok s /\
    0 <= s_curr s' < 2 ^ 64 /\
    ((brk = true /\ (aligned = false -> s_curr s' = 0 /\
        forall j, s_curr s <= j -> j + n <= nr_pages (s_pool s) -> ~ fits (s_pool s) n j) \/
      brk = false /\ aligned = true /\ s_curr s < s_curr s' /\
        s_curr s < nr_pages (s_pool s))))).
Proof using Hn.
  intros Hok Hc. set (pool := s_pool s) in *.
  pose proof (wf_nr _ Hok). pose proof (wf_size _ Hok). pose proof (proj2 (wf_bitmap _ Hok)).
  destruct (bitmap_find_consec_spec (bitmap pool) (nr_pages pool) (s_curr s) n false
    (nr_pages pool - 1)) as (r & E & Hr); try lia; try apply Hok.
  unfold pp_alloc_iter. fold pool. rewrite E. mstep.
  destruct Hr as [(Hr & Hlt & Hfit & _)|(-> & Hnone)].
  - rewrite i32_small by lia. destruct (Z.ltb_spec r 0); [lia|].
    destruct (aligned && _) eqn:Eal.
    + apply andb_prop in Eal as [Hal Hne].
      apply negb_true_iff, Z.eqb_neq in Hne. pose proof (next_curr pool r Hok ltac:(lia) Hne).
      eexists _, _. split; [done|]. right. simpl. repeat split; try done; try lia.
      right. repeat split; try done; lia.
    + destruct (bitmap_set_consecutive_spec (bitmap pool) r n)
        as (map' & -> & Hwf' & Hnb & Hbit); [apply Hok|lia..|].
      mstep. eexists _, _. split; [done|]. left. split; [done|]. split; [done|].
      destruct (take_run pool map' r (lock pool)) as [Ha Hok']; try done; try lia.
      pose proof (wf_base _ Hok). pose proof (wf_limit _ Hok).
      unfold PAGE_SIZE in *. rewrite i32_small, (u64_small (base pool + _)) by lia.
      exists r. split_and!; try done. intros Hal. rewrite Hal in Eal. simpl in Eal.
      apply negb_false_iff, Z.eqb_eq in Eal. apply aligned_pos; (done || lia).
  - rewrite i32_SIZE_MAX. simpl. eexists _, _. split; [done|]. right. simpl.
    split_and!; try done.
    + destruct aligned; [|lia].
      pose proof (Z.mod_pos_bound (u64 (n - base pool / PAGE_SIZE mod n)) n). lia.
    + destruct aligned; [|lia].
      pose proof (Z.mod_pos_bound (u64 (n - base pool / PAGE_SIZE mod n)) n). lia.
    + left. split; [done|]. intros Hal. rewrite Hal. done.
Qed.

(** The search as seen between iterations: pages taken, or the pool untouched
    so far. *)
Definition missed (s s' : search) (brk : bool) : Prop :=
  s_pool s' = s_pool s /\ s_out s' = s_out s /\ s_ok s' = false /\
  0 <= s_curr s' < 2 ^ 64 /\
  (aligned = false -> if brk then s_curr s' = 0 /\
     forall j, s_curr s <= j -> j + n <= nr_pages (s_pool s) -> ~ fits (s_pool s) n j
   else s_curr s' = s_curr s).

Definition searching (s : search) (x : search * bool) : Prop :=
  (x.2 = true /\ s_ok x.1 = true /\ found (s_pool s) x.1) \/ missed s x.1 x.2.

Lemma searching_step s s' :
  pool_ok (s_pool s) -> missed s s' false ->
  exists x, pp_alloc_iter n aligned (start_of (s_pool s)) s' = Ok x /\ searching s x /\
    (x.2 = false -> s_curr s' < s_curr x.1 /\ s_curr s' < nr_pages (s_pool s)).
Proof using Hn.
  intros Hok (Hp & Ho & Hf & Hc & Hu).
  destruct (pp_alloc_iter_spec s') as (s2 & brk & E & H); [by rewrite Hp|done|].
  rewrite Hp in *. exists (s2, brk). split; [done|]. unfold searching, missed; simpl.
  destruct H as [H|(Hp2 & Ho2 & Hf2 & Hc2 & [(-> & Hnone)|(-> & Hal & Hlt)])].
  - split; [by left|]. destruct H as [-> _]. done.
  - split; [|done]. right. rewrite Hp2, Ho2, Hf2. split_and!; try done; try apply Hc2.
    intros Hal. rewrite <- (Hu Hal). auto.
  - split; [|done]. right. rewrite Hp2, Ho2, Hf2, Hal. split_and!; try done; apply Hc2.
Qed.

Lemma pp_alloc_pass_spec s :
  pool_ok (s_pool s) -> 0 <= s_curr s < 2 ^ 64 -> s_ok s = false ->
  exists s', pp_alloc_pass n aligned (start_of (s_pool s)) s = Ok s' /\
  ((s_ok s' = true /\ found (s_pool s) s') \/
   (exists brk, missed s s' brk /\ (brk = false -> free (s_pool s) = 0))).
Proof using Hn.
  intros Hok Hc Hf. unfold pp_alloc_pass.
  edestruct (while_rule (searching s)
    (fun x => searching s x /\ (x.2 = false -> free (s_pool s) = 0))
    (fun '(s', brk) => if brk : bool then 0%nat
       else S (Z.to_nat (nr_pages (s_pool s) - s_curr s')))) as ([s' brk] & -> & Hx & H0).
  - intros [s' brk] HI. eexists; split; [done|].
    destruct brk; [rewrite andb_false_r; done|]. rewrite andb_true_r.
    destruct HI as [[? _]|HI]; [done|]. simpl in HI.
    pose proof HI as (Hp & _). rewrite Hp. destruct (Z.eqb_spec (free (s_pool s)) 0); simpl.
    { split; [by right|done]. }
    destruct (searching_step s s' Hok HI) as ([s2 brk2] & -> & H2 & Hlt).
    eexists; split; [done|]. split; [done|]. destruct brk2; [lia|].
    specialize (Hlt eq_refl). simpl in Hlt. lia.
  - right. unfold missed. simpl. done.
  - simpl. lia.
  - mstep. exists s'. split; [done|]. destruct Hx as [(_ & ? & ?)|Hm]; [by left|].
    right. eauto.
Qed.

End pp_alloc.

Lemma pool_ok_set_lock pool l : pool_ok pool -> pool_ok (set_lock pool l).
Proof. intros H. split; apply H. Qed.

(** What a call of [pp_alloc] that returned [ok] did. *)
Definition alloc_result (pool : page_pool) (n : Z) (aligned : bool) (out : ppages)
    (ok : bool) (pool' : page_pool) (out' : ppages) : Prop :=
  if ok then
    exists i, allocated pool pool' i n /\
      out' = Ppages (base pool + i * PAGE_SIZE) n /\
      (aligned = true -> (base pool / PAGE_SIZE + i) mod n = 0)
  else
    out' = Ppages (pp_base out) 0 /\ pool' = set_lock pool (lock pool') /\
    (aligned = false -> forall j, 0 <= j -> j + n <= nr_pages pool -> ~ fits pool n j).

Lemma pp_alloc_spec pool n aligned out :
  pool_wf pool -> 1 <= n < 2 ^ 64 ->
  exists ok pool' out', pp_alloc pool n aligned out = Ok (ok, pool', out') /\
    pool_wf pool' /\ alloc_result pool n aligned out ok pool' out'.
Proof.
  intros [Hok Hl] Hn. unfold pp_alloc. destruct (Z.eqb_spec n 0); [lia|].
  destruct (spin_lock_unlock _ Hl) as (l & -> & Hul & _). mstep.
  set (p0 := set_lock pool l). assert (Hok0 : pool_ok p0) by by apply pool_ok_set_lock.
  change (if aligned then base p0 / PAGE_SIZE mod n else 0) with (start_of n aligned p0).
  set (curr := u64 _). set (out0 := Ppages (pp_base out) 0).
  destruct (pp_alloc_pass_spec n aligned Hn (Search p0 out0 curr false))
    as (s1 & E1 & H1); [done|apply u64_range|done|].
  cbn [s_pool] in E1, H1. rewrite E1. mstep.
  assert (Hdone : forall s, s_ok s = true -> found n aligned p0 s ->
    exists ok pool' out',
      Ok (s_ok s, set_lock (s_pool s) (spin_unlock (lock (s_pool s))), s_out s) =
        Ok (ok, pool', out') /\ pool_wf pool' /\ alloc_result pool n aligned out ok pool' out').
  { intros s Hs (i & Ha & Hok' & Hlk & Ho & Hal). eexists _, _, _. split; [done|].
    split; [split; [by apply pool_ok_set_lock|]|]; rewrite Hlk; [done|].
    unfold alloc_result. rewrite Hs. by exists i. }
  destruct H1 as [(Hs & Hfd)|(b1 & (Hp1 & Ho1 & Hf1 & Hc1 & Hu1) & Hb1)].
  { rewrite Hs. mstep. by apply Hdone. }
  rewrite Hf1. simpl in Hp1.
  destruct (pp_alloc_pass_spec n aligned Hn s1) as (s2 & E & H2); [by rewrite Hp1|done..|].
  rewrite Hp1 in *. rewrite E. mstep.
  destruct H2 as [(Hs & Hfd)|(b2 & (Hp2 & Ho2 & Hf2 & Hc2 & Hu2) & Hb2)]; [by apply Hdone|].
  rewrite Hp1 in *. eexists _, _, _. split; [done|]. rewrite Hp2, Ho2, Hf2.
  split; [split; [by apply pool_ok_set_lock|done]|]. split_and!; [by rewrite Ho1|done|].
  intros Hal j Hj Hle Hfit. specialize (Hu1 Hal). specialize (Hu2 Hal).
  assert (Hany : free p0 <> 0).
  { intros H0. pose proof (no_free_page p0 j Hok0 H0 ltac:(simpl; lia)) as Hx.
    apply negb_false_iff in Hx. specialize (Hfit j ltac:(lia)). simpl in Hx. congruence. }
  destruct b1; [|by apply Hany, Hb1]. destruct b2; [|by apply Hany, Hb2].
  apply (proj2 Hu2 j); [lia|done|done].
Qed.

(** ** Freeing *)

(** [pool'] is [pool] with the used pages [i, i+n) given back. *)
Definition released (pool pool' : page_pool) (i n : Z) : Prop :=
  base pool' = base pool /\ nr_pages pool' = nr_pages pool /\
  (forall j, 0 <= j ->
     page_free pool' j = ((i <=? j) && (j <? i + n)) || page_free pool j).

Lemma released_count pool pool' i n :
  released pool pool' i n -> 0 <= i -> 0 <= n -> i + n <= nr_pages pool ->
  (forall j, i <= j < i + n -> page_free pool j = false) ->
  zcount (page_free pool') 0 (nr_pages pool) =
  zcount (page_free pool) 0 (nr_pages pool) + n.
Proof.
  intros (_ & _ & Hr) Hi Hn Hle Hu.
  apply (zcount_flip (page_free pool) (page_free pool') 0 (nr_pages pool) i n); try lia.
  - exact Hu.
  - intros j Hj. rewrite Hr by lia. by destruct (_ && _).
Qed.

Lemma page_index pool i :
  pool_ok pool -> 0 <= i < nr_pages pool ->
  u64 (base pool + i * PAGE_SIZE - base pool) / PAGE_SIZE = i.
Proof.
  intros Hok Hi. pose proof (wf_nr _ Hok). unfold PAGE_SIZE in *.
  rewrite u64_small by lia. replace (base pool + i * 0x1000 - base pool) with (i * 0x1000) by lia.
  apply Z.div_mul. lia.
Qed.

(** Giving back pages that are in use, the pool's last page excepted. *)
Lemma mem_free_page_spec pool i n :
  pool_wf pool -> 0 < base pool -> 0 <= i -> 1 <= n -> i + n < nr_pages pool ->
  (forall j, i <= j < i + n -> page_free pool j = false) ->
  exists pool', mem_free_page pool (base pool + i * PAGE_SIZE) n = Ok (true, pool') /\
    pool_wf pool' /\ released pool pool' i n /\ free pool' = free pool + n.
Proof.
  intros [Hok Hl] Hb Hi Hn Hle Hu. unfold mem_free_page.
  destruct (Z.eqb_spec (base pool + i * PAGE_SIZE) 0); [unfold PAGE_SIZE in *; lia|].
  destruct (Z.eqb_spec n 0); [lia|]. simpl.
  destruct (spin_lock_unlock _ Hl) as (l & -> & Hul & _). mstep.
  rewrite page_index by (done || lia).
  destruct (Z.leb_spec (nr_pages pool) i); [lia|].
  pose proof (wf_nr _ Hok). pose proof (wf_size _ Hok). pose proof (wf_free _ Hok).
  destruct (bitmap_clear_consecutive_spec (bitmap pool) i n)
    as (map' & -> & Hwf' & Hnb & Hbit); [apply Hok|lia..|]. mstep.
  eexists; split; [done|]. set (pool' := PagePool _ _ _ _ _ _).
  assert (Hr : released pool pool' i n).
  { split_and!; try done. intros j Hj. unfold page_free. simpl.
    rewrite Hbit by done. rewrite negb_andb, negb_involutive. done. }
  pose proof (released_count _ _ _ _ Hr ltac:(lia) ltac:(lia) ltac:(lia) Hu) as Hc.
  pose proof (zcount_range (page_free pool') 0 (nr_pages pool) ltac:(lia)).
  pose proof (zcount_range (page_free pool) 0 (nr_pages pool) ltac:(lia)).
  assert (Hf : free pool' = free pool + n) by (simpl; rewrite u64_small; lia).
  split; [|done]. split; [|done]. split; try (simpl; apply Hok || done || lia).
  - simpl. rewrite Hbit, (wf_guard _ Hok) by lia. repeat zcase.
  - rewrite Hf. simpl. lia.
Qed.

(** [mem_alloc_ppages] returns pages the pool had free, or stops in [ERROR]. *)
Lemma mem_alloc_ppages_spec pool n aligned :
  pool_wf pool -> 1 <= n < 2 ^ 64 ->
  (exists i pool', mem_alloc_ppages pool n aligned =
       Ok (Ppages (base pool + i * PAGE_SIZE) n, pool') /\
     pool_wf pool' /\ allocated pool pool' i n /\ free pool' = free pool - n /\
     (aligned = true -> (base pool / PAGE_SIZE + i) mod n = 0)) \/
  (mem_alloc_ppages pool n aligned = Halt HError /\
     (aligned = false -> forall j, 0 <= j -> j + n <= nr_pages pool -> ~ fits pool n j)).
Proof.
  intros Hwf Hn. unfold mem_alloc_ppages.
  destruct (pp_alloc_spec pool n aligned (Ppages 0 0) Hwf Hn)
    as (ok & pool' & out' & -> & Hwf' & Hr). mstep.
  destruct ok; [left|right]; mstep.
  - destruct Hr as (i & Ha & -> & Hal). exists i, pool'. split_and!; try done.
    rewrite (wf_free _ (proj1 Hwf)), (wf_free _ (proj1 Hwf')).
    rewrite <- (allocated_count _ _ _ _ Ha) by lia. destruct Ha as (_ & _ & _ & -> & _). done.
  - split; [done|]. apply Hr.
Qed.

Lemma mem_alloc_page_spec pool n aligned :
  pool_wf pool -> 1 <= n < 2 ^ 64 ->
  (exists i pool', mem_alloc_page pool n aligned = Ok (base pool + i * PAGE_SIZE, pool') /\
     pool_wf pool' /\ allocated pool pool' i n /\ free pool' = free pool - n /\
     (aligned = true -> (base pool / PAGE_SIZE + i) mod n = 0)) \/
  (mem_alloc_page pool n aligned = Halt HError /\
     (aligned = false -> forall j, 0 <= j -> j + n <= nr_pages pool -> ~ fits pool n j)).
Proof.
  intros Hwf Hn. unfold mem_alloc_page.
  destruct (mem_alloc_ppages_spec pool n aligned Hwf Hn) as [(i & p' & -> & H)|[-> H]];
    [left|right]; [exists i, p'|]; done.
Qed.

(** ** Clients of the pool

    The callers of the allocator taken together: they allocate, and give back
    blocks they were handed and still hold. *)
Module Client.

Record heap := Heap { pool : page_pool; live : list (Z * Z) }.

Inductive step : heap -> heap -> Prop :=
| step_alloc h n al p pool' :
    1 <= n < 2 ^ 64 -> mem_alloc_page (pool h) n al = Ok (p, pool') ->
    step h (Heap pool' ((p, n) :: live h))
| step_free h l1 p n l2 pool' :
    live h = l1 ++ (p, n) :: l2 -> mem_free_page (pool h) p n = Ok (true, pool') ->
    step h (Heap pool' (l1 ++ l2)).

Definition init (pool0 : page_pool) : heap := Heap pool0 [].
Definition reachable (pool0 : page_pool) : heap -> Prop := rtc step (init pool0).

(** Byte address [a] lies in block [b]. *)
Definition in_block (a : Z) (b : Z * Z) : Prop := b.1 <= a < b.1 + b.2 * PAGE_SIZE.

(** The block is whole pages of the pool. *)
Definition block_ok (p0 : page_pool) (b : Z * Z) : Prop :=
  exists i, b.1 = base p0 + i * PAGE_SIZE /\ 0 <= i /\ 1 <= b.2 /\ i + b.2 < nr_pages p0.

Definition covers (p0 : page_pool) (j : Z) (b : Z * Z) : bool :=
  (base p0 + j * PAGE_SIZE <? b.1 + b.2 * PAGE_SIZE) && (b.1 <=? base p0 + j * PAGE_SIZE).

(** How many live blocks page [j] is in. *)
Definition cover (p0 : page_pool) (j : Z) (l : list (Z * Z)) : Z :=
  Z.of_nat (length (filter (fun b => covers p0 j b = true) l)).

Definition total (l : list (Z * Z)) : Z := foldr (fun b => Z.add b.2) 0 l.

(** Every page that was free at the start is either free or in exactly one
    live block; the others are never touched. *)
Record heap_inv (p0 : page_pool) (h : heap) : Prop := {
  inv_wf : pool_wf (pool h);
  inv_base : base (pool h) = base p0;
  inv_nr : nr_pages (pool h) = nr_pages p0;
  inv_blocks : Forall (block_ok p0) (live h);
  inv_cover : forall j, 0 <= j ->
    Z.b2z (page_free p0 j) = Z.b2z (page_free (pool h) j) + cover p0 j (live h);
  inv_free : free p0 = free (pool h) + total (live h);
}.

Lemma cover_app p0 j l1 l2 : cover p0 j (l1 ++ l2) = cover p0 j l1 + cover p0 j l2.
Proof. unfold cover. rewrite filter_app, length_app. lia. Qed.

Lemma cover_cons p0 j b l :
  cover p0 j (b :: l) = Z.b2z (covers p0 j b) + cover p0 j l.
Proof. unfold cover. rewrite filter_cons. destruct (covers p0 j b); simpl; lia. Qed.

Lemma total_app l1 l2 : total (l1 ++ l2) = total l1 + total l2.
Proof. induction l1 as [|b l1 IH]; simpl; [done|]. unfold total in *. lia. Qed.

Lemma covers_block p0 i n j :
  covers p0 j (base p0 + i * PAGE_SIZE, n) = (i <=? j) && (j <? i + n).
Proof. unfold covers, PAGE_SIZE. simpl. repeat zcase. Qed.

Lemma cover_nonneg p0 j l : 0 <= cover p0 j l.
Proof. unfold cover. lia. Qed.

Section inv.
Context (p0 : page_pool) (Hp0 : pool_wf p0) (Hbase : 0 < base p0).

Lemma inv_alloc h n al p pool' :
  heap_inv p0 h -> 1 <= n < 2 ^ 64 -> mem_alloc_page (pool h) n al = Ok (p, pool') ->
  heap_inv p0 (Heap pool' ((p, n) :: live h)).
Proof using Type.
  intros [Hwf Hb Hnr Hbl Hc Hf] Hn E.
  destruct (mem_alloc_page_spec _ n al Hwf Hn) as
    [(i & p' & E' & Hwf' & (Hi & Hle & Hb' & Hnr' & Hav & Hfr) & Hfree & _)|(E' & _)];
    rewrite E' in E; [|done].
  injection E as <- <-. rewrite Hb in *. split; simpl; try congruence.
  - constructor; [|done]. exists i. simpl. lia.
  - intros j Hj. rewrite Hc, Hfr, cover_cons, covers_block by done.
    specialize (Hav j).
    destruct (Z.leb_spec i j), (Z.ltb_spec j (i + n)); simpl; try lia.
    rewrite Hav by lia. simpl. lia.
  - fold (total (live h)). lia.
Qed.

(** A live block is in use, so it can be given back. *)
Lemma live_free_Ok h l1 p n l2 :
  heap_inv p0 h -> live h = l1 ++ (p, n) :: l2 ->
  exists pool', mem_free_page (pool h) p n = Ok (true, pool') /\
    heap_inv p0 (Heap pool' (l1 ++ l2)).
Proof using Hbase.
  intros [Hwf Hb Hnr Hbl Hc Hf] Hl. rewrite Hl in *.
  apply Forall_app in Hbl as [Hb1 Hb2]. apply Forall_cons in Hb2 as [(i & Ep & Hi & Hn & Hle) Hb2].
  simpl in *. subst p.
  assert (Hused : forall j, i <= j < i + n -> page_free (pool h) j = false).
  { intros j Hj. specialize (Hc j ltac:(lia)).
    rewrite cover_app, cover_cons, covers_block, in_interval_true in Hc by lia.
    pose proof (cover_nonneg p0 j l1). pose proof (cover_nonneg p0 j l2).
    destruct (page_free p0 j), (page_free (pool h) j); simpl in Hc; done || lia. }
  destruct (mem_free_page_spec (pool h) i n) as (pool' & E & Hwf' & (Hb' & Hnr' & Hr) & Hfree);
    [done|lia..|exact Hused|].
  rewrite Hb in E. exists pool'. split; [done|]. split; simpl; try congruence.
  - by apply Forall_app.
  - intros j Hj. specialize (Hc j Hj). specialize (Hused j).
    rewrite cover_app, cover_cons, covers_block in Hc. rewrite cover_app, Hc, Hr by lia.
    destruct (Z.leb_spec i j), (Z.ltb_spec j (i + n)); simpl; try lia.
    rewrite Hused by lia. simpl. lia.
  - rewrite Hf, !total_app, Hfree. simpl. fold (total l2). lia.
Qed.

Lemma reachable_inv h : reachable p0 h -> heap_inv p0 h.
Proof using All.
  revert h. apply rtc_ind_r.
  - split; simpl; try done; [|lia]. intros j Hj. unfold cover. simpl. lia.
  - intros h h' _ Hst IH. destruct Hst as [h n al p pool' Hn E|h l1 p n l2 pool' Hl E].
    + by apply (inv_alloc h n al).
    + destruct (live_free_Ok h l1 p n l2 IH Hl) as (pool2 & E2 & Hinv).
      rewrite E2 in E. by injection E as <-.
Qed.

(** Two live blocks that share a byte are the same block. *)
Lemma live_disjoint h k1 k2 b1 b2 a :
  heap_inv p0 h -> live h !! k1 = Some b1 -> live h !! k2 = Some b2 ->
  in_block a b1 -> in_block a b2 -> k1 = k2.
Proof using Type.
  intros Hinv. cut (forall k1 k2 b1 b2, (k1 < k2)%nat -> live h !! k1 = Some b1 ->
    live h !! k2 = Some b2 -> in_block a b1 -> in_block a b2 -> False).
  { intros Hlt H1 H2 Ha1 Ha2. destruct (lt_eq_lt_dec k1 k2) as [[?|?]|?]; [|done|];
      exfalso; eauto. }
  clear k1 k2 b1 b2. intros k1 k2 b1 b2 Hlt H1 H2 Ha1 Ha2.
  pose proof (proj1 (Forall_lookup _ _) (inv_blocks _ _ Hinv)) as Hbl.
  destruct (Hbl _ _ H1) as (i1 & E1 & Hi1 & _). destruct (Hbl _ _ H2) as (i2 & E2 & Hi2 & _).
  set (j := (a - base p0) / PAGE_SIZE).
  unfold in_block, PAGE_SIZE in *. divmod (a - base p0) 0x1000.
  assert (Hj : 0 <= j) by (subst j; apply Z.div_pos; lia).
  pose proof (inv_cover _ _ Hinv j Hj) as Hc.
  assert (H1' : take k2 (live h) !! k1 = Some b1) by (by rewrite lookup_take_lt).
  rewrite <- (take_drop_middle _ _ _ H2), <- (take_drop_middle _ _ _ H1') in Hc.
  rewrite !cover_app, !cover_cons in Hc.
  assert (Hcov : forall b, b = b1 \/ b = b2 -> covers p0 j b = true).
  { intros b [->| ->]; unfold covers, PAGE_SIZE; subst j; repeat zcase. }
  rewrite !Hcov in Hc by auto.
  pose proof (cover_nonneg p0 j (take k1 (take k2 (live h)))).
  pose proof (cover_nonneg p0 j (drop (S k1) (take k2 (live h)))).
  pose proof (cover_nonneg p0 j (drop (S k2) (live h))).
  destruct (page_free p0 j), (page_free (pool h) j); simpl in Hc; lia.
Qed.

End inv.
End Client.

(** ** Initialisation *)

(** The pages [root_pool_set_up_bitmap] reserves. *)
Definition bitmap_pages (nr : Z) : Z :=
  nr / (8 * PAGE_SIZE) + (if nr mod (8 * PAGE_SIZE) =? 0 then 0 else 1).

Lemma bitmap_pages_bounds nr :
  0 < nr <= 2 ^ 19 -> 1 <= bitmap_pages nr <= 16 /\ nr <= bitmap_pages nr * 32768.
Proof.
  intros Hnr. unfold bitmap_pages, PAGE_SIZE. change (8 * 0x1000) with 32768.
  divmod nr 32768. destruct (Z.eqb_spec (nr mod 32768) 0); lia.
Qed.

(** A region of [nr] whole pages: the bitmap takes its last pages, every other
    page is free. *)
Lemma root_pool_set_up_bitmap_spec b nr l :
  0 < b -> b mod PAGE_SIZE = 0 -> b + nr * PAGE_SIZE < 2 ^ 48 ->
  nr <= 2 ^ 19 -> bitmap_pages nr < nr -> unlocked l ->
  exists pool,
    root_pool_set_up_bitmap (b + nr * PAGE_SIZE) (PagePool b nr nr 0 [] l) = Ok (true, pool) /\
    pool_wf pool /\ base pool = b /\ nr_pages pool = nr /\ last pool = 0 /\
    free pool = nr - bitmap_pages nr /\
    (forall i, 0 <= i -> page_free pool i = (i <? nr - bitmap_pages nr) || (nr <=? i)).
Proof.
  intros Hb Hal Hlim Hnr Hgt Hl. set (k := bitmap_pages nr) in *.
  assert (Hpos : 0 < nr).
  { destruct (Z.ltb_spec 0 nr); [done|]. unfold k, bitmap_pages, PAGE_SIZE in Hgt.
    divmod nr (8 * 0x1000). destruct (Z.eqb_spec (nr mod (8 * 0x1000)) 0); lia. }
  destruct (bitmap_pages_bounds nr) as [Hk1 Hk2]; [lia|]. fold k in Hk1, Hk2.
  unfold root_pool_set_up_bitmap. cbn [nr_pages base free last lock].
  change (nr / (8 * PAGE_SIZE) + _) with k. cbn [pp_base pp_nr_pages mem_ppages_get].
  destruct (Z.leb_spec nr k); [lia|].
  assert (Hsz : u64 (k * PAGE_SIZE) = k * PAGE_SIZE) by (apply u64_small; unfold PAGE_SIZE; lia).
  assert (Hbb : u64 (b + nr * PAGE_SIZE - u64 (k * PAGE_SIZE)) = b + (nr - k) * PAGE_SIZE).
  { rewrite Hsz, u64_small; unfold PAGE_SIZE in *; lia. }
  rewrite Hbb, Hsz. destruct (Z.eqb_spec (b + (nr - k) * PAGE_SIZE) 0); [unfold PAGE_SIZE in *; lia|].
  replace (b + (nr - k) * PAGE_SIZE - b) with ((nr - k) * PAGE_SIZE) by lia.
  rewrite (u64_small ((nr - k) * _)), NUM_PAGES_exact by (unfold PAGE_SIZE in *; lia).
  set (m0 := replicate _ 0).
  assert (Hnb : nbits m0 = k * 32768).
  { unfold nbits, m0, PAGE_SIZE. rewrite length_replicate.
    replace (k * 0x1000) with (k * 1024 * 4) by lia. rewrite Z.div_mul by lia. lia. }
  assert (Hwf0 : bitmap_wf m0).
  { apply bitmap_wf_replicate. unfold nbits, m0 in Hnb. rewrite length_replicate in Hnb. lia. }
  destruct (bitmap_set_consecutive_spec m0 (nr - k) k) as (map' & -> & Hwf' & Hnb' & Hbit);
    [done|lia..|]. mstep. eexists; split; [done|].
  assert (Hpf : forall p, bitmap p = map' -> forall i, 0 <= i ->
    page_free p i = (i <? nr - k) || (nr <=? i)).
  { intros p Ep i Hi. unfold page_free. rewrite Ep, Hbit by done.
    unfold m0. rewrite bit_replicate. repeat zcase. }
  cbn [base nr_pages last free]. rewrite u64_small by lia.
  split_and!; try done; [|by apply Hpf]. split; [|done]. split; simpl; try done; try lia.
  - rewrite Hbit by lia. unfold m0. rewrite bit_replicate. repeat zcase.
  - match goal with |- _ = zcount ?f _ _ =>
      pose proof (zcount_app f 0 (nr - k) k ltac:(lia) ltac:(lia)) as Hz end.
    replace (nr - k + k) with nr in Hz by lia. rewrite Hz, zcount_all, zcount_none; [lia|..|lia|];
      intros i Hi; rewrite Hpf by (done || lia); repeat zcase.
Qed.

(** Sizes of the two allocations of [shared_memory_init]. *)
Lemma shared_pages :
  NUM_PAGES sizeof_shared_memory_device = 1 /\ NUM_PAGES SHARED_MEM_SIZE = 4096.
Proof. done. Qed.

(** The descriptor and the shared buffer after initialisation. *)
Definition shared_ready (ms : memsys) : Prop :=
  let p := shared_mem ms in
  let pa := load64 (ram ms) (p + 8) in
  load64 (ram ms) p = SHARED_MEM_BASE /\ load64 (ram ms) (p + 16) = SHARED_MEM_SIZE /\
  (p + PAGE_SIZE <= pa \/ pa + SHARED_MEM_SIZE <= p) /\
  (forall k c, ciallo !! k = Some c -> load8 (ram ms) (pa + Z.of_nat k) = c).

(** Allocation of [n] pages succeeds when [n] free pages start at [j]. *)
Lemma mem_alloc_page_fits pool n j :
  pool_wf pool -> 1 <= n < 2 ^ 64 -> 0 <= j -> j + n <= nr_pages pool ->
  (forall i, j <= i < j + n -> page_free pool i = true) ->
  exists i pool', mem_alloc_page pool n false = Ok (base pool + i * PAGE_SIZE, pool') /\
    pool_wf pool' /\ allocated pool pool' i n /\ free pool' = free pool - n.
Proof.
  intros Hwf Hn Hj Hle Hf.
  destruct (mem_alloc_page_spec pool n false Hwf Hn) as [(i & p' & H)|[_ H]].
  - exists i, p'. naive_solver.
  - exfalso. apply (H eq_refl j Hj Hle). intros i Hi. apply negb_true_iff, Hf. lia.
Qed.

Lemma shared_writes m p pa :
  0 <= pa < 2 ^ 64 -> p + PAGE_SIZE <= pa \/ pa + SHARED_MEM_SIZE <= p ->
  shared_ready (MemSys (PagePool 0 0 0 0 [] SPINLOCK_INITVAL) p (store_bytes
    (store64 (store64 (store64 m p SHARED_MEM_BASE) (p + 16) SHARED_MEM_SIZE) (p + 8) pa)
    pa ciallo)).
Proof.
  intros Hpa Hsep. set (m1 := store64 _ (p + 8) pa). unfold shared_ready; cbn [ram shared_mem].
  assert (Hld : forall b, p <= b <= p + 16 -> load64 (store_bytes m1 pa ciallo) b = load64 m1 b).
  { intros b Hb. apply load_store_bytes_ne. unfold PAGE_SIZE, SHARED_MEM_SIZE in *. simpl. lia. }
  rewrite !Hld by lia. unfold m1. rewrite load64_store64 by done. split_and!; [..|done|].
  - rewrite !load64_store64_ne by lia. by rewrite load64_store64.
  - rewrite load64_store64_ne by lia. by rewrite load64_store64.
  - intros k c Hk. rewrite (load8_store_bytes _ _ _ _ _ Hk).
    do 8 (destruct k as [|k]; [by injection Hk as <-|]). done.
Qed.

Lemma shared_memory_init_spec pool q m :
  pool_wf pool -> 0 < base pool -> 8193 < nr_pages pool ->
  (forall i, 0 <= i < 8193 -> page_free pool i = true) ->
  exists ms, shared_memory_init (MemSys pool q m) = Ok ms /\
    pool_wf (root_page_pool ms) /\ base (root_page_pool ms) = base pool /\
    nr_pages (root_page_pool ms) = nr_pages pool /\
    free (root_page_pool ms) = free pool - 4097 /\ shared_ready ms.
Proof.
  intros Hwf Hb Hnr Hfree. unfold shared_memory_init. cbn [root_page_pool ram].
  destruct shared_pages as [-> Hsp].
  destruct (mem_alloc_page_fits pool 1 0) as (i & p1 & -> & Hwf1 & Ha1 & Hf1);
    [done|lia..|intros; apply Hfree; lia|]. mstep.
  destruct Ha1 as (Hi & Hi2 & Hb1 & Hnr1 & _ & Hpf1).
  set (p := base pool + i * PAGE_SIZE). set (m1 := store64 m p SHARED_MEM_BASE).
  unfold m1 at 2.
  rewrite load64_store64 by done. rewrite Hsp.
  destruct (mem_alloc_page_fits p1 4096 (if i <? 4096 then i + 1 else 0))
    as (k & p2 & -> & Hwf2 & Ha2 & Hf2); [done|lia|repeat zcase..| |].
  { intros j Hj. destruct (Z.ltb_spec i 4096); rewrite Hpf1, Hfree by lia; repeat zcase. }
  mstep. destruct Ha2 as (Hk & Hk2 & Hb2 & Hnr2 & Hav2 & _).
  rewrite Hb1. set (pa := base pool + k * PAGE_SIZE).
  pose proof (wf_limit _ (proj1 Hwf)). pose proof (wf_nr _ (proj1 Hwf)).
  rewrite Hnr1 in *. unfold PAGE_SIZE in *.
  assert (Hsep : i < k \/ k + 4096 <= i).
  { destruct (Z.ltb_spec i k), (Z.leb_spec (k + 4096) i); auto.
    specialize (Hav2 i ltac:(lia)). rewrite Hpf1 in Hav2 by lia. repeat zcase. }
  rewrite load64_store64 by lia. destruct (Z.eqb_spec pa 0); [lia|].
  eexists; split; [done|]. cbn [root_page_pool]. split_and!; [done|congruence|congruence|lia|].
  apply (shared_writes m p pa); unfold PAGE_SIZE, SHARED_MEM_SIZE; lia.
Qed.

Lemma mem_init_spec b nr m :
  0 < b -> b mod PAGE_SIZE = 0 -> b + nr * PAGE_SIZE < 2 ^ 48 -> 8209 < nr <= 2 ^ 19 ->
  exists ms, mem_init b (b + nr * PAGE_SIZE) m = Ok ms /\
    pool_wf (root_page_pool ms) /\ base (root_page_pool ms) = b /\
    nr_pages (root_page_pool ms) = nr /\
    free (root_page_pool ms) = nr - bitmap_pages nr - 4097 /\ shared_ready ms.
Proof.
  intros Hb Hal Hlim Hnr. unfold mem_init. cbn [mr_base mr_size mr_pool last bitmap lock].
  destruct (bitmap_pages_bounds nr) as [Hk _]; [lia|].
  replace (b + nr * PAGE_SIZE - b) with (nr * PAGE_SIZE) by lia.
  rewrite u64_small, Z.div_mul by (unfold PAGE_SIZE in *; lia).
  rewrite ALIGN_page by (unfold PAGE_SIZE in *; done || lia).
  destruct (root_pool_set_up_bitmap_spec b nr SPINLOCK_INITVAL)
    as (pool & -> & Hwf & <- & <- & _ & Hf & Hpf); [done|done|done|lia|lia|done|]. mstep.
  destruct (shared_memory_init_spec pool 0 m) as (ms & -> & ?); [done|done|lia| |].
  { intros i Hi. rewrite Hpf by lia. repeat zcase. }
  exists ms. naive_solver lia.
Qed.

(** ** What the pool promises its clients *)

(** A page allocator, as the page-table and snapshot code uses it: it hands out
    page-aligned blocks of bytes it owned, and keeps the rest. *)
Class PageAllocator (P : Type) := {
  pa_alloc : P -> Z -> bool -> outcome (ppages * P);
  pa_inv : P -> Prop;
  pa_owns : P -> Z -> Prop;
  pa_alloc_Ok p n al pp p' :
    pa_inv p -> 1 <= n < 2 ^ 64 -> pa_alloc p n al = Ok (pp, p') ->
    pa_inv p' /\ pp_nr_pages pp = n /\ 0 < pp_base pp /\ pp_base pp mod PAGE_SIZE = 0 /\
    pp_base pp + n * PAGE_SIZE < 2 ^ 48 /\
    forall a, (pp_base pp <= a < pp_base pp + n * PAGE_SIZE -> pa_owns p a) /\
      (pa_owns p' a <-> pa_owns p a /\ ~ (pp_base pp <= a < pp_base pp + n * PAGE_SIZE));
  pa_alloc_halt p n al h :
    pa_inv p -> 1 <= n < 2 ^ 64 -> pa_alloc p n al = Halt h -> h = HError;
}.

(** The byte at [a] is in a free page of the pool. *)
Definition byte_free (pool : page_pool) (a : Z) : Prop :=
  base pool <= a < base pool + nr_pages pool * PAGE_SIZE /\
  page_free pool ((a - base pool) / PAGE_SIZE) = true.

Lemma allocated_bytes pool pool' i n a :
  allocated pool pool' i n -> 1 <= n ->
  let b := base pool + i * PAGE_SIZE in
  (b <= a < b + n * PAGE_SIZE -> byte_free pool a) /\
  (byte_free pool' a <-> byte_free pool a /\ ~ (b <= a < b + n * PAGE_SIZE)).
Proof.
  intros (Hi & Hle & Hb & Hnr & Hav & Hf) Hn b. unfold byte_free. rewrite Hb, Hnr.
  unfold b, PAGE_SIZE. divmod (a - base pool) 0x1000.
  set (j := (a - base pool) / 0x1000) in *. split.
  - intros Ha. split; [lia|]. apply Hav. lia.
  - split.
    + intros [Ha Hp]. rewrite Hf in Hp by lia. apply andb_prop in Hp as [Hp1 Hp2].
      repeat zcase; split; done || lia.
    + intros [[Ha Hp] Hno]. split; [done|]. rewrite Hf, Hp by lia. repeat zcase.
Qed.

#[export] Instance root_pool_allocator : PageAllocator page_pool.
Proof.
  refine {| pa_alloc := mem_alloc_ppages; pa_inv p := pool_wf p /\ 0 < base p;
            pa_owns := byte_free |}.
  - intros p n al pp p' [Hwf Hb0] Hn E. destruct (mem_alloc_ppages_spec p n al Hwf Hn)
      as [(i & p2 & E2 & Hwf2 & Ha & _)|[E2 _]]; rewrite E2 in E; [|done].
    injection E as <- <-. pose proof Ha as (Hi & Hle & Hb' & _).
    pose proof (wf_base _ (proj1 Hwf)) as [Hb Hal]. pose proof (wf_limit _ (proj1 Hwf)).
    split; [split; [done|congruence]|]. cbn [pp_base pp_nr_pages].
    split_and!; unfold PAGE_SIZE in *; try lia.
    + by rewrite Z.mod_add by lia.
    + intros a. apply (allocated_bytes p p2 i n a Ha). lia.
  - intros p n al h [Hwf _] Hn E. destruct (mem_alloc_ppages_spec p n al Hwf Hn)
      as [(i & p2 & E2 & _)|[E2 _]]; rewrite E2 in E; congruence.
Defined.

(** ** The properties *)

(** A pool of 64 pages whose last page is reserved. *)
Definition demo_pool : page_pool :=
  PagePool 0x50010000 64 63 0 [0; 0x80000000] SPINLOCK_INITVAL.

Lemma demo_pool_wf : pool_wf demo_pool.
Proof.
  split; [|done]. split; try done; try (simpl; lia).
  split; [|done]. repeat constructor; lia.
Qed.

(** C7: [pp_alloc] on a well-formed pool always returns, leaves the pool
    well-formed, and its result is right on every branch: on success the output
    argument is a run of [n] pages that were all free, now all used and nothing
    else changed, aligned to its own size when that was asked for; on failure
    the pool is unchanged and, for an unaligned request, no [n] consecutive free
    pages exist. *)
Theorem pp_alloc_correct pool n aligned out :
  pool_wf pool -> 1 <= n < 2 ^ 64 ->
  exists ok pool' out', pp_alloc pool n aligned out = Ok (ok, pool', out') /\
    pool_wf pool' /\ alloc_result pool n aligned out ok pool' out'.
Proof. apply pp_alloc_spec. Qed.

Lemma pp_alloc_correct_witness :
  exists ok pool' out', pp_alloc demo_pool 4 true (Ppages 0 0) = Ok (ok, pool', out') /\
    pool_wf pool' /\ alloc_result demo_pool 4 true (Ppages 0 0) ok pool' out'.
Proof. apply (pp_alloc_correct demo_pool 4 true (Ppages 0 0)); [apply demo_pool_wf|lia]. Defined.

(** [mem_init] on a page-aligned region of 8210 to [2^19] pages returns: the
    root pool is well-formed with exactly the bitmap's and the shared memory's
    pages taken, and the shared-memory descriptor and its buffer, which do not
    overlap, hold what [shared_memory_init] writes. *)
Theorem mem_init_correct b nr m :
  0 < b -> b mod PAGE_SIZE = 0 -> b + nr * PAGE_SIZE < 2 ^ 48 -> 8209 < nr <= 2 ^ 19 ->
  exists ms, mem_init b (b + nr * PAGE_SIZE) m = Ok ms /\
    pool_wf (root_page_pool ms) /\ base (root_page_pool ms) = b /\
    nr_pages (root_page_pool ms) = nr /\
    mem_get_free_pages (root_page_pool ms) = nr - bitmap_pages nr - 4097 /\ shared_ready ms.
Proof. apply mem_init_spec. Qed.

Lemma mem_init_correct_witness :
  VM_SIZE = 491520 * PAGE_SIZE /\
  exists ms, mem_init VM_BASE (VM_BASE + 491520 * PAGE_SIZE) ∅ = Ok ms /\
    pool_wf (root_page_pool ms) /\ base (root_page_pool ms) = VM_BASE /\
    nr_pages (root_page_pool ms) = 491520 /\
    mem_get_free_pages (root_page_pool ms) = 491520 - bitmap_pages 491520 - 4097 /\
    shared_ready ms.
Proof. split; [done|]. apply (mem_init_correct VM_BASE 491520 ∅); done || lia. Defined.

(** The aligned search is not complete: with pages 3 to 7 free and the
    others used, pages 4 to 7 are a free aligned run, the pool is well-formed,
    and the request for four aligned pages fails.  After the misaligned hit at
    page 3 the search resumes at [3 + 3 mod 4 = 6] instead of at 4. *)
Theorem pp_alloc_aligned_incomplete :
  let pool := PagePool 0x50010000 64 5 0 [0xFFFFFF07; 0xFFFFFFFF] SPINLOCK_INITVAL in
  pool_wf pool /\ fits pool 4 4 /\ (base pool / PAGE_SIZE + 4) mod 4 = 0 /\
  exists pool' out', pp_alloc pool 4 true (Ppages 0 0) = Ok (false, pool', out').
Proof.
  intros pool. split_and!.
  - split; [|done]. split; try done; try (simpl; lia).
    split; [|done]. repeat constructor; lia.
  - intros j Hj. assert (j = 4 \/ j = 5 \/ j = 6 \/ j = 7) as [->|[->|[->| ->]]] by lia; done.
  - done.
  - by eexists _, _.
Qed.

(** [mem_free_page] does not notice pages that are already free: on a
    well-formed pool it returns true and leaves [free] above the number of free
    pages. *)
Theorem mem_free_page_double_free :
  exists pool', mem_free_page demo_pool 0x50010000 1 = Ok (true, pool') /\
    mem_get_free_pages pool' = 64 /\ zcount (page_free pool') 0 (nr_pages pool') = 63 /\
    ~ pool_wf pool'.
Proof.
  eexists. split_and!; [by vm_compute..|]. intros [H _]. apply wf_free in H. by vm_compute in H.
Qed.

(** C18: however the pool's clients allocate and give back blocks they hold, the
    pool stays well-formed, no byte is in two live blocks, every live block lies
    in the pool's region, and the free count is the initial one less the pages
    of the live blocks. *)
Theorem live_blocks_disjoint pool0 h :
  pool_wf pool0 -> 0 < base pool0 -> Client.reachable pool0 h ->
  pool_wf (Client.pool h) /\
  (forall k1 k2 b1 b2 a, Client.live h !! k1 = Some b1 -> Client.live h !! k2 = Some b2 ->
     Client.in_block a b1 -> Client.in_block a b2 -> k1 = k2) /\
  Forall (Client.block_ok pool0) (Client.live h) /\
  mem_get_free_pages pool0 =
    mem_get_free_pages (Client.pool h) + Client.total (Client.live h).
Proof.
  intros Hwf Hb Hr. pose proof (Client.reachable_inv pool0 Hwf Hb h Hr) as Hi.
  split_and!; [apply Hi| |apply Hi|apply Hi].
  intros k1 k2 b1 b2 a. by apply Client.live_disjoint with pool0.
Qed.

(** A block a client holds can always be given back: [mem_free_page] returns
    true, and when the last block has been given back exactly the pages that
    were free at the start are free. *)
Theorem live_block_released pool0 h l1 p n l2 :
  pool_wf pool0 -> 0 < base pool0 -> Client.reachable pool0 h ->
  Client.live h = l1 ++ (p, n) :: l2 ->
  exists pool', mem_free_page (Client.pool h) p n = Ok (true, pool') /\
    pool_wf pool' /\
    (l1 ++ l2 = [] -> forall j, 0 <= j -> page_free pool' j = page_free pool0 j).
Proof.
  intros Hwf Hb Hr Hl. pose proof (Client.reachable_inv pool0 Hwf Hb h Hr) as Hi.
  destruct (Client.live_free_Ok pool0 Hb h l1 p n l2 Hi Hl) as (pool' & E & Hi').
  exists pool'. split; [done|]. split; [apply Hi'|]. intros Hnil j Hj.
  pose proof (Client.inv_cover _ _ Hi' j Hj) as Hc. simpl in Hc. rewrite Hnil in Hc.
  unfold Client.cover in Hc. simpl in Hc. by destruct (page_free pool' j), (page_free pool0 j).
Qed.

(** Two allocations from [demo_pool]. *)
Definition demo_heap : Client.heap :=
  Client.Heap (PagePool 0x50010000 64 57 6 [0x3F; 0x80000000] (Spinlock 2 2))
    [(0x50014000, 2); (0x50010000, 4)].

Lemma demo_heap_reachable : Client.reachable demo_pool demo_heap.
Proof.
  eapply rtc_l; [by apply (Client.step_alloc (Client.init demo_pool) 4 true); [lia|vm_compute]|].
  eapply rtc_l; [|apply rtc_refl].
  by apply (Client.step_alloc (Client.Heap _ [(0x50010000, 4)]) 2 false); [lia|vm_compute].
Qed.

Lemma live_blocks_disjoint_witness :
  (forall k1 k2 b1 b2 a, Client.live demo_heap !! k1 = Some b1 ->
     Client.live demo_heap !! k2 = Some b2 ->
     Client.in_block a b1 -> Client.in_block a b2 -> k1 = k2) /\
  mem_get_free_pages (Client.pool demo_heap) = 63 - 6.
Proof.
  pose proof (live_blocks_disjoint demo_pool demo_heap demo_pool_wf eq_refl
    demo_heap_reachable) as (_ & H & _).
  split; [exact H|done].
Defined.

Lemma live_block_released_witness :
  exists pool', mem_free_page (Client.pool demo_heap) 0x50014000 2 = Ok (true, pool') /\
    pool_wf pool'.
Proof.
  destruct (live_block_released demo_pool demo_heap [] 0x50014000 2 [(0x50010000, 4)]
    demo_pool_wf eq_refl demo_heap_reachable eq_refl) as (pool' & E & Hwf & _).
  exists pool'. split; assumption.
Defined.
