(* ===== verification/Objpool.v ===== *)
(** Fixed-size object pools: [core/objpool.c] and [core/inc/objpool.h].

    A pool is an array of [num] objects of [objsize] bytes at address [pool]
    and a bitmap of the objects in use.  The cross-CPU messages of [core/cpu.c]
    come from such a pool. *)

From S2P Require Import Prelude Bit Bitmap Spinlock PhysMem.

Record objpool := ObjPool {
  pool : Z;
  obj_bitmap : bitmap_t;
  objsize : Z;
  num : Z;
  count : Z;
  obj_lock : spinlock_t;
}.

Definition OBJPOOL_ALLOC (addr size n : Z) : objpool :=
  ObjPool addr (replicate (Z.to_nat (BITMAP_SIZE n)) 0) size n 0 SPINLOCK_INITVAL.

Definition set_bitmap (op : objpool) (map : bitmap_t) (l : spinlock_t) : objpool :=
  ObjPool (pool op) map (objsize op) (num op) (count op) l.

(** [memset(map, 0, k)]: the first [k] bytes of an array of 32-bit words. *)
Definition clear_bytes (map : bitmap_t) (k : Z) : bitmap_t :=
  imap (fun i w => w / 2 ^ (8 * min 4 (max 0 (k - 4 * Z.of_nat i)))
                     * 2 ^ (8 * min 4 (max 0 (k - 4 * Z.of_nat i)))) map.

(** [BITMAP_SIZE] counts granules, [memset] takes bytes. *)
Definition objpool_init (m : mem) (op : objpool) : outcome (mem * objpool) :=
  m ← memset m (pool op) 0 (u64 (objsize op * num op));
  Ok (m, set_bitmap op (clear_bytes (obj_bitmap op) (BITMAP_SIZE (num op))) (obj_lock op)).

(** A [size_t] converted to [ssize_t]. *)
Definition s64 (x : Z) : Z := if u64 x <? 2 ^ 63 then u64 x else u64 x - 2 ^ 64.

Definition objpool_alloc (op : objpool) : outcome (Z * objpool) :=
  l ← spin_lock (obj_lock op);
  r ← bitmap_find_nth (obj_bitmap op) (num op) 1 0 false;
  let n := s64 r in
  if 0 <=? n then
    map ← bitmap_set (obj_bitmap op) n;
    Ok (u64 (pool op + u64 (objsize op * n)), set_bitmap op map (spin_unlock l))
  else Ok (0, set_bitmap op (obj_bitmap op) (spin_unlock l)).

(** A stray object only prints a warning. *)
Definition objpool_free (op : objpool) (obj : Z) : outcome objpool :=
  let off := u64 (obj - pool op) in
  let in_pool := in_range obj (pool op) (u64 (objsize op * num op)) in
  let aligned := IS_ALIGNED off (objsize op) in
  if in_pool && aligned then
    let n := off / objsize op in
    l ← spin_lock (obj_lock op);
    map ← bitmap_clear (obj_bitmap op) n;
    Ok (set_bitmap op map (spin_unlock l))
  else Ok op.

(** ** Correctness *)

Record objpool_wf (op : objpool) : Prop := {
  op_bitmap : bitmap_wf (obj_bitmap op);
  op_num : 0 < num op <= nbits (obj_bitmap op);
  op_size : 0 < objsize op;
  op_base : 0 < pool op;
  op_limit : pool op + objsize op * num op < 2 ^ 64;
  op_lock : unlocked (obj_lock op);
}.

(** Object [i] and whether it is in use. *)
Definition obj (op : objpool) (i : Z) : Z := pool op + objsize op * i.
Definition in_use (op : objpool) (i : Z) : bool := bit (obj_bitmap op) i.

(** The same pool with object [i] in state [b]. *)
Definition updated (op op' : objpool) (i : Z) (b : bool) : Prop :=
  objpool_wf op' /\ pool op' = pool op /\ objsize op' = objsize op /\ num op' = num op /\
  forall j, 0 <= j -> in_use op' j = if i =? j then b else in_use op j.

Lemma obj_range op i :
  objpool_wf op -> 0 <= i < num op -> 0 < obj op i < 2 ^ 64 /\ 0 <= objsize op * i < 2 ^ 64.
Proof.
  intros [_ Hn Hs Hb Hl _] Hi. unfold obj.
  assert (0 <= objsize op * i <= objsize op * num op) by nia. lia.
Qed.

Lemma objpool_alloc_spec op :
  objpool_wf op ->
  (exists i op', objpool_alloc op = Ok (obj op i, op') /\ 0 <= i < num op /\
     in_use op i = false /\ (forall j, 0 <= j < i -> in_use op j = true) /\
     updated op op' i true) \/
  (exists op', objpool_alloc op = Ok (0, op') /\
     (forall j, 0 <= j < num op -> in_use op j = true) /\
     objpool_wf op' /\ obj_bitmap op' = obj_bitmap op).
Proof.
  intros Hwf. pose proof Hwf as [Hbm Hn Hs Hb Hl Hlk]. pose proof (proj2 Hbm).
  unfold objpool_alloc. destruct (spin_lock_unlock _ Hlk) as (l & -> & Hul & _). mstep.
  destruct (bitmap_find_first_spec (obj_bitmap op) (num op) 0 false) as (r & -> & Hr); [lia..|].
  mstep. destruct Hr as [(Hr & Hbit & Hrun)|(-> & Hrun)].
  - left. destruct (obj_range op r Hwf Hr) as [Ho1 Ho2].
    unfold s64. rewrite u64_small by lia. destruct (Z.ltb_spec r (2 ^ 63)); [|lia].
    destruct (Z.leb_spec 0 r); [|lia].
    destruct (bitmap_set_spec (obj_bitmap op) r Hbm) as (map' & -> & Hwf' & Hnb & Hb'); [lia|].
    mstep. rewrite (u64_small (objsize op * r)), u64_small by (unfold obj in *; lia).
    eexists r, _. split; [done|]. split; [lia|]. split; [done|]. split.
    { intros j Hj. apply (Hrun j). lia. }
    split; [split; simpl; try done; lia|]. split_and!; [done..|].
    intros j Hj. unfold in_use. simpl. rewrite Hb' by done. by destruct (r =? j).
  - right. change (s64 SIZE_MAX) with (-1). simpl. eexists; split; [done|]. split.
    { intros j Hj. apply (Hrun j). lia. }
    split; [split; done|done].
Qed.

Lemma objpool_free_spec op i :
  objpool_wf op -> 0 <= i < num op ->
  exists op', objpool_free op (obj op i) = Ok op' /\ updated op op' i false.
Proof.
  intros Hwf Hi. pose proof Hwf as [Hbm Hn Hs Hb Hl Hlk].
  destruct (obj_range op i Hwf Hi) as [Ho1 Ho2]. unfold objpool_free.
  replace (obj op i - pool op) with (i * objsize op) by (unfold obj; lia).
  rewrite (u64_small (i * objsize op)), (u64_small (objsize op * num op)) by nia.
  assert (in_range (obj op i) (pool op) (objsize op * num op) = true) as ->.
  { apply in_range_spec; unfold obj in *; nia. }
  unfold IS_ALIGNED. rewrite Z.mod_mul, Z.div_mul by lia. simpl.
  destruct (spin_lock_unlock _ Hlk) as (l & -> & Hul & _). mstep.
  destruct (bitmap_clear_spec (obj_bitmap op) i Hbm) as (map' & -> & Hwf' & Hnb & Hb'); [lia|].
  mstep. eexists; split; [done|]. split; [split; simpl; try done; lia|]. split_and!; [done..|].
  intros j Hj. unfold in_use. simpl. rewrite Hb' by done. by destruct (i =? j).
Qed.

(** ** The properties *)

(** C30: [objpool_alloc] returns the first object that is not in use and marks it,
    touching no other, or NULL exactly when every object is in use; an object it
    returned can be given back with [objpool_free], which restores the pool's
    state; two distinct objects share no byte. *)
Theorem objpool_alloc_free op :
  objpool_wf op ->
  (exists i op', objpool_alloc op = Ok (obj op i, op') /\ 0 <= i < num op /\
     in_use op i = false /\ (forall j, 0 <= j < i -> in_use op j = true) /\
     updated op op' i true /\
     (forall j, 0 <= j -> i <> j ->
        obj op i + objsize op <= obj op j \/ obj op j + objsize op <= obj op i) /\
     exists op'', objpool_free op' (obj op i) = Ok op'' /\
       forall j, 0 <= j -> in_use op'' j = in_use op j) \/
  (exists op', objpool_alloc op = Ok (0, op') /\
     (forall j, 0 <= j < num op -> in_use op j = true) /\
     objpool_wf op' /\ obj_bitmap op' = obj_bitmap op).
Proof.
  intros Hwf. destruct (objpool_alloc_spec op Hwf) as [(i & op' & E & Hi & Hu & Hf & Hup)|H];
    [left|by right].
  exists i, op'. split_and!; try done; try lia.
  - intros j Hj Hne. pose proof (op_size _ Hwf). unfold obj.
    destruct (Z.ltb_spec i j); [left|right]; nia.
  - destruct Hup as (Hwf' & Hp & Hs & Hn & Hj).
    destruct (objpool_free_spec op' i Hwf' ltac:(lia)) as (op'' & E' & _ & _ & _ & _ & Hj').
    unfold obj in *. rewrite Hp, Hs in E'. exists op''. split; [done|].
    intros j Hnn. rewrite Hj', Hj by done. destruct (Z.eqb_spec i j) as [<-|]; done.
Qed.

Lemma objpool_alloc_free_witness :
  exists i op', objpool_alloc (OBJPOOL_ALLOC 0x40000000 40 128) =
    Ok (obj (OBJPOOL_ALLOC 0x40000000 40 128) i, op').
Proof.
  destruct (objpool_alloc_free (OBJPOOL_ALLOC 0x40000000 40 128)) as [(i & op' & E & _)|(op' & E & _)].
  - split; try done. by apply bitmap_wf_replicate.
  - exists i, op'. exact E.
  - vm_compute in E. discriminate.
Defined.

(** The range test of [objpool_free] accepts the address one past the last
    object: in a pool of 128 objects it goes on to clear bit 128, outside the
    bitmap. *)
Theorem objpool_free_past_end :
  let op := OBJPOOL_ALLOC 0x40000000 40 128 in
  objpool_wf op /\ objpool_free op (obj op 128) = Halt HFault.
Proof.
  split; [|done]. split; try done. by apply bitmap_wf_replicate.
Qed.

(** [objpool_init] hands [memset] the number of granules where it needs
    bytes: a pool of 128 objects that are all in use has 96 of them still in
    use after it. *)
Theorem objpool_init_partial :
  let op := ObjPool 0x40000000 (replicate 4 (2 ^ 32 - 1)) 1 128 0 SPINLOCK_INITVAL in
  exists m op', objpool_init ∅ op = Ok (m, op') /\
    bitmap_count (obj_bitmap op') 0 128 true = Ok 96.
Proof.
  intros op. unfold objpool_init.
  destruct (memset_spec ∅ (pool op) 0 (u64 (objsize op * num op))) as (m & -> & _); [done|].
  mstep. eexists _, _. split; [done|]. by vm_compute.
Qed.
