(* ===== verification/PageTable.v ===== *)
(** Page tables: [core/inc/page_table.h], [arch/aarch64/arch_page_table.c] and
    [arch/aarch64/inc/arch_page_table.h].

    A page table is a tree of 4 KiB tables in RAM, four levels deep.  The
    entry accessors and the walk [pt_get_pte] are translated; [translate] is the
    reference they are compared with, the walk the MMU makes. *)

From S2P Require Import Prelude Bit PhysMem.

(** ** Descriptors *)

Record page_table_dscr := PtDscr {
  lvls : Z;
  lvl_off : list Z;
  lvl_wdt : list Z;
  lvl_term : list bool;
}.

Record page_table := PageTable { root : Z; dscr : page_table_dscr }.

Definition armv8_pt_dscr : page_table_dscr :=
  PtDscr 4 [39; 30; 21; 12] [48; 39; 30; 21] [false; true; true; true].

Definition armv8_pt_s2_dscr : page_table_dscr :=
  PtDscr 4 [39; 30; 21; 12] [48; 39; 30; 21] [false; true; true; true].

Definition parange_table : list Z := [32; 36; 40; 42; 44; 48].

(** The level is an array index: outside the descriptor it faults. *)
Definition pt_nentries (pt : page_table) (lvl : Z) : outcome Z :=
  wdt ← rd (lvl_wdt (dscr pt)) lvl;
  off ← rd (lvl_off (dscr pt)) lvl;
  Ok (Z.shiftr (lsl64 1 wdt) off).

Definition pt_lvlsize (pt : page_table) (lvl : Z) : outcome Z :=
  off ← rd (lvl_off (dscr pt)) lvl;
  Ok (lsl64 1 off).

Definition sizeof_pte : Z := 8.

Definition pt_size (pt : page_table) (lvl : Z) : outcome Z :=
  n ← pt_nentries pt lvl;
  Ok (u64 (n * sizeof_pte)).

Definition pt_getpteindex (pt : page_table) (pte lvl : Z) : outcome Z :=
  sz ← pt_size pt lvl;
  Ok (Z.land pte (u64 (sz - 1)) / sizeof_pte).

Definition pt_getpteindex_by_va (pt : page_table) (va lvl : Z) : outcome Z :=
  off ← rd (lvl_off (dscr pt)) lvl;
  n ← pt_nentries pt lvl;
  Ok (Z.land (Z.shiftr va off) (u64 (n - 1))).

Definition pt_lvl_terminal (pt : page_table) (lvl : Z) : outcome bool :=
  rd (lvl_term (dscr pt)) lvl.

(** ** Entries *)

Definition ADDR_MSK (MSB LSB : Z) : Z :=
  Z.land (lsl64 1 (MSB + 1) - 1) (not64 (lsl64 1 LSB - 1)).
Definition PTE_ADDR_MSK : Z := ADDR_MSK 47 12.
Definition PTE_FLAGS_MSK : Z := not64 PTE_ADDR_MSK.

Definition PTE_TYPE_MSK : Z := 0x3.
Definition PTE_VALID : Z := 0x1.
Definition PTE_SUPERPAGE : Z := 0x1.
Definition PTE_TABLE : Z := 0x3.
Definition PTE_PAGE : Z := 0x3.
Definition PTE_INVALID : Z := 0.

Definition PTE_XN : Z := Z.shiftl 1 54.
Definition PTE_AF : Z := Z.shiftl 1 10.
Definition PTE_SH_NS : Z := Z.shiftl 0 8.
Definition PTE_SH_IS : Z := Z.shiftl 3 8.
Definition PTE_AP_RW : Z := Z.shiftl 1 6.
Definition PTE_ATTR (N : Z) : Z := Z.land (Z.shiftl N 2) (Z.shiftl 7 2).
Definition PTE_MEMATTR_DEV_GRE : Z := Z.shiftl 3 2.
Definition PTE_MEMATTR_NRML_OWBC : Z := Z.shiftl (Z.shiftl 3 2) 2.
Definition PTE_MEMATTR_NRML_IWBC : Z := Z.shiftl 3 2.
Definition PTE_S2AP_RW : Z := Z.shiftl 3 6.

Definition PTE_HYP_FLAGS : Z :=
  Z.lor (Z.lor (Z.lor (PTE_ATTR 1) PTE_AP_RW) PTE_SH_IS) PTE_AF.
Definition PTE_HYP_DEV_FLAGS : Z :=
  Z.lor (Z.lor (Z.lor (Z.lor (PTE_ATTR 2) PTE_AP_RW) PTE_SH_IS) PTE_AF) PTE_XN.
Definition PTE_VM_FLAGS : Z :=
  Z.lor (Z.lor (Z.lor (Z.lor PTE_MEMATTR_NRML_OWBC PTE_MEMATTR_NRML_IWBC) PTE_SH_NS)
    PTE_S2AP_RW) PTE_AF.
Definition PTE_VM_DEV_FLAGS : Z :=
  Z.lor (Z.lor (Z.lor PTE_MEMATTR_DEV_GRE PTE_SH_NS) PTE_S2AP_RW) PTE_AF.

Definition PTE_RSW_OFF : Z := 55.
Definition PTE_RSW_WDT : Z := 4.
Definition PTE_RSW_MSK : Z :=
  (lsl64 1 (PTE_RSW_OFF + PTE_RSW_WDT) - 1) - (lsl64 1 PTE_RSW_OFF - 1).
Definition PTE_RSW_RSRV : Z := Z.shiftl 3 PTE_RSW_OFF.

(** The value [pte_set] writes. *)
Definition pte_make (addr type flags : Z) : Z :=
  Z.lor (Z.land addr PTE_ADDR_MSK) (Z.land (Z.lor type flags) PTE_FLAGS_MSK).

Definition pte_set (m : mem) (pte addr type flags : Z) : mem :=
  store64 m pte (pte_make addr type flags).

Definition pte_valid (m : mem) (pte : Z) : bool :=
  negb (Z.land (load64 m pte) PTE_VALID =? 0).

Definition pte_set_rsw (m : mem) (pte flag : Z) : mem :=
  store64 m pte
    (Z.lor (Z.land (load64 m pte) (not64 PTE_RSW_MSK)) (Z.land flag PTE_RSW_MSK)).

Definition pte_check_rsw (m : mem) (pte flag : Z) : bool :=
  Z.land (load64 m pte) PTE_RSW_MSK =? Z.land flag PTE_RSW_MSK.

(** [pte_addr] on the entry's value. *)
Definition addr_of (e : Z) : Z := Z.land e PTE_ADDR_MSK.
Definition pte_addr (m : mem) (pte : Z) : Z := addr_of (load64 m pte).

(** ** The walk *)

(** [while(1)] of [pt_get_pte], [k] steps before the [break]; the address of an
    entry that is not a table is followed all the same. *)
Fixpoint pt_walk (m : mem) (pt : page_table) (va : Z) (k : nat) (i pte : Z) : outcome Z :=
  idx ← pt_getpteindex_by_va pt va i;
  let pte := u64 (pte + i32 idx * sizeof_pte) in
  match k with
  | O => Ok pte
  | S k' => pt_walk m pt va k' (i + 1) (pte_addr m pte)
  end.

Definition pt_get_pte (m : mem) (pt : page_table) (lvl va : Z) : outcome Z :=
  pt_walk m pt va (Z.to_nat lvl) 0 (root pt).

Definition pt_get (m : mem) (pt : page_table) (lvl va : Z) : outcome Z :=
  if lvl =? 0 then Ok (root pt) else
  pte ← pt_get_pte m pt lvl va;
  sz ← pt_size pt lvl;
  Ok (Z.land pte (not64 (u64 (sz - 1)))).

Definition pte_page (m : mem) (pt : page_table) (pte lvl : Z) : outcome bool :=
  term ← pt_lvl_terminal pt lvl;
  if negb term then Ok false else
  if negb (lvl =? u64 (lvls (dscr pt) - 1)) then
    Ok (Z.land (load64 m pte) PTE_TYPE_MSK =? PTE_SUPERPAGE)
  else Ok (Z.land (load64 m pte) PTE_TYPE_MSK =? PTE_PAGE).

Definition pte_table (m : mem) (pt : page_table) (pte lvl : Z) : bool :=
  if lvl =? u64 (lvls (dscr pt) - 1) then false
  else Z.land (load64 m pte) PTE_TYPE_MSK =? PTE_TABLE.

(** ** The walk of the MMU *)

(** A four-level table: both descriptors of the AArch64 build. *)
Definition armv8 (pt : page_table) : Prop := dscr pt = armv8_pt_s2_dscr.

(** Bits of the address an entry of level [l] does not resolve. *)
Definition shift_of (l : Z) : Z := 39 - 9 * l.

Definition idx (va l : Z) : Z := (va / 2 ^ shift_of l) mod 512.

(** The entry for [va] in the level-[l] table at [a]. *)
Definition entry (m : mem) (a va l : Z) : Z := load64 m (a + 8 * idx va l).

Definition is_table (e : Z) : bool := Z.land e 3 =? 3.
Definition is_block (e : Z) : bool := Z.land e 3 =? 1.

(** What a last entry of level [l] maps [va] to: a page at level 3, a block of
    1 GiB or 2 MiB at levels 1 and 2. *)
Definition leaf (l e va : Z) : option Z :=
  if l =? 3 then if is_table e then Some (addr_of e + va mod 2 ^ 12) else None
  else if is_block e && (0 <? l)
       then Some (addr_of e / 2 ^ shift_of l * 2 ^ shift_of l + va mod 2 ^ shift_of l)
       else None.

Fixpoint hw_walk (m : mem) (k : nat) (l a va : Z) : option Z :=
  let e := entry m a va l in
  match k with
  | O => leaf l e va
  | S k' => if is_table e then hw_walk m k' (l + 1) (addr_of e) va else leaf l e va
  end.

Definition translate (m : mem) (r va : Z) : option Z := hw_walk m 3 0 r va.

(** The level and the value of the entry the walk ends at. *)
Fixpoint leaf_walk (m : mem) (k : nat) (l a va : Z) : Z * Z :=
  let e := entry m a va l in
  match k with
  | O => (l, e)
  | S k' => if is_table e then leaf_walk m k' (l + 1) (addr_of e) va else (l, e)
  end.

Definition leaf_at (m : mem) (r va : Z) : Z * Z := leaf_walk m 3 0 r va.

(** [va] is mapped or reserved. *)
Definition rsrv (e : Z) : bool :=
  Z.land e PTE_RSW_MSK =? Z.land PTE_RSW_RSRV PTE_RSW_MSK.
Definition busy_entry (e : Z) : bool := Z.testbit e 0 || rsrv e.
Definition busy (m : mem) (r va : Z) : bool := busy_entry (leaf_at m r va).2.

(** The level-[k] table the walk of [va] reaches. *)
Fixpoint path (m : mem) (r va : Z) (k : nat) : option Z :=
  match k with
  | O => Some r
  | S k' =>
      match path m r va k' with
      | Some a => let e := entry m a va (Z.of_nat k') in
                  if is_table e then Some (addr_of e) else None
      | None => None
      end
  end.

(** ** Descriptor lemmas *)

Lemma level_cases (P : Z -> Prop) :
  P 0 -> P 1 -> P 2 -> P 3 -> forall l, 0 <= l <= 3 -> P l.
Proof.
  intros H0 H1 H2 H3 l Hl.
  assert (l = 0 \/ l = 1 \/ l = 2 \/ l = 3) as [->|[->|[->| ->]]] by lia; done.
Qed.

Section dscr.
Context (pt : page_table) (Hpt : armv8 pt).

Lemma pt_nentries_Ok l : 0 <= l <= 3 -> pt_nentries pt l = Ok 512.
Proof using Hpt. revert l. unfold pt_nentries. rewrite Hpt. by apply level_cases. Qed.

Lemma pt_lvlsize_Ok l : 0 <= l <= 3 -> pt_lvlsize pt l = Ok (2 ^ shift_of l).
Proof using Hpt. revert l. unfold pt_lvlsize. rewrite Hpt. by apply level_cases. Qed.

Lemma pt_size_Ok l : 0 <= l <= 3 -> pt_size pt l = Ok PAGE_SIZE.
Proof using Hpt. intros Hl. unfold pt_size. by rewrite pt_nentries_Ok. Qed.

Lemma pt_lvl_terminal_Ok l : 0 <= l <= 3 -> pt_lvl_terminal pt l = Ok (0 <? l).
Proof using Hpt. revert l. unfold pt_lvl_terminal. rewrite Hpt. by apply level_cases. Qed.

Lemma last_level : u64 (lvls (dscr pt) - 1) = 3.
Proof using Hpt. by rewrite Hpt. Qed.

Lemma land_511 x : Z.land x 511 = x mod 512.
Proof using Type. change 511 with (Z.ones 9). by rewrite Z.land_ones. Qed.

Lemma pt_getpteindex_by_va_Ok va l :
  0 <= l <= 3 -> pt_getpteindex_by_va pt va l = Ok (idx va l).
Proof using Hpt.
  intros Hl. unfold pt_getpteindex_by_va, idx. rewrite pt_nentries_Ok by done.
  change (u64 (512 - 1)) with 511.
  assert (rd (lvl_off (dscr pt)) l = Ok (shift_of l)) as ->.
  { rewrite Hpt. revert l Hl. by apply level_cases. }
  mstep. rewrite land_511, Z.shiftr_div_pow2 by (unfold shift_of; lia). done.
Qed.

(** The index of an entry inside a table that starts on a page boundary. *)
Lemma pt_getpteindex_Ok a i l :
  0 <= l <= 3 -> a mod PAGE_SIZE = 0 -> 0 <= i < 512 ->
  pt_getpteindex pt (a + 8 * i) l = Ok i.
Proof using Hpt.
  intros Hl Ha Hi. unfold pt_getpteindex. rewrite pt_size_Ok by done. mstep.
  change (u64 (PAGE_SIZE - 1)) with (Z.ones 12). rewrite Z.land_ones by lia.
  unfold PAGE_SIZE, sizeof_pte in *. change (2 ^ 12) with 0x1000.
  rewrite Z.add_mod, Ha, Z.add_0_l, Z.mod_mod, (Z.mod_small (8 * i)) by lia.
  rewrite Z.mul_comm, Z.div_mul by lia. done.
Qed.

End dscr.

Lemma idx_range va l : 0 <= idx va l < 512.
Proof. apply Z.mod_pos_bound. lia. Qed.

(** ** Entry lemmas *)

Lemma testbit_ADDR_MSK i : 0 <= i -> Z.testbit PTE_ADDR_MSK i = (12 <=? i) && (i <? 48).
Proof.
  intros Hi. change PTE_ADDR_MSK with (Z.shiftl (Z.ones 36) 12).
  rewrite Z.shiftl_spec by lia. destruct (Z.leb_spec 12 i).
  - rewrite Z.testbit_ones_nonneg by lia. repeat zcase.
  - rewrite Z.testbit_neg_r by lia. done.
Qed.

Lemma testbit_FLAGS_MSK i :
  0 <= i -> Z.testbit PTE_FLAGS_MSK i = (i <? 64) && negb ((12 <=? i) && (i <? 48)).
Proof.
  intros Hi. unfold PTE_FLAGS_MSK. by rewrite testbit_not64, testbit_ADDR_MSK.
Qed.

Lemma testbit_pte_make a t f i :
  0 <= i -> Z.testbit (pte_make a t f) i =
  if (12 <=? i) && (i <? 48) then Z.testbit a i
  else (i <? 64) && (Z.testbit t i || Z.testbit f i).
Proof.
  intros Hi. unfold pte_make. autorewrite with zbits.
  rewrite testbit_ADDR_MSK, testbit_FLAGS_MSK by done.
  destruct ((12 <=? i) && (i <? 48)), (i <? 64), (Z.testbit a i), (Z.testbit t i),
    (Z.testbit f i); done.
Qed.

Lemma pte_make_range a t f : 0 <= a -> 0 <= t -> 0 <= f -> 0 <= pte_make a t f < 2 ^ 64.
Proof.
  intros. apply lor_range; [lia|..]; rewrite Z.land_comm; apply land_range;
    try lia; try done. apply Z.lor_nonneg; lia.
Qed.

(** A page-aligned address below [2^48] survives the address field. *)
Definition page_addr (a : Z) : Prop := 0 <= a < 2 ^ 48 /\ a mod PAGE_SIZE = 0.

Lemma page_addr_bit a i : page_addr a -> 0 <= i -> ~ (12 <= i < 48) -> Z.testbit a i = false.
Proof.
  intros [Ha Hm] Hi Hn. destruct (Z.ltb_spec i 12).
  - change PAGE_SIZE with (2 ^ 12) in Hm. apply (f_equal (fun z => Z.testbit z i)) in Hm.
    rewrite Z.mod_pow2_bits_low, Z.bits_0 in Hm by lia. done.
  - apply (testbit_small a 48); lia.
Qed.

Lemma addr_of_make a t f : page_addr a -> addr_of (pte_make a t f) = a.
Proof.
  intros Ha. apply Z.bits_inj'. intros i Hi. unfold addr_of.
  rewrite Z.land_spec, testbit_pte_make, testbit_ADDR_MSK by done.
  destruct (Z.leb_spec 12 i), (Z.ltb_spec i 48); simpl; try apply andb_true_r;
    rewrite andb_false_r; symmetry; apply page_addr_bit; auto; lia.
Qed.

Lemma land3_bits x t :
  0 <= t <= 3 -> Z.testbit x 0 = Z.testbit t 0 -> Z.testbit x 1 = Z.testbit t 1 ->
  Z.land x 3 = t.
Proof.
  intros Ht H0 H1. change 3 with (Z.ones 2). rewrite Z.land_ones by lia.
  apply (bits_eq_u 2); [lia|apply Z.mod_pos_bound; lia|simpl; lia|].
  intros i Hi. rewrite Z.mod_pow2_bits_low by lia.
  assert (i = 0 \/ i = 1) as [->| ->] by lia; done.
Qed.

Lemma type_of_make a t f :
  0 <= t <= 3 -> Z.land f 3 = 0 -> Z.land (pte_make a t f) 3 = t.
Proof.
  intros Ht Hf.
  assert (Hb : forall i, i = 0 \/ i = 1 -> Z.testbit f i = false).
  { intros i Hi. apply (f_equal (fun z => Z.testbit z i)) in Hf.
    rewrite Z.land_spec, Z.bits_0 in Hf. destruct Hi as [-> | ->];
    by rewrite andb_true_r in Hf. }
  apply land3_bits; [done|..]; rewrite testbit_pte_make by lia;
    rewrite Hb by auto; rewrite orb_false_r; reflexivity.
Qed.

Lemma addr_of_page e : 0 <= e -> page_addr (addr_of e).
Proof.
  intros He. unfold addr_of. split.
  - rewrite Z.land_comm. apply land_range; [lia|done|done].
  - change PAGE_SIZE with (2 ^ 12). apply Z.bits_inj'. intros i Hi. rewrite Z.bits_0.
    destruct (Z.ltb_spec i 12); [|by rewrite Z.mod_pow2_bits_high by lia].
    rewrite Z.mod_pow2_bits_low, Z.land_spec, testbit_ADDR_MSK by lia.
    destruct (Z.leb_spec 12 i); [lia|]. apply andb_false_r.
Qed.

(** Clearing and setting the software bits leaves address and type alone. *)
Lemma rsw_bits e f i :
  0 <= i -> ~ (55 <= i < 59) -> 0 <= e < 2 ^ 64 ->
  Z.testbit (Z.lor (Z.land e (not64 PTE_RSW_MSK)) (Z.land f PTE_RSW_MSK)) i = Z.testbit e i.
Proof.
  intros Hi Hn He.
  assert (Hm : Z.testbit PTE_RSW_MSK i = false).
  { change PTE_RSW_MSK with (Z.shiftl (Z.ones 4) 55). rewrite Z.shiftl_spec by lia.
    destruct (Z.ltb_spec i 55); [by rewrite Z.testbit_neg_r by lia|].
    rewrite Z.testbit_ones_nonneg by lia. destruct (Z.ltb_spec (i - 55) 4); [lia|done]. }
  autorewrite with zbits. rewrite testbit_not64, Hm, andb_false_r, orb_false_r by done.
  destruct (Z.ltb_spec i 64); [apply andb_true_r|].
  rewrite (testbit_small e 64) by lia. done.
Qed.

Lemma rsw_set e f :
  Z.land (Z.lor (Z.land e (not64 PTE_RSW_MSK)) (Z.land f PTE_RSW_MSK)) PTE_RSW_MSK =
  Z.land f PTE_RSW_MSK.
Proof.
  apply Z.bits_inj'. intros i Hi. autorewrite with zbits. rewrite testbit_not64 by done.
  destruct (Z.testbit e i), (Z.testbit f i), (Z.testbit PTE_RSW_MSK i), (i <? 64); done.
Qed.

Lemma rsrv_land e : rsrv (Z.land e PTE_RSW_MSK) = rsrv e.
Proof. unfold rsrv. by rewrite <- Z.land_assoc, Z.land_diag. Qed.

(** ** Well-formed trees *)

(** [T] gives the level of every table of the tree rooted at [r]: table entries
    lead to tables of the next level and are never marked reserved, each table
    has one parent entry, and blocks are aligned and do not occur at level 0. *)
Record pt_wf (m : mem) (r : Z) (T : gmap Z Z) : Prop := {
  pw_bytes : bytes_ok m;
  pw_root : T !! r = Some 0;
  pw_table a l : T !! a = Some l -> 0 <= l <= 3 /\ page_addr a /\ 0 < a;
  pw_child a l i :
    T !! a = Some l -> l < 3 -> 0 <= i < 512 -> is_table (load64 m (a + 8 * i)) = true ->
    T !! addr_of (load64 m (a + 8 * i)) = Some (l + 1);
  pw_unique a l i a' l' i' :
    T !! a = Some l -> l < 3 -> 0 <= i < 512 -> is_table (load64 m (a + 8 * i)) = true ->
    T !! a' = Some l' -> l' < 3 -> 0 <= i' < 512 -> is_table (load64 m (a' + 8 * i')) = true ->
    addr_of (load64 m (a + 8 * i)) = addr_of (load64 m (a' + 8 * i')) -> a = a' /\ i = i';
  pw_block a l i :
    T !! a = Some l -> l < 3 -> 0 <= i < 512 -> is_block (load64 m (a + 8 * i)) = true ->
    0 < l /\ addr_of (load64 m (a + 8 * i)) mod 2 ^ shift_of l = 0;
  pw_rsw a l i :
    T !! a = Some l -> l < 3 -> 0 <= i < 512 -> is_table (load64 m (a + 8 * i)) = true ->
    rsrv (load64 m (a + 8 * i)) = false;
}.

(** Entries of two tables are the same word or do not overlap. *)
Lemma entries_disjoint a b i j :
  a mod PAGE_SIZE = 0 -> b mod PAGE_SIZE = 0 -> 0 <= i < 512 -> 0 <= j < 512 ->
  (a = b /\ i = j) \/ a + 8 * i + 8 <= b + 8 * j \/ b + 8 * j + 8 <= a + 8 * i.
Proof.
  unfold PAGE_SIZE. intros Ha Hb Hi Hj. divmod a 0x1000. divmod b 0x1000. lia.
Qed.

Section tree.
Context (m : mem) (r : Z) (T : gmap Z Z) (Hwf : pt_wf m r T).

Lemma path_S va k a :
  path m r va (S k) = Some a <->
  exists b, path m r va k = Some b /\ is_table (entry m b va (Z.of_nat k)) = true /\
    a = addr_of (entry m b va (Z.of_nat k)).
Proof using Type.
  simpl. split.
  - destruct (path m r va k) as [b|]; [|done]. destruct (is_table _) eqn:E; [|done].
    intros [= <-]. eauto.
  - intros (b & -> & -> & ->). done.
Qed.

Lemma path_prefix va k a j :
  path m r va k = Some a -> (j <= k)%nat -> exists b, path m r va j = Some b.
Proof using Type.
  revert a. induction k as [|k IH]; intros a Hp Hj.
  - replace j with 0%nat by lia. eauto.
  - destruct (decide (j = S k)) as [->|]; [eauto|].
    apply path_S in Hp as (b & Hb & _). apply (IH b); [done|lia].
Qed.

Lemma path_level va k a :
  (k <= 3)%nat -> path m r va k = Some a -> T !! a = Some (Z.of_nat k).
Proof using Hwf.
  revert a. induction k as [|k IH]; intros a Hk Hp.
  { simpl in Hp. injection Hp as <-. apply Hwf. }
  apply path_S in Hp as (b & Hb & Ht & ->). specialize (IH b ltac:(lia) Hb).
  replace (Z.of_nat (S k)) with (Z.of_nat k + 1) by lia.
  apply (pw_child _ _ _ Hwf b (Z.of_nat k)); auto using idx_range. lia.
Qed.

(** Two addresses that reach the same table take the same entries to it. *)
Lemma path_inj va va' k a :
  (k <= 3)%nat -> path m r va k = Some a -> path m r va' k = Some a ->
  forall j, 0 <= j < Z.of_nat k -> idx va j = idx va' j.
Proof using Hwf.
  revert a. induction k as [|k IH]; intros a Hk Hp Hp' j Hj; [lia|].
  apply path_S in Hp as (b & Hb & Ht & Ea). apply path_S in Hp' as (b' & Hb' & Ht' & Ea').
  pose proof (path_level va k b ltac:(lia) Hb) as Hl.
  pose proof (path_level va' k b' ltac:(lia) Hb') as Hl'.
  destruct (pw_unique _ _ _ Hwf b (Z.of_nat k) (idx va (Z.of_nat k)) b' (Z.of_nat k)
    (idx va' (Z.of_nat k))) as [-> Hi]; auto using idx_range; try lia.
  { unfold entry in *. congruence. }
  destruct (Z.eqb_spec j (Z.of_nat k)) as [->|]; [done|]. apply (IH b'); done || lia.
Qed.

End tree.

(** ** Indices and addresses *)

Lemma quotient_step va l :
  0 <= va -> 1 <= l <= 3 ->
  va / 2 ^ shift_of l = 512 * (va / 2 ^ shift_of (l - 1)) + idx va l.
Proof.
  intros Hva Hl. unfold idx, shift_of.
  replace (39 - 9 * (l - 1)) with (39 - 9 * l + 9) by lia.
  rewrite Z.pow_add_r, <- Z.div_div by lia. change (2 ^ 9) with 512.
  apply Z.div_mod. lia.
Qed.

(** The indices down to level [k] are the address without its offset. *)
Lemma idx_prefix va va' (k : Z) :
  0 <= va < 2 ^ 48 -> 0 <= va' < 2 ^ 48 -> 0 <= k <= 3 ->
  (forall j, 0 <= j <= k -> idx va j = idx va' j) <->
  va / 2 ^ shift_of k = va' / 2 ^ shift_of k.
Proof.
  intros Hva Hva' Hk. split.
  - intros H. assert (Hk' : exists n : nat, k = Z.of_nat n) by (exists (Z.to_nat k); lia).
    destruct Hk' as [n ->]. induction n as [|n IH].
    + specialize (H 0 ltac:(lia)). unfold idx in H. change (shift_of (Z.of_nat 0)) with 39.
      change (shift_of 0) with 39 in H. rewrite !Z.mod_small in H; [done|..];
        (split; [apply Z.div_pos; lia|apply Z.div_lt_upper_bound; lia]).
    + rewrite !(quotient_step _ (Z.of_nat (S n))) by lia.
      replace (Z.of_nat (S n) - 1) with (Z.of_nat n) by lia.
      rewrite IH, H by (intros; try apply H; lia). done.
  - intros H j Hj. unfold idx. f_equal.
    replace (shift_of j) with (shift_of k + 9 * (k - j)) by (unfold shift_of; lia).
    rewrite Z.pow_add_r, <- !Z.div_div by (try apply Z.pow_nonzero; try apply Z.pow_pos_nonneg;
      unfold shift_of; lia).
    by rewrite H.
Qed.

(** ** Walks and leaves *)

Section walks.
Context (m : mem) (r va : Z).

Lemma hw_walk_at k a :
  (k <= 3)%nat -> path m r va k = Some a ->
  translate m r va = hw_walk m (3 - k) (Z.of_nat k) a va.
Proof using Type.
  revert a. induction k as [|k IH]; intros a Hk Hp.
  { simpl in Hp. injection Hp as <-. done. }
  apply path_S in Hp as (b & Hb & Ht & ->). rewrite (IH b) by (done || lia).
  replace (3 - k)%nat with (S (3 - S k)) by lia. cbn [hw_walk]. rewrite Ht.
  f_equal. lia.
Qed.

(** The translation is decided by the first entry that is not a table. *)
Lemma translate_leaf k a :
  (k <= 3)%nat -> path m r va k = Some a ->
  ((k < 3)%nat -> is_table (entry m a va (Z.of_nat k)) = false) ->
  translate m r va = leaf (Z.of_nat k) (entry m a va (Z.of_nat k)) va.
Proof using Type.
  intros Hk Hp Ht. rewrite (hw_walk_at k a) by done.
  destruct (3 - k)%nat eqn:E; simpl; [done|]. rewrite Ht by lia. done.
Qed.

Lemma leaf_walk_at k a :
  (k <= 3)%nat -> path m r va k = Some a ->
  leaf_at m r va = leaf_walk m (3 - k) (Z.of_nat k) a va.
Proof using Type.
  revert a. induction k as [|k IH]; intros a Hk Hp.
  { simpl in Hp. injection Hp as <-. done. }
  apply path_S in Hp as (b & Hb & Ht & ->). rewrite (IH b) by (done || lia).
  replace (3 - k)%nat with (S (3 - S k)) by lia. cbn [leaf_walk]. rewrite Ht.
  f_equal. lia.
Qed.

Lemma leaf_at_path k a :
  (k <= 3)%nat -> path m r va k = Some a ->
  ((k < 3)%nat -> is_table (entry m a va (Z.of_nat k)) = false) ->
  leaf_at m r va = (Z.of_nat k, entry m a va (Z.of_nat k)).
Proof using Type.
  intros Hk Hp Ht. rewrite (leaf_walk_at k a) by done.
  destruct (3 - k)%nat eqn:E; simpl; [done|]. rewrite Ht by lia. done.
Qed.

Lemma leaf_at_exists :
  exists k a, (k <= 3)%nat /\ path m r va k = Some a /\
    ((k < 3)%nat -> is_table (entry m a va (Z.of_nat k)) = false) /\
    leaf_at m r va = (Z.of_nat k, entry m a va (Z.of_nat k)).
Proof using Type.
  assert (H : forall n k a, (k + n = 3)%nat -> path m r va k = Some a ->
    exists k a, (k <= 3)%nat /\ path m r va k = Some a /\
      ((k < 3)%nat -> is_table (entry m a va (Z.of_nat k)) = false)).
  { induction n as [|n IH]; intros k a Hk Hp.
    - exists k, a. split_and!; [lia|done|lia].
    - destruct (is_table (entry m a va (Z.of_nat k))) eqn:Et.
      + apply (IH (S k) (addr_of (entry m a va (Z.of_nat k)))); [lia|]. apply path_S. eauto.
      + exists k, a. split_and!; [lia|done|done]. }
  destruct (H 3%nat 0%nat r eq_refl eq_refl) as (k & a & Hk & Hp & Ht).
  exists k, a. split_and!; try done. by apply leaf_at_path.
Qed.

Lemma translate_leaf_at : translate m r va = leaf (leaf_at m r va).1 (leaf_at m r va).2 va.
Proof using Type.
  destruct leaf_at_exists as (k & a & Hk & Hp & Ht & ->). by apply translate_leaf.
Qed.

(** Memory that keeps the entries on the path keeps the path and the
    translation. *)
Lemma walk_ext m' :
  (forall k a, (k <= 3)%nat -> path m r va k = Some a ->
     entry m' a va (Z.of_nat k) = entry m a va (Z.of_nat k)) ->
  leaf_at m' r va = leaf_at m r va /\
  forall k, (k <= 4)%nat -> path m' r va k = path m r va k.
Proof using Type.
  intros H. assert (Hp : forall k, (k <= 4)%nat -> path m' r va k = path m r va k).
  { induction k as [|k IH]; intros Hk; [done|]. simpl. rewrite IH by lia.
    destruct (path m r va k) as [a|] eqn:E; [|done]. rewrite (H k a) by (done || lia). done. }
  split; [|done]. unfold leaf_at.
  cut (forall n j b, (j + n = 3)%nat -> path m r va j = Some b ->
    leaf_walk m' n (Z.of_nat j) b va = leaf_walk m n (Z.of_nat j) b va).
  { intros Hw. by apply (Hw 3%nat 0%nat). }
  induction n as [|n IH]; intros j b Hj Hb; cbn [leaf_walk]; rewrite (H j b) by (done || lia); [done|].
  destruct (is_table _) eqn:Et; [|done].
  replace (Z.of_nat j + 1) with (Z.of_nat (S j)) by lia. apply IH; [lia|].
  apply path_S. eauto.
Qed.

End walks.

(** Tables on a path are page addresses. *)
Lemma path_page m r va k a :
  bytes_ok m -> page_addr r -> path m r va k = Some a -> page_addr a.
Proof.
  intros Hm Hr Hp. destruct k as [|k]; [simpl in Hp; by injection Hp as <-|].
  apply path_S in Hp as (b & _ & _ & ->). apply addr_of_page.
  apply (load_le_range m _ 8 Hm).
Qed.

(** The code's walk reaches the entry the path leads to. *)
Lemma pt_walk_path m pt va k a :
  armv8 pt -> bytes_ok m -> page_addr (root pt) -> (k <= 3)%nat ->
  path m (root pt) va k = Some a ->
  pt_get_pte m pt (Z.of_nat k) va = Ok (a + 8 * idx va (Z.of_nat k)).
Proof.
  intros Hpt Hm Hr Hk Hp. unfold pt_get_pte. rewrite Nat2Z.id.
  cut (forall n j b, (j + n = k)%nat -> path m (root pt) va j = Some b ->
    pt_walk m pt va n (Z.of_nat j) b = Ok (a + 8 * idx va (Z.of_nat k))).
  { intros Hw. by apply (Hw k 0%nat (root pt)). }
  induction n as [|n IH]; intros j b Hj Hb; cbn [pt_walk];
    rewrite pt_getpteindex_by_va_Ok by (done || lia); mstep;
    pose proof (idx_range va (Z.of_nat j));
    destruct (path_page m _ va j b Hm Hr Hb) as [Hbr _];
    unfold sizeof_pte; rewrite i32_small, u64_small by lia.
  - replace j with k in * by lia. rewrite Hp in Hb. injection Hb as ->. f_equal. lia.
  - replace (Z.of_nat j + 1) with (Z.of_nat (S j)) by lia. apply IH; [lia|].
    unfold pte_addr. rewrite (Z.mul_comm (idx _ _)). fold (entry m b va (Z.of_nat j)).
    destruct (path_prefix m _ va k a (S j) Hp ltac:(lia)) as [c Hc]. rewrite Hc.
    apply path_S in Hc as (b' & Hb' & _ & ->). congruence.
Qed.

Lemma table_base a i :
  page_addr a -> 0 <= i < 512 -> Z.land (a + 8 * i) (not64 (u64 (PAGE_SIZE - 1))) = a.
Proof.
  intros [Ha Hm] Hi. change (u64 (PAGE_SIZE - 1)) with (Z.ones 12).
  assert (Hd : a + 8 * i = a / 2 ^ 12 * 2 ^ 12 + 8 * i).
  { unfold PAGE_SIZE in Hm. change (2 ^ 12) with 0x1000. divmod a 0x1000. lia. }
  apply Z.bits_inj'. intros j Hj. rewrite Z.land_spec, testbit_not64 by done.
  rewrite Z.testbit_ones_nonneg by lia. destruct (Z.ltb_spec j 12) as [Hlt|Hge].
  - rewrite !andb_false_r. symmetry. apply page_addr_bit; [split; done|lia|lia].
  - rewrite andb_true_r. rewrite <- (Z.sub_add 12 j).
    rewrite <- !Z.div_pow2_bits by lia. rewrite Hd at 1.
    rewrite Z.div_add_l, (Z.div_small (8 * i)), Z.add_0_r by lia.
    rewrite !Z.div_pow2_bits by lia. replace (j - 12 + 12) with j by lia.
    destruct (Z.ltb_spec j 64); [apply andb_true_r|].
    rewrite (testbit_small a 48) by lia. done.
Qed.

Lemma pt_get_path m pt va k a :
  armv8 pt -> bytes_ok m -> page_addr (root pt) -> (k <= 3)%nat ->
  path m (root pt) va k = Some a -> pt_get m pt (Z.of_nat k) va = Ok a.
Proof.
  intros Hpt Hm Hr Hk Hp. unfold pt_get. destruct (Z.eqb_spec (Z.of_nat k) 0).
  - replace k with 0%nat in Hp by lia. simpl in Hp. by injection Hp as ->.
  - rewrite (pt_walk_path m pt va k a), pt_size_Ok by (done || lia). mstep.
    rewrite table_base; [done|by apply (path_page m (root pt) va k)|apply idx_range].
Qed.

(** ** Adding a table *)

(** Entry [i] of the level-[l] table at [a], not a table before, now leads to
    the new table at [b]; no other entry of the tree changed. *)
Record table_added (m m' : mem) (T : gmap Z Z) (a l i b : Z) : Prop := {
  ta_parent : T !! a = Some l;
  ta_lvl : l < 3;
  ta_i : 0 <= i < 512;
  ta_old : is_table (load64 m (a + 8 * i)) = false;
  ta_fresh : T !! b = None;
  ta_addr : page_addr b;
  ta_pos : 0 < b;
  ta_bytes : bytes_ok m';
  ta_frame c lc j :
    T !! c = Some lc -> 0 <= j < 512 -> ~ (c = a /\ j = i) ->
    load64 m' (c + 8 * j) = load64 m (c + 8 * j);
  ta_new : is_table (load64 m' (a + 8 * i)) = true;
  ta_new_addr : addr_of (load64 m' (a + 8 * i)) = b;
  ta_new_rsw : rsrv (load64 m' (a + 8 * i)) = false;
  ta_child j :
    0 <= j < 512 -> l + 1 < 3 ->
    is_table (load64 m' (b + 8 * j)) = false /\
    (is_block (load64 m' (b + 8 * j)) = true ->
       addr_of (load64 m' (b + 8 * j)) mod 2 ^ shift_of (l + 1) = 0);
}.

Section added.
Context (m m' : mem) (r : Z) (T : gmap Z Z) (a l i b : Z).
Context (Hwf : pt_wf m r T) (Hadd : table_added m m' T a l i b).

(** An entry of the grown tree that is a table: the new one, or an old one. *)
Lemma added_table c lc j :
  <[b := l + 1]> T !! c = Some lc -> lc < 3 -> 0 <= j < 512 ->
  is_table (load64 m' (c + 8 * j)) = true ->
  T !! c = Some lc /\
  ((c = a /\ j = i /\ lc = l) \/
   (load64 m' (c + 8 * j) = load64 m (c + 8 * j) /\ ~ (c = a /\ j = i))).
Proof using Hadd.
  intros Hc Hlt Hj Ht. pose proof Hadd as [Hp Hl Hi Ho Hf Ha Hpos Hb Hfr Hn Hna Hnr Hch].
  destruct (decide (b = c)) as [->|Hne].
  { rewrite lookup_insert_eq in Hc. injection Hc as <-.
    destruct (Hch j Hj Hlt) as [Hch' _]. rewrite Ht in Hch'. done. }
  rewrite lookup_insert_ne in Hc by done. split; [done|].
  destruct (decide (c = a)) as [->|]; [destruct (decide (j = i)) as [->|]|].
  - left. naive_solver.
  - right. split; [apply (Hfr a l); naive_solver|naive_solver].
  - right. split; [apply (Hfr c lc); naive_solver|naive_solver].
Qed.

Lemma added_wf : pt_wf m' r (<[b := l + 1]> T).
Proof using All.
  pose proof Hadd as [Hp Hl Hi Ho Hf Ha Hpos Hb Hfr Hn Hna Hnr Hch].
  assert (Hlk : forall c lc, T !! c = Some lc -> <[b := l + 1]> T !! c = Some lc).
  { intros c lc Hc. rewrite lookup_insert_ne; [done|]. intros ->. congruence. }
  pose proof (pw_table _ _ _ Hwf a l Hp) as [Hlr _].
  split; [done|apply Hlk, Hwf|..].
  - intros c lc Hc. destruct (decide (b = c)) as [<-|Hne].
    + rewrite lookup_insert_eq in Hc. injection Hc as <-. split; [lia|done].
    + rewrite lookup_insert_ne in Hc by done. by apply (pw_table _ _ _ Hwf).
  - intros c lc j Hc Hlt Hj Ht.
    destruct (added_table c lc j Hc Hlt Hj Ht) as (Hc' & [(-> & -> & ->)|(E & _)]).
    + rewrite Hna. apply lookup_insert_eq.
    + rewrite E in *. apply Hlk. by apply (pw_child _ _ _ Hwf).
  - intros c lc j c' lc' j' Hc Hlt Hj Ht Hc' Hlt' Hj' Ht' He.
    destruct (added_table c lc j Hc Hlt Hj Ht) as (Hd & [(-> & -> & ->)|(E & _)]),
      (added_table c' lc' j' Hc' Hlt' Hj' Ht') as (Hd' & [(-> & -> & ->)|(E' & _)]).
    + done.
    + exfalso. rewrite Hna, E' in He. rewrite E' in Ht'.
      pose proof (pw_child _ _ _ Hwf c' lc' j' Hd' Hlt' Hj' Ht') as Hx. congruence.
    + exfalso. rewrite Hna, E in He. rewrite E in Ht.
      pose proof (pw_child _ _ _ Hwf c lc j Hd Hlt Hj Ht) as Hx. congruence.
    + rewrite E, E' in *. by apply (pw_unique _ _ _ Hwf c lc j c' lc' j').
  - intros c lc j Hc Hlt Hj Hbl. destruct (decide (b = c)) as [<-|Hne].
    { rewrite lookup_insert_eq in Hc. injection Hc as <-. split; [lia|].
      by apply (Hch j Hj Hlt). }
    rewrite lookup_insert_ne in Hc by done.
    destruct (decide (c = a /\ j = i)) as [[-> ->]|Hn'].
    + unfold is_block, is_table in *. rewrite Z.eqb_eq in *. congruence.
    + rewrite (Hfr c lc j) in * by done. by apply (pw_block _ _ _ Hwf).
  - intros c lc j Hc Hlt Hj Ht.
    destruct (added_table c lc j Hc Hlt Hj Ht) as (Hc' & [(-> & -> & ->)|(E & _)]); [done|].
    rewrite E in *. by apply (pw_rsw _ _ _ Hwf c lc).
Qed.

Lemma added_path va k c :
  (k <= 3)%nat -> path m r va k = Some c -> path m' r va k = Some c.
Proof using All.
  revert c. induction k as [|k IH]; intros c Hk Hp; [done|].
  apply path_S in Hp as (d & Hd & Ht & ->). apply path_S. exists d.
  split; [apply IH; done || lia|].
  assert (entry m' d va (Z.of_nat k) = entry m d va (Z.of_nat k)) as ->; [|done].
  apply (ta_frame _ _ _ _ _ _ _ Hadd d (Z.of_nat k)); [|apply idx_range|].
  - apply (path_level m r T Hwf va); done || lia.
  - intros [-> Hi]. unfold entry in Ht. rewrite Hi, (ta_old _ _ _ _ _ _ _ Hadd) in Ht. done.
Qed.

Lemma added_through va k :
  l = Z.of_nat k -> path m r va k = Some a -> idx va l = i -> path m' r va (S k) = Some b.
Proof using All.
  intros Hk Hp Hi. pose proof (ta_lvl _ _ _ _ _ _ _ Hadd). apply path_S. exists a.
  rewrite Hk in Hi.
  split; [apply added_path; done || lia|]. unfold entry. rewrite Hi.
  split; [apply Hadd|symmetry; apply Hadd].
Qed.

(** The walks through the changed entry now end one level down, the others
    where they did. *)
Lemma added_leaf va :
  leaf_at m' r va = leaf_at m r va \/
  (leaf_at m r va = (l, load64 m (a + 8 * i)) /\
   leaf_at m' r va = (l + 1, load64 m' (b + 8 * idx va (l + 1)))).
Proof using All.
  pose proof (ta_lvl _ _ _ _ _ _ _ Hadd) as Hl.
  destruct (pw_table _ _ _ Hwf a l (ta_parent _ _ _ _ _ _ _ Hadd)) as [Hl0 _].
  destruct (decide (path m r va (Z.to_nat l) = Some a /\ idx va l = i)) as [[Hp Hi]|Hn].
  - right. rewrite (leaf_at_path m r va (Z.to_nat l) a); [|lia|done|]; rewrite ?Z2Nat.id by lia.
    2: { intros _. unfold entry. rewrite Hi. apply Hadd. }
    rewrite (leaf_at_path m' r va (S (Z.to_nat l)) b); [|lia|apply added_through; (done || lia)|].
    + replace (Z.of_nat (S (Z.to_nat l))) with (l + 1) by lia.
      unfold entry. rewrite Hi. done.
    + intros Hlt. replace (Z.of_nat (S (Z.to_nat l))) with (l + 1) by lia.
      apply (ta_child _ _ _ _ _ _ _ Hadd); [apply idx_range|lia].
  - left. apply walk_ext. intros k c Hk Hp.
    apply (ta_frame _ _ _ _ _ _ _ Hadd c (Z.of_nat k)); [|apply idx_range|].
    + by apply (path_level m r T Hwf va).
    + intros [-> Hi]. apply Hn. pose proof (path_level m r T Hwf va k a Hk Hp) as Hk'.
      rewrite (ta_parent _ _ _ _ _ _ _ Hadd) in Hk'. injection Hk' as ->.
      rewrite Nat2Z.id. done.
Qed.

End added.

(** ** Writing a last entry *)

Section leaf_write.
Context (m : mem) (r : Z) (T : gmap Z Z) (a l i v : Z).
Context (Hwf : pt_wf m r T) (Ha : T !! a = Some l) (Hi : 0 <= i < 512) (Hv : 0 <= v < 2 ^ 64).
(** Above level 3 neither the old nor the new entry is a table, and the new one
    is no block. *)
Context (Hold : l < 3 -> is_table (load64 m (a + 8 * i)) = false)
  (Hnew : l < 3 -> is_table v = false /\ is_block v = false).

Let m' : mem := store64 m (a + 8 * i) v.

Lemma leaf_write_eq : load64 m' (a + 8 * i) = v.
Proof using Hv. by apply load64_store64. Qed.

Lemma leaf_write_ne c lc j :
  T !! c = Some lc -> 0 <= j < 512 -> ~ (c = a /\ j = i) ->
  load64 m' (c + 8 * j) = load64 m (c + 8 * j).
Proof using All.
  intros Hc Hj Hn. apply load64_store64_ne.
  destruct (pw_table _ _ _ Hwf _ _ Hc) as (_ & (_ & Hcm) & _).
  destruct (pw_table _ _ _ Hwf _ _ Ha) as (_ & (_ & Ham) & _).
  destruct (entries_disjoint a c i j) as [[-> ->]|]; try done; tauto || lia.
Qed.

(** Tables above level 3 lead where they did. *)
Lemma leaf_write_table c lc j :
  T !! c = Some lc -> lc < 3 -> 0 <= j < 512 ->
  is_table (load64 m' (c + 8 * j)) = true -> load64 m' (c + 8 * j) = load64 m (c + 8 * j).
Proof using All.
  intros Hc Hlt Hj Ht. destruct (decide (c = a /\ j = i)) as [[-> ->]|Hn].
  - rewrite Ha in Hc. injection Hc as <-. rewrite leaf_write_eq in Ht.
    destruct (Hnew Hlt). congruence.
  - by apply (leaf_write_ne c lc).
Qed.

Lemma leaf_write_wf : pt_wf m' r T.
Proof using All.
  split; [by apply store_le_ok, Hwf|apply Hwf|apply Hwf|..].
  - intros c lc j Hc Hlt Hj Ht. rewrite (leaf_write_table c lc j) in * by done.
    by apply (pw_child _ _ _ Hwf).
  - intros c lc j c' lc' j' Hc Hlt Hj Ht Hc' Hlt' Hj' Ht' He.
    rewrite (leaf_write_table c lc j), (leaf_write_table c' lc' j') in * by done.
    by apply (pw_unique _ _ _ Hwf c lc j c' lc' j').
  - intros c lc j Hc Hlt Hj Hb. destruct (decide (c = a /\ j = i)) as [[-> ->]|Hn].
    + rewrite Ha in Hc. injection Hc as <-. rewrite leaf_write_eq in Hb.
      destruct (Hnew Hlt). congruence.
    + rewrite (leaf_write_ne c lc j) in * by done. by apply (pw_block _ _ _ Hwf).
  - intros c lc j Hc Hlt Hj Ht. rewrite (leaf_write_table c lc j) in * by done.
    by apply (pw_rsw _ _ _ Hwf c lc).
Qed.

Definition goes_through (va : Z) : Prop := path m r va (Z.to_nat l) = Some a /\ idx va l = i.

Lemma through_only va k c :
  (k <= 3)%nat -> path m r va k = Some c -> c = a -> idx va (Z.of_nat k) = i -> goes_through va.
Proof using All.
  intros Hk Hp -> Hx. pose proof (path_level m r T Hwf va k a Hk Hp) as Hl.
  rewrite Ha in Hl. injection Hl as Hl. unfold goes_through.
  rewrite Hl, Nat2Z.id. done.
Qed.

Lemma leaf_write_path va k : (k <= 3)%nat -> path m' r va k = path m r va k.
Proof using All.
  induction k as [|k IH]; intros Hk; [done|]. simpl. rewrite IH by lia.
  destruct (path m r va k) as [c|] eqn:E; [|done].
  pose proof (path_level m r T Hwf va k c ltac:(lia) E) as Hc. unfold entry.
  destruct (decide (c = a /\ idx va (Z.of_nat k) = i)) as [[-> Hx]|Hn].
  - rewrite Ha in Hc. injection Hc as Hc. rewrite Hx, leaf_write_eq, Hold by lia.
    by rewrite (proj1 (Hnew ltac:(lia))).
  - by rewrite (leaf_write_ne c (Z.of_nat k)) by (done || apply idx_range).
Qed.

Lemma leaf_write_leaf va :
  (goes_through va -> leaf_at m' r va = (l, v)) /\
  (~ goes_through va -> leaf_at m' r va = leaf_at m r va).
Proof using All.
  destruct (pw_table _ _ _ Hwf _ _ Ha) as (Hl & _). split.
  - intros [Hp Hx]. rewrite (leaf_at_path m' r va (Z.to_nat l) a); rewrite ?Z2Nat.id by lia.
    + unfold entry. by rewrite Hx, leaf_write_eq.
    + lia.
    + rewrite leaf_write_path by lia. done.
    + intros Hlt. unfold entry. rewrite Hx, leaf_write_eq. apply Hnew. lia.
  - intros Hn. apply walk_ext. intros k c Hk Hp.
    apply (leaf_write_ne c (Z.of_nat k)); [by apply (path_level m r T Hwf va)|apply idx_range|].
    intros [Hc Hx]. apply Hn. by apply (through_only va k c).
Qed.

End leaf_write.

(** ** Splitting a block *)

Lemma is_table_bits e : is_table e = Z.testbit e 0 && Z.testbit e 1.
Proof.
  unfold is_table. destruct (Z.eqb_spec (Z.land e 3) 3) as [E|E].
  - pose proof (f_equal (fun z => Z.testbit z 0) E) as H0.
    pose proof (f_equal (fun z => Z.testbit z 1) E) as H1. cbv beta in H0, H1.
    rewrite Z.land_spec in H0, H1. symmetry.
    apply andb_prop in H0 as [-> _]. apply andb_prop in H1 as [-> _]. done.
  - destruct (Z.testbit e 0) eqn:H0, (Z.testbit e 1) eqn:H1; try done.
    exfalso. apply E. by apply land3_bits.
Qed.

Lemma is_block_bits e : is_block e = Z.testbit e 0 && negb (Z.testbit e 1).
Proof.
  unfold is_block. destruct (Z.eqb_spec (Z.land e 3) 1) as [E|E].
  - pose proof (f_equal (fun z => Z.testbit z 0) E) as H0.
    pose proof (f_equal (fun z => Z.testbit z 1) E) as H1. cbv beta in H0, H1.
    rewrite Z.land_spec in H0, H1. symmetry. apply andb_prop in H0 as [-> _].
    change (Z.testbit 3 1) with true in H1. rewrite andb_true_r in H1. by rewrite H1.
  - destruct (Z.testbit e 0) eqn:H0, (Z.testbit e 1) eqn:H1; try done.
    exfalso. apply E. by apply land3_bits.
Qed.

Lemma valid_bit e : negb (Z.land e PTE_VALID =? 0) = Z.testbit e 0.
Proof.
  change PTE_VALID with (Z.ones 1). rewrite Z.land_ones by lia.
  rewrite Z.bit0_odd. change (2 ^ 1) with 2. rewrite Zmod_odd. by destruct (Z.odd e).
Qed.

Lemma leaf_invalid l e va : Z.testbit e 0 = false -> leaf l e va = None.
Proof.
  intros He. unfold leaf. rewrite is_table_bits, is_block_bits, He. by destruct (l =? 3).
Qed.

(** A block is aligned to its size, so it ends below [2^48]. *)
Lemma block_limit l a : 0 <= l <= 3 -> page_addr a -> a mod 2 ^ shift_of l = 0 ->
  a + 2 ^ shift_of l <= 2 ^ 48.
Proof.
  intros Hl [Ha _] Hm. set (s := shift_of l) in *.
  assert (Hs : 0 <= s <= 39) by (unfold s, shift_of; lia).
  assert (Hp : 2 ^ 48 = 2 ^ (48 - s) * 2 ^ s) by (rewrite <- Z.pow_add_r by lia; f_equal; lia).
  pose proof (Z.pow_pos_nonneg 2 s ltac:(lia) ltac:(lia)).
  pose proof (Z.div_mod a (2 ^ s) ltac:(lia)) as Hd. rewrite Hm, Z.add_0_r in Hd.
  rewrite Hp in Ha |- *. assert (a / 2 ^ s < 2 ^ (48 - s)) by nia. nia.
Qed.

Lemma block_part l a j :
  0 < l < 3 -> page_addr a -> a mod 2 ^ shift_of l = 0 -> 0 <= j < 512 ->
  page_addr (a + j * 2 ^ shift_of (l + 1)) /\
  (a + j * 2 ^ shift_of (l + 1)) mod 2 ^ shift_of (l + 1) = 0.
Proof.
  intros Hl Ha Hm Hj. pose proof (block_limit l a ltac:(lia) Ha Hm) as Hlim.
  assert (Hsz : 2 ^ shift_of l = 512 * 2 ^ shift_of (l + 1)).
  { change 512 with (2 ^ 9). rewrite <- Z.pow_add_r by (unfold shift_of; lia).
    f_equal. unfold shift_of. lia. }
  pose proof (Z.pow_pos_nonneg 2 (shift_of (l + 1)) ltac:(lia) ltac:(unfold shift_of; lia)).
  rewrite Hsz in *.
  assert (Hm2 : a mod 2 ^ shift_of (l + 1) = 0).
  { apply Z.mod_divide; [lia|]. apply Z.mod_divide in Hm; [|lia].
    eapply Z.divide_trans; [|exact Hm]. by exists 512. }
  destruct Ha as [Hr Hp]. split; [split; [nia|]|].
  - apply Z.mod_divide; [done|]. apply Z.divide_add_r; [by apply Z.mod_divide|].
    apply Z.divide_mul_r. change PAGE_SIZE with (2 ^ 12).
    exists (2 ^ (shift_of (l + 1) - 12)). rewrite <- Z.pow_add_r by (unfold shift_of; lia).
    f_equal. lia.
  - rewrite Z.mod_add by lia. done.
Qed.

Definition part_type (l : Z) : Z := if l =? 3 then PTE_PAGE else PTE_SUPERPAGE.

(** The parts of a block, one level down, map what the block mapped. *)
Lemma block_part_leaf l e va flags :
  0 < l < 3 -> 0 <= e -> is_block e = true -> addr_of e mod 2 ^ shift_of l = 0 ->
  Z.land flags 3 = 0 ->
  leaf (l + 1) (pte_make (addr_of e + idx va (l + 1) * 2 ^ shift_of (l + 1))
    (part_type (l + 1)) flags) va = leaf l e va.
Proof.
  intros Hl He Hb Hm Hf. pose proof (addr_of_page e He) as Ha.
  destruct (block_part l (addr_of e) (idx va (l + 1)) Hl Ha Hm (idx_range _ _)) as [Hpa Hal].
  unfold leaf. rewrite addr_of_make by done. destruct (Z.eqb_spec l 3); [lia|].
  rewrite Hb. destruct (Z.ltb_spec 0 l), (Z.ltb_spec 0 (l + 1)); try lia. simpl.
  assert (Hva : va mod 2 ^ shift_of l =
    va mod 2 ^ shift_of (l + 1) + 2 ^ shift_of (l + 1) * idx va (l + 1)).
  { unfold idx. rewrite <- Z.rem_mul_r by (try apply Z.pow_nonzero; unfold shift_of; lia).
    f_equal. change 512 with (2 ^ 9). rewrite <- Z.pow_add_r by (unfold shift_of; lia).
    f_equal. unfold shift_of. lia. }
  assert (Hrnd : forall x s, 0 <= s -> x mod 2 ^ s = 0 -> x / 2 ^ s * 2 ^ s = x).
  { intros x s Hs Hx. pose proof (Z.div_mod x (2 ^ s) ltac:(apply Z.pow_nonzero; lia)). lia. }
  rewrite Hva, (Hrnd (addr_of e) (shift_of l)) by (unfold shift_of in *; done || lia).
  unfold is_table, is_block, part_type. destruct (Z.eqb_spec (l + 1) 3) as [E|E];
    rewrite type_of_make by done; simpl; apply (f_equal Some).
  - replace l with 2 by lia. change (shift_of (2 + 1)) with 12. lia.
  - rewrite Hrnd by (unfold shift_of in *; done || lia). lia.
Qed.
