(* ===== verification/Mmu.v ===== *)
(** Address spaces: [core/mmu.c], [core/inc/mmu.h] and [as_arch_init].

    The operations that build and take down translations.  They use the page
    allocator through [PageAllocator]; only [mem_free_ppages] and [mem_unmap]
    reach into the root pool itself.  Memory barriers and TLB maintenance have
    no effect on the modelled state. *)

From S2P Require Import Prelude Bit Bitmap Spinlock PhysMem Mem PageTable.

(** ** Data *)

Inductive as_type_t := AS_HYP | AS_VM | AS_HYP_CPY.

#[export] Instance as_type_eq_dec : EqDecision as_type_t.
Proof. solve_decision. Defined.

Definition MAX_VA : Z := 2 ^ 64 - 1.
Definition INVALID_VA : Z := MAX_VA.

Record addr_space := AddrSpace {
  as_pt : page_table;
  as_type : as_type_t;
  asid : Z;
  as_lock : spinlock_t;
}.

Definition set_as_lock (sp : addr_space) (l : spinlock_t) : addr_space :=
  AddrSpace (as_pt sp) (as_type sp) (asid sp) l.

Definition hyp_pt_dscr : page_table_dscr := armv8_pt_dscr.
Definition vm_pt_dscr : page_table_dscr := armv8_pt_s2_dscr.

Definition pt_page_type (pt : page_table) (lvl : Z) : Z :=
  if lvl =? u64 (lvls (dscr pt) - 1) then PTE_PAGE else PTE_SUPERPAGE.

Section mmu.
Context {P : Type} `{PageAllocator P}.

(** The page pool and RAM. *)
Abbreviation state := (P * mem)%type.

(** ** Tables *)

Definition pte_allocable (m : mem) (sp : addr_space) (pte lvl left addr : Z) : outcome bool :=
  if lvl =? u64 (lvls (dscr (as_pt sp)) - 1) then Ok true else
  term ← pt_lvl_terminal (as_pt sp) lvl;
  if negb (term && negb (pte_valid m pte)) then Ok false else
  lvlsz ← pt_lvlsize (as_pt sp) lvl;
  Ok ((lvlsz <=? u64 (left * PAGE_SIZE)) && (addr mod lvlsz =? 0)).

(** [for (i = 0; i < n; i++) pt[i] = v]. *)
Definition fill_table (m : mem) (pt n v : Z) : outcome mem :=
  for_loop (Z.to_nat n) 0 (fun i m => Ok (store64 m (pt + 8 * i) v)) m.

(** NULL is 0. *)
Definition mem_alloc_pt (sp : addr_space) (parent lvl addr : Z) (s : state)
    : outcome (Z * state) :=
  let '(p, m) := s in
  sz ← pt_size (as_pt sp) (lvl + 1);
  let ptsize := NUM_PAGES sz in
  '(ppage, p) ← pa_alloc p ptsize (1 <? ptsize);
  if pp_nr_pages ppage =? 0 then Ok (0, (p, m)) else
  let pte_dflt_val := Z.lor PTE_INVALID (Z.land (load64 m parent) PTE_RSW_MSK) in
  let m := pte_set m parent (pp_base ppage) PTE_TABLE PTE_HYP_FLAGS in
  temp_pt ← pt_get m (as_pt sp) (lvl + 1) addr;
  n ← pt_nentries (as_pt sp) (lvl + 1);
  m ← fill_table m temp_pt n pte_dflt_val;
  Ok (temp_pt, (p, m)).

(** The loop of [mem_expand_pte] over the entries of the new table. *)
Definition fill_expanded (m : mem) (vld rsv : bool) (pte paddr entry nentries lvlsz type flags : Z)
    : outcome mem :=
  '(_, _, _, m) ← while (S (Z.to_nat nentries))
    (fun '(_, entry, _, _) => Ok (entry <? nentries))
    (fun '(pte, entry, paddr, m) =>
       let m := if vld then pte_set m pte paddr type flags
                else if rsv then pte_set_rsw m pte PTE_RSW_RSRV else m in
       Ok (pte + 8, entry + 1, u64 (paddr + lvlsz), m))
    (pte, entry, paddr, m);
  Ok m.

(** The part of [mem_expand_pte] after the new table is in place. *)
Definition expand_entries (sp : addr_space) (lvl pte_val : Z) (vld rsv : bool) (pte : Z) (m : mem)
    : outcome mem :=
  if vld || rsv then
    let lvl := lvl + 1 in
    let paddr := addr_of pte_val in
    entry ← pt_getpteindex (as_pt sp) pte lvl;
    nentries ← pt_nentries (as_pt sp) lvl;
    lvlsz ← pt_lvlsize (as_pt sp) lvl;
    let type := pt_page_type (as_pt sp) lvl in
    let flags := if decide (as_type sp = AS_HYP) then PTE_HYP_FLAGS else PTE_VM_FLAGS in
    fill_expanded m vld rsv pte paddr entry nentries lvlsz type flags
  else Ok m.

Definition mem_expand_pte (sp : addr_space) (va lvl : Z) (s : state) : outcome state :=
  let pt := as_pt sp in
  let m := s.2 in
  if u64 (lvls (dscr pt) - 1) <=? lvl then Ok s else
  pte ← pt_get_pte m pt lvl va;
  if negb (pte =? 0) && negb (pte_table m pt pte lvl) then
    let pte_val := load64 m pte in
    let rsv := pte_check_rsw m pte PTE_RSW_RSRV in
    let vld := pte_valid m pte in
    '(pte, (p, m)) ← mem_alloc_pt sp pte lvl va s;
    m ← expand_entries sp lvl pte_val vld rsv pte m;
    Ok (p, m)
  else Ok s.

(** The [while] of [mem_inflate_pt] at one level. *)
Definition inflate_level (sp : addr_space) (va length lvl : Z) (s : state) : outcome state :=
  lvlsz ← pt_lvlsize (as_pt sp) lvl;
  '(_, s) ← while (S (Z.to_nat (length / lvlsz + 1)))
    (fun '(vaddr, _) => Ok (vaddr <? u64 (va + length)))
    (fun '(vaddr, s) =>
       s ← mem_expand_pte sp vaddr lvl s;
       Ok (u64 (vaddr + lvlsz), s))
    (va, s);
  Ok s.

Definition mem_inflate_pt (sp : addr_space) (va length : Z) (s : state) : outcome state :=
  for_loop (Z.to_nat (u64 (lvls (dscr (as_pt sp)) - 1))) 0
    (fun lvl s => inflate_level sp va length lvl s) s.

(** ** Address spaces *)

(** [as_arch_init] only passes an index to [pt_set_recursive], whose body is
    empty. *)
Definition as_init (type : as_type_t) (id root_pt : Z) (s : state)
    : outcome (addr_space * state) :=
  let dscr := match type with AS_HYP | AS_HYP_CPY => hyp_pt_dscr | AS_VM => vm_pt_dscr end in
  let '(p, m) := s in
  if root_pt =? 0 then
    sz ← pt_size (PageTable 0 dscr) 0;
    let n := NUM_PAGES sz in
    '(pages, p) ← pa_alloc p n true;
    let root_pt := pp_base pages in
    m ← memset m root_pt 0 (u64 (n * PAGE_SIZE));
    Ok (AddrSpace (PageTable root_pt dscr) type id SPINLOCK_INITVAL, (p, m))
  else Ok (AddrSpace (PageTable root_pt dscr) type id SPINLOCK_INITVAL, s).

(** The loop of [mem_map] over the pages. *)
Definition map_pages (sp : addr_space) (vaddr : Z) (pages : ppages) (flags : Z) (m : mem)
    : outcome mem :=
  '(_, m) ← for_loop (Z.to_nat (pp_nr_pages pages)) 0
    (fun i '(vaddr, m) =>
       pte ← pt_get_pte m (as_pt sp) (u64 (lvls (dscr (as_pt sp)) - 1)) vaddr;
       let paddr := u64 (pp_base pages + u64 (i * PAGE_SIZE)) in
       Ok (u64 (vaddr + PAGE_SIZE), pte_set m pte paddr PTE_PAGE flags))
    (vaddr, m);
  Ok m.

(** The [ppages] argument is NULL or points to a block of pages. *)
Definition mem_map (sp : addr_space) (va : Z) (pages : option ppages) (nr_pages flags : Z)
    (s : state) : outcome (addr_space * state) :=
  let vaddr := Z.land va (not64 (PAGE_SIZE - 1)) in
  l ← spin_lock (as_lock sp);
  let '(p, m) := s in
  '(pages, p) ← match pages with
    | Some pp => Ok (pp, p)
    | None =>
        '(temp_ppages, p) ← pa_alloc p nr_pages false;
        if pp_nr_pages temp_ppages <? nr_pages then Halt HError else Ok (temp_ppages, p)
    end;
  '(p, m) ← mem_inflate_pt sp vaddr (u64 (nr_pages * PAGE_SIZE)) (p, m);
  m ← map_pages sp vaddr pages flags m;
  Ok (set_as_lock sp (spin_unlock l), (p, m)).

(** ** Allocation of virtual pages *)

(** The locals of [mem_alloc_vpage] that its loops change. *)
Record vsearch := VSearch {
  v_lvl : Z;
  v_count : Z;
  v_addr : Z;
  v_vpage : Z;
  v_failed : bool;
  v_state : state;
}.

(** The three-way test on one entry; the flag says whether it [break]s. *)
Definition vpage_check (sp : addr_space) (at_ n lvlsze pte : Z) (v : vsearch)
    : outcome (vsearch * bool) :=
  let m := (v_state v).2 in
  if pte_check_rsw m pte PTE_RSW_RSRV ||
     (pte_valid m pte && negb (pte_table m (as_pt sp) pte (v_lvl v))) then
    let brk := negb (at_ =? INVALID_VA) in
    Ok (VSearch (v_lvl v) 0 (v_addr v) INVALID_VA (v_failed v || brk) (v_state v), brk)
  else if negb (pte_valid m pte) then
    ok ← pte_allocable m sp pte (v_lvl v) (u64 (n - v_count v)) (v_addr v);
    if (ok : bool) then
      Ok (VSearch (v_lvl v) (u64 (v_count v + lvlsze / PAGE_SIZE)) (v_addr v)
            (if v_count v =? 0 then v_addr v else v_vpage v) (v_failed v) (v_state v), false)
    else
      '(t, s) ← mem_alloc_pt sp pte (v_lvl v) (v_addr v) (v_state v);
      if t =? 0 then Halt HError
      else Ok (VSearch (v_lvl v) (v_count v) (v_addr v) (v_vpage v) (v_failed v) s, false)
  else Ok (v, false).

(** One iteration of the inner [while]: the state also has [pte], [entry] and
    whether the loop was left. *)
Definition vpage_entry (sp : addr_space) (at_ n nentries lvlsze : Z)
    (x : vsearch * Z * Z * bool) : outcome (vsearch * Z * Z * bool) :=
  let '(v, pte, entry, _) := x in
  '(v, brk) ← vpage_check sp at_ n lvlsze pte v;
  if (brk : bool) then Ok (v, pte, entry, true) else
  let go lvl addr := VSearch lvl (v_count v) addr (v_vpage v) (v_failed v) (v_state v) in
  if pte_table (v_state v).2 (as_pt sp) pte (v_lvl v) then
    Ok (go (v_lvl v + 1) (v_addr v), pte, entry, true)
  else
    let addr := u64 (v_addr v + lvlsze) in
    let entry := entry + 1 in
    Ok (if nentries <=? entry then (go 0 addr, pte + 8, entry, true)
        else (go (v_lvl v) addr, pte + 8, entry, false)).

(** One iteration of the outer [while]; [top] is [MAX_VA]. *)
Definition vpage_outer (sp : addr_space) (at_ n : Z) (v : vsearch) : outcome vsearch :=
  let full_as := v_addr v =? 0 in
  if negb full_as && (u64 (MAX_VA + 1 - v_addr v) / PAGE_SIZE <? n) then
    Ok (VSearch (v_lvl v) (v_count v) (v_addr v) INVALID_VA true (v_state v))
  else
    pte ← pt_get_pte (v_state v).2 (as_pt sp) (v_lvl v) (v_addr v);
    entry ← pt_getpteindex (as_pt sp) pte (v_lvl v);
    nentries ← pt_nentries (as_pt sp) (v_lvl v);
    lvlsze ← pt_lvlsize (as_pt sp) (v_lvl v);
    '(v, _, _, _) ← while (S (S (Z.to_nat nentries)))
      (fun '(v, _, entry, brk) =>
         Ok ((entry <? nentries) && (v_count v <? n) && negb (v_failed v) && negb brk))
      (vpage_entry sp at_ n nentries lvlsze)
      (v, pte, entry, false);
    Ok v.

(** [for (lvl = 0; lvl < lvls; lvl++)], left at the first invalid entry. *)
Fixpoint first_invalid (m : mem) (pt : page_table) (addr : Z) (k : nat) (lvl pte : Z)
    : outcome (Z * Z) :=
  match k with
  | O => Ok (lvl, pte)
  | S k' =>
      pte ← pt_get_pte m pt lvl addr;
      if negb (pte_valid m pte) then Ok (lvl, pte)
      else first_invalid m pt addr k' (lvl + 1) pte
  end.

(** The second loop: reserve the pages that were found. *)
Definition vpage_reserve (sp : addr_space) (vpage n : Z) (m : mem) : outcome mem :=
  '(_, _, m) ← while (S (Z.to_nat n))
    (fun '(count, _, _) => Ok (count <? n))
    (fun '(count, addr, m) =>
       '(lvl, pte) ← first_invalid m (as_pt sp) addr (Z.to_nat (lvls (dscr (as_pt sp)))) 0 0;
       let m := pte_set_rsw m pte PTE_RSW_RSRV in
       sz ← pt_lvlsize (as_pt sp) lvl;
       Ok (u64 (count + sz / PAGE_SIZE), u64 (addr + sz), m))
    (0, vpage, m);
  Ok m.

(** The outer loop of the search makes at most four steps per page when the
    address is given. *)
Definition vpage_fuel (n : Z) : nat := Z.to_nat (4 * n + 5).

Definition mem_alloc_vpage (sp : addr_space) (at_ n : Z) (s : state)
    : outcome (Z * addr_space * state) :=
  let addr := if negb (at_ =? INVALID_VA) then at_ else 0 in
  if (MAX_VA <? addr) || negb (IS_ALIGNED addr PAGE_SIZE) then Ok (INVALID_VA, sp, s) else
  l ← spin_lock (as_lock sp);
  v ← while (vpage_fuel n)
    (fun v => Ok ((v_count v <? n) && negb (v_failed v)))
    (vpage_outer sp at_ n)
    (VSearch 0 0 addr INVALID_VA false s);
  let '(p, m) := v_state v in
  m ← (if negb (v_vpage v =? INVALID_VA) && negb (v_failed v)
       then vpage_reserve sp (v_vpage v) n m else Ok m);
  Ok (v_vpage v, set_as_lock sp (spin_unlock l), (p, m)).

Definition mem_alloc_map (sp : addr_space) (page : option ppages) (at_ nr_pages flags : Z)
    (s : state) : outcome (Z * addr_space * state) :=
  '(address, sp, s) ← mem_alloc_vpage sp at_ nr_pages s;
  if negb (address =? INVALID_VA) then
    '(sp, s) ← mem_map sp address page nr_pages flags s;
    Ok (address, sp, s)
  else Ok (address, sp, s).

Definition mem_alloc_map_dev (sp : addr_space) (at_ pa nr_pages : Z) (s : state)
    : outcome (Z * addr_space * state) :=
  '(address, sp, s) ← mem_alloc_vpage sp at_ nr_pages s;
  if negb (address =? INVALID_VA) then
    let pages := mem_ppages_get pa nr_pages in
    let flags := if decide (as_type sp = AS_HYP) then PTE_HYP_DEV_FLAGS else PTE_VM_DEV_FLAGS in
    '(sp, s) ← mem_map sp address (Some pages) nr_pages flags s;
    Ok (address, sp, s)
  else Ok (address, sp, s).

(** ** [mem_translate] of [arch_mem.c]

    [arm_at_s12e1w] stands for the address translation instruction and the read
    of [PAR_EL1] after it: what it gives for an address depends on the tables in
    memory.  The address space argument is not used by the source. *)

Definition PAR_F : Z := 1.
Definition PAR_PA_MSK : Z := Z.shiftl 0x3ffffff 12.

(** The saved [PAR_EL1] is put back; a failed translation is an [ERROR]. *)
Definition mem_translate (arm_at_s12e1w : mem -> Z -> Z) (m : mem) (va : Z) : outcome Z :=
  let par := arm_at_s12e1w m va in
  if negb (Z.land par PAR_F =? 0) then Halt HError
  else Ok (Z.lor (Z.land par PAR_PA_MSK) (Z.land va (PAGE_SIZE - 1))).

(** ** Filling tables *)

(** Entries [0, n) of the table at [b] are [f 0], [f 1], .., and the bytes
    outside the table are as in [m]. *)
Definition filled (m m' : mem) (b n : Z) (f : Z -> Z) : Prop :=
  bytes_ok m' /\ (forall j, 0 <= j < n -> load64 m' (b + 8 * j) = f j) /\
  (forall j, n <= j -> load64 m' (b + 8 * j) = load64 m (b + 8 * j)) /\
  (forall x, x < b \/ b + 8 * n <= x -> load8 m' x = load8 m x).

Lemma filled_0 m b f : bytes_ok m -> filled m m b 0 f.
Proof using Type. intros Hm. split_and!; try done. lia. Qed.

Lemma filled_S m m' b n f v :
  filled m m' b n f -> 0 <= n -> 0 <= v < 2 ^ 64 -> f n = v ->
  filled m (store64 m' (b + 8 * n) v) b (n + 1) f.
Proof using Type.
  intros (Hb & He & Hr & Ho) Hn Hv Hf. split_and!.
  - by apply store_le_ok.
  - intros j Hj. destruct (decide (j = n)) as [->|].
    + rewrite load64_store64; done.
    + rewrite load64_store64_ne by lia. apply He. lia.
  - intros j Hj. rewrite load64_store64_ne by lia. apply Hr. lia.
  - intros x Hx. unfold store64. rewrite load8_store_le, in_interval_false by lia.
    apply Ho. lia.
Qed.

Lemma fill_table_spec m b v :
  bytes_ok m -> 0 <= v < 2 ^ 64 ->
  exists m', fill_table m b 512 v = Ok m' /\ filled m m' b 512 (fun _ => v).
Proof using Type.
  intros Hm Hv. unfold fill_table.
  destruct (for_loop_rule (fun n m' => filled m m' b n (fun _ => v))
    (fun i m => Ok (store64 m (b + 8 * i) v)) (Z.to_nat 512) 0) with (s := m)
    as (m' & E & Hf); [|by apply filled_0|by exists m'].
  intros j s Hj Hs. eexists; split; [done|]. apply filled_S; done || lia.
Qed.

(** The entries [mem_expand_pte] writes. *)
Definition child_entry (m : mem) (b : Z) (vld rsv : bool) (paddr lvlsz type flags j : Z) : Z :=
  let e := load64 m (b + 8 * j) in
  if vld then pte_make (paddr + j * lvlsz) type flags
  else if rsv then
    Z.lor (Z.land e (not64 PTE_RSW_MSK)) (Z.land PTE_RSW_RSRV PTE_RSW_MSK)
  else e.

Lemma child_entry_range m b vld rsv paddr lvlsz type flags j :
  bytes_ok m -> 0 <= paddr -> 0 <= lvlsz -> 0 <= type -> 0 <= flags -> 0 <= j ->
  0 <= child_entry m b vld rsv paddr lvlsz type flags j < 2 ^ 64.
Proof using Type.
  intros Hm Hp Hl Ht Hf Hj. unfold child_entry.
  pose proof (load_le_range m (b + 8 * j) 8 Hm) as Hr. change (256 ^ Z.of_nat 8) with (2 ^ 64) in Hr.
  destruct vld; [apply pte_make_range; nia|]. destruct rsv; [|done].
  apply lor_range; [lia|apply land_range; done || lia|done].
Qed.

Lemma fill_expanded_spec m b vld rsv paddr lvlsz type flags :
  bytes_ok m -> 0 <= paddr -> 0 <= lvlsz -> paddr + 512 * lvlsz < 2 ^ 64 ->
  0 <= type -> 0 <= flags -> vld || rsv = true ->
  exists m', fill_expanded m vld rsv b paddr 0 512 lvlsz type flags = Ok m' /\
    filled m m' b 512 (child_entry m b vld rsv paddr lvlsz type flags).
Proof using Type.
  intros Hm Hp Hl Hlim Ht Hf Hor. unfold fill_expanded.
  set (f := child_entry m b vld rsv paddr lvlsz type flags).
  edestruct (while_rule
    (fun '(pte, n, pa, m') => 0 <= n <= 512 /\ pte = b + 8 * n /\ pa = paddr + n * lvlsz /\
       filled m m' b n f)
    (fun '(_, n, _, m') => n = 512 /\ filled m m' b n f)
    (fun '(_, n, _, _) => Z.to_nat (512 - n))) as ([[[pte n] pa] m'] & -> & -> & Hfill).
  - intros [[[pte n] pa] m'] (Hn & -> & -> & Hfl). eexists; split; [done|].
    destruct (Z.ltb_spec n 512); [|split; [lia|done]].
    eexists; split; [done|]. cbv beta iota. rewrite u64_small by nia.
    split; [|lia]. split_and!; [lia..|].
    pose proof (child_entry_range m b vld rsv paddr lvlsz type flags n) as Hrg.
    assert ((if vld then pte_set m' (b + 8 * n) (paddr + n * lvlsz) type flags
      else if rsv then pte_set_rsw m' (b + 8 * n) PTE_RSW_RSRV else m') =
      store64 m' (b + 8 * n) (f n)) as ->.
    { unfold f, child_entry. destruct vld; [done|]. destruct rsv; [|done].
      destruct Hfl as (_ & _ & Hrest & _). unfold pte_set_rsw. by rewrite Hrest by lia. }
    apply filled_S; [done|lia|apply Hrg; done || lia|done].
  - split_and!; [lia..|]. by apply filled_0.
  - simpl. lia.
  - mstep. by exists m'.
Qed.

(** ** The invariant of an address space *)

(** No table of the tree lies in memory the allocator may still hand out. *)
Definition tables_sep (p : P) (T : gmap Z Z) : Prop :=
  forall a l x, T !! a = Some l -> a <= x < a + PAGE_SIZE -> ~ pa_owns p x.

Record space_wf (sp : addr_space) (s : state) (T : gmap Z Z) : Prop := {
  sw_pt : pt_wf s.2 (root (as_pt sp)) T;
  sw_dscr : armv8 (as_pt sp);
  sw_inv : pa_inv s.1;
  sw_sep : tables_sep s.1 T;
}.

(** [x] is a byte of one of the tables. *)
Definition in_tables (T : gmap Z Z) (x : Z) : Prop :=
  exists a l, T !! a = Some l /\ a <= x < a + PAGE_SIZE.

(** From [s] to [s'] tables were added to the tree, in memory that was free, and
    nothing else happened: every address translates as before and is mapped or
    reserved as before, its last entry no higher in the tree, and no byte
    outside tables and free memory changed. *)
Record grows (sp : addr_space) (s s' : state) (T T' : gmap Z Z) : Prop := {
  gr_wf : space_wf sp s' T';
  gr_translate va : translate s'.2 (root (as_pt sp)) va = translate s.2 (root (as_pt sp)) va;
  gr_busy va : busy s'.2 (root (as_pt sp)) va = busy s.2 (root (as_pt sp)) va;
  gr_level va : (leaf_at s.2 (root (as_pt sp)) va).1 <= (leaf_at s'.2 (root (as_pt sp)) va).1;
  gr_path va k c : (k <= 3)%nat ->
    path s.2 (root (as_pt sp)) va k = Some c -> path s'.2 (root (as_pt sp)) va k = Some c;
  gr_owns x : pa_owns s'.1 x -> pa_owns s.1 x;
  gr_tables x : in_tables T' x -> in_tables T x \/ pa_owns s.1 x;
  gr_frame x : ~ in_tables T x -> ~ pa_owns s.1 x -> load8 s'.2 x = load8 s.2 x;
}.

Lemma grows_refl sp s T : space_wf sp s T -> grows sp s s T T.
Proof using Type. intros Hs. split; auto. lia. Qed.

Lemma grows_trans sp s1 s2 s3 T1 T2 T3 :
  grows sp s1 s2 T1 T2 -> grows sp s2 s3 T2 T3 -> grows sp s1 s3 T1 T3.
Proof using Type.
  intros [W1 R1 U1 L1 P1 O1 B1 F1] [W2 R2 U2 L2 P2 O2 B2 F2]. split; auto.
  - intros va. by rewrite R2.
  - intros va. by rewrite U2.
  - intros va. specialize (L1 va). specialize (L2 va). lia.
  - intros x Hx. destruct (B2 x Hx); auto.
  - intros x Hn Ho. rewrite F2, F1; try done; [|auto].
    intros Hx. destruct (B1 x Hx); auto.
Qed.

Lemma word_range m a : bytes_ok m -> 0 <= load64 m a < 2 ^ 64.
Proof using Type. apply (load_le_range m a 8). Qed.

(** An entry made without software bits is not marked reserved. *)
Lemma make_not_rsrv a t f : Z.testbit t 55 = false -> Z.testbit f 55 = false ->
  rsrv (pte_make a t f) = false.
Proof using Type.
  intros Ht Hf. unfold rsrv. apply Z.eqb_neq. intros E.
  apply (f_equal (fun z => Z.testbit z 55)) in E. rewrite !Z.land_spec in E.
  rewrite testbit_pte_make in E by lia. cbn [Z.leb Z.ltb Z.compare Pos.compare andb] in E.
  rewrite Ht, Hf in E. done.
Qed.

(** [mem_alloc_pt] below the entry the walk of [va] reaches at level [k]. *)
Section alloc_pt.
Context (sp : addr_space) (p : P) (m : mem) (T : gmap Z Z) (va : Z) (k : nat) (a : Z).
Context (Hs : space_wf sp (p, m) T) (Hk : (k < 3)%nat)
  (Hpath : path m (root (as_pt sp)) va k = Some a)
  (Hleaf : is_table (entry m a va (Z.of_nat k)) = false).

Let i : Z := idx va (Z.of_nat k).
Let pte : Z := a + 8 * i.

Record alloc_pt_post (b : Z) (p' : P) (m' : mem) : Prop := {
  ap_addr : page_addr b;
  ap_pos : 0 < b;
  ap_fresh : T !! b = None;
  ap_inv : pa_inv p';
  ap_bytes : bytes_ok m';
  ap_owned x : b <= x < b + PAGE_SIZE -> pa_owns p x;
  ap_owns x : pa_owns p' x <-> pa_owns p x /\ ~ (b <= x < b + PAGE_SIZE);
  ap_parent : load64 m' pte = pte_make b PTE_TABLE PTE_HYP_FLAGS;
  ap_child j : 0 <= j < 512 -> load64 m' (b + 8 * j) = Z.land (load64 m pte) PTE_RSW_MSK;
  ap_frame x :
    ~ (pte <= x < pte + 8) -> ~ (b <= x < b + PAGE_SIZE) -> load8 m' x = load8 m x;
}.

Lemma parent_level : T !! a = Some (Z.of_nat k).
Proof using Hs Hk Hpath. apply (path_level m (root (as_pt sp)) T (sw_pt _ _ _ Hs) va); [lia|done]. Qed.

Lemma root_page : page_addr (root (as_pt sp)).
Proof using Hs.
  pose proof (sw_pt _ _ _ Hs) as Hwf.
  apply (pw_table _ _ _ Hwf _ 0). apply Hwf.
Qed.

(** Writing the parent entry keeps the path to it and adds the new table. *)
Lemma parent_path b :
  page_addr b -> let m1 := pte_set m pte b PTE_TABLE PTE_HYP_FLAGS in
  path m1 (root (as_pt sp)) va (S k) = Some b.
Proof using All.
  intros Hb m1. pose proof (sw_pt _ _ _ Hs) as Hwf. pose proof parent_level as Ha.
  destruct (pw_table _ _ _ Hwf _ _ Ha) as (_ & (Har & Ham) & _).
  assert (Hne : forall c lc j, T !! c = Some lc -> 0 <= j < 512 -> ~ (c = a /\ j = i) ->
    load64 m1 (c + 8 * j) = load64 m (c + 8 * j)).
  { intros c lc j Hc Hj Hn. apply load64_store64_ne.
    destruct (pw_table _ _ _ Hwf _ _ Hc) as (_ & (_ & Hcm) & _).
    pose proof (idx_range va (Z.of_nat k)).
    destruct (entries_disjoint a c i j) as [[-> ->]|]; try done; unfold pte; tauto || lia. }
  assert (Hp : forall j c, (j <= k)%nat -> path m (root (as_pt sp)) va j = Some c ->
    path m1 (root (as_pt sp)) va j = Some c).
  { induction j as [|j IH]; intros c Hj Hp; [done|].
    apply path_S in Hp as (d & Hd & Ht & ->). apply path_S. exists d.
    split; [apply IH; done || lia|].
    assert (entry m1 d va (Z.of_nat j) = entry m d va (Z.of_nat j)) as ->; [|done].
    pose proof (path_level m _ T Hwf va j d ltac:(lia) Hd) as Hlj.
    apply (Hne d (Z.of_nat j)); [done|apply idx_range|]. intros [-> _].
    assert (Z.of_nat j = Z.of_nat k) by congruence. lia. }
  apply path_S. exists a. split; [by apply Hp|]. unfold entry. fold i. fold pte.
  unfold m1, pte_set. rewrite load64_store64 by (apply pte_make_range; destruct Hb; done || lia).
  split; [|by rewrite addr_of_make]. unfold is_table. by rewrite type_of_make.
Qed.

Lemma mem_alloc_pt_spec :
  mem_alloc_pt sp pte (Z.of_nat k) va (p, m) = Halt HError \/
  exists b p' m', mem_alloc_pt sp pte (Z.of_nat k) va (p, m) = Ok (b, (p', m')) /\
    alloc_pt_post b p' m'.
Proof using All.
  pose proof Hs as [Hwf Hpt Hinv Hsep]. simpl in Hwf, Hinv, Hsep. unfold mem_alloc_pt.
  rewrite pt_size_Ok by (done || lia). mstep. change (NUM_PAGES PAGE_SIZE) with 1. change (1 <? 1) with false.
  destruct (pa_alloc p 1 false) as [[pp p']|h] eqn:E.
  2: { left. mstep. f_equal. apply (pa_alloc_halt p 1 false h); done || lia. }
  right. destruct (pa_alloc_Ok p 1 false pp p' Hinv ltac:(lia) E)
    as (Hinv' & Hnr & Hpos & Hal & Hlim & Hown). mstep. rewrite Hnr. change (1 =? 0) with false.
  cbv iota. set (b := pp_base pp) in *. rewrite Z.mul_1_l in *.
  assert (Hb : page_addr b) by (split; [unfold PAGE_SIZE in Hlim; lia|done]).
  pose proof (parent_path b Hb) as Hp1. simpl in Hp1.
  set (m1 := pte_set m pte b PTE_TABLE PTE_HYP_FLAGS) in *.
  assert (Hm1 : bytes_ok m1) by (apply store_le_ok, Hwf).
  replace (Z.of_nat k + 1) with (Z.of_nat (S k)) by lia.
  rewrite (pt_get_path m1 (as_pt sp) va (S k) b) by (done || lia || apply root_page). mstep.
  rewrite pt_nentries_Ok by (done || lia). mstep.
  pose proof (word_range m pte (pw_bytes _ _ _ Hwf)) as Hw.
  destruct (fill_table_spec m1 b (Z.lor PTE_INVALID (Z.land (load64 m pte) PTE_RSW_MSK)))
    as (m' & -> & Hb' & Hc & _ & Ho); [done|by apply land_range|].
  mstep. exists b, p', m'. split; [done|].
  assert (Hfresh : T !! b = None).
  { destruct (T !! b) as [l|] eqn:El; [exfalso|done].
    apply (Hsep b l b El); [unfold PAGE_SIZE; lia|].
    apply (proj1 (Hown b)). unfold PAGE_SIZE; lia. }
  pose proof (pw_table _ _ _ Hwf _ _ parent_level) as (_ & (_ & Ham) & _).
  pose proof (idx_range va (Z.of_nat k)) as Hir. fold i in Hir.
  assert (Hdis : forall x, pte <= x < pte + 8 -> ~ (b <= x < b + PAGE_SIZE)).
  { intros x Hx Hbx. apply (Hsep a _ x parent_level); [unfold pte, PAGE_SIZE in *; lia|].
    by apply (proj1 (Hown x)). }
  assert (Hfr : forall x, ~ (b <= x < b + PAGE_SIZE) -> load8 m' x = load8 m1 x).
  { intros x Hx. apply Ho. unfold PAGE_SIZE in *. lia. }
  split; try done; try (intros x; apply Hown).
  - transitivity (load64 m1 pte).
    + apply load_le_ext. intros x Hx. apply Hfr, Hdis. simpl in Hx. lia.
    + apply load64_store64, pte_make_range; destruct Hb; done || lia.
  - intros x Hx Hbx. rewrite Hfr by done. unfold m1, pte_set, store64.
    rewrite load8_store_le, in_interval_false by (simpl; lia). done.
Qed.

(** The table [mem_alloc_pt] added, once its entries are filled with [f]. *)
Section filled_table.
Context (b : Z) (p' : P) (m1 m2 : mem) (f : Z -> Z).
Context (Hpost : alloc_pt_post b p' m1) (Hfill : filled m1 m2 b 512 f).
Context (Hchild : forall j, 0 <= j < 512 -> Z.of_nat k + 1 < 3 ->
  is_table (f j) = false /\
  (is_block (f j) = true -> addr_of (f j) mod 2 ^ shift_of (Z.of_nat k + 1) = 0)).
Context (Hrep : forall va',
  leaf (Z.of_nat k + 1) (f (idx va' (Z.of_nat k + 1))) va' = leaf (Z.of_nat k) (load64 m pte) va').
Context (Hbusy : forall j, 0 <= j < 512 -> busy_entry (f j) = busy_entry (load64 m pte)).

Lemma filled_frame x :
  ~ (pte <= x < pte + 8) -> ~ (b <= x < b + PAGE_SIZE) -> load8 m2 x = load8 m x.
Proof using All.
  intros Hx Hb. rewrite <- (ap_frame _ _ _ Hpost x) by done. apply Hfill.
  unfold PAGE_SIZE in Hb. lia.
Qed.

(** Tables of the tree and the new one share no byte. *)
Lemma table_outside c lc x : T !! c = Some lc -> c <= x < c + PAGE_SIZE -> ~ (b <= x < b + PAGE_SIZE).
Proof using All.
  intros Hc Hx Hb. apply (sw_sep _ _ _ Hs c lc x Hc Hx). by apply (ap_owned _ _ _ Hpost).
Qed.

Lemma filled_added : table_added m m2 T a (Z.of_nat k) i b.
Proof using All.
  pose proof (idx_range va (Z.of_nat k)) as Hir. fold i in Hir.
  assert (Epte : pte = a + 8 * i) by reflexivity.
  pose proof (sw_pt _ _ _ Hs) as Hwf. simpl in Hwf.
  pose proof (pw_table _ _ _ Hwf _ _ parent_level) as (_ & (_ & Ham) & _).
  pose proof Hpost as [Hba Hpos Hfresh Hinv Hb1 Hown Howns Hpar Hch Hfr].
  assert (Hpte : load64 m2 pte = load64 m1 pte).
  { apply load_le_ext. intros x Hx. simpl in Hx. apply Hfill.
    pose proof (table_outside a _ (pte + x) parent_level). unfold PAGE_SIZE in *. lia. }
  split; auto using parent_level; try lia.
  - apply Hfill.
  - intros c lc j Hc Hj Hn. apply load_le_ext. intros x Hx. simpl in Hx.
    pose proof (pw_table _ _ _ Hwf _ _ Hc) as (_ & (_ & Hcm) & _).
    apply filled_frame.
    + destruct (entries_disjoint a c i j) as [[E1 E2]|]; try done;
        [exfalso; apply Hn; by split|lia].
    + apply (table_outside c lc); [done|]. unfold PAGE_SIZE. lia.
  - rewrite <- Epte, Hpte, Hpar. unfold is_table. by rewrite type_of_make.
  - rewrite <- Epte, Hpte, Hpar. by apply addr_of_make.
  - rewrite <- Epte, Hpte, Hpar. by apply make_not_rsrv.
  - intros j Hj Hlt. pose proof Hfill as (_ & He & _). rewrite He by done. by apply Hchild.
Qed.

Lemma filled_grows :
  grows sp (p, m) (p', m2) T (<[b := Z.of_nat k + 1]> T) /\
  path m2 (root (as_pt sp)) va (S k) = Some b.
Proof using All.
  pose proof filled_added as Hadd. pose proof (sw_pt _ _ _ Hs) as Hwf. simpl in Hwf.
  pose proof (added_wf _ _ _ _ _ _ _ _ Hwf Hadd) as Hwf2.
  split; [|by apply (added_through m m2 (root (as_pt sp)) T a (Z.of_nat k) i b Hwf Hadd va k)].
  assert (Htab : forall x, in_tables (<[b := Z.of_nat k + 1]> T) x ->
    in_tables T x \/ b <= x < b + PAGE_SIZE).
  { intros x (c & lc & Hc & Hx). destruct (decide (b = c)) as [<-|]; [by right|].
    rewrite lookup_insert_ne in Hc by done. left. by exists c, lc. }
  assert (Hleafs : forall va', leaf_at m2 (root (as_pt sp)) va' = leaf_at m (root (as_pt sp)) va' \/
    (leaf_at m (root (as_pt sp)) va' = (Z.of_nat k, load64 m pte) /\
     leaf_at m2 (root (as_pt sp)) va' = (Z.of_nat k + 1, f (idx va' (Z.of_nat k + 1))))).
  { intros va'. pose proof Hfill as (_ & He & _). rewrite <- (He (idx va' _)) by apply idx_range.
    apply (added_leaf m m2 (root (as_pt sp)) T a (Z.of_nat k) i b Hwf Hadd). }
  split; simpl.
  - split; [done|apply Hs|apply Hpost|]. intros c lc x Hc Hx Ho.
    apply (ap_owns _ _ _ Hpost) in Ho as [Ho Hn].
    destruct (Htab x) as [(d & ld & Hd & Hxd)|]; [by exists c, lc| |done].
    by apply (sw_sep _ _ _ Hs d ld x).
  - intros va'. rewrite !translate_leaf_at. destruct (Hleafs va') as [->|[-> ->]]; [done|]. apply Hrep.
  - intros va'. unfold busy. destruct (Hleafs va') as [->|[-> ->]]; [done|]. apply Hbusy, idx_range.
  - intros va'. destruct (Hleafs va') as [->|[-> ->]]; simpl; lia.
  - intros va' k' c. by apply (added_path m m2 (root (as_pt sp)) T a (Z.of_nat k) i b Hwf Hadd).
  - intros x Hx. by apply (ap_owns _ _ _ Hpost) in Hx as [Hx _].
  - intros x Hx. destruct (Htab x Hx); [by left|right]. by apply (ap_owned _ _ _ Hpost).
  - intros x Hn Ho. pose proof (idx_range va (Z.of_nat k)) as Hir. fold i in Hir.
    assert (Epte : pte = a + 8 * i) by reflexivity. apply filled_frame.
    + intros Hx. apply Hn. exists a, (Z.of_nat k). split; [apply parent_level|].
      unfold PAGE_SIZE. lia.
    + intros Hx. apply Ho. by apply (ap_owned _ _ _ Hpost).
Qed.

End filled_table.

End alloc_pt.

(** ** [mem_expand_pte] *)

(** An entry without type bits, and one with only software bits. *)
Lemma rsw_only e i : 0 <= i < 55 -> Z.testbit (Z.land e PTE_RSW_MSK) i = false.
Proof using Type.
  intros Hi. rewrite Z.land_spec. change PTE_RSW_MSK with (Z.shiftl (Z.ones 4) 55).
  rewrite Z.shiftl_spec, (Z.testbit_neg_r _ (i - 55)) by lia. apply andb_false_r.
Qed.

Lemma invalid_kinds e : Z.testbit e 0 = false -> is_table e = false /\ is_block e = false.
Proof using Type. intros He. by rewrite is_table_bits, is_block_bits, He. Qed.

(** Reserving an entry that was never valid leaves it invalid. *)
Lemma reserved_invalid e :
  0 <= e < 2 ^ 64 -> Z.testbit e 0 = false ->
  Z.testbit (Z.lor (Z.land e (not64 PTE_RSW_MSK)) (Z.land PTE_RSW_RSRV PTE_RSW_MSK)) 0 = false.
Proof using Type. intros He H0. rewrite rsw_bits by lia. done. Qed.

Lemma space_flags sp :
  let flags := if decide (as_type sp = AS_HYP) then PTE_HYP_FLAGS else PTE_VM_FLAGS in
  0 <= flags /\ Z.land flags 3 = 0.
Proof using Type. simpl. by destruct (decide _). Qed.

Lemma pt_page_type_eq pt l : armv8 pt -> pt_page_type pt l = part_type l.
Proof using Type. intros Hpt. unfold pt_page_type. by rewrite last_level. Qed.

(** The walk of [va] has a table at every level up to [k]. *)
Definition reaches (sp : addr_space) (s : state) (va : Z) (k : nat) : Prop :=
  exists a, path s.2 (root (as_pt sp)) va k = Some a.

Section expand.
Context (sp : addr_space) (p : P) (m : mem) (T : gmap Z Z) (va : Z) (k : nat) (a : Z).
Context (Hs : space_wf sp (p, m) T) (Hk : (k < 3)%nat)
  (Hpath : path m (root (as_pt sp)) va k = Some a)
  (Hleaf : is_table (entry m a va (Z.of_nat k)) = false).

Let pte : Z := a + 8 * idx va (Z.of_nat k).
Let l1 : Z := Z.of_nat k + 1.

(** The entries written over a valid entry, a block. *)
Lemma expand_block m1 b flags :
  Z.testbit (load64 m pte) 0 = true -> Z.land flags 3 = 0 ->
  let f := child_entry m1 b true (pte_check_rsw m pte PTE_RSW_RSRV) (addr_of (load64 m pte))
    (2 ^ shift_of l1) (part_type l1) flags in
  (forall j, 0 <= j < 512 -> l1 < 3 ->
     is_table (f j) = false /\ (is_block (f j) = true -> addr_of (f j) mod 2 ^ shift_of l1 = 0)) /\
  (forall va', leaf l1 (f (idx va' l1)) va' = leaf (Z.of_nat k) (load64 m pte) va') /\
  (forall j, 0 <= j < 512 -> busy_entry (f j) = busy_entry (load64 m pte)).
Proof using Hs Hk Hpath Hleaf.
  intros Hv Hfl f. pose proof (sw_pt _ _ _ Hs) as Hwf. simpl in Hwf.
  pose proof (word_range m pte (pw_bytes _ _ _ Hwf)) as Hw.
  assert (Hb : is_block (load64 m pte) = true).
  { unfold entry in Hleaf. fold pte in Hleaf. rewrite is_table_bits, Hv, andb_true_l in Hleaf.
    by rewrite is_block_bits, Hv, Hleaf. }
  destruct (pw_block _ _ _ Hwf a (Z.of_nat k) (idx va (Z.of_nat k))) as [Hl Hm];
    [by apply (path_level m (root (as_pt sp)) T Hwf va); [lia|]|lia|apply idx_range|done|].
  fold pte in Hm. pose proof (addr_of_page (load64 m pte) ltac:(lia)) as Ha.
  split; [|split].
  - intros j Hj Hlt. unfold f, child_entry.
    destruct (block_part (Z.of_nat k) (addr_of (load64 m pte)) j) as [Hpa Hpm]; [lia|done..|].
    fold l1 in Hpa, Hpm. unfold is_table, part_type. destruct (Z.eqb_spec l1 3); [lia|].
    rewrite type_of_make, addr_of_make by done. done.
  - intros va'. unfold f, child_entry. apply block_part_leaf; done || lia.
  - intros j Hj. unfold f, child_entry, busy_entry. rewrite Hv, testbit_pte_make by lia.
    unfold part_type. by destruct (l1 =? 3).
Qed.

(** Whatever is written over an invalid entry is invalid. *)
Lemma expand_invalid m1 b rsv paddr flags :
  rsv = rsrv (load64 m pte) -> bytes_ok m1 -> Z.testbit (load64 m pte) 0 = false ->
  (forall j, 0 <= j < 512 -> load64 m1 (b + 8 * j) = Z.land (load64 m pte) PTE_RSW_MSK) ->
  let f := child_entry m1 b false rsv paddr (2 ^ shift_of l1) (part_type l1) flags in
  (forall j, 0 <= j < 512 -> l1 < 3 ->
     is_table (f j) = false /\ (is_block (f j) = true -> addr_of (f j) mod 2 ^ shift_of l1 = 0)) /\
  (forall va', leaf l1 (f (idx va' l1)) va' = leaf (Z.of_nat k) (load64 m pte) va') /\
  (forall j, 0 <= j < 512 -> busy_entry (f j) = busy_entry (load64 m pte)).
Proof using Hk.
  intros Hrsv Hm1 Hv Hdf f.
  assert (H0 : forall j, 0 <= j < 512 -> Z.testbit (f j) 0 = false).
  { intros j Hj. unfold f, child_entry. pose proof (word_range m1 (b + 8 * j) Hm1) as Hw.
    rewrite Hdf in * by done. destruct rsv; [|by rewrite rsw_only by lia].
    apply reserved_invalid; [done|]. by apply rsw_only. }
  split; [|split].
  - intros j Hj _. destruct (invalid_kinds _ (H0 j Hj)) as [-> ->]. done.
  - intros va'. rewrite !leaf_invalid; [done|done|]. apply H0, idx_range.
  - intros j Hj. unfold busy_entry. rewrite H0, Hv, <- Hrsv by done. simpl.
    unfold f, child_entry. rewrite Hdf by done. destruct rsv; [|by rewrite rsrv_land].
    unfold rsrv. by rewrite rsw_set, Z.eqb_refl.
Qed.

(** The table as [expand_entries] leaves it. *)
Definition expanded (m1 m2 : mem) (b : Z) : Prop :=
  exists f, filled m1 m2 b 512 f /\
    (forall j, 0 <= j < 512 -> l1 < 3 -> is_table (f j) = false /\
       (is_block (f j) = true -> addr_of (f j) mod 2 ^ shift_of l1 = 0)) /\
    (forall va', leaf l1 (f (idx va' l1)) va' = leaf (Z.of_nat k) (load64 m pte) va') /\
    (forall j, 0 <= j < 512 -> busy_entry (f j) = busy_entry (load64 m pte)).

Lemma expand_entries_spec m1 b rsv :
  rsv = pte_check_rsw m pte PTE_RSW_RSRV -> bytes_ok m1 -> page_addr b ->
  (forall j, 0 <= j < 512 -> load64 m1 (b + 8 * j) = Z.land (load64 m pte) PTE_RSW_MSK) ->
  exists m2, expand_entries sp (Z.of_nat k) (load64 m pte) (Z.testbit (load64 m pte) 0) rsv b m1
    = Ok m2 /\ expanded m1 m2 b.
Proof using Hs Hk Hpath Hleaf.
  intros Hrsv Hm1 Hb Hdf. pose proof (sw_pt _ _ _ Hs) as Hwf. pose proof (sw_dscr _ _ _ Hs) as Hpt.
  unfold expand_entries. destruct (space_flags sp) as [Hf0 Hf3].
  destruct (Z.testbit (load64 m pte) 0 || rsv) eqn:Eor.
  - fold l1. pose proof (pt_getpteindex_Ok (as_pt sp) Hpt b 0 l1) as Hix.
    rewrite Z.mul_0_r, Z.add_0_r in Hix.
    rewrite Hix, pt_nentries_Ok, pt_lvlsize_Ok, pt_page_type_eq
      by (done || (unfold l1; lia) || apply Hb). mstep.
    destruct (addr_of_page (load64 m pte)) as [[Hp0 Hp1] _]; [apply (word_range m pte), Hwf|].
    assert (Hsz : 0 <= 2 ^ shift_of l1 <= 2 ^ 30).
    { split; [apply Z.pow_nonneg; lia|]. apply Z.pow_le_mono_r; unfold shift_of, l1; lia. }
    assert (Hpt0 : 0 <= part_type l1) by (unfold part_type; by destruct (_ =? 3)).
    edestruct (fill_expanded_spec m1 b (Z.testbit (load64 m pte) 0) rsv
      (addr_of (load64 m pte)) (2 ^ shift_of l1) (part_type l1)) as (m2 & E2 & Hfill);
      [done|lia|lia|lia|done|exact Hf0|done|].
    exists m2. split; [exact E2|]. destruct (Z.testbit (load64 m pte) 0) eqn:Ev.
    + eexists. split; [exact Hfill|]. rewrite Hrsv. apply (expand_block m1 b _ Ev Hf3).
    + eexists. split; [exact Hfill|]. by apply expand_invalid.
  - apply orb_false_iff in Eor as [Ev Er]. exists m1. split; [done|].
    exists (child_entry m1 b false false 0 (2 ^ shift_of l1) (part_type l1) 0).
    split; [by split_and!|]. apply expand_invalid; try done. by rewrite <- Er.
Qed.

Lemma expand_leaf :
  mem_expand_pte sp va (Z.of_nat k) (p, m) = Halt HError \/
  exists s' T', mem_expand_pte sp va (Z.of_nat k) (p, m) = Ok s' /\
    grows sp (p, m) s' T T' /\ reaches sp s' va (S k).
Proof using All.
  pose proof Hs as [Hwf Hpt Hinv Hsep]. cbn [fst snd] in Hwf.
  pose proof (root_page sp p m T Hs) as Hroot.
  pose proof (pw_table _ _ _ Hwf a _ (path_level m _ T Hwf va k a ltac:(lia) Hpath)) as (_ & _ & Ha).
  pose proof (idx_range va (Z.of_nat k)) as Hir.
  unfold mem_expand_pte. rewrite last_level by done. destruct (Z.leb_spec 3 (Z.of_nat k)); [lia|].
  cbn [snd]. rewrite (pt_walk_path m (as_pt sp) va k a) by (done || lia || apply Hwf). mstep.
  fold pte. destruct (Z.eqb_spec pte 0); [unfold pte in *; lia|].
  assert (pte_table m (as_pt sp) pte (Z.of_nat k) = false) as ->.
  { unfold pte_table. rewrite last_level by done. by destruct (_ =? 3). }
  cbn [negb andb]. unfold pte_valid. rewrite valid_bit.
  destruct (mem_alloc_pt_spec sp p m T va k a Hs Hk Hpath Hleaf) as [E|(b & p' & m1 & E & Hpost)];
    fold pte in E; rewrite E; mstep; [by left|right].
  destruct (expand_entries_spec m1 b _ eq_refl) as (m2 & -> & f & Hfill & Hc & Hr & Hbs);
    [apply Hpost..|]. mstep.
  destruct (filled_grows sp p m T va k a Hs Hk Hpath Hleaf b p' m1 m2 f) as [Hg Hp]; try done.
  exists (p', m2), (<[b := Z.of_nat k + 1]> T). split; [done|]. split; [done|]. by exists b.
Qed.

End expand.

(** Expanding the entry for [va] at level [k] grows the tree so that the walk of
    [va] gets one level further. *)
Lemma mem_expand_pte_spec sp s T va k :
  space_wf sp s T -> (k < 3)%nat -> reaches sp s va k ->
  or_error (fun s' => exists T', grows sp s s' T T' /\ reaches sp s' va (S k))
    (mem_expand_pte sp va (Z.of_nat k) s).
Proof using Type.
  intros Hs Hk [a Ha]. destruct s as [p m]. cbn [snd] in Ha.
  destruct (is_table (entry m a va (Z.of_nat k))) eqn:Et.
  2: { destruct (expand_leaf sp p m T va k a Hs Hk Ha Et) as [->|(s' & T' & -> & ?)];
       simpl; eauto. }
  assert (mem_expand_pte sp va (Z.of_nat k) (p, m) = Ok (p, m)) as ->.
  { pose proof Hs as [Hwf Hpt _ _]. cbn [snd] in Hwf. unfold mem_expand_pte.
    rewrite last_level by done. destruct (Z.leb_spec 3 (Z.of_nat k)); [lia|]. cbn [snd].
    rewrite (pt_walk_path m (as_pt sp) va k a)
      by (done || lia || apply Hwf || apply (root_page sp p m T Hs)). mstep.
    unfold pte_table. rewrite last_level by done. destruct (Z.eqb_spec (Z.of_nat k) 3); [lia|].
    unfold is_table, entry in Et. change PTE_TYPE_MSK with 3. change PTE_TABLE with 3.
    rewrite Et. by rewrite andb_false_r. }
  exists T. split; [by apply grows_refl|]. eexists. apply path_S. exists a. done.
Qed.

Lemma reaches_grows sp s s' T T' va k :
  grows sp s s' T T' -> (k <= 3)%nat -> reaches sp s va k -> reaches sp s' va k.
Proof using Type. intros Hg Hk [a Ha]. exists a. by apply (gr_path _ _ _ _ _ Hg). Qed.

(** The walk to level [k] only looks at the indices above it. *)
Lemma path_same m r x y k :
  (forall j, 0 <= j < Z.of_nat k -> idx x j = idx y j) -> path m r x k = path m r y k.
Proof using Type.
  induction k as [|k IH]; intros Hi; [done|]. simpl. rewrite IH by (intros; apply Hi; lia).
  unfold entry. by rewrite Hi by lia.
Qed.

Lemma reaches_same sp s x y k :
  0 <= x < 2 ^ 48 -> 0 <= y < 2 ^ 48 -> (k < 3)%nat ->
  x / 2 ^ shift_of (Z.of_nat k) = y / 2 ^ shift_of (Z.of_nat k) ->
  reaches sp s x (S k) -> reaches sp s y (S k).
Proof using Type.
  intros Hx Hy Hk Hq [a Ha]. exists a. rewrite <- Ha. apply path_same. intros j Hj.
  symmetry. apply (proj2 (idx_prefix x y (Z.of_nat k) Hx Hy ltac:(lia)) Hq). lia.
Qed.

(** ** [mem_inflate_pt] *)

Section inflate.
Context (sp : addr_space) (va len : Z).
Context (Hva : 0 <= va) (Hlen : 0 <= len) (Htop : va + len <= 2 ^ 48).

Let size (k : nat) : Z := 2 ^ shift_of (Z.of_nat k).

Lemma size_pos k : (k <= 3)%nat -> 0 < size k <= 2 ^ 39.
Proof using Type.
  intros Hk. unfold size. split; [apply Z.pow_pos_nonneg; unfold shift_of; lia|].
  apply Z.pow_le_mono_r; unfold shift_of; lia.
Qed.

Lemma inflate_level_spec s T k :
  space_wf sp s T -> (k < 3)%nat ->
  (forall x, va <= x < va + len -> reaches sp s x k) ->
  or_error (fun s' => exists T', grows sp s s' T T' /\
      forall j, 0 <= j -> j * size k < len -> reaches sp s' (va + j * size k) (S k))
    (inflate_level sp va len (Z.of_nat k) s).
Proof using All.
  intros Hs Hk Hr. pose proof (size_pos k ltac:(lia)) as Hsz. unfold inflate_level.
  rewrite pt_lvlsize_Ok by (apply Hs || lia). mstep. fold (size k).
  apply (or_error_bind (fun '(_, s') => exists T', grows sp s s' T T' /\
      forall j, 0 <= j -> j * size k < len -> reaches sp s' (va + j * size k) (S k)));
    [|by intros [v s']].
  apply (while_or_error
    (fun '(v, s') => exists n T', 0 <= n /\ v = va + n * size k /\ grows sp s s' T T' /\
       forall j, 0 <= j < n -> j * size k < len -> reaches sp s' (va + j * size k) (S k)) _
    (fun '(v, _) => Z.to_nat (len / size k + 1 - (v - va) / size k))).
  - intros [v s'] (n & T' & Hn & -> & Hg & Hdone). eexists; split; [done|].
    rewrite u64_small by lia. destruct (Z.ltb_spec (va + n * size k) (va + len)) as [Hlt|Hge].
    + assert (Hx : reaches sp s' (va + n * size k) k).
      { apply (reaches_grows _ _ _ _ _ _ _ Hg); [lia|]. apply Hr. nia. }
      apply (or_error_bind _ _ _ _ (mem_expand_pte_spec sp s' T' _ k (gr_wf _ _ _ _ _ Hg) Hk Hx)).
      intros s2 (T2 & Hg2 & Hr2). simpl. rewrite u64_small by nia. split.
      * exists (n + 1), T2. split_and!; [lia|lia|by apply (grows_trans _ _ _ _ _ _ _ Hg)|].
        intros j Hj Hjl. destruct (decide (j = n)) as [->|]; [done|].
        apply (reaches_grows _ _ _ _ _ _ _ Hg2); [lia|]. apply Hdone; lia.
      * assert (Hq : forall i, (va + i * size k - va) / size k = i).
        { intros i. replace (va + i * size k - va) with (i * size k) by lia.
          apply Z.div_mul. lia. }
        replace (va + n * size k + size k) with (va + (n + 1) * size k) by lia. rewrite !Hq.
        assert (n <= len / size k) by (apply Z.div_le_lower_bound; lia). lia.
    + exists T'. split; [done|]. intros j Hj Hjl. apply Hdone; [|done]. nia.
  - exists 0, T. split_and!; [lia|lia|by apply grows_refl|]. lia.
  - rewrite Z.sub_diag, Z.div_0_l by lia. pose proof (Z.div_pos len (size k)). lia.
Qed.

(** What lets the walk of every address of the range reach level 3 afterwards:
    the stride of level [k], which starts at [va] itself, lands in the
    block of [x] before the range ends, or the table below is there already. *)
Definition covered (s : state) : Prop :=
  forall x k, va <= x < va + len -> (k < 3)%nat ->
    (x / size k - va / size k) * size k < len \/ reaches sp s x (S k).

Lemma mem_inflate_pt_spec s T :
  space_wf sp s T -> covered s ->
  or_error (fun s' => exists T', grows sp s s' T T' /\
      forall x, va <= x < va + len -> reaches sp s' x 3)
    (mem_inflate_pt sp va len s).
Proof using All.
  intros Hs Hcov. unfold mem_inflate_pt. rewrite last_level by apply Hs.
  change (Z.to_nat 3) with 3%nat.
  eapply or_error_mono.
  - apply (for_or_error (fun l s' => exists k T', l = Z.of_nat k /\ grows sp s s' T T' /\
      forall x, va <= x < va + len -> reaches sp s' x k) _ 3 0).
    + intros l s' Hl (k & T' & -> & Hg & Hr).
      eapply or_error_mono; [apply (inflate_level_spec s' T' k (gr_wf _ _ _ _ _ Hg)); [lia|done]|].
      intros s2 (T2 & Hg2 & Hp). exists (S k), T2.
      split; [lia|]. split; [by apply (grows_trans _ _ _ _ _ _ _ Hg)|]. intros x Hx.
      pose proof (size_pos k ltac:(lia)) as Hsz.
      destruct (Hcov x k Hx ltac:(lia)) as [Hhit|Hthere].
      2: { apply (reaches_grows _ _ _ _ _ _ _ Hg2); [lia|].
           by apply (reaches_grows _ _ _ _ _ _ _ Hg); [lia|]. }
      set (j := x / size k - va / size k) in *.
      assert (0 <= j).
      { pose proof (Z.div_le_mono va x (size k) ltac:(lia) ltac:(lia)). unfold j. lia. }
      apply (reaches_same sp s2 (va + j * size k)); [nia|lia|lia| |by apply Hp].
      fold (size k). rewrite Z.div_add by lia. unfold j. lia.
    + exists 0%nat, T. split; [done|]. split; [by apply grows_refl|].
      intros x Hx. by exists (root (as_pt sp)).
  - intros s' (k & T' & E & Hg & Hr). exists T'. split; [done|].
    assert (k = 3)%nat as -> by lia. done.
Qed.

End inflate.

(** ** [mem_map] *)

(** Flags that leave the type bits alone. *)
Definition flags_ok (flags : Z) : Prop := 0 <= flags /\ Z.land flags 3 = 0.

Lemma page_quotient v x : v mod PAGE_SIZE = 0 -> x / 2 ^ 12 = v / 2 ^ 12 <-> v <= x < v + PAGE_SIZE.
Proof using Type.
  unfold PAGE_SIZE. change (2 ^ 12) with 0x1000. intros Hv. divmod v 0x1000. divmod x 0x1000. lia.
Qed.

(** Writing the level-3 entry of page [v]. *)
Lemma page_write sp p m T v pa flags :
  space_wf sp (p, m) T -> 0 <= v -> v + PAGE_SIZE <= 2 ^ 48 -> v mod PAGE_SIZE = 0 ->
  page_addr pa -> flags_ok flags -> reaches sp (p, m) v 3 ->
  let r := root (as_pt sp) in
  exists pte, pt_get_pte m (as_pt sp) 3 v = Ok pte /\
  let m' := pte_set m pte pa PTE_PAGE flags in
  space_wf sp (p, m') T /\
  (forall x k, (k <= 3)%nat -> path m' r x k = path m r x k) /\
  (forall x, 0 <= x < 2 ^ 48 ->
     translate m' r x =
       (if (v <=? x) && (x <? v + PAGE_SIZE) then Some (pa + (x - v)) else translate m r x) /\
     busy m' r x = (v <=? x) && (x <? v + PAGE_SIZE) || busy m r x) /\
  (forall x, ~ in_tables T x -> load8 m' x = load8 m x).
Proof using Type.
  intros Hs Hv Htop Hal Hpa [Hf0 Hf3] [a Ha] r. cbn [snd] in Ha. fold r in Ha.
  pose proof Hs as [Hwf Hpt Hinv Hsep]. cbn [snd] in Hwf. fold r in Hwf.
  pose proof (path_level m r T Hwf v 3 a ltac:(lia) Ha) as Hl.
  pose proof (idx_range v 3) as Hir.
  pose proof (pte_make_range pa PTE_PAGE flags ltac:(apply Hpa) ltac:(done) Hf0) as Hmk.
  exists (a + 8 * idx v 3). split.
  { apply (pt_walk_path m (as_pt sp) v 3 a); done || lia || apply Hwf || apply (root_page sp p m T Hs). }
  intros m'.
  pose proof (leaf_write_wf m r T a 3 (idx v 3) _ Hwf Hl Hir Hmk ltac:(lia) ltac:(lia)) as Hwf'.
  split; [by split|]. split.
  { intros x k Hk. by apply (leaf_write_path m r T a 3 (idx v 3)); try done; lia. }
  split.
  - intros x Hx. destruct (leaf_write_leaf m r T a 3 (idx v 3)
      (pte_make pa PTE_PAGE flags) Hwf Hl Hir Hmk ltac:(lia) ltac:(lia) x) as [Hthru Hnot].
    change (store64 m (a + 8 * idx v 3) (pte_make pa PTE_PAGE flags)) with m' in Hthru, Hnot.
    unfold busy. rewrite !translate_leaf_at.
    assert (Hgo : goes_through m r a 3 (idx v 3) x <-> v <= x < v + PAGE_SIZE).
    { rewrite <- page_quotient by done. change 12 with (shift_of 3).
      rewrite <- (idx_prefix x v 3) by (unfold PAGE_SIZE in *; lia). split.
      - intros [Hp Hx3] j Hj. destruct (decide (j = 3)) as [->|]; [done|].
        apply (path_inj m r T Hwf x v 3 a); done || lia.
      - intros Hi. split; [|by apply Hi]. rewrite <- Ha. apply path_same. intros; apply Hi; lia. }
    destruct (decide (v <= x < v + PAGE_SIZE)) as [Hin|Hout].
    + rewrite in_interval_true, Hthru by (done || by apply Hgo). cbn [fst snd orb]. split.
      * unfold leaf. cbn [Z.eqb Pos.eqb]. unfold is_table.
        rewrite type_of_make, addr_of_make by done. cbn [Z.eqb Pos.eqb]. apply (f_equal Some).
        unfold PAGE_SIZE in *. change (2 ^ 12) with 0x1000.
        divmod v 0x1000. divmod x 0x1000. lia.
      * unfold busy_entry. by rewrite testbit_pte_make by lia.
    + rewrite in_interval_false by lia. rewrite Hnot by by rewrite Hgo. done.
  - intros x Hx. unfold m', pte_set, store64. rewrite load8_store_le, in_interval_false; [done|].
    simpl. destruct (decide (a + 8 * idx v 3 <= x < a + 8 * idx v 3 + 8)); [exfalso|lia].
    apply Hx. exists a, 3. split; [done|]. unfold PAGE_SIZE. lia.
Qed.

(** [m'] maps the [n] pages at [va] to the pages at [pa], and treats every other
    address as [m] does. *)
Definition mapped (r : Z) (m m' : mem) (va n pa : Z) : Prop :=
  forall x, 0 <= x < 2 ^ 48 ->
    translate m' r x =
      (if (va <=? x) && (x <? va + n * PAGE_SIZE) then Some (pa + (x - va)) else translate m r x) /\
    busy m' r x = (va <=? x) && (x <? va + n * PAGE_SIZE) || busy m r x.

Lemma mapped_S r m m1 m2 va n pa :
  mapped r m m1 va n pa -> 0 <= n ->
  mapped r m1 m2 (va + n * PAGE_SIZE) 1 (pa + n * PAGE_SIZE) ->
  mapped r m m2 va (n + 1) pa.
Proof using Type.
  intros H1 Hn H2 x Hx. destruct (H1 x Hx) as [T1 B1]. destruct (H2 x Hx) as [-> ->].
  rewrite T1, B1. unfold PAGE_SIZE.
  destruct (decide (va + n * 0x1000 <= x < va + n * 0x1000 + 0x1000)).
  - rewrite !in_interval_true by lia. split; [apply (f_equal Some); lia|done].
  - rewrite (in_interval_false (va + n * _)) by lia.
    destruct (decide (va <= x < va + n * 0x1000)).
    + rewrite !in_interval_true by lia. done.
    + rewrite !in_interval_false by lia. done.
Qed.

Lemma page_step a i : page_addr a -> 0 <= i -> a + i * PAGE_SIZE < 2 ^ 48 ->
  page_addr (a + i * PAGE_SIZE).
Proof using Type.
  intros [Ha Hm] Hi Hlt. split; [unfold PAGE_SIZE in *; lia|].
  by rewrite Z.mod_add.
Qed.

Lemma map_pages_spec sp p m T va pages flags :
  space_wf sp (p, m) T -> page_addr va -> 0 <= pp_nr_pages pages ->
  va + pp_nr_pages pages * PAGE_SIZE <= 2 ^ 48 ->
  page_addr (pp_base pages) -> pp_base pages + pp_nr_pages pages * PAGE_SIZE <= 2 ^ 48 ->
  flags_ok flags ->
  (forall x, va <= x < va + pp_nr_pages pages * PAGE_SIZE -> reaches sp (p, m) x 3) ->
  exists m', map_pages sp va pages flags m = Ok m' /\ space_wf sp (p, m') T /\
    mapped (root (as_pt sp)) m m' va (pp_nr_pages pages) (pp_base pages) /\
    (forall x, ~ in_tables T x -> load8 m' x = load8 m x).
Proof using Type.
  intros Hs Hva Hn Htop Hpa Hlim Hf Hr. set (n := pp_nr_pages pages) in *.
  set (pa := pp_base pages) in *. unfold map_pages. fold n pa.
  rewrite last_level by apply Hs.
  edestruct (for_loop_rule (fun i '(v, m') => v = va + i * PAGE_SIZE /\ space_wf sp (p, m') T /\
      (forall x k, (k <= 3)%nat -> path m' (root (as_pt sp)) x k = path m (root (as_pt sp)) x k) /\
      mapped (root (as_pt sp)) m m' va i pa /\
      (forall x, ~ in_tables T x -> load8 m' x = load8 m x))) with (n := Z.to_nat n) (i := 0)
    (s := (va, m)) as ([v m'] & -> & -> & Hs' & _ & Hmap & Hfr).
  - intros i [v m'] Hi (-> & Hs' & Hp' & Hmap & Hfr).
    assert (Hvi : page_addr (va + i * PAGE_SIZE)) by (apply page_step; unfold PAGE_SIZE in *; done || lia).
    assert (Hpi : page_addr (pa + i * PAGE_SIZE)) by (apply page_step; unfold PAGE_SIZE in *; done || lia).
    destruct Hva as [Hva0 Hva1]. destruct Hpa as [Hpa0 Hpa1].
    destruct (page_write sp p m' T (va + i * PAGE_SIZE) (pa + i * PAGE_SIZE) flags)
      as (pte & -> & Hs2 & Hp2 & Ht2 & Hf2); try done; try apply Hvi; try (unfold PAGE_SIZE in *; lia).
    { destruct (Hr (va + i * PAGE_SIZE)) as [a Ha]; [unfold PAGE_SIZE; lia|].
      exists a. cbn [snd] in *. by rewrite Hp' by lia. }
    mstep. rewrite (u64_small (i * PAGE_SIZE)), !u64_small by (unfold PAGE_SIZE in *; lia).
    eexists; split; [done|]. split_and!; [unfold PAGE_SIZE; lia|done|..].
    + intros x k Hk. by rewrite Hp2, Hp'.
    + apply (mapped_S _ m m'); [done|lia|]. intros x Hx. rewrite Z.mul_1_l. by apply Ht2.
    + intros x Hx. by rewrite Hf2, Hfr.
  - split_and!; [lia|done|done| |done]. intros x Hx. by rewrite !in_interval_false by lia.
  - mstep. exists m'. split; [done|]. replace (0 + Z.of_nat (Z.to_nat n)) with n in * by lia. done.
Qed.

Lemma page_align va : page_addr va -> Z.land va (not64 (PAGE_SIZE - 1)) = va.
Proof using Type.
  intros Hva. pose proof (table_base va 0 Hva ltac:(lia)) as Ht.
  by rewrite Z.mul_0_r, Z.add_0_r in Ht.
Qed.

(** The pages a caller asks [mem_map] to use: a block of [n] pages of its own,
    or NULL. *)
Definition pages_arg (pages : option ppages) (n : Z) : Prop :=
  match pages with
  | Some pp => pp_nr_pages pp = n /\ page_addr (pp_base pp) /\ pp_base pp + n * PAGE_SIZE <= 2 ^ 48
  | None => True
  end.

(** Where the pages are mapped to: the caller's block, or pages that were free
    and now belong to neither the allocator nor the page table. *)
Definition target_ok (pages : option ppages) (n pa : Z) (p p' : P) (T' : gmap Z Z) : Prop :=
  match pages with
  | Some pp => pa = pp_base pp
  | None => forall x, pa <= x < pa + n * PAGE_SIZE ->
      pa_owns p x /\ ~ pa_owns p' x /\ ~ in_tables T' x
  end.

Record map_post (sp : addr_space) (s : state) (T : gmap Z Z) (va n : Z) (pages : option ppages)
    (sp' : addr_space) (s' : state) (T' : gmap Z Z) (pa : Z) : Prop := {
  mp_space : as_pt sp' = as_pt sp /\ as_type sp' = as_type sp /\ unlocked (as_lock sp');
  mp_wf : space_wf sp' s' T';
  mp_mapped : mapped (root (as_pt sp)) s.2 s'.2 va n pa;
  mp_target : target_ok pages n pa s.1 s'.1 T';
  mp_pa : page_addr pa /\ pa + n * PAGE_SIZE <= 2 ^ 48;
  mp_owns x : pa_owns s'.1 x -> pa_owns s.1 x;
  mp_tables x : in_tables T' x -> in_tables T x \/ pa_owns s.1 x;
  mp_frame x : ~ in_tables T x -> ~ pa_owns s.1 x -> load8 s'.2 x = load8 s.2 x;
}.

(** The pages to map, as [mem_map] gets hold of them. *)
Lemma take_pages_spec pages n p T :
  pa_inv p -> 1 <= n < 2 ^ 64 -> pages_arg pages n -> tables_sep p T ->
  or_error (fun '(pp, p1) => pp_nr_pages pp = n /\ page_addr (pp_base pp) /\
      pp_base pp + n * PAGE_SIZE <= 2 ^ 48 /\ pa_inv p1 /\ tables_sep p1 T /\
      (forall x, pa_owns p1 x -> pa_owns p x) /\
      match pages with
      | Some pp' => pp = pp'
      | None => forall x, pp_base pp <= x < pp_base pp + n * PAGE_SIZE ->
          pa_owns p x /\ ~ pa_owns p1 x
      end)
    (match pages with
     | Some pp => Ok (pp, p)
     | None =>
         '(temp_ppages, p) ← pa_alloc p n false;
         if pp_nr_pages temp_ppages <? n then Halt HError else Ok (temp_ppages, p)
     end).
Proof using Type.
  intros Hinv Hn Harg Hsep. destruct pages as [pp|]; [simpl in *; naive_solver|].
  destruct (pa_alloc p n false) as [[pp p1]|h] eqn:E; mstep.
  2: { simpl. by apply (pa_alloc_halt p n false h). }
  destruct (pa_alloc_Ok p n false pp p1 Hinv Hn E) as (Hinv1 & Hnr & Hpos & Hal & Hlim & Hown).
  rewrite Hnr, Z.ltb_irrefl. simpl. split_and!; try done; try (unfold PAGE_SIZE in *; lia).
  - split; [unfold PAGE_SIZE in *; lia|done].
  - intros a l x Ha Hx Ho. apply Hown in Ho as [Ho _]. by apply (Hsep a l x).
  - intros x Hx. by apply Hown in Hx as [Hx _].
  - intros x Hx. split; [by apply (proj1 (Hown x))|].
    intros Ho. by apply (proj2 (Hown x)) in Ho as [_ Ho].
Qed.

Lemma mem_map_spec sp s T va pages n flags :
  space_wf sp s T -> unlocked (as_lock sp) -> page_addr va -> 1 <= n ->
  va + n * PAGE_SIZE <= 2 ^ 48 -> pages_arg pages n -> flags_ok flags ->
  covered sp va (n * PAGE_SIZE) s ->
  or_error (fun '(sp', s') => exists T' pa, map_post sp s T va n pages sp' s' T' pa)
    (mem_map sp va pages n flags s).
Proof using Type.
  intros Hs Hlk Hva Hn Htop Harg Hf Hcov. destruct s as [p m]. pose proof Hs as [Hwf Hpt Hinv Hsep].
  cbn [fst snd] in *. unfold mem_map. rewrite page_align by done.
  destruct (spin_lock_unlock _ Hlk) as (l & -> & Hul & _). mstep.
  assert (Hn36 : n <= 2 ^ 36) by (unfold PAGE_SIZE in *; destruct Hva; lia).
  eapply or_error_bind; [apply (take_pages_spec pages n p T); done || lia|].
  intros [pp p1] (Hnr & Hpb & Hpl & Hinv1 & Hsep1 & Hsub & Htgt).
  rewrite u64_small by (unfold PAGE_SIZE in *; destruct Hva; lia).
  assert (Hs1 : space_wf sp (p1, m) T) by by split.
  eapply or_error_bind; [apply (mem_inflate_pt_spec sp va (n * PAGE_SIZE)) with (T := T);
    unfold PAGE_SIZE in *; try done; destruct Hva; lia|].
  intros [p2 m2] (T2 & Hg & Hr). destruct Hg as [Hs2 Htr Hbs _ _ Hown Htab Hfr]. cbn [fst snd] in *.
  destruct (map_pages_spec sp p2 m2 T2 va pp flags) as (m3 & -> & Hs3 & Hmap & Hfr3);
    rewrite ?Hnr; try done; [lia|]. mstep. simpl.
  exists T2, (pp_base pp). rewrite Hnr in Hmap. split; cbn [fst snd as_pt as_type as_lock set_as_lock].
  - done.
  - destruct Hs3 as [? ? ? ?]. by split.
  - intros x Hx. rewrite <- Htr, <- Hbs. by apply Hmap.
  - destruct pages as [pp'|]; simpl; [by subst|]. intros x Hx.
    destruct (Htgt x Hx) as [Ho Hno]. split_and!; [done|auto|].
    intros Hin. destruct (Htab x Hin) as [(a & la & Ha & Hax)|]; [|done].
    by apply (Hsep a la x).
  - done.
  - auto.
  - intros x Hx. destruct (Htab x Hx); auto.
  - intros x Hn1 Hn2. rewrite Hfr3, Hfr; try done; [auto|].
    intros Hin. destruct (Htab x Hin); auto.
Qed.

(** ** [as_init] *)

Lemma load64_zero m b : (forall x, b <= x < b + PAGE_SIZE -> load8 m x = 0) ->
  forall i, 0 <= i < 512 -> load64 m (b + 8 * i) = 0.
Proof using Type.
  intros Hz i Hi. unfold load64. unfold PAGE_SIZE in Hz. simpl load_le.
  rewrite !Hz by lia. done.
Qed.

(** A tree that is only a cleared root table. *)
Lemma empty_tree m b :
  bytes_ok m -> page_addr b -> 0 < b -> (forall i, 0 <= i < 512 -> load64 m (b + 8 * i) = 0) ->
  pt_wf m b {[b := 0]} /\ forall x, translate m b x = None /\ busy m b x = false.
Proof using Type.
  intros Hm Hb Hpos Hz.
  assert (Hl : forall a l, ({[b := 0]} : gmap Z Z) !! a = Some l -> a = b /\ l = 0).
  { intros a l Ha. apply lookup_singleton_Some in Ha. naive_solver. }
  split.
  - split; try done.
    + apply lookup_singleton_eq.
    + intros a l Ha. destruct (Hl a l Ha) as [-> ->]. done.
    + intros a l i Ha _ Hi. destruct (Hl a l Ha) as [-> ->]. by rewrite Hz.
    + intros a l i a' l' i' Ha _ Hi. destruct (Hl a l Ha) as [-> ->]. by rewrite Hz.
    + intros a l i Ha _ Hi. destruct (Hl a l Ha) as [-> ->]. by rewrite Hz.
    + intros a l i Ha _ Hi. destruct (Hl a l Ha) as [-> ->]. by rewrite Hz.
  - intros x. assert (E : leaf_at m b x = (0, 0)).
    { rewrite (leaf_at_path m b x 0 b); unfold entry; rewrite ?Hz by apply idx_range; done || lia. }
    rewrite translate_leaf_at. unfold busy. by rewrite E.
Qed.

Lemma as_init_spec type id s :
  pa_inv s.1 -> bytes_ok s.2 ->
  or_error (fun '(sp, s') => exists T', space_wf sp s' T' /\ unlocked (as_lock sp) /\
      as_type sp = type /\
      (forall x, translate s'.2 (root (as_pt sp)) x = None /\ busy s'.2 (root (as_pt sp)) x = false) /\
      (forall x, in_tables T' x -> pa_owns s.1 x) /\
      (forall x, ~ pa_owns s.1 x -> load8 s'.2 x = load8 s.2 x))
    (as_init type id 0 s).
Proof using Type.
  intros Hinv Hm. destruct s as [p m]. cbn [fst snd] in *. unfold as_init.
  set (d := match type with AS_VM => vm_pt_dscr | _ => hyp_pt_dscr end).
  assert (Hd : d = armv8_pt_s2_dscr) by by destruct type.
  replace (match type with AS_HYP | AS_HYP_CPY => hyp_pt_dscr | AS_VM => vm_pt_dscr end) with d
    by by destruct type.
  rewrite pt_size_Ok by (done || lia). mstep. change (NUM_PAGES PAGE_SIZE) with 1.
  destruct (pa_alloc p 1 true) as [[pp p']|h] eqn:E; mstep.
  2: { simpl. by apply (pa_alloc_halt p 1 true h). }
  destruct (pa_alloc_Ok p 1 true pp p' Hinv ltac:(lia) E) as (Hinv' & _ & Hpos & Hal & Hlim & Hown).
  rewrite Z.mul_1_l in *. set (b := pp_base pp) in *. change (u64 PAGE_SIZE) with PAGE_SIZE.
  destruct (memset_spec m b 0 PAGE_SIZE) as (m' & -> & Hset); [done|]. mstep. simpl.
  assert (Hb : page_addr b) by (split; [unfold PAGE_SIZE in Hlim; lia|done]).
  assert (Hm' : bytes_ok m') by (intros x; rewrite Hset; destruct (_ && _); [done|apply Hm]).
  destruct (empty_tree m' b) as [Hwf Hnone]; try done.
  { apply load64_zero. intros x Hx. by rewrite Hset, in_interval_true. }
  assert (Htab : forall x, in_tables {[b := 0]} x -> b <= x < b + PAGE_SIZE).
  { intros x (a & l & Ha & Hx). by apply lookup_singleton_Some in Ha as [<- _]. }
  exists {[b := 0]}. split_and!; try done.
  - split; try done. intros a l x Ha Hx Ho. apply lookup_singleton_Some in Ha as [<- _].
    by apply (proj2 (Hown x)) in Ho as [_ Ho].
  - intros x Hx. apply (proj1 (Hown x)). by apply Htab.
  - intros x Hx. rewrite Hset. destruct (decide (b <= x < b + PAGE_SIZE)) as [Hin|Hout].
    + exfalso. apply Hx. by apply (proj1 (Hown x)).
    + by rewrite in_interval_false by lia.
Qed.

End mmu.

(** ** Unmapping *)

(** The second [spin_lock] stands where the [spin_unlock] should be. *)
Definition mem_free_ppages (pool : page_pool) (pages : ppages) : outcome page_pool :=
  l ← spin_lock (lock pool);
  map ← (if in_range (pp_base pages) (base pool) (u64 (nr_pages pool * PAGE_SIZE)) then
           let index := u64 (pp_base pages - base pool) / PAGE_SIZE in
           bitmap_clear_consecutive (bitmap pool) index (pp_nr_pages pages)
         else Ok (bitmap pool));
  l ← spin_lock l;
  Ok (PagePool (base pool) (nr_pages pool) (free pool) (last pool) map l).

(** The state of the two loops of [mem_unmap]: [vaddr], [lvl], [pte], [entry]
    and memory; the flag says whether the inner loop was left. *)
Record unmap_st := UnmapSt {
  u_vaddr : Z;
  u_lvl : Z;
  u_pte : Z;
  u_entry : Z;
  u_state : page_pool * mem;
}.

(** One iteration of the inner [while]. *)
Definition unmap_entry (sp : addr_space) (free_ppages : bool) (top lvlsz : Z) (x : unmap_st * bool)
    : outcome (unmap_st * bool) :=
  let u := x.1 in
  let '(pool, m) := u_state u in
  if negb (pte_table m (as_pt sp) (u_pte u) (u_lvl u)) then
    let vpage_base := Z.land (u_vaddr u) (not64 (u64 (lvlsz - 1))) in
    if (vpage_base <? u_vaddr u) || (top <? u64 (vpage_base + lvlsz)) then
      s ← mem_expand_pte sp (u_vaddr u) (u_lvl u) (pool, m);
      Ok (UnmapSt (u_vaddr u) (u_lvl u + 1) (u_pte u) (u_entry u) s, true)
    else
      pool ← (if free_ppages
              then mem_free_ppages pool (mem_ppages_get (pte_addr m (u_pte u)) (lvlsz / PAGE_SIZE))
              else Ok pool);
      let m := store64 m (u_pte u) 0 in
      Ok (UnmapSt (u64 (u_vaddr u + lvlsz)) (u_lvl u) (u_pte u + 8) (u_entry u + 1) (pool, m), false)
  else Ok (u, true).

(** One iteration of the outer [while]. *)
Definition unmap_outer (sp : addr_space) (free_ppages : bool) (top : Z) (u : unmap_st)
    : outcome unmap_st :=
  let m := (u_state u).2 in
  pte ← pt_get_pte m (as_pt sp) (u_lvl u) (u_vaddr u);
  if pte =? 0 then Halt HError
  else if negb (pte_valid m pte) then
    lvlsz ← pt_lvlsize (as_pt sp) (u_lvl u);
    Ok (UnmapSt (u64 (u_vaddr u + lvlsz)) (u_lvl u) pte (u_entry u) (u_state u))
  else if pte_table m (as_pt sp) pte (u_lvl u) then
    Ok (UnmapSt (u_vaddr u) (u_lvl u + 1) pte (u_entry u) (u_state u))
  else
    entry ← pt_getpteindex (as_pt sp) pte (u_lvl u);
    nentries ← pt_nentries (as_pt sp) (u_lvl u);
    lvlsz ← pt_lvlsize (as_pt sp) (u_lvl u);
    '(u, _) ← while (S (S (Z.to_nat nentries)))
      (fun '(u, brk) => Ok ((u_entry u <? nentries) && (u_vaddr u <? top) && negb brk))
      (unmap_entry sp free_ppages top lvlsz)
      (UnmapSt (u_vaddr u) (u_lvl u) pte entry (u_state u), false);
    Ok (if u_entry u =? nentries
        then UnmapSt (u_vaddr u) (u64 (u_lvl u - 1)) (u_pte u) (u_entry u) (u_state u) else u).

(** The number of outer iterations is the caller's: each one moves [vaddr] or
    changes level. *)
Definition mem_unmap (fuel : nat) (sp : addr_space) (at_ num_pages : Z) (free_ppages : bool)
    (s : page_pool * mem) : outcome (addr_space * (page_pool * mem)) :=
  let top := u64 (at_ + u64 (num_pages * PAGE_SIZE)) in
  l ← spin_lock (as_lock sp);
  u ← while fuel (fun u => Ok (u_vaddr u <? top)) (unmap_outer sp free_ppages top)
    (UnmapSt at_ 0 0 0 s);
  Ok (set_as_lock sp (spin_unlock l), u_state u).
