(* ===== verification/Vpage.v ===== *)
(** Correctness of [mem_alloc_vpage] and [mem_alloc_map] of [core/mmu.c].

    The search for free virtual pages walks the tree level by level, adding
    tables where a whole block would not fit, and then marks the entries it
    found as reserved.  The proofs follow it iteration by iteration: what has
    been scanned is free, and the last entry of every scanned address covers a
    block inside the requested range. *)

From S2P Require Import Prelude Bit Bitmap Spinlock PhysMem Mem PageTable Mmu.

Section vpage.
Context {P : Type} `{PageAllocator P}.

Abbreviation state := (P * mem)%type.

(** ** One new table *)

(** [mem_alloc_pt] below an entry that is neither valid nor reserved. *)
Lemma alloc_pt_grows sp s T va k a :
  space_wf sp s T -> (k < 3)%nat -> path s.2 (root (as_pt sp)) va k = Some a ->
  Z.testbit (entry s.2 a va (Z.of_nat k)) 0 = false ->
  let pte := a + 8 * idx va (Z.of_nat k) in
  or_error (fun '(t, s') => t <> 0 /\ pte_table s'.2 (as_pt sp) pte (Z.of_nat k) = true /\
      exists T', grows sp s s' T T' /\ reaches sp s' va (S k))
    (mem_alloc_pt sp pte (Z.of_nat k) va s).
Proof using Type.
  destruct s as [p m]. intros Hs Hk Hp Hv pte. cbn [fst snd] in *.
  assert (Hleaf : is_table (entry m a va (Z.of_nat k)) = false) by by rewrite is_table_bits, Hv.
  destruct (mem_alloc_pt_spec sp p m T va k a Hs Hk Hp Hleaf) as [E|(b & p' & m1 & E & Hpost)];
    fold pte in E; rewrite E; [done|]. simpl.
  pose proof (ap_pos _ _ _ _ _ _ _ _ _ Hpost) as Hpos. split; [lia|]. split.
  { unfold pte_table. rewrite last_level by apply Hs. destruct (Z.eqb_spec (Z.of_nat k) 3); [lia|].
    unfold pte. rewrite (ap_parent _ _ _ _ _ _ _ _ _ Hpost). by rewrite type_of_make. }
  pose proof (ap_child _ _ _ _ _ _ _ _ _ Hpost) as Hch.
  set (e := load64 m (a + 8 * idx va (Z.of_nat k))) in *.
  assert (H0 : Z.testbit (Z.land e PTE_RSW_MSK) 0 = false) by by apply rsw_only.
  destruct (filled_grows sp p m T va k a Hs Hk Hp Hleaf b p' m1 m1
    (fun j => load64 m1 (b + 8 * j))) as [Hg Hr]; try done.
  - split_and!; [apply Hpost|done..].
  - intros j Hj _. rewrite Hch by done. by destruct (invalid_kinds _ H0) as [-> ->].
  - intros va'. rewrite Hch by apply idx_range. by rewrite !leaf_invalid.
  - intros j Hj. rewrite Hch by done. fold e. unfold busy_entry.
    unfold entry in Hv. fold e in Hv. by rewrite H0, Hv, rsrv_land.
  - exists (<[b := Z.of_nat k + 1]> T). split; [done|]. by exists b.
Qed.

(** ** Blocks of addresses *)

(** The first address of the size-[sz] block of [x]. *)
Definition block_of (x sz : Z) : Z := x / sz * sz.

(** The block that the last entry for [x] covers lies in [lo, hi). *)
Definition inside (m : mem) (r x lo hi : Z) : Prop :=
  let sz := 2 ^ shift_of (leaf_at m r x).1 in
  lo <= block_of x sz /\ block_of x sz + sz <= hi.

Lemma block_nested x sz c :
  0 < sz -> 0 < c ->
  block_of x (sz * c) <= block_of x sz /\ block_of x sz + sz <= block_of x (sz * c) + sz * c.
Proof using Type.
  intros Hs Hc. unfold block_of. rewrite <- Z.div_div by lia.
  pose proof (Z.div_mod (x / sz) c ltac:(lia)). pose proof (Z.mod_pos_bound (x / sz) c Hc). nia.
Qed.

Lemma shift_pos l : 0 <= l <= 3 -> 0 < 2 ^ shift_of l.
Proof using Type. intros Hl. apply Z.pow_pos_nonneg; unfold shift_of; lia. Qed.

Lemma shift_split l l' :
  0 <= l <= l' -> l' <= 3 -> 2 ^ shift_of l = 2 ^ shift_of l' * 2 ^ (9 * (l' - l)).
Proof using Type.
  intros Hl Hl'. rewrite <- Z.pow_add_r by (unfold shift_of; lia). f_equal. unfold shift_of. lia.
Qed.

(** The block of an entry is a whole number of pages. *)
Lemma level_pages l :
  0 <= l <= 3 -> let sz := 2 ^ shift_of l in
  sz = sz / PAGE_SIZE * PAGE_SIZE /\ 1 <= sz / PAGE_SIZE /\ 0 < sz <= 2 ^ 39.
Proof using Type.
  intros Hl sz. assert (Hs : sz = 2 ^ (9 * (3 - l)) * PAGE_SIZE).
  { unfold sz. rewrite (shift_split l 3) by lia. apply Z.mul_comm. }
  pose proof (Z.pow_pos_nonneg 2 (9 * (3 - l)) ltac:(lia) ltac:(lia)) as Hp.
  rewrite Hs at 2 3. rewrite Z.div_mul by done. split; [done|]. split; [lia|].
  split; [apply shift_pos; lia|]. apply Z.pow_le_mono_r; unfold shift_of; lia.
Qed.

Lemma leaf_level m r x : 0 <= (leaf_at m r x).1 <= 3.
Proof using Type. destruct (leaf_at_exists m r x) as (k & a & Hk & _ & _ & ->). simpl. lia. Qed.

(** Entries further down cover smaller blocks. *)
Lemma inside_mono m m' r x lo hi :
  (leaf_at m r x).1 <= (leaf_at m' r x).1 -> inside m r x lo hi -> inside m' r x lo hi.
Proof using Type.
  intros Hle [Hlo Hhi]. pose proof (leaf_level m r x). pose proof (leaf_level m' r x).
  rewrite (shift_split (leaf_at m r x).1 (leaf_at m' r x).1) in Hlo, Hhi by lia.
  destruct (block_nested x (2 ^ shift_of (leaf_at m' r x).1)
    (2 ^ (9 * ((leaf_at m' r x).1 - (leaf_at m r x).1)))) as [Hb1 Hb2].
  - apply shift_pos. lia.
  - apply Z.pow_pos_nonneg; lia.
  - split; lia.
Qed.

(** Addresses of one block share the walk down to its level. *)
Lemma same_block m r x y k a :
  0 <= x < 2 ^ 48 -> 0 <= y < 2 ^ 48 -> (k <= 3)%nat ->
  x / 2 ^ shift_of (Z.of_nat k) = y / 2 ^ shift_of (Z.of_nat k) ->
  path m r x k = Some a ->
  path m r y k = Some a /\ idx y (Z.of_nat k) = idx x (Z.of_nat k).
Proof using Type.
  intros Hx Hy Hk Hq Ha.
  pose proof (proj2 (idx_prefix x y (Z.of_nat k) Hx Hy ltac:(lia)) Hq) as Hi.
  split; [|symmetry; apply Hi; lia]. rewrite <- Ha. symmetry. apply path_same.
  intros; apply Hi; lia.
Qed.

Lemma same_leaf m r x y k a :
  0 <= x < 2 ^ 48 -> 0 <= y < 2 ^ 48 -> (k <= 3)%nat ->
  x / 2 ^ shift_of (Z.of_nat k) = y / 2 ^ shift_of (Z.of_nat k) ->
  path m r x k = Some a ->
  ((k < 3)%nat -> is_table (entry m a x (Z.of_nat k)) = false) ->
  leaf_at m r y = (Z.of_nat k, entry m a x (Z.of_nat k)).
Proof using Type.
  intros Hx Hy Hk Hq Ha Ht. destruct (same_block m r x y k a) as [Hp Hi]; try done.
  rewrite (leaf_at_path m r y k a) by (done || (intros; unfold entry; rewrite Hi; by apply Ht)).
  unfold entry. by rewrite Hi.
Qed.

Lemma quotient_block x y sz : 0 < sz -> y mod sz = 0 -> y <= x < y + sz <-> x / sz = y / sz.
Proof using Type.
  intros Hs Hy. pose proof (Z.div_mod x sz ltac:(lia)). pose proof (Z.mod_pos_bound x sz Hs).
  pose proof (Z.div_mod y sz ltac:(lia)). nia.
Qed.

(** The next entry of the same table. *)
Lemma next_entry m r x k a :
  0 <= x -> (k <= 3)%nat -> x + 2 ^ shift_of (Z.of_nat k) < 2 ^ 48 ->
  path m r x k = Some a -> idx x (Z.of_nat k) + 1 < 512 ->
  path m r (x + 2 ^ shift_of (Z.of_nat k)) k = Some a /\
  idx (x + 2 ^ shift_of (Z.of_nat k)) (Z.of_nat k) = idx x (Z.of_nat k) + 1.
Proof using Type.
  intros Hx Hk Htop Ha Hi. set (sz := 2 ^ shift_of (Z.of_nat k)).
  assert (Hsz : 0 < sz) by (apply shift_pos; lia).
  assert (Hq : (x + sz) / sz = x / sz + 1).
  { replace (x + sz) with (x + 1 * sz) by lia. apply Z.div_add. lia. }
  assert (Hidx : idx (x + sz) (Z.of_nat k) = idx x (Z.of_nat k) + 1).
  { unfold idx in *. fold sz in Hi |- *. rewrite Hq, Z.add_mod by lia.
    change (1 mod 512) with 1. apply Z.mod_small.
    pose proof (Z.mod_pos_bound (x / sz) 512). lia. }
  split; [|done]. destruct k as [|k]; [done|]. rewrite <- Ha. apply path_same. intros j Hj.
  apply (proj2 (idx_prefix (x + sz) x (Z.of_nat k) ltac:(fold sz in Htop; lia)
    ltac:(fold sz in Htop; lia) ltac:(lia))); [|lia].
  pose proof (quotient_step (x + sz) (Z.of_nat (S k)) ltac:(lia) ltac:(lia)) as H1.
  pose proof (quotient_step x (Z.of_nat (S k)) ltac:(lia) ltac:(lia)) as H2. fold sz in H1, H2.
  replace (Z.of_nat (S k) - 1) with (Z.of_nat k) in * by lia. lia.
Qed.

Lemma at_valid a : page_addr a -> a =? INVALID_VA = false.
Proof using Type. intros [Ha _]. apply Z.eqb_neq. unfold INVALID_VA, MAX_VA. lia. Qed.

(** ** The search *)

Section search.
Context (sp : addr_space) (s0 : state) (T0 : gmap Z Z) (at_ n : Z).
Context (Hs0 : space_wf sp s0 T0) (Hat : page_addr at_) (Hn : 1 <= n)
  (Htop : at_ + n * PAGE_SIZE <= 2 ^ 48).

Abbreviation r := (root (as_pt sp)).
Abbreviation top := (at_ + n * PAGE_SIZE).

(** The search has found [v_count v] free pages from [at_] on. *)
Record scan (v : vsearch (P := P)) : Prop := {
  sc_failed : v_failed v = false;
  sc_count : 0 <= v_count v <= n;
  sc_addr : v_addr v = at_ + v_count v * PAGE_SIZE;
  sc_vpage : v_vpage v = if v_count v =? 0 then INVALID_VA else at_;
  sc_lvl : 0 <= v_lvl v <= 3;
  sc_grows : exists T, grows sp s0 (v_state v) T0 T;
  sc_done x : at_ <= x < v_addr v ->
    busy s0.2 r x = false /\ inside (v_state v).2 r x at_ top;
}.

(** The search has met an address of the range that is mapped or reserved. *)
Definition refused (v : vsearch (P := P)) : Prop :=
  v_failed v = true /\ v_vpage v = INVALID_VA /\
  (exists T, grows sp s0 (v_state v) T0 T) /\
  exists x, at_ <= x < top /\ busy s0.2 r x = true.

Lemma scan_range v : scan v -> v_count v < n -> 0 <= v_addr v /\ v_addr v + PAGE_SIZE <= top.
Proof using All.
  intros Hv Hc. pose proof (sc_count v Hv). rewrite (sc_addr v Hv).
  unfold PAGE_SIZE in *. destruct Hat. lia.
Qed.

(** Growing the tree keeps what has been scanned. *)
Lemma scan_grow v s' T T' lvl :
  scan v -> grows sp s0 (v_state v) T0 T -> grows sp (v_state v) s' T T' ->
  0 <= lvl <= 3 ->
  scan (VSearch lvl (v_count v) (v_addr v) (v_vpage v) (v_failed v) s').
Proof using Type.
  intros [Hf Hc Ha Hvp Hl _ Hd] Hg Hg2 Hlvl. split; simpl; try done.
  - exists T'. by apply (grows_trans _ _ _ _ _ _ _ Hg).
  - intros x Hx. destruct (Hd x Hx) as [Hb Hi]. split; [done|].
    apply (inside_mono (v_state v).2); [|done]. apply (gr_level _ _ _ _ _ Hg2).
Qed.

Lemma scan_level v lvl : scan v -> 0 <= lvl <= 3 ->
  scan (VSearch lvl (v_count v) (v_addr v) (v_vpage v) (v_failed v) (v_state v)).
Proof using Type. intros [Hf Hc Ha Hvp Hl Hg Hd] Hlvl. by split. Qed.

Section entry_step.
Context (v : vsearch (P := P)) (k : nat) (a : Z).
Context (Hv : scan v) (Hk : (k <= 3)%nat) (Hlvl : v_lvl v = Z.of_nat k) (Hc : v_count v < n)
  (Hpath : path (v_state v).2 r (v_addr v) k = Some a).

Let m : mem := (v_state v).2.
Let sz : Z := 2 ^ shift_of (Z.of_nat k).
Let ent : Z := idx (v_addr v) (Z.of_nat k).
Let pte : Z := a + 8 * ent.
Let e : Z := load64 m pte.

Lemma step_wf : exists T, space_wf sp (v_state v) T /\ grows sp s0 (v_state v) T0 T.
Proof using Hv. destruct (sc_grows v Hv) as [T Hg]. exists T. split; [apply Hg|done]. Qed.

Lemma step_table : pte_table m (as_pt sp) pte (Z.of_nat k) = negb (Z.of_nat k =? 3) && is_table e.
Proof using Hs0.
  unfold pte_table. rewrite last_level by apply Hs0. by destruct (Z.of_nat k =? 3).
Qed.

(** A reserved entry, or a valid one that is not a table, is the last one. *)
Lemma step_busy :
  rsrv e || (Z.testbit e 0 && negb (pte_table m (as_pt sp) pte (Z.of_nat k))) = true ->
  busy s0.2 r (v_addr v) = true.
Proof using All.
  intros Hb. destruct step_wf as (T & Hs & Hg). rewrite <- (gr_busy _ _ _ _ _ Hg).
  assert (Ht : (k < 3)%nat -> is_table e = false).
  { intros Hlt. destruct (is_table e) eqn:Et; [exfalso|done].
    pose proof (path_level m r T (sw_pt _ _ _ Hs) (v_addr v) k a Hk Hpath) as Hl.
    pose proof (pw_rsw _ _ _ (sw_pt _ _ _ Hs) a _ ent Hl ltac:(lia) (idx_range _ _) Et) as Hr.
    fold m in Hr. fold pte in Hr. fold e in Hr. rewrite Hr, step_table, Et in Hb.
    destruct (Z.eqb_spec (Z.of_nat k) 3); [lia|]. rewrite andb_false_r in Hb. done. }
  unfold busy. rewrite (leaf_at_path _ r (v_addr v) k a Hk Hpath Ht). cbn [snd].
  change (entry (v_state v).2 a (v_addr v) (Z.of_nat k)) with e.
  unfold busy_entry. destruct (rsrv e), (Z.testbit e 0); done.
Qed.

Lemma size_pages : sz = sz / PAGE_SIZE * PAGE_SIZE /\ 1 <= sz / PAGE_SIZE /\ 0 < sz <= 2 ^ 39.
Proof using All. apply level_pages. lia. Qed.

Lemma step_allocable :
  Z.testbit e 0 = false ->
  exists ok, pte_allocable m sp pte (Z.of_nat k) (u64 (n - v_count v)) (v_addr v) = Ok ok /\
    if ok : bool then v_addr v mod sz = 0 /\ sz <= (n - v_count v) * PAGE_SIZE
    else (k < 3)%nat.
Proof using All.
  intros He. pose proof (sc_count v Hv) as Hcr. pose proof (sw_dscr _ _ _ Hs0) as Hpt.
  assert (Hn36 : n <= 2 ^ 36) by (unfold PAGE_SIZE in *; destruct Hat; lia).
  unfold pte_allocable. rewrite last_level by done.
  destruct (Z.eqb_spec (Z.of_nat k) 3) as [E|E].
  { exists true. split; [done|]. unfold sz. rewrite E. change (2 ^ shift_of 3) with PAGE_SIZE.
    rewrite (sc_addr v Hv), Z.mod_add by done. destruct Hat. unfold PAGE_SIZE in *. lia. }
  rewrite pt_lvl_terminal_Ok by (done || lia). mstep. unfold pte_valid. fold e. rewrite valid_bit, He.
  cbn [negb]. rewrite andb_true_r. destruct (Z.ltb_spec 0 (Z.of_nat k)); cbn [negb].
  2: { exists false. split; [done|lia]. }
  rewrite pt_lvlsize_Ok by (done || lia). mstep. fold sz.
  rewrite (u64_small (n - _)), u64_small by (unfold PAGE_SIZE; lia).
  eexists; split; [done|].
  destruct (Z.leb_spec sz ((n - v_count v) * PAGE_SIZE)), (Z.eqb_spec (v_addr v mod sz) 0);
    simpl; done || lia.
Qed.

(** Taking the block of a free entry. *)
Lemma step_take lvl :
  Z.testbit e 0 = false -> rsrv e = false -> v_addr v mod sz = 0 ->
  sz <= (n - v_count v) * PAGE_SIZE -> 0 <= lvl <= 3 ->
  scan (VSearch lvl (v_count v + sz / PAGE_SIZE) (v_addr v + sz)
    (if v_count v =? 0 then v_addr v else v_vpage v) false (v_state v)).
Proof using All.
  intros He Hr Hm Hfit Hl. destruct size_pages as (Hsp & Hsp1 & Hsz).
  pose proof (scan_range v Hv Hc) as [Ha0 Ha1].
  pose proof Hv as [Hf Hcr Ha Hvp _ Hg Hd]. destruct Hg as [T Hg].
  assert (Hge : v_addr v + sz <= top) by (rewrite Ha; unfold PAGE_SIZE in *; lia).
  split; simpl; try done.
  - unfold PAGE_SIZE in *. lia.
  - rewrite Ha. unfold PAGE_SIZE in *. lia.
  - rewrite Hvp. destruct (Z.eqb_spec (v_count v + sz / PAGE_SIZE) 0); [lia|].
    destruct (Z.eqb_spec (v_count v) 0) as [E|]; [|done]. rewrite Ha, E. unfold PAGE_SIZE. lia.
  - by exists T.
  - intros x Hx. destruct (Z.ltb_spec x (v_addr v)) as [Hlt|Hin]; [apply Hd; lia|].
    assert (Hq : v_addr v / sz = x / sz) by (symmetry; apply quotient_block; lia).
    assert (Hlf : leaf_at m r x = (Z.of_nat k, e)).
    { apply (same_leaf m r (v_addr v) x k a); try done; [lia..|].
      intros _. change (is_table e = false). by rewrite is_table_bits, He. }
    split.
    + rewrite <- (gr_busy _ _ _ _ _ Hg). unfold busy. fold m. rewrite Hlf. simpl.
      unfold busy_entry. by rewrite He, Hr.
    + unfold inside. fold m. rewrite Hlf. simpl. fold sz. unfold block_of. rewrite <- Hq.
      pose proof (Z.div_mod (v_addr v) sz ltac:(lia)). lia.
Qed.

(** What one iteration of the inner loop leaves: the search is over, the inner
    loop is over, or the next entry of the table is up. *)
Definition entry_post (x : vsearch (P := P) * Z * Z * bool) : Prop :=
  let '(v', pte', ent', brk) := x in
  (brk = true /\ refused v') \/
  (brk = true /\ scan v' /\
     (v_count v' < n -> reaches sp (v_state v') (v_addr v') (Z.to_nat (v_lvl v'))) /\
     4 * (n - v_count v') + (3 - v_lvl v') < 4 * (n - v_count v) + (3 - v_lvl v)) \/
  (brk = false /\ scan v' /\ v_lvl v' = Z.of_nat k /\ v_count v < v_count v' /\
     ent' = ent + 1 /\ ent' < 512 /\ pte' = a + 8 * ent' /\
     (v_count v' < n -> path (v_state v').2 r (v_addr v') k = Some a /\
        idx (v_addr v') (Z.of_nat k) = ent')).

(** After a free block was taken. *)
Lemma step_advance vpage :
  Z.testbit e 0 = false -> rsrv e = false -> v_addr v mod sz = 0 ->
  sz <= (n - v_count v) * PAGE_SIZE -> vpage = (if v_count v =? 0 then v_addr v else v_vpage v) ->
  entry_post
    (if 512 <=? ent + 1
     then (VSearch 0 (v_count v + sz / PAGE_SIZE) (v_addr v + sz) vpage false (v_state v),
           pte + 8, ent + 1, true)
     else (VSearch (Z.of_nat k) (v_count v + sz / PAGE_SIZE) (v_addr v + sz) vpage false (v_state v),
           pte + 8, ent + 1, false)).
Proof using All.
  intros He Hr Hm Hfit ->. destruct size_pages as (Hsp & Hsp1 & Hsz).
  pose proof (sc_lvl v Hv). pose proof (scan_range v Hv Hc) as [Ha0 Ha1].
  destruct (Z.leb_spec 512 (ent + 1)) as [Hend|Hmid]; unfold entry_post.
  - right. left. split; [done|]. split; [by apply step_take|]. simpl. split; [|lia].
    intros _. by exists r.
  - right. right. split; [done|]. split; [apply step_take; done || lia|]. simpl.
    split_and!; [done|lia|done|lia|unfold pte; lia|]. intros Hlt.
    apply next_entry; try done; try lia. fold sz. rewrite (sc_addr v Hv).
    unfold PAGE_SIZE in *. lia.
Qed.

(** A table is entered: the walk goes one level down. *)
Lemma step_descend s' T T' :
  grows sp s0 (v_state v) T0 T -> grows sp (v_state v) s' T T' ->
  (k < 3)%nat -> reaches sp s' (v_addr v) (S k) ->
  entry_post (VSearch (Z.of_nat k + 1) (v_count v) (v_addr v) (v_vpage v) (v_failed v) s',
    pte, ent, true).
Proof using All.
  intros Hg Hg' Hlt Hr. right. left. split; [done|]. split; [by apply (scan_grow v s' T T'); [..|lia]|].
  simpl. split; [|lia]. intros _. by replace (Z.to_nat (Z.of_nat k + 1)) with (S k) by lia.
Qed.

Lemma vpage_entry_spec :
  or_error entry_post (vpage_entry sp at_ n 512 sz (v, pte, ent, false)).
Proof using All.
  destruct step_wf as (T & Hs & Hg). pose proof (sc_failed v Hv) as Hf.
  destruct size_pages as (Hsp & Hsp1 & Hsz). pose proof (scan_range v Hv Hc) as [Ha0 Ha1].
  pose proof (sc_count v Hv) as Hcr. pose proof step_table as Htab.
  unfold vpage_entry, vpage_check. fold m. rewrite (at_valid at_ Hat), Hlvl.
  change (pte_check_rsw m pte PTE_RSW_RSRV) with (rsrv e). unfold pte_valid.
  change (load64 m pte) with e. rewrite valid_bit.
  destruct (rsrv e || _) eqn:Eb.
  { mstep. simpl. left. split; [done|]. unfold refused. simpl. rewrite orb_true_r.
    split_and!; [done|done|by exists T|]. exists (v_addr v). split; [|by apply step_busy].
    rewrite (sc_addr v Hv) in *. unfold PAGE_SIZE in *. lia. }
  apply orb_false_iff in Eb as [Er Eb]. destruct (Z.testbit e 0) eqn:Ev; cbn [negb] in *; mstep.
  - (* a table *) rewrite Hlvl. fold m. simpl in Eb. apply negb_false_iff in Eb. rewrite Eb.
    rewrite Htab in Eb. apply andb_prop in Eb as [Ek Et]. destruct (Z.eqb_spec (Z.of_nat k) 3); [done|].
    apply (step_descend (v_state v) T T); [done|by apply grows_refl|lia|].
    eexists. apply path_S. exists a. split; [done|]. split; [exact Et|done].
  - (* free: the block is taken, or a table is added *)
    destruct (step_allocable Ev) as (ok & -> & Hok). mstep. destruct ok.
    + destruct Hok as [Hm Hfit]. mstep. cbn [v_lvl v_count v_addr v_vpage v_failed v_state].
      fold m. rewrite Htab, is_table_bits, Ev, andb_false_r, Hf.
      rewrite !u64_small by (unfold PAGE_SIZE in *; destruct Hat; lia).
      by apply step_advance.
    + apply (or_error_bind (fun '(v', brk) => brk = false /\ exists s' T',
        v' = VSearch (Z.of_nat k) (v_count v) (v_addr v) (v_vpage v) (v_failed v) s' /\
        pte_table s'.2 (as_pt sp) pte (Z.of_nat k) = true /\
        grows sp (v_state v) s' T T' /\ reaches sp s' (v_addr v) (S k))).
      * eapply or_error_bind; [by apply (alloc_pt_grows sp (v_state v) T (v_addr v) k a)|].
        intros [t s'] (Ht & Hpt & T' & Hg' & Hr'). destruct (Z.eqb_spec t 0); [done|].
        simpl. eauto 10.
      * intros [v' brk] (-> & s' & T' & -> & Hpt & Hg' & Hr').
        cbn [v_lvl v_count v_addr v_vpage v_failed v_state]. rewrite Hpt.
        by apply (step_descend s' T T').
Qed.

End entry_step.
(** Between iterations of the outer loop. *)
Definition ready (v : vsearch (P := P)) : Prop :=
  scan v /\ (v_count v < n -> reaches sp (v_state v) (v_addr v) (Z.to_nat (v_lvl v))).

Definition left (v : vsearch (P := P)) : Z := 4 * (n - v_count v) + (3 - v_lvl v).

(** Between iterations of the inner loop, in the level-[k] table at [a]. *)
Definition inner (v : vsearch (P := P)) (k : nat) (a : Z)
    (x : vsearch (P := P) * Z * Z * bool) : Prop :=
  let '(v', pte, ent, brk) := x in
  (brk = true /\ refused v') \/
  (brk = true /\ ready v' /\ left v' < left v) \/
  (brk = false /\ scan v' /\ v_lvl v' = Z.of_nat k /\ v_count v <= v_count v' /\
     0 <= ent < 512 /\ pte = a + 8 * ent /\
     (v_count v' < n -> path (v_state v').2 r (v_addr v') k = Some a /\
        idx (v_addr v') (Z.of_nat k) = ent)).

Lemma vpage_inner_step v k a x :
  (k <= 3)%nat -> v_lvl v = Z.of_nat k -> inner v k a x -> x.2 = false -> v_count x.1.1.1 < n ->
  or_error (fun y => inner v k a y /\ (y.2 = false -> x.1.2 < y.1.2))
    (vpage_entry sp at_ n 512 (2 ^ shift_of (Z.of_nat k)) x).
Proof using All.
  intros Hk Hl Hx Hb Hc. destruct x as [[[v1 pte] ent] brk]. simpl in Hb, Hc. subst brk.
  destruct Hx as [[? _]|[[? _]|(_ & Hs & Hl1 & Hle & He & -> & Hp)]]; try done.
  destruct (Hp Hc) as [Hp1 <-].
  eapply or_error_mono; [by apply (vpage_entry_spec v1 k a)|].
  intros [[[v2 pte2] ent2] brk2] Hpost. unfold inner, ready, left. simpl.
  destruct Hpost as [[-> Hr]|[(-> & Hs2 & Hr2 & Hm)|(-> & Hs2 & Hl2 & Hc2 & -> & Hlt & -> & Hp2)]].
  - split; [by left|done].
  - split; [|done]. right. left. split; [done|]. split; [done|]. lia.
  - pose proof (idx_range (v_addr v1) (Z.of_nat k)). split; [|lia].
    right. right. split_and!; try done; lia.
Qed.

Lemma vpage_outer_spec v :
  ready v -> v_count v < n ->
  or_error (fun v' => refused v' \/ (ready v' /\ left v' < left v)) (vpage_outer sp at_ n v).
Proof using All.
  intros [Hv Hr] Hc. destruct (Hr Hc) as [a Ha]. pose proof (sc_lvl v Hv) as Hl.
  destruct (sc_grows v Hv) as [T Hg]. pose proof (gr_wf _ _ _ _ _ Hg) as [Hwf Hpt _ _].
  pose proof (scan_range v Hv Hc) as [Ha0 Ha1].
  assert (Hk : exists k, (k <= 3)%nat /\ v_lvl v = Z.of_nat k) by (exists (Z.to_nat (v_lvl v)); lia).
  destruct Hk as (k & Hk & Ek). rewrite Ek, Nat2Z.id in Ha. unfold vpage_outer. rewrite Ek.
  assert (negb (v_addr v =? 0) && (u64 (MAX_VA + 1 - v_addr v) / PAGE_SIZE <? n) = false) as ->.
  { destruct (Z.eqb_spec (v_addr v) 0); [done|]. apply Z.ltb_ge.
    destruct Hat as [[Hat0 _] _].
    unfold MAX_VA, PAGE_SIZE in *. rewrite u64_small by lia. apply Z.div_le_lower_bound; lia. }
  assert (Hroot : page_addr r) by (apply (pw_table _ _ _ Hwf r 0), Hwf).
  pose proof (path_page _ _ _ _ _ (pw_bytes _ _ _ Hwf) Hroot Ha) as Hpa.
  pose proof (idx_range (v_addr v) (Z.of_nat k)) as Hir.
  rewrite (pt_walk_path _ (as_pt sp) (v_addr v) k a) by (done || apply Hwf). mstep.
  rewrite pt_getpteindex_Ok, pt_nentries_Ok, pt_lvlsize_Ok by (done || lia || apply Hpa). mstep.
  apply (or_error_bind (fun '(v', _, _, _) => refused v' \/ (ready v' /\ left v' < left v)));
    [|by intros [[[v' ?] ?] ?]].
  apply (while_or_error (inner v k a) _
    (fun '(_, _, ent, brk) => if brk : bool then 0%nat else Z.to_nat (513 - ent))).
  - intros x Hx. pose proof (vpage_inner_step v k a x Hk Ek Hx) as Hstep.
    destruct x as [[[v1 pte] ent] brk]. simpl in Hstep. eexists; split; [done|].
    destruct Hx as [[-> Hx]|[(-> & Hx)|(-> & Hs & Hl1 & Hle & He & -> & Hp)]].
    + rewrite andb_false_r. by left.
    + rewrite andb_false_r. by right.
    + rewrite (sc_failed v1 Hs), !andb_true_r. destruct (Z.ltb_spec ent 512); [|lia].
      destruct (Z.ltb_spec (v_count v1) n).
      * eapply or_error_mono; [by apply Hstep|]. intros [[[v2 pte2] ent2] brk2] [Hi Hlt].
        split; [done|]. simpl in *. destruct brk2; [lia|]. specialize (Hlt eq_refl). lia.
      * right. unfold ready, left. split; [split; [done|lia]|]. lia.
  - right. right. split_and!; try done; lia.
  - lia.
Qed.

(** The whole search: it finds the range free, or it meets a busy address. *)
Lemma vpage_search_spec :
  or_error (fun v => refused v \/ (scan v /\ v_count v = n))
    (while (vpage_fuel n) (fun v => Ok ((v_count v <? n) && negb (v_failed v)))
      (vpage_outer sp at_ n) (VSearch 0 0 at_ INVALID_VA false s0)).
Proof using All.
  apply (while_or_error (fun v => refused v \/ ready v) _
    (fun v => if v_failed v then 0%nat else Z.to_nat (left v))).
  - intros v Hv. eexists; split; [done|]. destruct Hv as [Hv|Hv].
    { destruct Hv as (Hf & Hv). rewrite Hf, andb_false_r. by left. }
    pose proof Hv as [Hs _]. rewrite (sc_failed v Hs), andb_true_r.
    pose proof (sc_count v Hs). pose proof (sc_lvl v Hs).
    destruct (Z.ltb_spec (v_count v) n); [|right; split; [done|lia]].
    eapply or_error_mono; [by apply vpage_outer_spec|]. intros v' [Hr|[Hr Hlt]].
    + split; [by left|]. destruct Hr as [-> _]. unfold left in *. lia.
    + split; [by right|]. pose proof Hr as [Hs' _]. rewrite (sc_failed v' Hs').
      pose proof (sc_count v' Hs'). pose proof (sc_lvl v' Hs'). unfold left in *. lia.
  - right. split; [|intros; by exists r]. split; simpl; try done; try lia.
    exists T0. by apply grows_refl.
  - unfold left, vpage_fuel. simpl. lia.
Qed.

End search.

(** ** The reservation *)

Lemma first_invalid_spec m pt va k a :
  armv8 pt -> bytes_ok m -> page_addr (root pt) -> (k <= 3)%nat ->
  path m (root pt) va k = Some a -> Z.testbit (entry m a va (Z.of_nat k)) 0 = false ->
  first_invalid m pt va 4 0 0 = Ok (Z.of_nat k, a + 8 * idx va (Z.of_nat k)).
Proof using Type.
  intros Hpt Hm Hr Hk Hp Hv.
  cut (forall f j pte, (j + f = 4)%nat -> (j <= k)%nat ->
    first_invalid m pt va f (Z.of_nat j) pte = Ok (Z.of_nat k, a + 8 * idx va (Z.of_nat k))).
  { intros Hf. apply (Hf 4%nat 0%nat 0); lia. }
  induction f as [|f IH]; intros j pte Hj Hle; [lia|]. cbn [first_invalid].
  destruct (path_prefix _ _ _ _ _ j Hp Hle) as [b Hb].
  rewrite (pt_walk_path m pt va j b) by (done || lia). mstep. unfold pte_valid. rewrite valid_bit.
  destruct (decide (j = k)) as [->|Hne].
  - replace b with a by congruence. unfold entry in Hv. by rewrite Hv.
  - destruct (path_prefix _ _ _ _ _ (S j) Hp ltac:(lia)) as [c Hc].
    apply path_S in Hc as (b' & Hb' & Ht & _). replace b' with b in Ht by congruence.
    rewrite is_table_bits in Ht. apply andb_prop in Ht as [Ht _]. unfold entry in Ht. rewrite Ht.
    replace (Z.of_nat j + 1) with (Z.of_nat (S j)) by lia. apply IH; lia.
Qed.

Section reserve.
Context (sp : addr_space) (p : P) (m1 : mem) (T : gmap Z Z) (at_ n : Z).
Context (Hs1 : space_wf sp (p, m1) T) (Hat : page_addr at_) (Hn : 1 <= n)
  (Htop : at_ + n * PAGE_SIZE <= 2 ^ 48).

Abbreviation r := (root (as_pt sp)).
Abbreviation top := (at_ + n * PAGE_SIZE).

Context (Hfree : forall x, at_ <= x < top -> busy m1 r x = false).

(** The pages up to [addr] are reserved and nothing else has changed. *)
Record reserved_to (addr : Z) (m : mem) : Prop := {
  rv_wf : space_wf sp (p, m) T;
  rv_translate x : translate m r x = translate m1 r x;
  rv_path x k : (k <= 3)%nat -> path m r x k = path m1 r x k;
  rv_level x : (leaf_at m r x).1 = (leaf_at m1 r x).1;
  rv_busy x : 0 <= x < 2 ^ 48 -> busy m r x = (at_ <=? x) && (x <? addr) || busy m1 r x;
  rv_frame x : ~ in_tables T x -> load8 m x = load8 m1 x;
  rv_inside x : addr <= x < top -> inside m r x addr top;
}.

(** Blocks of last entries do not overlap: behind a block come only blocks that
    start after it. *)
Lemma inside_after m x addr k e :
  (k <= 3)%nat -> 0 <= addr -> let sz := 2 ^ shift_of (Z.of_nat k) in
  addr mod sz = 0 -> addr + sz <= x < top -> inside m r x addr top ->
  (forall y, addr <= y < addr + sz -> leaf_at m r y = (Z.of_nat k, e)) ->
  inside m r x (addr + sz) top.
Proof using All.
  intros Hk Ha0 sz Hm Hx [Hlo Hhi] Hblk. split; [|done].
  destruct (leaf_at_exists m r x) as (l & b & Hl & Hp & Ht & E).
  rewrite E in *. cbn [fst] in *. set (szl := 2 ^ shift_of (Z.of_nat l)) in *.
  assert (0 < szl) by (apply shift_pos; lia). assert (0 < sz) by (apply shift_pos; lia).
  set (y := block_of x szl) in *.
  assert (Hyq : x / szl = y / szl) by (unfold y, block_of; rewrite Z.div_mul; lia).
  destruct (Z.leb_spec (addr + sz) y) as [|Hlt]; [done|exfalso].
  assert (Hyx : y <= x).
  { unfold y, block_of. pose proof (Z.mul_div_le x szl). lia. }
  pose proof (same_leaf m r x y l b ltac:(lia) ltac:(lia) Hl Hyq Hp Ht) as Hly.
  rewrite (Hblk y) in Hly by lia. injection Hly as Hkl _. apply Nat2Z.inj in Hkl. subst l.
  assert (Hq : y / sz = addr / sz) by (apply quotient_block; lia).
  change (x / sz = y / sz) in Hyq. rewrite Hq in Hyq. apply quotient_block in Hyq; lia.
Qed.

(** Marking the last entry of [addr], free so far and covering [addr, addr+sz),
    as reserved. *)
Section mark.
Context (addr : Z) (m : mem) (k : nat) (a : Z).
Let e : Z := entry m a addr (Z.of_nat k).
Let sz : Z := 2 ^ shift_of (Z.of_nat k).
Let i : Z := idx addr (Z.of_nat k).
Let v : Z := Z.lor (Z.land e (not64 PTE_RSW_MSK)) (Z.land PTE_RSW_RSRV PTE_RSW_MSK).
Let m' : mem := store64 m (a + 8 * i) v.
Context (Hrv : reserved_to addr m) (Ha : at_ <= addr) (Hk : (k <= 3)%nat)
  (Hp : path m r addr k = Some a) (Hm : addr mod sz = 0) (Hend : addr + sz <= top)
  (He : Z.testbit e 0 = false).

Lemma mark_value : 0 <= v < 2 ^ 64 /\ Z.testbit v 0 = false /\ rsrv v = true.
Proof using All.
  pose proof (rv_wf _ _ Hrv) as [Hwf _ _ _].
  pose proof (word_range m (a + 8 * i) (pw_bytes _ _ _ Hwf)) as Hw.
  split; [|split].
  - apply lor_range; [lia|apply land_range; done || lia|done].
  - by apply reserved_invalid.
  - unfold rsrv, v. by rewrite rsw_set, Z.eqb_refl.
Qed.

(** The addresses whose walk goes through the entry are those of its block. *)
Lemma mark_through x :
  0 <= x < 2 ^ 48 -> goes_through m r a (Z.of_nat k) i x <-> addr <= x < addr + sz.
Proof using All.
  intros Hx. destruct Hat as [[Hat0 _] _]. pose proof (rv_wf _ _ Hrv) as [Hwf _ _ _].
  assert (0 < sz) by (apply shift_pos; lia). rewrite quotient_block by done. unfold sz.
  rewrite <- (idx_prefix x addr (Z.of_nat k)) by (try lia; split; lia).
  unfold goes_through. rewrite Nat2Z.id. split.
  - intros [Hpx Hix] j Hj. destruct (decide (j = Z.of_nat k)) as [->|]; [done|].
    apply (path_inj m r T Hwf x addr k a); done || lia.
  - intros Hj. split; [|apply Hj; lia]. rewrite <- Hp. apply path_same. intros; apply Hj; lia.
Qed.

Lemma mark_raw x :
  (goes_through m r a (Z.of_nat k) i x ->
     leaf_at m r x = (Z.of_nat k, e) /\ leaf_at m' r x = (Z.of_nat k, v)) /\
  (~ goes_through m r a (Z.of_nat k) i x -> leaf_at m' r x = leaf_at m r x).
Proof using All.
  pose proof (rv_wf _ _ Hrv) as [Hwf _ _ _]. destruct mark_value as (Hv & Hv0 & _).
  pose proof (path_level m r T Hwf addr k a Hk Hp) as Hl.
  assert (Het : is_table e = false) by by rewrite is_table_bits, He.
  destruct (leaf_write_leaf m r T a (Z.of_nat k) i v Hwf Hl (idx_range _ _) Hv
    (fun _ => Het) (fun _ => invalid_kinds v Hv0) x) as [Hx1 Hx2].
  split; [|done]. intros Hg. split; [|by apply Hx1]. destruct Hg as [Hpx Hix].
  rewrite Nat2Z.id in Hpx. rewrite (leaf_at_path m r x k a); [|done|done|];
    unfold entry; rewrite Hix; done.
Qed.

Lemma mark_leaf x :
  0 <= x < 2 ^ 48 ->
  (addr <= x < addr + sz -> leaf_at m r x = (Z.of_nat k, e) /\ leaf_at m' r x = (Z.of_nat k, v)) /\
  (~ addr <= x < addr + sz -> leaf_at m' r x = leaf_at m r x).
Proof using All. intros Hx. rewrite <- mark_through by done. apply mark_raw. Qed.

Lemma mark_reserved : reserved_to (addr + sz) m'.
Proof using All.
  pose proof Hrv as [Hs Htr Hpa Hlv Hbu Hfr Hin]. pose proof Hs as [Hwf Hpt Hinv Hsep].
  cbn [fst snd] in *. destruct mark_value as (Hv & Hv0 & Hvr).
  pose proof (path_level m r T Hwf addr k a Hk Hp) as Hl.
  assert (Het : is_table e = false) by by rewrite is_table_bits, He.
  pose proof (leaf_write_wf m r T a (Z.of_nat k) i v Hwf Hl (idx_range _ _) Hv
    (fun _ => Het) (fun _ => invalid_kinds v Hv0)) as Hwf'.
  assert (Hraw : forall x, (leaf_at m' r x).1 = (leaf_at m r x).1 /\
    leaf (leaf_at m' r x).1 (leaf_at m' r x).2 x = leaf (leaf_at m r x).1 (leaf_at m r x).2 x).
  { intros x. destruct (mark_raw x) as [Hx1 Hx2].
    destruct (decide (path m r x (Z.to_nat (Z.of_nat k)) = Some a /\ idx x (Z.of_nat k) = i))
      as [Hd|Hd]; [|by rewrite Hx2].
    destruct (Hx1 Hd) as [-> ->]. split; [done|]. simpl. by rewrite !leaf_invalid. }
  split.
  - by split.
  - intros x. rewrite <- Htr, !translate_leaf_at. apply Hraw.
  - intros x j Hj. rewrite <- Hpa by done. apply (leaf_write_path m r T a (Z.of_nat k) i v Hwf Hl
      (idx_range _ _) Hv (fun _ => Het) (fun _ => invalid_kinds v Hv0)); done.
  - intros x. rewrite <- Hlv. apply Hraw.
  - intros x Hx. destruct (mark_leaf x Hx) as [H1 H2].
    destruct (decide (addr <= x < addr + sz)) as [Hd|Hd].
    + destruct (H1 Hd) as [_ E]. unfold busy. rewrite E. cbn [snd]. unfold busy_entry. rewrite Hvr, orb_true_r.
      rewrite in_interval_true by lia. done.
    + unfold busy. rewrite H2 by done. fold (busy m r x). rewrite Hbu by done. f_equal. repeat zcase.
  - intros x Hx. rewrite <- Hfr by done. unfold m', store64. rewrite load8_store_le, in_interval_false; [done|].
    pose proof (idx_range addr (Z.of_nat k)) as Hir. fold i in Hir. simpl.
    destruct (decide (a + 8 * i <= x < a + 8 * i + 8)); [exfalso|lia].
    apply Hx. exists a, (Z.of_nat k). split; [done|]. unfold PAGE_SIZE. lia.
  - intros x Hx. destruct Hat as [[Hat0 _] _]. destruct (mark_leaf x ltac:(lia)) as [_ H2].
    assert (0 < sz) by (apply shift_pos; lia).
    unfold inside. rewrite H2 by lia. apply (inside_after m x addr k e); try done; try lia.
    + apply Hin. lia.
    + intros y Hy. apply (mark_leaf y ltac:(lia)). done.
Qed.

End mark.

Lemma reserve_step addr m :
  reserved_to addr m -> at_ <= addr < top ->
  exists k pte, first_invalid m (as_pt sp) addr 4 0 0 = Ok (Z.of_nat k, pte) /\ (k <= 3)%nat /\
    addr + 2 ^ shift_of (Z.of_nat k) <= top /\
    reserved_to (addr + 2 ^ shift_of (Z.of_nat k)) (pte_set_rsw m pte PTE_RSW_RSRV).
Proof using All.
  intros Hrv Ha. pose proof Hrv as [Hs _ _ _ Hbu _ Hin].
  pose proof Hs as [Hwf Hpt _ _]. cbn [fst snd] in *. pose proof Hat as [[Hat0 _] _].
  assert (Hroot : page_addr r) by (apply (pw_table _ _ _ Hwf r 0), Hwf).
  destruct (leaf_at_exists m r addr) as (k & a & Hk & Hp & Ht & E).
  assert (He : Z.testbit (entry m a addr (Z.of_nat k)) 0 = false).
  { pose proof (Hbu addr ltac:(lia)) as Hb. rewrite in_interval_false, Hfree in Hb by lia.
    unfold busy in Hb. rewrite E in Hb. by apply orb_false_iff in Hb as [Hb _]. }
  set (sz := 2 ^ shift_of (Z.of_nat k)). assert (0 < sz) by (apply shift_pos; lia).
  destruct (Hin addr ltac:(lia)) as [Hlo Hhi]. rewrite E in Hlo, Hhi. cbn [fst] in Hlo, Hhi.
  fold sz in Hlo, Hhi. unfold block_of in Hlo, Hhi.
  pose proof (Z.div_mod addr sz ltac:(lia)). pose proof (Z.mod_pos_bound addr sz ltac:(lia)).
  exists k, (a + 8 * idx addr (Z.of_nat k)).
  split; [apply (first_invalid_spec m (as_pt sp) addr k a); done || apply Hwf|].
  assert (Hm : addr mod sz = 0) by lia. assert (Hend : addr + sz <= top) by lia.
  split; [done|]. split; [exact Hend|]. apply mark_reserved; (assumption || lia).
Qed.

Context (Hinside : forall x, at_ <= x < top -> inside m1 r x at_ top).

Lemma vpage_reserve_spec :
  exists m, vpage_reserve sp at_ n m1 = Ok m /\ reserved_to top m.
Proof using All.
  pose proof (sw_dscr _ _ _ Hs1) as Hpt. pose proof Hat as [[Hat0 _] _]. unfold vpage_reserve.
  rewrite Hpt. change (Z.to_nat (lvls armv8_pt_s2_dscr)) with 4%nat.
  edestruct (while_rule
    (fun '(count, addr, m) => 0 <= count <= n /\ addr = at_ + count * PAGE_SIZE /\ reserved_to addr m)
    (fun '(count, addr, m) => count = n /\ addr = top /\ reserved_to addr m)
    (fun '(count, _, _) => Z.to_nat (n - count))) as ([[c ad] m] & -> & _ & -> & Hrv).
  - intros [[count addr] m] (Hc & -> & Hrv). eexists; split; [done|].
    destruct (Z.ltb_spec count n); [|by replace count with n in * by lia].
    destruct (reserve_step _ _ Hrv) as (k & pte & -> & Hk & Hend & Hrv'); [unfold PAGE_SIZE; lia|].
    mstep. rewrite pt_lvlsize_Ok by (done || lia). mstep. eexists; split; [done|].
    destruct (level_pages (Z.of_nat k)) as (Hsp & Hsp1 & Hsz); [lia|].
    set (sz := 2 ^ shift_of (Z.of_nat k)) in *. unfold PAGE_SIZE in *.
    rewrite !u64_small by lia. split; [|lia]. split_and!; [lia..|done].
  - split_and!; [lia..|]. split; try done.
    intros x Hx. by rewrite in_interval_false by lia.
  - simpl. lia.
  - mstep. by exists m.
Qed.

(** The reserved range is one [mem_map] can inflate. *)
Lemma reserved_covered m : reserved_to top m -> covered sp at_ (n * PAGE_SIZE) (p, m).
Proof using All.
  intros Hrv x k Hx Hk. destruct (leaf_at_exists m r x) as (l & a & Hl & Hp & _ & E).
  destruct (decide (k < l)%nat) as [Hlt|Hge].
  { right. destruct (path_prefix _ _ _ _ _ (S k) Hp ltac:(lia)) as [c Hc]. by exists c. }
  left. destruct (Hinside x Hx) as [Hlo Hhi]. rewrite <- (rv_level _ _ Hrv), E in Hlo, Hhi.
  cbn [fst] in Hlo, Hhi. rewrite (shift_split (Z.of_nat l) (Z.of_nat k)) in Hlo, Hhi by lia.
  set (sz := 2 ^ shift_of (Z.of_nat k)) in *. assert (0 < sz) by (apply shift_pos; lia).
  destruct (block_nested x sz (2 ^ (9 * (Z.of_nat k - Z.of_nat l)))) as [_ Hb]; [done|apply Z.pow_pos_nonneg; lia|].
  unfold block_of in *. pose proof (Z.div_mod at_ sz ltac:(lia)).
  pose proof (Z.mod_pos_bound at_ sz ltac:(lia)). lia.
Qed.

End reserve.

(** ** [mem_alloc_vpage] *)

(** What every outcome of [mem_alloc_vpage] leaves alone. *)
Record vpage_kept (sp : addr_space) (s : state) (T : gmap Z Z)
    (sp' : addr_space) (s' : state) (T' : gmap Z Z) : Prop := {
  vk_space : as_pt sp' = as_pt sp /\ as_type sp' = as_type sp /\ unlocked (as_lock sp');
  vk_wf : space_wf sp' s' T';
  vk_translate x : translate s'.2 (root (as_pt sp)) x = translate s.2 (root (as_pt sp)) x;
  vk_owns x : pa_owns s'.1 x -> pa_owns s.1 x;
  vk_tables x : in_tables T' x -> in_tables T x \/ pa_owns s.1 x;
  vk_frame x : ~ in_tables T x -> ~ pa_owns s.1 x -> load8 s'.2 x = load8 s.2 x;
}.

Definition range_busy (sp : addr_space) (s : state) (at_ n : Z) : Prop :=
  exists x, at_ <= x < at_ + n * PAGE_SIZE /\ busy s.2 (root (as_pt sp)) x = true.

Definition range_free (sp : addr_space) (s : state) (at_ n : Z) : Prop :=
  forall x, at_ <= x < at_ + n * PAGE_SIZE -> busy s.2 (root (as_pt sp)) x = false.

(** [busy] after the range was reserved or mapped. *)
Definition range_taken (sp : addr_space) (s s' : state) (at_ n : Z) : Prop :=
  forall x, 0 <= x < 2 ^ 48 -> busy s'.2 (root (as_pt sp)) x =
    (at_ <=? x) && (x <? at_ + n * PAGE_SIZE) || busy s.2 (root (as_pt sp)) x.

Section alloc.
Context (sp : addr_space) (s : state) (T : gmap Z Z) (at_ n : Z).
Context (Hs : space_wf sp s T) (Hlk : unlocked (as_lock sp)) (Hat : page_addr at_) (Hn : 1 <= n)
  (Htop : at_ + n * PAGE_SIZE <= 2 ^ 48).

Lemma grows_kept s' T' l :
  grows sp s s' T T' -> unlocked l -> vpage_kept sp s T (set_as_lock sp l) s' T'.
Proof using Type.
  intros [Hw Htr Hb Hl Hp Ho Htab Hfr] Hul. split; try done. destruct Hw as [? ? ? ?]. by split.
Qed.

Lemma mem_alloc_vpage_spec :
  or_error (fun '(va, sp', s') => exists T', vpage_kept sp s T sp' s' T' /\
      ((va = INVALID_VA /\ range_busy sp s at_ n /\
          forall x, busy s'.2 (root (as_pt sp)) x = busy s.2 (root (as_pt sp)) x) \/
       (va = at_ /\ range_free sp s at_ n /\ range_taken sp s s' at_ n /\
          covered sp' at_ (n * PAGE_SIZE) s')))
    (mem_alloc_vpage sp at_ n s).
Proof using All.
  pose proof Hat as [Hat0 Hat1]. unfold mem_alloc_vpage. rewrite (at_valid at_ Hat) by done.
  cbn [negb]. destruct (Z.ltb_spec MAX_VA at_); [unfold MAX_VA in *; lia|].
  unfold IS_ALIGNED. rewrite Hat1. cbn [Z.eqb negb orb].
  destruct (spin_lock_unlock _ Hlk) as (l & -> & Hul & _). mstep.
  eapply or_error_bind; [apply (vpage_search_spec sp s T at_ n); done|].
  intros v [Hv|[Hv Hc]].
  - destruct Hv as (Hf & Hvp & [T' Hg] & Hb). destruct (v_state v) as [p' m'] eqn:Es.
    rewrite Hvp, Z.eqb_refl. cbn [negb andb]. mstep. exists T'.
    split; [by apply grows_kept|]. left. split; [done|]. split; [done|]. apply Hg.
  - destruct Hv as [Hf _ Ha Hvp _ [T' Hg] Hd]. rewrite Hc in *. destruct (v_state v) as [p' m'] eqn:Es.
    destruct (Z.eqb_spec n 0); [lia|]. rewrite Hvp, (at_valid at_ Hat), Hf by done. cbn [negb andb].
    pose proof Hg as [Hw Htr Hbs _ _ Ho Htab Hfr]. cbn [fst snd] in *. rewrite Ha in Hd.
    destruct (vpage_reserve_spec sp p' m' T' at_ n) as (m2 & -> & Hrv); try done.
    { intros x Hx. rewrite Hbs. by apply Hd. }
    { intros x Hx. by apply Hd. }
    mstep. pose proof Hrv as [Hw2 Htr2 _ _ Hb2 Hfr2 _]. exists T'. split; [|right; split_and!].
    + split; try done.
      * destruct Hw2 as [? ? ? ?]. by split.
      * intros x. cbn [snd]. by rewrite Htr2.
      * intros x Hx1 Hx2. cbn [snd]. rewrite Hfr2, Hfr; try done.
        intros Hin. destruct (Htab x Hin); done.
    + done.
    + intros x Hx. by apply Hd.
    + intros x Hx. cbn [snd]. by rewrite Hb2, Hbs.
    + apply (reserved_covered sp p' m' T' at_ n); try done.
      { intros x Hx. rewrite Hbs. by apply Hd. }
      intros x Hx. by apply Hd.
Qed.

(** ** [mem_alloc_map] *)

(** The outcome of [mem_alloc_map]: the range was free and is now mapped, or
    part of it was taken and no translation changed. *)
Definition alloc_map_post (pages : option ppages) (va : Z) (sp' : addr_space) (s' : state)
    (T' : gmap Z Z) : Prop :=
  (va = INVALID_VA /\ range_busy sp s at_ n /\ vpage_kept sp s T sp' s' T') \/
  (va = at_ /\ range_free sp s at_ n /\ exists pa, map_post sp s T at_ n pages sp' s' T' pa).

Lemma mem_alloc_map_spec pages flags :
  pages_arg pages n -> flags_ok flags ->
  or_error (fun '(va, sp', s') => exists T', alloc_map_post pages va sp' s' T')
    (mem_alloc_map sp pages at_ n flags s).
Proof using All.
  intros Harg Hf. unfold mem_alloc_map. eapply or_error_bind; [apply mem_alloc_vpage_spec|].
  intros [[va sp1] s1] (T1 & Hk & [(-> & Hb & _)|(-> & Hfr & Htk & Hcov)]).
  - rewrite Z.eqb_refl. simpl. exists T1. left. done.
  - rewrite (at_valid at_ Hat) by done. cbn [negb].
    destruct Hk as [(Hpt & Hty & Hul) Hw Htr Ho Htab Hfrm].
    eapply or_error_bind; [by apply (mem_map_spec sp1 s1 T1 at_ pages n flags)|].
    intros [sp2 s2] (T2 & pa & [(Hpt2 & Hty2 & Hul2) Hw2 Hmap Htgt Hpa2 Ho2 Htab2 Hfr2]). simpl.
    exists T2. right. split; [done|]. split; [done|]. exists pa. rewrite Hpt in *. split; try done.
    + split_and!; congruence.
    + intros x Hx. destruct (Hmap x Hx) as [E1 E2]. rewrite E1, E2, Htr, (Htk x Hx).
      split; [done|]. by destruct (_ && _).
    + destruct pages; [done|]. intros x Hx. destruct (Htgt x Hx) as (O1 & O2 & O3).
      split_and!; auto.
    + auto.
    + intros x Hx. destruct (Htab2 x Hx) as [Hin|]; [|by auto]. by apply Htab.
    + intros x Hx1 Hx2. rewrite Hfr2, Hfrm; try done; [|by auto]. intros Hin.
      destruct (Htab x Hin); done.
Qed.

Lemma mem_alloc_map_dev_spec pa :
  page_addr pa -> pa + n * PAGE_SIZE <= 2 ^ 48 ->
  or_error (fun '(va, sp', s') => exists T', alloc_map_post (Some (Ppages pa n)) va sp' s' T')
    (mem_alloc_map_dev sp at_ pa n s).
Proof using All.
  intros Hpa Hlim.
  assert (Hf : flags_ok (if decide (as_type sp = AS_HYP) then PTE_HYP_DEV_FLAGS else PTE_VM_DEV_FLAGS))
    by by destruct (decide _).
  pose proof (mem_alloc_map_spec (Some (Ppages pa n)) _ ltac:(done) Hf) as Hm.
  pose proof mem_alloc_vpage_spec as Hv. unfold mem_alloc_map in Hm. unfold mem_alloc_map_dev.
  destruct (mem_alloc_vpage sp at_ n s) as [[[va sp1] s1]|h]; [|done]. mstep.
  destruct Hv as (T1 & [(_ & Hty & _) _ _ _ _ _] & _). by rewrite Hty.
Qed.

End alloc.

End vpage.

(** ** Translation by hardware *)

(** What the architecture says of the instruction with stage 1 off and the tables
    at [r]: the walk's page in bits 12 to 47 of [PAR_EL1], or the fault bit. *)
Definition at_walks (arm_at_s12e1w : mem -> Z -> Z) (r : Z) : Prop :=
  forall m va, bytes_ok m -> match translate m r va with
    | Some pa => Z.land (arm_at_s12e1w m va) PAR_F = 0 /\ addr_of (arm_at_s12e1w m va) = pa / PAGE_SIZE * PAGE_SIZE
    | None => Z.land (arm_at_s12e1w m va) PAR_F = 1
    end.

Lemma mem_translate_walks arm_at_s12e1w r m va pa :
  at_walks arm_at_s12e1w r -> bytes_ok m -> translate m r va = Some pa -> 0 <= va -> 0 <= pa < 2 ^ 38 -> pa mod PAGE_SIZE = va mod PAGE_SIZE ->
  mem_translate arm_at_s12e1w m va = Ok pa.
Proof.
  intros Hat Hm Ht Hva Hpa Hmod. specialize (Hat m va Hm). rewrite Ht in Hat. destruct Hat as [HF Ha].
  unfold mem_translate. rewrite HF. cbn [Z.eqb negb]. f_equal.
  change (PAGE_SIZE - 1) with (Z.ones 12). rewrite Z.land_ones by lia. change (2 ^ 12) with PAGE_SIZE. rewrite <- Hmod.
  assert (Z.land (arm_at_s12e1w m va) PAR_PA_MSK = Z.land (pa / PAGE_SIZE * PAGE_SIZE) PAR_PA_MSK) as ->.
  { rewrite <- Ha. unfold addr_of. rewrite <- Z.land_assoc. f_equal. }
  change PAGE_SIZE with (2 ^ 12). rewrite <- Z.shiftr_div_pow2, <- Z.shiftl_mul_pow2, <- Z.land_ones by lia.
  apply Z.bits_inj'. intros i Hi. unfold PAR_PA_MSK. change 0x3ffffff with (Z.ones 26).
  rewrite Z.lor_spec, !Z.land_spec, !Z.shiftl_spec, !Z.testbit_ones by lia.
  destruct (Z.ltb_spec i 12) as [Hlt|Hge].
  - rewrite !(Z.testbit_neg_r _ (i - 12)) by lia. rewrite (proj2 (Z.leb_le 0 i)) by lia. apply andb_true_r.
  - rewrite andb_false_r, andb_false_r, orb_false_r. rewrite Z.shiftr_spec by lia. replace (i - 12 + 12) with i by lia.
    destruct (Z.ltb_spec (i - 12) 26).
    + rewrite (proj2 (Z.leb_le 0 (i - 12))) by lia. apply andb_true_r.
    + by rewrite (testbit_small pa 38 i) by lia.
Qed.

(** Hardware that walks the tables at [r]. *)
Definition walk_at (r : Z) (m : mem) (va : Z) : Z :=
  match translate m r va with Some pa => pa / PAGE_SIZE * PAGE_SIZE | None => 1 end.

Lemma translate_range m r va pa : bytes_ok m -> translate m r va = Some pa -> 0 <= pa < 2 ^ 48.
Proof.
  intros Hm. destruct (leaf_at_exists m r va) as (k & a & Hk & _ & _ & El). rewrite translate_leaf_at, El. cbn [fst snd].
  assert (0 <= PageTable.entry m a va (Z.of_nat k)) as He by apply (load_le_range m _ 8 Hm).
  set (e := PageTable.entry m a va (Z.of_nat k)) in *. destruct (addr_of_page e He) as [Hr Hal].
  assert (forall j, 12 <= j <= 30 -> 0 <= addr_of e / 2 ^ j * 2 ^ j + va mod 2 ^ j < 2 ^ 48) as Hj.
  { intros j Hj. assert (0 < 2 ^ j) by (apply Z.pow_pos_nonneg; lia). pose proof (Z.mod_pos_bound va (2 ^ j)).
    assert (2 ^ 48 = 2 ^ (48 - j) * 2 ^ j) as E by (rewrite <- Z.pow_add_r by lia; f_equal; lia).
    assert (0 <= addr_of e / 2 ^ j < 2 ^ (48 - j)) by (split; [apply Z.div_pos; lia|apply Z.div_lt_upper_bound; lia]). nia. }
  unfold leaf. destruct (Z.eqb_spec (Z.of_nat k) 3) as [E3|E3].
  - destruct (is_table e); [|done]. intros [= <-]. specialize (Hj 12 ltac:(lia)). change PAGE_SIZE with (2 ^ 12) in Hal.
    pose proof (Z.div_mod (addr_of e) (2 ^ 12)). lia.
  - destruct (is_block e && (0 <? Z.of_nat k)) eqn:Eb; [|done]. intros [= <-]. apply Hj. unfold shift_of. lia.
Qed.

Lemma walk_at_walks r : at_walks (walk_at r) r.
Proof.
  intros m va Hm. unfold walk_at. destruct (translate m r va) as [pa|] eqn:E; [|done]. apply translate_range in E; [|done].
  change PAGE_SIZE with (2 ^ 12). rewrite <- Z.shiftr_div_pow2, <- Z.shiftl_mul_pow2 by lia. split.
  - apply Z.bits_inj'. intros i Hi. rewrite Z.land_spec, Z.shiftl_spec, Z.bits_0 by lia.
    destruct (Z.ltb_spec i 12); [by rewrite Z.testbit_neg_r by lia|].
    change PAR_F with (Z.ones 1). rewrite Z.testbit_ones by lia. rewrite (proj2 (Z.ltb_ge i 1)) by lia. by rewrite !andb_false_r.
  - apply Z.bits_inj'. intros i Hi. unfold addr_of. rewrite Z.land_spec, Z.shiftl_spec, testbit_ADDR_MSK by lia.
    destruct (Z.ltb_spec i 12) as [|Hge]; [by rewrite Z.testbit_neg_r by lia|]. rewrite Z.shiftr_spec by lia.
    replace (i - 12 + 12) with i by lia. destruct (Z.ltb_spec i 48).
    + rewrite (proj2 (Z.leb_le 12 i)) by lia. apply andb_true_r.
    + by rewrite (testbit_small pa 48 i) by lia.
Qed.

(** ** Writes that miss the tables *)

Lemma entry_kept m m' T a l va k :
  (forall x, in_tables T x -> load8 m' x = load8 m x) -> T !! a = Some l ->
  PageTable.entry m' a va k = PageTable.entry m a va k.
Proof.
  intros Hk Ha. unfold PageTable.entry, load64. apply load_le_ext. intros j Hj. apply Hk. exists a, l.
  pose proof (idx_range va k). unfold PAGE_SIZE. split; [done|lia].
Qed.

Lemma tables_write m m' r T :
  pt_wf m r T -> bytes_ok m' -> (forall x, in_tables T x -> load8 m' x = load8 m x) ->
  pt_wf m' r T /\ forall va, translate m' r va = translate m r va /\ busy m' r va = busy m r va.
Proof.
  intros Hwf Hb Hk.
  assert (forall a l i, T !! a = Some l -> 0 <= i < 512 -> load64 m' (a + 8 * i) = load64 m (a + 8 * i)) as Hld.
  { intros a l i Ha Hin. apply load_le_ext. intros j Hj. apply Hk. exists a, l. unfold PAGE_SIZE. split; [done|lia]. }
  split.
  - destruct Hwf as [W1 W2 W3 W4 W5 W6 W7]. split; try done.
    + intros a l i Ha Hl Hin. rewrite (Hld a l) by done. by apply W4.
    + intros a l i a' l' i' Ha Hl Hin Ht Ha' Hl' Hin'. revert Ht. rewrite (Hld a l), (Hld a' l') by done. intros Ht Ht2 He. by apply (W5 a l i a' l' i').
    + intros a l i Ha Hl Hin. rewrite (Hld a l) by done. by apply (W6 a l).
    + intros a l i Ha Hl Hin. rewrite (Hld a l) by done. by apply (W7 a l).
  - intros va. destruct (walk_ext m r va m') as [Hw _].
    { intros k a Hkk Hp. apply (entry_kept m m' T a (Z.of_nat k)); [done|]. by apply (path_level m r T Hwf va). }
    unfold busy. by rewrite !translate_leaf_at, Hw.
Qed.

(** ** The properties *)

(** A VM address space over [demo_pool]: the root table, still empty, is the
    pool's first page. *)
Definition vm_root : Z := 0x50010000.
Definition vm_space : addr_space :=
  AddrSpace (PageTable vm_root vm_pt_dscr) AS_VM 1 SPINLOCK_INITVAL.
Definition vm_pool : page_pool :=
  PagePool vm_root 64 62 1 [1; 0x80000000] SPINLOCK_INITVAL.
Definition vm_state : page_pool * mem := (vm_pool, ∅).

Lemma vm_state_wf : space_wf vm_space vm_state {[vm_root := 0]}.
Proof.
  split.
  - by apply empty_tree.
  - done.
  - split; [|done]. split; [|done]. split; try done; try (simpl; lia).
    split; [|done]. repeat constructor; lia.
  - intros a l x Ha Hx [_ Hf]. apply lookup_singleton_Some in Ha as [<- _].
    assert ((x - base vm_pool) / PAGE_SIZE = 0) as E.
    { apply Z.div_small. unfold vm_pool, base, PAGE_SIZE in *. lia. }
    cbn [fst vm_state] in Hf. rewrite E in Hf. by vm_compute in Hf.
Qed.

(** C2: [mem_alloc_map] at a page-aligned address, for any well-formed address
    space and page allocator, either stops in [ERROR] for lack of pages or
    returns.  If no page of the range was mapped or reserved it returns the
    address, the range translates to the given pages (or to fresh pages that
    belong to neither the allocator nor any table), and no other address changes
    its translation; otherwise it returns [INVALID_VA] and no translation
    changes.  No byte outside the tables and the free pages is written. *)
Theorem mem_alloc_map_correct {P : Type} `{PageAllocator P} sp (s : P * mem) T at_ n pages flags :
  space_wf sp s T -> unlocked (as_lock sp) -> page_addr at_ -> 1 <= n ->
  at_ + n * PAGE_SIZE <= 2 ^ 48 -> pages_arg pages n -> flags_ok flags ->
  or_error (fun '(va, sp', s') => exists T', alloc_map_post sp s T at_ n pages va sp' s' T')
    (mem_alloc_map sp pages at_ n flags s).
Proof. intros. by apply mem_alloc_map_spec. Qed.

Lemma mem_alloc_map_correct_witness :
  match mem_alloc_map vm_space None 0x1FF000 2 PTE_VM_FLAGS vm_state with
  | Ok (va, sp', s') =>
      va = 0x1FF000 /\ translate s'.2 vm_root 0x200123 = Some 0x50017123 /\
      exists T', alloc_map_post vm_space vm_state {[vm_root := 0]} 0x1FF000 2 None va sp' s' T'
  | Halt _ => False
  end.
Proof.
  pose proof (mem_alloc_map_correct vm_space vm_state {[vm_root := 0]} 0x1FF000 2 None PTE_VM_FLAGS
    vm_state_wf ltac:(done) ltac:(done) ltac:(lia) ltac:(done) ltac:(done) ltac:(done)) as H.
  assert (Hc : match mem_alloc_map vm_space None 0x1FF000 2 PTE_VM_FLAGS vm_state with
    | Ok (va, sp', s') => va = 0x1FF000 /\ translate s'.2 vm_root 0x200123 = Some 0x50017123
    | Halt _ => False end) by (vm_compute; split; reflexivity).
  destruct (mem_alloc_map vm_space None 0x1FF000 2 PTE_VM_FLAGS vm_state) as [[[va sp'] s']|h];
    [|exact Hc].
  destruct Hc as [Hva Ht]. split; [exact Hva|]. split; [exact Ht|exact H].
Defined.

(** [mem_map] makes exactly the requested pages translate to the given
    block, and changes no other translation, provided the inflation of the
    tables reaches every page of the range (as after [mem_alloc_vpage]). *)
Theorem mem_map_correct {P : Type} `{PageAllocator P} sp (s : P * mem) T va pages n flags :
  space_wf sp s T -> unlocked (as_lock sp) -> page_addr va -> 1 <= n ->
  va + n * PAGE_SIZE <= 2 ^ 48 -> pages_arg pages n -> flags_ok flags ->
  covered sp va (n * PAGE_SIZE) s ->
  or_error (fun '(sp', s') => exists T' pa, map_post sp s T va n pages sp' s' T' pa)
    (mem_map sp va pages n flags s).
Proof. intros. by apply mem_map_spec. Qed.

Lemma mem_map_correct_witness :
  match mem_map vm_space 0 (Some (Ppages 0x60000000 2)) 2 PTE_VM_FLAGS vm_state with
  | Ok (sp', s') => exists T' pa,
      map_post vm_space vm_state {[vm_root := 0]} 0 2 (Some (Ppages 0x60000000 2)) sp' s' T' pa
  | Halt h => h = HError
  end.
Proof.
  assert (Hcov : covered vm_space 0 (2 * PAGE_SIZE) vm_state).
  { intros x k Hx Hk. left. rewrite Z.div_0_l by (apply Z.pow_nonzero; unfold shift_of; lia).
    assert (k = 0 \/ k = 1 \/ k = 2)%nat as [->|[->| ->]] by lia;
      rewrite Z.div_small by (unfold PAGE_SIZE in *; change (shift_of (Z.of_nat 0)) with 39;
        change (shift_of (Z.of_nat 1)) with 30; change (shift_of (Z.of_nat 2)) with 21; lia); done. }
  pose proof (mem_map_correct vm_space vm_state {[vm_root := 0]} 0 (Some (Ppages 0x60000000 2)) 2
    PTE_VM_FLAGS vm_state_wf ltac:(done) ltac:(done) ltac:(lia) ltac:(done) ltac:(done) ltac:(done)
    Hcov) as H.
  destruct (mem_map vm_space 0 (Some (Ppages 0x60000000 2)) 2 PTE_VM_FLAGS vm_state)
    as [[sp' s']|h]; exact H.
Defined.

(** [mem_expand_pte], on an entry the walk of [va] reaches, turns a block or an
    empty entry into a table without changing the translation or the reservation
    of any address (a block becomes 512 entries that map the same bytes), keeps
    the tree well-formed, and lets the walk of [va] reach the next level. *)
Theorem mem_expand_pte_correct {P : Type} `{PageAllocator P} sp (s : P * mem) T va k :
  space_wf sp s T -> (k < 3)%nat -> reaches sp s va k ->
  or_error (fun s' => exists T', grows sp s s' T T' /\ reaches sp s' va (S k))
    (mem_expand_pte sp va (Z.of_nat k) s).
Proof. apply mem_expand_pte_spec. Qed.

Lemma mem_expand_pte_correct_witness :
  or_error (fun s' => exists T', grows vm_space vm_state s' {[vm_root := 0]} T' /\
      reaches vm_space s' 0x40100000 1%nat)
    (mem_expand_pte vm_space 0x40100000 (Z.of_nat 0) vm_state).
Proof.
  assert (Hr : reaches vm_space vm_state 0x40100000 0) by (exists vm_root; reflexivity).
  exact (mem_expand_pte_correct vm_space vm_state {[vm_root := 0]} 0x40100000 0
    vm_state_wf ltac:(lia) Hr).
Defined.

(** [as_init] gives an address space that is well-formed, unlocked and maps
    and reserves nothing, in memory that the allocator owned. *)
Theorem as_init_correct {P : Type} `{PageAllocator P} type id (s : P * mem) :
  pa_inv s.1 -> bytes_ok s.2 ->
  or_error (fun '(sp, s') => exists T', space_wf sp s' T' /\ unlocked (as_lock sp) /\
      as_type sp = type /\
      (forall x, translate s'.2 (root (as_pt sp)) x = None /\ busy s'.2 (root (as_pt sp)) x = false) /\
      (forall x, in_tables T' x -> pa_owns s.1 x) /\
      (forall x, ~ pa_owns s.1 x -> load8 s'.2 x = load8 s.2 x))
    (as_init type id 0 s).
Proof. apply as_init_spec. Qed.

Lemma as_init_correct_witness :
  or_error (fun '(sp, s') => exists T', space_wf sp s' T' /\ as_type sp = AS_VM)
    (as_init AS_VM 1 0 (demo_pool, ∅)).
Proof.
  assert (Hinv : pa_inv demo_pool) by (split; [apply demo_pool_wf|done]).
  refine (or_error_mono _ _ _ (as_init_correct AS_VM 1 (demo_pool, ∅) Hinv ltac:(done)) _).
  intros [sp s'] (T' & Hw & _ & Ht & _). exists T'. split; assumption.
Defined.

(** [mem_map] on its own does not reach every page of a range that starts off
    a table boundary: mapping two pages at [0x1FF000] in an empty address space
    returns, but the second page is not mapped, and its entry is written to
    physical address 0, which belongs to no table and was not free. *)
Theorem mem_map_straddle :
  match mem_map vm_space 0x1FF000 (Some (Ppages 0x60000000 2)) 2 PTE_VM_FLAGS vm_state with
  | Ok (_, s') =>
      translate s'.2 vm_root 0x1FF000 = Some 0x60000000 /\
      translate s'.2 vm_root 0x200000 = None /\
      load64 vm_state.2 0 = 0 /\ load64 s'.2 0 = pte_make 0x60001000 PTE_PAGE PTE_VM_FLAGS
  | Halt _ => False
  end.
Proof. vm_compute. split_and!; reflexivity. Qed.

(** C38: [mem_free_ppages] never returns: on pages of a well-formed pool it stops
    at its second [spin_lock], which waits for the lock it holds. *)
Theorem mem_free_ppages_deadlock pool i n :
  pool_wf pool -> 0 <= i -> 0 <= n -> i + n <= nr_pages pool ->
  mem_free_ppages pool (Ppages (base pool + i * PAGE_SIZE) n) = Halt HDeadlock.
Proof.
  intros [Hok Hl] Hi Hn Hle. unfold mem_free_ppages. cbn [pp_base pp_nr_pages].
  destruct (spin_lock_unlock _ Hl) as (l & -> & _ & Hdead). mstep.
  pose proof (wf_nr _ Hok). pose proof (wf_limit _ Hok). pose proof (wf_base _ Hok) as [Hb _].
  pose proof (wf_size _ Hok).
  replace (base pool + i * PAGE_SIZE - base pool) with (i * PAGE_SIZE) by lia.
  rewrite (u64_small (i * _)), Z.div_mul by (unfold PAGE_SIZE in *; lia).
  destruct (bitmap_clear_consecutive_spec (bitmap pool) i n) as (map' & E & _);
    [apply Hok|lia..|]. rewrite E. destruct (in_range _ _ _); mstep; by rewrite Hdead.
Qed.

Lemma mem_free_ppages_deadlock_witness :
  mem_free_ppages demo_pool (Ppages 0x50012000 4) = Halt HDeadlock.
Proof. apply (mem_free_ppages_deadlock demo_pool 2 4); [apply demo_pool_wf|simpl; lia..]. Defined.

(** [mem_unmap] can leave a page of its range mapped: with only the page at
    [0x200000] mapped, unmapping the two pages at [0x1FF000] steps over it,
    because an entry that is not valid is skipped from the middle of its block. *)
Theorem mem_unmap_skips :
  match mem_alloc_map vm_space None 0x200000 1 PTE_VM_FLAGS vm_state with
  | Ok (_, sp', s') =>
      match mem_unmap 10 sp' 0x1FF000 2 false s' with
      | Ok (_, s'') => translate s''.2 vm_root 0x200000 = translate s'.2 vm_root 0x200000 /\
          translate s'.2 vm_root 0x200000 <> None
      | Halt _ => False
      end
  | Halt _ => False
  end.
Proof. vm_compute. split; [reflexivity|done]. Qed.
