(* ===== verification/Dlist.v ===== *)
(** The intrusive doubly linked lists of [lib/inc/list.h] and the queues built
    on them.

    The links of all list nodes form one heap, a map from nodes to their [next]
    and [prev] pointers; the node type is a parameter, so that a component picks
    its own (an interrupt, a snapshot pool, a task).  [None] is a pointer to no
    node: NULL, and the two poison values [list_del] leaves behind; following it
    faults.  A node whose links were never written holds NULL pointers.

    Every operation is the sequence of field writes of the source.  The second
    half relates them to plain sequences: a heap represents a family of
    disjoint sequences, each under its head, and every operation carries one
    such heap to another that represents the updated sequences. *)

From S2P Require Import Prelude.

Section links.
Context {K : Type} `{Countable K}.

Record link := Link { lnext : option K; lprev : option K }.

Abbreviation links := (gmap K link).
Abbreviation ptr := (option K).

Definition nd (m : links) (k : K) : link := default (Link None None) (m !! k).

Definition get_next (m : links) (p : ptr) : outcome ptr :=
  match p with Some k => Ok (lnext (nd m k)) | None => Halt HFault end.

Definition get_prev (m : links) (p : ptr) : outcome ptr :=
  match p with Some k => Ok (lprev (nd m k)) | None => Halt HFault end.

Definition upd_next (m : links) (k : K) (q : ptr) : links := <[k := Link q (lprev (nd m k))]> m.
Definition upd_prev (m : links) (k : K) (q : ptr) : links := <[k := Link (lnext (nd m k)) q]> m.

Definition set_next (m : links) (p q : ptr) : outcome links :=
  match p with Some k => Ok (upd_next m k q) | None => Halt HFault end.

Definition set_prev (m : links) (p q : ptr) : outcome links :=
  match p with Some k => Ok (upd_prev m k q) | None => Halt HFault end.

(** ** Operations *)

Definition LIST_POISON1 : ptr := None.
Definition LIST_POISON2 : ptr := None.

Definition INIT_LIST_HEAD (m : links) (list : ptr) : outcome links :=
  m ← set_next m list list;
  set_prev m list list.

Definition __list_add (m : links) (new prev next : ptr) : outcome links :=
  m ← set_prev m next new;
  m ← set_next m new next;
  m ← set_prev m new prev;
  set_next m prev new.

Definition list_add (m : links) (new head : ptr) : outcome links :=
  next ← get_next m head;
  __list_add m new head next.

Definition list_add_tail (m : links) (new head : ptr) : outcome links :=
  prev ← get_prev m head;
  __list_add m new prev head.

Definition __list_del (m : links) (prev next : ptr) : outcome links :=
  m ← set_prev m next prev;
  set_next m prev next.

Definition list_del (m : links) (entry : ptr) : outcome links :=
  prev ← get_prev m entry;
  next ← get_next m entry;
  m ← __list_del m prev next;
  m ← set_next m entry LIST_POISON1;
  set_prev m entry LIST_POISON2.

Definition list_replace (m : links) (old new : ptr) : outcome links :=
  next ← get_next m old;
  m ← set_next m new next;
  next ← get_next m new;
  m ← set_prev m next new;
  prev ← get_prev m old;
  m ← set_prev m new prev;
  prev ← get_prev m new;
  set_next m prev new.

Definition list_replace_init (m : links) (old new : ptr) : outcome links :=
  m ← list_replace m old new;
  INIT_LIST_HEAD m old.

Definition list_del_init (m : links) (entry : ptr) : outcome links :=
  prev ← get_prev m entry;
  next ← get_next m entry;
  m ← __list_del m prev next;
  INIT_LIST_HEAD m entry.

Definition list_move (m : links) (list head : ptr) : outcome links :=
  prev ← get_prev m list;
  next ← get_next m list;
  m ← __list_del m prev next;
  list_add m list head.

Definition list_move_tail (m : links) (list head : ptr) : outcome links :=
  prev ← get_prev m list;
  next ← get_next m list;
  m ← __list_del m prev next;
  list_add_tail m list head.

Definition ptr_eqb (p q : ptr) : bool := bool_decide (p = q).

Definition list_is_last (m : links) (list head : ptr) : outcome bool :=
  next ← get_next m list;
  Ok (ptr_eqb next head).

Definition list_empty (m : links) (head : ptr) : outcome bool :=
  next ← get_next m head;
  Ok (ptr_eqb next head).

Definition list_empty_careful (m : links) (head : ptr) : outcome bool :=
  next ← get_next m head;
  prev ← get_prev m head;
  Ok (ptr_eqb next head && ptr_eqb next prev).

Definition list_is_singular (m : links) (head : ptr) : outcome bool :=
  e ← list_empty m head;
  next ← get_next m head;
  prev ← get_prev m head;
  Ok (negb e && ptr_eqb next prev).

Definition __list_cut_position (m : links) (list head entry : ptr) : outcome links :=
  new_first ← get_next m entry;
  next ← get_next m head;
  m ← set_next m list next;
  next ← get_next m list;
  m ← set_prev m next list;
  m ← set_prev m list entry;
  m ← set_next m entry list;
  m ← set_next m head new_first;
  set_prev m new_first head.

Definition list_cut_position (m : links) (list head entry : ptr) : outcome links :=
  e ← list_empty m head;
  if (e : bool) then Ok m else
  sing ← list_is_singular m head;
  next ← get_next m head;
  if sing && (negb (ptr_eqb next entry) && negb (ptr_eqb head entry)) then Ok m else
  if ptr_eqb entry head then INIT_LIST_HEAD m list
  else __list_cut_position m list head entry.

Definition __list_splice (m : links) (list prev next : ptr) : outcome links :=
  first ← get_next m list;
  last ← get_prev m list;
  m ← set_prev m first prev;
  m ← set_next m prev first;
  m ← set_next m last next;
  set_prev m next last.

Definition list_splice (m : links) (list head : ptr) : outcome links :=
  e ← list_empty m list;
  if (e : bool) then Ok m else
  next ← get_next m head;
  __list_splice m list head next.

Definition list_splice_tail (m : links) (list head : ptr) : outcome links :=
  e ← list_empty m list;
  if (e : bool) then Ok m else
  prev ← get_prev m head;
  __list_splice m list prev head.

Definition list_splice_init (m : links) (list head : ptr) : outcome links :=
  e ← list_empty m list;
  if (e : bool) then Ok m else
  next ← get_next m head;
  m ← __list_splice m list head next;
  INIT_LIST_HEAD m list.

Definition list_splice_tail_init (m : links) (list head : ptr) : outcome links :=
  e ← list_empty m list;
  if (e : bool) then Ok m else
  prev ← get_prev m head;
  m ← __list_splice m list prev head;
  INIT_LIST_HEAD m list.

(** [list_first_entry], [list_last_entry]: the node; the structure it is
    embedded in is the component's business. *)
Definition list_first_entry (m : links) (head : ptr) : outcome ptr := get_next m head.
Definition list_last_entry (m : links) (head : ptr) : outcome ptr := get_prev m head.

(** [list_for_each_entry]: from [pos] on, until the head comes round or the
    body leaves the loop. *)
Fixpoint list_iter {S : Type} (fuel : nat) (m : links) (head : K) (pos : ptr)
    (body : K -> S -> outcome (S * bool)) (s : S) : outcome S :=
  match fuel with
  | O => Halt HFuel
  | Datatypes.S fuel =>
      match pos with
      | None => Halt HFault
      | Some k =>
          if decide (k = head) then Ok s else
          '(s, brk) ← body k s;
          if (brk : bool) then Ok s else list_iter fuel m head (lnext (nd m k)) body s
      end
  end.

Definition list_for_each_entry {S : Type} (fuel : nat) (m : links) (head : K)
    (body : K -> S -> outcome (S * bool)) (s : S) : outcome S :=
  pos ← get_next m (Some head);
  list_iter fuel m head pos body s.

(** *** Queues *)

Definition INIT_FIFO (m : links) (fifo : ptr) : outcome links := INIT_LIST_HEAD m fifo.

Definition fifo_in (m : links) (new head : ptr) : outcome links := list_add_tail m new head.

Definition fifo_out (m : links) (head : ptr) : outcome (ptr * links) :=
  list ← get_next m head;
  m ← list_del m list;
  Ok (list, m).

Definition fifo_empty (m : links) (fifo : ptr) : outcome bool := list_empty m fifo.

(** ** Sequences *)

Definition linked (m : links) (x y : K) : Prop :=
  lnext (nd m x) = Some y /\ lprev (nd m y) = Some x.

(** Neighbours of [L] are linked to each other. *)
Fixpoint seg (m : links) (L : list K) : Prop :=
  match L with
  | x :: (y :: _) as r => linked m x y /\ seg m r
  | _ => True
  end.

(** The entries under head [h], in order. *)
Definition is_list (m : links) (h : K) (l : list K) : Prop :=
  NoDup (h :: l) /\ seg m (h :: l ++ [h]).

(** Only the links of nodes in [D] differ. *)
Definition untouched (m m' : links) (D : list K) : Prop :=
  forall k, k ∉ D -> nd m' k = nd m k.

Lemma nd_upd_next m k q j :
  nd (upd_next m k q) j = if decide (j = k) then Link q (lprev (nd m k)) else nd m j.
Proof.
  unfold nd, upd_next. destruct (decide (j = k)) as [->|]; [by rewrite lookup_insert_eq|].
  by rewrite lookup_insert_ne.
Qed.

Lemma nd_upd_prev m k q j :
  nd (upd_prev m k q) j = if decide (j = k) then Link (lnext (nd m k)) q else nd m j.
Proof.
  unfold nd, upd_prev. destruct (decide (j = k)) as [->|]; [by rewrite lookup_insert_eq|].
  by rewrite lookup_insert_ne.
Qed.

Lemma seg_app m A x B : seg m (A ++ x :: B) <-> seg m (A ++ [x]) /\ seg m (x :: B).
Proof.
  induction A as [|a A IH]; [simpl; destruct B; naive_solver|].
  destruct A as [|a' A]; simpl in *; [destruct B; naive_solver|]. naive_solver.
Qed.

Lemma seg_ext m m' L :
  (forall k, k ∈ removelast L -> lnext (nd m' k) = lnext (nd m k)) ->
  (forall k, k ∈ tail L -> lprev (nd m' k) = lprev (nd m k)) ->
  seg m L -> seg m' L.
Proof.
  induction L as [|x [|y L] IH]; [done..|]. intros Hn Hp [[Hl1 Hl2] Hs].
  split; [split|].
  - rewrite Hn; [done|]. simpl. left.
  - rewrite Hp; [done|]. simpl. left.
  - apply IH; [| |done].
    + intros k Hk. apply Hn. simpl in *. by right.
    + intros k Hk. apply Hp. simpl in *. by right.
Qed.

(** What [NoDup] of a ring says of its linear unfolding: the nodes whose [next]
    it reads are distinct, and so are those whose [prev] it reads. *)
Definition ring (L : list K) : Prop := NoDup (removelast L) /\ NoDup (tail L).

Lemma removelast_app_cons (A : list K) x B : removelast (A ++ x :: B) = A ++ removelast (x :: B).
Proof. apply removelast_app. done. Qed.

Lemma tail_app_cons (A : list K) x B : tail (A ++ x :: B) = tail (A ++ [x]) ++ B.
Proof. destruct A; simpl; [done|]. by rewrite <- app_assoc. Qed.

Lemma ring_is_list h l : ring (h :: l ++ [h]) <-> NoDup (h :: l).
Proof.
  unfold ring. change (h :: l ++ [h]) with ((h :: l) ++ [h]) at 1.
  rewrite removelast_last. simpl. split; [tauto|]. intros Hd. split; [done|].
  apply NoDup_app. apply NoDup_cons in Hd as [Hh Hd]. split_and!; [done| |apply NoDup_singleton].
  set_solver.
Qed.

Ltac nd_simpl := repeat (rewrite ?nd_upd_next, ?nd_upd_prev in *; simpl in *).
Ltac nd_solve := nd_simpl; repeat (case_decide; simplify_eq; simpl in *); try done.

(** The nodes [x] of a ring [A ++ p :: n :: B] besides [p] and [n]. *)
Lemma ring_at A p n B :
  ring (A ++ p :: n :: B) ->
  (forall k, k ∈ A -> k ≠ p) /\ (forall k, k ∈ removelast (n :: B) -> k ≠ p) /\
  (forall k, k ∈ tail (A ++ [p]) -> k ≠ n) /\ (forall k, k ∈ B -> k ≠ n).
Proof.
  intros [Hr1 Hr2]. rewrite removelast_app_cons in Hr1. rewrite tail_app_cons in Hr2.
  apply NoDup_app in Hr1 as (_ & Hd1 & Hd2). apply NoDup_cons in Hd2 as [Hd2 _].
  apply NoDup_app in Hr2 as (_ & Hd3 & Hd4). apply NoDup_cons in Hd4 as [Hd4 _].
  split_and!; intros k Hk ->; [apply (Hd1 _ Hk); left|done|apply (Hd3 _ Hk); left|done].
Qed.

Lemma elem_of_removelast (k : K) L : k ∈ removelast L -> k ∈ L.
Proof.
  destruct L as [|x L _] using rev_ind; [done|]. rewrite removelast_last. set_solver.
Qed.

Lemma elem_of_tail (k : K) L : k ∈ tail L -> k ∈ L.
Proof. destruct L; set_solver. Qed.

Lemma seg_insert m A p n B new :
  seg m (A ++ p :: n :: B) -> ring (A ++ p :: n :: B) -> new ∉ A ++ p :: n :: B ->
  seg (upd_next (upd_prev (upd_next (upd_prev m n (Some new)) new (Some n)) new (Some p)) p (Some new))
    (A ++ p :: new :: n :: B).
Proof.
  intros Hs Hr Hn. apply seg_app in Hs as [HA [Hpn HB]].
  apply ring_at in Hr as (Hd1 & Hd2 & Hd3 & Hd4).
  assert (forall k, k ∈ A ++ [p] -> k ≠ new) as N1 by (clear -Hn; set_solver).
  assert (forall k, k ∈ n :: B -> k ≠ new) as N2 by (clear -Hn; set_solver).
  assert (p ≠ new) by (apply N1; set_solver). assert (n ≠ new) by (apply N2; left).
  apply seg_app. split; [|split; [|split]].
  - revert HA. apply seg_ext; intros k Hk.
    + pose proof (N1 k (elem_of_removelast _ _ Hk)). rewrite removelast_last in Hk.
      pose proof (Hd1 k Hk). nd_solve.
    + pose proof (N1 k (elem_of_tail _ _ Hk)). pose proof (Hd3 k Hk). nd_solve.
  - split; nd_solve.
  - split; nd_solve.
  - revert HB. apply seg_ext; intros k Hk.
    + pose proof (N2 k (elem_of_removelast _ _ Hk)). pose proof (Hd2 k Hk). nd_solve.
    + pose proof (N2 k (elem_of_tail _ _ Hk)). pose proof (Hd4 k Hk). nd_solve.
Qed.

Lemma ring_skip A p x n B : ring (A ++ p :: x :: n :: B) -> ring (A ++ p :: n :: B).
Proof.
  intros [H1 H2]. split.
  - rewrite removelast_app_cons in H1 |- *. apply (sublist_NoDup _ _ H1).
    apply sublist_app; [done|]. apply sublist_skip, sublist_cons. done.
  - rewrite tail_app_cons in H2 |- *. apply (sublist_NoDup _ _ H2).
    apply sublist_app; [done|]. apply sublist_cons. done.
Qed.

Lemma seg_delete m A p x n B :
  seg m (A ++ p :: x :: n :: B) -> ring (A ++ p :: x :: n :: B) ->
  seg (upd_next (upd_prev m n (Some p)) p (Some n)) (A ++ p :: n :: B).
Proof.
  intros Hs Hr. apply seg_app in Hs as [HA [Hpx [Hxn HB]]].
  apply ring_skip, ring_at in Hr as (Hd1 & Hd2 & Hd3 & Hd4).
  apply seg_app. split; [|split].
  - revert HA. apply seg_ext; intros k Hk.
    + rewrite removelast_last in Hk. pose proof (Hd1 k Hk). nd_solve.
    + pose proof (Hd3 k Hk). nd_solve.
  - split; nd_solve.
  - revert HB. apply seg_ext; intros k Hk.
    + pose proof (Hd2 k Hk). nd_solve.
    + pose proof (Hd4 k Hk). nd_solve.
Qed.

(** The two nodes between which a position of the list lies. *)
Lemma neighbours m h l1 l2 :
  is_list m h (l1 ++ l2) ->
  exists A p n B, h :: l1 = A ++ [p] /\ l2 ++ [h] = n :: B /\
    h :: (l1 ++ l2) ++ [h] = A ++ p :: n :: B /\
    lnext (nd m p) = Some n /\ lprev (nd m n) = Some p.
Proof.
  intros [_ Hs]. destruct (exists_last (l := h :: l1) ltac:(done)) as (A & p & HA).
  destruct (l2 ++ [h]) as [|n B] eqn:HB; [by destruct l2|].
  exists A, p, n, B. rewrite <- app_assoc, HB in Hs |- *.
  change (h :: l1 ++ n :: B) with ((h :: l1) ++ n :: B) in *. rewrite HA, <- app_assoc in *. simpl in *.
  apply seg_app in Hs as [_ [[? ?] _]]. done.
Qed.

Lemma add_at m h l1 l2 new :
  is_list m h (l1 ++ l2) -> new ∉ h :: l1 ++ l2 ->
  exists p n m', last (h :: l1) = Some p /\ head (l2 ++ [h]) = Some n /\
    lnext (nd m p) = Some n /\ lprev (nd m n) = Some p /\
    __list_add m (Some new) (Some p) (Some n) = Ok m' /\
    is_list m' h (l1 ++ new :: l2) /\ untouched m m' (new :: h :: l1 ++ l2).
Proof.
  intros Hl Hn. destruct (neighbours _ _ _ _ Hl) as (A & p & n & B & HA & HB & HL & Hpn & Hnp).
  destruct Hl as [Hd Hs]. exists p, n. eexists.
  split_and!; [by rewrite HA, last_snoc|by rewrite HB|done..| |].
  - split.
    + change (h :: l1 ++ new :: l2) with ((h :: l1) ++ new :: l2). rewrite <- Permutation_middle.
      apply NoDup_cons. done.
    + assert (h :: (l1 ++ new :: l2) ++ [h] = A ++ p :: new :: n :: B) as ->.
      { rewrite <- app_assoc. simpl. by rewrite HB, app_comm_cons, HA, <- app_assoc. }
      apply seg_insert.
      * by rewrite <- HL.
      * rewrite <- HL. by apply ring_is_list.
      * rewrite <- HL. clear -Hn. set_solver.
  - assert (p ∈ h :: l1) as Hp by (rewrite HA; set_solver).
    assert (n ∈ l2 ++ [h]) as Hn2 by (rewrite HB; left).
    intros k Hk. assert (k ≠ p /\ k ≠ n /\ k ≠ new) as (? & ? & ?) by (clear -Hp Hn2 Hk; set_solver).
    nd_solve.
Qed.

Lemma del_at m h l1 x l2 :
  is_list m h (l1 ++ x :: l2) ->
  exists p n m', lprev (nd m x) = Some p /\ lnext (nd m x) = Some n /\
    __list_del m (Some p) (Some n) = Ok m' /\ x ∉ h :: l1 ++ l2 /\
    is_list m' h (l1 ++ l2) /\ untouched m m' (h :: l1 ++ l2).
Proof.
  intros Hl. destruct (neighbours m h l1 (x :: l2) Hl) as (A & p & x' & B & HA & HB & HL & _ & Hp).
  simpl in HB. injection HB as <- <-. destruct Hl as [Hd Hs].
  destruct (l2 ++ [h]) as [|n B] eqn:HB; [by destruct l2|]. rewrite HL in Hs.
  assert (Hxn : linked m x n). { apply seg_app in Hs as [_ [_ [Hxn _]]]. done. }
  exists p, n. eexists. split_and!; [done|apply Hxn|done| | |].
  - rewrite app_comm_cons, <- Permutation_middle in Hd. by apply NoDup_cons in Hd as [? _].
  - split.
    + rewrite app_comm_cons, <- Permutation_middle in Hd. by apply NoDup_cons in Hd as [_ ?].
    + assert (h :: (l1 ++ l2) ++ [h] = A ++ p :: n :: B) as ->.
      { rewrite <- app_assoc. by rewrite HB, app_comm_cons, HA, <- app_assoc. }
      apply (seg_delete m A p x n B Hs). rewrite <- HL. by apply ring_is_list.
  - assert (p ∈ h :: l1) as Hpi by (rewrite HA; set_solver).
    assert (n ∈ l2 ++ [h]) as Hni by (rewrite HB; left).
    intros k Hk. assert (k ≠ p /\ k ≠ n) as (? & ?) by (clear -Hpi Hni Hk; set_solver).
    nd_solve.
Qed.

Lemma is_list_frame m m' h l :
  is_list m h l -> (forall k, k ∈ h :: l -> nd m' k = nd m k) -> is_list m' h l.
Proof.
  intros [Hd Hs] Hf. split; [done|]. revert Hs.
  apply seg_ext; intros k Hk; rewrite Hf; try done.
  - change (h :: l ++ [h]) with ((h :: l) ++ [h]) in Hk. by rewrite removelast_last in Hk.
  - simpl in Hk. clear -Hk. set_solver.
Qed.

Lemma is_list_ends m h l :
  is_list m h l ->
  lnext (nd m h) = Some (default h (head l)) /\ lprev (nd m h) = Some (default h (last l)).
Proof.
  intros Hl. split.
  - destruct (neighbours m h [] l Hl) as (A & p & n & B & HA & HB & _ & Hn & _).
    destruct A as [|? [|]]; simplify_eq/=. rewrite Hn. destruct l; simplify_eq/=; done.
  - rewrite <- (app_nil_r l) in Hl.
    destruct (neighbours m h l [] Hl) as (A & p & n & B & HA & HB & _ & _ & Hp). simplify_eq/=.
    rewrite Hp. f_equal. destruct l as [|x l _] using rev_ind; simplify_eq/=.
    + by destruct A as [|? [|]]; simplify_eq/=.
    + rewrite last_snoc. simpl. rewrite app_comm_cons in HA. by apply app_inj_tail in HA as [_ ?].
Qed.

(** Joining a sequence [l2] in between [p] and [n]. *)
Lemma seg_splice m A p n B f q l2 :
  seg m (A ++ p :: n :: B) -> ring (A ++ p :: n :: B) ->
  seg m l2 -> NoDup l2 -> head l2 = Some f -> last l2 = Some q ->
  (forall k, k ∈ A ++ p :: n :: B -> k ∉ l2) ->
  seg (upd_prev (upd_next (upd_next (upd_prev m f (Some p)) p (Some f)) q (Some n)) n (Some q))
    (A ++ p :: l2 ++ n :: B).
Proof.
  intros Hs Hr H2 Hd2 Hf Hq Hdis. apply seg_app in Hs as [HA [Hpn HB]].
  apply ring_at in Hr as (Hd1 & Hdp & Hd3 & Hd4).
  destruct l2 as [|f' r]; [done|]. injection Hf as ->.
  destruct (exists_last (l := f :: r) ltac:(done)) as (r' & q' & Hr').
  rewrite Hr', last_snoc in Hq. injection Hq as ->.
  assert (forall k, k ∈ A ++ [p] -> k ≠ f /\ k ≠ q) as N1.
  { intros k Hk. assert (k ∉ f :: r) as Hn by (apply Hdis; clear -Hk; set_solver).
    split; intros ->; apply Hn; [left|]. rewrite Hr'. clear. set_solver. }
  assert (forall k, k ∈ n :: B -> k ≠ f /\ k ≠ q) as N2.
  { intros k Hk. assert (k ∉ f :: r) as Hn by (apply Hdis; clear -Hk; set_solver).
    split; intros ->; apply Hn; [left|]. rewrite Hr'. clear. set_solver. }
  assert (forall k, k ∈ f :: r -> k ≠ p /\ k ≠ n) as N3.
  { intros k Hk. split; intros ->; refine (Hdis _ _ Hk); clear; set_solver. }
  destruct (N1 p) as [? ?]; [clear; set_solver|]. destruct (N2 n) as [? ?]; [left|].
  apply seg_app. split; [|split].
  - revert HA. apply seg_ext; intros k Hk.
    + destruct (N1 k (elem_of_removelast _ _ Hk)). rewrite removelast_last in Hk.
      pose proof (Hd1 k Hk). nd_solve.
    + destruct (N1 k (elem_of_tail _ _ Hk)). pose proof (Hd3 k Hk). nd_solve.
  - split; nd_solve.
  - change (f :: r ++ n :: B) with ((f :: r) ++ n :: B).
    rewrite Hr'. rewrite <- app_assoc. simpl. apply seg_app. split; [|split].
    + rewrite <- Hr'. revert H2. rewrite Hr' at 1. rewrite Hr'.
      pose proof Hd2 as Hd2'. rewrite Hr' in Hd2'. apply NoDup_app in Hd2' as (_ & Hd2' & _).
      apply NoDup_cons in Hd2 as [Hd2 _].
      apply seg_ext; intros k Hk.
      * assert (k ∈ f :: r) as Hk' by (rewrite Hr'; by apply elem_of_removelast).
        destruct (N3 k Hk'). rewrite removelast_last in Hk.
        assert (k ≠ q) by (intros ->; by apply (Hd2' q Hk); left). nd_solve.
      * rewrite <- Hr' in Hk. simpl in Hk. destruct (N3 k ltac:(by right)).
        assert (k ≠ f) by (by intros ->). nd_solve.
    + split; nd_solve.
    + revert HB. apply seg_ext; intros k Hk.
      * destruct (N2 k (elem_of_removelast _ _ Hk)). pose proof (Hdp k Hk). nd_solve.
      * destruct (N2 k (elem_of_tail _ _ Hk)). pose proof (Hd4 k Hk). nd_solve.
Qed.

Lemma seg_replace m A p x n B new :
  seg m (A ++ p :: x :: n :: B) -> ring (A ++ p :: x :: n :: B) ->
  x ∉ A ++ p :: n :: B -> new ∉ A ++ p :: x :: n :: B ->
  seg (upd_next (upd_prev (upd_prev (upd_next m new (Some n)) n (Some new)) new (Some p)) p (Some new))
    (A ++ p :: new :: n :: B).
Proof.
  intros Hs Hr Hx Hn. pose proof (seg_delete _ _ _ _ _ _ Hs Hr) as Hs'.
  apply ring_skip in Hr. apply (seg_insert _ _ _ _ _ new) in Hs'; [|done|clear -Hn; set_solver].
  assert (forall k, k ∈ A ++ p :: n :: B -> k ≠ new) as N by (clear -Hn; set_solver).
  revert Hs'. apply seg_ext; intros k _; nd_solve.
  all: exfalso; refine (N _ _ eq_refl); clear; set_solver.
Qed.

(** ** Families of lists *)

Abbreviation family := (gmap K (list K)).

(** The node is in no list of the family, neither as an entry nor as a head. *)
Definition fresh (A : family) (k : K) : Prop := forall h l, A !! h = Some l -> k ∉ h :: l.

Record represents (m : links) (A : family) : Prop := {
  rep_list : forall h l, A !! h = Some l -> is_list m h l;
  rep_disj : forall h1 l1 h2 l2 k, A !! h1 = Some l1 -> A !! h2 = Some l2 -> h1 ≠ h2 ->
    k ∈ h1 :: l1 -> k ∉ h2 :: l2;
}.

(** One list changes and the nodes written belong to no other list. *)
Lemma rep_update m m' A h l' D :
  represents m A -> is_list m' h l' -> untouched m m' D ->
  (forall k, k ∈ h :: l' -> k ∈ D) ->
  (forall h2 l2 k, A !! h2 = Some l2 -> h2 ≠ h -> k ∈ D -> k ∉ h2 :: l2) ->
  represents m' (<[h := l']> A).
Proof.
  intros [Hl Hd] Hl' Hu Hin HD. split.
  - intros h1 l1. destruct (decide (h1 = h)) as [->|Hne].
    { rewrite lookup_insert_eq. intros [= <-]. done. }
    rewrite lookup_insert_ne by done. intros H1. apply (is_list_frame m); [by apply Hl|].
    intros k Hk. apply Hu. intros HkD. by apply (HD _ _ _ H1 Hne HkD).
  - intros h1 l1 h2 l2 k. destruct (decide (h1 = h)) as [->|Hne1], (decide (h2 = h)) as [->|Hne2];
      rewrite ?lookup_insert_eq, ?lookup_insert_ne by done; try done.
    + intros [= <-] H2 _ Hk. apply (HD _ _ _ H2 Hne2), Hin, Hk.
    + intros H1 [= <-] _ Hk Hk2. by apply (HD _ _ k H1 Hne1); [apply Hin|].
    + apply Hd.
Qed.

Lemma rep_other m A h l (D : list K) :
  represents m A -> A !! h = Some l -> (forall k, k ∈ D -> fresh A k \/ k ∈ h :: l) ->
  forall h2 l2 k, A !! h2 = Some l2 -> h2 ≠ h -> k ∈ D -> k ∉ h2 :: l2.
Proof.
  intros Hr Hh HD h2 l2 k H2 Hne Hk. destruct (HD k Hk) as [Hf|Hin]; [by apply Hf|].
  by apply (rep_disj _ _ Hr _ _ _ _ k Hh H2).
Qed.

Lemma rep_weaken m A h : represents m A -> represents m (delete h A).
Proof.
  intros [Hl Hd]. split.
  - intros h1 l1 [_ H1]%lookup_delete_Some. by apply Hl.
  - intros h1 l1 h2 l2 k [_ H1]%lookup_delete_Some [_ H2]%lookup_delete_Some. by apply Hd.
Qed.

Lemma init_rep m A h :
  represents m A -> fresh A h ->
  exists m', INIT_LIST_HEAD m (Some h) = Ok m' /\ represents m' (<[h := []]> A).
Proof.
  intros Hr Hf. eexists. split; [done|].
  apply (rep_update m _ A h [] [h] Hr).
  - split; [apply NoDup_singleton|]. split; [|done]. split; nd_solve.
  - intros k Hk. assert (k ≠ h) by set_solver. nd_solve.
  - set_solver.
  - intros h2 l2 k H2 Hne Hk. assert (k = h) as -> by set_solver. by apply Hf.
Qed.

Lemma add_rep m A h l1 l2 new :
  represents m A -> A !! h = Some (l1 ++ l2) -> fresh A new ->
  exists m', __list_add m (Some new) (last (h :: l1)) (head (l2 ++ [h])) = Ok m' /\
    represents m' (<[h := l1 ++ new :: l2]> A).
Proof.
  intros Hr Hh Hf.
  destruct (add_at m h l1 l2 new) as (p & n & m' & -> & -> & _ & _ & -> & Hl & Hu);
    [by apply (rep_list _ _ Hr)|by apply Hf|].
  exists m'. split; [done|]. apply (rep_update m _ A h _ _ Hr Hl Hu).
  - clear. set_solver.
  - apply (rep_other m A h (l1 ++ l2) _ Hr Hh). intros k [->|Hk]%elem_of_cons; [by left|by right].
Qed.

Lemma list_add_rep m A h l new :
  represents m A -> A !! h = Some l -> fresh A new ->
  exists m', list_add m (Some new) (Some h) = Ok m' /\ represents m' (<[h := new :: l]> A).
Proof.
  intros Hr Hh Hf. unfold list_add, get_next. mstep.
  destruct (is_list_ends _ _ _ (rep_list _ _ Hr _ _ Hh)) as [-> _].
  destruct (add_rep m A h [] l new Hr Hh Hf) as (m' & Hm & Hr'). exists m'. split; [|done].
  rewrite <- Hm. by destruct l.
Qed.

Lemma list_add_tail_rep m A h l new :
  represents m A -> A !! h = Some l -> fresh A new ->
  exists m', list_add_tail m (Some new) (Some h) = Ok m' /\ represents m' (<[h := l ++ [new]]> A).
Proof.
  intros Hr Hh Hf. unfold list_add_tail, get_prev. mstep.
  destruct (is_list_ends _ _ _ (rep_list _ _ Hr _ _ Hh)) as [_ ->].
  rewrite <- (app_nil_r l) in Hh. destruct (add_rep m A h l [] new Hr Hh Hf) as (m' & Hm & Hr').
  exists m'. split; [|done]. rewrite <- Hm. simpl. f_equal. by destruct l as [|x l _] using rev_ind;
    [|rewrite app_comm_cons, !last_snoc].
Qed.

(** Unlinking an entry leaves its own links as they were. *)
Lemma del_rep m A h l1 x l2 :
  represents m A -> A !! h = Some (l1 ++ x :: l2) ->
  exists m', (forall R (f : links -> outcome R),
      (prev ← get_prev m (Some x); next ← get_next m (Some x); m ← __list_del m prev next; f m) = f m') /\
    represents m' (<[h := l1 ++ l2]> A) /\ fresh (<[h := l1 ++ l2]> A) x.
Proof.
  intros Hr Hh.
  destruct (del_at m h l1 x l2) as (p & n & m' & Hp & Hn & Hm & Hx & Hl & Hu);
    [by apply (rep_list _ _ Hr)|].
  exists m'. split; [|split].
  - intros R f. unfold get_prev, get_next. mstep. rewrite Hp, Hn, Hm. done.
  - apply (rep_update m _ A h _ _ Hr Hl Hu); [done|].
    apply (rep_other m A h _ _ Hr Hh). intros k Hk. right. clear -Hk. set_solver.
  - intros h2 l3. destruct (decide (h2 = h)) as [->|Hne].
    + rewrite lookup_insert_eq. intros [= <-]. done.
    + rewrite lookup_insert_ne by done. intros H2. apply (rep_disj _ _ Hr _ _ _ _ x Hh H2); [done|].
      clear. set_solver.
Qed.

Lemma upd_fresh_rep m A x q1 q2 :
  represents m A -> fresh A x -> represents (upd_prev (upd_next m x q1) x q2) A.
Proof.
  intros Hr Hf. split; [|apply Hr]. intros h l Hh. apply (is_list_frame m); [by apply (rep_list _ _ Hr)|].
  intros k Hk. assert (k ≠ x) by (intros ->; by apply (Hf _ _ Hh)). nd_solve.
Qed.

Lemma replace_rep m A h l1 x l2 new :
  represents m A -> A !! h = Some (l1 ++ x :: l2) -> fresh A new ->
  exists m', list_replace m (Some x) (Some new) = Ok m' /\
    represents m' (<[h := l1 ++ new :: l2]> A) /\ fresh (<[h := l1 ++ new :: l2]> A) x.
Proof.
  intros Hr Hh Hf. pose proof (rep_list _ _ Hr _ _ Hh) as Hl.
  pose proof (Hf _ _ Hh) as Hnew.
  destruct (del_at m h l1 x l2 Hl) as (p & n & _ & Hp & Hn & _ & Hx & _ & _).
  destruct (neighbours m h l1 (x :: l2) Hl) as (A' & p' & x' & B & HA & HB & HL & _ & Hp').
  simpl in HB. injection HB as <- <-. rewrite Hp in Hp'. injection Hp' as <-. destruct Hl as [Hd Hs].
  destruct (l2 ++ [h]) as [|n' B] eqn:HB; [by destruct l2|]. rewrite HL in Hs.
  assert (n' = n) as ->.
  { pose proof Hs as Hs2. apply seg_app in Hs2 as [_ [_ [[Hxn _] _]]]. congruence. }
  assert (forall k, k ∈ h :: l1 ++ x :: l2 -> k ≠ new) as N by (intros k Hk ->; done).
  assert (n ∈ h :: l1 ++ x :: l2 /\ p ∈ h :: l1 ++ x :: l2) as [Hni Hpi].
  { assert (n ∈ l2 ++ [h]) by (rewrite HB; left). assert (p ∈ h :: l1) by (rewrite HA; set_solver).
    clear -H0 H1. set_solver. }
  assert (x ≠ new) by (apply N; clear; set_solver). pose proof (N _ Hni). pose proof (N _ Hpi).
  assert (x ≠ p /\ x ≠ n) as [Hxp Hxn].
  { assert (n ∈ l2 ++ [h]) by (rewrite HB; left). assert (p ∈ h :: l1) by (rewrite HA; set_solver).
    clear -H3 H4 Hx. set_solver. }
  exists (upd_next (upd_prev (upd_prev (upd_next m new (Some n)) n (Some new)) new (Some p)) p (Some new)).
  split; [|split].
  - unfold list_replace, get_next, get_prev, set_next, set_prev. mstep. rewrite Hn. mstep.
    nd_simpl. rewrite !decide_True by done. simpl. mstep. nd_simpl.
    rewrite !(decide_False (P := x = _)) by done. rewrite Hp. mstep. nd_simpl.
    rewrite !decide_True by done. done.
  - apply (rep_update m _ A h _ (new :: h :: l1 ++ x :: l2) Hr).
    + split.
      * rewrite app_comm_cons, <- Permutation_middle in Hd |- *. apply NoDup_cons in Hd as [_ Hd].
        apply NoDup_cons. split; [|done]. clear -Hnew. set_solver.
      * assert (h :: (l1 ++ new :: l2) ++ [h] = A' ++ p :: new :: n :: B) as ->.
        { rewrite <- app_assoc. simpl. by rewrite HB, app_comm_cons, HA, <- app_assoc. }
        apply (seg_replace m A' p x n B new Hs).
        -- rewrite <- HL. by apply ring_is_list.
        -- assert (A' ++ p :: n :: B = h :: (l1 ++ l2) ++ [h]) as ->.
           { rewrite <- app_assoc, HB, app_comm_cons, HA, <- app_assoc. done. }
           clear -Hx. set_solver.
        -- rewrite <- HL. clear -Hnew. set_solver.
    + intros k Hk. assert (k ≠ new /\ k ≠ n /\ k ≠ p) as (? & ? & ?) by (clear -Hk Hni Hpi; set_solver).
      nd_solve.
    + clear. set_solver.
    + apply (rep_other m A h _ _ Hr Hh). intros k [->|Hk]%elem_of_cons; [by left|by right].
  - intros h2 l3. destruct (decide (h2 = h)) as [->|Hne].
    + rewrite lookup_insert_eq. intros [= <-]. clear -Hx H0. set_solver.
    + rewrite lookup_insert_ne by done. intros H5. apply (rep_disj _ _ Hr _ _ _ _ x Hh H5); [done|].
      clear. set_solver.
Qed.

Lemma splice_rep m A s ls h l1 l2 :
  represents m A -> A !! s = Some ls -> ls ≠ [] -> A !! h = Some (l1 ++ l2) -> s ≠ h ->
  exists m', __list_splice m (Some s) (last (h :: l1)) (head (l2 ++ [h])) = Ok m' /\
    represents m' (<[h := l1 ++ ls ++ l2]> (delete s A)) /\
    fresh (<[h := l1 ++ ls ++ l2]> (delete s A)) s.
Proof.
  intros Hr Hs Hne Hh Hsh.
  pose proof (rep_list _ _ Hr _ _ Hs) as Hls. pose proof (rep_list _ _ Hr _ _ Hh) as Hlh.
  destruct (is_list_ends _ _ _ Hls) as [Hf Hq].
  destruct (head ls) as [f|] eqn:Ef; [|by destruct ls]. destruct (last ls) as [q|] eqn:Eq;
    [|by apply last_None in Eq].
  destruct (neighbours m h l1 l2 Hlh) as (A' & p & n & B & HA & HB & HL & _).
  rewrite HA, HB, last_snoc. simpl in Hf, Hq.
  assert (forall k, k ∈ h :: l1 ++ l2 -> k ∉ s :: ls) as Hdis.
  { intros k Hk. apply (rep_disj _ _ Hr _ _ _ _ k Hh Hs); done. }
  unfold __list_splice, get_next, get_prev. mstep. rewrite Hf, Hq. simpl. mstep.
  eexists. split; [done|].
  assert (forall k, k ∈ A' ++ p :: n :: B <-> k ∈ h :: l1 ++ l2) as HAB.
  { intros k. rewrite <- HL. clear. set_solver. }
  split.
  - apply (rep_update m _ (delete s A) h _ (h :: (l1 ++ ls ++ l2))); [by apply rep_weaken| | |done|].
    + split.
      * assert (h :: l1 ++ ls ++ l2 ≡ₚ ls ++ (h :: l1 ++ l2)) as -> by solve_Permutation.
        apply NoDup_app. destruct Hls as [Hd _], Hlh as [Hd2 _]. apply NoDup_cons in Hd as [_ Hd].
        split_and!; [done| |done]. intros k Hk Hk2. apply (Hdis k Hk2). by right.
      * assert (h :: (l1 ++ ls ++ l2) ++ [h] = A' ++ p :: ls ++ n :: B) as ->.
        { rewrite <- !app_assoc, HB, app_comm_cons, HA, <- app_assoc. done. }
        destruct Hls as [Hd Hss], Hlh as [Hd2 Hsh2]. apply seg_splice; try done.
        -- by rewrite <- HL.
        -- rewrite <- HL. by apply ring_is_list.
        -- destruct ls as [|f' r]; [done|]. assert (seg m ((f' :: r) ++ [s])) as Hss' by apply Hss.
           destruct (exists_last (l := f' :: r) ltac:(done)) as (r' & q' & Hr').
           rewrite Hr', <- app_assoc in Hss'. simpl in Hss'. apply seg_app in Hss' as [Hss' _]. by rewrite Hr'.
        -- by apply NoDup_cons in Hd as [_ ?].
        -- intros k Hk Hk2. apply (Hdis k); [by apply HAB|by right].
    + intros k Hk. apply head_Some_elem_of in Ef. apply last_Some_elem_of in Eq.
      assert (p ∈ h :: l1 ++ l2 /\ n ∈ h :: l1 ++ l2) as [Hp Hn].
      { split; apply HAB; clear; set_solver. }
      assert (k ≠ f /\ k ≠ q /\ k ≠ p /\ k ≠ n) as (? & ? & ? & ?) by (clear -Hk Ef Eq Hp Hn; set_solver).
      nd_solve.
    + intros h2 l3 k [Hs2 H2]%lookup_delete_Some Hh2 Hk.
      assert (k ∈ h :: l1 ++ l2 \/ k ∈ s :: ls) as [Hk1|Hk1] by (clear -Hk; set_solver).
      * by apply (rep_disj _ _ Hr _ _ _ _ k Hh H2).
      * by apply (rep_disj _ _ Hr _ _ _ _ k Hs H2).
  - intros h2 l3. destruct (decide (h2 = h)) as [->|Hh2].
    + rewrite lookup_insert_eq. intros [= <-]. destruct Hls as [Hd _]. apply NoDup_cons in Hd as [Hd _].
      assert (s ∉ h :: l1 ++ l2) as Hs2 by (intros Hs2; apply (Hdis s Hs2); left).
      clear -Hd Hs2. set_solver.
    + rewrite lookup_insert_ne by done. intros [Hs2 H2]%lookup_delete_Some.
      apply (rep_disj _ _ Hr _ _ _ _ s Hs H2); [done|]. left.
Qed.

Lemma seg_tail m x L : seg m (x :: L) -> seg m L.
Proof. destruct L; [done|]. by intros [_ ?]. Qed.

Lemma seg_cons m x y L : head L = Some y -> linked m x y -> seg m L -> seg m (x :: L).
Proof. destruct L; [done|]. by intros [= ->]. Qed.

Lemma is_list_seg m h l f e :
  h ∉ l -> NoDup l -> head l = Some f -> last l = Some e ->
  linked m h f -> linked m e h -> seg m l -> is_list m h l.
Proof.
  intros Hh Hd Hf He Hl1 Hl2 Hs. split; [by apply NoDup_cons|].
  apply seg_cons with f; [by destruct l|done|].
  destruct l as [|x l _] using rev_ind; [done|]. rewrite last_snoc in He. injection He as ->.
  rewrite <- app_assoc. apply seg_app. done.
Qed.

(** Inside a sequence without repetitions, the [next] of the last node and the
    [prev] of the first do not matter. *)
Lemma seg_inner m m' L f e :
  seg m L -> NoDup L -> head L = Some f -> last L = Some e ->
  (forall k, k ∈ L -> k ≠ e -> lnext (nd m' k) = lnext (nd m k)) ->
  (forall k, k ∈ L -> k ≠ f -> lprev (nd m' k) = lprev (nd m k)) -> seg m' L.
Proof.
  intros Hs Hd Hf He Hn Hp. revert Hs. apply seg_ext; intros k Hk.
  - apply Hn; [by apply elem_of_removelast|]. intros ->.
    destruct L as [|x L _] using rev_ind; [done|]. rewrite removelast_last in Hk.
    rewrite last_snoc in He. injection He as ->. apply NoDup_app in Hd as (_ & Hd & _).
    by apply (Hd e Hk); left.
  - apply Hp; [by apply elem_of_tail|]. intros ->. destruct L; [done|]. injection Hf as ->.
    by apply NoDup_cons in Hd as [? _].
Qed.

(** The two rings [list_cut_position] makes of one. *)
Lemma cut_at m h l1 e l2 c :
  is_list m h (l1 ++ e :: l2) -> c ∉ h :: l1 ++ e :: l2 ->
  exists m', __list_cut_position m (Some c) (Some h) (Some e) = Ok m' /\
    is_list m' c (l1 ++ [e]) /\ is_list m' h l2 /\ untouched m m' (c :: h :: l1 ++ e :: l2).
Proof.
  intros Hl Hc. pose proof Hl as [Hd Hs]. destruct (is_list_ends _ _ _ Hl) as [Hh _].
  destruct (del_at m h l1 e l2 Hl) as (_ & nf & _ & _ & He & _).
  assert (exists f, head (l1 ++ [e]) = Some f) as [f Ef] by (destruct l1; eauto).
  assert (default h (head (l1 ++ e :: l2)) = f) as Hf by (destruct l1; simplify_eq/=; done).
  rewrite Hf in Hh. clear Hf. assert (f = e \/ f ∈ l1) as Hf by (apply head_Some_elem_of in Ef; set_solver).
  assert (exists nf', head (l2 ++ [h]) = Some nf') as [nf' Enf] by (destruct l2; eauto).
  assert (nf' = nf) as ->.
  { rewrite <- app_assoc, app_comm_cons in Hs. apply seg_app in Hs as [_ Hs].
    destruct l2; simpl in Hs, Enf; destruct Hs as [[Hs _] _]; congruence. }
  assert (nf = h \/ nf ∈ l2) as Hnf by (apply head_Some_elem_of in Enf; clear -Enf; set_solver).
  rewrite <- app_assoc, app_comm_cons in Hs. apply seg_app in Hs as [Hs1%seg_tail Hs2%seg_tail].
  simpl in Hs1. apply NoDup_cons in Hd as [Hd0 (Hd1 & Hd2 & Hd3)%NoDup_app].
  apply NoDup_cons in Hd3 as [Hd3 Hd4].
  assert (Hin : forall k, k ∈ l1 ++ [e] -> k ≠ c /\ k ≠ h /\ k ≠ nf) by (clear -Hc Hd0 Hd2 Hd3 Hnf; set_solver).
  assert (Hin2 : forall k, k ∈ l2 ++ [h] -> k ≠ c /\ k ≠ e /\ k ≠ f) by (clear -Hc Hd0 Hd2 Hd3 Hf; set_solver).
  assert (NoDup (l1 ++ [e]) /\ NoDup (l2 ++ [h])) as [Hd5 Hd6].
  { split; apply NoDup_app; (split_and!; [done| |apply NoDup_singleton]); clear -Hd0 Hd2; set_solver. }
  pose proof (Hin e ltac:(set_solver)) as (? & ? & ?). pose proof (Hin2 h ltac:(set_solver)) as (? & ? & ?).
  pose proof (Hin f ltac:(clear -Hf; set_solver)) as (? & ? & ?).
  pose proof (Hin2 nf ltac:(clear -Hnf; set_solver)) as (? & ? & ?).
  unfold __list_cut_position, get_next, set_next, set_prev. mstep. rewrite He, Hh. mstep. nd_simpl.
  rewrite !decide_True by done. simpl. mstep. eexists. split; [done|]. split_and!.
  - apply (is_list_seg _ _ _ f e); [clear -Hc; set_solver|done|done|apply last_snoc| | |].
    { split; nd_solve. } { split; nd_solve. }
    apply (seg_inner m _ _ f e Hs1 Hd5 Ef (last_snoc _ _)); intros k (? & ? & ?)%Hin ?; nd_solve.
  - split; [apply NoDup_cons; split; [clear -Hd0; set_solver|done]|].
    apply seg_cons with nf; [done|split; nd_solve|].
    apply (seg_inner m _ _ nf h Hs2 Hd6 Enf (last_snoc _ _)); intros k (? & ? & ?)%Hin2 ?; nd_solve.
  - intros k Hk. assert (k ≠ c /\ k ≠ h /\ k ≠ e /\ k ≠ f /\ k ≠ nf) as (? & ? & ? & ? & ?).
    { clear -Hk Hf Hnf. set_solver. }
    nd_solve.
Qed.

Lemma cut_rep m A h l1 e l2 c :
  represents m A -> A !! h = Some (l1 ++ e :: l2) -> fresh A c ->
  exists m', list_cut_position m (Some c) (Some h) (Some e) = Ok m' /\
    represents m' (<[c := l1 ++ [e]]> (<[h := l2]> A)).
Proof.
  intros Hr Hh Hf. pose proof (rep_list _ _ Hr _ _ Hh) as Hl. pose proof (Hf _ _ Hh) as Hc.
  destruct (is_list_ends _ _ _ Hl) as [Hn Hp]. pose proof (proj1 Hl) as Hd.
  assert (forall k, k ∈ l1 ++ e :: l2 -> k ≠ h) as Hne.
  { intros k Hk ->. apply NoDup_cons in Hd as [Hd _]. done. }
  assert (exists z, default h (last (l1 ++ e :: l2)) = z /\ z ∈ e :: l2) as (z & Hz & Hz2).
  { rewrite last_app. destruct (last (e :: l2)) as [z|] eqn:Ez; [|by apply last_None in Ez].
    exists z. split; [done|]. by apply last_Some_elem_of. }
  rewrite Hz in Hp. assert (e ≠ h) as Heh by (apply Hne; set_solver).
  destruct (cut_at m h l1 e l2 c Hl Hc) as (m' & Hm & Hl1 & Hl2 & Hu). exists m'. split.
  - unfold list_cut_position, list_is_singular, list_empty, get_next, get_prev, ptr_eqb. mstep.
    rewrite Hn, Hp. mstep.
    rewrite (bool_decide_eq_false_2 (Some e = Some h)) by congruence.
    destruct l1 as [|a l1]; simpl.
    + rewrite !(bool_decide_eq_false_2 (Some e = Some h)) by congruence.
      rewrite (bool_decide_eq_true_2 (Some e = Some e)) by done. simpl. by rewrite andb_false_r.
    + rewrite !(bool_decide_eq_false_2 (Some a = Some h)) by (intros [= ->]; by apply (Hne h); [left|]).
      simpl. rewrite (bool_decide_eq_false_2 (Some a = Some z)); [done|]. intros [= <-].
      apply NoDup_cons in Hd as [_ (_ & Hd & _)%NoDup_app]. by apply (Hd a); [left|].
  - assert (represents m' (<[h := l2]> A)) as Hr1.
    { apply (rep_update m _ A h _ _ Hr Hl2 Hu); [clear; set_solver|].
      apply (rep_other m A h _ _ Hr Hh). intros k [->|Hk]%elem_of_cons; [by left|by right]. }
    apply (rep_update m' _ _ c _ (c :: l1 ++ [e]) Hr1 Hl1); [done|done|].
    intros h2 l3 k H2 Hc2 Hk. destruct (decide (h2 = h)) as [->|Hh2].
    + rewrite lookup_insert_eq in H2. injection H2 as <-.
      apply NoDup_cons in Hd as [Hd0 (_ & Hd1 & Hd2)%NoDup_app]. apply NoDup_cons in Hd2 as [Hd2 _].
      clear -Hk Hc Hd0 Hd1 Hd2. set_solver.
    + rewrite lookup_insert_ne in H2 by done.
      apply (rep_other m A h _ (c :: h :: l1 ++ e :: l2) Hr Hh) with (h2 := h2); [|done..|].
      * intros j [->|Hj]%elem_of_cons; [by left|by right].
      * clear -Hk. set_solver.
Qed.

(** ** The operations and what they mean *)

Inductive op : Type :=
| OInit (h : K)
| OAdd (n h : K)
| OAddTail (n h : K)
| ODel (n : K)
| ODelInit (n : K)
| OReplace (o n : K)
| OReplaceInit (o n : K)
| OMove (n h : K)
| OMoveTail (n h : K)
| OCut (c h e : K)
| OSplice (s h : K)
| OSpliceTail (s h : K)
| OSpliceInit (s h : K)
| OSpliceTailInit (s h : K).

Definition exec (o : op) (m : links) : outcome links :=
  match o with
  | OInit h => INIT_LIST_HEAD m (Some h)
  | OAdd n h => list_add m (Some n) (Some h)
  | OAddTail n h => list_add_tail m (Some n) (Some h)
  | ODel n => list_del m (Some n)
  | ODelInit n => list_del_init m (Some n)
  | OReplace o n => list_replace m (Some o) (Some n)
  | OReplaceInit o n => list_replace_init m (Some o) (Some n)
  | OMove n h => list_move m (Some n) (Some h)
  | OMoveTail n h => list_move_tail m (Some n) (Some h)
  | OCut c h e => list_cut_position m (Some c) (Some h) (Some e)
  | OSplice s h => list_splice m (Some s) (Some h)
  | OSpliceTail s h => list_splice_tail m (Some s) (Some h)
  | OSpliceInit s h => list_splice_init m (Some s) (Some h)
  | OSpliceTailInit s h => list_splice_tail_init m (Some s) (Some h)
  end.

(** The same operation on sequences.  A node that leaves its list, and the head
    of a list that was spliced away, belong to no list afterwards. *)
Inductive effect : op -> family -> family -> Prop :=
| e_init h A : fresh A h -> effect (OInit h) A (<[h := []]> A)
| e_add n h l A : A !! h = Some l -> fresh A n -> effect (OAdd n h) A (<[h := n :: l]> A)
| e_add_tail n h l A :
    A !! h = Some l -> fresh A n -> effect (OAddTail n h) A (<[h := l ++ [n]]> A)
| e_del n h l1 l2 A :
    A !! h = Some (l1 ++ n :: l2) -> effect (ODel n) A (<[h := l1 ++ l2]> A)
| e_del_init n h l1 l2 A :
    A !! h = Some (l1 ++ n :: l2) -> effect (ODelInit n) A (<[n := []]> (<[h := l1 ++ l2]> A))
| e_replace o n h l1 l2 A :
    A !! h = Some (l1 ++ o :: l2) -> fresh A n ->
    effect (OReplace o n) A (<[h := l1 ++ n :: l2]> A)
| e_replace_init o n h l1 l2 A :
    A !! h = Some (l1 ++ o :: l2) -> fresh A n ->
    effect (OReplaceInit o n) A (<[o := []]> (<[h := l1 ++ n :: l2]> A))
| e_move n h h' l1 l2 l A :
    A !! h = Some (l1 ++ n :: l2) -> <[h := l1 ++ l2]> A !! h' = Some l ->
    effect (OMove n h') A (<[h' := n :: l]> (<[h := l1 ++ l2]> A))
| e_move_tail n h h' l1 l2 l A :
    A !! h = Some (l1 ++ n :: l2) -> <[h := l1 ++ l2]> A !! h' = Some l ->
    effect (OMoveTail n h') A (<[h' := l ++ [n]]> (<[h := l1 ++ l2]> A))
| e_cut c h e l1 l2 A :
    A !! h = Some (l1 ++ e :: l2) -> fresh A c ->
    effect (OCut c h e) A (<[c := l1 ++ [e]]> (<[h := l2]> A))
| e_splice s h ls l A :
    A !! s = Some ls -> A !! h = Some l -> s ≠ h ->
    effect (OSplice s h) A (<[h := ls ++ l]> (delete s A))
| e_splice_tail s h ls l A :
    A !! s = Some ls -> A !! h = Some l -> s ≠ h ->
    effect (OSpliceTail s h) A (<[h := l ++ ls]> (delete s A))
| e_splice_init s h ls l A :
    A !! s = Some ls -> A !! h = Some l -> s ≠ h ->
    effect (OSpliceInit s h) A (<[s := []]> (<[h := ls ++ l]> (delete s A)))
| e_splice_tail_init s h ls l A :
    A !! s = Some ls -> A !! h = Some l -> s ≠ h ->
    effect (OSpliceTailInit s h) A (<[s := []]> (<[h := l ++ ls]> (delete s A))).

Lemma list_empty_list m h l :
  is_list m h l -> list_empty m (Some h) = Ok (bool_decide (l = [])).
Proof.
  intros Hl. unfold list_empty, get_next, ptr_eqb. mstep. destruct (is_list_ends _ _ _ Hl) as [-> _].
  f_equal. apply bool_decide_ext. destruct l as [|x l]; simpl; [done|]. split; [|done].
  intros [= ->]. destruct Hl as [Hd _]. apply NoDup_cons in Hd as [Hd _]. set_solver.
Qed.

Lemma del_refines m A h l1 n l2 :
  represents m A -> A !! h = Some (l1 ++ n :: l2) ->
  exists m', list_del m (Some n) = Ok m' /\ represents m' (<[h := l1 ++ l2]> A).
Proof.
  intros Hr Hh. destruct (del_rep m A h l1 n l2 Hr Hh) as (m' & Hm & Hr' & Hf).
  eexists. unfold list_del. rewrite Hm. split; [done|]. by apply upd_fresh_rep.
Qed.

Lemma splice_refines m A s ls h l :
  represents m A -> A !! s = Some ls -> A !! h = Some l -> s ≠ h ->
  (exists m', list_splice m (Some s) (Some h) = Ok m' /\ represents m' (<[h := ls ++ l]> (delete s A))) /\
  (exists m', list_splice_init m (Some s) (Some h) = Ok m' /\
     represents m' (<[s := []]> (<[h := ls ++ l]> (delete s A)))).
Proof.
  intros Hr Hs Hh Hne. unfold list_splice, list_splice_init.
  rewrite (list_empty_list m s ls) by by apply (rep_list _ _ Hr). mstep.
  unfold get_next at 1. unfold get_next. mstep.
  destruct (is_list_ends _ _ _ (rep_list _ _ Hr _ _ Hh)) as [-> _].
  destruct (decide (ls = [])) as [->|Hls].
  - rewrite bool_decide_true by done. simpl.
    rewrite (insert_id (delete s A) h l) by (by rewrite lookup_delete_ne).
    split; eexists; (split; [done|]); [by apply rep_weaken|].
    rewrite insert_delete_eq, insert_id by done. done.
  - rewrite bool_decide_false by done.
    destruct (splice_rep m A s ls h [] l Hr Hs Hls Hh Hne) as (m' & Hm & Hr' & Hf).
    replace (Some (default h (head l))) with (head (l ++ [h])) by by destruct l.
    simpl last in Hm. rewrite Hm. mstep. split; [eauto|]. by apply init_rep.
Qed.

Lemma splice_tail_refines m A s ls h l :
  represents m A -> A !! s = Some ls -> A !! h = Some l -> s ≠ h ->
  (exists m', list_splice_tail m (Some s) (Some h) = Ok m' /\
     represents m' (<[h := l ++ ls]> (delete s A))) /\
  (exists m', list_splice_tail_init m (Some s) (Some h) = Ok m' /\
     represents m' (<[s := []]> (<[h := l ++ ls]> (delete s A)))).
Proof.
  intros Hr Hs Hh Hne. unfold list_splice_tail, list_splice_tail_init.
  rewrite (list_empty_list m s ls) by by apply (rep_list _ _ Hr). mstep. unfold get_prev. mstep.
  destruct (is_list_ends _ _ _ (rep_list _ _ Hr _ _ Hh)) as [_ ->].
  destruct (decide (ls = [])) as [->|Hls].
  - rewrite bool_decide_true by done. rewrite app_nil_r.
    rewrite (insert_id (delete s A) h l) by (by rewrite lookup_delete_ne).
    split; eexists; (split; [done|]); [by apply rep_weaken|].
    rewrite insert_delete_eq, insert_id by done. done.
  - rewrite bool_decide_false by done. rewrite <- (app_nil_r l) in Hh.
    destruct (splice_rep m A s ls h l [] Hr Hs Hls Hh Hne) as (m' & Hm & Hr' & Hf).
    rewrite app_nil_r in Hr', Hf. change (head ([] ++ [h])) with (Some h) in Hm.
    replace (last (h :: l)) with (Some (default h (last l))) in Hm
      by (destruct l as [|x l _] using rev_ind; [done|by rewrite app_comm_cons, !last_snoc]).
    rewrite Hm. mstep. split; [eauto|]. by apply init_rep.
Qed.

Lemma exec_refines o m A A' :
  represents m A -> effect o A A' -> exists m', exec o m = Ok m' /\ represents m' A'.
Proof.
  intros Hr He. destruct He; simpl.
  - by apply init_rep.
  - by apply list_add_rep.
  - by apply list_add_tail_rep.
  - by apply del_refines.
  - destruct (del_rep m A h l1 n l2) as (m' & Hm & Hr' & Hf); [done..|].
    unfold list_del_init. rewrite Hm. by apply init_rep.
  - destruct (replace_rep m A h l1 o l2 n) as (m' & Hm & Hr' & _); eauto.
  - destruct (replace_rep m A h l1 o l2 n) as (m' & Hm & Hr' & Hf); [done..|].
    unfold list_replace_init. rewrite Hm. mstep. by apply init_rep.
  - destruct (del_rep m A h l1 n l2) as (m' & Hm & Hr' & Hf); [done..|].
    unfold list_move. rewrite Hm. by apply list_add_rep.
  - destruct (del_rep m A h l1 n l2) as (m' & Hm & Hr' & Hf); [done..|].
    unfold list_move_tail. rewrite Hm. by apply list_add_tail_rep.
  - by apply cut_rep.
  - by apply splice_refines.
  - by apply splice_tail_refines.
  - by apply splice_refines.
  - by apply splice_tail_refines.
Qed.

(** ** Reading a list *)

(** A loop over a sequence that the body may leave. *)
Fixpoint fold_until {S : Type} (body : K -> S -> outcome (S * bool)) (l : list K) (s : S) : outcome S :=
  match l with
  | [] => Ok s
  | k :: l => '(s, brk) ← body k s; if (brk : bool) then Ok s else fold_until body l s
  end.

Lemma list_iter_seg {S : Type} (body : K -> S -> outcome (S * bool)) m h l :
  forall fuel p s, (length l < fuel)%nat -> h ∉ l -> p = head (l ++ [h]) -> seg m (l ++ [h]) ->
  list_iter fuel m h p body s = fold_until body l s.
Proof.
  induction l as [|k l IH]; intros fuel p s Hf Hh -> Hs; (destruct fuel as [|fuel]; [simpl in Hf; lia|]).
  - simpl. by rewrite decide_True.
  - simpl. rewrite decide_False by (intros ->; apply Hh; left).
    destruct (body k s) as [[s' []]|]; [done| |done]. mstep.
    apply IH; [simpl in Hf; lia|set_solver| |by apply seg_tail in Hs].
    destruct l as [|y l]; simpl in Hs |- *; apply Hs.
Qed.

Lemma list_for_each_entry_fold {S : Type} (body : K -> S -> outcome (S * bool)) fuel m h l s :
  is_list m h l -> (length l < fuel)%nat ->
  list_for_each_entry fuel m h body s = fold_until body l s.
Proof.
  intros Hl Hf. unfold list_for_each_entry, get_next. mstep.
  destruct (is_list_ends _ _ _ Hl) as [-> _]. destruct Hl as [Hd Hs].
  apply NoDup_cons in Hd as [Hd _]. apply list_iter_seg; [done|done|by destruct l|].
  by apply seg_tail in Hs.
Qed.

Lemma fifo_out_rep m A h x l :
  represents m A -> A !! h = Some (x :: l) ->
  exists m', fifo_out m (Some h) = Ok (Some x, m') /\ represents m' (<[h := l]> A).
Proof.
  intros Hr Hh. unfold fifo_out, get_next. mstep.
  destruct (is_list_ends _ _ _ (rep_list _ _ Hr _ _ Hh)) as [-> _]. simpl.
  destruct (del_refines m A h [] x l Hr Hh) as (m' & -> & Hr'). mstep. eauto.
Qed.
(** ** Adding a node a second time *)

(** A loop that never comes to the head again. *)
Lemma list_iter_cycle {S : Type} (body : K -> S -> outcome (S * bool)) (P : S -> Prop) m h (C : list K) :
  h ∉ C -> (forall k, k ∈ C -> exists k', lnext (nd m k) = Some k' /\ k' ∈ C) ->
  (forall k s, k ∈ C -> P s -> exists s', body k s = Ok (s', false) /\ P s') ->
  forall fuel k s, k ∈ C -> P s -> list_iter fuel m h (Some k) body s = Halt HFuel.
Proof.
  intros Hh Hnext Hbody. induction fuel as [|fuel IH]; intros k s Hk Hs; [done|]. cbn [list_iter].
  rewrite decide_False by (intros ->; done). destruct (Hbody k s Hk Hs) as (s' & -> & Hs'). mstep.
  destruct (Hnext k Hk) as (k' & -> & Hk'). by apply IH.
Qed.

Lemma next_before m h l1 x l2 k :
  is_list m h (l1 ++ x :: l2) -> k ∈ h :: l1 -> exists k', lnext (nd m k) = Some k' /\ k' ∈ l1 ++ [x].
Proof.
  intros [_ Hs] Hk. apply list_elem_of_split in Hk as (A & B & E).
  assert (h :: (l1 ++ x :: l2) ++ [h] = A ++ k :: B ++ x :: l2 ++ [h]) as E2.
  { rewrite <- app_assoc. simpl. change (h :: l1 ++ x :: l2 ++ [h]) with ((h :: l1) ++ x :: l2 ++ [h]). by rewrite E, <- app_assoc. }
  rewrite E2 in Hs. apply seg_app in Hs as [_ Hs]. destruct B as [|b B].
  - exists x. destruct Hs as [[Hn _] _]. split; [done|set_solver].
  - exists b. destruct Hs as [[Hn _] _]. split; [done|]. destruct A as [|a A]; simplify_eq/=; set_solver.
Qed.

(** The last node of a list, added at its end again, becomes its own successor. *)
Lemma list_add_tail_again m h l x :
  is_list m h (l ++ [x]) ->
  exists m', list_add_tail m (Some x) (Some h) = Ok m' /\ lnext (nd m' x) = Some x /\
    forall k, k ≠ x -> lnext (nd m' k) = lnext (nd m k).
Proof.
  intros Hl. destruct (is_list_ends _ _ _ Hl) as [_ Hp]. rewrite last_snoc in Hp. cbn [from_option] in Hp.
  unfold list_add_tail, get_prev. mstep. rewrite Hp.
  unfold __list_add, set_prev, set_next. mstep. eexists. split; [done|]. split.
  - nd_solve.
  - intros k Hk. nd_solve.
Qed.

(** A node initialised and added at the front while it is in the list: the nodes
    before it and the node itself form a cycle the head is not in. *)
Lemma list_add_again m h l1 x l2 :
  is_list m h (l1 ++ x :: l2) ->
  exists m1 m2, INIT_LIST_HEAD m (Some x) = Ok m1 /\ list_add m1 (Some x) (Some h) = Ok m2 /\
    lnext (nd m2 h) = Some x /\ h ∉ x :: l1 /\ forall k, k ∈ x :: l1 -> exists k', lnext (nd m2 k) = Some k' /\ k' ∈ x :: l1.
Proof.
  intros Hl. assert (h ∉ x :: l1 /\ x ∉ l1) as [Hh Hx].
  { destruct Hl as [Hd _]. rewrite app_comm_cons, <- Permutation_middle in Hd. apply NoDup_cons in Hd as [Hx Hd]. apply NoDup_cons in Hd as [Hd _]. set_solver. }
  assert (x ≠ h) as Hxh by set_solver.
  destruct (next_before m h l1 x l2 h Hl ltac:(left)) as (n & Hn & Hnin).
  unfold INIT_LIST_HEAD, list_add, __list_add, set_prev, set_next, get_next. mstep.
  do 2 eexists. split; [reflexivity|].
  assert (lnext (nd (upd_prev (upd_next m x (Some x)) x (Some x)) h) = Some n) as E1 by nd_solve. rewrite E1. mstep.
  split; [reflexivity|]. split_and!; [nd_solve|done|].
  intros k [->|Hk]%elem_of_cons.
  - exists n. split; [nd_solve|set_solver].
  - destruct (next_before m h l1 x l2 k Hl ltac:(by right)) as (k' & Hk' & Hin). exists k'. split; [|set_solver].
    assert (k ≠ x /\ k ≠ h) as [? ?] by set_solver. nd_solve.
Qed.
End links.
Arguments link : clear implicits.
Arguments op : clear implicits.

(** ** The properties *)

(** C34: every operation of [list.h] that changes links implements its meaning on
    sequences: on a heap that represents a family of disjoint lists it returns,
    and the new heap represents the family with exactly that change.  A node to
    be inserted must not be in a list; a node to be removed must be in one. *)
Theorem list_ops_refine {K} `{Countable K} (o : op K) (m : gmap K (link K)) (A A' : gmap K (list K)) :
  represents m A -> effect o A A' -> exists m', exec o m = Ok m' /\ represents m' A'.
Proof. apply exec_refines. Qed.

(** Two lists, 10 with entries 1 and 2 and 20 with entry 3. *)
Definition two_lists : gmap Z (link Z) :=
  list_to_map [(10, Link (Some 1) (Some 2)); (1, Link (Some 2) (Some 10)); (2, Link (Some 10) (Some 1));
               (20, Link (Some 3) (Some 3)); (3, Link (Some 20) (Some 20))].

Lemma two_lists_represents : represents two_lists (<[10 := [1; 2]]> (<[20 := [3]]> ∅)).
Proof.
  split.
  - intros h l [[<- <-]|[_ [[<- <-]|[_ ?]]%lookup_insert_Some]]%lookup_insert_Some; [| |done].
    + split; [by apply (bool_decide_unpack _)|by vm_compute].
    + split; [by apply (bool_decide_unpack _)|by vm_compute].
  - intros h1 l1 h2 l2 k [[<- <-]|[_ [[<- <-]|[_ ?]]%lookup_insert_Some]]%lookup_insert_Some
      [[<- <-]|[_ [[<- <-]|[_ ?]]%lookup_insert_Some]]%lookup_insert_Some; set_solver.
Qed.

Lemma list_ops_refine_witness :
  exists m', list_move_tail two_lists (Some 1) (Some 20) = Ok m' /\
    represents m' (<[20 := [3; 1]]> (<[10 := [2]]> (<[10 := [1; 2]]> (<[20 := [3]]> ∅)))).
Proof.
  apply (list_ops_refine (OMoveTail 1 20) _ _ _ two_lists_represents).
  apply (e_move_tail 1 10 20 [] [2] [3]); reflexivity.
Defined.

(** What the code reads off a list is what the sequence holds: [list_empty]
    and [fifo_empty] whether it is empty, [list_first_entry] and
    [list_last_entry] its ends, and [list_for_each_entry] visits the entries in
    order and stops at the head, or earlier where the body leaves the loop. *)
Theorem list_reads {K} `{Countable K} {S : Type} (m : gmap K (link K)) (h : K) (l : list K)
    (body : K -> S -> outcome (S * bool)) (s : S) (fuel : nat) :
  is_list m h l -> (length l < fuel)%nat ->
  list_empty m (Some h) = Ok (bool_decide (l = [])) /\
  list_first_entry m (Some h) = Ok (Some (default h (head l))) /\
  list_last_entry m (Some h) = Ok (Some (default h (last l))) /\
  list_for_each_entry fuel m h body s = fold_until body l s.
Proof.
  intros Hl Hf. destruct (is_list_ends _ _ _ Hl) as [Hn Hp].
  unfold list_first_entry, list_last_entry, get_next, get_prev. rewrite Hn, Hp.
  split_and!; [by apply list_empty_list|done|done|by apply list_for_each_entry_fold].
Qed.

Lemma list_reads_witness :
  list_empty two_lists (Some 10) = Ok false /\
  list_first_entry two_lists (Some 10) = Ok (Some 1) /\
  list_last_entry two_lists (Some 10) = Ok (Some 2) /\
  list_for_each_entry 3 two_lists 10 (fun k s => Ok (s + k, false)) 0 = Ok 3.
Proof.
  apply (list_reads two_lists 10 [1; 2] (fun k s => Ok (s + k, false)) 0 3); [|simpl; lia].
  split; [by apply (bool_decide_unpack _)|by vm_compute].
Defined.
