(* ===== verification/Hlist.v ===== *)
(** The hash lists of [lib/inc/list.h]: doubly linked lists whose head is a single
    pointer, and whose nodes point back at the pointer that points at them.

    The memory is that of two kinds of objects: heads with a [first], nodes with a
    [next] and a [pprev].  A pointer of type [struct hlist_node **] points at a
    place, the [first] of a head or the [next] of a node.  Unlike in [Dlist] the
    poison values are told apart from NULL, since [hlist_unhashed] compares with
    it.  Every operation is the sequence of reads and writes of the source; a
    heap represents a family of disjoint sequences, each under its head. *)

From S2P Require Import Prelude.

(** ** Memory *)

(** A pointer: NULL, a poison value, or an object. *)
Inductive hptr (A : Type) := Null | Poison | At (a : A).
Arguments Null {A}.
Arguments Poison {A}.
Arguments At {A} a.

#[export] Instance hptr_eq_dec {A} `{EqDecision A} : EqDecision (hptr A).
Proof. solve_decision. Defined.

Section hlist.
Context {H K : Type} `{Countable H} `{Countable K}.

Inductive place := First (h : H) | Next (k : K).

#[export] Instance place_eq_dec : EqDecision place.
Proof. solve_decision. Defined.

Record hlist_node := HNode { hnext : hptr K; hpprev : hptr place }.
Record heap := Heap { heads : gmap H (hptr K); nodes : gmap K hlist_node }.

Definition node (m : heap) (k : K) : hlist_node := default (HNode Null Null) (nodes m !! k).
Definition set_node (m : heap) (k : K) (x : hlist_node) : heap := Heap (heads m) (<[k := x]> (nodes m)).

(** [*p] and [*p = v]. *)
Definition deref (m : heap) (p : place) : hptr K :=
  match p with First h => default Null (heads m !! h) | Next k => hnext (node m k) end.
Definition store (m : heap) (p : place) (v : hptr K) : heap :=
  match p with
  | First h => Heap (<[h := v]> (heads m)) (nodes m)
  | Next k => set_node m k (HNode v (hpprev (node m k)))
  end.

(** [k->pprev] and [k->pprev = v]. *)
Definition pprev (m : heap) (k : K) : hptr place := hpprev (node m k).
Definition set_pprev (m : heap) (k : K) (v : hptr place) : heap := set_node m k (HNode (hnext (node m k)) v).

(** Writes through a pointer. *)
Definition store_at (m : heap) (p : hptr place) (v : hptr K) : outcome heap :=
  match p with At p => Ok (store m p v) | _ => Halt HFault end.
Definition pprev_at (m : heap) (p : hptr K) (v : hptr place) : outcome heap :=
  match p with At k => Ok (set_pprev m k v) | _ => Halt HFault end.

Definition null {A} (p : hptr A) : bool := match p with Null => true | _ => false end.

(** ** Operations *)

Definition INIT_HLIST_HEAD (m : heap) (h : H) : heap := store m (First h) Null.
Definition INIT_HLIST_NODE (m : heap) (n : K) : heap := set_pprev (store m (Next n) Null) n Null.

Definition hlist_unhashed (m : heap) (n : K) : bool := null (pprev m n).
Definition hlist_empty (m : heap) (h : H) : bool := null (deref m (First h)).

Definition __hlist_del (m : heap) (n : K) : outcome heap :=
  let next := deref m (Next n) in
  let pp := pprev m n in
  m ← store_at m pp next;
  if negb (null next) then pprev_at m next pp else Ok m.

Definition hlist_del (m : heap) (n : K) : outcome heap :=
  m ← __hlist_del m n;
  Ok (set_pprev (store m (Next n) Poison) n Poison).

Definition hlist_del_init (m : heap) (n : K) : outcome heap :=
  if negb (hlist_unhashed m n) then m ← __hlist_del m n; Ok (INIT_HLIST_NODE m n) else Ok m.

Definition hlist_add_head (m : heap) (n : K) (h : H) : outcome heap :=
  let first := deref m (First h) in
  let m := store m (Next n) first in
  m ← (if negb (null first) then pprev_at m first (At (Next n)) else Ok m);
  let m := store m (First h) (At n) in
  Ok (set_pprev m n (At (First h))).

Definition hlist_add_before (m : heap) (n next : K) : outcome heap :=
  let m := set_pprev m n (pprev m next) in
  let m := store m (Next n) (At next) in
  let m := set_pprev m next (At (Next n)) in
  store_at m (pprev m n) (At n).

Definition hlist_add_after (m : heap) (n next : K) : outcome heap :=
  let m := store m (Next next) (deref m (Next n)) in
  let m := store m (Next n) (At next) in
  let m := set_pprev m next (At (Next n)) in
  if negb (null (deref m (Next next))) then pprev_at m (deref m (Next next)) (At (Next next)) else Ok m.

(** The iterations; [body] is given the entry and may change the heap.
    [hlist_for_each] reads [pos->next] after the body, [hlist_for_each_safe]
    before it.  The [_entry] variants convert the pointer to the enclosing
    structure, [_continue] and [_from] start elsewhere. *)
Section iterate.
Context {S : Type} (body : K -> heap * S -> outcome (heap * S)).

Fixpoint hlist_for_each_from (fuel : nat) (pos : hptr K) (x : heap * S) : outcome (heap * S) :=
  match pos, fuel with
  | Null, _ => Ok x
  | _, O => Halt HFuel
  | Poison, _ => Halt HFault
  | At k, Datatypes.S fuel => x ← body k x; hlist_for_each_from fuel (deref x.1 (Next k)) x
  end.

Definition hlist_for_each (fuel : nat) (h : H) (x : heap * S) : outcome (heap * S) :=
  hlist_for_each_from fuel (deref x.1 (First h)) x.

Definition hlist_for_each_entry_continue (fuel : nat) (k : K) (x : heap * S) : outcome (heap * S) :=
  hlist_for_each_from fuel (deref x.1 (Next k)) x.

Fixpoint for_each_safe_from (fuel : nat) (pos : hptr K) (x : heap * S) : outcome (heap * S) :=
  match pos, fuel with
  | Null, _ => Ok x
  | _, O => Halt HFuel
  | Poison, _ => Halt HFault
  | At k, Datatypes.S fuel => let n := deref x.1 (Next k) in x ← body k x; for_each_safe_from fuel n x
  end.

Definition hlist_for_each_safe (fuel : nat) (h : H) (x : heap * S) : outcome (heap * S) :=
  for_each_safe_from fuel (deref x.1 (First h)) x.

End iterate.

(** ** What the memory holds *)

Lemma deref_store m p v q : deref (store m p v) q = if decide (q = p) then v else deref m q.
Proof.
  destruct p as [h|k], q as [h'|k']; unfold deref, store, set_node, node; cbn [heads nodes].
  - destruct (decide (First h' = First h)) as [[= ->]|Hn]; [by rewrite lookup_insert_eq|]. rewrite lookup_insert_ne; [done|congruence].
  - by rewrite decide_False.
  - by rewrite decide_False.
  - destruct (decide (Next k' = Next k)) as [[= ->]|Hn]; [by rewrite lookup_insert_eq|]. rewrite lookup_insert_ne; [done|congruence].
Qed.

Lemma pprev_store m p v k : pprev (store m p v) k = pprev m k.
Proof.
  unfold pprev, node. destruct p as [h|k']; [done|]. cbn [store set_node nodes]. destruct (decide (k = k')) as [->|Hn].
  - by rewrite lookup_insert_eq.
  - by rewrite lookup_insert_ne.
Qed.

Lemma deref_set_pprev m k v p : deref (set_pprev m k v) p = deref m p.
Proof.
  destruct p as [h|k']; [done|]. unfold deref, node. cbn [set_pprev set_node nodes]. destruct (decide (k' = k)) as [->|Hn].
  - by rewrite lookup_insert_eq.
  - by rewrite lookup_insert_ne.
Qed.

Lemma pprev_set_pprev m k v k' : pprev (set_pprev m k v) k' = if decide (k' = k) then v else pprev m k'.
Proof.
  unfold pprev, node. cbn [set_pprev set_node nodes]. destruct (decide (k' = k)) as [->|Hn].
  - by rewrite lookup_insert_eq.
  - by rewrite lookup_insert_ne.
Qed.

Ltac mem := repeat (rewrite deref_store || rewrite pprev_store || rewrite deref_set_pprev || rewrite pprev_set_pprev).

(** ** Sequences *)

(** From place [p] on, the nodes of [l] follow one another, each pointing back at
    the place it is reached from; [path] says nothing of where the last one leads. *)
Fixpoint path (m : heap) (p : place) (l : list K) : Prop :=
  match l with [] => True | k :: l => deref m p = At k /\ pprev m k = At p /\ path m (Next k) l end.

Fixpoint last_place (p : place) (l : list K) : place :=
  match l with [] => p | k :: l => last_place (Next k) l end.

Definition hseq (m : heap) (p : place) (l : list K) : Prop := path m p l /\ deref m (last_place p l) = Null.

Definition places (p : place) (l : list K) : list place := p :: (Next <$> l).

Lemma path_app m p l1 l2 : path m p (l1 ++ l2) <-> path m p l1 /\ path m (last_place p l1) l2.
Proof. revert p. induction l1 as [|k l1 IH]; intros p; cbn [app path last_place]; [tauto|]. rewrite IH. tauto. Qed.

Lemma last_place_app p l1 l2 : last_place p (l1 ++ l2) = last_place (last_place p l1) l2.
Proof. revert p. induction l1 as [|k l1 IH]; intros p; [done|apply IH]. Qed.

Lemma last_place_in p l : last_place p l ∈ places p l.
Proof.
  revert p. induction l as [|k l IH]; intros p; [left|]. cbn [last_place]. right. apply IH.
Qed.

Lemma hseq_app m p l1 l2 : hseq m p (l1 ++ l2) <-> path m p l1 /\ hseq m (last_place p l1) l2.
Proof. unfold hseq. rewrite path_app, last_place_app. tauto. Qed.

Lemma hseq_cons m p k l : hseq m p (k :: l) <-> deref m p = At k /\ pprev m k = At p /\ hseq m (Next k) l.
Proof. unfold hseq. cbn [path last_place]. tauto. Qed.

Lemma path_frame m m' p l : NoDup (places p l) -> (forall q, q ∈ places p l -> q <> last_place p l -> deref m' q = deref m q) ->
  (forall k, k ∈ l -> pprev m' k = pprev m k) -> path m p l -> path m' p l.
Proof.
  revert p. induction l as [|k l IH]; intros p Hnd Hd Hp; [done|]. cbn [path]. intros (E1 & E2 & Hs).
  unfold places in Hnd. apply NoDup_cons in Hnd as [Hnp Hnd].
  rewrite Hd, Hp; [|left|left|intros E; apply Hnp; rewrite E; apply (last_place_in (Next k))]. split; [done|]. split; [done|].
  apply IH; [done| | |done]; intros; [apply Hd; [by right|done]|apply Hp; by right].
Qed.

Lemma hseq_frame m m' p l : (forall q, q ∈ places p l -> deref m' q = deref m q) -> (forall k, k ∈ l -> pprev m' k = pprev m k) ->
  hseq m p l -> hseq m' p l.
Proof.
  revert p. induction l as [|k l IH]; intros p Hd Hp.
  - intros [_ E]. split; [done|]. by rewrite Hd by left.
  - rewrite !hseq_cons. intros (E1 & E2 & Hs). rewrite Hd, Hp by left. split; [done|]. split; [done|]. apply IH; [| |done]; intros; [apply Hd|apply Hp]; by right.
Qed.

(** Where a sequence starts. *)
Lemma hseq_start m p l : hseq m p l -> deref m p = match l with [] => Null | k :: _ => At k end.
Proof. destruct l as [|k l]; [by intros [_ E]|by intros (E & _)%hseq_cons]. Qed.

(** A family of disjoint sequences. *)
Record hrep (m : heap) (F : gmap H (list K)) : Prop := {
  hr_seq : forall h l, F !! h = Some l -> hseq m (First h) l;
  hr_nodup : forall h l, F !! h = Some l -> NoDup l;
  hr_disj : forall h1 l1 h2 l2 k, F !! h1 = Some l1 -> F !! h2 = Some l2 -> k ∈ l1 -> k ∈ l2 -> h1 = h2;
}.

Definition unused (F : gmap H (list K)) (n : K) : Prop := forall h l, F !! h = Some l -> n ∉ l.

(** [m'] differs from [m] at head [h] and at the nodes of [X] only. *)
Record touches (h : H) (X : list K) (m m' : heap) : Prop := {
  to_deref : forall q, q ∉ places (First h) X -> deref m' q = deref m q;
  to_pprev : forall k, k ∉ X -> pprev m' k = pprev m k;
}.

Lemma hrep_update m m' F h l l' X : hrep m F -> F !! h = Some l -> NoDup l' -> (forall k, k ∈ l' ++ X -> k ∈ l \/ unused F k) ->
  touches h X m m' -> hseq m' (First h) l' -> hrep m' (<[h := l']> F).
Proof.
  intros [Hs Hn Hd] Hh Hl' Hin [Td Tp] Hs'.
  assert (Hoth : forall h2 l2 k, h2 <> h -> F !! h2 = Some l2 -> k ∈ l2 -> k ∉ l' ++ X).
  { intros h2 l2 k Hne E2 Hk Hk'. destruct (Hin k Hk') as [Hkl|Hu]; [|by apply (Hu h2 l2)]. by apply Hne, (Hd h2 l2 h l k). }
  split.
  - intros h2 l2 [[<- <-]|[Hne E2]]%lookup_insert_Some; [done|]. apply (hseq_frame m); [| |by apply Hs].
    + intros q Hq. apply Td. intros [[= ->]|(k & -> & Hk)%list_elem_of_fmap]%elem_of_cons.
      * apply elem_of_cons in Hq as [[= ->]|(? & [=] & _)%list_elem_of_fmap]; done.
      * apply elem_of_cons in Hq as [[=]|(k' & [= <-] & Hk')%list_elem_of_fmap]. apply (Hoth h2 l2 k); [done..|set_solver].
    + intros k Hk. apply Tp. intros HX. apply (Hoth h2 l2 k); [done..|set_solver].
  - intros h2 l2 [[<- <-]|[Hne E2]]%lookup_insert_Some; [done|by eapply Hn].
  - intros h1 l1 h2 l2 k [[<- <-]|[Hne1 E1]]%lookup_insert_Some [[<- <-]|[Hne2 E2]]%lookup_insert_Some I1 I2; [done| | |by eapply Hd].
    + exfalso. apply (Hoth h2 l2 k); [done..|set_solver].
    + exfalso. apply (Hoth h1 l1 k); [done..|set_solver].
Qed.


(** ** The operations on sequences *)

Lemma places_nodup h l : NoDup l -> NoDup (places (First h) l).
Proof. intros Hl. constructor; [by intros (? & [=] & _)%list_elem_of_fmap|]. apply NoDup_fmap; [congruence|done]. Qed.

Lemma in_places k h l : Next k ∈ places (First h) l <-> k ∈ l.
Proof.
  unfold places. rewrite elem_of_cons, list_elem_of_fmap. split; [intros [[=]|(? & [= ->] & ?)]; done|]. intros Hk. right. eauto.
Qed.

Lemma last_place_ne k h l : k ∉ l -> Next k <> last_place (First h) l.
Proof. intros Hk E. apply Hk, (in_places k h l). rewrite E. apply last_place_in. Qed.

(** The first part of a sequence is not concerned by writes at and after its end. *)
Lemma path_keep m m' h l : NoDup l -> (forall q, q ∈ places (First h) l -> q <> last_place (First h) l -> deref m' q = deref m q) ->
  (forall k, k ∈ l -> pprev m' k = pprev m k) -> path m (First h) l -> path m' (First h) l.
Proof. intros Hl. by apply path_frame, places_nodup. Qed.

(** Decides which of the writes a read sees; what the context excludes by
    membership is excluded. *)
Ltac sees := mem; repeat (case_decide; simplify_eq); try done; try (exfalso; set_solver).

(** Taking out a node, whatever is then left in the node itself. *)
Lemma del_seq m h l1 k l2 v w : NoDup (l1 ++ k :: l2) -> hseq m (First h) (l1 ++ k :: l2) ->
  exists m', __hlist_del m k = Ok m' /\ let m2 := set_pprev (store m' (Next k) v) k w in
    touches h (l1 ++ k :: l2) m m2 /\ hseq m2 (First h) (l1 ++ l2).
Proof.
  intros Hnd (Hp & (Hd & Hpp & Hs)%hseq_cons)%hseq_app.
  apply NoDup_app in Hnd as (Hn1 & Hdj & Hn2). apply NoDup_cons in Hn2 as [Hk2 Hn2].
  assert (k ∉ l1) as Hk1 by set_solver. set (q := last_place (First h) l1) in *.
  assert (Hq : q ∈ places (First h) l1) by apply last_place_in.
  assert (Hqk : q <> Next k) by (by apply not_eq_sym, last_place_ne).
  assert (Hq2 : forall j, j ∈ l2 -> q <> Next j) by (intros j Hj; apply not_eq_sym, last_place_ne; set_solver).
  assert (Hqp : forall p, p ∉ places (First h) (l1 ++ k :: l2) -> p <> q /\ p <> Next k).
  { intros p Hnp. split; intros ->; apply Hnp; [|apply in_places; set_solver]. unfold places in *. set_solver. }
  unfold __hlist_del. rewrite Hpp, (hseq_start _ _ _ Hs). destruct l2 as [|k2 l2]; cbn [store_at null negb pprev_at mbind outcome_bind];
    (eexists; split; [done|]); cbv zeta; split.
  - split; intros x Hx; [destruct (Hqp x Hx)|]; by sees.
  - apply hseq_app. split; [|split; [done|cbn [last_place]; fold q; by sees]].
    apply (path_keep m); [done| | |done]; intros x Hx; [intros Hxq; fold q in Hxq; sees; by apply in_places in Hx|by sees].
  - split; intros x Hx; [destruct (Hqp x Hx)|]; by sees.
  - apply hseq_cons in Hs as (_ & Hpp2 & Hs). assert (k <> k2) as Hkk by (intros ->; set_solver). apply NoDup_cons in Hn2 as [Hk3 Hn2]. apply hseq_app. split.
    + apply (path_keep m); [done| | |done]; intros x Hx; [intros Hxq; fold q in Hxq; by sees|by sees].
    + fold q. apply hseq_cons. split; [by sees|]. split; [by sees|]. revert Hs. apply hseq_frame; intros x Hx; [|by sees].
      assert (exists j, x = Next j /\ j ∈ k2 :: l2) as (j & -> & Hj).
      { unfold places in Hx. change (Next k2 :: (Next <$> l2)) with (Next <$> (k2 :: l2)) in Hx. by apply list_elem_of_fmap in Hx. }
      pose proof (Hq2 j Hj). sees.
Qed.

(** Putting a node between two parts of a sequence, in terms of what the memory
    then holds. *)
Definition start (l : list K) : hptr K := match l with [] => Null | k :: _ => At k end.

Record inserted (q : place) (n : K) (l2 : list K) (m m' : heap) : Prop := {
  in_deref : forall p, deref m' p = if decide (p = q) then At n else if decide (p = Next n) then start l2 else deref m p;
  in_pprev : forall k, pprev m' k = if decide (k = n) then At q else if decide (start l2 = At k) then At (Next n) else pprev m k;
}.

Lemma ins_seq m m' h l1 n l2 : NoDup (l1 ++ l2) -> n ∉ l1 ++ l2 -> hseq m (First h) (l1 ++ l2) -> inserted (last_place (First h) l1) n l2 m m' ->
  touches h (l1 ++ n :: l2) m m' /\ hseq m' (First h) (l1 ++ n :: l2).
Proof.
  intros Hnd Hn Hs [Id Ip]. apply hseq_app in Hs as [Hp Hs]. apply NoDup_app in Hnd as (Hn1 & Hdj & Hn2). set (q := last_place (First h) l1) in *.
  assert (Hq : q ∈ places (First h) l1) by apply last_place_in.
  assert (Hqn : q <> Next n) by (apply not_eq_sym, last_place_ne; set_solver).
  assert (Hq2 : forall j, j ∈ l2 -> q <> Next j) by (intros j Hj; apply not_eq_sym, last_place_ne; set_solver).
  assert (Hst : forall k, start l2 = At k -> k ∈ l2) by (destruct l2; [done|]; intros ? [= <-]; left).
  split; [split|].
  - intros x Hx. rewrite Id. rewrite decide_False by (intros ->; unfold places in *; set_solver).
    rewrite decide_False; [done|]. intros ->. apply Hx, in_places. set_solver.
  - intros k Hk. rewrite Ip. rewrite decide_False by set_solver. rewrite decide_False; [done|]. intros ?%Hst. set_solver.
  - apply hseq_app. split.
    + apply (path_keep m); [done| | |done].
      * intros x Hx Hxq. rewrite Id, decide_False by done. rewrite decide_False; [done|]. intros ->. apply in_places in Hx. set_solver.
      * intros k Hk. rewrite Ip, decide_False by set_solver. rewrite decide_False; [done|]. intros ?%Hst. by apply (Hdj k).
    + fold q. apply hseq_cons. rewrite Id, Ip, !decide_True by done. split; [done|]. split; [done|].
      destruct l2 as [|k2 l2].
      * split; [done|]. cbn [last_place]. rewrite Id, decide_False, decide_True by done. done.
      * apply hseq_cons in Hs as (_ & _ & Hs). apply hseq_cons. rewrite Id, Ip. rewrite (decide_False (P := Next n = q)) by done.
        rewrite decide_True by done. rewrite decide_False by set_solver. rewrite decide_True by done. split; [done|]. split; [done|].
        apply NoDup_cons in Hn2 as [Hk2 Hn2]. revert Hs. apply hseq_frame.
        -- intros x Hx. assert (exists j, x = Next j /\ j ∈ k2 :: l2) as (j & -> & Hj).
           { unfold places in Hx. change (Next k2 :: (Next <$> l2)) with (Next <$> (k2 :: l2)) in Hx. by apply list_elem_of_fmap in Hx. }
           rewrite Id, decide_False by (by apply not_eq_sym, Hq2). rewrite decide_False; [done|]. intros [= ->]. set_solver.
        -- intros k Hk. rewrite Ip, decide_False by set_solver. rewrite decide_False; [done|]. intros [= ->]. done.
Qed.

Lemma add_head_inserts m n h l : n ∉ l -> hseq m (First h) l -> exists m', hlist_add_head m n h = Ok m' /\ inserted (First h) n l m m'.
Proof.
  intros Hn Hs. unfold hlist_add_head. rewrite (hseq_start _ _ _ Hs). destruct l as [|k l]; cbn [null negb pprev_at mbind outcome_bind];
    (eexists; split; [done|]); cbn [start]; split; intros x; by sees.
Qed.

Lemma add_before_inserts m n q x l : n <> x -> q <> Next n -> pprev m x = At q -> exists m', hlist_add_before m n x = Ok m' /\ inserted q n (x :: l) m m'.
Proof.
  intros Hn Hq Hp. unfold hlist_add_before. mem. rewrite (decide_False (P := n = x)), (decide_True (P := n = n)), Hp by done. cbn [store_at].
  eexists. split; [done|]. cbn [start]. split; intros y; by sees.
Qed.

Lemma add_after_inserts m x n l : n <> x -> n ∉ l -> x ∉ l -> hseq m (Next x) l -> exists m', hlist_add_after m x n = Ok m' /\ inserted (Next x) n l m m'.
Proof.
  intros Hn Hnl Hxl Hs. unfold hlist_add_after. mem. rewrite (decide_False (P := Next n = Next x)), (decide_True (P := Next n = Next n)), (hseq_start _ _ _ Hs) by congruence.
  destruct l as [|k l]; cbn [null negb pprev_at]; (eexists; split; [done|]); cbn [start]; split; intros y; by sees.
Qed.

(** *** Operations and their effect on the family *)

Inductive hop :=
| HInitHead (h : H) | HInitNode (n : K)
| HAddHead (n : K) (h : H) | HAddBefore (n x : K) | HAddAfter (x n : K)
| HDel (x : K) | HDelInit (x : K).

Definition exec (o : hop) (m : heap) : outcome heap :=
  match o with
  | HInitHead h => Ok (INIT_HLIST_HEAD m h)
  | HInitNode n => Ok (INIT_HLIST_NODE m n)
  | HAddHead n h => hlist_add_head m n h
  | HAddBefore n x => hlist_add_before m n x
  | HAddAfter x n => hlist_add_after m x n
  | HDel x => hlist_del m x
  | HDelInit x => hlist_del_init m x
  end.

Inductive heffect (F : gmap H (list K)) : hop -> gmap H (list K) -> Prop :=
| he_init_head h : heffect F (HInitHead h) (<[h := []]> F)
| he_init_node n : unused F n -> heffect F (HInitNode n) F
| he_add_head n h l : F !! h = Some l -> unused F n -> heffect F (HAddHead n h) (<[h := n :: l]> F)
| he_add_before n x h l1 l2 : F !! h = Some (l1 ++ x :: l2) -> unused F n -> heffect F (HAddBefore n x) (<[h := l1 ++ n :: x :: l2]> F)
| he_add_after x n h l1 l2 : F !! h = Some (l1 ++ x :: l2) -> unused F n -> heffect F (HAddAfter x n) (<[h := l1 ++ x :: n :: l2]> F)
| he_del x h l1 l2 : F !! h = Some (l1 ++ x :: l2) -> heffect F (HDel x) (<[h := l1 ++ l2]> F)
| he_del_init x h l1 l2 : F !! h = Some (l1 ++ x :: l2) -> heffect F (HDelInit x) (<[h := l1 ++ l2]> F).

Lemma hrep_init_head m F h : hrep m F -> hrep (INIT_HLIST_HEAD m h) (<[h := []]> F).
Proof.
  intros [Hs Hn Hd]. unfold INIT_HLIST_HEAD. split.
  - intros h2 l2 [[<- <-]|[Hne E2]]%lookup_insert_Some; [split; [done|]; by sees|]. apply (hseq_frame m); [| |by apply Hs]; intros q Hq; [|by sees].
    mem. rewrite decide_False; [done|]. intros ->. by apply elem_of_cons in Hq as [[= ->]|(? & [=] & _)%list_elem_of_fmap].
  - intros h2 l2 [[<- <-]|[Hne E2]]%lookup_insert_Some; [constructor|by eapply Hn].
  - intros h1 l1 h2 l2 k [[<- <-]|[Hne1 E1]]%lookup_insert_Some [[<- <-]|[Hne2 E2]]%lookup_insert_Some I1 I2; [done|by apply elem_of_nil in I1|by apply elem_of_nil in I2|by eapply Hd].
Qed.

Lemma hrep_init_node m F n : hrep m F -> unused F n -> hrep (INIT_HLIST_NODE m n) F.
Proof.
  intros [Hs Hn Hd] Hu. split; [|done|done]. intros h l E. pose proof (Hu h l E). unfold INIT_HLIST_NODE.
  apply (hseq_frame m); [| |by apply Hs]; intros q Hq; by sees.
Qed.

Lemma hrep_insert m m' F h l1 n l2 : hrep m F -> F !! h = Some (l1 ++ l2) -> unused F n -> inserted (last_place (First h) l1) n l2 m m' ->
  hrep m' (<[h := l1 ++ n :: l2]> F).
Proof.
  intros Hr Hh Hu Hi. pose proof (hr_nodup _ _ Hr _ _ Hh) as Hnd. pose proof (Hu _ _ Hh) as Hn.
  destruct (ins_seq m m' h l1 n l2 Hnd Hn (hr_seq _ _ Hr _ _ Hh) Hi) as [Ht Hs].
  eapply hrep_update; [done|done| | |exact Ht|done].
  - apply NoDup_app in Hnd as (Hn1 & Hdj & Hn2). apply NoDup_app. split; [done|]. split; [set_solver|]. constructor; [set_solver|done].
  - intros k Hk. destruct (decide (k = n)) as [->|Hne]; [by right|left; set_solver].
Qed.

Lemma hrep_remove m F h l1 k l2 v w : hrep m F -> F !! h = Some (l1 ++ k :: l2) ->
  exists m', __hlist_del m k = Ok m' /\ hrep (set_pprev (store m' (Next k) v) k w) (<[h := l1 ++ l2]> F).
Proof.
  intros Hr Hh. pose proof (hr_nodup _ _ Hr _ _ Hh) as Hnd.
  destruct (del_seq m h l1 k l2 v w Hnd (hr_seq _ _ Hr _ _ Hh)) as (m' & E & Ht & Hs). exists m'. split; [done|].
  eapply hrep_update; [done|done| | |exact Ht|done].
  - apply NoDup_app in Hnd as (Hn1 & Hdj & Hn2). apply NoDup_cons in Hn2 as [Hk Hn2]. apply NoDup_app. split; [done|]. split; [set_solver|done].
  - intros x Hx. left. set_solver.
Qed.

Lemma hashed m F h l1 x l2 : hrep m F -> F !! h = Some (l1 ++ x :: l2) ->
  pprev m x = At (last_place (First h) l1) /\ hseq m (Next x) l2.
Proof. intros Hr Hh. pose proof (hr_seq _ _ Hr _ _ Hh) as (_ & (_ & E & Hs)%hseq_cons)%hseq_app. done. Qed.

Lemma exec_refines_h m F o F' : hrep m F -> heffect F o F' -> exists m', exec o m = Ok m' /\ hrep m' F'.
Proof.
  intros Hr [h|n Hu|n h l Hh Hu|n x h l1 l2 Hh Hu|x n h l1 l2 Hh Hu|x h l1 l2 Hh|x h l1 l2 Hh]; cbn [exec].
  - eexists. split; [done|]. by apply hrep_init_head.
  - eexists. split; [done|]. by apply hrep_init_node.
  - destruct (add_head_inserts m n h l (Hu _ _ Hh) (hr_seq _ _ Hr _ _ Hh)) as (m' & E & Hi). exists m'. split; [done|]. by apply (hrep_insert m m' F h []).
  - pose proof (Hu _ _ Hh) as Hn. destruct (hashed _ _ _ _ _ _ Hr Hh) as [Hp _].
    destruct (add_before_inserts m n (last_place (First h) l1) x l2 ltac:(set_solver) ltac:(apply not_eq_sym, last_place_ne; set_solver) Hp) as (m' & E & Hi).
    exists m'. split; [done|]. by apply (hrep_insert m m' F h l1).
  - pose proof (Hu _ _ Hh) as Hn. destruct (hashed _ _ _ _ _ _ Hr Hh) as [_ Hs]. pose proof (hr_nodup _ _ Hr _ _ Hh) as (_ & _ & (Hx & _)%NoDup_cons)%NoDup_app.
    destruct (add_after_inserts m x n l2 ltac:(set_solver) ltac:(set_solver) Hx Hs) as (m' & E & Hi). exists m'. split; [done|].
    replace (l1 ++ x :: n :: l2) with ((l1 ++ [x]) ++ n :: l2) by (by rewrite <- app_assoc). apply (hrep_insert m m' F h (l1 ++ [x])); [done|by rewrite <- app_assoc|done|by rewrite last_place_app].
  - destruct (hrep_remove m F h l1 x l2 Poison Poison Hr Hh) as (m' & E & Hr'). unfold hlist_del. rewrite E. eauto.
  - destruct (hrep_remove m F h l1 x l2 Null Null Hr Hh) as (m' & E & Hr'). destruct (hashed _ _ _ _ _ _ Hr Hh) as [Hp _].
    unfold hlist_del_init, hlist_unhashed. rewrite Hp, E. eauto.
Qed.

(** *** Iteration *)

(** A body that leaves the heap alone sees the entries in order. *)
Lemma hlist_for_each_fold {S : Type} (g : K -> S -> outcome S) m h l s fuel : hseq m (First h) l -> (length l <= fuel)%nat ->
  hlist_for_each (fun k x => y ← g k x.2; Ok (x.1, y)) fuel h (m, s) =
  (y ← foldl (fun a k => y ← a; g k y) (Ok s) l; Ok (m, y)).
Proof.
  unfold hlist_for_each. cbn [fst]. generalize (First h) as p. revert s fuel.
  induction l as [|k l IH]; intros s fuel p Hs Hf; rewrite (hseq_start _ _ _ Hs); [by destruct fuel|].
  destruct fuel as [|fuel]; [cbn in Hf; lia|]. apply hseq_cons in Hs as (_ & _ & Hs). cbn [hlist_for_each_from foldl mbind outcome_bind snd].
  destruct (g k s) as [y|e]; cbn [mbind outcome_bind fst].
  - apply IH; [done|cbn in Hf; lia].
  - clear. by induction l as [|k l IH].
Qed.

Lemma collect (l acc : list K) : foldl (fun a k => y ← a; Ok (y ++ [k])) (Ok acc) l = Ok (acc ++ l).
Proof. revert acc. induction l as [|k l IH]; intros acc; [by rewrite app_nil_r|]. cbn [foldl mbind outcome_bind]. by rewrite IH, <- app_assoc. Qed.

(** [hlist_for_each_safe] allows the body to take out the entry it is given: all
    entries are visited in order and the list is empty afterwards. *)
Lemma hlist_for_each_safe_empties m F h l fuel acc : hrep m F -> F !! h = Some l -> (length l <= fuel)%nat ->
  exists m', hlist_for_each_safe (fun k x => m ← hlist_del_init x.1 k; Ok (m, x.2 ++ [k])) fuel h (m, acc) = Ok (m', acc ++ l) /\
    hrep m' (<[h := []]> F).
Proof.
  unfold hlist_for_each_safe. cbn [fst]. revert m F fuel acc.
  induction l as [|k l IH]; intros m F fuel acc Hr Hh Hf; rewrite (hseq_start _ _ _ (hr_seq _ _ Hr _ _ Hh)).
  { exists m. rewrite app_nil_r, insert_id by done. split; [by destruct fuel|done]. }
  destruct fuel as [|fuel]; [cbn in Hf; lia|]. cbn [for_each_safe_from fst snd].
  destruct (hashed m F h [] k l Hr Hh) as [_ Hs]. rewrite (hseq_start _ _ _ Hs).
  destruct (exec_refines_h m F (HDelInit k) _ Hr (he_del_init F k h [] l Hh)) as (m1 & E & Hr1). cbn [exec app] in *. rewrite E. cbn [mbind outcome_bind].
  destruct (IH m1 _ fuel (acc ++ [k]) Hr1 (lookup_insert_eq _ _ _)) as (m' & E' & Hr'); [cbn in Hf; lia|].
  rewrite (hseq_start _ _ _ (hr_seq _ _ Hr1 _ _ (lookup_insert_eq _ _ _))) in E'.
  exists m'. rewrite E', <- app_assoc. split; [done|]. by rewrite insert_insert_eq in Hr'.
Qed.

(** [hlist_del_init] does nothing on a node that is in no list, if it was set up
    by [INIT_HLIST_NODE]; after [hlist_del] the node still counts as hashed, and
    taking it out again faults. *)
Lemma hlist_del_init_unhashed m n : hlist_unhashed m n = true -> hlist_del_init m n = Ok m.
Proof. intros E. unfold hlist_del_init. by rewrite E. Qed.

Lemma hlist_del_leaves_hashed m F h l1 x l2 : hrep m F -> F !! h = Some (l1 ++ x :: l2) ->
  exists m', hlist_del m x = Ok m' /\ hlist_unhashed m' x = false /\ hlist_del_init m' x = Halt HFault.
Proof.
  intros Hr Hh. destruct (hrep_remove m F h l1 x l2 Poison Poison Hr Hh) as (m' & E & _). unfold hlist_del. rewrite E. cbn [mbind outcome_bind].
  eexists. split; [done|]. unfold hlist_del_init, hlist_unhashed, __hlist_del. mem. by rewrite decide_True.
Qed.

End hlist.
Arguments place : clear implicits.
Arguments hlist_node : clear implicits.
Arguments heap H K {_ _ _ _}.
Arguments hop : clear implicits.

(** ** The properties *)

(** C35: every operation on hash lists that changes pointers implements its meaning on
    sequences: on a heap that represents a family of disjoint lists it returns, and
    the new heap represents the family with exactly that change.  Afterwards a head
    tells whether its list is empty, walking from it visits the entries in order,
    and the walk that removes every entry visits all of them and leaves the list
    empty.  A node to be inserted must not be in a list; a node to be removed, or
    inserted at, must be in one. *)
Theorem hlist_ops_refine {H K} `{Countable H} `{Countable K} (o : hop H K) (m : heap H K) (F F' : gmap H (list K)) :
  hrep m F -> heffect F o F' -> exists m', exec o m = Ok m' /\ hrep m' F' /\
    forall h l, F' !! h = Some l ->
      hlist_empty m' h = bool_decide (l = []) /\
      hlist_for_each (fun k x => Ok (x.1, x.2 ++ [k])) (length l) h (m', []) = Ok (m', l) /\
      exists m2, hlist_for_each_safe (fun k x => m ← hlist_del_init x.1 k; Ok (m, x.2 ++ [k])) (length l) h (m', []) = Ok (m2, l) /\
        hrep m2 (<[h := []]> F').
Proof.
  intros Hr He. destruct (exec_refines_h m F o F' Hr He) as (m' & E & Hr'). exists m'. split; [done|]. split; [done|].
  intros h l Hh. pose proof (hr_seq _ _ Hr' _ _ Hh) as Hs. split; [|split].
  - unfold hlist_empty. rewrite (hseq_start _ _ _ Hs). by destruct l.
  - pose proof (hlist_for_each_fold (fun k s => Ok (s ++ [k])) m' h l [] (length l) Hs (Nat.le_refl _)) as Hf. cbn [mbind outcome_bind] in Hf. by rewrite Hf, collect.
  - by apply (hlist_for_each_safe_empties m' F' h l (length l) []).
Qed.

(** Two buckets, 10 with entries 1 and 2 and 20 with entry 3. *)
Definition two_buckets : heap Z Z :=
  Heap (list_to_map [(10, At 1); (20, At 3)])
    (list_to_map [(1, HNode (At 2) (At (First 10))); (2, HNode Null (At (Next 1))); (3, HNode Null (At (First 20)))]).

Definition two_seqs : gmap Z (list Z) := <[10 := [1; 2]]> (<[20 := [3]]> ∅).

Lemma two_buckets_rep : hrep two_buckets two_seqs.
Proof.
  unfold two_seqs.
  split.
  - intros h l [[<- <-]|[_ [[<- <-]|[_ ?]]%lookup_insert_Some]]%lookup_insert_Some; [by vm_compute|by vm_compute|done].
  - intros h l [[<- <-]|[_ [[<- <-]|[_ ?]]%lookup_insert_Some]]%lookup_insert_Some; [by apply (bool_decide_unpack _)|by apply (bool_decide_unpack _)|done].
  - intros h1 l1 h2 l2 k [[<- <-]|[_ [[<- <-]|[_ ?]]%lookup_insert_Some]]%lookup_insert_Some
      [[<- <-]|[_ [[<- <-]|[_ ?]]%lookup_insert_Some]]%lookup_insert_Some; set_solver.
Qed.

Lemma two_buckets_unused : unused two_seqs 4.
Proof. unfold two_seqs. intros h l [[<- <-]|[_ [[<- <-]|[_ ?]]%lookup_insert_Some]]%lookup_insert_Some; set_solver. Qed.

Lemma hlist_ops_refine_witness : exists m', hlist_add_after two_buckets 1 4 = Ok m' /\
  hlist_for_each (fun k x => Ok (x.1, x.2 ++ [k])) 3 10 (m', []) = Ok (m', [1; 4; 2]).
Proof.
  destruct (hlist_ops_refine (HAddAfter 1 4) two_buckets _ _ two_buckets_rep (he_add_after two_seqs 1 4 10 [] [2] ltac:(reflexivity) two_buckets_unused)) as (m' & E & _ & Hf).
  destruct (Hf 10 [1; 4; 2] ltac:(reflexivity)) as (_ & Hw & _). exists m'. split; [exact E|exact Hw].
Defined.
