(* ===== verification/Cpu.v ===== *)
(** CPUs: [core/cpu.c] and [core/inc/cpu.h].

    [Barrier] is the synchronisation token: the accesses [cpu_sync_barrier] and
    [cpu_sync_and_clear_msgs] make to it, interleaved.  [Msg] is the message
    queues: a pool of nodes shared by all CPUs and one list per CPU. *)

From S2P Require Import Prelude Bit Bitmap Atomic Spinlock PhysMem Objpool Dlist.

Module Barrier.

Record cpu_synctoken := Token { ready : bool; n : Z; count : Z }.

Definition cpu_sync_init (n : Z) : cpu_synctoken := Token true (i32 n) 0.

(** The value a CPU waits for, from the value its increment returned, as an [int];
    [/] is C's division of [int]s. *)
Definition exp_v (val n : Z) : Z := i32 ((Z.quot (val - 1) n + 1) * n).

(** The end of the round [val] is in, as long as it is an [int]. *)
Lemma exp_v_round val n : 0 < n -> 1 <= val -> val + n <= 2 ^ 31 -> exp_v val n = ((val - 1) / n + 1) * n.
Proof.
  intros Hn Hv Hb. unfold exp_v. rewrite Z.quot_div_nonneg by lia. apply i32_small.
  pose proof (Z.div_mod (val - 1) n). pose proof (Z.mod_pos_bound (val - 1) n). nia.
Qed.

(** [ALIGN] on [int]s. *)
Definition next_count (count n : Z) : Z := Z.quot (count + n - 1) n * n.

(** Where a CPU stands: outside; spinning on [count] in [cpu_sync_barrier], and
    what follows the barrier; and the stages of [cpu_sync_and_clear_msgs] after
    its first barrier: before [atomic_add], between it and [atomic_read],
    waiting for [next_count], before the last barrier. *)
Inductive after := ThenReturn | ThenAdd.
Inductive pc : Type :=
| Idle
| Spin (exp : Z) (a : after)
| Add
| Read
| Drain (next : Z)
| Last.

(** A CPU also carries the number of times it has entered a barrier. *)
Record sys := Sys { token : cpu_synctoken; cpus : list (pc * Z) }.

(** Entering a barrier: [while (!ready)] has ended, then the increment. *)
Definition enter (t : cpu_synctoken) (a : after) : pc * cpu_synctoken :=
  let val := atomic_inc_return (count t) in
  (Spin (exp_v val (n t)) a, Token (ready t) (n t) val).

Definition may_leave (t : cpu_synctoken) (exp : Z) : bool := negb (count t <? exp).

(** Calls of [cpu_sync_barrier]. *)
Inductive bstep : sys -> sys -> Prop :=
| b_enter s c e p t :
    cpus s !! c = Some (Idle, e) -> ready (token s) = true -> enter (token s) ThenReturn = (p, t) ->
    bstep s (Sys t (<[c := (p, e + 1)]> (cpus s)))
| b_leave s c e exp :
    cpus s !! c = Some (Spin exp ThenReturn, e) -> may_leave (token s) exp = true ->
    bstep s (Sys (token s) (<[c := (Idle, e)]> (cpus s))).

(** Calls of both functions. *)
Inductive step : sys -> sys -> Prop :=
| s_barrier s s' : bstep s s' -> step s s'
| s_clear s c e p t :
    cpus s !! c = Some (Idle, e) -> ready (token s) = true -> enter (token s) ThenAdd = (p, t) ->
    step s (Sys t (<[c := (p, e + 1)]> (cpus s)))
| s_first s c e exp :
    cpus s !! c = Some (Spin exp ThenAdd, e) -> may_leave (token s) exp = true ->
    step s (Sys (token s) (<[c := (Add, e)]> (cpus s)))
| s_add s c e :
    cpus s !! c = Some (Add, e) -> ready (token s) = true ->
    step s (Sys (Token (ready (token s)) (n (token s)) (atomic_add 1 (count (token s))))
              (<[c := (Read, e)]> (cpus s)))
| s_read s c e :
    cpus s !! c = Some (Read, e) ->
    step s (Sys (token s) (<[c := (Drain (next_count (count (token s)) (n (token s))), e)]> (cpus s)))
| s_drain s c e next :
    cpus s !! c = Some (Drain next, e) -> may_leave (token s) next = true ->
    step s (Sys (token s) (<[c := (Last, e)]> (cpus s)))
| s_last s c e p t :
    cpus s !! c = Some (Last, e) -> ready (token s) = true -> enter (token s) ThenReturn = (p, t) ->
    step s (Sys t (<[c := (p, e + 1)]> (cpus s))).

Definition init (n : nat) : sys := Sys (cpu_sync_init (Z.of_nat n)) (replicate n (Idle, 0)).

Definition entered (s : sys) : list Z := (snd <$> cpus s).
Definition total (s : sys) : Z := foldr Z.add 0 (entered s).

(** ** Correctness *)

Lemma sum_insert (l : list Z) c x y :
  l !! c = Some x -> foldr Z.add 0 (<[c := y]> l) = foldr Z.add 0 l + y - x.
Proof.
  revert c. induction l as [|z l IH]; intros [|c] Hl; simplify_eq/=; [lia|].
  rewrite (IH c Hl). lia.
Qed.

Lemma sum_le (l : list Z) b :
  Forall (fun x => x <= b) l -> foldr Z.add 0 l <= b * Z.of_nat (length l) /\
  (foldr Z.add 0 l = b * Z.of_nat (length l) -> Forall (fun x => x = b) l).
Proof.
  induction 1 as [|x l Hx Hl [IH1 IH2]]; simpl; [split; [lia|constructor]|].
  split; [lia|]. intros Hs. constructor; [lia|]. apply IH2. lia.
Qed.

(** Between two multiples of [n] the CPUs that have entered the round under way
    have entered one barrier more than the others, and spin. *)
Definition at_round (r n : Z) (p : pc * Z) : Prop :=
  match p with
  | (Idle, e) => e = r
  | (Spin x ThenReturn, e) => (e = r /\ x = r * n) \/ (e = r + 1 /\ x = (r + 1) * n)
  | _ => False
  end.

Record inv (N : nat) (s : sys) : Prop := {
  inv_len : length (cpus s) = N;
  inv_n : n (token s) = Z.of_nat N;
  inv_ready : ready (token s) = true;
  inv_count : count (token s) = total s;
  inv_round : Forall (at_round (total s / Z.of_nat N) (Z.of_nat N)) (cpus s);
}.

Section inv.
Context (N : nat) (HN : (0 < N)%nat).

Lemma entered_insert s c p e t x :
  cpus s !! c = Some (p, e) -> total (Sys t (<[c := x]> (cpus s))) = total s + x.2 - e.
Proof.
  intros Hc. unfold total, entered. simpl. rewrite list_fmap_insert.
  apply (sum_insert _ c). by rewrite list_lookup_fmap, Hc.
Qed.

(** When the round is complete, everybody is in it. *)
Lemma round_complete r l :
  Forall (at_round r (Z.of_nat N)) l -> length l = N ->
  foldr Z.add 0 (snd <$> l) = (r + 1) * Z.of_nat N ->
  Forall (at_round (r + 1) (Z.of_nat N)) l.
Proof.
  intros Hl HL Hs. assert (Forall (fun x => x <= r + 1) (snd <$> l)) as Hle.
  { apply Forall_fmap, (Forall_impl _ _ _ Hl). intros [[|x []| | | |] e] H; simpl in *; lia. }
  destruct (sum_le _ _ Hle) as [_ Heq]. rewrite length_fmap, HL in Heq. specialize (Heq Hs).
  apply Forall_fmap in Heq. apply Forall_forall. intros p Hp.
  pose proof (proj1 (Forall_forall _ _) Hl p Hp) as H1.
  pose proof (proj1 (Forall_forall _ _) Heq p Hp) as H2.
  destruct p as [[|x []| | | |] e]; simpl in *; lia.
Qed.

Lemma inv_bstep s s' : inv N s -> bstep s s' -> 0 <= total s -> total s' + Z.of_nat N <= 2 ^ 31 -> inv N s'.
Proof.
  intros [HL Hn Hr Hct Hrd] Hs H0 Hov. set (r := total s / Z.of_nat N) in *.
  assert (r * Z.of_nat N <= total s < (r + 1) * Z.of_nat N) as Hb.
  { unfold r. pose proof (Z.div_mod (total s) (Z.of_nat N)).
    pose proof (Z.mod_pos_bound (total s) (Z.of_nat N)). lia. }
  destruct Hs as [s c e p t Hc _ Hen|s c e x Hc Hmay].
  - pose proof (Forall_lookup_1 _ _ _ _ Hrd Hc) as He. simpl in He. subst e.
    rewrite (entered_insert _ _ _ _ _ _ Hc) in Hov. simpl in Hov.
    unfold enter, atomic_inc_return, atomic_add_return in Hen.
    rewrite Hct, i32_small, Hn, exp_v_round in Hen by lia.
    replace (total s + 1 - 1) with (total s) in Hen by lia. fold r in Hen. injection Hen as <- <-.
    set (s' := Sys _ _). assert (Ht : total s' = total s + 1).
    { unfold s'. rewrite (entered_insert _ _ _ _ _ _ Hc). simpl. lia. }
    split; [unfold s'; simpl; by rewrite length_insert|done|done|by rewrite Ht|]. rewrite Ht.
    assert (Forall (at_round r (Z.of_nat N)) (cpus s')) as Hrd'.
    { apply Forall_insert; [done|]. simpl. right. done. }
    destruct (Z.ltb_spec (total s + 1) ((r + 1) * Z.of_nat N)).
    + replace ((total s + 1) / Z.of_nat N) with r; [done|].
      apply (Z.div_unique_pos _ _ r (total s + 1 - r * Z.of_nat N)); lia.
    + replace ((total s + 1) / Z.of_nat N) with (r + 1).
      { apply round_complete; [done| |]; [unfold s'; simpl; by rewrite length_insert|].
        change (total s' = (r + 1) * Z.of_nat N). lia. }
      apply (Z.div_unique_pos _ _ (r + 1) 0); lia.
  - pose proof (Forall_lookup_1 _ _ _ _ Hrd Hc) as He.
    assert (total (Sys (token s) (<[c := (Idle, e)]> (cpus s))) = total s) as Ht.
    { rewrite (entered_insert _ _ _ _ _ _ Hc). simpl. lia. }
    split; simpl; [by rewrite length_insert|done|done|by rewrite Ht|]. rewrite Ht.
    apply Forall_insert; [done|]. simpl. unfold may_leave in Hmay. rewrite Hct in Hmay.
    simpl in He. destruct (Z.ltb_spec (total s) x); [done|]. lia.
Qed.

Lemma inv_init : (Z.of_nat N < 2 ^ 31) -> inv N (init N).
Proof.
  intros Hlt. assert (total (init N) = 0) as Ht.
  { unfold total, entered, init. simpl. rewrite fmap_replicate. clear. by induction N. }
  split; [apply length_replicate|simpl; apply i32_small; lia|done|done|].
  rewrite Ht, Z.div_0_l by lia. apply Forall_replicate. done.
Qed.

Lemma total_bstep s s' : bstep s s' -> total s <= total s'.
Proof.
  intros [? c e p t Hc|? c e x Hc]; rewrite (entered_insert _ _ _ _ _ _ Hc); simpl; lia.
Qed.

Lemma inv_reachable s :
  Z.of_nat N < 2 ^ 31 -> rtc bstep (init N) s -> total s + Z.of_nat N <= 2 ^ 31 -> inv N s /\ 0 <= total s.
Proof.
  intros Hlt Hr. revert s Hr. apply (rtc_ind_r (fun s => _ -> _)).
  - intros _. split; [by apply inv_init|]. unfold total, entered, init. simpl.
    rewrite fmap_replicate. clear. by induction N.
  - intros s s' _ Hs IH Ht. pose proof (total_bstep _ _ Hs). destruct IH as [Hi H0]; [lia|].
    split; [by apply (inv_bstep s)|lia].
Qed.

(** Everybody who is outside has entered as often as the round number says. *)
Lemma inv_safe s c c' e p' e' :
  inv N s -> cpus s !! c = Some (Idle, e) -> cpus s !! c' = Some (p', e') -> e <= e'.
Proof.
  intros [_ _ _ _ Hrd] Hc Hc'. pose proof (Forall_lookup_1 _ _ _ _ Hrd Hc) as H1.
  pose proof (Forall_lookup_1 _ _ _ _ Hrd Hc') as H2. simpl in H1. subst e.
  destruct p' as [|x []| | | |]; simpl in H2; lia.
Qed.

Lemma inv_progress s :
  inv N s -> 0 <= total s -> (exists s', bstep s s').
Proof.
  intros [HL Hn Hr Hct Hrd] H0. set (r := total s / Z.of_nat N) in *.
  assert (r * Z.of_nat N <= total s < (r + 1) * Z.of_nat N) as Hb.
  { unfold r. pose proof (Z.div_mod (total s) (Z.of_nat N)).
    pose proof (Z.mod_pos_bound (total s) (Z.of_nat N)). lia. }
  destruct (decide (Exists (fun p => p.2 <= r) (cpus s))) as [He|He%not_Exists_Forall]; [| |apply _].
  - apply Exists_exists in He as ([p e] & [c Hc]%list_elem_of_lookup & He). simpl in He.
    pose proof (Forall_lookup_1 _ _ _ _ Hrd Hc) as Hp.
    destruct p as [|x []| | | |]; simpl in Hp; try done.
    + eexists. eapply (b_enter s c e); [done|done|reflexivity].
    + eexists. apply (b_leave s c e x Hc). unfold may_leave. rewrite Hct.
      destruct (Z.ltb_spec (total s) x); [lia|done].
  - exfalso. assert (Forall (fun x => r + 1 <= x) (entered s)) as He'.
    { apply Forall_fmap, (Forall_impl _ _ _ He). intros [p e] H. simpl in *. lia. }
    assert (forall l b, Forall (fun x => b <= x) l -> b * Z.of_nat (length l) <= foldr Z.add 0 l) as Hge.
    { induction 1; simpl; lia. }
    apply Hge in He'. unfold entered in He'. rewrite length_fmap, HL in He'. unfold total, entered in Hb. lia.
Qed.
End inv.

(** ** The properties *)

(** C36: [cpu_sync_barrier], called any number of times by [N] CPUs in any
    interleaving (up to [2^31 - N] calls in all, so that no counter overflows its
    [int]), never lets a CPU past its k-th
    barrier before every CPU has entered its k-th, and never gets stuck: some
    CPU can always enter or leave. *)
Theorem cpu_sync_barrier_correct (N : nat) (s : sys) :
  (0 < N)%nat -> Z.of_nat N < 2 ^ 31 -> rtc bstep (init N) s -> total s + Z.of_nat N <= 2 ^ 31 ->
  (forall c c' e p' e', cpus s !! c = Some (Idle, e) -> cpus s !! c' = Some (p', e') -> e <= e') /\
  (exists s', bstep s s').
Proof.
  intros HN Hlt Hr Ht. destruct (inv_reachable N HN s Hlt Hr Ht) as [Hi H0]. split.
  - intros. by eapply (inv_safe N).
  - by apply (inv_progress N).
Qed.

(** Two CPUs: the first has been through the barrier, the second is still in it. *)
Definition one_through : sys := Sys (Token true 2 2) [(Idle, 1); (Spin 2 ThenReturn, 1)].

Lemma one_through_reachable : rtc bstep (init 2) one_through.
Proof.
  eapply rtc_l; [by apply (b_enter (init 2) 0 0 (Spin 2 ThenReturn) (Token true 2 1))|].
  eapply rtc_l; [by apply (b_enter _ 1 0 (Spin 2 ThenReturn) (Token true 2 2))|].
  eapply rtc_l; [by apply (b_leave _ 0 1 2)|]. apply rtc_refl.
Qed.

Lemma cpu_sync_barrier_correct_witness :
  (forall c c' e p' e', cpus one_through !! c = Some (Idle, e) ->
     cpus one_through !! c' = Some (p', e') -> e <= e') /\ (exists s', bstep one_through s').
Proof.
  apply (cpu_sync_barrier_correct 2 one_through); [lia|lia|apply one_through_reachable|].
  by vm_compute.
Defined.

(** [cpu_sync_and_clear_msgs] can deadlock.  It increments the counter with
    [atomic_add] and reads it with a separate [atomic_read]; when the other of
    two CPUs finishes the round and enters the next barrier in between, the CPU
    that reads late waits for a round it is itself needed for, and no step is
    possible any more. *)
Theorem cpu_sync_and_clear_deadlock :
  exists s, rtc step (init 2) s /\ (forall c e, cpus s !! c ≠ Some (Idle, e)) /\ ~ exists s', step s s'.
Proof.
  exists (Sys (Token true 2 5) [(Spin 6 ThenReturn, 2); (Drain 6, 1)]). split; [|split].
  - eapply rtc_l; [by apply (s_clear (init 2) 0 0 (Spin 2 ThenAdd) (Token true 2 1))|].
    eapply rtc_l; [by apply (s_clear _ 1 0 (Spin 2 ThenAdd) (Token true 2 2))|].
    eapply rtc_l; [by apply (s_first _ 0 1 2)|]. eapply rtc_l; [by apply (s_first _ 1 1 2)|].
    eapply rtc_l; [by apply (s_add _ 1 1)|]. eapply rtc_l; [by apply (s_add _ 0 1)|].
    eapply rtc_l; [by apply (s_read _ 0 1)|]. eapply rtc_l; [by apply (s_drain _ 0 1 4)|].
    eapply rtc_l; [by apply (s_last _ 0 1 (Spin 6 ThenReturn) (Token true 2 5))|].
    eapply rtc_l; [by apply (s_read _ 1 1)|]. apply rtc_refl.
  - by intros [|[|[]]].
  - intros [s' Hs]. inversion Hs as [? ? Hb| | | | | |]; subst; [inversion Hb; subst|..];
      repeat match goal with
      | H : cpus _ !! ?c = Some _ |- _ => destruct c as [|[|[]]]; simplify_eq/=
      end.
Qed.
End Barrier.

Module Msg.

(** The nodes of the event lists: a CPU's list head and the nodes of
    [msg_pool], by address. *)
Inductive evnode := EHead (cpu : Z) | ENode (node : Z).

#[export] Instance evnode_eq_dec : EqDecision evnode.
Proof. solve_decision. Defined.

#[export] Instance evnode_countable : Countable evnode.
Proof.
  apply (inj_countable' (fun x => match x with EHead c => inl c | ENode a => inr a end)
    (fun x => match x with inl c => EHead c | inr a => ENode a end)).
  by intros [].
Defined.

#[export] Instance EHead_inj : Inj (=) (=) EHead.
Proof. by intros ?? [= ->]. Qed.
#[export] Instance ENode_inj : Inj (=) (=) ENode.
Proof. by intros ?? [= ->]. Qed.

Record cpu_msg := CpuMsg { handler : Z; event : Z; data : Z }.

Definition CPU_MSG_POOL_SIZE : Z := 128.
Definition IPI_CPU_MSG : Z := 1.

(** [struct cpu_msg_node]: the list node and the message. *)
Definition sizeof_cpu_msg_node : Z := 32.

(** The pool, the contents of its nodes, the links of the event lists, the
    locks of [cpu_interfaces], the inter-processor interrupts raised, as
    (target, id), and the CPUs whose [handling_msgs] is set. *)
Record msgsys := MsgSys {
  msg_pool : objpool;
  nodes : gmap Z cpu_msg;
  ev : gmap evnode (link evnode);
  event_list_lock : list spinlock_t;
  ipis : list (Z * Z);
  handling_msgs : gset Z;
}.

Definition set_handling_msgs (cpu : Z) (b : bool) (s : msgsys) : msgsys :=
  MsgSys (msg_pool s) (nodes s) (ev s) (event_list_lock s) (ipis s)
    (if b then {[cpu]} ∪ handling_msgs s else handling_msgs s ∖ {[cpu]}).

Definition msg_pool_init (addr : Z) : objpool :=
  OBJPOOL_ALLOC addr sizeof_cpu_msg_node CPU_MSG_POOL_SIZE.

(** What [cpu_init] does to a CPU's interface and to [handling_msgs]. *)
Definition cpu_if_init (s : msgsys) (cpu_id : Z) : outcome msgsys :=
  let s := set_handling_msgs cpu_id false s in
  _ ← rd (event_list_lock s) cpu_id;
  ev ← INIT_LIST_HEAD (ev s) (Some (EHead cpu_id));
  locks ← wr (event_list_lock s) cpu_id SPINLOCK_INITVAL;
  Ok (MsgSys (msg_pool s) (nodes s) ev locks (ipis s) (handling_msgs s)).

Definition interrupts_cpu_sendipi (s : msgsys) (target_cpu ipi_id : Z) : msgsys :=
  MsgSys (msg_pool s) (nodes s) (ev s) (event_list_lock s) (ipis s ++ [(target_cpu, ipi_id)]) (handling_msgs s).

(** [cpu_if(trgtcpu)] outside [cpu_interfaces] faults. *)
Definition cpu_send_msg (s : msgsys) (trgtcpu : Z) (msg : cpu_msg) : outcome msgsys :=
  '(node, pool) ← objpool_alloc (msg_pool s);
  if node =? 0 then Halt HError else
  let nodes := <[node := msg]> (nodes s) in
  _ ← rd (event_list_lock s) trgtcpu;
  ev ← list_add_tail (ev s) (Some (ENode node)) (Some (EHead trgtcpu));
  Ok (interrupts_cpu_sendipi (MsgSys pool nodes ev (event_list_lock s) (ipis s) (handling_msgs s)) trgtcpu IPI_CPU_MSG).

(** [container_of] of a pointer into the event list. *)
Definition node_of (p : option evnode) : outcome Z :=
  match p with Some (ENode a) => Ok a | _ => Halt HFault end.

Definition cpu_get_msg (s : msgsys) (cpu : Z) : outcome (option cpu_msg * msgsys) :=
  l ← rd (event_list_lock s) cpu;
  e ← list_empty (ev s) (Some (EHead cpu));
  if (e : bool) then Ok (None, s) else
  l ← spin_lock l;
  p ← list_last_entry (ev s) (Some (EHead cpu));
  node ← node_of p;
  locks ← wr (event_list_lock s) cpu (spin_unlock l);
  let msg := default (CpuMsg 0 0 0) (nodes s !! node) in
  ev ← list_del (ev s) (Some (ENode node));
  pool ← objpool_free (msg_pool s) node;
  Ok (Some msg, MsgSys pool (nodes s) ev locks (ipis s) (handling_msgs s)).

(** [cpu_msg_handler]: the handlers of the [.ipi_cpumsg_handlers] section are a
    parameter; they act on a state [W] of their own and may send messages. *)
Section handlers.
Context {W : Type} (ipi_cpumsg_handlers : list (option (Z -> Z -> W * msgsys -> outcome (W * msgsys)))).

Definition dispatch (msg : cpu_msg) (ws : W * msgsys) : outcome (W * msgsys) :=
  if handler msg <? Z.of_nat (length ipi_cpumsg_handlers) then
    h ← rd ipi_cpumsg_handlers (handler msg);
    match h with
    | Some f => f (event msg) (data msg) ws
    | None => Ok ws
    end
  else Ok ws.

(** The [while] loop. *)
Fixpoint handle_msgs (fuel : nat) (cpu : Z) (ws : W * msgsys) : outcome (W * msgsys) :=
  match fuel with
  | O => Halt HFuel
  | S fuel =>
      '(m, s) ← cpu_get_msg ws.2 cpu;
      match m with
      | None => Ok (ws.1, s)
      | Some msg => ws ← dispatch msg (ws.1, s); handle_msgs fuel cpu ws
      end
  end.

Definition cpu_msg_handler (fuel : nat) (cpu : Z) (ws : W * msgsys) : outcome (W * msgsys) :=
  ws ← handle_msgs fuel cpu (ws.1, set_handling_msgs cpu true ws.2);
  Ok (ws.1, set_handling_msgs cpu false ws.2).
End handlers.

(** ** Correctness *)

(** The event lists that a heap of links holds: for every CPU the addresses of
    the queued nodes, oldest first. *)
Definition lists_of (q : gmap Z (list Z)) : gmap evnode (list evnode) :=
  kmap (M2 := gmap evnode) EHead ((fun l : list Z => ENode <$> l) <$> q).

(** The nodes in use are the queued ones. *)
Record tracked (op : objpool) (q : gmap Z (list Z)) : Prop := {
  t_node : forall c l a, q !! c = Some l -> a ∈ l ->
    exists i, 0 <= i < num op /\ a = obj op i /\ in_use op i = true;
  t_used : forall i, 0 <= i < num op -> in_use op i = true ->
    exists c l, q !! c = Some l /\ obj op i ∈ l;
}.

Record queues (s : msgsys) (q : gmap Z (list Z)) : Prop := {
  q_pool : objpool_wf (msg_pool s);
  q_rep : represents (ev s) (lists_of q);
  q_tracked : tracked (msg_pool s) q;
  q_cpus : forall c l, q !! c = Some l -> exists lk, rd (event_list_lock s) c = Ok lk /\ unlocked lk;
}.

Lemma lists_of_lookup q c : lists_of q !! EHead c = (fun l : list Z => ENode <$> l) <$> (q !! c).
Proof. unfold lists_of. rewrite lookup_kmap; [|apply _]. by rewrite lookup_fmap. Qed.

Lemma lists_of_inv q h l :
  lists_of q !! h = Some l -> exists c l', h = EHead c /\ q !! c = Some l' /\ l = ENode <$> l'.
Proof.
  intros (c & -> & Hc)%lookup_kmap_Some; [|apply _].
  rewrite lookup_fmap in Hc. apply fmap_Some in Hc as (l' & Hc & ->). eauto.
Qed.

Lemma lists_of_insert q c l : lists_of (<[c := l]> q) = <[EHead c := ENode <$> l]> (lists_of q).
Proof. unfold lists_of. rewrite fmap_insert, kmap_insert; [done|apply _]. Qed.

Lemma queued_fresh q a :
  (forall c l, q !! c = Some l -> a ∉ l) -> fresh (lists_of q) (ENode a).
Proof.
  intros Ha h l (c & l' & -> & Hc & ->)%lists_of_inv [Hx|Hx]%elem_of_cons; [done|].
  apply list_elem_of_fmap in Hx as (b & [= ->] & Hb). by apply (Ha _ _ Hc).
Qed.

(** A node is queued once. *)
Lemma queued_once s q c l c' l' a :
  represents (ev s) (lists_of q) -> q !! c = Some l -> q !! c' = Some l' -> a ∈ l -> a ∈ l' -> c = c'.
Proof.
  intros Hr Hc Hc' Ha Ha'. destruct (decide (c = c')) as [->|Hne]; [done|exfalso].
  refine (rep_disj _ _ Hr (EHead c) (ENode <$> l) (EHead c') (ENode <$> l') (ENode a) _ _ _ _ _).
  - by rewrite lists_of_lookup, Hc.
  - by rewrite lists_of_lookup, Hc'.
  - congruence.
  - right. by apply list_elem_of_fmap_2.
  - right. by apply list_elem_of_fmap_2.
Qed.

Lemma obj_inj op i j : objpool_wf op -> obj op i = obj op j -> i = j.
Proof. intros [_ _ Hs _ _ _]. unfold obj. nia. Qed.

Lemma updated_obj op op' i b j : updated op op' i b -> obj op' j = obj op j.
Proof. intros (_ & HA & HB & _). unfold obj. by rewrite HA, HB. Qed.

Lemma tracked_new op q i :
  objpool_wf op -> tracked op q -> in_use op i = false ->
  forall c l, q !! c = Some l -> obj op i ∉ l.
Proof.
  intros Hp [Hn _] Hi c l Hc Ha. destruct (Hn _ _ _ Hc Ha) as (j & Hj & Heq & Hj2).
  apply (obj_inj _ _ _ Hp) in Heq. congruence.
Qed.

Lemma tracked_send op op' q c l i :
  tracked op q -> q !! c = Some l -> 0 <= i < num op -> updated op op' i true ->
  tracked op' (<[c := l ++ [obj op i]]> q).
Proof.
  intros [Hn Hu] Hc Hi Hup. pose proof (fun j => updated_obj _ _ _ _ j Hup) as Hob.
  destruct Hup as (_ & _ & _ & HC & Hup). split; rewrite HC.
  - intros c' l' a [[<- <-]|[Hne Hc']]%lookup_insert_Some Ha.
    + apply elem_of_app in Ha as [Ha|Ha%list_elem_of_singleton].
      * destruct (Hn _ _ _ Hc Ha) as (j & Hj & -> & Hj2). exists j. rewrite Hob, Hup by lia.
        split; [done|split; [done|]]. by destruct (i =? j).
      * exists i. rewrite Hob, Hup, Z.eqb_refl by lia. done.
    + destruct (Hn _ _ _ Hc' Ha) as (j & Hj & -> & Hj2).
      exists j. rewrite Hob, Hup by lia. split; [done|split; [done|]]. by destruct (i =? j).
  - intros j Hj. rewrite Hob, Hup by lia. destruct (Z.eqb_spec i j) as [->|Hij].
    + intros _. exists c. eexists. rewrite lookup_insert_eq. split; [done|]. set_solver.
    + intros Hj2. destruct (Hu j Hj Hj2) as (c' & l' & Hc' & Ha). destruct (decide (c' = c)) as [->|Hne].
      * exists c. eexists. rewrite lookup_insert_eq. split; [done|]. simplify_eq. set_solver.
      * exists c', l'. by rewrite lookup_insert_ne.
Qed.

Lemma tracked_get op op' q c l i :
  objpool_wf op -> tracked op q -> q !! c = Some (l ++ [obj op i]) -> 0 <= i < num op ->
  updated op op' i false -> obj op i ∉ l ->
  (forall c' l', q !! c' = Some l' -> c' ≠ c -> obj op i ∉ l') ->
  tracked op' (<[c := l]> q).
Proof.
  intros Hp [Hn Hu] Hc Hi Hup Hl Hoth. pose proof (fun j => updated_obj _ _ _ _ j Hup) as Hob.
  destruct Hup as (_ & _ & _ & HC & Hup). split; rewrite HC.
  - intros c' l' a [[<- <-]|[Hne Hc']]%lookup_insert_Some Ha.
    + destruct (Hn c _ a Hc) as (j & Hj & -> & Hj2); [set_solver|].
      exists j. rewrite Hob, Hup by lia. destruct (Z.eqb_spec i j) as [->|]; done.
    + destruct (Hn _ _ _ Hc' Ha) as (j & Hj & -> & Hj2).
      exists j. rewrite Hob, Hup by lia. destruct (Z.eqb_spec i j) as [->|]; [|done].
      exfalso. by apply (Hoth _ _ Hc').
  - intros j Hj. rewrite Hob, Hup by lia. destruct (Z.eqb_spec i j) as [->|Hij]; [done|].
    intros Hj2. destruct (Hu j Hj Hj2) as (c' & l' & Hc' & Ha). destruct (decide (c' = c)) as [->|Hne].
    + exists c, l. rewrite lookup_insert_eq. split; [done|]. simplify_eq.
      apply elem_of_app in Ha as [Ha|Ha%list_elem_of_singleton]; [done|].
      by apply (obj_inj _ _ _ Hp) in Ha.
    + exists c', l'. by rewrite lookup_insert_ne.
Qed.

Lemma cpu_send_msg_spec s q c l msg :
  queues s q -> q !! c = Some l ->
  (cpu_send_msg s c msg = Halt HError /\ forall i, 0 <= i < num (msg_pool s) -> in_use (msg_pool s) i = true) \/
  (exists a s', cpu_send_msg s c msg = Ok s' /\ queues s' (<[c := l ++ [a]]> q) /\
     nodes s' = <[a := msg]> (nodes s) /\ (forall c l, q !! c = Some l -> a ∉ l) /\
     ipis s' = ipis s ++ [(c, IPI_CPU_MSG)]).
Proof.
  intros [Hp Hr Ht Hl] Hc. unfold cpu_send_msg.
  destruct (objpool_alloc_spec _ Hp) as [(i & op' & -> & Hi & Hfree & _ & Hup)|(op' & -> & Hall & _)];
    [right|left; done].
  mstep. destruct (obj_range _ _ Hp Hi) as [Ho _]. destruct (Z.eqb_spec (obj (msg_pool s) i) 0); [lia|].
  destruct (Hl _ _ Hc) as (lk & -> & _). mstep.
  pose proof (tracked_new _ _ _ Hp Ht Hfree) as Hnew.
  destruct (list_add_tail_rep (ev s) (lists_of q) (EHead c) (ENode <$> l) (ENode (obj (msg_pool s) i)))
    as (m' & -> & Hr'); [done|by rewrite lists_of_lookup, Hc|by apply queued_fresh|]. mstep.
  eexists _, _. split; [done|]. split; [|done]. split; simpl.
  - apply Hup.
  - rewrite lists_of_insert, fmap_app. done.
  - by apply tracked_send.
  - intros c' l' [[<- <-]|[_ Hc']]%lookup_insert_Some; [by apply (Hl _ _ Hc)|by apply (Hl _ _ Hc')].
Qed.

Lemma cpu_get_msg_empty s q c :
  queues s q -> q !! c = Some [] -> cpu_get_msg s c = Ok (None, s).
Proof.
  intros [Hp Hr Ht Hl] Hc. unfold cpu_get_msg. destruct (Hl _ _ Hc) as (lk & -> & _). mstep.
  rewrite (list_empty_list _ _ []); [done|]. apply (rep_list _ _ Hr). by rewrite lists_of_lookup, Hc.
Qed.

Lemma cpu_get_msg_last s q c l a :
  queues s q -> q !! c = Some (l ++ [a]) ->
  exists s', cpu_get_msg s c = Ok (Some (default (CpuMsg 0 0 0) (nodes s !! a)), s') /\
    queues s' (<[c := l]> q) /\ nodes s' = nodes s /\ ipis s' = ipis s.
Proof.
  intros [Hp Hr Ht Hl] Hc. unfold cpu_get_msg. destruct (Hl _ _ Hc) as (lk & Hlk & Hul).
  rewrite Hlk. mstep.
  assert (lists_of q !! EHead c = Some ((ENode <$> l) ++ [ENode a])) as Hq.
  { rewrite lists_of_lookup, Hc. simpl. by rewrite fmap_app. }
  pose proof (rep_list _ _ Hr _ _ Hq) as Hil.
  rewrite (list_empty_list _ _ _ Hil). mstep. rewrite bool_decide_false by (by destruct l).
  destruct (spin_lock_unlock _ Hul) as (lk' & -> & Hul' & _). mstep.
  unfold list_last_entry, get_prev. destruct (is_list_ends _ _ _ Hil) as [_ ->]. rewrite last_snoc.
  mstep. simpl. apply rd_Ok in Hlk as [Hc0 Hlk]. pose proof (lookup_lt_Some _ _ _ Hlk).
  rewrite wr_Ok by lia. mstep.
  destruct (del_refines _ _ _ _ _ [] Hr Hq) as (m' & -> & Hr'). mstep. rewrite app_nil_r in Hr'.
  destruct (t_node _ _ Ht c _ a Hc) as (i & Hi & -> & Hi2); [set_solver|].
  destruct (objpool_free_spec _ i Hp Hi) as (op' & -> & Hup). mstep.
  eexists. split; [done|]. split; [|done]. split; simpl.
  - apply Hup.
  - by rewrite lists_of_insert.
  - apply (tracked_get (msg_pool s) op' q c l i Hp Ht Hc Hi Hup).
    + destruct Hil as [Hd _]. apply NoDup_cons in Hd as [_ (_ & Hd & _)%NoDup_app].
      intros Ha. apply (Hd (ENode (obj (msg_pool s) i))); [by apply list_elem_of_fmap_2|by left].
    + intros c' l' Hc' Hne Ha. apply Hne. apply (queued_once s q c' l' c _ _ Hr Hc' Hc Ha). set_solver.
  - intros c' l' Hc'. destruct (decide (c' = c)) as [->|Hne].
    + exists (spin_unlock lk'). split; [|done]. apply rd_Ok. split; [done|].
      rewrite list_lookup_insert_eq by lia. done.
    + rewrite lookup_insert_ne in Hc' by done. destruct (Hl _ _ Hc') as (lk2 & [? Hlk2]%rd_Ok & Hul2).
      exists lk2. split; [|done]. apply rd_Ok. split; [done|]. rewrite list_lookup_insert_ne by lia. done.
Qed.

(** *** Messages *)

(** The messages queued at every CPU, oldest first. *)
Definition contents (s : msgsys) (q : gmap Z (list Z)) : gmap Z (list cpu_msg) :=
  (fun l : list Z => (fun a => default (CpuMsg 0 0 0) (nodes s !! a)) <$> l) <$> q.

Definition holds (s : msgsys) (Q : gmap Z (list cpu_msg)) : Prop :=
  exists q, queues s q /\ contents s q = Q.

(** The flag is not part of the queues. *)
Lemma holds_handling s Q c b : holds s Q -> holds (set_handling_msgs c b s) Q.
Proof. intros (q & [H1 H2 H3 H4] & <-). exists q. split; [by constructor|done]. Qed.

Lemma holds_lookup s q c ms :
  contents s q !! c = Some ms ->
  exists l, q !! c = Some l /\ ms = (fun a => default (CpuMsg 0 0 0) (nodes s !! a)) <$> l.
Proof. unfold contents. rewrite lookup_fmap. intros (l & Hl & ->)%fmap_Some. eauto. Qed.

Lemma holds_send s Q c ms msg :
  holds s Q -> Q !! c = Some ms ->
  (cpu_send_msg s c msg = Halt HError /\
     forall i, 0 <= i < num (msg_pool s) -> in_use (msg_pool s) i = true) \/
  (exists s', cpu_send_msg s c msg = Ok s' /\ holds s' (<[c := ms ++ [msg]]> Q) /\
     ipis s' = ipis s ++ [(c, IPI_CPU_MSG)]).
Proof.
  intros (q & Hq & <-) (l & Hl & ->)%holds_lookup.
  destruct (cpu_send_msg_spec s q c l msg Hq Hl) as [?|(a & s' & Hs & Hq' & Hn & Hnew & Hi)]; [by left|right].
  exists s'. split; [done|]. split; [|done]. exists (<[c := l ++ [a]]> q). split; [done|].
  unfold contents. rewrite Hn. apply map_eq. intros c'. rewrite lookup_fmap.
  destruct (decide (c' = c)) as [->|Hne].
  - rewrite !lookup_insert_eq. simpl. f_equal. rewrite fmap_app. simpl. rewrite lookup_insert_eq. simpl.
    f_equal. apply list_fmap_ext. intros i b Hb. rewrite lookup_insert_ne; [done|].
    intros <-. by apply (Hnew _ _ Hl), (list_elem_of_lookup_2 _ i).
  - rewrite !lookup_insert_ne, lookup_fmap by done. destruct (q !! c') as [l'|] eqn:Hc'; [|done]. simpl. f_equal.
    apply list_fmap_ext. intros i b Hb. rewrite lookup_insert_ne; [done|].
    intros <-. by apply (Hnew _ _ Hc'), (list_elem_of_lookup_2 _ i).
Qed.

Lemma holds_get s Q c :
  holds s Q ->
  (Q !! c = Some [] -> cpu_get_msg s c = Ok (None, s)) /\
  (forall ms msg, Q !! c = Some (ms ++ [msg]) ->
     exists s', cpu_get_msg s c = Ok (Some msg, s') /\ holds s' (<[c := ms]> Q) /\ ipis s' = ipis s).
Proof.
  intros (q & Hq & <-). split.
  - intros (l & Hl & E)%holds_lookup. symmetry in E. apply fmap_nil_inv in E as ->. by apply (cpu_get_msg_empty s q).
  - intros ms msg (l & Hl & E)%holds_lookup. destruct l as [|a l _] using rev_ind; [by destruct ms|].
    rewrite fmap_app in E. apply app_inj_tail in E as [-> ->].
    destruct (cpu_get_msg_last s q c l a Hq Hl) as (s' & Hs & Hq' & Hn & Hi).
    exists s'. split; [done|]. split; [|done]. exists (<[c := l]> q). split; [done|].
    unfold contents. rewrite Hn. by rewrite fmap_insert.
Qed.

Section drain.
Context {W : Type} (hs : list (option (Z -> Z -> W -> outcome W))).

(** Handlers that send no messages themselves. *)
Definition quiet (f : Z -> Z -> W -> outcome W) (e d : Z) (ws : W * msgsys) : outcome (W * msgsys) :=
  w ← f e d ws.1; Ok (w, ws.2).

Definition run_handler (msg : cpu_msg) (w : W) : outcome W :=
  if handler msg <? Z.of_nat (length hs) then
    h ← rd hs (handler msg);
    match h with Some f => f (event msg) (data msg) w | None => Ok w end
  else Ok w.

(** The handler table of [cpu_msg_handler] made of such handlers. *)
Definition quiet_table : list (option (Z -> Z -> W * msgsys -> outcome (W * msgsys))) :=
  (fun h : option (Z -> Z -> W -> outcome W) => quiet <$> h) <$> hs.

Fixpoint run_handlers (ms : list cpu_msg) (w : W) : outcome W :=
  match ms with
  | [] => Ok w
  | msg :: ms => w ← run_handler msg w; run_handlers ms w
  end.

Lemma dispatch_quiet msg w s :
  dispatch quiet_table msg (w, s) = (w1 ← run_handler msg w; Ok (w1, s)).
Proof.
  unfold dispatch, run_handler, quiet_table. rewrite length_fmap. destruct (handler msg <? _); [|done].
  unfold rd. destruct (handler msg <? 0); [done|]. rewrite list_lookup_fmap.
  destruct (hs !! Z.to_nat (handler msg)) as [[f|]|]; done.
Qed.

Lemma get_msg_handling s c m s' : cpu_get_msg s c = Ok (m, s') -> handling_msgs s' = handling_msgs s.
Proof.
  unfold cpu_get_msg. intros E. inv_bind E. inv_bind E. match goal with a : bool |- _ => destruct a end; [by injection E as <- <-|].
  do 6 inv_bind E. by injection E as <- <-.
Qed.

Lemma drain_spec c fuel w s Q ms w' :
  holds s Q -> Q !! c = Some ms -> (length ms < fuel)%nat ->
  run_handlers (reverse ms) w = Ok w' ->
  exists s', handle_msgs quiet_table fuel c (w, s) = Ok (w', s') /\ holds s' (<[c := []]> Q) /\ handling_msgs s' = handling_msgs s.
Proof.
  revert fuel w s Q. induction ms as [|msg ms IH] using rev_ind; intros fuel w s Q Hh HQ Hf Hr.
  - destruct fuel as [|fuel]; [simpl in Hf; lia|]. injection Hr as <-. simpl.
    rewrite (proj1 (holds_get s Q c Hh) HQ). mstep. exists s. split; [done|]. split; [by rewrite insert_id|done].
  - rewrite length_app in Hf. simpl in Hf. destruct fuel as [|fuel]; [lia|]. simpl.
    destruct (proj2 (holds_get s Q c Hh) _ _ HQ) as (s1 & Eg & Hh1 & _). pose proof (get_msg_handling _ _ _ _ Eg) as Eh. rewrite Eg. mstep.
    rewrite reverse_snoc in Hr. simpl in Hr. rewrite dispatch_quiet.
    destruct (run_handler msg w) as [w1|]; [|done]. mstep.
    destruct (IH fuel w1 s1 (<[c := ms]> Q)) as (s' & Hs & Hh' & Eh'); [done|by rewrite lookup_insert_eq|lia|done|].
    exists s'. split; [done|]. rewrite insert_insert_eq in Hh'. split; [done|congruence].
Qed.
End drain.

(** ** The properties *)

(** The message queues hold what was sent.  [cpu_send_msg] adds the message at
    the end of the target's queue and raises its inter-processor interrupt, or
    stops in [ERROR] when every node of the pool is queued; [cpu_get_msg] returns
    the newest message of its CPU's queue and gives its node back to the pool,
    or reports an empty queue; no other queue changes.  (The newest: the code
    takes the last entry of the list it appends to, so a CPU handles its messages
    in reverse order.) *)
Theorem cpu_msgs_stack s Q c ms msg :
  holds s Q -> Q !! c = Some ms ->
  ((cpu_send_msg s c msg = Halt HError /\
     forall i, 0 <= i < num (msg_pool s) -> in_use (msg_pool s) i = true) \/
   (exists s', cpu_send_msg s c msg = Ok s' /\ holds s' (<[c := ms ++ [msg]]> Q) /\
     ipis s' = ipis s ++ [(c, IPI_CPU_MSG)])) /\
  (ms = [] -> cpu_get_msg s c = Ok (None, s)) /\
  (forall ms' m, ms = ms' ++ [m] ->
     exists s', cpu_get_msg s c = Ok (Some m, s') /\ holds s' (<[c := ms']> Q) /\ ipis s' = ipis s).
Proof.
  intros Hh HQ. split; [by apply holds_send|].
  destruct (holds_get s Q c Hh) as [H1 H2]. split; [intros ->; by apply H1|intros ms' m ->; by apply H2].
Qed.

(** Two CPUs with empty queues, as [cpu_init] leaves them. *)
Definition demo_sys : msgsys :=
  MsgSys (msg_pool_init 4096) ∅
    (list_to_map [(EHead 0, Link (Some (EHead 0)) (Some (EHead 0)));
                  (EHead 1, Link (Some (EHead 1)) (Some (EHead 1)))])
    (replicate 2 SPINLOCK_INITVAL) [] ∅.

Example demo_init :
  (s ← cpu_if_init (MsgSys (msg_pool_init 4096) ∅ ∅ (replicate 2 SPINLOCK_INITVAL) [] {[1]}) 0;
   cpu_if_init s 1) = Ok demo_sys.
Proof. by vm_compute. Qed.

Lemma demo_holds : holds demo_sys (<[0 := []]> (<[1 := []]> ∅)).
Proof.
  exists (<[0 := []]> (<[1 := []]> ∅)). split; [|reflexivity]. split.
  - split; simpl.
    + by apply (bitmap_wf_replicate 4).
    + split; [by vm_compute|]. vm_compute. discriminate.
    + unfold sizeof_cpu_msg_node. lia.
    + lia.
    + unfold sizeof_cpu_msg_node, CPU_MSG_POOL_SIZE. lia.
    + split; [done|]. simpl. lia.
  - split.
    + intros h l (c & l' & -> & [[<- <-]|[_ [[<- <-]|[_ ?]]%lookup_insert_Some]]%lookup_insert_Some & ->)%lists_of_inv;
        [| |done]; (split; [apply NoDup_singleton|]; vm_compute; done).
    + intros h1 l1 h2 l2 k
        (c1 & l1' & -> & [[<- <-]|[_ [[<- <-]|[_ ?]]%lookup_insert_Some]]%lookup_insert_Some & ->)%lists_of_inv
        (c2 & l2' & -> & [[<- <-]|[_ [[<- <-]|[_ ?]]%lookup_insert_Some]]%lookup_insert_Some & ->)%lists_of_inv;
        set_solver.
  - split.
    + intros c l a [[<- <-]|[_ [[<- <-]|[_ ?]]%lookup_insert_Some]]%lookup_insert_Some; set_solver.
    + intros i _. unfold in_use. simpl. rewrite (bit_replicate 4). done.
  - intros c l [[<- <-]|[_ [[<- <-]|[_ ?]]%lookup_insert_Some]]%lookup_insert_Some; [| |done];
      (exists SPINLOCK_INITVAL; split; [done|]; split; [done|simpl; lia]).
Qed.

Lemma cpu_msgs_stack_witness :
  (exists s', cpu_send_msg demo_sys 1 (CpuMsg 0 2 7) = Ok s' /\
     holds s' (<[1 := [CpuMsg 0 2 7]]> (<[0 := []]> (<[1 := []]> ∅)))) /\
  cpu_get_msg demo_sys 1 = Ok (None, demo_sys).
Proof.
  destruct (cpu_msgs_stack demo_sys _ 1 [] (CpuMsg 0 2 7) demo_holds eq_refl) as (Hs & He & _).
  split; [|by apply He]. destruct Hs as [[Hs _]|(s' & Hs & Hh & _)]; [|by exists s'].
  exfalso. revert Hs. vm_compute. discriminate.
Defined.

(** C37: [cpu_msg_handler] handles every message queued at its CPU and returns:
    handlers that send no messages themselves run once per message, newest
    first, the queue is empty afterwards and the other queues are unchanged; of
    the flags [handling_msgs], set while the handlers run, only the CPU's own is
    changed, to false. *)
Theorem cpu_msg_handler_drains {W} (hs : list (option (Z -> Z -> W -> outcome W))) c fuel w s Q ms w' :
  holds s Q -> Q !! c = Some ms -> (length ms < fuel)%nat ->
  run_handlers hs (reverse ms) w = Ok w' ->
  exists s', cpu_msg_handler (quiet_table hs) fuel c (w, s) = Ok (w', s') /\ holds s' (<[c := []]> Q) /\
    handling_msgs s' = handling_msgs s ∖ {[c]}.
Proof.
  intros Hh HQ Hf Hr. destruct (drain_spec hs c fuel w (set_handling_msgs c true s) Q ms w') as (s' & E & Hh' & Eh); [by apply holds_handling|done..|].
  exists (set_handling_msgs c false s'). unfold cpu_msg_handler. cbn [fst snd]. rewrite E. split; [done|]. split; [by apply holds_handling|].
  cbn [handling_msgs set_handling_msgs]. rewrite Eh. cbn [handling_msgs set_handling_msgs]. set_solver.
Qed.

(** A handler that records the data of its messages. *)
Definition recorder : list (option (Z -> Z -> list Z -> outcome (list Z))) :=
  [Some (fun _ d l => Ok (l ++ [d]))].

Lemma cpu_msg_handler_drains_witness :
  exists s1 s2 s3,
    cpu_send_msg demo_sys 1 (CpuMsg 0 2 7) = Ok s1 /\ cpu_send_msg s1 1 (CpuMsg 0 2 8) = Ok s2 /\
    cpu_msg_handler (quiet_table recorder) 3 1 ([], s2) = Ok ([8; 7], s3).
Proof.
  destruct (holds_send demo_sys _ 1 [] (CpuMsg 0 2 7) demo_holds eq_refl) as [[Hs _]|(s1 & Hs1 & Hh1 & _)].
  { exfalso. revert Hs. vm_compute. discriminate. }
  destruct (holds_send s1 _ 1 [CpuMsg 0 2 7] (CpuMsg 0 2 8) Hh1 eq_refl) as [[Hs _]|(s2 & Hs2 & Hh2 & _)].
  { exfalso. revert Hs. injection Hs1 as <-. vm_compute. discriminate. }
  destruct (cpu_msg_handler_drains recorder 1 3 [] s2 _ [CpuMsg 0 2 7; CpuMsg 0 2 8] [8; 7] Hh2)
    as (s3 & Hs3 & _); [done|simpl; lia|done|].
  by exists s1, s2, s3.
Defined.
End Msg.
