(* ===== verification/Gic.v ===== *)
(** The GICv2 driver: [arch/aarch64/gic.c], [arch/aarch64/gicv2.c],
    [arch/aarch64/inc/gicv2.h], [arch/aarch64/inc/gic.h], and the table of
    interrupt handlers it registers its maintenance interrupt with
    ([interrupts_reserve] of [core/interrupts.c]).

    The interrupt controller itself is hardware: the class [GicHw] is its
    register file, and what the proofs rely on of it are the named laws
    [GicLaws].  An access to a register array outside its bounds faults. *)

From S2P Require Import Prelude Bit Bitmap Spinlock.

(** ** Registers *)

Inductive gic_reg : Type :=
| CTLR | TYPER | IIDR
| IGROUPR (i : Z)
| ISENABLER (i : Z) | ICENABLER (i : Z)
| ISPENDR (i : Z) | ICPENDR (i : Z)
| ISACTIVER (i : Z) | ICACTIVER (i : Z)
| IPRIORITYR (i : Z) | ITARGETSR (i : Z) | ICFGR (i : Z)
| SGIR
| CPENDSGIR (i : Z) | SPENDSGIR (i : Z)
| ID (i : Z)
| GICC_CTLR | GICC_PMR | GICC_BPR | GICC_IAR | GICC_EOIR | GICC_RPR | GICC_HPPIR | GICC_DIR
| GICH_HCR | GICH_VTR | GICH_MISR | EISR (i : Z) | ELSR (i : Z) | LR (i : Z).

#[export] Instance gic_reg_eq_dec : EqDecision gic_reg.
Proof. solve_decision. Defined.

(** [hw_read] is a load without side effects, [hw_write] a store, [hw_ack] the
    load of [GICC_IAR], which acknowledges an interrupt. *)
Class GicHw (H : Type) := {
  hw_read : H -> gic_reg -> Z;
  hw_write : H -> gic_reg -> Z -> H;
  hw_ack : H -> Z * H;
}.

Definition GIC_FIRST_SPECIAL_INTID : Z := 1020.
Definition GIC_MAX_INTERUPTS : Z := 1024.
Definition GIC_MAX_VALID_INTERRUPTS : Z := GIC_FIRST_SPECIAL_INTID.
Definition GIC_MAX_SGIS : Z := 16.
Definition GIC_MAX_PPIS : Z := 16.
Definition GIC_CPU_PRIV : Z := GIC_MAX_SGIS + GIC_MAX_PPIS.
Definition GIC_PRIO_BITS : Z := 8.
Definition GIC_TARGET_BITS : Z := 8.
Definition GIC_MAX_TARGETS : Z := GIC_TARGET_BITS.
Definition GIC_CONFIG_BITS : Z := 2.
Definition GIC_SGI_BITS : Z := 8.
Definition GIC_LOWEST_PRIO : Z := 0xff.

(** [irqid_t] is 64 bits wide, so are the products. *)
Definition GIC_INT_REG (NINT : Z) : Z := NINT / 32.
Definition GIC_INT_MASK (NINT : Z) : Z := lsl32 1 (NINT mod 32).
Definition GIC_NUM_INT_REGS (NINT : Z) : Z := GIC_INT_REG NINT.
Definition GIC_NUM_PRIVINT_REGS : Z := GIC_CPU_PRIV / 32.
Definition GIC_PRIO_REG (NINT : Z) : Z := u64 (NINT * GIC_PRIO_BITS) / 32.
Definition GIC_NUM_PRIO_REGS (NINT : Z) : Z := GIC_PRIO_REG NINT.
Definition GIC_PRIO_OFF (NINT : Z) : Z := u64 (NINT * GIC_PRIO_BITS) mod 32.
Definition GIC_TARGET_REG (NINT : Z) : Z := u64 (NINT * GIC_TARGET_BITS) / 32.
Definition GIC_NUM_TARGET_REGS (NINT : Z) : Z := GIC_TARGET_REG NINT.
Definition GIC_TARGET_OFF (NINT : Z) : Z := u64 (NINT * GIC_TARGET_BITS) mod 32.
Definition GIC_NUM_SGI_REGS : Z := GIC_MAX_SGIS * GIC_SGI_BITS / 32.
Definition GICD_SGI_REG (NINT : Z) : Z := NINT / 4.
Definition GICD_SGI_OFF (NINT : Z) : Z := NINT mod 4 * 8.
Definition GIC_NUM_LIST_REGS : Z := 64.

Definition GICD_CTLR_EN_BIT : Z := 0x1.
Definition GICD_TYPER_CPUNUM_OFF : Z := 5.
Definition GICD_TYPER_CPUNUM_LEN : Z := 3.
Definition GICD_TYPER_CPUNUM_MSK : Z := BIT32_MASK GICD_TYPER_CPUNUM_OFF GICD_TYPER_CPUNUM_LEN.
Definition GICD_TYPER_ITLN_OFF : Z := 0.
Definition GICD_TYPER_ITLN_LEN : Z := 5.
Definition GICD_TYPER_ITLN_MSK : Z := BIT32_MASK GICD_TYPER_ITLN_OFF GICD_TYPER_ITLN_LEN.

Definition GICD_SGIR_SGIINTID_MSK : Z := BIT32_MASK 0 4.
Definition GICD_SGIR_SGIINTID (sgir : Z) : Z := bit32_extract (u32 sgir) 0 4.
Definition GICD_SGIR_CPUTRGLST_OFF : Z := 16.
Definition GICD_SGIR_CPUTRGLST (sgir : Z) : Z := bit32_extract (u32 sgir) 16 8.
Definition GICD_SGIR_TRGLSTFLT (sgir : Z) : Z := bit32_extract (u32 sgir) 24 2.

Definition GICC_CTLR_EN_BIT : Z := 0x1.
Definition GICC_CTLR_EOImodeNS_BIT : Z := Z.shiftl 1 9.
Definition GICC_IAR_ID_OFF : Z := 0.
Definition GICC_IAR_ID_LEN : Z := 10.

Definition GICH_HCR_En_BIT : Z := Z.shiftl 1 0.
Definition GICH_HCR_UIE_BIT : Z := Z.shiftl 1 1.
Definition GICH_HCR_LRENPIE_BIT : Z := Z.shiftl 1 2.
Definition GICH_HCR_NPIE_BIT : Z := Z.shiftl 1 3.
Definition GICH_HCR_EOICount_OFF : Z := 27.
Definition GICH_HCR_EOICount_LEN : Z := 5.
Definition GICH_HCR_EOICount_MASK : Z := BIT32_MASK GICH_HCR_EOICount_OFF GICH_HCR_EOICount_LEN.
Definition GICH_VTR_OFF : Z := 0.
Definition GICH_VTR_MSK : Z := BIT32_MASK GICH_VTR_OFF 6.

Definition GICH_LR_VID_OFF : Z := 0.
Definition GICH_LR_VID_LEN : Z := 10.
Definition GICH_LR_PID_OFF : Z := 10.
Definition GICH_LR_PID_LEN : Z := 10.
Definition GICH_LR_PRIO_OFF : Z := 23.
Definition GICH_LR_PRIO_LEN : Z := 5.
Definition GICH_LR_STATE_OFF : Z := 28.
Definition GICH_LR_STATE_LEN : Z := 2.
Definition GICH_LR_CPUID_OFF : Z := 10.
Definition GICH_LR_CPUID_LEN : Z := 3.
Definition GICH_LR_HW_BIT : Z := Z.shiftl 1 31.
Definition GICH_LR_EOI_BIT : Z := Z.shiftl 1 19.
Definition GICH_LR_PRIO_MSK : Z := BIT32_MASK GICH_LR_PRIO_OFF GICH_LR_PRIO_LEN.
Definition GICH_LR_PID_MSK : Z := BIT32_MASK GICH_LR_PID_OFF GICH_LR_PID_LEN.
Definition GICH_LR_STATE_MSK : Z := BIT32_MASK GICH_LR_STATE_OFF GICH_LR_STATE_LEN.
Definition GICH_LR_STATE (LR : Z) : Z := bit32_extract (u32 LR) GICH_LR_STATE_OFF GICH_LR_STATE_LEN.
Definition GICH_LR_VID_MSK : Z := BIT_MASK GICH_LR_VID_OFF GICH_LR_VID_LEN.
Definition GICH_LR_VID (LR : Z) : Z := bit_extract LR GICH_LR_VID_OFF GICH_LR_VID_LEN.
Definition GICH_LR_CPUID_MSK : Z := BIT_MASK GICH_LR_CPUID_OFF GICH_LR_CPUID_LEN.
Definition GICH_LR_CPUID (LR : Z) : Z := bit_extract LR GICH_LR_CPUID_OFF GICH_LR_CPUID_LEN.
Definition GICH_LR_STATE_PND : Z := Z.land (Z.shiftl 1 GICH_LR_STATE_OFF) GICH_LR_STATE_MSK.
Definition GICH_LR_STATE_ACT : Z := Z.land (Z.shiftl 2 GICH_LR_STATE_OFF) GICH_LR_STATE_MSK.

Definition GICH_MISR_EOI : Z := Z.shiftl 1 0.
Definition GICH_MISR_U : Z := Z.shiftl 1 1.
Definition GICH_MISR_LRPEN : Z := Z.shiftl 1 2.
Definition GICH_MISR_NP : Z := Z.shiftl 1 3.

(** [enum int_state]. *)
Definition INV : Z := 0.
Definition PEND : Z := 1.
Definition ACT : Z := 2.
Definition PENDACT : Z := 3.

(** The bounds of the register arrays of [struct gicd_hw] and [struct gich_hw]. *)
Definition reg_bound (r : gic_reg) : option (Z * Z) :=
  match r with
  | IGROUPR i | ISENABLER i | ICENABLER i | ISPENDR i | ICPENDR i | ISACTIVER i | ICACTIVER i =>
      Some (i, GIC_NUM_INT_REGS GIC_MAX_INTERUPTS)
  | IPRIORITYR i => Some (i, GIC_NUM_PRIO_REGS GIC_MAX_INTERUPTS)
  | ITARGETSR i => Some (i, GIC_NUM_TARGET_REGS GIC_MAX_INTERUPTS)
  | ICFGR i => Some (i, GIC_MAX_INTERUPTS * GIC_CONFIG_BITS / 32)
  | CPENDSGIR i | SPENDSGIR i => Some (i, GIC_NUM_SGI_REGS)
  | ID i => Some (i, 12)
  | EISR i | ELSR i => Some (i, GIC_NUM_LIST_REGS / 32)
  | LR i => Some (i, GIC_NUM_LIST_REGS)
  | _ => None
  end.

Definition reg_ok (r : gic_reg) : bool :=
  match reg_bound r with
  | Some (i, n) => (0 <=? i) && (i <? n)
  | None => true
  end.

(** ** Handlers

    [interrupt_handlers] holds the functions the hypervisor registers. *)
Inductive irq_handler := gic_maintenance | cpu_msg | timer_interrupt.

Record intrs := Intrs {
  hyp_interrupt_bitmap : bitmap_t;
  global_interrupt_bitmap : bitmap_t;
  interrupt_handlers : list (option irq_handler);
}.

Definition MAX_INTERRUPTS : Z := GIC_MAX_INTERUPTS.

Definition interrupts_reserve (t : intrs) (int_id : Z) (handler : irq_handler) : outcome intrs :=
  if int_id <? MAX_INTERRUPTS then
    hs ← wr (interrupt_handlers t) int_id (Some handler);
    hb ← bitmap_set (hyp_interrupt_bitmap t) int_id;
    gb ← bitmap_set (global_interrupt_bitmap t) int_id;
    Ok (Intrs hb gb hs)
  else Ok t.

(** ** Driver *)

Section gic.
Context {H : Type} `{GicHw H}.

Record gic := Gic {
  hw : H;
  gicd_lock : spinlock_t;
  gic_cpu_map : list Z;
  NUM_LRS : Z;
}.

Definition set_hw (g : gic) (h : H) : gic := Gic h (gicd_lock g) (gic_cpu_map g) (NUM_LRS g).

Definition rdreg (r : gic_reg) : st gic Z := fun g =>
  if reg_ok r then Ok (u32 (hw_read (hw g) r), g) else Halt HFault.

Definition wrreg (r : gic_reg) (v : Z) : st gic () := fun g =>
  if reg_ok r then Ok ((), set_hw g (hw_write (hw g) r (u32 v))) else Halt HFault.

Definition lock_gicd : st gic () := fun g =>
  l ← spin_lock (gicd_lock g);
  Ok ((), Gic (hw g) l (gic_cpu_map g) (NUM_LRS g)).

Definition unlock_gicd : st gic () := fun g =>
  Ok ((), Gic (hw g) (spin_unlock (gicd_lock g)) (gic_cpu_map g) (NUM_LRS g)).

(** *** [gic.h], [gicv2.h] *)

Definition gic_num_irqs : st gic Z :=
  typer ← rdreg TYPER;
  let itlinenumber := bit32_extract typer GICD_TYPER_ITLN_OFF GICD_TYPER_ITLN_LEN in
  mret (32 * itlinenumber + 1).

Definition gic_is_sgi (int_id : Z) : bool := int_id <? GIC_MAX_SGIS.
Definition gic_is_priv (int_id : Z) : bool := int_id <? GIC_CPU_PRIV.

Definition gich_read_lr (i : Z) : st gic Z :=
  n ← gets NUM_LRS;
  if i <? n then rdreg (LR i) else stop HError.

Definition gich_write_lr (i val : Z) : st gic () :=
  n ← gets NUM_LRS;
  if i <? n then wrreg (LR i) val else stop HError.

Definition gich_get_hcr : st gic Z := rdreg GICH_HCR.
Definition gich_set_hcr (hcr : Z) : st gic () := wrreg GICH_HCR hcr.
Definition gich_get_misr : st gic Z := rdreg GICH_MISR.

Definition gich_get_eisr : st gic Z :=
  eisr ← rdreg (EISR 0);
  n ← gets NUM_LRS;
  if 32 <? n then e1 ← rdreg (EISR 1); mret (Z.lor eisr (lsl64 e1 32)) else mret eisr.

Definition gich_get_elrsr : st gic Z :=
  elsr ← rdreg (ELSR 0);
  n ← gets NUM_LRS;
  if 32 <? n then e1 ← rdreg (ELSR 1); mret (Z.lor elsr (lsl64 e1 32)) else mret elsr.

Definition gicc_iar : st gic Z := fun g =>
  let '(v, h) := hw_ack (hw g) in Ok (u32 v, set_hw g h).
Definition gicc_eoir (eoir : Z) : st gic () := wrreg GICC_EOIR eoir.
Definition gicc_dir (dir : Z) : st gic () := wrreg GICC_DIR dir.

(** *** [gic.c] *)

Definition gicd_get_prio (int_id : Z) : st gic Z :=
  let reg_ind := GIC_PRIO_REG int_id in
  let off := GIC_PRIO_OFF int_id in
  r ← rdreg (IPRIORITYR reg_ind);
  mret (u8 (Z.land (Z.shiftr r off) (BIT32_MASK off GIC_PRIO_BITS))).

(** The read-modify-write of a field, under [gicd_lock]. *)
Definition update_field (r : gic_reg) (mask val : Z) : st gic () :=
  lock_gicd ;;
  v ← rdreg r;
  wrreg r (Z.lor (Z.land v (not32 mask)) (Z.land val mask)) ;;
  unlock_gicd.

Definition gicd_set_icfgr (int_id cfg : Z) : st gic () :=
  let reg_ind := u64 (int_id * GIC_CONFIG_BITS) / 32 in
  let off := u64 (int_id * GIC_CONFIG_BITS) mod 32 in
  let mask := lsl32 (u32 (lsl32 1 GIC_CONFIG_BITS - 1)) off in
  update_field (ICFGR reg_ind) mask (lsl32 cfg off).

Definition gicd_set_prio (int_id prio : Z) : st gic () :=
  let reg_ind := GIC_PRIO_REG int_id in
  let off := GIC_PRIO_OFF int_id in
  update_field (IPRIORITYR reg_ind) (BIT32_MASK off GIC_PRIO_BITS) (lsl32 prio off).

Definition gicd_set_pend (int_id : Z) (pend : bool) : st gic () :=
  let reg_ind := GIC_INT_REG int_id in
  if pend then wrreg (ISPENDR reg_ind) (GIC_INT_MASK int_id)
  else wrreg (ICPENDR reg_ind) (GIC_INT_MASK int_id).

Definition gicd_get_pend (int_id : Z) : st gic bool :=
  r ← rdreg (ISPENDR (GIC_INT_REG int_id));
  mret (negb (Z.land r (GIC_INT_MASK int_id) =? 0)).

Definition gicd_set_act (int_id : Z) (act : bool) : st gic () :=
  let reg_ind := GIC_INT_REG int_id in
  if act then wrreg (ISACTIVER reg_ind) (GIC_INT_MASK int_id)
  else wrreg (ICACTIVER reg_ind) (GIC_INT_MASK int_id).

Definition gicd_get_act (int_id : Z) : st gic bool :=
  r ← rdreg (ISACTIVER (GIC_INT_REG int_id));
  mret (negb (Z.land r (GIC_INT_MASK int_id) =? 0)).

Definition gicd_set_enable (int_id : Z) (en : bool) : st gic () :=
  let reg_ind := GIC_INT_REG int_id in
  let bit := GIC_INT_MASK int_id in
  if en then wrreg (ISENABLER reg_ind) bit else wrreg (ICENABLER reg_ind) bit.

Definition MINUS1 : Z := 2 ^ 32 - 1.

(** [for (i = lo; i < hi; i++) body(i)] *)
Definition for_range (lo hi : Z) (body : Z -> st gic ()) : st gic () := for_st (Z.to_nat (hi - lo)) lo body.

(** The distributor part of [gicd_init]; the maintenance interrupt it reserves
    last is in [gicd_init] below. *)
Definition gicd_init_regs : st gic () :=
  int_num ← gic_num_irqs;
  for_range GIC_NUM_PRIVINT_REGS (GIC_NUM_INT_REGS int_num) (fun i =>
    wrreg (IGROUPR i) MINUS1 ;; wrreg (ICENABLER i) MINUS1 ;;
    wrreg (ICPENDR i) MINUS1 ;; wrreg (ICACTIVER i) MINUS1) ;;
  for_range (GIC_NUM_PRIO_REGS GIC_CPU_PRIV) (GIC_NUM_PRIO_REGS int_num) (fun i =>
    wrreg (IPRIORITYR i) MINUS1) ;;
  for_range (GIC_NUM_TARGET_REGS GIC_CPU_PRIV) (GIC_NUM_TARGET_REGS int_num) (fun i =>
    wrreg (ITARGETSR i) 0) ;;
  ctlr ← rdreg CTLR;
  wrreg CTLR (Z.lor ctlr GICD_CTLR_EN_BIT).

Definition gicd_init (maintenance_id : Z) (g : gic) (t : intrs) : outcome (gic * intrs) :=
  '(_, g) ← gicd_init_regs g;
  t ← interrupts_reserve t maintenance_id gic_maintenance;
  Ok (g, t).

(** *** [gicv2.c] *)

Definition gich_num_lrs : st gic Z :=
  vtr ← rdreg GICH_VTR;
  mret (Z.shiftr (Z.land vtr GICH_VTR_MSK) GICH_VTR_OFF + 1).

Definition gicc_init_regs : st gic () :=
  n ← gich_num_lrs;
  for_range 0 n (fun i => wrreg (LR i) 0) ;;
  wrreg GICC_PMR GIC_LOWEST_PRIO ;;
  ctlr ← rdreg GICC_CTLR;
  wrreg GICC_CTLR (Z.lor ctlr (Z.lor GICC_CTLR_EN_BIT GICC_CTLR_EOImodeNS_BIT)) ;;
  hcr ← rdreg GICH_HCR;
  wrreg GICH_HCR (Z.lor hcr GICH_HCR_LRENPIE_BIT).

(** [cpu_id] is [cpu()->id].  [bit32_ffs] returns a [size_t]; [+ 1] wraps and
    the sum is read as an [ssize_t], so it is never negative. *)
Definition gicc_init (cpu_id : Z) : st gic () :=
  gicc_init_regs ;;
  t0 ← rdreg (ITARGETSR 0);
  let sgi_targets := Z.land t0 (BIT32_MASK 0 GIC_TARGET_BITS) in
  pos ← lift (bit32_ffs sgi_targets);
  let gic_cpu_id := u64 (pos + 1) in
  if 2 ^ 63 <=? gic_cpu_id then stop HError else
  m ← gets gic_cpu_map;
  m ← lift (wr m cpu_id gic_cpu_id);
  modify (fun g => Gic (hw g) (gicd_lock g) m (NUM_LRS g)).

Definition gic_cpu_init_regs : st gic () :=
  for_range 0 (GIC_NUM_INT_REGS GIC_CPU_PRIV) (fun i =>
    wrreg (ICENABLER i) MINUS1 ;; wrreg (ICPENDR i) MINUS1 ;; wrreg (ICACTIVER i) MINUS1) ;;
  for_range 0 GIC_NUM_SGI_REGS (fun i => wrreg (CPENDSGIR i) MINUS1) ;;
  for_range 0 (GIC_NUM_PRIO_REGS GIC_CPU_PRIV) (fun i => wrreg (IPRIORITYR i) MINUS1).

Definition gic_cpu_init (cpu_id : Z) : st gic () :=
  gic_cpu_init_regs ;;
  gicc_init cpu_id.

(** What the master does in [gic_init] between the barriers of all CPUs. *)
Definition gic_init_master (maintenance_id : Z) (g : gic) (t : intrs) : outcome (gic * intrs) :=
  '(g, t) ← gicd_init maintenance_id g t;
  '(n, g) ← gich_num_lrs g;
  Ok (Gic (hw g) (gicd_lock g) (gic_cpu_map g) n, t).

Definition gic_send_sgi (cpu_target sgi_num : Z) : st gic () :=
  if (sgi_num <? GIC_MAX_SGIS) && (cpu_target <? GIC_MAX_TARGETS) then
    m ← gets gic_cpu_map;
    c ← lift (rd m cpu_target);
    wrreg SGIR (Z.lor (lsl64 1 (GICD_SGIR_CPUTRGLST_OFF + c)) (Z.land sgi_num GICD_SGIR_SGIINTID_MSK))
  else mret ().

Fixpoint translate_targets (map : list Z) (k : nat) (i cpu_targets gic_targets : Z) : outcome Z :=
  match k with
  | O => Ok gic_targets
  | S k =>
      if Z.land (lsl32 1 i) cpu_targets =? 0 then translate_targets map k (i + 1) cpu_targets gic_targets
      else
        c ← rd map i;
        translate_targets map k (i + 1) cpu_targets (u8 (Z.lor gic_targets (lsl32 1 c)))
  end.

Definition gic_translate_cpu_to_trgt (cpu_targets : Z) : st gic Z :=
  m ← gets gic_cpu_map;
  lift (translate_targets m (Z.to_nat GIC_MAX_TARGETS) 0 cpu_targets 0).

(** The right-hand side is evaluated under the lock. *)
Definition gicd_set_trgt (int_id cpu_targets : Z) : st gic () :=
  let reg_ind := GIC_TARGET_REG int_id in
  let off := GIC_TARGET_OFF int_id in
  let mask := BIT32_MASK off GIC_TARGET_BITS in
  lock_gicd ;;
  v ← rdreg (ITARGETSR reg_ind);
  t ← gic_translate_cpu_to_trgt cpu_targets;
  wrreg (ITARGETSR reg_ind) (Z.lor (Z.land v (not32 mask)) (Z.land (lsl32 t off) mask)) ;;
  unlock_gicd.

Definition gic_set_prio (int_id prio : Z) : st gic () := gicd_set_prio int_id prio.
Definition gic_get_prio (int_id : Z) : st gic Z := gicd_get_prio int_id.
Definition gic_set_icfgr (int_id cfg : Z) : st gic () := gicd_set_icfgr int_id cfg.
Definition gic_get_pend (int_id : Z) : st gic bool := gicd_get_pend int_id.
Definition gic_set_act (int_id : Z) (act : bool) : st gic () := gicd_set_act int_id act.
Definition gic_get_act (int_id : Z) : st gic bool := gicd_get_act int_id.
Definition gic_set_enable (int_id : Z) (en : bool) : st gic () := gicd_set_enable int_id en.

(** [cpu_id] is [cpu()->id]. *)
Definition gic_set_pend (cpu_id int_id : Z) (pend : bool) : st gic () :=
  if gic_is_sgi int_id then
    let reg_ind := GICD_SGI_REG int_id in
    let off := GICD_SGI_OFF int_id in
    if pend then wrreg (SPENDSGIR reg_ind) (lsl32 1 (off + cpu_id))
    else wrreg (CPENDSGIR reg_ind) (BIT32_MASK off 8)
  else gicd_set_pend int_id pend.

(** [struct gicc_state]; [gicc->IAR] acknowledges an interrupt when it is read. *)
Record gicc_state := GiccState {
  s_CTLR : Z; s_PMR : Z; s_BPR : Z; s_IAR : Z; s_EOIR : Z; s_RPR : Z; s_HPPIR : Z;
  priv_ISENABLER : Z;
  priv_IPRIORITYR : list Z;
  s_HCR : Z;
  s_LR : list Z;
}.

(** [for (i = 0; i < n; i++) a[i] = reg(i)]. *)
Fixpoint read_array (n : nat) (i : Z) (reg : Z -> gic_reg) : st gic (list Z) :=
  match n with
  | O => mret []
  | S n => v ← rdreg (reg i); l ← read_array n (i + 1) reg; mret (v :: l)
  end.

(** [for (i = 0; i < n; i++) reg(i) = a[i]]. *)
Definition write_array (n : Z) (a : list Z) (reg : Z -> gic_reg) : st gic () :=
  for_range 0 n (fun i => v ← lift (rd a i); wrreg (reg i) v).

Definition gicc_save_state : st gic gicc_state :=
  ctlr ← rdreg GICC_CTLR;
  pmr ← rdreg GICC_PMR;
  bpr ← rdreg GICC_BPR;
  iar ← gicc_iar;
  eoir ← rdreg GICC_EOIR;
  rpr ← rdreg GICC_RPR;
  hppir ← rdreg GICC_HPPIR;
  isen ← rdreg (ISENABLER 0);
  prio ← read_array (Z.to_nat (GIC_NUM_PRIO_REGS GIC_CPU_PRIV)) 0 IPRIORITYR;
  hcr ← rdreg GICH_HCR;
  n ← gich_num_lrs;
  lrs ← read_array (Z.to_nat n) 0 LR;
  mret (GiccState ctlr pmr bpr iar eoir rpr hppir isen prio hcr lrs).

Definition gicc_restore_state (s : gicc_state) : st gic () :=
  wrreg GICC_CTLR (s_CTLR s) ;;
  wrreg GICC_PMR (s_PMR s) ;;
  wrreg GICC_BPR (s_BPR s) ;;
  wrreg GICC_IAR (s_IAR s) ;;
  wrreg GICC_EOIR (s_EOIR s) ;;
  wrreg GICC_RPR (s_RPR s) ;;
  wrreg GICC_HPPIR (s_HPPIR s) ;;
  wrreg (ISENABLER 0) (priv_ISENABLER s) ;;
  write_array (GIC_NUM_PRIO_REGS GIC_CPU_PRIV) (priv_IPRIORITYR s) IPRIORITYR ;;
  wrreg GICH_HCR (s_HCR s) ;;
  n ← gich_num_lrs;
  write_array n (s_LR s) LR.

(** *** [arch_interrupts.c] *)

Definition interrupts_arch_enable (cpu_id int_id : Z) (en : bool) : st gic () :=
  gic_set_enable int_id en ;;
  gic_set_prio int_id 0x01 ;;
  gicd_set_trgt int_id (u8 (lsl32 1 cpu_id)).

Definition interrupts_arch_ipi_send (target_cpu ipi_id : Z) : st gic () :=
  if ipi_id <? GIC_MAX_SGIS then gic_send_sgi target_cpu ipi_id else mret ().

Definition interrupts_arch_clear (cpu_id int_id : Z) : st gic () :=
  gic_set_act int_id false ;; gic_set_pend cpu_id int_id false.

Definition interrupts_arch_check (int_id : Z) : st gic bool := gic_get_pend int_id.
End gic.
Arguments gic : clear implicits.

(** ** What is relied on of the controller

    From the GICv2 architecture specification: the priority, target and
    configuration registers of shared interrupts, the list registers and
    [GICH_HCR] hold what was last written to them; the first eight target
    registers are read-only; a bit of [GICH_ELRSR] is set when the list register
    is empty: no valid interrupt and no pending EOI maintenance interrupt. *)
Definition storage (r : gic_reg) : bool :=
  match r with
  | IPRIORITYR _ | ICFGR _ | LR _ | GICH_HCR => true
  | ITARGETSR i => 8 <=? i
  | _ => false
  end.

Definition lr_empty (lr : Z) : bool :=
  (GICH_LR_STATE lr =? INV) && (Z.testbit lr 31 || negb (Z.testbit lr 19)).

Class GicLaws (H : Type) `{GicHw H} := {
  gl_same : forall (h : H) r v, storage r = true -> hw_read (hw_write h r v) r = v;
  gl_other : forall (h : H) r r' v, storage r' = true -> r ≠ r' -> hw_read (hw_write h r v) r' = hw_read h r';
  gl_target0 : forall (h : H) r i v, i < 8 -> hw_read (hw_write h r v) (ITARGETSR i) = hw_read h (ITARGETSR i);
  gl_elsr : forall (h : H) i, 0 <= i < 64 ->
    Z.testbit (hw_read h (ELSR (i / 32))) (i mod 32) = lr_empty (u32 (hw_read h (LR i)));
}.

Section laws.
Context {H : Type} `{GicLaws H}.
Implicit Type g : gic H.

(** The priority the distributor holds for interrupt [j]. *)
Definition prio_of g (j : Z) : Z :=
  bit32_extract (u32 (hw_read (hw g) (IPRIORITYR (j / 4)))) (8 * (j mod 4)) 8.

Lemma prio_reg j : 0 <= j < 1024 ->
  GIC_PRIO_REG j = j / 4 /\ GIC_PRIO_OFF j = 8 * (j mod 4) /\ reg_ok (IPRIORITYR (j / 4)) = true.
Proof.
  intros Hj. unfold GIC_PRIO_REG, GIC_PRIO_OFF, GIC_PRIO_BITS. rewrite (u64_small (j * 8)) by lia.
  change 32 with (4 * 8). rewrite Z.div_mul_cancel_r, Z.mul_mod_distr_r by lia. split_and!; [done|lia|].
  unfold reg_ok, reg_bound. apply in_interval_true. change (GIC_NUM_PRIO_REGS GIC_MAX_INTERUPTS) with 256.
  divmod j 4. lia.
Qed.

Lemma wrreg_Ok g r v : reg_ok r = true -> wrreg r v g = Ok ((), set_hw g (hw_write (hw g) r (u32 v))).
Proof. intros E. unfold wrreg. by rewrite E. Qed.

Lemma update_field_spec g r mask val :
  unlocked (gicd_lock g) -> reg_ok r = true ->
  exists g', update_field r mask val g = Ok ((), g') /\ unlocked (gicd_lock g') /\
    gic_cpu_map g' = gic_cpu_map g /\ NUM_LRS g' = NUM_LRS g /\
    hw g' = hw_write (hw g) r
      (u32 (Z.lor (Z.land (u32 (hw_read (hw g) r)) (not32 mask)) (Z.land val mask))).
Proof.
  intros Hl Hr. destruct (spin_lock_unlock _ Hl) as (l & El & Hul & _).
  unfold update_field, mbind, st_bind, lock_gicd. rewrite El. mstep. unfold rdreg. rewrite Hr.
  rewrite wrreg_Ok by done. eexists. split; [done|]. done.
Qed.

(** A masked write changes one field. *)
Lemma masked_write_testbit v x off len i :
  0 <= off -> 1 <= len -> off + len <= 32 -> 0 <= i < 32 ->
  Z.testbit (u32 (Z.lor (Z.land (u32 v) (not32 (BIT32_MASK off len)))
                        (Z.land (lsl32 x off) (BIT32_MASK off len)))) i =
  if (off <=? i) && (i <? off + len) then Z.testbit x (i - off) else Z.testbit (u32 v) i.
Proof.
  intros Ho Hl Hle Hi. rewrite testbit_u32, Z.lor_spec, !Z.land_spec, testbit_not32, testbit_lsl32,
    BIT32_MASK_testbit by lia.
  destruct (Z.ltb_spec i 32); [|lia]. simpl.
  destruct ((off <=? i) && (i <? off + len)); simpl; rewrite ?andb_true_r, ?andb_false_r, ?orb_false_r; done.
Qed.

Lemma extract_masked_write v x off len off' :
  0 <= off -> 1 <= len -> off + len <= 32 -> 0 <= x < 2 ^ len -> 0 <= off' -> off' + len <= 32 ->
  off' = off \/ off' + len <= off \/ off + len <= off' ->
  bit32_extract (u32 (u32 (Z.lor (Z.land (u32 v) (not32 (BIT32_MASK off len)))
                        (Z.land (lsl32 x off) (BIT32_MASK off len))))) off' len =
  if off' =? off then x else bit32_extract (u32 v) off' len.
Proof.
  intros Ho Hl Hle Hx Ho' Hle' Hsep. apply Z.bits_inj'. intros i Hi. unfold bit32_extract.
  rewrite (PRE_extract_testbit (w := 32)) by lia. destruct (Z.ltb_spec i len).
  - rewrite testbit_u32, masked_write_testbit by lia. destruct (Z.ltb_spec (i + off') 32); [|lia].
    destruct (Z.eqb_spec off' off) as [->|Hne]; simpl.
    + rewrite in_interval_true by lia. f_equal. lia.
    + rewrite in_interval_false by lia. rewrite (PRE_extract_testbit (w := 32)) by lia. zcase.
  - simpl. destruct (off' =? off).
    + symmetry. apply (testbit_small x len); lia.
    + rewrite (PRE_extract_testbit (w := 32)) by lia. zcase.
Qed.

Lemma gicd_set_prio_spec g id prio :
  unlocked (gicd_lock g) -> 0 <= id < 1024 -> 0 <= prio < 256 ->
  exists g', gicd_set_prio id prio g = Ok ((), g') /\ unlocked (gicd_lock g') /\
    forall j, 0 <= j < 1024 -> prio_of g' j = if j =? id then prio else prio_of g j.
Proof.
  intros Hl Hid Hp. destruct (prio_reg id Hid) as (E1 & E2 & E3). unfold gicd_set_prio. rewrite E1, E2.
  destruct (update_field_spec g (IPRIORITYR (id / 4)) (BIT32_MASK (8 * (id mod 4)) GIC_PRIO_BITS)
    (lsl32 prio (8 * (id mod 4))) Hl E3) as (g' & -> & Hl' & _ & _ & Hhw).
  exists g'. split; [done|]. split; [done|]. intros j Hj. unfold prio_of. rewrite Hhw.
  divmod id 4. divmod j 4.
  destruct (decide (j / 4 = id / 4)) as [Eq|Ne].
  - rewrite Eq, gl_same by done. rewrite (extract_masked_write _ _ _ GIC_PRIO_BITS) by (unfold GIC_PRIO_BITS; lia).
    assert ((8 * (j mod 4) =? 8 * (id mod 4)) = (j =? id)) as -> by (repeat zcase). done.
  - rewrite gl_other by (done || congruence). destruct (Z.eqb_spec j id); [congruence|done].
Qed.

(** The mask is applied at [off] to a value already shifted down by [off]. *)
Lemma gicd_get_prio_spec g id :
  0 <= id < 1024 ->
  gicd_get_prio id g = Ok (if id mod 4 =? 0 then prio_of g id else 0, g).
Proof.
  intros Hid. destruct (prio_reg id Hid) as (E1 & E2 & E3).
  unfold gicd_get_prio, mbind, st_bind, rdreg. rewrite E1, E2, E3. unfold mret, st_ret. do 2 f_equal.
  divmod id 4. set (v := u32 (hw_read (hw g) (IPRIORITYR (id / 4)))).
  apply Z.bits_inj'. intros i Hi. unfold u8.
  destruct (Z.ltb_spec i 8).
  - rewrite Z.mod_pow2_bits_low, Z.land_spec, Z.shiftr_spec, BIT32_MASK_testbit by (unfold GIC_PRIO_BITS; lia).
    unfold GIC_PRIO_BITS. destruct (Z.eqb_spec (id mod 4) 0) as [E|E].
    + unfold prio_of. fold v. rewrite E. unfold bit32_extract. rewrite (PRE_extract_testbit (w := 32)) by lia.
      repeat zcase. rewrite andb_true_r. done.
    + rewrite Z.bits_0. destruct (Z.leb_spec (8 * (id mod 4)) i); [lia|]. rewrite andb_false_r. simpl. apply andb_false_r.
  - rewrite Z.mod_pow2_bits_high by lia. destruct (Z.eqb_spec (id mod 4) 0); [|by rewrite Z.bits_0].
    unfold prio_of, bit32_extract. rewrite (PRE_extract_testbit (w := 32)) by lia. zcase.
Qed.

(** *** Bringing up a CPU interface *)

(** A step that halts never and leaves [GICD_ITARGETSR0], the lock and the CPU
    map alone. *)
Definition steady (m : st (gic H) ()) : Prop :=
  forall g, exists g', m g = Ok ((), g') /\
    hw_read (hw g') (ITARGETSR 0) = hw_read (hw g) (ITARGETSR 0) /\
    gic_cpu_map g' = gic_cpu_map g /\ gicd_lock g' = gicd_lock g /\ NUM_LRS g' = NUM_LRS g.

Lemma steady_wr r v : reg_ok r = true -> steady (wrreg r v).
Proof.
  intros Hr g. rewrite wrreg_Ok by done. eexists. split; [done|]. split_and!; [|done..].
  simpl. by apply gl_target0.
Qed.

Lemma steady_seq m1 m2 : steady m1 -> steady m2 -> steady (m1 ;; m2).
Proof.
  intros K1 K2 g. destruct (K1 g) as (g1 & E1 & A1 & B1 & C1 & D1).
  destruct (K2 g1) as (g2 & E2 & A2 & B2 & C2 & D2).
  exists g2. unfold mbind, st_bind. rewrite E1, E2. split; [done|]. split_and!; congruence.
Qed.

Lemma steady_rd r (f : Z -> st (gic H) ()) :
  reg_ok r = true -> (forall v, 0 <= v < 2 ^ 32 -> steady (f v)) -> steady (v ← rdreg r; f v).
Proof.
  intros Hr Hf g. unfold mbind, st_bind, rdreg. rewrite Hr. apply Hf. apply u32_range.
Qed.

Lemma steady_for n lo body :
  (forall i, lo <= i < lo + Z.of_nat n -> steady (body i)) -> steady (for_st n lo body).
Proof.
  revert lo. induction n as [|n IH]; intros lo Hb.
  - intros g. exists g. done.
  - simpl. apply steady_seq; [apply Hb; lia|]. apply IH. intros i Hi. apply Hb. lia.
Qed.

Lemma steady_range lo hi body :
  (forall i, lo <= i < hi -> steady (body i)) -> steady (for_range lo hi body).
Proof. intros Hb. apply steady_for. intros i Hi. apply Hb. lia. Qed.

Lemma bound_ok r i n : reg_bound r = Some (i, n) -> 0 <= i < n -> reg_ok r = true.
Proof. intros E Hi. unfold reg_ok. rewrite E. by apply in_interval_true. Qed.

Lemma steady_num_lrs (f : Z -> st (gic H) ()) :
  (forall n, 0 <= n <= 64 -> steady (f n)) -> steady (n ← gich_num_lrs; f n).
Proof.
  intros Hf g. apply Hf. pose proof (u32_range (hw_read (hw g) GICH_VTR)).
  change GICH_VTR_MSK with (Z.ones 6). rewrite Z.land_ones by lia.
  change GICH_VTR_OFF with 0. rewrite Z.shiftr_0_r.
  pose proof (Z.mod_pos_bound (u32 (hw_read (hw g) GICH_VTR)) (2 ^ 6)). lia.
Qed.

Lemma gicc_init_regs_steady : steady gicc_init_regs.
Proof.
  apply steady_num_lrs. intros n Hn. apply steady_seq; [|apply steady_seq; [by apply steady_wr|]].
  - apply steady_range. intros i Hi. apply steady_wr, (bound_ok _ i 64); [done|lia].
  - apply steady_rd; [done|]. intros v _. apply steady_seq; [by apply steady_wr|].
    apply steady_rd; [done|]. intros w _. by apply steady_wr.
Qed.

Lemma gic_cpu_init_regs_steady : steady gic_cpu_init_regs.
Proof.
  apply steady_seq; [|apply steady_seq]; apply steady_range; intros i Hi.
  - change (GIC_NUM_INT_REGS GIC_CPU_PRIV) with 1 in Hi.
    repeat (apply steady_seq || apply steady_wr); apply (bound_ok _ i 32); done || lia.
  - change GIC_NUM_SGI_REGS with 4 in Hi. apply steady_wr, (bound_ok _ i 4); [done|lia].
  - change (GIC_NUM_PRIO_REGS GIC_CPU_PRIV) with 8 in Hi. apply steady_wr, (bound_ok _ i 256); [done|lia].
Qed.

(** The position of the only set bit. *)
Lemma bit32_ffs_pow2 v k :
  0 <= k < 32 -> Z.testbit v k = true -> (forall j, 0 <= j < 32 -> j ≠ k -> Z.testbit v j = false) ->
  bit32_ffs v = Ok k.
Proof.
  intros Hk Hb Ho. destruct (PRE_ffs_spec 32 (lsl := lsl32) v) as (r & E & Hr). unfold bit32_ffs. rewrite E.
  f_equal. destruct Hr as [(Hr1 & Hr2 & _)|[_ Hr]].
  - destruct (decide (r = k)); [done|]. rewrite Ho in Hr2; done || lia.
  - rewrite Hr in Hb; done || lia.
Qed.

Lemma gic_cpu_init_map g c k :
  0 <= c < Z.of_nat (length (gic_cpu_map g)) -> 0 <= k < 8 ->
  u32 (hw_read (hw g) (ITARGETSR 0)) mod 2 ^ 8 = 2 ^ k ->
  exists g', gic_cpu_init c g = Ok ((), g') /\
    gic_cpu_map g' = <[Z.to_nat c := k + 1]> (gic_cpu_map g).
Proof.
  intros Hc Hk Ht. destruct (gic_cpu_init_regs_steady g) as (g1 & E1 & A1 & B1 & _).
  destruct (gicc_init_regs_steady g1) as (g2 & E2 & A2 & B2 & _).
  unfold gic_cpu_init, gicc_init, mbind, st_bind. rewrite E1, E2. unfold rdreg.
  change (reg_ok (ITARGETSR 0)) with true. cbn iota. rewrite A2, A1.
  assert (Z.land (u32 (hw_read (hw g) (ITARGETSR 0))) (BIT32_MASK 0 GIC_TARGET_BITS) = 2 ^ k) as ->.
  { change (BIT32_MASK 0 GIC_TARGET_BITS) with (Z.ones 8). by rewrite Z.land_ones. }
  rewrite (bit32_ffs_pow2 _ k); [|lia|apply Z.pow2_bits_true; lia|intros; apply Z.pow2_bits_false; lia].
  cbn [lift]. rewrite u64_small by lia. destruct (Z.leb_spec (2 ^ 63) (k + 1)); [lia|].
  unfold gets, modify. rewrite B2, B1, wr_Ok by lia. simpl. eauto.
Qed.
End laws.

(** ** A controller with these properties

    A register file: reads return what was stored, except that [GICH_ELRSR] is
    computed from the list registers; the read-only target registers ignore
    writes. *)
Definition regfile : Type := gic_reg -> Z.

Fixpoint bits_of (f : Z -> bool) (n : nat) : Z :=
  match n with
  | O => 0
  | S n => if f (Z.of_nat n) then Z.setbit (bits_of f n) (Z.of_nat n) else bits_of f n
  end.

Lemma bits_of_testbit f n i : 0 <= i -> Z.testbit (bits_of f n) i = (i <? Z.of_nat n) && f i.
Proof.
  intros Hi. induction n as [|n IH]; [simpl; rewrite Z.bits_0; zcase|].
  simpl bits_of. destruct (decide (i = Z.of_nat n)) as [->|Hne].
  - destruct (Z.ltb_spec (Z.of_nat n) (Z.of_nat (S n))); [|lia]. simpl.
    destruct (f (Z.of_nat n)) eqn:E; [by rewrite Z.setbit_eq by lia|].
    rewrite IH. zcase.
  - assert (Z.testbit (if f (Z.of_nat n) then Z.setbit (bits_of f n) (Z.of_nat n) else bits_of f n) i =
      Z.testbit (bits_of f n) i) as ->.
    { destruct (f (Z.of_nat n)); [|done]. apply Z.setbit_neq; lia. }
    rewrite IH. f_equal. repeat zcase.
Qed.

Definition regfile_read (h : regfile) (r : gic_reg) : Z :=
  match r with
  | ELSR j => bits_of (fun i => lr_empty (u32 (h (LR (32 * j + i))))) 32
  | _ => h r
  end.

Definition regfile_write (h : regfile) (r : gic_reg) (v : Z) : regfile :=
  match r with
  | ITARGETSR i => if i <? 8 then h else fun r' => if decide (r' = r) then v else h r'
  | _ => fun r' => if decide (r' = r) then v else h r'
  end.

#[export] Instance regfile_hw : GicHw regfile := {
  hw_read := regfile_read;
  hw_write := regfile_write;
  hw_ack h := (h GICC_IAR, h);
}.

Lemma regfile_write_ne h r r' v : r ≠ r' -> regfile_write h r v r' = h r'.
Proof.
  intros Hne. destruct r; simpl; try (by rewrite decide_False by congruence).
  destruct (i <? 8); [done|]. by rewrite decide_False by congruence.
Qed.

#[export] Instance regfile_laws : GicLaws regfile.
Proof.
  split.
  - intros h r v. destruct r; try done; simpl; intros Hs; try by rewrite decide_True.
    destruct (Z.leb_spec 8 i), (Z.ltb_spec i 8); try done; try lia. by rewrite decide_True.
  - intros h r r' v Hs Hne. destruct r'; try done; simpl; by rewrite regfile_write_ne.
  - intros h r i v Hi. destruct (decide (r = ITARGETSR i)) as [->|Hne]; [|simpl; by rewrite regfile_write_ne].
    simpl. destruct (Z.ltb_spec i 8); [done|lia].
  - intros h i Hi. cbv [hw_read regfile_hw regfile_read]. divmod i 32. rewrite bits_of_testbit by lia.
    destruct (Z.ltb_spec (i mod 32) (Z.of_nat 32)); [|lia]. simpl.
    replace (32 * (i / 32) + i mod 32) with i by lia. done.
Qed.

(** ** The properties *)

(** [gicd_set_prio] sets the priority of its interrupt and of no other: after
    the read-modify-write of the shared register, under the distributor's lock,
    every interrupt but [id] has the priority it had. *)
Theorem gicd_set_prio_exact {H} `{GicLaws H} (g : gic H) id prio :
  unlocked (gicd_lock g) -> 0 <= id < 1024 -> 0 <= prio < 256 ->
  exists g', gicd_set_prio id prio g = Ok ((), g') /\ unlocked (gicd_lock g') /\
    forall j, 0 <= j < 1024 -> prio_of g' j = if j =? id then prio else prio_of g j.
Proof. apply gicd_set_prio_spec. Qed.

Definition demo_gic : gic regfile :=
  Gic (fun r => match r with ITARGETSR 0 => 0x01010101 | _ => 0 end) SPINLOCK_INITVAL (replicate 8 0) 4.

Lemma gicd_set_prio_exact_witness :
  exists g', gicd_set_prio 33 0xa0 demo_gic = Ok ((), g') /\ prio_of g' 33 = 0xa0 /\ prio_of g' 34 = 0.
Proof.
  destruct (gicd_set_prio_exact demo_gic 33 0xa0) as (g' & E & _ & Hj); [by split|lia|lia|].
  exists g'. split; [done|]. rewrite !Hj by lia. done.
Defined.

(** [gicd_get_prio] is right only for every fourth interrupt: it masks the
    register with the field's mask after having shifted the field down, and for
    the interrupts whose field is not the lowest one the result is always 0. *)
Theorem gicd_get_prio_zero {H} `{GicLaws H} (g : gic H) id :
  0 <= id < 1024 ->
  gicd_get_prio id g = Ok (if id mod 4 =? 0 then prio_of g id else 0, g).
Proof. apply gicd_get_prio_spec. Qed.

Lemma gicd_get_prio_zero_witness :
  exists g', gicd_set_prio 33 0xa0 demo_gic = Ok ((), g') /\ prio_of g' 33 = 0xa0 /\
    gicd_get_prio 33 g' = Ok (0, g').
Proof.
  destruct (gicd_set_prio_spec demo_gic 33 0xa0) as (g' & E & _ & Hj); [by split|lia|lia|].
  exists g'. split; [done|]. split; [by rewrite Hj by lia|].
  apply (gicd_get_prio_zero g' 33). lia.
Defined.

(** Inter-processor interrupts go to the wrong CPU interface: on the CPU
    whose interface is number [k] (bit [k] of [GICD_ITARGETSR0]), [gic_cpu_init]
    records [k + 1], and [gic_send_sgi] to that CPU then sets bit [k + 1] of the
    target list. *)
Theorem gic_send_sgi_next_cpu {H} `{GicLaws H} (g : gic H) c k sgi :
  0 <= c < 8 -> length (gic_cpu_map g) = 8%nat -> 0 <= k < 7 -> 0 <= sgi < 16 ->
  u32 (hw_read (hw g) (ITARGETSR 0)) mod 2 ^ 8 = 2 ^ k ->
  exists g' v, gic_cpu_init c g = Ok ((), g') /\
    gic_send_sgi c sgi g' = Ok ((), set_hw g' (hw_write (hw g') SGIR v)) /\
    GICD_SGIR_CPUTRGLST v = 2 ^ (k + 1) /\ GICD_SGIR_SGIINTID v = sgi.
Proof.
  intros Hc Hl Hk Hs Ht. destruct (gic_cpu_init_map g c k) as (g' & E & Hm); [lia|lia|done|].
  exists g'. eexists. split; [done|].
  unfold gic_send_sgi. rewrite (proj2 (Z.ltb_lt sgi GIC_MAX_SGIS)), (proj2 (Z.ltb_lt c GIC_MAX_TARGETS))
    by (unfold GIC_MAX_SGIS, GIC_MAX_TARGETS, GIC_TARGET_BITS; lia). simpl.
  unfold mbind, st_bind, gets. rewrite Hm.
  assert (rd (<[Z.to_nat c := k + 1]> (gic_cpu_map g)) c = Ok (k + 1)) as ->.
  { apply rd_Ok. split; [lia|]. apply list_lookup_insert_eq. lia. }
  cbn [lift]. rewrite wrreg_Ok by done. split; [done|].
  assert (k = 0 \/ k = 1 \/ k = 2 \/ k = 3 \/ k = 4 \/ k = 5 \/ k = 6) as Hk7 by lia.
  assert (exists n, sgi = Z.of_nat n /\ (n < 16)%nat) as (n & -> & Hn) by (exists (Z.to_nat sgi); lia).
  destruct Hk7 as [->|[->|[->|[->|[->|[->| ->]]]]]];
    do 16 (destruct n as [|n]; [by vm_compute|]); lia.
Qed.

Lemma gic_send_sgi_next_cpu_witness :
  exists g' v, gic_cpu_init 0 demo_gic = Ok ((), g') /\
    gic_send_sgi 0 1 g' = Ok ((), set_hw g' (hw_write (hw g') SGIR v)) /\
    GICD_SGIR_CPUTRGLST v = 2 /\ GICD_SGIR_SGIINTID v = 1.
Proof. apply (gic_send_sgi_next_cpu demo_gic 0 0 1); [lia|done|lia|lia|by vm_compute]. Defined.
