(* ===== verification/Vm.v ===== *)
(** Virtual machines: [core/inc/vm.h], the parts of [core/vm.c] and
    [arch/aarch64/arch_vm.c] that work on a VM's own state, and the structures
    of [arch/aarch64/inc/arch_vm.h] and [arch/aarch64/inc/vgic.h].

    Pointers into a VM are indices: a [struct vcpu *] is the position of the
    virtual CPU in [vm->vcpus], NULL is [None]. *)

From S2P Require Import Prelude Bit Bitmap Spinlock PhysMem Objpool Dlist Cpu Gic.

(** ** Data *)

(** [struct vgic_int] of a GICv2 build.  [targets] and [sgi.act] are the same
    byte of a union: the field [targets] holds both; [sgi_pend] is the second
    byte. *)
Record vgic_int := VgicInt {
  owner : option Z;
  i_lock : spinlock_t;
  i_id : Z;
  i_state : Z;
  i_prio : Z;
  i_cfg : Z;
  i_lr : Z;
  targets : Z;
  sgi_pend : Z;
  i_hw : bool;
  in_lr : bool;
  enabled : bool;
}.

(** Which interrupt: a private one of a virtual CPU, or a shared one by its
    index in [vgicd.interrupts]. *)
Inductive intref := Priv (vcpu id : Z) | Spi (i : Z).

(** The nodes of the spilled lists: their heads and the interrupts. *)
Inductive snode := SVcpu (vcpu : Z) | SVm | SInt (r : intref).

#[export] Instance intref_eq_dec : EqDecision intref.
Proof. solve_decision. Defined.
#[export] Instance snode_eq_dec : EqDecision snode.
Proof. solve_decision. Defined.

#[export] Instance intref_countable : Countable intref.
Proof.
  apply (inj_countable' (fun x => match x with Priv v i => inl (v, i) | Spi i => inr i end)
    (fun x => match x with inl (v, i) => Priv v i | inr i => Spi i end)).
  by intros [].
Defined.

#[export] Instance snode_countable : Countable snode.
Proof.
  apply (inj_countable' (fun x => match x with SVcpu v => inl (inl v) | SVm => inl (inr ()) | SInt r => inr r end)
    (fun x => match x with inl (inl v) => SVcpu v | inl (inr _) => SVm | inr r => SInt r end)).
  by intros [].
Defined.

Record vcpu := Vcpu {
  v_id : Z;
  p_id : Z;
  x : list Z;
  spsr_el2 : Z;
  elr_el2 : Z;
  sp_el1 : Z;
  vmpidr : Z;
  curr_lrs : list Z;
  v_ints : list vgic_int;
}.

Record vgicd := Vgicd {
  d_ints : list vgic_int;
  d_lock : spinlock_t;
  int_num : Z;
  d_CTLR : Z;
  d_TYPER : Z;
  d_IIDR : Z;
}.

(** [emul_handler_t]: the only handler a GICv2 build registers. *)
Inductive emul_handler := vgicd_emul.

Record emul_mem := EmulMem { va_base : Z; em_size : Z; em_handler : emul_handler }.
Record emul_reg := EmulReg { er_addr : Z; er_handler : emul_handler }.

Record vm := Vm {
  vm_id : Z;
  vcpus : list vcpu;
  nr_cpus : Z;
  cpus : Z;
  master : Z;
  vm_lock : spinlock_t;
  d : vgicd;
  spilled : gmap snode (link snode);
  vgic_spilled_lock : spinlock_t;
  emul_mem_list : list emul_mem;
  emul_reg_list : list emul_reg;
  interrupt_bitmap : bitmap_t;
}.

(** ** Virtual CPUs: [arch_vm.c] *)

Definition vcpu_readreg (v : vcpu) (reg : Z) : outcome Z :=
  if 30 <? reg then Ok 0 else rd (x v) reg.

Definition set_x (v : vcpu) (l : list Z) : vcpu :=
  Vcpu (v_id v) (p_id v) l (spsr_el2 v) (elr_el2 v) (sp_el1 v) (vmpidr v) (curr_lrs v) (v_ints v).

Definition vcpu_writereg (v : vcpu) (reg val : Z) : outcome vcpu :=
  if 30 <? reg then Ok v else l ← wr (x v) reg (u64 val); Ok (set_x v l).

Definition vcpu_readpc (v : vcpu) : Z := elr_el2 v.

Definition vcpu_writepc (v : vcpu) (pc : Z) : vcpu :=
  Vcpu (v_id v) (p_id v) (x v) (spsr_el2 v) (u64 pc) (sp_el1 v) (vmpidr v) (curr_lrs v) (v_ints v).

Definition MPIDR_RES1 : Z := 0x80000000.
Definition MPIDR_RES0_MSK : Z := not64 (lsl64 0x1f 25).
Definition MPIDR_U_BIT : Z := Z.shiftl 1 30.
Definition MPIDR_AFF_MSK : Z := 0xffff.

Definition vm_cpuid_to_mpidr (nr_cpus cpuid : Z) : Z :=
  if nr_cpus <? cpuid then not64 (Z.land (not32 MPIDR_RES1) MPIDR_RES0_MSK) else
  let mpidr := Z.lor cpuid MPIDR_RES1 in
  if nr_cpus =? 1 then Z.lor mpidr MPIDR_U_BIT else mpidr.

Definition SPSR_EL1h : Z := 0x5.
Definition SPSR_F : Z := Z.shiftl 1 6.
Definition SPSR_I : Z := Z.shiftl 1 7.
Definition SPSR_A : Z := Z.shiftl 1 8.
Definition SPSR_D : Z := Z.shiftl 1 9.

(** The writes to EL1 system registers at the end are not part of the state. *)
Definition vcpu_arch_reset (v : vcpu) (entry : Z) : vcpu :=
  let v := Vcpu (v_id v) (p_id v) (replicate 31 0) 0 0 0 (vmpidr v) (curr_lrs v) (v_ints v) in
  let v := Vcpu (v_id v) (p_id v) (x v)
    (Z.lor SPSR_EL1h (Z.lor SPSR_F (Z.lor SPSR_I (Z.lor SPSR_A SPSR_D))))
    (elr_el2 v) (sp_el1 v) (vmpidr v) (curr_lrs v) (v_ints v) in
  vcpu_writepc v entry.

(** ** VMs: [vm.h], [vm.c] *)

(** [vm->vcpus] has [nr_cpus] elements. *)
Definition vm_get_vcpu (m : vm) (vcpuid : Z) : option vcpu :=
  if vcpuid <? nr_cpus m then vcpus m !! Z.to_nat vcpuid else None.

Fixpoint get_vcpu_by_mpidr (m : vm) (k : nat) (vcpuid mpidr : Z) : outcome (option vcpu) :=
  match k with
  | O => Ok None
  | S k =>
      match vm_get_vcpu m vcpuid with
      | None => Halt HFault
      | Some v =>
          if Z.land (vmpidr v) MPIDR_AFF_MSK =? Z.land mpidr MPIDR_AFF_MSK then Ok (Some v)
          else get_vcpu_by_mpidr m k (vcpuid + 1) mpidr
      end
  end.

Definition vm_get_vcpu_by_mpidr (m : vm) (mpidr : Z) : outcome (option vcpu) :=
  get_vcpu_by_mpidr m (Z.to_nat (nr_cpus m)) 0 mpidr.

Definition INVALID_CPUID : Z := 2 ^ 64 - 1.

Definition vm_translate_to_pcpuid (m : vm) (vcpuid : Z) : Z :=
  match vm_get_vcpu m vcpuid with
  | None => INVALID_CPUID
  | Some v => p_id v
  end.

Definition vm_translate_to_vcpuid (m : vm) (pcpuid : Z) : outcome Z :=
  if Z.land (cpus m) (lsl64 1 pcpuid) =? 0 then Ok INVALID_CPUID
  else bit_count (Z.land (cpus m) (BIT_MASK 0 pcpuid)).

(** One iteration of [vm_translate_to_pcpu_mask]. *)
Definition pcpu_mask_step (m : vm) (mask i pmask : Z) : outcome Z :=
  if Z.land mask (lsl64 1 i) =? 0 then Ok pmask else
  let shift := vm_translate_to_pcpuid m i in
  if shift =? INVALID_CPUID then Ok pmask else Ok (Z.lor pmask (lsl64 1 shift)).

Definition vm_translate_to_pcpu_mask (m : vm) (mask len : Z) : outcome Z :=
  for_loop (Z.to_nat len) 0 (pcpu_mask_step m mask) 0.

Definition vm_translate_to_vcpu_mask (m : vm) (mask len : Z) : outcome Z :=
  for_loop (Z.to_nat len) 0 (fun i pmask =>
    if Z.land mask (lsl64 1 i) =? 0 then Ok pmask else
    shift ← vm_translate_to_vcpuid m i;
    if shift =? INVALID_CPUID then Ok pmask else Ok (Z.lor pmask (lsl64 1 shift))) 0.

Definition vm_has_interrupt (m : vm) (int_id : Z) : outcome bool :=
  b ← bitmap_get (interrupt_bitmap m) int_id;
  Ok (negb (b =? 0)).

Definition set_cpus (m : vm) (c : Z) (l : spinlock_t) : vm :=
  Vm (vm_id m) (vcpus m) (nr_cpus m) c (master m) l (d m) (spilled m) (vgic_spilled_lock m)
    (emul_mem_list m) (emul_reg_list m) (interrupt_bitmap m).

(** [cpu_id] is [cpu()->id]. *)
Definition vm_cpu_init (cpu_id : Z) (m : vm) : outcome vm :=
  l ← spin_lock (vm_lock m);
  let c := Z.lor (cpus m) (lsl64 1 cpu_id) in
  Ok (set_cpus m c (spin_unlock l)).

Definition vm_calc_vcpu_id (cpu_id : Z) (m : vm) : outcome Z :=
  for_loop (Z.to_nat cpu_id) 0 (fun i vcpu_id =>
    if bit_get (cpus m) i =? 0 then Ok vcpu_id else Ok (vcpu_id + 1)) 0.

(** [(1U << i) & vm->cpus]; the loop ends after [nr_cpus - 1] messages. *)
Definition vm_msg_broadcast (fuel : nat) (cpu_id : Z) (m : vm) (msg : Msg.cpu_msg) (s : Msg.msgsys)
    : outcome Msg.msgsys :=
  '(_, _, s) ← while fuel
    (fun '(_, n, _) => Ok (n <? u64 (nr_cpus m - 1)))
    (fun '(i, n, s) =>
       if negb (Z.land (lsl32 1 i) (cpus m) =? 0) && negb (i =? cpu_id) then
         s ← Msg.cpu_send_msg s i msg; Ok (i + 1, n + 1, s)
       else Ok (i + 1, n, s))
    (0, 0, s);
  Ok s.

(** *** Emulated devices *)

Definition set_emul (m : vm) (em : list emul_mem) (er : list emul_reg) : vm :=
  Vm (vm_id m) (vcpus m) (nr_cpus m) (cpus m) (master m) (vm_lock m) (d m) (spilled m) (vgic_spilled_lock m)
    em er (interrupt_bitmap m).

(** [list_add_tail] of a new node. *)
Definition vm_emul_add_mem (m : vm) (emu : emul_mem) : vm :=
  set_emul m (emul_mem_list m ++ [emu]) (emul_reg_list m).

Definition vm_emul_add_reg (m : vm) (emu : emul_reg) : vm :=
  set_emul m (emul_mem_list m) (emul_reg_list m ++ [emu]).

Fixpoint find_mem (l : list emul_mem) (addr : Z) : option emul_handler :=
  match l with
  | [] => None
  | emu :: l =>
      if (va_base emu <=? addr) && (addr <? u64 (va_base emu + em_size emu)) then Some (em_handler emu)
      else find_mem l addr
  end.

Definition vm_emul_get_mem (m : vm) (addr : Z) : option emul_handler := find_mem (emul_mem_list m) addr.

Fixpoint find_reg (l : list emul_reg) (addr : Z) : option emul_handler :=
  match l with
  | [] => None
  | emu :: l => if er_addr emu =? addr then Some (er_handler emu) else find_reg l addr
  end.

Definition vm_emul_get_reg (m : vm) (addr : Z) : option emul_handler := find_reg (emul_reg_list m) addr.

(** *** The list of VMs

    A node of [vm_list]: its head, or the VM in slot [i]. *)
Inductive vmnode := VmHead | VmNode (i : Z).

#[export] Instance vmnode_eq_dec : EqDecision vmnode.
Proof. solve_decision. Defined.
#[export] Instance vmnode_countable : Countable vmnode.
Proof.
  apply (inj_countable' (fun x => match x with VmHead => None | VmNode i => Some i end)
    (fun x => match x with None => VmHead | Some i => VmNode i end)).
  by intros [].
Defined.

Record vmlist := VmList { vl_lock : spinlock_t; vl : gmap vmnode (link vmnode) }.

Definition vm_list_init (s : vmlist) : outcome vmlist :=
  l ← INIT_LIST_HEAD (vl s) (Some VmHead);
  Ok (VmList (vl_lock s) l).

(** The end of [vm_init], which every CPU of the VM runs. *)
Definition vm_list_register (s : vmlist) (i : Z) : outcome vmlist :=
  l ← INIT_LIST_HEAD (vl s) (Some (VmNode i));
  lk ← spin_lock (vl_lock s);
  l ← list_add l (Some (VmNode i)) (Some VmHead);
  Ok (VmList (spin_unlock lk) l).

(** The body of the loop of [get_vm_by_id]; [ids] gives the [id] field of the VM
    in a slot.  The head of the list is not a VM. *)
Definition match_vm (ids : Z -> Z) (id : Z) (n : vmnode) (found : option Z) : outcome (option Z * bool) :=
  match n with
  | VmNode i => if ids i =? id then Ok (Some i, true) else Ok (found, false)
  | VmHead => Halt HFault
  end.

Definition get_vm_by_id (fuel : nat) (ids : Z -> Z) (s : vmlist) (id : Z) : outcome (option Z) :=
  list_for_each_entry fuel (vl s) VmHead (match_vm ids id) None.

(** ** Correctness *)

(** Number of the VM's CPUs below [p]: the id its virtual CPU there has. *)
Definition rank (m : vm) (p : Z) : Z := zcount (Z.testbit (cpus m)) 0 p.

Lemma land_bit64 x i : 0 <= i < 64 -> (Z.land x (lsl64 1 i) =? 0) = negb (Z.testbit x i).
Proof.
  intros Hi. rewrite Z.land_comm, (lsl_1 (w := 64)) by lia.
  pose proof (land_onebit (w := 64) x i Hi) as E. unfold onebit in E.
  destruct (Z.ltb_spec i 64); [done|lia].
Qed.

Lemma bit_get_zero x i : 0 <= i < 64 -> (bit_get x i =? 0) = negb (Z.testbit x i).
Proof. intros Hi. apply (land_bit64 x i Hi). Qed.

Lemma vm_calc_vcpu_id_spec m p : 0 <= p < 64 -> vm_calc_vcpu_id p m = Ok (rank m p).
Proof.
  intros Hp. unfold vm_calc_vcpu_id.
  destruct (for_loop_rule (fun i r => r = rank m i)
    (fun i vcpu_id => if bit_get (cpus m) i =? 0 then Ok vcpu_id else Ok (vcpu_id + 1))
    (Z.to_nat p) 0) with (s := 0) as (r & -> & ->).
  - intros j r Hj ->. rewrite bit_get_zero by lia. unfold rank. rewrite zcount_app by lia.
    rewrite Z.add_0_l, (zcount_cons _ j 1), (zcount_nil _ (j + 1)) by lia.
    destruct (Z.testbit (cpus m) j); simpl; eexists; (split; [done|lia]).
  - unfold rank. by rewrite zcount_nil by lia.
  - by rewrite Z2Nat.id, Z.add_0_l by lia.
Qed.

Lemma BIT_MASK_0_0 : BIT_MASK 0 0 = 2 ^ 64 - 1.
Proof. reflexivity. Qed.

Lemma vm_translate_to_vcpuid_spec m p :
  0 <= cpus m < 2 ^ 64 -> 0 <= p < 64 ->
  vm_translate_to_vcpuid m p =
    Ok (if Z.testbit (cpus m) p then if p =? 0 then rank m 64 else rank m p else INVALID_CPUID).
Proof.
  intros Hc Hp. unfold vm_translate_to_vcpuid. rewrite land_bit64 by lia.
  destruct (Z.testbit (cpus m) p) eqn:Eb; simpl; [|done].
  unfold bit_count. rewrite (PRE_count_spec 64). f_equal. unfold popcount_from, rank.
  destruct (Z.eqb_spec p 0) as [->|Hne].
  - apply zcount_ext. intros i Hi. rewrite BIT_MASK_0_0, Z.land_spec, testbit_ones_pow by lia.
    destruct (Z.ltb_spec i 64); [apply andb_true_r|lia].
  - replace (Z.of_nat 64) with (p + (64 - p)) by lia. rewrite zcount_app by lia.
    rewrite (zcount_none _ (0 + p)), Z.add_0_r.
    + apply zcount_ext. intros i Hi. rewrite Z.land_spec, (word_mask (w := 64)) by lia.
      repeat zcase; apply andb_true_r.
    + intros i Hi. rewrite Z.land_spec, (word_mask (w := 64)) by lia. repeat zcase; apply andb_false_r.
Qed.

(** The masks of virtual CPUs and their physical ones. *)
Lemma vm_translate_to_pcpu_mask_spec m mask len :
  0 <= len <= 64 -> (forall i v, vm_get_vcpu m i = Some v -> 0 <= i -> 0 <= p_id v < 64) ->
  exists pm, vm_translate_to_pcpu_mask m mask len = Ok pm /\
    forall p, 0 <= p -> Z.testbit pm p = true <->
      exists i v, 0 <= i < len /\ Z.testbit mask i = true /\ vm_get_vcpu m i = Some v /\ p_id v = p.
Proof.
  intros Hl Hv. unfold vm_translate_to_pcpu_mask.
  destruct (for_loop_rule (fun k pm => forall p, 0 <= p -> Z.testbit pm p = true <->
      exists i v, 0 <= i < k /\ Z.testbit mask i = true /\ vm_get_vcpu m i = Some v /\ p_id v = p)
    (pcpu_mask_step m mask) (Z.to_nat len) 0) with (s := 0) as (pm & -> & Hpm).
  - intros j pm Hj Hpm. unfold pcpu_mask_step. rewrite land_bit64 by lia. unfold vm_translate_to_pcpuid.
    destruct (Z.testbit mask j) eqn:Eb; simpl.
    2:{ eexists. split; [done|]. intros p Hp. rewrite Hpm by done. split.
        - intros (i & v & Hi & Hr). exists i, v. split; [lia|done].
        - intros (i & v & Hi & Hb & Hr). exists i, v. split; [|done].
          assert (i ≠ j) by congruence. lia. }
    destruct (vm_get_vcpu m j) as [v|] eqn:Ev.
    2:{ change (INVALID_CPUID =? INVALID_CPUID) with true. eexists. split; [done|]. intros p Hp.
        rewrite Hpm by done. split.
        - intros (i & v & Hi & Hr). exists i, v. split; [lia|done].
        - intros (i & v & Hi & Hb & Hr & Hq). exists i, v. split; [|done].
          assert (i ≠ j) by congruence. lia. }
    pose proof (Hv j v Ev ltac:(lia)). destruct (Z.eqb_spec (p_id v) INVALID_CPUID);
      [unfold INVALID_CPUID in *; lia|].
    eexists. split; [done|]. intros p Hp. rewrite Z.lor_spec, (lsl_1 (w := 64)), Z.pow2_bits_eqb by lia.
    rewrite orb_true_iff, Hpm, Z.eqb_eq by done. split.
    + intros [(i & v' & Hi & Hr)| <-]; [exists i, v'; split; [lia|done]|]. exists j, v. split; [lia|done].
    + intros (i & v' & Hi & Hb & Hv' & Hq). destruct (decide (i = j)) as [->|Hne].
      * right. congruence.
      * left. exists i, v'. split; [lia|done].
  - intros p Hp. rewrite Z.bits_0. split; [done|]. intros (i & v & Hi & _). lia.
  - exists pm. split; [done|]. rewrite Z2Nat.id, Z.add_0_l in Hpm by lia. done.
Qed.

(** The VMs in the list, by slot, the last registered first. *)
Definition listed (s : vmlist) (l : list Z) : Prop :=
  unlocked (vl_lock s) /\ is_list (vl s) VmHead (VmNode <$> l).

#[export] Instance VmNode_inj : Inj (=) (=) VmNode.
Proof. by intros ?? [= ->]. Qed.

Lemma listed_init s : unlocked (vl_lock s) -> exists s', vm_list_init s = Ok s' /\ listed s' [].
Proof.
  intros Hl. eexists. split; [done|]. split; [done|].
  destruct (init_rep (vl s) ∅ VmHead) as (m & [= <-] & Hr); [split; intros *; by rewrite lookup_empty|by intros ??; rewrite lookup_empty|].
  apply (rep_list _ _ Hr). by rewrite lookup_insert_eq.
Qed.

Lemma listed_register s l i :
  listed s l -> i ∉ l -> exists s', vm_list_register s i = Ok s' /\ listed s' (i :: l).
Proof.
  intros [Hlk Hl] Hi. unfold vm_list_register.
  assert (represents (vl s) (<[VmHead := VmNode <$> l]> ∅)) as Hr.
  { split.
    - intros h l' [[<- <-]|[_ ?]]%lookup_insert_Some; done.
    - intros h1 l1 h2 l2 k [[<- <-]|[_ ?]]%lookup_insert_Some [[<- <-]|[_ ?]]%lookup_insert_Some; done. }
  assert (fresh (<[VmHead := VmNode <$> l]> ∅ : gmap vmnode (list vmnode)) (VmNode i)) as Hf.
  { intros h l' [[<- <-]|[_ ?]]%lookup_insert_Some; [|done].
    intros [?|Hin]%elem_of_cons; [done|]. apply list_elem_of_fmap in Hin as (j & [= ->] & Hj). done. }
  destruct (init_rep _ _ _ Hr Hf) as (m1 & -> & Hr1). mstep.
  destruct (spin_lock_unlock _ Hlk) as (lk & -> & Hul & _). mstep.
  assert (represents m1 (<[VmHead := VmNode <$> l]> ∅)) as Hr2.
  { rewrite <- (delete_insert_id (<[VmHead := VmNode <$> l]> ∅) (VmNode i) []).
    - by apply rep_weaken.
    - by rewrite lookup_insert_ne. }
  destruct (list_add_rep m1 _ VmHead (VmNode <$> l) (VmNode i) Hr2) as (m2 & -> & Hr3);
    [by rewrite lookup_insert_eq|done|]. mstep.
  eexists. split; [done|]. split; [done|]. apply (rep_list _ _ Hr3). by rewrite lookup_insert_eq.
Qed.

Lemma get_vm_fold ids id (l : list Z) :
  fold_until (match_vm ids id) (VmNode <$> l) None =
  Ok (list_find (fun i => ids i = id) l ≫= fun p => Some p.2).
Proof.
  induction l as [|i l IH]; [done|]. simpl. destruct (Z.eqb_spec (ids i) id) as [E|E].
  - rewrite decide_True by done. done.
  - rewrite decide_False by done. mstep. etrans; [exact IH|]. by destruct (list_find _ l) as [[]|].
Qed.

(** ** The properties *)

(** The masks of virtual CPUs a guest writes translate to the physical CPUs
    its virtual CPUs run on: the result of [vm_translate_to_pcpu_mask] has bit
    [p] set exactly when the virtual CPU of some set bit below [len] runs on
    CPU [p]; bits of virtual CPUs the VM does not have are dropped. *)
Theorem vm_translate_to_pcpu_mask_correct m mask len :
  0 <= len <= 64 -> (forall i v, vm_get_vcpu m i = Some v -> 0 <= i -> 0 <= p_id v < 64) ->
  exists pm, vm_translate_to_pcpu_mask m mask len = Ok pm /\
    forall p, 0 <= p -> Z.testbit pm p = true <->
      exists i v, 0 <= i < len /\ Z.testbit mask i = true /\ vm_get_vcpu m i = Some v /\ p_id v = p.
Proof. apply vm_translate_to_pcpu_mask_spec. Qed.

(** A VM whose two virtual CPUs run on CPUs 3 and 1. *)
Definition demo_vcpu (id pid : Z) : vcpu := Vcpu id pid (replicate 31 0) 0 0 0 0 [] [].
Definition demo_vm : vm :=
  Vm 0 [demo_vcpu 0 3; demo_vcpu 1 1] 2 10 3 SPINLOCK_INITVAL
    (Vgicd [] SPINLOCK_INITVAL 0 0 0 0) ∅ SPINLOCK_INITVAL [] [] [].

Lemma vm_translate_to_pcpu_mask_correct_witness :
  exists pm, vm_translate_to_pcpu_mask demo_vm 7 8 = Ok pm /\ Z.testbit pm 3 = true /\ Z.testbit pm 0 = false.
Proof.
  destruct (vm_translate_to_pcpu_mask_correct demo_vm 7 8) as (pm & E & Hp); [lia| |].
  - intros i v. unfold vm_get_vcpu. simpl. destruct (Z.ltb_spec i 2); [|done]. intros Hv Hi.
    assert (i = 0 \/ i = 1) as [->| ->] by lia; injection Hv as <-; simpl; lia.
  - exists pm. split; [done|]. split.
    + apply (Hp 3); [lia|]. exists 0, (demo_vcpu 0 3). split; [lia|done].
    + destruct (Z.testbit pm 0) eqn:E0; [|done]. apply Hp in E0 as (i & v & Hi & _ & Hv & Hq); [|lia].
      revert Hv. unfold vm_get_vcpu. simpl. destruct (Z.ltb_spec i 2); [|done]. intros Hv.
      assert (i = 0 \/ i = 1) as [->| ->] by lia; injection Hv as <-; done.
Defined.

(** A CPU's virtual CPU has the number of the VM's CPUs below it as its id
    ([vm_calc_vcpu_id]), and [vm_translate_to_vcpuid] gives that id back for every
    CPU of the VM but CPU 0: there the empty mask [BIT_MASK(0, 0)] comes out as
    all ones, and the result is the number of the VM's CPUs instead of 0. *)
Theorem vm_translate_to_vcpuid_rank m p :
  0 <= cpus m < 2 ^ 64 -> 0 <= p < 64 -> Z.testbit (cpus m) p = true ->
  vm_calc_vcpu_id p m = Ok (rank m p) /\
  vm_translate_to_vcpuid m p = Ok (if p =? 0 then rank m 64 else rank m p).
Proof.
  intros Hc Hp Hb. split; [by apply vm_calc_vcpu_id_spec|].
  rewrite vm_translate_to_vcpuid_spec by done. by rewrite Hb.
Qed.

(** A VM on CPUs 0 and 1. *)
Definition demo_vm01 : vm := set_cpus demo_vm 3 SPINLOCK_INITVAL.

Lemma vm_translate_to_vcpuid_rank_witness :
  (vm_calc_vcpu_id 1 demo_vm01 = Ok 1 /\ vm_translate_to_vcpuid demo_vm01 1 = Ok 1) /\
  (vm_calc_vcpu_id 0 demo_vm01 = Ok 0 /\ vm_translate_to_vcpuid demo_vm01 0 = Ok 2).
Proof.
  split.
  - apply (vm_translate_to_vcpuid_rank demo_vm01 1); [simpl; lia|lia|done].
  - apply (vm_translate_to_vcpuid_rank demo_vm01 0); [simpl; lia|lia|done].
Defined.

(** [get_vm_by_id] finds the most recently registered VM with the given id,
    NULL when there is none, and returns; registering a VM that is not in the
    list puts it in front. *)
Theorem get_vm_by_id_correct s l ids id i fuel :
  listed s l -> i ∉ l -> (length l < fuel)%nat ->
  get_vm_by_id fuel ids s id = Ok (list_find (fun j => ids j = id) l ≫= fun p => Some p.2) /\
  exists s', vm_list_register s i = Ok s' /\ listed s' (i :: l).
Proof.
  intros Hl Hi Hf. split; [|by apply listed_register].
  unfold get_vm_by_id. rewrite (list_for_each_entry_fold _ _ _ _ (VmNode <$> l)).
  - apply get_vm_fold.
  - apply Hl.
  - by rewrite length_fmap.
Qed.

Lemma get_vm_by_id_correct_witness :
  exists s1 s2 s3, vm_list_init (VmList SPINLOCK_INITVAL ∅) = Ok s1 /\
    vm_list_register s1 0 = Ok s2 /\ vm_list_register s2 1 = Ok s3 /\
    get_vm_by_id 3 (fun i => i) s2 0 = Ok (Some 0).
Proof.
  destruct (listed_init (VmList SPINLOCK_INITVAL ∅)) as (s1 & E1 & H1); [by split|].
  destruct (listed_register s1 [] 0 H1) as (s2 & E2 & H2); [set_solver|].
  destruct (get_vm_by_id_correct s2 [0] (fun i => i) 0 1 3 H2) as (Hg & s3 & E3 & _); [set_solver|simpl; lia|].
  exists s1, s2, s3. split_and!; [done|done|done|exact Hg].
Defined.

(** Registering a VM a second time breaks the list.  Every CPU of a VM runs the end
    of [vm_init], not only the master: the second one initialises the node while it
    is linked and adds it again.  Whatever VMs are listed, and wherever the VM
    stands among them, the second registration returns with the lock free, but no
    search ends any more that does not find its VM among this one and those in
    front of it: the VMs behind it are lost, and so is every search in vain. *)
Theorem vm_list_registered_twice s l1 i l2 : listed s (l1 ++ i :: l2) ->
  exists s', vm_list_register s i = Ok s' /\ unlocked (vl_lock s') /\
    forall ids id fuel, (forall j, j ∈ i :: l1 -> ids j ≠ id) -> get_vm_by_id fuel ids s' id = Halt HFuel.
Proof.
  intros [Hlk Hl]. rewrite fmap_app, fmap_cons in Hl.
  destruct (list_add_again _ _ _ _ _ Hl) as (m1 & m2 & E1 & E2 & Hh & Hno & Hnext). unfold vm_list_register. rewrite E1. mstep.
  destruct (spin_lock_unlock _ Hlk) as (lk & -> & Hul & _). mstep. rewrite E2. mstep.
  eexists. split; [reflexivity|]. split; [done|]. intros ids id fuel Hids. unfold get_vm_by_id, list_for_each_entry, get_next. mstep.
  cbn [vl]. rewrite Hh. apply (list_iter_cycle _ (fun _ => True) _ _ (VmNode i :: (VmNode <$> l1))); [done|done| |left|done].
  intros k o Hk _. rewrite <- fmap_cons in Hk. apply list_elem_of_fmap in Hk as (j & -> & Hj). exists o. split; [|done].
  cbn [match_vm]. by rewrite (proj2 (Z.eqb_neq _ _) (Hids j Hj)).
Qed.

(** VM 5 is registered, then VM 3; VM 3 registers again, and VM 5 is gone. *)
Lemma vm_list_registered_twice_witness :
  exists s, listed s [3; 5] /\ exists s', vm_list_register s 3 = Ok s' /\ forall fuel, get_vm_by_id fuel (fun i => i) s' 5 = Halt HFuel.
Proof.
  destruct (listed_init (VmList SPINLOCK_INITVAL ∅)) as (s1 & _ & H1); [by split|].
  destruct (listed_register s1 [] 5 H1) as (s2 & _ & H2); [set_solver|].
  destruct (listed_register s2 [5] 3 H2) as (s & _ & H3); [set_solver|]. exists s. split; [done|].
  destruct (vm_list_registered_twice s [] 3 [5] H3) as (s' & E & _ & Hs). exists s'. split; [done|].
  intros fuel. apply Hs. intros j ->%list_elem_of_singleton. done.
Defined.
