(* ===== verification/Vgic.v ===== *)
(** The virtual interrupt controller: [arch/aarch64/vgic.c],
    [arch/aarch64/vgicv2.c], [arch/aarch64/inc/vgicv2.h], as built for GICv2.

    The code runs on one physical CPU and works on the VM whose virtual CPU is
    active there.  The state is what it reaches from there: the VM (with the
    interrupts, their locks and the spilled lists), the physical GIC behind the
    driver of [Gic], and the message system of [Cpu].  A [struct vcpu *] is the
    position of the virtual CPU in [vm->vcpus], a [struct vgic_int *] an
    [intref]; following NULL faults.

    Loops without a bound in the source take the section variable [fuel]. *)

From S2P Require Import Prelude Bit Bitmap Spinlock PhysMem Objpool Mem PageTable Mmu Dlist Cpu Gic Vm.

(** ** State *)

Section vgic.
Context {H : Type} `{GicHw H}.

Record world := World {
  cpu_id : Z;
  cur_vcpu : Z;
  cpu_num : Z;
  wvm : vm;
  wgic : gic H;
  wmsg : Msg.msgsys;
}.

(** [VGIC_IPI_ID] is the index the linker's handler section gives this file's
    message handler. *)
Context (VGIC_IPI_ID : Z) (fuel : nat).

Definition set_vm (w : world) (m : vm) : world :=
  World (cpu_id w) (cur_vcpu w) (cpu_num w) m (wgic w) (wmsg w).
Definition set_gic (w : world) (g : gic H) : world :=
  World (cpu_id w) (cur_vcpu w) (cpu_num w) (wvm w) g (wmsg w).
Definition set_msg (w : world) (s : Msg.msgsys) : world :=
  World (cpu_id w) (cur_vcpu w) (cpu_num w) (wvm w) (wgic w) s.

Definition set_vcpus (m : vm) (l : list vcpu) : vm :=
  Vm (vm_id m) l (nr_cpus m) (cpus m) (master m) (vm_lock m) (d m) (spilled m) (vgic_spilled_lock m)
    (emul_mem_list m) (emul_reg_list m) (interrupt_bitmap m).
Definition set_d (m : vm) (x : vgicd) : vm :=
  Vm (vm_id m) (vcpus m) (nr_cpus m) (cpus m) (master m) (vm_lock m) x (spilled m) (vgic_spilled_lock m)
    (emul_mem_list m) (emul_reg_list m) (interrupt_bitmap m).
Definition set_spilled (m : vm) (l : gmap snode (link snode)) (k : spinlock_t) : vm :=
  Vm (vm_id m) (vcpus m) (nr_cpus m) (cpus m) (master m) (vm_lock m) (d m) l k
    (emul_mem_list m) (emul_reg_list m) (interrupt_bitmap m).

Definition set_d_ints (x : vgicd) (l : list vgic_int) : vgicd :=
  Vgicd l (d_lock x) (int_num x) (d_CTLR x) (d_TYPER x) (d_IIDR x).
Definition set_d_lock (x : vgicd) (k : spinlock_t) : vgicd :=
  Vgicd (d_ints x) k (int_num x) (d_CTLR x) (d_TYPER x) (d_IIDR x).
Definition set_d_CTLR (x : vgicd) (c : Z) : vgicd :=
  Vgicd (d_ints x) (d_lock x) (int_num x) c (d_TYPER x) (d_IIDR x).

Definition set_v_ints (v : vcpu) (l : list vgic_int) : vcpu :=
  Vcpu (v_id v) (p_id v) (x v) (spsr_el2 v) (elr_el2 v) (sp_el1 v) (vmpidr v) (curr_lrs v) l.
Definition set_curr_lrs (v : vcpu) (l : list Z) : vcpu :=
  Vcpu (v_id v) (p_id v) (x v) (spsr_el2 v) (elr_el2 v) (sp_el1 v) (vmpidr v) l (v_ints v).

(** The fields of an interrupt. *)
Definition set_owner (i : vgic_int) (o : option Z) : vgic_int :=
  VgicInt o (i_lock i) (i_id i) (i_state i) (i_prio i) (i_cfg i) (i_lr i) (targets i) (sgi_pend i) (i_hw i) (in_lr i) (enabled i).
Definition set_lock (i : vgic_int) (k : spinlock_t) : vgic_int :=
  VgicInt (owner i) k (i_id i) (i_state i) (i_prio i) (i_cfg i) (i_lr i) (targets i) (sgi_pend i) (i_hw i) (in_lr i) (enabled i).
Definition set_state (i : vgic_int) (s : Z) : vgic_int :=
  VgicInt (owner i) (i_lock i) (i_id i) (u8 s) (i_prio i) (i_cfg i) (i_lr i) (targets i) (sgi_pend i) (i_hw i) (in_lr i) (enabled i).
Definition set_prio (i : vgic_int) (p : Z) : vgic_int :=
  VgicInt (owner i) (i_lock i) (i_id i) (i_state i) (u8 p) (i_cfg i) (i_lr i) (targets i) (sgi_pend i) (i_hw i) (in_lr i) (enabled i).
Definition set_cfg (i : vgic_int) (c : Z) : vgic_int :=
  VgicInt (owner i) (i_lock i) (i_id i) (i_state i) (i_prio i) (u8 c) (i_lr i) (targets i) (sgi_pend i) (i_hw i) (in_lr i) (enabled i).
Definition set_lr (i : vgic_int) (n : Z) : vgic_int :=
  VgicInt (owner i) (i_lock i) (i_id i) (i_state i) (i_prio i) (i_cfg i) (u8 n) (targets i) (sgi_pend i) (i_hw i) (in_lr i) (enabled i).
Definition set_targets (i : vgic_int) (t : Z) : vgic_int :=
  VgicInt (owner i) (i_lock i) (i_id i) (i_state i) (i_prio i) (i_cfg i) (i_lr i) (u8 t) (sgi_pend i) (i_hw i) (in_lr i) (enabled i).
Definition set_sgi_pend (i : vgic_int) (p : Z) : vgic_int :=
  VgicInt (owner i) (i_lock i) (i_id i) (i_state i) (i_prio i) (i_cfg i) (i_lr i) (targets i) (u8 p) (i_hw i) (in_lr i) (enabled i).
Definition set_ihw (i : vgic_int) (b : bool) : vgic_int :=
  VgicInt (owner i) (i_lock i) (i_id i) (i_state i) (i_prio i) (i_cfg i) (i_lr i) (targets i) (sgi_pend i) b (in_lr i) (enabled i).
Definition set_in_lr (i : vgic_int) (b : bool) : vgic_int :=
  VgicInt (owner i) (i_lock i) (i_id i) (i_state i) (i_prio i) (i_cfg i) (i_lr i) (targets i) (sgi_pend i) (i_hw i) b (enabled i).
Definition set_enabled (i : vgic_int) (b : bool) : vgic_int :=
  VgicInt (owner i) (i_lock i) (i_id i) (i_state i) (i_prio i) (i_cfg i) (i_lr i) (targets i) (sgi_pend i) (i_hw i) (in_lr i) b.

(** *** Access *)

Definition on_gic {A : Type} (m : st (gic H) A) : st world A := fun w =>
  '(a, g) ← m (wgic w);
  Ok (a, set_gic w g).

Definition get_vcpu (v : Z) : st world vcpu := fun w =>
  c ← rd (vcpus (wvm w)) v;
  Ok (c, w).

Definition put_vcpu (v : Z) (c : vcpu) : st world () := fun w =>
  l ← wr (vcpus (wvm w)) v c;
  Ok ((), set_vm w (set_vcpus (wvm w) l)).

Definition get_int (r : intref) : st world vgic_int := fun w =>
  match r with
  | Priv v id => c ← rd (vcpus (wvm w)) v; i ← rd (v_ints c) id; Ok (i, w)
  | Spi k => i ← rd (d_ints (d (wvm w))) k; Ok (i, w)
  end.

Definition put_int (r : intref) (i : vgic_int) : st world () := fun w =>
  match r with
  | Priv v id =>
      c ← rd (vcpus (wvm w)) v;
      l ← wr (v_ints c) id i;
      vs ← wr (vcpus (wvm w)) v (set_v_ints c l);
      Ok ((), set_vm w (set_vcpus (wvm w) vs))
  | Spi k =>
      l ← wr (d_ints (d (wvm w))) k i;
      Ok ((), set_vm w (set_d (wvm w) (set_d_ints (d (wvm w)) l)))
  end.

Definition upd_int (r : intref) (f : vgic_int -> vgic_int) : st world () :=
  i ← get_int r;
  put_int r (f i).

Definition lock_int (r : intref) : st world () :=
  i ← get_int r;
  k ← lift (spin_lock (i_lock i));
  put_int r (set_lock i k).

Definition unlock_int (r : intref) : st world () := upd_int r (fun i => set_lock i (spin_unlock (i_lock i))).

Definition lock_spilled : st world () := fun w =>
  k ← spin_lock (vgic_spilled_lock (wvm w));
  Ok ((), set_vm w (set_spilled (wvm w) (spilled (wvm w)) k)).

Definition unlock_spilled : st world () := modify (fun w =>
  set_vm w (set_spilled (wvm w) (spilled (wvm w)) (spin_unlock (vgic_spilled_lock (wvm w))))).

(** A list operation on the spilled lists. *)
Definition on_spilled (f : gmap snode (link snode) -> outcome (gmap snode (link snode))) : st world () := fun w =>
  l ← f (spilled (wvm w));
  Ok ((), set_vm w (set_spilled (wvm w) l (vgic_spilled_lock (wvm w)))).

Definition upd_d (f : vgicd -> vgicd) : st world () := modify (fun w => set_vm w (set_d (wvm w) (f (d (wvm w))))).

Definition send_msg (trgtcpu : Z) (msg : Msg.cpu_msg) : st world () := fun w =>
  s ← Msg.cpu_send_msg (wmsg w) trgtcpu msg;
  Ok ((), set_msg w s).

(** [cpu()->vcpu]'s registers. *)
Definition vcpu_reg (reg : Z) : st world Z :=
  v ← gets cur_vcpu;
  c ← get_vcpu v;
  lift (vcpu_readreg c reg).

Definition set_vcpu_reg (reg val : Z) : st world () :=
  v ← gets cur_vcpu;
  c ← get_vcpu v;
  c ← lift (vcpu_writereg c reg val);
  put_vcpu v c.

(** ** Interrupts and their ownership *)

(** [enum VGIC_EVENTS]. *)
Definition VGIC_UPDATE_ENABLE : Z := 0.
Definition VGIC_ROUTE : Z := 1.
Definition VGIC_INJECT : Z := 2.
Definition VGIC_SET_REG : Z := 3.

Definition VGIC_MSG_DATA (VM_ID VGICRID INT_ID REG VAL : Z) : Z :=
  Z.lor (lsl64 VM_ID 48)
    (Z.lor (lsl64 (Z.land VGICRID 0xffff) 32)
      (Z.lor (lsl64 (Z.land INT_ID 0x7fff) 16)
        (Z.lor (lsl64 (Z.land REG 0xff) 8) (Z.land VAL 0xff)))).
Definition VGIC_MSG_VM (DATA : Z) : Z := Z.shiftr DATA 48.
Definition VGIC_MSG_VGICRID (DATA : Z) : Z := Z.land (Z.shiftr DATA 32) 0xffff.
Definition VGIC_MSG_INTID (DATA : Z) : Z := Z.land (Z.shiftr DATA 16) 0x7fff.
Definition VGIC_MSG_REG (DATA : Z) : Z := Z.land (Z.shiftr DATA 8) 0xff.
Definition VGIC_MSG_VAL (DATA : Z) : Z := Z.land DATA 0xff.

(** NULL is [None]; a field of a virtual CPU that does not exist faults. *)
Definition vgic_get_int (vcpu int_id vgicr_id : Z) : st world (option intref) :=
  m ← gets wvm;
  if int_id <? GIC_CPU_PRIV then
    c ← get_vcpu vcpu;
    if vgicr_id =? v_id c then mret (Some (Priv vcpu int_id)) else
    match vm_get_vcpu m vgicr_id with
    | Some _ => mret (Some (Priv vgicr_id int_id))
    | None => stop HFault
    end
  else if int_id <? int_num (d m) then mret (Some (Spi (int_id - GIC_CPU_PRIV)))
  else mret None.

Definition vgic_int_is_hw (i : vgic_int) : bool := negb (i_id i <? GIC_MAX_SGIS) && i_hw i.

(** The list register of an interrupt and its value, [None] for the result -1. *)
Definition gich_get_lr (r : intref) : st world (option (Z * Z)) :=
  i ← get_int r;
  if negb (in_lr i) then mret None else
  match owner i with
  | None => stop HFault
  | Some o =>
      c ← get_vcpu o;
      id ← gets cpu_id;
      if negb (p_id c =? id) then mret None else
      lr_val ← on_gic (gich_read_lr (i_lr i));
      if (GICH_LR_VID lr_val =? i_id i) && negb (GICH_LR_STATE lr_val =? INV)
      then mret (Some (i_lr i, lr_val)) else mret None
  end.

Definition vgic_get_state (r : intref) : st world Z :=
  lr ← gich_get_lr r;
  i ← get_int r;
  let state := match lr with Some (_, lr_val) => GICH_LR_STATE lr_val | None => i_state i end in
  if (i_id i <? GIC_MAX_SGIS) && negb (sgi_pend i =? 0) then mret (Z.lor state PEND) else mret state.

Definition vgic_get_ownership (vcpu : Z) (r : intref) : st world bool :=
  i ← get_int r;
  if decide (owner i = Some vcpu) then mret true else
  if decide (owner i = None) then put_int r (set_owner i (Some vcpu)) ;; mret true
  else mret false.

Definition vgic_owns (vcpu : Z) (i : vgic_int) : bool := bool_decide (owner i = Some vcpu).

Definition vgic_yield_ownership (vcpu : Z) (r : intref) : st world () :=
  i ← get_int r;
  if gic_is_priv (i_id i) || negb (vgic_owns vcpu i) || in_lr i then mret () else
  state ← vgic_get_state r;
  if negb (Z.land state ACT =? 0) then mret () else
  upd_int r (fun i => set_owner i None).

(** [for (i = 0; i < platform.cpu_num; i++) if (mask & (1ull << i)) cpu_send_msg(i, &msg)]. *)
Definition send_to_mask (mask : Z) (msg : Msg.cpu_msg) : st world () :=
  n ← gets cpu_num;
  for_st (Z.to_nat n) 0 (fun i => when (negb (Z.land mask (lsl64 1 i) =? 0)) (send_msg i msg)).

Definition vgic_send_sgi_msg (vcpu pcpu_mask int_id : Z) : st world () :=
  m ← gets wvm;
  v ← gets cur_vcpu;
  c ← get_vcpu v;
  send_to_mask pcpu_mask
    (Msg.CpuMsg VGIC_IPI_ID VGIC_INJECT (VGIC_MSG_DATA (vm_id m) 0 int_id 0 (v_id c))).

(** *** [vgicv2.h], [vgicv2.c]: targets *)

Definition vgic_int_vcpu_is_target (vcpu : Z) (r : intref) : st world bool :=
  i ← get_int r;
  c ← get_vcpu vcpu;
  mret (gic_is_priv (i_id i) || negb (Z.land (targets i) (lsl32 1 (p_id c)) =? 0)).

Definition vgic_int_has_other_target (vcpu : Z) (r : intref) : st world bool :=
  i ← get_int r;
  id ← gets cpu_id;
  let priv := gic_is_priv (i_id i) in
  let has_other_targets := negb (Z.land (targets i) (not32 (lsl32 1 id)) =? 0) in
  mret (negb priv && has_other_targets).

Definition vgic_int_ptarget_mask (vcpu : Z) (r : intref) : st world Z :=
  i ← get_int r;
  mret (targets i).

(** ** List registers *)

(** The highest source with a pending software interrupt, -1 when there is none:
    the loop of [vgic_write_lr] from [GIC_MAX_TARGETS - 1] down. *)
Fixpoint highest_source (pend : Z) (n : nat) : Z :=
  match n with
  | O => -1
  | S n => if negb (Z.land pend (lsl32 1 (Z.of_nat n)) =? 0) then Z.of_nat n else highest_source pend n
  end.

(** The value [vgic_write_lr] builds for an interrupt in state [state], and what
    is left of [sgi.pend]. *)
Definition lr_value (i : vgic_int) (state : Z) : Z * Z :=
  let lr := u32 (Z.land (lsl64 (i_id i) GICH_LR_VID_OFF) GICH_LR_VID_MSK) in
  let lr := Z.lor lr (Z.land (lsl32 (Z.shiftr (i_prio i) 3) GICH_LR_PRIO_OFF) GICH_LR_PRIO_MSK) in
  if vgic_int_is_hw i then
    let lr := Z.lor lr GICH_LR_HW_BIT in
    let lr := Z.lor lr (Z.land (lsl32 (u32 (i_id i)) GICH_LR_PID_OFF) GICH_LR_PID_MSK) in
    if state =? PENDACT then (Z.lor lr GICH_LR_STATE_ACT, sgi_pend i)
    else (Z.lor lr (Z.land (lsl32 state GICH_LR_STATE_OFF) GICH_LR_STATE_MSK), sgi_pend i)
  else if i_id i <? GIC_MAX_SGIS then
    let '(lr, pend) :=
      if negb (Z.land state ACT =? 0) then
        let lr := Z.lor lr (Z.land (lsl32 (targets i) GICH_LR_CPUID_OFF) GICH_LR_CPUID_MSK) in
        (Z.lor lr GICH_LR_STATE_ACT, sgi_pend i)
      else
        let src := highest_source (sgi_pend i) (Z.to_nat GIC_MAX_TARGETS) in
        if src <? 0 then (lr, sgi_pend i)
        else
          let lr := Z.lor lr (Z.land (Z.shiftl src GICH_LR_CPUID_OFF) GICH_LR_CPUID_MSK) in
          (Z.lor lr GICH_LR_STATE_PND, Z.land (sgi_pend i) (not32 (lsl32 1 src))) in
    if negb (pend =? 0) then (Z.lor lr GICH_LR_EOI_BIT, pend) else (lr, pend)
  else
    let lr := if negb (gic_is_priv (i_id i)) && negb (vgic_int_is_hw i) then Z.lor lr GICH_LR_EOI_BIT else lr in
    (Z.lor lr (Z.land (lsl32 state GICH_LR_STATE_OFF) GICH_LR_STATE_MSK), sgi_pend i).

(** The interrupt that was in the list register before loses it. *)
Definition evict_prev (vcpu : Z) (r : intref) (lr_ind : Z) : st world () :=
  c ← get_vcpu vcpu;
  i ← get_int r;
  prev_int_id ← lift (rd (curr_lrs c) lr_ind);
  if negb (prev_int_id =? i_id i) && negb (gic_is_priv prev_int_id) then
    prev ← vgic_get_int vcpu prev_int_id (v_id c);
    match prev with
    | None => mret ()
    | Some p =>
        lock_int p ;;
        pi ← get_int p;
        when (vgic_owns vcpu pi && in_lr pi && (i_lr pi =? lr_ind))
          (upd_int p (fun i => set_in_lr i false) ;; vgic_yield_ownership vcpu p) ;;
        unlock_int p
    end
  else mret ().

Definition vgic_write_lr (vcpu : Z) (r : intref) (lr_ind : Z) : st world () :=
  evict_prev vcpu r lr_ind ;;
  state ← vgic_get_state r;
  i ← get_int r;
  let '(lr, pend) := lr_value i state in
  put_int r (set_lr (set_in_lr (set_state (set_sgi_pend i pend) 0) true) lr_ind) ;;
  c ← get_vcpu vcpu;
  l ← lift (wr (curr_lrs c) lr_ind (i_id i));
  put_vcpu vcpu (set_curr_lrs c l) ;;
  on_gic (gich_write_lr lr_ind lr).

(** The result tells whether the list register held a valid interrupt. *)
Definition vgic_remove_lr (vcpu : Z) (r : intref) : st world bool :=
  i ← get_int r;
  if negb (vgic_owns vcpu i) || negb (in_lr i) then mret false else
  lr ← gich_get_lr r;
  match lr with Some (lr_ind, _) => on_gic (gich_write_lr lr_ind 0) | None => mret () end ;;
  let lr_val := match lr with Some (_, lr_val) => lr_val | None => 0 end in
  upd_int r (fun i => set_in_lr i false) ;;
  if GICH_LR_STATE lr_val =? INV then mret false else
  upd_int r (fun i => set_state i (GICH_LR_STATE lr_val)) ;;
  i ← get_int r;
  when (i_id i <? GIC_MAX_SGIS)
    (if negb (Z.land (i_state i) ACT =? 0) then
       upd_int r (fun i => set_targets i (GICH_LR_CPUID lr_val))
     else when (negb (Z.land (i_state i) PEND =? 0))
       (upd_int r (fun i => set_sgi_pend i (Z.lor (sgi_pend i) (lsl32 1 (GICH_LR_CPUID lr_val)))))) ;;
  hcr ← on_gic gich_get_hcr;
  i ← get_int r;
  let hcr := if negb (Z.land (i_state i) PEND =? 0) && enabled i then Z.lor hcr GICH_HCR_NPIE_BIT else hcr in
  on_gic (gich_set_hcr (Z.lor hcr GICH_HCR_UIE_BIT)) ;;
  mret true.

Definition vgic_add_spilled (vcpu : Z) (r : intref) : st world () :=
  lock_spilled ;;
  i ← get_int r;
  let spilled_list := if gic_is_priv (i_id i) then SVcpu vcpu else SVm in
  on_spilled (fun l => list_add_tail l (Some (SInt r)) (Some spilled_list)) ;;
  unlock_spilled ;;
  hcr ← on_gic gich_get_hcr;
  on_gic (gich_set_hcr (Z.lor hcr GICH_HCR_NPIE_BIT)).

Definition vgic_spill_lr (vcpu lr_ind : Z) : st world () :=
  lr ← on_gic (gich_read_lr lr_ind);
  c ← get_vcpu vcpu;
  spilled_int ← vgic_get_int vcpu (GICH_LR_VID lr) (v_id c);
  match spilled_int with
  | None => mret ()
  | Some s =>
      lock_int s ;;
      _ ← vgic_remove_lr vcpu s;
      vgic_add_spilled vcpu s ;;
      vgic_yield_ownership vcpu s ;;
      unlock_int s
  end.

(** The first empty list register below [NUM_LRS], -1 when there is none. *)
Fixpoint first_empty (elrsr : Z) (n : nat) (i : Z) : Z :=
  match n with
  | O => -1
  | S n => if negb (bit64_get elrsr i =? 0) then i else first_empty elrsr n (i + 1)
  end.

(** The candidates the second loop of [vgic_add_lr] keeps: the least urgent
    pending and active list registers seen that are less urgent than the new
    interrupt, and how many of each kind there are. *)
Record victims := Victims {
  min_prio_pend : Z; min_id_pend : Z; pend_ind : Z; pend_found : Z;
  min_prio_act : Z; min_id_act : Z; act_ind : Z; act_found : Z;
}.

Definition consider (i lr : Z) (v : victims) : victims :=
  let lr_id := GICH_LR_VID lr in
  let lr_prio := Z.shiftl (Z.shiftr (Z.land lr GICH_LR_PRIO_MSK) GICH_LR_PRIO_OFF) 3 in
  let lr_state := Z.land lr GICH_LR_STATE_MSK in
  if negb (Z.land lr_state GICH_LR_STATE_ACT =? 0) then
    if (min_prio_act v <? lr_prio) || ((lr_prio =? min_prio_act v) && (min_id_act v <? lr_id)) then
      Victims (min_prio_pend v) (min_id_pend v) (pend_ind v) (pend_found v) lr_prio lr_id i (act_found v + 1)
    else
      Victims (min_prio_pend v) (min_id_pend v) (pend_ind v) (pend_found v)
        (min_prio_act v) (min_id_act v) (act_ind v) (act_found v + 1)
  else if negb (Z.land lr_state GICH_LR_STATE_PND =? 0) then
    if (min_prio_pend v <? lr_prio) || ((lr_prio =? min_prio_pend v) && (min_id_pend v <? lr_id)) then
      Victims lr_prio lr_id i (pend_found v + 1) (min_prio_act v) (min_id_act v) (act_ind v) (act_found v)
    else
      Victims (min_prio_pend v) (min_id_pend v) (pend_ind v) (pend_found v + 1)
        (min_prio_act v) (min_id_act v) (act_ind v) (act_found v)
  else v.

Fixpoint scan_lrs (n : nat) (i : Z) (v : victims) : st world victims :=
  match n with
  | O => mret v
  | S n => lr ← on_gic (gich_read_lr i); scan_lrs n (i + 1) (consider i lr v)
  end.

Definition choose_victim (r : intref) : st world Z :=
  i ← get_int r;
  n ← gets (fun w => NUM_LRS (wgic w));
  v ← scan_lrs (Z.to_nat n) 0
    (Victims (i_prio i) (u32 (i_id i)) (-1) 0 (i_prio i) (u32 (i_id i)) (-1) 0);
  mret (if 1 <? pend_found v then pend_ind v else act_ind v).

Definition vgic_add_lr (vcpu : Z) (r : intref) : st world bool :=
  i ← get_int r;
  if negb (enabled i) || in_lr i then mret false else
  elrsr ← on_gic gich_get_elrsr;
  n ← gets (fun w => NUM_LRS (wgic w));
  let lr_ind := first_empty elrsr (Z.to_nat n) 0 in
  lr_ind ←
    (if lr_ind <? 0 then
       lr_ind ← choose_victim r;
       when (0 <=? lr_ind) (vgic_spill_lr vcpu lr_ind) ;;
       mret lr_ind
     else mret lr_ind);
  if 0 <=? lr_ind then vgic_write_lr vcpu r lr_ind ;; mret true
  else vgic_add_spilled vcpu r ;; mret false.

Definition vgic_route (vcpu : Z) (r : intref) : st world () :=
  i ← get_int r;
  if (i_state i =? INV) || negb (enabled i) then mret () else
  t ← vgic_int_vcpu_is_target vcpu r;
  (if (t : bool) then _ ← vgic_add_lr vcpu r; mret () else mret ()) ;;
  i ← get_int r;
  o ← vgic_int_has_other_target vcpu r;
  if negb (in_lr i) && o then
    m ← gets wvm;
    c ← get_vcpu vcpu;
    let msg := Msg.CpuMsg VGIC_IPI_ID VGIC_ROUTE (VGIC_MSG_DATA (vm_id m) (v_id c) (i_id i) 0 0) in
    vgic_yield_ownership vcpu r ;;
    t ← vgic_int_ptarget_mask vcpu r;
    send_to_mask (Z.land t (not64 (lsl64 1 (p_id c)))) msg
  else mret ().

(** ** Register fields *)

Definition VGIC_ENABLE_MASK : Z := GICD_CTLR_EN_BIT.

Definition vgic_update_enable (vcpu : Z) : st world () :=
  m ← gets wvm;
  hcr ← on_gic gich_get_hcr;
  if negb (Z.land (d_CTLR (d m)) VGIC_ENABLE_MASK =? 0)
  then on_gic (gich_set_hcr (Z.lor hcr GICH_HCR_En_BIT))
  else on_gic (gich_set_hcr (Z.land hcr (not32 GICH_HCR_En_BIT))).

Definition vgic_int_update_enable (vcpu : Z) (r : intref) (enable : bool) : st world bool :=
  i ← get_int r;
  if gic_is_sgi (i_id i) then mret false else
  if negb (Bool.eqb enable (enabled i)) then put_int r (set_enabled i enable) ;; mret true
  else mret false.

Definition vgic_int_enable_hw (vcpu : Z) (r : intref) : st world () :=
  i ← get_int r;
  on_gic (gic_set_enable (i_id i) (enabled i)).

Definition vgic_int_clear_enable (vcpu : Z) (r : intref) (data : Z) : st world bool :=
  if data =? 0 then mret false else vgic_int_update_enable vcpu r false.

Definition vgic_int_set_enable (vcpu : Z) (r : intref) (data : Z) : st world bool :=
  if data =? 0 then mret false else vgic_int_update_enable vcpu r true.

Definition vgic_int_get_enable (vcpu : Z) (r : intref) : st world Z :=
  i ← get_int r;
  mret (if enabled i then 1 else 0).

Definition has (state flag : Z) : bool := negb (Z.land state flag =? 0).

Definition vgic_int_update_pend (vcpu : Z) (r : intref) (pend : bool) : st world bool :=
  i ← get_int r;
  if gic_is_sgi (i_id i) then mret false else
  if xorb pend (has (i_state i) PEND) then
    put_int r (set_state i (if pend then Z.lor (i_state i) PEND else Z.land (i_state i) (not32 PEND))) ;;
    mret true
  else mret false.

Definition vgic_int_state_hw (vcpu : Z) (r : intref) : st world () :=
  i ← get_int r;
  let state := if i_state i =? PEND then ACT else i_state i in
  let pend := has state PEND in
  let act := has state ACT in
  on_gic (gicd_set_act (i_id i) act) ;;
  on_gic (gicd_set_pend (i_id i) pend).

Definition vgic_int_clear_pend (vcpu : Z) (r : intref) (data : Z) : st world bool :=
  if data =? 0 then mret false else vgic_int_update_pend vcpu r false.

Definition vgic_int_set_pend (vcpu : Z) (r : intref) (data : Z) : st world bool :=
  if data =? 0 then mret false else vgic_int_update_pend vcpu r true.

Definition vgic_int_get_pend (vcpu : Z) (r : intref) : st world Z :=
  i ← get_int r;
  mret (if has (i_state i) PEND then 1 else 0).

Definition vgic_int_update_act (vcpu : Z) (r : intref) (act : bool) : st world bool :=
  i ← get_int r;
  if xorb act (has (i_state i) ACT) then
    put_int r (set_state i (if act then Z.lor (i_state i) ACT else Z.land (i_state i) (not32 ACT))) ;;
    mret true
  else mret false.

Definition vgic_int_clear_act (vcpu : Z) (r : intref) (data : Z) : st world bool :=
  if data =? 0 then mret false else vgic_int_update_act vcpu r false.

Definition vgic_int_set_act (vcpu : Z) (r : intref) (data : Z) : st world bool :=
  if data =? 0 then mret false else vgic_int_update_act vcpu r true.

Definition vgic_int_get_act (vcpu : Z) (r : intref) : st world Z :=
  i ← get_int r;
  mret (if has (i_state i) ACT then 1 else 0).

Definition vgic_int_set_cfg (vcpu : Z) (r : intref) (cfg : Z) : st world bool :=
  i ← get_int r;
  put_int r (set_cfg i cfg) ;;
  mret (negb (i_cfg i =? cfg)).

Definition vgic_int_get_cfg (vcpu : Z) (r : intref) : st world Z :=
  i ← get_int r;
  mret (i_cfg i).

Definition vgic_int_set_cfg_hw (vcpu : Z) (r : intref) : st world () :=
  i ← get_int r;
  on_gic (gic_set_icfgr (i_id i) (i_cfg i)).

Definition vgic_int_set_prio (vcpu : Z) (r : intref) (prio : Z) : st world bool :=
  i ← get_int r;
  put_int r (set_prio i (Z.land (u8 prio) (BIT_MASK (8 - GICH_LR_PRIO_LEN) GICH_LR_PRIO_LEN))) ;;
  mret (negb (i_prio i =? prio)).

Definition vgic_int_get_prio (vcpu : Z) (r : intref) : st world Z :=
  i ← get_int r;
  mret (i_prio i).

Definition vgic_int_set_prio_hw (vcpu : Z) (r : intref) : st world () :=
  i ← get_int r;
  on_gic (gic_set_prio (i_id i) (i_prio i)).

Definition vgicd_set_trgt (vcpu : Z) (r : intref) (targets_ : Z) : st world bool :=
  i ← get_int r;
  if gic_is_priv (i_id i) then mret false else
  m ← gets wvm;
  t ← lift (vm_translate_to_pcpu_mask m targets_ GIC_TARGET_BITS);
  put_int r (set_targets i t) ;;
  mret (negb (targets i =? t)).

Definition vgicd_set_trgt_hw (vcpu : Z) (r : intref) : st world () :=
  i ← get_int r;
  on_gic (gicd_set_trgt (i_id i) (targets i)).

Definition vgicd_get_trgt (vcpu : Z) (r : intref) : st world Z :=
  i ← get_int r;
  c ← get_vcpu vcpu;
  m ← gets wvm;
  if gic_is_priv (i_id i) then mret (lsl64 1 (v_id c))
  else lift (vm_translate_to_vcpu_mask m (targets i) GIC_TARGET_BITS).

(** ** Register accesses of the guest *)

Record emul_access := EmulAccess {
  acc_addr : Z;
  acc_write : bool;
  acc_sign_ext : bool;
  acc_width : Z;
  acc_reg : Z;
  acc_reg_high : Z;
  acc_multi_reg : bool;
  acc_reg_width : Z;
}.

(** The functions a [reg_access] pointer can name. *)
Inductive reg_access_fn :=
| vgic_emul_generic
| vgicd_emul_misc
| vgicd_emul_pidr
| vgicd_emul_sgiregs
| vgic_emul_raz.

(** A member the initialiser leaves out is 0, a function pointer NULL. *)
Record vgic_reg_handler_info := HandlerInfo {
  reg_access : reg_access_fn;
  alignment : Z;
  regid : Z;
  regroup_base : Z;
  field_width : Z;
  read_field : option (Z -> intref -> st world Z);
  update_field : option (Z -> intref -> Z -> st world bool);
  update_hw : option (Z -> intref -> st world ());
}.

(** [enum vgic_reg_handler_info_id]. *)
Definition VGIC_ISENABLER_ID : Z := 0.
Definition VGIC_ISPENDR_ID : Z := 1.
Definition VGIC_ISACTIVER_ID : Z := 2.
Definition VGIC_ICENABLER_ID : Z := 3.
Definition VGIC_ICPENDR_ID : Z := 4.
Definition VGIC_ICACTIVER_ID : Z := 5.
Definition VGIC_ICFGR_ID : Z := 6.
Definition VGIC_IROUTER_ID : Z := 7.
Definition VGIC_IPRIORITYR_ID : Z := 8.
Definition VGIC_ITARGETSR_ID : Z := 9.
Definition VGIC_REG_HANDLER_ID_NUM : Z := 10.

(** [offsetof(struct gicd_hw, REG)]. *)
Definition off_CTLR : Z := 0x0.
Definition off_TYPER : Z := 0x4.
Definition off_IIDR : Z := 0x8.
Definition off_ISENABLER : Z := 0x100.
Definition off_ICENABLER : Z := 0x180.
Definition off_ISPENDR : Z := 0x200.
Definition off_ICPENDR : Z := 0x280.
Definition off_ISACTIVER : Z := 0x300.
Definition off_ICACTIVER : Z := 0x380.
Definition off_IPRIORITYR : Z := 0x400.
Definition off_ITARGETSR : Z := 0x800.
Definition off_ICFGR : Z := 0xc00.
Definition off_SGIR : Z := 0xf00.
Definition off_IROUTER : Z := 0x6000.
Definition off_ID : Z := 0xffd0.

Definition GICD_REG_MASK (ADDR : Z) : Z := Z.land ADDR 0xfff.
Definition GICD_REG_GROUP (off : Z) : Z := Z.shiftr (Z.land off 0xff80) 7.
Definition GICD_REG_IND (off : Z) : Z := Z.land off 0x7f.
Definition GICD_IS_REG (off size offset : Z) : bool := (off <=? offset) && (offset <? off + size).

Definition isenabler_info := HandlerInfo vgic_emul_generic 4 VGIC_ISENABLER_ID off_ISENABLER 1
  (Some vgic_int_get_enable) (Some vgic_int_set_enable) (Some vgic_int_enable_hw).
Definition ispendr_info := HandlerInfo vgic_emul_generic 4 VGIC_ISPENDR_ID off_ISPENDR 1
  (Some vgic_int_get_pend) (Some vgic_int_set_pend) (Some vgic_int_state_hw).
Definition isactiver_info := HandlerInfo vgic_emul_generic 4 VGIC_ISACTIVER_ID off_ISACTIVER 1
  (Some vgic_int_get_act) (Some vgic_int_set_act) (Some vgic_int_state_hw).
Definition icenabler_info := HandlerInfo vgic_emul_generic 4 VGIC_ICENABLER_ID off_ICENABLER 1
  (Some vgic_int_get_enable) (Some vgic_int_clear_enable) (Some vgic_int_enable_hw).
Definition icpendr_info := HandlerInfo vgic_emul_generic 4 VGIC_ICPENDR_ID off_ICPENDR 1
  (Some vgic_int_get_pend) (Some vgic_int_clear_pend) (Some vgic_int_state_hw).
Definition iactiver_info := HandlerInfo vgic_emul_generic 4 VGIC_ICACTIVER_ID off_ICACTIVER 1
  (Some vgic_int_get_act) (Some vgic_int_clear_act) (Some vgic_int_state_hw).
Definition icfgr_info := HandlerInfo vgic_emul_generic 4 VGIC_ICFGR_ID off_ICFGR 2
  (Some vgic_int_get_cfg) (Some vgic_int_set_cfg) (Some vgic_int_set_cfg_hw).
Definition ipriorityr_info := HandlerInfo vgic_emul_generic 5 VGIC_IPRIORITYR_ID off_IPRIORITYR 8
  (Some vgic_int_get_prio) (Some vgic_int_set_prio) (Some vgic_int_set_prio_hw).
Definition vgicd_misc_info := HandlerInfo vgicd_emul_misc 4 0 0 0 None None None.
Definition vgicd_pidr_info := HandlerInfo vgicd_emul_pidr 4 0 0 0 None None None.
Definition razwi_info := HandlerInfo vgic_emul_raz 4 0 0 0 None None None.
(** The strong definitions of [vgicv2.c]; [irouter_info] stays the weak one. *)
Definition itargetr_info := HandlerInfo vgic_emul_generic 5 VGIC_ITARGETSR_ID off_ITARGETSR 8
  (Some vgicd_get_trgt) (Some vgicd_set_trgt) (Some vgicd_set_trgt_hw).
Definition sgir_info := HandlerInfo vgicd_emul_sgiregs 4 0 0 0 None None None.
Definition irouter_info := HandlerInfo vgic_emul_raz 4 0 0 0 None None None.

Definition reg_handler_info_table : list vgic_reg_handler_info :=
  [isenabler_info; ispendr_info; isactiver_info; icenabler_info; icpendr_info; iactiver_info;
   icfgr_info; irouter_info; ipriorityr_info; itargetr_info].

Definition vgic_get_reg_handler_info (id : Z) : option vgic_reg_handler_info :=
  if id <? VGIC_REG_HANDLER_ID_NUM then reg_handler_info_table !! Z.to_nat id else None.

(** A call through a function pointer: NULL faults. *)
Definition call_ptr {F : Type} (f : option F) : st world F :=
  match f with Some f => mret f | None => stop HFault end.

Definition vgic_int_set_field (handlers : vgic_reg_handler_info) (vcpu : Z) (r : intref) (data : Z) : st world () :=
  lock_int r ;;
  own ← vgic_get_ownership vcpu r;
  (if (own : bool) then
     _ ← vgic_remove_lr vcpu r;
     update ← call_ptr (update_field handlers);
     changed ← update vcpu r data;
     i ← get_int r;
     (if changed && vgic_int_is_hw i then
        uhw ← call_ptr (update_hw handlers);
        uhw vcpu r
      else mret ()) ;;
     vgic_route vcpu r ;;
     vgic_yield_ownership vcpu r
   else
     m ← gets wvm;
     i ← get_int r;
     let msg := Msg.CpuMsg VGIC_IPI_ID VGIC_SET_REG (VGIC_MSG_DATA (vm_id m) 0 (i_id i) (regid handlers) data) in
     match owner i with
     | None => stop HFault
     | Some o => c ← get_vcpu o; send_msg (p_id c) msg
     end) ;;
  unlock_int r.

(** The loop of [vgic_emul_generic_access] from field [i] on, [n] fields left;
    it leaves at the first interrupt that does not exist. *)
Fixpoint access_fields (acc : emul_access) (handlers : vgic_reg_handler_info)
    (vgicr_id first_int mask : Z) (n : nat) (i val : Z) : st world Z :=
  match n with
  | O => mret val
  | S n =>
      v ← gets cur_vcpu;
      interrupt ← vgic_get_int v (u64 (first_int + i)) vgicr_id;
      match interrupt with
      | None => mret val
      | Some r =>
          if acc_write acc then
            let data := bit64_extract val (u64 (i * field_width handlers)) (field_width handlers) in
            vgic_int_set_field handlers v r data ;;
            access_fields acc handlers vgicr_id first_int mask n (i + 1) val
          else
            rf ← call_ptr (read_field handlers);
            x ← rf v r;
            access_fields acc handlers vgicr_id first_int mask n (i + 1)
              (Z.lor val (lsl64 (Z.land x mask) (u64 (i * field_width handlers))))
      end
  end.

(** [acc_width] is at most 8, so the product does not wrap. *)
Definition vgic_emul_generic_access (acc : emul_access) (handlers : vgic_reg_handler_info)
    (gicr_access : bool) (vgicr_id : Z) : st world () :=
  let fw := field_width handlers in
  let first_int := u64 (u64 (GICD_REG_MASK (acc_addr acc) - regroup_base handlers) * 8) / fw in
  val ← (if acc_write acc then vcpu_reg (acc_reg acc) else mret 0);
  let mask := u64 (lsl64 1 fw - 1) in
  val ← access_fields acc handlers vgicr_id first_int mask (Z.to_nat (acc_width acc * 8 / fw)) 0 val;
  when (negb (acc_write acc)) (set_vcpu_reg (acc_reg acc) val).

Definition vm_broadcast (msg : Msg.cpu_msg) : st world () := fun w =>
  s ← vm_msg_broadcast fuel (cpu_id w) (wvm w) msg (wmsg w);
  Ok ((), set_msg w s).

Definition GICD_CTLR_ARE_NS_BIT : Z := 0x10.

Definition vgicd_emul_misc_access (acc : emul_access) : st world () :=
  let reg := Z.land (acc_addr acc) 0x7f in
  m ← gets wvm;
  v ← gets cur_vcpu;
  if reg =? GICD_REG_IND off_CTLR then
    if acc_write acc then
      let prev_ctrl := d_CTLR (d m) in
      val ← vcpu_reg (acc_reg acc);
      let ctlr := u32 (Z.land val VGIC_ENABLE_MASK) in
      upd_d (fun x => set_d_CTLR x ctlr) ;;
      when (negb (Z.lxor prev_ctrl ctlr =? 0))
        (vgic_update_enable v ;;
         vm_broadcast (Msg.CpuMsg VGIC_IPI_ID VGIC_UPDATE_ENABLE (VGIC_MSG_DATA (vm_id m) 0 0 0 0)))
    else set_vcpu_reg (acc_reg acc) (Z.lor (d_CTLR (d m)) GICD_CTLR_ARE_NS_BIT)
  else if reg =? GICD_REG_IND off_TYPER then
    when (negb (acc_write acc)) (set_vcpu_reg (acc_reg acc) (d_TYPER (d m)))
  else if reg =? GICD_REG_IND off_IIDR then
    when (negb (acc_write acc)) (set_vcpu_reg (acc_reg acc) (d_IIDR (d m)))
  else mret ().

Definition vgicd_emul_pidr_access (acc : emul_access) : st world () :=
  if acc_write acc then mret () else
  val ← on_gic (rdreg (ID (u64 (Z.land (acc_addr acc) 0xff - 0xd0) / 4)));
  set_vcpu_reg (acc_reg acc) val.

Definition vgic_emul_razwi (acc : emul_access) : st world () :=
  when (negb (acc_write acc)) (set_vcpu_reg (acc_reg acc) 0).

(** [gicd] is aligned to 0x10000, so the low bits of [&gicd->SGIR] are its
    offset. *)
Definition vgicd_emul_sgiregs_access (acc : emul_access) : st world () :=
  v ← gets cur_vcpu;
  c ← get_vcpu v;
  m ← gets wvm;
  id ← gets cpu_id;
  val ← (if acc_write acc then vcpu_reg (acc_reg acc) else mret 0);
  if (Z.land (acc_addr acc) 0xfff =? Z.land off_SGIR 0xfff) && acc_write acc then
    let int_id := GICD_SGIR_SGIINTID val in
    let flt := GICD_SGIR_TRGLSTFLT val in
    if flt =? 0 then
      trgtlist ← lift (vm_translate_to_pcpu_mask m (GICD_SGIR_CPUTRGLST val) GIC_TARGET_BITS);
      vgic_send_sgi_msg v trgtlist int_id
    else if flt =? 1 then
      vgic_send_sgi_msg v (Z.land (cpus m) (not32 (lsl32 1 (p_id c)))) int_id
    else if flt =? 2 then vgic_send_sgi_msg v (lsl32 1 id) int_id
    else mret ()
  else mret ().

Definition vgic_check_reg_alignment (acc : emul_access) (handlers : vgic_reg_handler_info) : bool :=
  negb ((Z.land (alignment handlers) (acc_width acc) =? 0) ||
        negb (Z.land (acc_addr acc) (u64 (acc_width acc - 1)) =? 0)).

(** The [switch] of [vgicd_emul_handler]. *)
Definition select_handler (acc : emul_access) : vgic_reg_handler_info :=
  let acc_off := GICD_REG_MASK (acc_addr acc) in
  let group := Z.shiftr acc_off 7 in
  if group =? GICD_REG_GROUP off_CTLR then vgicd_misc_info
  else if group =? GICD_REG_GROUP off_ISENABLER then isenabler_info
  else if group =? GICD_REG_GROUP off_ISPENDR then ispendr_info
  else if group =? GICD_REG_GROUP off_ISACTIVER then isactiver_info
  else if group =? GICD_REG_GROUP off_ICENABLER then icenabler_info
  else if group =? GICD_REG_GROUP off_ICPENDR then icpendr_info
  else if group =? GICD_REG_GROUP off_ICACTIVER then iactiver_info
  else if group =? GICD_REG_GROUP off_ICFGR then icfgr_info
  else if group =? GICD_REG_GROUP off_SGIR then sgir_info
  else if GICD_IS_REG off_IPRIORITYR 0x400 acc_off then ipriorityr_info
  else if GICD_IS_REG off_ITARGETSR 0x400 acc_off then itargetr_info
  else if GICD_IS_REG off_IROUTER 0x2000 acc_off then irouter_info
  else if GICD_IS_REG off_ID 0x30 acc_off then vgicd_pidr_info
  else razwi_info.

Definition call_reg_access (acc : emul_access) (info : vgic_reg_handler_info)
    (gicr_access : bool) (vgicr_id : Z) : st world () :=
  match reg_access info with
  | vgic_emul_generic => vgic_emul_generic_access acc info gicr_access vgicr_id
  | vgicd_emul_misc => vgicd_emul_misc_access acc
  | vgicd_emul_pidr => vgicd_emul_pidr_access acc
  | vgicd_emul_sgiregs => vgicd_emul_sgiregs_access acc
  | vgic_emul_raz => vgic_emul_razwi acc
  end.

Definition lock_vgicd : st world () := fun w =>
  k ← spin_lock (d_lock (d (wvm w)));
  Ok ((), set_vm w (set_d (wvm w) (set_d_lock (d (wvm w)) k))).
Definition unlock_vgicd : st world () := upd_d (fun x => set_d_lock x (spin_unlock (d_lock x))).

Definition vgicd_emul_handler (acc : emul_access) : st world bool :=
  let handler_info := select_handler acc in
  if vgic_check_reg_alignment acc handler_info then
    lock_vgicd ;;
    v ← gets cur_vcpu;
    c ← get_vcpu v;
    call_reg_access acc handler_info false (v_id c) ;;
    unlock_vgicd ;;
    mret true
  else mret false.

(** ** Injection *)

(** A NULL interrupt faults. *)
Definition deref (p : option intref) : st world intref :=
  match p with Some r => mret r | None => stop HFault end.

Definition vgic_inject_hw (vcpu id : Z) : st world () :=
  c ← get_vcpu vcpu;
  p ← vgic_get_int vcpu id (v_id c);
  r ← deref p;
  lock_int r ;;
  upd_int r (fun i => set_in_lr (set_state (set_owner i (Some vcpu)) PEND) false) ;;
  _ ← vgic_add_lr vcpu r;
  unlock_int r.

(** [source] is the id of the virtual CPU that sent the interrupt. *)
Definition vgic_inject_sgi (vcpu : Z) (r : intref) (source : Z) : st world () :=
  lock_int r ;;
  _ ← vgic_remove_lr vcpu r;
  i ← get_int r;
  let pendstate := sgi_pend i in
  let new_pendstate := u8 (Z.lor pendstate (lsl32 1 source)) in
  (if negb (Z.lxor pendstate new_pendstate =? 0) then
     upd_int r (fun i => set_sgi_pend i new_pendstate) ;;
     (if negb (new_pendstate =? 0) then upd_int r (fun i => set_state i (Z.lor (i_state i) PEND))
      else upd_int r (fun i => set_state i (Z.land (i_state i) (not32 PEND)))) ;;
     i ← get_int r;
     (if negb (i_state i =? INV) then _ ← vgic_add_lr vcpu r; mret () else mret ())
   else mret ()) ;;
  unlock_int r.

Definition vgic_inject (vcpu id source : Z) : st world () :=
  c ← get_vcpu vcpu;
  p ← vgic_get_int vcpu id (v_id c);
  match p with
  | None => mret ()
  | Some r =>
      i ← get_int r;
      if vgic_int_is_hw i then vgic_inject_hw vcpu id
      else if gic_is_sgi id then vgic_inject_sgi vcpu r source
      else vgic_int_set_field ispendr_info vcpu r 1
  end.

Definition vgic_ipi_handler (event data : Z) : st world () :=
  let vm_id_ := u16 (VGIC_MSG_VM data) in
  let vgicr_id := u16 (VGIC_MSG_VGICRID data) in
  let int_id := VGIC_MSG_INTID data in
  let val := VGIC_MSG_VAL data in
  m ← gets wvm;
  v ← gets cur_vcpu;
  c ← get_vcpu v;
  if negb (vm_id_ =? vm_id m) then stop HError else
  if event =? VGIC_UPDATE_ENABLE then vgic_update_enable v
  else if event =? VGIC_ROUTE then
    p ← vgic_get_int v int_id (v_id c);
    match p with
    | None => mret ()
    | Some r =>
        lock_int r ;;
        own ← vgic_get_ownership v r;
        (if (own : bool) then
           t ← vgic_int_vcpu_is_target v r;
           (if (t : bool) then _ ← vgic_add_lr v r; mret () else mret ()) ;;
           vgic_yield_ownership v r
         else mret ()) ;;
        unlock_int r
    end
  else if event =? VGIC_INJECT then vgic_inject v int_id val
  else if event =? VGIC_SET_REG then
    let handlers := vgic_get_reg_handler_info (VGIC_MSG_REG data) in
    p ← vgic_get_int v int_id vgicr_id;
    match handlers, p with
    | Some h, Some r => vgic_int_set_field h v r val
    | _, _ => mret ()
    end
  else mret ().

(** ** The maintenance interrupt *)

(** One step of the search of [vgic_highest_prio_spilled] over a list: the best
    interrupt so far and the list it is on. *)
Definition better_spilled (flags : Z) (list : snode) (n : snode)
    (s : option (intref * snode) * world) : outcome (option (intref * snode) * world * bool) :=
  let '(irq, w) := s in
  match n with
  | SInt t =>
      '(state, w) ← vgic_get_state t w;
      if Z.land state flags =? 0 then Ok (irq, w, false) else
      '(temp_irq, w) ← get_int t w;
      '(irq_prio, irq_id, w) ←
        match irq with
        | None => Ok (GIC_LOWEST_PRIO, GIC_MAX_VALID_INTERRUPTS, w)
        | Some (r, _) => '(i, w) ← get_int r w; Ok (i_prio i, i_id i, w)
        end;
      let is_higher_prio := i_prio temp_irq <? irq_prio in
      let is_same_prio := i_prio temp_irq =? irq_prio in
      let is_lower_id := i_id temp_irq <? irq_id in
      if is_higher_prio || (is_same_prio && is_lower_id) then Ok (Some (t, list), w, false)
      else Ok (irq, w, false)
  | _ => Halt HFault
  end.

Definition vgic_highest_prio_spilled (vcpu flags : Z) : st world (option (intref * snode)) := fun w =>
  s ← list_for_each_entry fuel (spilled (wvm w)) (SVcpu vcpu) (better_spilled flags (SVcpu vcpu)) (None, w);
  list_for_each_entry fuel (spilled (wvm w)) SVm (better_spilled flags SVm) s.

(** [bitmap_find_nth] of the first set bit of a 64-bit word, as a signed value. *)
Definition find_lr (word : Z) : st world Z :=
  n ← gets (fun w => NUM_LRS (wgic w));
  i ← lift (bitmap_find_nth [u32 word; Z.shiftr word 32] n 1 0 true);
  mret (if i <? 2 ^ 63 then i else i - 2 ^ 64).

Fixpoint refill_loop (k : nat) (vcpu lr_ind flags : Z) : st world () :=
  match k with
  | O => stop HFuel
  | S k =>
      if lr_ind <? 0 then mret () else
      irq ← vgic_highest_prio_spilled vcpu flags;
      match irq with
      | None =>
          hcr ← on_gic gich_get_hcr;
          on_gic (gich_set_hcr (Z.land hcr (not32 (Z.lor GICH_HCR_NPIE_BIT GICH_HCR_UIE_BIT))))
      | Some (r, _) =>
          lock_int r ;;
          got_ownership ← vgic_get_ownership vcpu r;
          (if (got_ownership : bool) then
             on_spilled (fun l => list_del l (Some (SInt r))) ;;
             vgic_write_lr vcpu r lr_ind
           else mret ()) ;;
          unlock_int r ;;
          if negb got_ownership then refill_loop k vcpu lr_ind flags else
          elrsr ← on_gic gich_get_elrsr;
          lr_ind ← find_lr elrsr;
          refill_loop k vcpu lr_ind (Z.lor ACT PEND)
      end
  end.

Definition vgic_refill_lrs (vcpu : Z) (npie : bool) : st world () :=
  elrsr ← on_gic gich_get_elrsr;
  lr_ind ← find_lr elrsr;
  let flags := if npie then PEND else Z.lor ACT PEND in
  lock_spilled ;;
  refill_loop fuel vcpu lr_ind flags ;;
  unlock_spilled.

Definition vgic_eoir_highest_spilled_active (vcpu : Z) : st world () :=
  interrupt ← vgic_highest_prio_spilled vcpu ACT;
  match interrupt with
  | None => mret ()
  | Some (r, _) =>
      lock_int r ;;
      own ← vgic_get_ownership vcpu r;
      (if (own : bool) then
         upd_int r (fun i => set_state i (Z.land (i_state i) (not32 ACT))) ;;
         i ← get_int r;
         if vgic_int_is_hw i then on_gic (gic_set_act (i_id i) false)
         else if has (i_state i) PEND then _ ← vgic_add_lr vcpu r; mret () else mret ()
       else mret ()) ;;
      unlock_int r
  end.

(** An interrupt that does not exist: [continue] with the same [lr_ind]. *)
Fixpoint trapped_eoir_loop (k : nat) (vcpu lr_ind : Z) : st world () :=
  match k with
  | O => stop HFuel
  | S k =>
      if lr_ind <? 0 then mret () else
      lr_val ← on_gic (gich_read_lr lr_ind);
      on_gic (gich_write_lr lr_ind 0) ;;
      c ← get_vcpu vcpu;
      p ← vgic_get_int vcpu (GICH_LR_VID lr_val) (v_id c);
      match p with
      | None => trapped_eoir_loop k vcpu lr_ind
      | Some r =>
          lock_int r ;;
          upd_int r (fun i => set_in_lr i false) ;;
          i ← get_int r;
          (if i_id i <? GIC_MAX_SGIS then _ ← vgic_add_lr vcpu r; mret ()
           else vgic_yield_ownership vcpu r) ;;
          unlock_int r ;;
          eisr ← on_gic gich_get_eisr;
          lr_ind ← find_lr eisr;
          trapped_eoir_loop k vcpu lr_ind
      end
  end.

Definition vgic_handle_trapped_eoir (vcpu : Z) : st world () :=
  eisr ← on_gic gich_get_eisr;
  lr_ind ← find_lr eisr;
  trapped_eoir_loop fuel vcpu lr_ind.

Fixpoint eoicount_loop (k : nat) (vcpu hcr_el2 : Z) : st world () :=
  match k with
  | O => stop HFuel
  | S k =>
      if Z.land hcr_el2 GICH_HCR_EOICount_MASK =? 0 then mret () else
      vgic_eoir_highest_spilled_active vcpu ;;
      on_gic (gich_set_hcr (u32 (hcr_el2 - lsl32 1 GICH_HCR_EOICount_OFF))) ;;
      hcr_el2 ← on_gic gich_get_hcr;
      eoicount_loop k vcpu hcr_el2
  end.

Definition gic_maintenance_handler (irq_id : Z) : st world () :=
  v ← gets cur_vcpu;
  misr ← on_gic gich_get_misr;
  when (has misr GICH_MISR_EOI) (vgic_handle_trapped_eoir v) ;;
  when (has misr (Z.lor GICH_MISR_NP GICH_MISR_U)) (vgic_refill_lrs v (has misr GICH_MISR_NP)) ;;
  when (has misr GICH_MISR_LRPEN)
    (hcr_el2 ← on_gic gich_get_hcr;
     eoicount_loop fuel v hcr_el2).

(** ** Set-up *)

(** [struct vgic_dscrp]. *)
Record vgic_dscrp := VgicDscrp { gicd_addr : Z; gicc_addr : Z; gicr_addr : Z; interrupt_num : Z }.

Definition vgic_get_itln (dscrp : vgic_dscrp) : st world Z :=
  typer ← on_gic (rdreg TYPER);
  let vtyper_itln := bit32_extract typer GICD_TYPER_ITLN_OFF GICD_TYPER_ITLN_LEN in
  if GIC_MAX_PPIS <? interrupt_num dscrp then
    mret (Z.land (u64 (ALIGN (interrupt_num dscrp) 32 / 32 - 1)) (BIT32_MASK 0 GICD_TYPER_ITLN_LEN))
  else mret vtyper_itln.

Definition set_hw_flag (p : option intref) : st world () :=
  match p with
  | None => mret ()
  | Some r => lock_int r ;; upd_int r (fun i => set_ihw i true) ;; unlock_int r
  end.

(** The virtual CPUs of the VM are numbered by their position. *)
Definition vgic_set_hw (id : Z) : st world () :=
  if id <? GIC_MAX_SGIS then mret () else
  m ← gets wvm;
  if id <? GIC_CPU_PRIV then
    for_st (Z.to_nat (nr_cpus m)) 0 (fun vcpuid => p ← vgic_get_int vcpuid id vcpuid; set_hw_flag p)
  else
    _ ← get_vcpu 0;
    p ← vgic_get_int 0 id 0;
    set_hw_flag p.

(** What the initialisation loops write; the fields they leave ([lr], and of
    shared interrupts [sgi.pend]) keep what the memory held. *)
Definition init_spi (i : Z) (old : vgic_int) : vgic_int :=
  VgicInt None SPINLOCK_INITVAL (u64 (i + GIC_CPU_PRIV)) INV GIC_LOWEST_PRIO 0 (i_lr old) 0 (sgi_pend old) false false false.

Definition init_priv (vcpu i : Z) (old : vgic_int) : vgic_int :=
  VgicInt (Some vcpu) SPINLOCK_INITVAL i INV GIC_LOWEST_PRIO 0 (i_lr old) 0 0 false false false.

Definition vgic_cpu_init (vcpu : Z) : st world () :=
  for_st (Z.to_nat GIC_CPU_PRIV) 0 (fun i => upd_int (Priv vcpu i) (init_priv vcpu i)) ;;
  for_st (Z.to_nat GIC_MAX_SGIS) 0 (fun i => upd_int (Priv vcpu i) (fun x => set_enabled x true)) ;;
  on_spilled (fun l => INIT_LIST_HEAD l (Some (SVcpu vcpu))).

(** The state of the distributor the guest sees. *)
Definition vgicd_regs_init (dscrp : vgic_dscrp) : st world () :=
  upd_d (fun x => set_d_CTLR x 0) ;;
  vtyper_itln ← vgic_get_itln dscrp;
  m ← gets wvm;
  iidr ← on_gic (rdreg IIDR);
  let typer := Z.lor (Z.land (lsl64 vtyper_itln GICD_TYPER_ITLN_OFF) GICD_TYPER_ITLN_MSK)
                     (Z.land (lsl64 (u64 (nr_cpus m - 1)) GICD_TYPER_CPUNUM_OFF) GICD_TYPER_CPUNUM_MSK) in
  upd_d (fun x => Vgicd (d_ints x) (d_lock x) (u64 (32 * (vtyper_itln + 1))) (d_CTLR x) (u32 typer) iidr).

Definition sizeof_gicc_hw : Z := 0x2000.
Definition sizeof_gicd_hw : Z := 0x10000.
Definition sizeof_vgic_int : Z := 56.

(** [vgic_init]: [sp] is the VM's address space, [s] the page pool and RAM,
    [gicv_addr] the platform's, [junk] what the pages of the interrupt array held
    before. *)
Definition vgic_init {P : Type} `{PageAllocator P} (dscrp : vgic_dscrp) (gicv_addr : Z) (junk : Z -> vgic_int)
    (sp : addr_space) (s : P * mem) (w : world) : outcome (addr_space * (P * mem) * world) :=
  '(_, w) ← vgicd_regs_init dscrp w;
  let n := NUM_PAGES sizeof_gicc_hw in
  '(_, sp, s) ← mem_alloc_map_dev sp (gicc_addr dscrp) gicv_addr n s;
  let num := int_num (d (wvm w)) in
  let vgic_int_size := u64 (num * sizeof_vgic_int) in
  '(pages, p) ← pa_alloc (fst s) (NUM_PAGES vgic_int_size) false;
  if pp_base pages =? 0 then Halt HError else
  let w := set_vm w (set_d (wvm w)
             (set_d_ints (d (wvm w)) ((fun i => init_spi i (junk i)) <$> seqZ 0 num))) in
  let w := set_vm w (vm_emul_add_mem (wvm w)
             (EmulMem (gicd_addr dscrp) (ALIGN sizeof_gicd_hw PAGE_SIZE) vgicd_emul)) in
  l ← INIT_LIST_HEAD (spilled (wvm w)) (Some SVm);
  let w := set_vm w (set_spilled (wvm w) l SPINLOCK_INITVAL) in
  Ok (sp, (p, snd s), w).
End vgic.

Arguments world : clear implicits.
Arguments vgic_reg_handler_info : clear implicits.
