(* ===== verification/VgicInv.v ===== *)
(** Invariants of the virtual interrupt controller.

    Every operation of [Vgic] keeps the well-formedness of the interrupts (each
    is at the place its number says, its fields are in their ranges, a private
    interrupt belongs to its virtual CPU) and the frame: the lists keep their
    lengths, virtual CPUs their numbers, and every lock is, when the operation
    returns, exactly as taken or free as it was.  The entry points then form a
    transition system, and what holds at its start holds for ever. *)

From S2P Require Import Prelude Bit Bitmap Spinlock PhysMem Objpool Mem PageTable Mmu Dlist Cpu Gic Vm Vgic.

(** ** Locks *)

(** How many CPUs hold or wait for a lock. *)
Definition gap (l : spinlock_t) : Z := (ticket l - next l) mod 2 ^ 32.

Lemma gap_lock l l' : spin_lock l = Ok l' -> gap l' = (gap l + 1) mod 2 ^ 32.
Proof.
  unfold spin_lock, get_ticket, my_turn. simpl. destruct (_ =? _); [|done]. intros [= <-].
  unfold gap, u32. cbn [ticket next]. rewrite Zminus_mod_idemp_l, Zplus_mod_idemp_l. f_equal. lia.
Qed.

Lemma gap_unlock l : gap (spin_unlock l) = (gap l - 1) mod 2 ^ 32.
Proof.
  unfold gap, spin_unlock, u32. cbn [ticket next]. rewrite Zminus_mod_idemp_r, Zminus_mod_idemp_l. f_equal. lia.
Qed.

(** A lock taken and released again. *)
Lemma gap_cycle l l1 l2 : spin_lock l = Ok l1 -> gap l2 = gap l1 -> gap (spin_unlock l2) = gap l.
Proof.
  intros Hl Hg. rewrite gap_unlock, Hg, (gap_lock _ _ Hl), Zminus_mod_idemp_l.
  replace (gap l + 1 - 1) with (gap l) by lia. unfold gap. by rewrite Zmod_mod.
Qed.

Lemma unlocked_gap l : unlocked l -> gap l = 0.
Proof. intros [E _]. unfold gap. by rewrite E, Z.sub_diag. Qed.

(** ** The driver *)

Section gic.
Context {H : Type} `{GicHw H}.

Record gframe (g g' : gic H) : Prop := {
  gf_lrs : NUM_LRS g' = NUM_LRS g;
  gf_map : gic_cpu_map g' = gic_cpu_map g;
  gf_lock : gap (gicd_lock g') = gap (gicd_lock g);
}.

#[export] Instance gframe_preorder : PreOrder gframe.
Proof. split; [by split|]. intros a b c [] []. split; congruence. Qed.

Abbreviation gkeeps m := (keeps (fun _ => True) gframe m (fun _ => True)).

Lemma gkeeps_rdreg r : gkeeps (rdreg r).
Proof. intros g a g' _. unfold rdreg. destruct (reg_ok r); [|done]. by intros [= <- <-]. Qed.

Lemma gkeeps_wrreg r v : gkeeps (wrreg r v).
Proof. intros g a g' _. unfold wrreg. destruct (reg_ok r); [|done]. by intros [= <- <-]. Qed.

(** A step between taking and releasing the distributor's lock. *)
Lemma gkeeps_locked {A} (m : st (gic H) A) (f : A -> st (gic H) ()) :
  gkeeps m -> (forall a, gkeeps (f a)) -> gkeeps (lock_gicd ;; a ← m; f a ;; unlock_gicd).
Proof.
  intros Hm Hf g a g' _. unfold mbind, st_bind, lock_gicd. destruct (spin_lock (gicd_lock g)) as [l|] eqn:El; [|done].
  mstep. destruct (m _) as [[b g1]|] eqn:E1; [|done]. destruct (f b g1) as [[[] g2]|] eqn:E2; [|done].
  intros [= <- <-]. apply Hm in E1 as (_ & F1 & _); [|done]. apply (Hf b) in E2 as (_ & F2 & _); [|done].
  split; [done|]. split; [|done]. destruct (transitivity F1 F2) as [Fl Fm Fk].
  split; [done..|]. simpl. by apply (gap_cycle _ l).
Qed.

Lemma gkeeps_update_field r mask val : gkeeps (Gic.update_field r mask val).
Proof. apply (gkeeps_locked (rdreg r)); [apply gkeeps_rdreg|intros v; apply gkeeps_wrreg]. Qed.

Lemma gkeeps_set_trgt id t : gkeeps (gicd_set_trgt id t).
Proof.
  set (reg := ITARGETSR (GIC_TARGET_REG id)). set (mask := BIT32_MASK (GIC_TARGET_OFF id) GIC_TARGET_BITS).
  intros g a g' _. unfold gicd_set_trgt. fold reg. fold mask. intros E.
  apply (gkeeps_locked (v ← rdreg reg; t ← gic_translate_cpu_to_trgt t; mret (v, t))
    (fun p => wrreg reg (Z.lor (Z.land p.1 (not32 mask)) (Z.land (lsl32 p.2 (GIC_TARGET_OFF id)) mask)))) with (a := a);
    [|intros p; apply gkeeps_wrreg|done|].
  - apply (keeps_bind _ _ _ _ (fun _ => True)); [apply gkeeps_rdreg|]. intros v _.
    apply (keeps_bind _ _ _ _ (fun _ => True)); [|intros ? _; apply keeps_ret; done || apply _].
    apply (keeps_bind _ _ _ _ (fun _ => True)); [apply keeps_gets; apply _|]. intros mp _.
    eapply keeps_mono; [apply keeps_lift; apply _|done].
  - rewrite <- E. unfold mbind, st_bind. destruct (lock_gicd g) as [[[] g1]|]; [|done].
    destruct (rdreg reg g1) as [[v g2]|]; [|done].
    by destruct (gic_translate_cpu_to_trgt t g2) as [[]|].
Qed.
End gic.

(** ** The virtual controller *)

(** The locks an operation can leave open. *)
Inductive lockname := LInt (r : intref) | LSpilled | LVgicd.

#[export] Instance lockname_eq_dec : EqDecision lockname.
Proof. solve_decision. Defined.

(** What is released when [x] is: one unit of [x] and nothing else. *)
Definition released (x : option lockname) (n : lockname) : Z := if decide (x = Some n) then 1 else 0.

Definition gap_rel (x : option lockname) (n : lockname) (l l' : spinlock_t) : Prop :=
  gap l' = (gap l - released x n) mod 2 ^ 32.

Lemma gap_mod l : gap l mod 2 ^ 32 = gap l.
Proof. unfold gap. by rewrite Zmod_mod. Qed.

Lemma gap_rel_refl x n l : x ≠ Some n -> gap_rel x n l l.
Proof. intros Hx. unfold gap_rel, released. rewrite decide_False by done. by rewrite Z.sub_0_r, gap_mod. Qed.

Lemma gap_rel_None n l l' : gap_rel None n l l' <-> gap l' = gap l.
Proof. unfold gap_rel, released. rewrite decide_False by done. by rewrite Z.sub_0_r, gap_mod. Qed.

Lemma gap_rel_l x n l1 l2 l3 : gap_rel None n l1 l2 -> gap_rel x n l2 l3 -> gap_rel x n l1 l3.
Proof. rewrite gap_rel_None. unfold gap_rel. by intros ->. Qed.

Lemma gap_rel_r x n l1 l2 l3 : gap_rel x n l1 l2 -> gap_rel None n l2 l3 -> gap_rel x n l1 l3.
Proof. rewrite gap_rel_None. unfold gap_rel. by intros -> ->. Qed.

Lemma gap_rel_lock n l l1 l2 : spin_lock l = Ok l1 -> gap_rel (Some n) n l1 l2 -> gap_rel None n l l2.
Proof.
  intros Hl. rewrite gap_rel_None. unfold gap_rel, released. rewrite decide_True by done. intros ->.
  rewrite (gap_lock _ _ Hl), Zminus_mod_idemp_l. replace (gap l + 1 - 1) with (gap l) by lia. apply gap_mod.
Qed.

Lemma gap_rel_unlock n l : gap_rel (Some n) n l (spin_unlock l).
Proof. unfold gap_rel, released. rewrite decide_True by done. apply gap_unlock. Qed.

Lemma gap_rel_other m n l l' : m ≠ n -> gap_rel (Some m) n l l' <-> gap l' = gap l.
Proof.
  intros Hne. unfold gap_rel, released. rewrite decide_False by congruence. by rewrite Z.sub_0_r, gap_mod.
Qed.

Section world.
Context {H : Type} `{GicHw H}.
Implicit Types w : world H.

(** The interrupt at a place. *)
Definition int_at w (r : intref) : option vgic_int :=
  match r with
  | Priv v k => if (v <? 0) || (k <? 0) then None else vcpus (wvm w) !! Z.to_nat v ≫= fun c => v_ints c !! Z.to_nat k
  | Spi k => if k <? 0 then None else d_ints (d (wvm w)) !! Z.to_nat k
  end.

(** The number of the interrupt at a place. *)
Definition ref_id (r : intref) : Z := match r with Priv _ k => k | Spi k => k + GIC_CPU_PRIV end.

Record int_ok (r : intref) (i : vgic_int) : Prop := {
  ok_id : i_id i = ref_id r;
  ok_range : match r with Priv _ k => 0 <= k < GIC_CPU_PRIV | Spi k => 0 <= k end;
  ok_state : 0 <= i_state i < 4;
  ok_prio : 0 <= i_prio i < 256;
  ok_cfg : 0 <= i_cfg i < 256;
  ok_lr : 0 <= i_lr i < 256;
  ok_targets : 0 <= targets i < 256;
  ok_pend : 0 <= sgi_pend i < 256;
  ok_owner : match r with Priv v _ => owner i = Some v | Spi _ => True end;
}.

Definition wf w : Prop := forall r i, int_at w r = Some i -> int_ok r i.

(** Two virtual CPUs that differ at most in what the controller may change. *)
Record same_vcpu (c c' : vcpu) : Prop := {
  sv_id : v_id c' = v_id c;
  sv_pid : p_id c' = p_id c;
  sv_pc : elr_el2 c' = elr_el2 c;
  sv_regs : length (x c') = length (x c);
  sv_lrs : length (curr_lrs c') = length (curr_lrs c);
  sv_ints : length (v_ints c') = length (v_ints c);
}.

Record frame (n : option lockname) w w' : Prop := {
  fr_cpu : cpu_id w' = cpu_id w /\ cur_vcpu w' = cur_vcpu w /\ cpu_num w' = cpu_num w;
  fr_gic : gframe (wgic w) (wgic w');
  fr_vm : vm_id (wvm w') = vm_id (wvm w) /\ nr_cpus (wvm w') = nr_cpus (wvm w) /\
          cpus (wvm w') = cpus (wvm w) /\ interrupt_bitmap (wvm w') = interrupt_bitmap (wvm w);
  fr_num : int_num (d (wvm w')) = int_num (d (wvm w));
  fr_vcpus : Forall2 same_vcpu (vcpus (wvm w)) (vcpus (wvm w'));
  fr_int : forall r i, int_at w r = Some i -> exists i', int_at w' r = Some i' /\
           i_hw i' = i_hw i /\ gap_rel n (LInt r) (i_lock i) (i_lock i');
  fr_spilled : gap_rel n LSpilled (vgic_spilled_lock (wvm w)) (vgic_spilled_lock (wvm w'));
  fr_vgicd : gap_rel n LVgicd (d_lock (d (wvm w))) (d_lock (d (wvm w')));
  fr_back : forall r, is_Some (int_at w' r) -> is_Some (int_at w r);
}.

#[export] Instance same_vcpu_preorder : PreOrder same_vcpu.
Proof. split; [by split|]. intros a b c [] []. split; congruence. Qed.

Lemma frame_l n w1 w2 w3 : frame None w1 w2 -> frame n w2 w3 -> frame n w1 w3.
Proof.
  intros [C1 G1 V1 N1 P1 I1 S1 D1 B1] [C2 G2 V2 N2 P2 I2 S2 D2 B2]. split.
  - intuition congruence.
  - by etrans.
  - intuition congruence.
  - congruence.
  - by etrans.
  - intros r i Hi. destruct (I1 r i Hi) as (i1 & Hi1 & Eh & Eg). destruct (I2 r i1 Hi1) as (i2 & Hi2 & Eh2 & Eg2).
    exists i2. split; [done|]. split; [congruence|]. by eapply gap_rel_l.
  - by eapply gap_rel_l.
  - by eapply gap_rel_l.
  - auto.
Qed.

Lemma frame_r n w1 w2 w3 : frame n w1 w2 -> frame None w2 w3 -> frame n w1 w3.
Proof.
  intros [C1 G1 V1 N1 P1 I1 S1 D1 B1] [C2 G2 V2 N2 P2 I2 S2 D2 B2]. split.
  - intuition congruence.
  - by etrans.
  - intuition congruence.
  - congruence.
  - by etrans.
  - intros r i Hi. destruct (I1 r i Hi) as (i1 & Hi1 & Eh & Eg). destruct (I2 r i1 Hi1) as (i2 & Hi2 & Eh2 & Eg2).
    exists i2. split; [done|]. split; [congruence|]. by eapply gap_rel_r.
  - by eapply gap_rel_r.
  - by eapply gap_rel_r.
  - auto.
Qed.

(** A change that touches neither interrupts nor locks. *)
Lemma frame_plain w w' :
  cpu_id w' = cpu_id w /\ cur_vcpu w' = cur_vcpu w /\ cpu_num w' = cpu_num w ->
  gframe (wgic w) (wgic w') -> vm_id (wvm w') = vm_id (wvm w) /\ nr_cpus (wvm w') = nr_cpus (wvm w) /\
          cpus (wvm w') = cpus (wvm w) /\ interrupt_bitmap (wvm w') = interrupt_bitmap (wvm w) ->
  int_num (d (wvm w')) = int_num (d (wvm w)) ->
  Forall2 same_vcpu (vcpus (wvm w)) (vcpus (wvm w')) -> (forall r, int_at w' r = int_at w r) ->
  vgic_spilled_lock (wvm w') = vgic_spilled_lock (wvm w) -> d_lock (d (wvm w')) = d_lock (d (wvm w)) ->
  frame None w w'.
Proof.
  intros ????? Hi Hs Hd. split; [done..| | | |].
  - intros r i Hr. exists i. rewrite Hi. split; [done|]. split; [done|]. by apply gap_rel_refl.
  - rewrite Hs. by apply gap_rel_refl.
  - rewrite Hd. by apply gap_rel_refl.
  - intros r. by rewrite Hi.
Qed.

#[export] Instance frame_preorder : PreOrder (frame None).
Proof.
  split.
  - intros w. apply frame_plain; done || reflexivity.
  - intros w1 w2 w3. apply frame_l.
Qed.

Abbreviation K m Q := (keeps wf (frame None) m Q).
Abbreviation Kt m := (keeps wf (frame None) m (fun _ => True)).

(** *** Reading and writing interrupts *)

Lemma get_int_Ok r w i w' : get_int r w = Ok (i, w') <-> int_at w r = Some i /\ w' = w.
Proof.
  unfold get_int, int_at. destruct r as [v k|k]; unfold rd.
  - destruct (Z.ltb_spec v 0); simpl; [naive_solver|].
    destruct (vcpus (wvm w) !! Z.to_nat v) as [c|]; mstep.
    + destruct (Z.ltb_spec k 0); simpl; [naive_solver|].
      destruct (v_ints c !! Z.to_nat k); simpl; naive_solver.
    + destruct (k <? 0); naive_solver.
  - destruct (Z.ltb_spec k 0); simpl; [naive_solver|]. destruct (d_ints (d (wvm w)) !! Z.to_nat k); simpl; naive_solver.
Qed.

(** The world with another interrupt at a place. *)
Definition put_at w (r : intref) (i : vgic_int) : world H :=
  match r with
  | Priv v k =>
      match vcpus (wvm w) !! Z.to_nat v with
      | Some c => set_vm w (set_vcpus (wvm w)
          (<[Z.to_nat v := set_v_ints c (<[Z.to_nat k := i]> (v_ints c))]> (vcpus (wvm w))))
      | None => w
      end
  | Spi k => set_vm w (set_d (wvm w) (set_d_ints (d (wvm w)) (<[Z.to_nat k := i]> (d_ints (d (wvm w))))))
  end.

Lemma put_int_Ok r i w u w' :
  put_int r i w = Ok (u, w') <-> (exists old, int_at w r = Some old) /\ w' = put_at w r i.
Proof.
  destruct u. unfold put_int, int_at, put_at. destruct r as [v k|k]; unfold rd, wr.
  - destruct (Z.ltb_spec v 0); simpl; [naive_solver|].
    destruct (vcpus (wvm w) !! Z.to_nat v) as [c|] eqn:Ev; mstep; [|destruct (k <? 0); naive_solver].
    pose proof (lookup_lt_Some _ _ _ Ev). rewrite (proj2 (Z.leb_le 0 v)) by lia.
    rewrite (proj2 (Z.ltb_lt v _)) by lia. simpl.
    destruct (Z.ltb_spec k 0), (Z.leb_spec 0 k); simpl; try lia; [naive_solver|].
    destruct (Z.ltb_spec k (Z.of_nat (length (v_ints c)))); simpl.
    + assert (is_Some (v_ints c !! Z.to_nat k)) as [o Ho] by (apply lookup_lt_is_Some_2; lia). rewrite Ho.
      split; [intros [= <-]; eauto|intros [_ ->]; done].
    + rewrite (lookup_ge_None_2 (v_ints c)) by lia. naive_solver.
  - destruct (Z.ltb_spec k 0), (Z.leb_spec 0 k); simpl; try lia; [naive_solver|].
    destruct (Z.ltb_spec k (Z.of_nat (length (d_ints (d (wvm w)))))); simpl.
    + assert (is_Some (d_ints (d (wvm w)) !! Z.to_nat k)) as [o Ho] by (apply lookup_lt_is_Some_2; lia).
      rewrite Ho. split; [intros [= <-]; eauto|intros [_ ->]; done].
    + rewrite lookup_ge_None_2 by lia. naive_solver.
Qed.

Lemma int_at_range w r i : int_at w r = Some i ->
  match r with Priv v k => 0 <= v /\ 0 <= k | Spi k => 0 <= k end.
Proof.
  unfold int_at. destruct r as [v k|k].
  - destruct (Z.ltb_spec v 0), (Z.ltb_spec k 0); done.
  - destruct (Z.ltb_spec k 0); done.
Qed.

Lemma put_at_same w r i old : int_at w r = Some old -> int_at (put_at w r i) r = Some i.
Proof.
  unfold int_at, put_at. destruct r as [v k|k].
  - destruct ((v <? 0) || (k <? 0)); [done|]. destruct (vcpus (wvm w) !! Z.to_nat v) as [c|] eqn:Ev; simpl; [|done].
    intros Ho. rewrite list_lookup_insert_eq by (by eapply lookup_lt_Some). simpl.
    rewrite list_lookup_insert_eq; [done|by eapply lookup_lt_Some].
  - destruct (k <? 0); [done|]. intros Ho. simpl. rewrite list_lookup_insert_eq; [done|by eapply lookup_lt_Some].
Qed.

Lemma put_at_other w r i r' old : int_at w r = Some old -> r' ≠ r -> int_at (put_at w r i) r' = int_at w r'.
Proof.
  intros Ho Hne. pose proof (int_at_range _ _ _ Ho) as Hr.
  unfold int_at, put_at in *. destruct r as [v k|k], r' as [v' k'|k'].
  - destruct (vcpus (wvm w) !! Z.to_nat v) as [c|] eqn:Ev; simpl; [|done].
    destruct (Z.ltb_spec v' 0), (Z.ltb_spec k' 0); simpl; try done.
    destruct (decide (v' = v)) as [->|Hv].
    + rewrite list_lookup_insert_eq by (by eapply lookup_lt_Some). rewrite Ev. simpl.
      rewrite list_lookup_insert_ne; [done|]. intros E. apply Hne. f_equal. lia.
    + rewrite list_lookup_insert_ne; [done|]. lia.
  - by destruct (vcpus (wvm w) !! Z.to_nat v).
  - done.
  - simpl. destruct (Z.ltb_spec k' 0); [done|]. rewrite list_lookup_insert_ne; [done|].
    intros E. apply Hne. f_equal. lia.
Qed.

Lemma put_at_vcpus w r i : Forall2 same_vcpu (vcpus (wvm w)) (vcpus (wvm (put_at w r i))).
Proof.
  destruct r as [v k|k]; simpl; [|reflexivity].
  destruct (vcpus (wvm w) !! Z.to_nat v) as [c|] eqn:Ev; [simpl|reflexivity].
  rewrite <- (list_insert_id (vcpus (wvm w)) (Z.to_nat v) c) at 1 by done.
  apply Forall2_insert; [reflexivity|]. split; try done. simpl. apply length_insert.
Qed.

(** Replacing an interrupt by one with the same [hw] flag. *)
Lemma put_at_frame n w r i old :
  wf w -> int_at w r = Some old -> int_ok r i -> i_hw i = i_hw old ->
  gap_rel n (LInt r) (i_lock old) (i_lock i) -> (forall m, n = Some m -> m = LInt r) ->
  wf (put_at w r i) /\ frame n w (put_at w r i).
Proof.
  intros Hwf Ho Hok Hhw Hg Hn.
  assert (forall m l, m ≠ LInt r -> gap_rel n m l l) as Hoth.
  { intros m l Hm. apply gap_rel_refl. intros E. apply Hm. by apply Hn. }
  split.
  - intros r' i'. destruct (decide (r' = r)) as [->|Hne].
    + rewrite (put_at_same _ _ _ _ Ho). by intros [= <-].
    + rewrite (put_at_other _ _ _ _ _ Ho) by done. apply Hwf.
  - split.
    1-4, 7, 8: destruct r as [v k|k]; simpl; [destruct (vcpus (wvm w) !! Z.to_nat v)|];
      first [done|reflexivity|by apply Hoth].
    + apply put_at_vcpus.
    + intros r' i' Hi'. destruct (decide (r' = r)) as [->|Hne].
      * exists i. rewrite (put_at_same _ _ _ _ Ho). assert (i' = old) as -> by congruence. done.
      * exists i'. rewrite (put_at_other _ _ _ _ _ Ho) by done. split; [done|]. split; [done|].
        apply Hoth. congruence.
    + intros r'. destruct (decide (r' = r)) as [->|Hne]; [by eauto|]. by rewrite (put_at_other _ _ _ _ _ Ho).
Qed.

(** *** Primitive steps *)

Lemma K_get_int r : K (get_int r) (int_ok r).
Proof. intros w i w' Hwf [Hi ->]%get_int_Ok. split; [done|]. split; [reflexivity|]. by apply Hwf. Qed.

(** [m] run where the interrupt at [r] is [i]. *)
Definition keeps_at {A} (r : intref) (i : vgic_int) (m : st (world H) A) (Q : A -> Prop) : Prop :=
  forall w a w', wf w -> int_at w r = Some i -> m w = Ok (a, w') -> wf w' /\ frame None w w' /\ Q a.

Lemma K_get_int_at {A} r (f : vgic_int -> st (world H) A) Q :
  (forall i, int_ok r i -> keeps_at r i (f i) Q) -> K (i ← get_int r; f i) Q.
Proof.
  intros Hf w a w' Hwf E. unfold mbind, st_bind in E. destruct (get_int r w) as [[i w1]|] eqn:Ei; [|done].
  apply get_int_Ok in Ei as [Hi ->]. apply (Hf i (Hwf _ _ Hi)); done.
Qed.

Lemma at_K {A} r i (m : st (world H) A) Q : K m Q -> keeps_at r i m Q.
Proof. intros Hm w a w' Hwf _ E. by apply Hm. Qed.

Lemma at_gets {A B} r i (g : world H -> B) (f : B -> st (world H) A) Q :
  (forall b, keeps_at r i (f b) Q) -> keeps_at r i (b ← gets g; f b) Q.
Proof. intros Hf w a w' Hwf Hi E. by apply (Hf (g w)). Qed.

Lemma at_lift {A B} r i (o : outcome B) (f : B -> st (world H) A) Q :
  (forall b, o = Ok b -> keeps_at r i (f b) Q) -> keeps_at r i (b ← lift o; f b) Q.
Proof.
  intros Hf w a w' Hwf Hi E. unfold mbind, st_bind, lift in E. destruct o as [b|]; [|done].
  by apply (Hf b eq_refl).
Qed.

Lemma at_put r i j :
  int_ok r j -> i_hw j = i_hw i -> i_lock j = i_lock i -> keeps_at r i (put_int r j) (fun _ => True).
Proof.
  intros Hj Hh Hl w a w' Hwf Hi [_ ->]%put_int_Ok.
  destruct (put_at_frame None w r j i Hwf Hi Hj Hh) as [? ?]; [rewrite Hl; by apply gap_rel_refl|done|]. done.
Qed.

Lemma at_seq {A B} r i (m : st (world H) A) (f : A -> st (world H) B) Q T :
  keeps_at r i m Q -> (forall a, Q a -> K (f a) T) -> keeps_at r i (m ≫= f) T.
Proof.
  intros Hm Hf w b w' Hwf Hi E. unfold mbind, st_bind in E. destruct (m w) as [[a w1]|] eqn:Em; [|done].
  destruct (Hm w a w1 Hwf Hi Em) as (Hwf1 & F1 & Ha). destruct (Hf a Ha w1 b w' Hwf1 E) as (Hwf2 & F2 & Hb).
  split; [done|]. split; [by etrans|done].
Qed.

(** A field update that keeps the interrupt's place, lock and [hw] flag. *)
Definition update_ok (r : intref) (f : vgic_int -> vgic_int) : Prop :=
  forall i, int_ok r i -> int_ok r (f i) /\ i_hw (f i) = i_hw i /\ i_lock (f i) = i_lock i.

Lemma K_upd_int r f : update_ok r f -> Kt (upd_int r f).
Proof. intros Hf. apply K_get_int_at. intros i Hi. destruct (Hf i Hi) as (? & ? & ?). by apply at_put. Qed.

Lemma K_on_gic {A} (m : st (gic H) A) : keeps (fun _ => True) gframe m (fun _ => True) -> Kt (on_gic m).
Proof.
  intros Hm w a w' Hwf E. unfold on_gic in E. inv_bind E. destruct a0 as [b g]. injection E as <- <-.
  apply Hm in E0 as (_ & Hg & _); [|done]. split; [exact Hwf|]. split; [|done].
  apply frame_plain; done || reflexivity.
Qed.

Lemma K_get_vcpu v : Kt (get_vcpu v).
Proof. intros w a w' Hwf E. unfold get_vcpu in E. inv_bind E. injection E as <- <-. split; [done|]. by split. Qed.

Lemma K_send_msg t msg : Kt (send_msg t msg).
Proof.
  intros w a w' Hwf E. unfold send_msg in E. inv_bind E. injection E as <- <-. split; [exact Hwf|]. split; [|done].
  apply frame_plain; done || reflexivity.
Qed.

Lemma K_on_spilled f : Kt (on_spilled f).
Proof.
  intros w a w' Hwf E. unfold on_spilled in E. inv_bind E. injection E as <- <-. split; [exact Hwf|]. split; [|done].
  apply frame_plain; done || reflexivity.
Qed.

Lemma K_set_CTLR c : Kt (upd_d (fun x => set_d_CTLR x c)).
Proof.
  intros w a w' Hwf [= <- <-]. split; [exact Hwf|]. split; [|done]. apply frame_plain; done || reflexivity.
Qed.

(** Writing back a virtual CPU with other registers. *)
Lemma put_vcpu_frame w v c c' u w' :
  wf w -> rd (vcpus (wvm w)) v = Ok c -> same_vcpu c c' -> v_ints c' = v_ints c ->
  put_vcpu v c' w = Ok (u, w') -> wf w' /\ frame None w w'.
Proof.
  intros Hwf [Hv Hc]%rd_Ok Hs Hi E. unfold put_vcpu in E. pose proof (lookup_lt_Some _ _ _ Hc).
  rewrite wr_Ok in E by lia. injection E as <- <-.
  assert (forall r, int_at (set_vm w (set_vcpus (wvm w) (<[Z.to_nat v := c']> (vcpus (wvm w))))) r = int_at w r) as Hat.
  { intros [v' k|k]; [|done]. simpl. destruct ((v' <? 0) || (k <? 0)) eqn:Eb; [done|].
    destruct (decide (Z.to_nat v' = Z.to_nat v)) as [->|Hne].
    - rewrite list_lookup_insert_eq by lia. rewrite Hc. simpl. by rewrite Hi.
    - by rewrite list_lookup_insert_ne by done. }
  split.
  - intros r i. rewrite Hat. apply Hwf.
  - apply frame_plain; try done; try reflexivity. simpl.
    rewrite <- (list_insert_id (vcpus (wvm w)) (Z.to_nat v) c) at 1 by done.
    by apply Forall2_insert.
Qed.

Lemma K_upd_vcpu {A B} v (F : vcpu -> outcome A) (G : vcpu -> A -> vcpu) (k : st (world H) B) Q :
  (forall c a, F c = Ok a -> same_vcpu c (G c a) /\ v_ints (G c a) = v_ints c) -> K k Q ->
  K (c ← get_vcpu v; a ← lift (F c); put_vcpu v (G c a) ;; k) Q.
Proof.
  intros HG Hk w b w' Hwf E. unfold mbind, st_bind, get_vcpu in E.
  destruct (rd (vcpus (wvm w)) v) as [c|] eqn:Ec; [|done]. mstep. unfold mbind, outcome_bind, lift in E.
  destruct (F c) as [a|] eqn:Ea; [|done]. destruct (put_vcpu v (G c a) w) as [[u w1]|] eqn:Ep; [|done].
  destruct (HG c a Ea) as [Hs Hi]. destruct (put_vcpu_frame _ _ _ _ _ _ Hwf Ec Hs Hi Ep) as [Hwf1 F1].
  destruct (Hk _ _ _ Hwf1 E) as (Hwf2 & F2 & Hb). split; [done|]. split; [by etrans|done].
Qed.

(** *** Locks *)

Abbreviation C n m Q := (keeps wf (frame (Some n)) m Q).

Lemma int_ok_lock r i l : int_ok r i -> int_ok r (set_lock i l).
Proof. by intros []. Qed.

Lemma K_lock_int {B} r (k : st (world H) B) Q : C (LInt r) k Q -> K (lock_int r ;; k) Q.
Proof.
  intros Hk w b w' Hwf E. unfold mbind, st_bind in E. destruct (lock_int r w) as [[[] w1]|] eqn:El; [|done].
  unfold lock_int, mbind, st_bind in El. destruct (get_int r w) as [[i w0]|] eqn:Ei; [|done].
  apply get_int_Ok in Ei as [Hi ->]. unfold lift in El. destruct (spin_lock (i_lock i)) as [l|] eqn:Es; [|done].
  apply put_int_Ok in El as [_ ->].
  assert (wf (put_at w r (set_lock i l))) as Hwf1.
  { intros r' i'. destruct (decide (r' = r)) as [->|Hne].
    - rewrite (put_at_same _ _ _ _ Hi). intros [= <-]. by apply int_ok_lock, Hwf.
    - rewrite (put_at_other _ _ _ _ _ Hi) by done. apply Hwf. }
  destruct (Hk _ _ _ Hwf1 E) as (Hwf2 & [C2 G2 V2 N2 P2 I2 S2 D2 B2] & Hb). split; [done|]. split; [|done].
  pose proof (put_at_vcpus w r (set_lock i l)) as Pw.
  split.
  - destruct r as [v k'|k']; simpl in *; [destruct (vcpus (wvm w) !! Z.to_nat v)|]; done.
  - destruct r as [v k'|k']; simpl in *; [destruct (vcpus (wvm w) !! Z.to_nat v)|]; done.
  - destruct r as [v k'|k']; simpl in *; [destruct (vcpus (wvm w) !! Z.to_nat v)|]; done.
  - destruct r as [v k'|k']; simpl in *; [destruct (vcpus (wvm w) !! Z.to_nat v)|]; done.
  - by etrans.
  - intros r' i' Hi'. destruct (decide (r' = r)) as [->|Hne].
    + assert (i' = i) as -> by congruence. destruct (I2 r (set_lock i l)) as (i2 & Hi2 & Eh & Eg).
      { by eapply put_at_same. }
      exists i2. split; [done|]. split; [done|]. by eapply gap_rel_lock.
    + destruct (I2 r' i') as (i2 & Hi2 & Eh & Eg); [by rewrite (put_at_other _ _ _ _ _ Hi)|].
      exists i2. split; [done|]. split; [done|]. apply gap_rel_None. apply gap_rel_other in Eg; congruence.
  - apply gap_rel_None. apply gap_rel_other in S2; [|done].
    destruct r as [v k'|k']; simpl in *; [destruct (vcpus (wvm w) !! Z.to_nat v)|]; done.
  - apply gap_rel_None. apply gap_rel_other in D2; [|done].
    destruct r as [v k'|k']; simpl in *; [destruct (vcpus (wvm w) !! Z.to_nat v)|]; done.
  - intros r' Hr'. apply B2 in Hr'. destruct (decide (r' = r)) as [->|Hne]; [by eauto|].
    by rewrite (put_at_other _ _ _ _ _ Hi) in Hr'.
Qed.

Lemma C_unlock_int r : C (LInt r) (unlock_int r) (fun _ => True).
Proof.
  intros w a w' Hwf E. unfold unlock_int, upd_int, mbind, st_bind in E.
  destruct (get_int r w) as [[i w0]|] eqn:Ei; [|done]. apply get_int_Ok in Ei as [Hi ->].
  apply put_int_Ok in E as [_ ->].
  destruct (put_at_frame (Some (LInt r)) w r (set_lock i (spin_unlock (i_lock i))) i Hwf Hi) as [? ?]; try done.
  - by apply int_ok_lock, Hwf.
  - apply gap_rel_unlock.
  - congruence.
Qed.

Lemma C_bind {A B} n (m : st (world H) A) (f : A -> st (world H) B) Q T :
  K m Q -> (forall a, Q a -> C n (f a) T) -> C n (m ≫= f) T.
Proof. apply keeps_bind_l. apply frame_l. Qed.

Lemma C_seq {A B} n (m : st (world H) A) (k : st (world H) B) Q T : C n m Q -> K k T -> C n (m ;; k) T.
Proof.
  intros Hm Hk w b w' Hwf E. unfold mbind, st_bind in E. destruct (m w) as [[a w1]|] eqn:Em; [|done].
  destruct (Hm _ _ _ Hwf Em) as (Hwf1 & F1 & _). destruct (Hk _ _ _ Hwf1 E) as (Hwf2 & F2 & Hb).
  split; [done|]. split; [by eapply frame_r|done].
Qed.

Lemma K_lock_spilled {B} (k : st (world H) B) Q : C LSpilled k Q -> K (lock_spilled ;; k) Q.
Proof.
  intros Hk w b w' Hwf E. unfold mbind, st_bind, lock_spilled in E.
  destruct (spin_lock (vgic_spilled_lock (wvm w))) as [l|] eqn:El; [|done]. unfold mbind, outcome_bind in E.
  destruct (Hk (set_vm w (set_spilled (wvm w) (spilled (wvm w)) l)) b w' Hwf E)
    as (Hwf2 & [C2 G2 V2 N2 P2 I2 S2 D2 B2] & Hb).
  split; [done|]. split; [|done]. split; [done..| | | |exact B2].
  - intros r i Hi. destruct (I2 r i Hi) as (i2 & Hi2 & Eh & Eg). exists i2. split; [done|]. split; [done|].
    apply gap_rel_None. by apply gap_rel_other in Eg.
  - by eapply gap_rel_lock.
  - apply gap_rel_None. by apply gap_rel_other in D2.
Qed.

Lemma K_lock_vgicd {B} (k : st (world H) B) Q : C LVgicd k Q -> K (lock_vgicd ;; k) Q.
Proof.
  intros Hk w b w' Hwf E. unfold mbind, st_bind, lock_vgicd in E.
  destruct (spin_lock (d_lock (d (wvm w)))) as [l|] eqn:El; [|done]. unfold mbind, outcome_bind in E.
  destruct (Hk (set_vm w (set_d (wvm w) (set_d_lock (d (wvm w)) l))) b w' Hwf E)
    as (Hwf2 & [C2 G2 V2 N2 P2 I2 S2 D2 B2] & Hb).
  split; [done|]. split; [|done]. split; [done..| | | |exact B2].
  - intros r i Hi. destruct (I2 r i Hi) as (i2 & Hi2 & Eh & Eg). exists i2. split; [done|]. split; [done|].
    apply gap_rel_None. by apply gap_rel_other in Eg.
  - apply gap_rel_None. by apply gap_rel_other in S2.
  - by eapply gap_rel_lock.
Qed.

(** Releasing one of the two locks of the VM. *)
Lemma unlock_frame n w w' :
  n ≠ LSpilled \/ n ≠ LVgicd -> (forall r, n ≠ LInt r) -> cpu_id w' = cpu_id w /\ cur_vcpu w' = cur_vcpu w /\ cpu_num w' = cpu_num w ->
  wgic w' = wgic w -> vm_id (wvm w') = vm_id (wvm w) /\ nr_cpus (wvm w') = nr_cpus (wvm w) /\
          cpus (wvm w') = cpus (wvm w) /\ interrupt_bitmap (wvm w') = interrupt_bitmap (wvm w) ->
  int_num (d (wvm w')) = int_num (d (wvm w)) -> vcpus (wvm w') = vcpus (wvm w) ->
  (forall r, int_at w' r = int_at w r) ->
  gap_rel (Some n) LSpilled (vgic_spilled_lock (wvm w)) (vgic_spilled_lock (wvm w')) ->
  gap_rel (Some n) LVgicd (d_lock (d (wvm w))) (d_lock (d (wvm w'))) ->
  frame (Some n) w w'.
Proof.
  intros _ Hn Hc Hg Hv Hnum Hvs Hi Hs Hd. split; try done.
  - rewrite Hg. reflexivity.
  - rewrite Hvs. reflexivity.
  - intros r i Hr. exists i. rewrite Hi. split; [done|]. split; [done|]. apply gap_rel_refl. intros [= E]. by apply (Hn r).
  - intros r. by rewrite Hi.
Qed.

Lemma C_unlock_spilled : C LSpilled unlock_spilled (fun _ => True).
Proof.
  intros w a w' Hwf [= <- <-]. split; [exact Hwf|]. split; [|done].
  apply unlock_frame; try done; [by right|apply gap_rel_unlock|by apply gap_rel_refl].
Qed.

Lemma C_unlock_vgicd : C LVgicd unlock_vgicd (fun _ => True).
Proof.
  intros w a w' Hwf [= <- <-]. split; [exact Hwf|]. split; [|done].
  apply unlock_frame; try done; [by left|by apply gap_rel_refl|apply gap_rel_unlock].
Qed.

(** *** Composition *)

Lemma K_bind {A B} (m : st (world H) A) (f : A -> st (world H) B) Q T :
  K m Q -> (forall a, Q a -> K (f a) T) -> K (m ≫= f) T.
Proof. apply keeps_bind, _. Qed.

Lemma K_ret {A} (a : A) (Q : A -> Prop) : Q a -> K (mret a) Q.
Proof. apply keeps_ret, _. Qed.

Lemma K_gets {A} (f : world H -> A) : Kt (gets f).
Proof. apply keeps_gets, _. Qed.

Lemma K_lift {A} (o : outcome A) : K (lift o) (fun a => o = Ok a).
Proof. apply keeps_lift, _. Qed.

Lemma K_when (b : bool) (m : st (world H) ()) : Kt m -> Kt (when b m).
Proof. intros Hm. apply keeps_when; [apply _|done]. Qed.

Lemma K_for n i (body : Z -> st (world H) ()) : (forall j, Kt (body j)) -> Kt (for_st n i body).
Proof. intros Hb. apply keeps_for; [apply _|done]. Qed.

Lemma K_True {A} (m : st (world H) A) Q : K m Q -> Kt m.
Proof. intros Hm. by eapply keeps_mono. Qed.
End world.

Create HintDb vgic.
#[export] Hint Resolve K_get_int K_get_vcpu K_send_msg K_on_spilled K_set_CTLR K_gets K_lift K_upd_int : vgic.
#[export] Hint Resolve gkeeps_rdreg gkeeps_wrreg gkeeps_update_field gkeeps_set_trgt : vgic.
#[export] Hint Extern 1 (keeps wf _ (stop _) _) => apply keeps_stop : vgic.
#[export] Hint Extern 1 (keeps wf _ (on_gic _) _) => apply K_on_gic : vgic.

(** Goals [keeps wf (frame n) m Q]: follow the structure of [m]. *)
Ltac kstep :=
  match goal with
  | |- forall _, _ => intro
  | |- keeps _ (frame None) (mbind _ (lock_int _)) _ => apply K_lock_int
  | |- keeps _ (frame None) (mbind _ lock_spilled) _ => apply K_lock_spilled
  | |- keeps _ (frame None) (mbind _ lock_vgicd) _ => apply K_lock_vgicd
  | |- keeps _ (frame (Some _)) (mbind _ (unlock_int _)) _ => eapply C_seq; [apply C_unlock_int|]
  | |- keeps _ (frame (Some _)) (mbind _ unlock_spilled) _ => eapply C_seq; [apply C_unlock_spilled|]
  | |- keeps _ (frame (Some _)) (mbind _ unlock_vgicd) _ => eapply C_seq; [apply C_unlock_vgicd|]
  | |- keeps _ (frame (Some _)) (unlock_int _) _ => apply C_unlock_int
  | |- keeps _ (frame (Some _)) unlock_spilled _ => apply C_unlock_spilled
  | |- keeps _ (frame (Some _)) unlock_vgicd _ => apply C_unlock_vgicd
  | |- keeps _ (frame None) (mret _) _ => by apply K_ret
  | |- keeps _ (frame None) (when _ _) _ => apply K_when
  | |- keeps _ (frame None) (for_st _ _ _) _ => apply K_for
  | |- keeps _ (frame None) (mbind _ _) _ => eapply K_bind; [solve [eauto with vgic]|]
  | |- keeps _ (frame None) (mbind _ ?m) _ => apply (K_bind m _ (fun _ => True))
  | |- keeps _ (frame (Some _)) (mbind _ _) _ => eapply C_bind; [solve [eauto with vgic]|]
  | |- keeps _ (frame (Some ?n)) (mbind _ ?m) _ => apply (C_bind n m _ (fun _ => True))
  | |- keeps _ _ (if ?b then _ else _) _ => destruct b eqn:?
  | |- keeps _ _ (match ?o with _ => _ end) _ => destruct o eqn:?
  | |- keeps _ _ _ _ => solve [eauto with vgic | eapply K_True; eauto with vgic]
  end.
Ltac kauto := repeat kstep.

(** *** Field updates *)

Lemma u8_small x : 0 <= x < 256 -> u8 x = x.
Proof. apply Z.mod_small. Qed.

Ltac upd_ok := intros i []; split; [split; simpl; try done; try apply u8_range|split; done].

Section updates.
Context {r : intref}.

Lemma upd_in_lr b : update_ok r (fun i => set_in_lr i b).
Proof. upd_ok. Qed.
Lemma upd_enabled b : update_ok r (fun i => set_enabled i b).
Proof. upd_ok. Qed.
Lemma upd_targets f : update_ok r (fun i => set_targets i (f i)).
Proof. upd_ok. Qed.
Lemma upd_sgi_pend f : update_ok r (fun i => set_sgi_pend i (f i)).
Proof. upd_ok. Qed.
Lemma upd_prio f : update_ok r (fun i => set_prio i (f i)).
Proof. upd_ok. Qed.
Lemma upd_cfg f : update_ok r (fun i => set_cfg i (f i)).
Proof. upd_ok. Qed.
Lemma upd_lr n : update_ok r (fun i => set_lr i n).
Proof. upd_ok. Qed.

Lemma upd_state f : (forall i, int_ok r i -> 0 <= f i < 4) -> update_ok r (fun i => set_state i (f i)).
Proof.
  intros Hf i Hi. pose proof (Hf i Hi). destruct Hi. split; [split; simpl; try done|split; done].
  rewrite u8_small by lia. done.
Qed.
End updates.

(** ** The driver's operations *)

Section driver.
Context {H : Type} `{GicHw H}.

Abbreviation gkeeps m := (keeps (S := gic H) (fun _ => True) gframe m (fun _ => True)).

Lemma G_bind {A B} (m : st (gic H) A) (f : A -> st (gic H) B) :
  gkeeps m -> (forall a, gkeeps (f a)) -> gkeeps (m ≫= f).
Proof. intros Hm Hf. eapply keeps_bind; [apply _|exact Hm|]. intros a _. apply Hf. Qed.

Lemma G_ret {A} (a : A) : gkeeps (mret a).
Proof. apply keeps_ret; [apply _|done]. Qed.

Lemma G_gets {A} (f : gic H -> A) : gkeeps (gets f).
Proof. apply keeps_gets, _. Qed.

Ltac gauto := repeat first
  [ apply gkeeps_rdreg | apply gkeeps_wrreg | apply gkeeps_update_field | apply G_ret | apply G_gets | apply keeps_stop
  | match goal with
    | |- forall _, _ => intro
    | |- keeps _ _ (mbind _ _) _ => apply G_bind
    | |- keeps _ _ (if ?b then _ else _) _ => destruct b
    end ].

Lemma gkeeps_read_lr i : gkeeps (gich_read_lr i).
Proof. unfold gich_read_lr. gauto. Qed.
Lemma gkeeps_write_lr i v : gkeeps (gich_write_lr i v).
Proof. unfold gich_write_lr. gauto. Qed.
Lemma gkeeps_get_hcr : gkeeps gich_get_hcr.
Proof. apply gkeeps_rdreg. Qed.
Lemma gkeeps_set_hcr v : gkeeps (gich_set_hcr v).
Proof. apply gkeeps_wrreg. Qed.
Lemma gkeeps_get_misr : gkeeps gich_get_misr.
Proof. apply gkeeps_rdreg. Qed.
Lemma gkeeps_get_elrsr : gkeeps gich_get_elrsr.
Proof. unfold gich_get_elrsr. gauto. Qed.
Lemma gkeeps_get_eisr : gkeeps gich_get_eisr.
Proof. unfold gich_get_eisr. gauto. Qed.
Lemma gkeeps_set_act id b : gkeeps (gicd_set_act id b).
Proof. unfold gicd_set_act. gauto. Qed.
Lemma gkeeps_gic_set_act id b : gkeeps (gic_set_act id b).
Proof. apply gkeeps_set_act. Qed.
Lemma gkeeps_set_pend id b : gkeeps (gicd_set_pend id b).
Proof. unfold gicd_set_pend. gauto. Qed.
Lemma gkeeps_set_enable id b : gkeeps (gic_set_enable id b).
Proof. unfold gic_set_enable, gicd_set_enable. gauto. Qed.
Lemma gkeeps_set_icfgr id c : gkeeps (gic_set_icfgr id c).
Proof. apply gkeeps_update_field. Qed.
Lemma gkeeps_set_prio id p : gkeeps (gic_set_prio id p).
Proof. apply gkeeps_update_field. Qed.
End driver.

#[export] Hint Resolve gkeeps_read_lr gkeeps_write_lr gkeeps_get_hcr gkeeps_set_hcr gkeeps_get_misr gkeeps_get_elrsr
  gkeeps_get_eisr gkeeps_set_act gkeeps_gic_set_act gkeeps_set_pend gkeeps_set_enable gkeeps_set_icfgr gkeeps_set_prio : vgic.

(** ** Every operation *)

Lemma GICH_LR_STATE_range lr : 0 <= GICH_LR_STATE lr < 4.
Proof.
  pose proof (u32_range lr). unfold GICH_LR_STATE, bit32_extract.
  rewrite (PRE_extract_div (w := 32)) by (unfold GICH_LR_STATE_OFF, GICH_LR_STATE_LEN; lia).
  apply (Z.mod_pos_bound _ 4). lia.
Qed.

Lemma state_set s f : 0 <= s < 4 -> 0 <= f < 4 -> 0 <= Z.lor s f < 4.
Proof. intros. apply (lor_range 2); lia. Qed.

Lemma state_clear s f : 0 <= s < 4 -> 0 <= f -> 0 <= Z.land s f < 4.
Proof. intros. apply (land_range 2); lia. Qed.

#[export] Hint Resolve upd_in_lr upd_enabled upd_targets upd_sgi_pend upd_prio upd_cfg upd_lr : vgic.

Section ops.
Context {H : Type} `{GicHw H} (VGIC_IPI_ID : Z) (fuel : nat).

Abbreviation K m Q := (keeps (S := world H) wf (frame None) m Q).
Abbreviation Kt m := (keeps (S := world H) wf (frame None) m (fun _ => True)).

Lemma K_upd_owner r o : match r with Priv v _ => o = Some v | Spi _ => True end -> Kt (upd_int r (fun i => set_owner i o)).
Proof. intros Ho. apply K_upd_int. intros i []. split; [split; done|done]. Qed.

Lemma K_upd_state r f : (forall i, int_ok r i -> 0 <= f i < 4) -> Kt (upd_int r (fun i => set_state i (f i))).
Proof. intros Hf. by apply K_upd_int, upd_state. Qed.

Lemma K_vgic_get_int v id g : Kt (vgic_get_int v id g).
Proof. unfold vgic_get_int. kauto. Qed.
Hint Resolve K_vgic_get_int : vgic.

Lemma K_gich_get_lr r : Kt (gich_get_lr r).
Proof. unfold gich_get_lr. kauto. Qed.
Hint Resolve K_gich_get_lr : vgic.

Lemma K_vgic_get_state r : Kt (vgic_get_state r).
Proof. unfold vgic_get_state. kauto. Qed.
Hint Resolve K_vgic_get_state : vgic.

Lemma K_get_ownership v r : Kt (vgic_get_ownership v r).
Proof.
  apply K_get_int_at. intros i Hi. destruct (decide _); [by apply at_K, K_ret|].
  destruct (decide _) as [E|]; [|by apply at_K, K_ret]. eapply at_seq; [|intros ??; by apply K_ret].
  apply at_put; [|done|done]. destruct Hi. split; try done. destruct r; [|done]. congruence.
Qed.
Hint Resolve K_get_ownership : vgic.

Lemma K_yield v r : Kt (vgic_yield_ownership v r).
Proof.
  unfold vgic_yield_ownership. kauto. apply K_upd_owner. destruct r as [v' k|]; [|done].
  match goal with Hok : int_ok _ _, Hn : context [gic_is_priv] |- _ =>
    destruct Hok as [Eid Hr]; unfold gic_is_priv in Hn; rewrite Eid in Hn; simpl in Hn, Hr;
    rewrite (proj2 (Z.ltb_lt k GIC_CPU_PRIV)) in Hn by lia; done end.
Qed.
Hint Resolve K_yield : vgic.

Lemma K_send_to_mask mask msg : Kt (send_to_mask mask msg).
Proof. unfold send_to_mask. kauto. Qed.
Hint Resolve K_send_to_mask : vgic.

Lemma K_send_sgi_msg v mask id : Kt (vgic_send_sgi_msg VGIC_IPI_ID v mask id).
Proof. unfold vgic_send_sgi_msg. kauto. Qed.
Hint Resolve K_send_sgi_msg : vgic.

Lemma K_is_target v r : Kt (vgic_int_vcpu_is_target v r).
Proof. unfold vgic_int_vcpu_is_target. kauto. Qed.
Lemma K_has_other v r : Kt (vgic_int_has_other_target v r).
Proof. unfold vgic_int_has_other_target. kauto. Qed.
Lemma K_ptarget v r : Kt (vgic_int_ptarget_mask v r).
Proof. unfold vgic_int_ptarget_mask. kauto. Qed.
Hint Resolve K_is_target K_has_other K_ptarget : vgic.

Lemma K_evict v r n : Kt (evict_prev v r n).
Proof. unfold evict_prev. kauto. Qed.
Hint Resolve K_evict : vgic.

Lemma lr_update r i p n : int_ok r i -> int_ok r (set_lr (set_in_lr (set_state (set_sgi_pend i p) 0) true) n).
Proof. intros []. split; simpl; try done; try apply u8_range. Qed.

Lemma K_write_lr v r n : Kt (vgic_write_lr v r n).
Proof.
  unfold vgic_write_lr. do 6 kstep. apply K_get_int_at. intros i Hi. destruct (lr_value i _) as [lr pend].
  eapply at_seq; [apply at_put; [by apply lr_update|done|done]|]. intros _ _.
  apply (K_upd_vcpu v (fun c => wr (curr_lrs c) n (i_id i)) (fun c l => set_curr_lrs c l)).
  - intros c l El. split; [|done]. split; try done. simpl. unfold wr in El. destruct (_ && _); [|done].
    injection El as <-. apply length_insert.
  - kauto.
Qed.
Hint Resolve K_write_lr : vgic.

Lemma K_remove_lr v r : Kt (vgic_remove_lr v r).
Proof.
  unfold vgic_remove_lr. kauto; apply K_upd_state; intros; apply GICH_LR_STATE_range.
Qed.
Hint Resolve K_remove_lr : vgic.

Lemma K_add_spilled v r : Kt (vgic_add_spilled v r).
Proof. unfold vgic_add_spilled. kauto. Qed.
Hint Resolve K_add_spilled : vgic.

Lemma K_spill_lr v n : Kt (vgic_spill_lr v n).
Proof. unfold vgic_spill_lr. kauto. Qed.
Hint Resolve K_spill_lr : vgic.

Lemma K_scan_lrs n i c : Kt (scan_lrs n i c).
Proof. revert i c. induction n as [|n IH]; intros i c; simpl; kauto. Qed.
Hint Resolve K_scan_lrs : vgic.

Lemma K_choose_victim r : Kt (choose_victim r).
Proof. unfold choose_victim. kauto. Qed.
Hint Resolve K_choose_victim : vgic.

Lemma K_add_lr v r : Kt (vgic_add_lr v r).
Proof. unfold vgic_add_lr. kauto. Qed.
Hint Resolve K_add_lr : vgic.

Lemma K_route v r : Kt (vgic_route VGIC_IPI_ID v r).
Proof. unfold vgic_route. kauto. Qed.
Hint Resolve K_route : vgic.

Lemma K_update_enable v : Kt (vgic_update_enable v).
Proof. unfold vgic_update_enable. kauto. Qed.
Hint Resolve K_update_enable : vgic.

(** *** Register fields *)

Definition field_ok (h : vgic_reg_handler_info H) : Prop :=
  (forall f v r, read_field h = Some f -> Kt (f v r)) /\
  (forall f v r x, update_field h = Some f -> Kt (f v r x)) /\
  (forall f v r, update_hw h = Some f -> Kt (f v r)).

(** Changing one field of an interrupt just read. *)
Lemma K_change {A} r (f : vgic_int -> vgic_int) (b : vgic_int -> bool) (g : vgic_int -> A) (c : A) :
  update_ok r f -> Kt (i ← get_int r; if b i then put_int r (f i) ;; mret (g i) else mret c).
Proof.
  intros Hf. apply K_get_int_at. intros i Hi. destruct (Hf i Hi) as (? & ? & ?). destruct (b i).
  - eapply at_seq; [by apply at_put|]. intros ??. by apply K_ret.
  - by apply at_K, K_ret.
Qed.

Lemma K_update_int_enable v r b : Kt (vgic_int_update_enable v r b).
Proof.
  unfold vgic_int_update_enable. apply K_get_int_at. intros i Hi. destruct (gic_is_sgi _); [by apply at_K, K_ret|].
  destruct (negb _); [|by apply at_K, K_ret]. eapply at_seq; [|intros ??; by apply K_ret].
  destruct (upd_enabled b i Hi) as (? & ? & ?). by apply at_put.
Qed.

Lemma K_update_int_pend v r b : Kt (vgic_int_update_pend v r b).
Proof.
  unfold vgic_int_update_pend. apply K_get_int_at. intros i Hi. destruct (gic_is_sgi _); [by apply at_K, K_ret|].
  destruct (xorb _ _); [|by apply at_K, K_ret]. eapply at_seq; [|intros ??; by apply K_ret].
  destruct (upd_state (r := r) (fun i => if b then Z.lor (i_state i) PEND else Z.land (i_state i) (not32 PEND))) with (i := i)
    as (? & ? & ?); [|done|by apply at_put].
  intros j []. destruct b; [by apply state_set|by apply state_clear].
Qed.

Lemma K_update_int_act v r b : Kt (vgic_int_update_act v r b).
Proof.
  unfold vgic_int_update_act. apply (K_change r
    (fun i => set_state i (if b then Z.lor (i_state i) ACT else Z.land (i_state i) (not32 ACT)))
    (fun i => xorb b (has (i_state i) ACT)) (fun _ => true)).
  apply upd_state. intros j []. destruct b; [by apply state_set|by apply state_clear].
Qed.
Hint Resolve K_update_int_enable K_update_int_pend K_update_int_act : vgic.

Ltac field_cases := split; [|split]; [intros f v r [= <-]|intros f v r x' [= <-]|intros f v r [= <-]].

Lemma isenabler_ok : field_ok isenabler_info.
Proof.
  field_cases; unfold vgic_int_get_enable, vgic_int_set_enable, vgic_int_enable_hw; kauto.
Qed.
Lemma icenabler_ok : field_ok icenabler_info.
Proof.
  field_cases; unfold vgic_int_get_enable, vgic_int_clear_enable, vgic_int_enable_hw; kauto.
Qed.
Lemma ispendr_ok : field_ok ispendr_info.
Proof. field_cases; unfold vgic_int_get_pend, vgic_int_set_pend, vgic_int_state_hw; kauto. Qed.
Lemma icpendr_ok : field_ok icpendr_info.
Proof. field_cases; unfold vgic_int_get_pend, vgic_int_clear_pend, vgic_int_state_hw; kauto. Qed.
Lemma isactiver_ok : field_ok isactiver_info.
Proof. field_cases; unfold vgic_int_get_act, vgic_int_set_act, vgic_int_state_hw; kauto. Qed.
Lemma iactiver_ok : field_ok iactiver_info.
Proof. field_cases; unfold vgic_int_get_act, vgic_int_clear_act, vgic_int_state_hw; kauto. Qed.

(** An update without a condition. *)
Lemma K_set_field r (f : vgic_int -> vgic_int) (g : vgic_int -> bool) :
  update_ok r f -> Kt (i ← get_int r; put_int r (f i) ;; mret (g i)).
Proof.
  intros Hf. apply K_get_int_at. intros i Hi. destruct (Hf i Hi) as (? & ? & ?).
  eapply at_seq; [by apply at_put|]. intros ??. by apply K_ret.
Qed.

Lemma icfgr_ok : field_ok icfgr_info.
Proof.
  field_cases.
  - unfold vgic_int_get_cfg. kauto.
  - apply (K_set_field r (fun i => set_cfg i x') (fun i => negb (i_cfg i =? x'))), (upd_cfg (fun _ => x')).
  - unfold vgic_int_set_cfg_hw. kauto.
Qed.

Lemma ipriorityr_ok : field_ok ipriorityr_info.
Proof.
  field_cases.
  - unfold vgic_int_get_prio. kauto.
  - apply (K_set_field r (fun i => set_prio i _) (fun i => negb (i_prio i =? x'))), (upd_prio (fun _ => _)).
  - unfold vgic_int_set_prio_hw. kauto.
Qed.

Lemma itargetr_ok : field_ok itargetr_info.
Proof.
  field_cases.
  - unfold vgicd_get_trgt. kauto.
  - unfold vgicd_set_trgt. apply K_get_int_at. intros i Hi. destruct (gic_is_priv _); [by apply at_K, K_ret|].
    apply at_gets. intros m. apply at_lift. intros t _. destruct (upd_targets (fun _ => t) i Hi) as (? & ? & ?).
    eapply at_seq; [by apply at_put|]. intros ??. by apply K_ret.
  - unfold vgicd_set_trgt_hw. kauto.
Qed.

Lemma null_ok fn a : field_ok (HandlerInfo fn a 0 0 0 None None None).
Proof. field_cases. Qed.
Hint Resolve isenabler_ok icenabler_ok ispendr_ok icpendr_ok isactiver_ok iactiver_ok icfgr_ok ipriorityr_ok
  itargetr_ok null_ok : vgic.

Lemma select_ok acc : field_ok (select_handler acc).
Proof.
  unfold select_handler.
  repeat match goal with |- field_ok (if ?b then _ else _) => destruct b; [solve [auto with vgic|apply null_ok]|] end.
  apply null_ok.
Qed.

Lemma table_ok id h : vgic_get_reg_handler_info id = Some h -> field_ok h.
Proof.
  unfold vgic_get_reg_handler_info. destruct (_ <? _); [|done]. intros Hh.
  assert (Forall field_ok reg_handler_info_table) as Ht.
  { unfold reg_handler_info_table. repeat (apply Forall_cons; split; [solve [auto with vgic|apply null_ok]|]). done. }
  by eapply Forall_lookup_1 in Ht.
Qed.

(** *** Accesses and injection *)

Lemma K_call_ptr {F} (f : option F) : K (call_ptr f) (fun g => f = Some g).
Proof. destruct f; [by apply K_ret|apply keeps_stop]. Qed.
Hint Resolve K_call_ptr : vgic.

Lemma K_int_set_field h v r x : field_ok h -> Kt (vgic_int_set_field VGIC_IPI_ID h v r x).
Proof. intros (Hr & Hu & Hh). unfold vgic_int_set_field. kauto. Qed.
Hint Resolve K_int_set_field : vgic.

Lemma K_access_fields acc h g first mask n i val :
  field_ok h -> Kt (access_fields VGIC_IPI_ID acc h g first mask n i val).
Proof.
  intros Hok. revert i val. induction n as [|n IH]; intros i val; simpl; [by apply K_ret|].
  pose proof Hok as (Hr & _). kauto.
Qed.
Hint Resolve K_access_fields : vgic.

Lemma K_vcpu_reg r : Kt (vcpu_reg r).
Proof. unfold vcpu_reg. kauto. Qed.

Lemma K_set_vcpu_reg r x : Kt (set_vcpu_reg r x).
Proof.
  unfold set_vcpu_reg. kstep. do 2 kstep.
  assert (Kt (c ← get_vcpu a; c' ← lift (vcpu_writereg c r x); put_vcpu a c' ;; mret ())) as Hk.
  { apply (K_upd_vcpu a (fun c => vcpu_writereg c r x) (fun _ c' => c')); [|by apply K_ret].
    intros c c' E. unfold vcpu_writereg in E. destruct (30 <? r); [by injection E as <-|].
    inv_bind E. injection E as <-. split; [|done]. split; try done. simpl. unfold wr in E0.
    destruct (_ && _); [|done]. injection E0 as <-. apply length_insert. }
  intros w u w' Hwf E. apply (Hk w () w' Hwf). destruct u. unfold mbind, st_bind in *.
  destruct (get_vcpu a w) as [[c w1]|]; [|done]. destruct (lift _ w1) as [[c' w2]|]; [|done]. by rewrite E.
Qed.
Hint Resolve K_vcpu_reg K_set_vcpu_reg : vgic.

Lemma K_broadcast msg : Kt (vm_broadcast fuel msg).
Proof.
  intros w a w' Hwf E. unfold vm_broadcast in E. inv_bind E. injection E as <- <-.
  split; [exact Hwf|]. split; [|done]. apply frame_plain; done || reflexivity.
Qed.
Hint Resolve K_broadcast : vgic.

Lemma K_reg_access acc h b g : field_ok h -> Kt (call_reg_access VGIC_IPI_ID fuel acc h b g).
Proof.
  intros Hok. unfold call_reg_access, vgic_emul_generic_access, vgicd_emul_misc_access, vgicd_emul_pidr_access,
    vgicd_emul_sgiregs_access, vgic_emul_razwi. kauto.
Qed.
Hint Resolve K_reg_access : vgic.

Lemma K_emul_handler acc : Kt (vgicd_emul_handler VGIC_IPI_ID fuel acc).
Proof. pose proof (select_ok acc). unfold vgicd_emul_handler. kauto. Qed.

Lemma K_deref p : K (deref p) (fun r => p = Some r).
Proof. destruct p; [by apply K_ret|apply keeps_stop]. Qed.
Hint Resolve K_deref : vgic.

(** A private interrupt is looked up on the virtual CPU whose number is asked for. *)
Lemma vgic_get_int_own v id (w : world H) p w' :
  (c ← get_vcpu v; vgic_get_int v id (v_id c)) w = Ok (p, w') ->
  w' = w /\ match p with Some (Priv v' _) => v' = v | _ => True end.
Proof.
  unfold mbind, st_bind, get_vcpu, vgic_get_int. destruct (rd _ v) as [c|] eqn:Ec; [|done]. mstep.
  unfold mbind, st_bind, gets. destruct (id <? GIC_CPU_PRIV).
  - unfold get_vcpu. rewrite Ec. mstep. rewrite Z.eqb_refl. by intros [= <- <-].
  - destruct (_ <? _); by intros [= <- <-].
Qed.

Lemma K_inject_hw v id : Kt (vgic_inject_hw v id).
Proof.
  unfold vgic_inject_hw. intros w a w' Hwf E.
  assert ((p ← (c ← get_vcpu v; vgic_get_int v id (v_id c)); r ← deref p; lock_int r ;;
    upd_int r (fun i => set_in_lr (set_state (set_owner i (Some v)) PEND) false) ;;
    _ ← vgic_add_lr v r; unlock_int r) w = Ok (a, w')) as E'.
  { rewrite <- E. unfold mbind, st_bind. by destruct (get_vcpu v w) as [[]|]. }
  clear E. rename E' into E. unfold mbind at 1, st_bind at 1 in E.
  destruct ((c ← get_vcpu v; vgic_get_int v id (v_id c)) w) as [[p w1]|] eqn:Ep; [|done].
  apply vgic_get_int_own in Ep as [-> Hp]. revert w a w' Hwf E.
  change (Kt (r ← deref p; lock_int r ;; upd_int r (fun i => set_in_lr (set_state (set_owner i (Some v)) PEND) false) ;;
    _ ← vgic_add_lr v r; unlock_int r)).
  eapply K_bind; [apply K_deref|]. intros r ->. apply K_lock_int.
  eapply C_bind; [apply K_upd_int|].
  - intros i []. split; [|done]. split; try done. destruct r as [v' k|]; [by simpl; subst|done].
  - kauto.
Qed.
Hint Resolve K_inject_hw : vgic.

Lemma K_inject_sgi v r s : Kt (vgic_inject_sgi v r s).
Proof.
  unfold vgic_inject_sgi. kauto; apply K_upd_state; intros i []; [by apply state_set|by apply state_clear].
Qed.
Hint Resolve K_inject_sgi : vgic.

Lemma K_inject v id s : Kt (vgic_inject VGIC_IPI_ID v id s).
Proof. unfold vgic_inject. kauto. Qed.
Hint Resolve K_inject : vgic.

Lemma K_ipi_handler e x : Kt (vgic_ipi_handler VGIC_IPI_ID e x).
Proof. pose proof table_ok. unfold vgic_ipi_handler. kauto. Qed.

(** *** The maintenance interrupt *)

Lemma K_iter {A} (body : snode -> A * world H -> outcome (A * world H * bool)) (m : gmap snode (link snode)) h :
  (forall k a w a' w' b, wf w -> body k (a, w) = Ok (a', w', b) -> wf w' /\ frame None w w') ->
  forall n p a w a' w', wf w -> list_iter n m h p body (a, w) = Ok (a', w') -> wf w' /\ frame None w w'.
Proof.
  intros Hb. induction n as [|n IH]; intros p a w a' w' Hwf E; [done|]. simpl in E.
  destruct p as [k|]; [|done]. destruct (decide _); [injection E as <- <-; split; [done|reflexivity]|].
  inv_bind E. destruct a0 as [[a1 w1] b]. destruct (Hb _ _ _ _ _ _ Hwf E0) as [Hwf1 F1].
  destruct b; [injection E as <- <-; done|]. destruct (IH _ _ _ _ _ Hwf1 E) as [Hwf2 F2].
  split; [done|by etrans].
Qed.

Lemma K_better flags l k a (w : world H) a' w' b :
  wf w -> better_spilled flags l k (a, w) = Ok (a', w', b) -> wf w' /\ frame None w w'.
Proof.
  intros Hwf E. unfold better_spilled in E. destruct k as [| |t]; [done..|]. inv_bind E. destruct a0 as [s w1].
  destruct (K_vgic_get_state t w s w1 Hwf E0) as (Hwf1 & F1 & _).
  destruct (_ =? 0); [by injection E as <- <- <-|]. inv_bind E. destruct a0 as [ti w2].
  apply get_int_Ok in E1 as [_ ->]. inv_bind E. destruct a0 as [[pr idn] w3].
  assert (w3 = w1) as ->.
  { destruct a as [[r ?]|]; [|by injection E1 as <- <- <-]. inv_bind E1. destruct a as [j w4].
    injection E1 as <- <- <-. by apply get_int_Ok in E2 as [_ ->]. }
  destruct (_ || _); by injection E as <- <- <-.
Qed.

Lemma K_highest v flags : Kt (vgic_highest_prio_spilled fuel v flags).
Proof.
  intros w a w' Hwf E. unfold vgic_highest_prio_spilled in E. inv_bind E. destruct a0 as [a1 w1].
  unfold list_for_each_entry in E0, E. inv_bind E0. inv_bind E.
  destruct (K_iter _ _ _ (K_better flags (SVcpu v)) _ _ _ _ _ _ Hwf E0) as [Hwf1 F1].
  destruct (K_iter _ _ _ (K_better flags SVm) _ _ _ _ _ _ Hwf1 E) as [Hwf2 F2].
  split; [done|]. split; [by etrans|done].
Qed.
Hint Resolve K_highest : vgic.

Lemma K_find_lr x : Kt (find_lr x).
Proof. unfold find_lr. kauto. Qed.
Hint Resolve K_find_lr : vgic.

Lemma K_refill_loop k v n flags : Kt (refill_loop fuel k v n flags).
Proof. revert n flags. induction k as [|k IH]; intros n flags; simpl; kauto. Qed.
Hint Resolve K_refill_loop : vgic.

Lemma K_refill v b : Kt (vgic_refill_lrs fuel v b).
Proof. unfold vgic_refill_lrs. kauto. Qed.

Lemma K_eoir v : Kt (vgic_eoir_highest_spilled_active fuel v).
Proof.
  unfold vgic_eoir_highest_spilled_active. kauto; apply K_upd_state; intros j []; by apply state_clear.
Qed.

Lemma K_trapped_loop k v n : Kt (trapped_eoir_loop k v n).
Proof. revert n. induction k as [|k IH]; intros n; simpl; kauto. Qed.
Hint Resolve K_refill K_eoir K_trapped_loop : vgic.

Lemma K_trapped v : Kt (vgic_handle_trapped_eoir fuel v).
Proof. unfold vgic_handle_trapped_eoir. kauto. Qed.

Lemma K_eoicount k v x : Kt (eoicount_loop fuel k v x).
Proof. revert x. induction k as [|k IH]; intros x; simpl; kauto. Qed.
Hint Resolve K_trapped K_eoicount : vgic.

Lemma K_maintenance id : Kt (gic_maintenance_handler fuel id).
Proof. unfold gic_maintenance_handler. kauto. Qed.

(** ** The transition system *)

(** What the rest of the hypervisor calls at run time, on the active virtual CPU. *)
Inductive entry :=
| EEmul (acc : emul_access)
| EInjectHw (id : Z)
| EInject (id source : Z)
| EIpi (event data : Z)
| EMaintenance (irq_id : Z).

Definition run (e : entry) : st (world H) () :=
  v ← gets cur_vcpu;
  match e with
  | EEmul acc => _ ← vgicd_emul_handler VGIC_IPI_ID fuel acc; mret ()
  | EInjectHw id => vgic_inject_hw v id
  | EInject id source => vgic_inject VGIC_IPI_ID v id source
  | EIpi event data => vgic_ipi_handler VGIC_IPI_ID event data
  | EMaintenance irq_id => gic_maintenance_handler fuel irq_id
  end.

Lemma K_run e : Kt (run e).
Proof.
  pose proof K_emul_handler. pose proof K_ipi_handler. pose proof K_maintenance.
  unfold run. destruct e; kauto.
Qed.

(** Between two calls the guest runs: the interrupt controller's registers and
    the active virtual CPU's registers change. *)
Inductive vstep : world H -> world H -> Prop :=
| vs_call e w w' : run e w = Ok ((), w') -> vstep w w'
| vs_hw w h : vstep w (set_gic w (Gic h (gicd_lock (wgic w)) (gic_cpu_map (wgic w)) (NUM_LRS (wgic w))))
| vs_guest w v c l :
    vcpus (wvm w) !! v = Some c -> length l = length (x c) ->
    vstep w (set_vm w (set_vcpus (wvm w) (<[v := set_x c l]> (vcpus (wvm w))))).

Lemma vstep_keeps w w' : wf w -> vstep w w' -> wf w' /\ frame None w w'.
Proof.
  intros Hwf Hs. destruct Hs as [e w w' E|w h|w v c l Hc Hl].
  - by destruct (K_run e _ _ _ Hwf E) as (? & ? & _).
  - split; [exact Hwf|]. apply frame_plain; done || reflexivity.
  - apply (put_vcpu_frame w (Z.of_nat v) c (set_x c l) () _ Hwf); try done.
    + apply rd_Ok. split; [lia|]. by rewrite Nat2Z.id.
    + unfold put_vcpu. pose proof (lookup_lt_Some _ _ _ Hc). rewrite wr_Ok by lia. by rewrite Nat2Z.id.
Qed.

(** Nobody holds or waits for a lock of the controller. *)
Definition all_free (w : world H) : Prop :=
  (forall r i, int_at w r = Some i -> gap (i_lock i) = 0) /\ gap (vgic_spilled_lock (wvm w)) = 0 /\
  gap (d_lock (d (wvm w))) = 0 /\ gap (gicd_lock (wgic w)) = 0.
End ops.

Lemma frame_all_free {H} `{GicHw H} (w w' : world H) : frame None w w' -> all_free w -> all_free w'.
Proof.
  intros [_ G _ _ _ I S D B] (Hi & Hs & Hd & Hg). split_and!.
  - intros r i' Hi'. destruct (B r (mk_is_Some _ _ Hi')) as [i Hr]. destruct (I r i Hr) as (j & Hj & _ & Eg).
    assert (j = i') as -> by congruence. apply gap_rel_None in Eg. rewrite Eg. by eapply Hi.
  - apply gap_rel_None in S. congruence.
  - apply gap_rel_None in D. congruence.
  - destruct G as [_ _ Gl]. congruence.
Qed.

(** *** Giving interrupts to the VM

    [vgic_set_hw] runs while a VM is set up; it changes the one member of an
    interrupt that nothing at run time touches. *)

Section set_hw.
Context {H : Type} `{GicHw H}.
Implicit Type w : world H.

Definition good w : Prop := wf w /\ all_free w.

Record keepv w w' : Prop := {
  kv_vcpus : Forall2 same_vcpu (vcpus (wvm w)) (vcpus (wvm w'));
  kv_cpus : cpus (wvm w') = cpus (wvm w);
  kv_nr : nr_cpus (wvm w') = nr_cpus (wvm w);
}.

#[export] Instance keepv_preorder : PreOrder keepv.
Proof.
  split; [intros w; split; done || reflexivity|]. intros a b c [A1 A2 A3] [B1 B2 B3]. split; [by etrans|congruence..].
Qed.

Lemma frame_keepv w w' : frame None w w' -> keepv w w'.
Proof. intros [_ _ (_ & Hn & Hc & _) _ Hv _ _ _ _]. by split. Qed.

Lemma put_at_twice w r i j old : int_at w r = Some old -> put_at (put_at w r i) r j = put_at w r j.
Proof.
  intros Ho. pose proof (int_at_range _ _ _ Ho) as Hr. unfold int_at in Ho. unfold put_at. destruct r as [v k|k].
  - destruct ((v <? 0) || (k <? 0)); [done|]. destruct (vcpus (wvm w) !! Z.to_nat v) as [c|] eqn:Ec; [|done].
    cbn [wvm set_vm vcpus set_vcpus]. rewrite list_lookup_insert_eq by (by eapply lookup_lt_Some).
    unfold set_vm, set_vcpus. cbn. by rewrite !list_insert_insert_eq.
  - unfold set_vm, set_d, set_d_ints. cbn. by rewrite list_insert_insert_eq.
Qed.

Lemma put_at_good w r j old : good w -> int_at w r = Some old -> int_ok r j -> gap (i_lock j) = 0 ->
  good (put_at w r j) /\ keepv w (put_at w r j).
Proof.
  intros [Hwf Hf] Ho Hj Hg. pose proof (put_at_frame None w r (set_ihw j (i_hw old)) old Hwf Ho) as HF.
  destruct HF as [Hwf' F]; [by destruct Hj; split|done| |done|].
  { apply gap_rel_None. cbn. rewrite Hg. symmetry. by apply (proj1 Hf r). }
  rewrite <- (put_at_twice w r (set_ihw j (i_hw old)) j old Ho). set (w1 := put_at w r _) in *.
  assert (int_at w1 r = Some (set_ihw j (i_hw old))) as H1 by (by eapply put_at_same).
  pose proof (frame_all_free _ _ F Hf) as (F1 & F2 & F3 & F4). split.
  - split.
    + intros r' i'. destruct (decide (r' = r)) as [->|Hne].
      * rewrite (put_at_same _ _ _ _ H1). by intros [= <-].
      * rewrite (put_at_other _ _ _ _ _ H1) by done. apply Hwf'.
    + split_and!.
      * intros r' i'. destruct (decide (r' = r)) as [->|Hne].
        { rewrite (put_at_same _ _ _ _ H1). by intros [= <-]. }
        rewrite (put_at_other _ _ _ _ _ H1) by done. apply F1.
      * destruct r as [v k|k]; cbn [put_at]; [destruct (vcpus (wvm w1) !! Z.to_nat v)|]; exact F2.
      * destruct r as [v k|k]; cbn [put_at]; [destruct (vcpus (wvm w1) !! Z.to_nat v)|]; exact F3.
      * destruct r as [v k|k]; cbn [put_at]; [destruct (vcpus (wvm w1) !! Z.to_nat v)|]; exact F4.
  - transitivity w1; [by apply frame_keepv|]. split; [apply put_at_vcpus| |].
    + destruct r as [v k|k]; cbn [put_at]; [by destruct (vcpus (wvm w1) !! Z.to_nat v)|done].
    + destruct r as [v k|k]; cbn [put_at]; [by destruct (vcpus (wvm w1) !! Z.to_nat v)|done].
Qed.

Abbreviation G m := (keeps good keepv m (fun _ => True)).

Lemma G_set_hw_flag p : G (set_hw_flag p).
Proof.
  intros w [] w' Hg E. destruct p as [r|]; [|by injection E as <-].
  unfold set_hw_flag, lock_int, unlock_int, upd_int, mbind, st_bind in E.
  destruct (get_int r w) as [[i w1]|] eqn:E1; [|done]. apply get_int_Ok in E1 as [Hi ->].
  unfold lift in E. destruct (spin_lock (i_lock i)) as [k|] eqn:Ek; [|done].
  rewrite (proj2 (put_int_Ok r _ w () _) (conj (ex_intro _ _ Hi) eq_refl)) in E.
  set (i1 := set_lock i k) in *. assert (int_at (put_at w r i1) r = Some i1) as H1 by (by eapply put_at_same).
  rewrite (proj2 (get_int_Ok r _ _ _) (conj H1 eq_refl)) in E.
  rewrite (proj2 (put_int_Ok r _ _ () _) (conj (ex_intro _ _ H1) eq_refl)) in E. rewrite (put_at_twice _ _ _ _ _ Hi) in E.
  set (i2 := set_ihw i1 true) in *. assert (int_at (put_at w r i2) r = Some i2) as H2 by (by eapply put_at_same).
  rewrite (proj2 (get_int_Ok r _ _ _) (conj H2 eq_refl)) in E.
  rewrite (proj2 (put_int_Ok r _ _ () _) (conj (ex_intro _ _ H2) eq_refl)) in E. rewrite (put_at_twice _ _ _ _ _ Hi) in E.
  injection E as <-. destruct Hg as [Hwf Hf]. pose proof (Hwf r i Hi) as Hok.
  destruct (put_at_good w r (set_lock i2 (spin_unlock (i_lock i2))) i (conj Hwf Hf) Hi) as [? ?]; [by destruct Hok; split| |done].
  cbn. rewrite (gap_cycle (i_lock i) k k Ek eq_refl). by apply (proj1 Hf r).
Qed.

Lemma vgic_get_int_same v id u w p w' : vgic_get_int v id u w = Ok (p, w') -> w' = w.
Proof.
  unfold vgic_get_int, mbind, st_bind, gets, get_vcpu. destruct (id <? GIC_CPU_PRIV).
  - destruct (rd _ v) as [c|]; [|done]. mstep. destruct (_ =? _); [by intros [= _ <-]|].
    destruct (vm_get_vcpu _ _); [|done]. by intros [= _ <-].
  - destruct (_ <? _); by intros [= _ <-].
Qed.

Lemma G_set_hw id : G (vgic_set_hw id).
Proof.
  assert (forall v u, G (p ← vgic_get_int v id u; set_hw_flag p)) as Hp.
  { intros v u w a w' Hg E. unfold mbind, st_bind in E. destruct (vgic_get_int v id u w) as [[p w1]|] eqn:Ep; [|done].
    apply vgic_get_int_same in Ep as ->. by apply (G_set_hw_flag p) in E. }
  unfold vgic_set_hw. destruct (id <? GIC_MAX_SGIS); [by apply keeps_ret; [apply _|]|].
  apply (keeps_bind _ _ _ _ (fun _ => True)); [apply keeps_gets; apply _|]. intros m _. destruct (id <? GIC_CPU_PRIV).
  - apply keeps_for; [apply _|]. intros j _. apply Hp.
  - apply (keeps_bind _ _ _ _ (fun _ => True)); [|intros; apply Hp].
    intros w a w' Hg E. unfold get_vcpu in E. inv_bind E. by injection E as <- <-.
Qed.
End set_hw.

(** The calls of the run time and of the set-up, in any order. *)
Inductive vcall {H} `{GicHw H} (ipi : Z) (fuel : nat) (w w' : world H) : Prop :=
| vc_run : vstep ipi fuel w w' -> vcall ipi fuel w w'
| vc_set_hw id : vgic_set_hw id w = Ok ((), w') -> vcall ipi fuel w w'.

Lemma vcall_good {H} `{GicHw H} ipi fuel (w w' : world H) : good w -> vcall ipi fuel w w' -> good w'.
Proof.
  intros [Hwf Hf] [Hs|id E].
  - destruct (vstep_keeps _ _ _ _ Hwf Hs) as [Hwf' F]. split; [done|]. by eapply frame_all_free.
  - by apply G_set_hw in E as (? & _).
Qed.

(** *** Worlds just set up *)

(** A VM as [vgic_init] and [vgic_cpu_init] leave it: virtual CPU [v] on CPU
    [v], [32 * (itln + 1)] shared interrupts. *)
Definition blank : vgic_int := VgicInt None SPINLOCK_INITVAL 0 0 0 0 0 0 0 false false false.

Definition fresh_vcpu (v : Z) : vcpu :=
  Vcpu v v (replicate 31 0) 0 0 0 v (replicate 64 0)
    ((fun i => let x := init_priv v i blank in if i <? GIC_MAX_SGIS then set_enabled x true else x)
       <$> seqZ 0 GIC_CPU_PRIV).

Definition fresh_vm (ncpus nints : Z) : vm :=
  Vm 1 (fresh_vcpu <$> seqZ 0 ncpus) ncpus (2 ^ ncpus - 1) 0 SPINLOCK_INITVAL
    (Vgicd ((fun i => init_spi i blank) <$> seqZ 0 nints) SPINLOCK_INITVAL nints 1 0 0)
    (list_to_map ((SVm, Link (Some SVm) (Some SVm)) ::
       ((fun v => (SVcpu v, Link (Some (SVcpu v)) (Some (SVcpu v)))) <$> seqZ 0 ncpus)))
    SPINLOCK_INITVAL [] [] (replicate 32 0).

Definition fresh_world {H} (g : gic H) (s : Msg.msgsys) (ncpus nints v : Z) : world H :=
  World v v ncpus (fresh_vm ncpus nints) g s.

Lemma seqZ_lookup_to_nat lo n k x : 0 <= k -> seqZ lo n !! Z.to_nat k = Some x -> x = lo + k /\ 0 <= k < n.
Proof. intros Hk [-> Hl]%lookup_seqZ. lia. Qed.

Lemma fresh_int_at {H} (g : gic H) s ncpus nints v r i : int_at (fresh_world g s ncpus nints v) r = Some i ->
  match r with
  | Priv v' k => 0 <= v' < ncpus /\ 0 <= k < GIC_CPU_PRIV /\
                 i = (let x := init_priv v' k blank in if k <? GIC_MAX_SGIS then set_enabled x true else x)
  | Spi k => 0 <= k < nints /\ i = init_spi k blank
  end.
Proof.
  intros Hi. pose proof (int_at_range _ _ _ Hi) as Hr. unfold int_at in Hi. destruct r as [v' k|k].
  - destruct ((v' <? 0) || (k <? 0)); [done|]. cbn [wvm fresh_world vcpus fresh_vm] in Hi. rewrite list_lookup_fmap in Hi.
    destruct (seqZ 0 ncpus !! Z.to_nat v') as [v''|] eqn:Ev; [|done]. apply seqZ_lookup_to_nat in Ev as [-> Hv]; [|lia].
    cbn [fmap option_fmap option_map mbind option_bind fresh_vcpu v_ints] in Hi. rewrite list_lookup_fmap in Hi.
    destruct (seqZ 0 GIC_CPU_PRIV !! Z.to_nat k) as [k'|] eqn:Ek; [|done]. apply seqZ_lookup_to_nat in Ek as [-> Hk]; [|lia].
    simpl in Hi. injection Hi as <-. done.
  - destruct (k <? 0); [done|]. cbn [wvm fresh_world d fresh_vm d_ints] in Hi. rewrite list_lookup_fmap in Hi.
    destruct (seqZ 0 nints !! Z.to_nat k) as [k'|] eqn:Ek; [|done]. apply seqZ_lookup_to_nat in Ek as [-> Hk]; [|lia].
    simpl in Hi. injection Hi as <-. done.
Qed.

Lemma fresh_wf {H} (g : gic H) s ncpus nints v : 0 <= nints < 2 ^ 63 -> wf (fresh_world g s ncpus nints v).
Proof.
  intros Hn r i Hi. apply fresh_int_at in Hi. destruct r as [v' k|k].
  - destruct Hi as (Hv & Hk & ->). simpl. destruct (k <? GIC_MAX_SGIS); by split.
  - destruct Hi as [Hk ->]. unfold init_spi. split; simpl; try done; [|lia].
    unfold GIC_CPU_PRIV, GIC_MAX_SGIS, GIC_MAX_PPIS. rewrite u64_small by lia. done.
Qed.

Lemma fresh_all_free {H} (g : gic H) s ncpus nints v :
  unlocked (gicd_lock g) -> all_free (fresh_world g s ncpus nints v).
Proof.
  intros Hg. split_and!; [|done|done|by apply unlocked_gap].
  intros r i Hi. apply fresh_int_at in Hi. destruct r as [v' k|k].
  - destruct Hi as (Hv & Hk & ->). simpl. by destruct (k <? GIC_MAX_SGIS).
  - by destruct Hi as [Hk ->].
Qed.

(** ** The property *)

(** C4: whatever the guest does and whatever the hypervisor calls, in any order and number
    (the emulation of the distributor, the injection of a hardware or a software
    interrupt, the handlers of messages and of maintenance interrupts, and
    [vgic_set_hw]), the controller stays well-formed: every interrupt is at the
    place its number says, its fields stay in their types' ranges, private
    interrupts stay with their virtual CPU, and no call that returns leaves a
    lock taken. *)
Theorem vgic_invariant {H} `{GicHw H} (ipi : Z) (fuel : nat) (w w' : world H) :
  wf w -> all_free w -> rtc (vcall ipi fuel) w w' -> wf w' /\ all_free w'.
Proof.
  intros Hwf Hf Hs. assert (good w) as Hg by done. clear Hwf Hf. induction Hs as [w|w1 w2 w3 H1 _ IH]; [done|].
  apply IH. by eapply vcall_good.
Qed.

Lemma demo_gic_unlocked : unlocked (gicd_lock demo_gic).
Proof. by split. Qed.

Definition demo_world : world regfile := fresh_world demo_gic Msg.demo_sys 2 64 0.

(** The guest enables interrupt 40 in the distributor and the device raises it. *)
Definition enable_40 : emul_access := EmulAccess 0x104 true false 4 0 0 false 8.
Definition guest_sets_x0 (v : Z) : world regfile :=
  set_vm demo_world (set_vcpus (wvm demo_world) (<[0%nat := set_x (fresh_vcpu 0) (v :: replicate 30 0)]> (vcpus (wvm demo_world)))).

(** What a run ends in, as a test that evaluates. *)
Definition ends_in {A B} (o : outcome (A * B)) (p : B -> bool) : bool :=
  match o with Ok (_, w) => p w | Halt _ => false end.

Lemma ends_in_Ok {B} (o : outcome (() * B)) p : ends_in o p = true -> exists w, o = Ok ((), w) /\ p w = true.
Proof. destruct o as [[[] w]|]; [eauto|done]. Qed.

(** The set-up marks interrupt 40 as the device's, the guest enables it, and it is raised. *)
Lemma vgic_invariant_witness :
  exists w', rtc (vcall 0 100) demo_world w' /\ wf w' /\ all_free w' /\
    match int_at w' (Spi 8) with Some i => enabled i && in_lr i && i_hw i | None => false end = true.
Proof.
  destruct (ends_in_Ok (run 0 100 (EEmul enable_40) (guest_sets_x0 0x100)) (fun w1 =>
    ends_in (vgic_set_hw 40 w1) (fun w2 =>
    ends_in (run 0 100 (EInjectHw 40) w2) (fun w3 =>
      match int_at w3 (Spi 8) with Some i => enabled i && in_lr i && i_hw i | None => false end))))
    as (w1 & E1 & (w2 & E2 & (w3 & E3 & Hi)%ends_in_Ok)%ends_in_Ok); [vm_compute; reflexivity|].
  exists w3. assert (rtc (vcall 0 100) demo_world w3) as Hs.
  { eapply rtc_l; [apply vc_run, (vs_guest _ _ demo_world 0 (fresh_vcpu 0) (0x100 :: replicate 30 0)); done|].
    eapply rtc_l; [by eapply vc_run, vs_call|]. eapply rtc_l; [by eapply vc_set_hw|]. eapply rtc_l; [by eapply vc_run, vs_call|]. apply rtc_refl. }
  destruct (vgic_invariant 0 100 demo_world w3) as [Hwf Hf];
    [apply fresh_wf; lia|apply fresh_all_free; apply demo_gic_unlocked|exact Hs|].
  exact (conj Hs (conj Hwf (conj Hf Hi))).
Defined.
