(* ===== verification/VgicLr.v ===== *)
(** List registers: what [vgic_write_lr] writes, [vgic_remove_lr] reads back, and
    what an injected interrupt looks like to the guest. *)

From S2P Require Import Prelude Bit Bitmap Spinlock PhysMem Objpool Mem PageTable Mmu Dlist Cpu Gic Vm Vgic VgicInv.

(** ** Bit fields *)

(** The field of [len] bits at [off]. *)
Definition ext (off len x : Z) : Z := x / 2 ^ off mod 2 ^ len.

Lemma ext_testbit off len x i : 0 <= off -> 0 <= len -> 0 <= i ->
  Z.testbit (ext off len x) i = (i <? len) && Z.testbit x (i + off).
Proof.
  intros Ho Hl Hi. unfold ext. rewrite <- Z.shiftr_div_pow2 by done. destruct (Z.ltb_spec i len).
  - rewrite Z.mod_pow2_bits_low, Z.shiftr_spec by lia. done.
  - by rewrite Z.mod_pow2_bits_high by lia.
Qed.

Lemma ext_lor off len x y : 0 <= off -> 0 <= len -> ext off len (Z.lor x y) = Z.lor (ext off len x) (ext off len y).
Proof.
  intros Ho Hl. apply Z.bits_inj'. intros i Hi. rewrite Z.lor_spec, !ext_testbit, Z.lor_spec by done.
  by destruct (i <? len).
Qed.

Lemma ext_range off len x : 0 <= len -> 0 <= ext off len x < 2 ^ len.
Proof. intros. apply Z.mod_pos_bound. lia. Qed.

(** A value placed in a field of a list register. *)
Definition placed (x off len : Z) : Z := Z.land (lsl32 x off) (BIT32_MASK off len).

Lemma placed_testbit x off len i : 0 <= off -> 1 <= len -> off + len <= 32 -> 0 <= i ->
  Z.testbit (placed x off len) i = (off <=? i) && (i <? off + len) && Z.testbit x (i - off).
Proof.
  intros Ho Hl Hle Hi. unfold placed. rewrite Z.land_spec. destruct (Z.ltb_spec i 32).
  - rewrite testbit_lsl32, BIT32_MASK_testbit by lia. rewrite (proj2 (Z.ltb_lt i 32)) by lia. simpl.
    apply andb_comm.
  - rewrite (testbit_small (lsl32 x off) 32) by (try apply u32_range; lia). simpl.
    by rewrite in_interval_false by lia.
Qed.

Lemma placed_range x off len : 0 <= off -> 1 <= len -> off + len <= 32 -> 0 <= placed x off len < 2 ^ 32.
Proof.
  intros. apply (land_range 32); [lia|apply u32_range|].
  unfold BIT32_MASK. apply u32_range || (apply Z.land_nonneg; left; apply u32_range) || apply Z.shiftl_nonneg; lia.
Qed.

Lemma ext_placed_same x off len : 0 <= off -> 1 <= len -> off + len <= 32 -> 0 <= x < 2 ^ len ->
  ext off len (placed x off len) = x.
Proof.
  intros Ho Hl Hle Hx. apply Z.bits_inj'. intros i Hi. rewrite ext_testbit, placed_testbit by lia.
  destruct (Z.ltb_spec i len); simpl.
  - rewrite in_interval_true by lia. simpl. f_equal. lia.
  - symmetry. apply (testbit_small x len); lia.
Qed.

Lemma ext_placed_apart x off len off' len' : 0 <= off -> 1 <= len -> off + len <= 32 -> 0 <= off' -> 0 <= len' ->
  off' + len' <= off \/ off + len <= off' -> ext off' len' (placed x off len) = 0.
Proof.
  intros Ho Hl Hle Ho' Hl' Hd. apply Z.bits_inj'. intros i Hi. rewrite ext_testbit, placed_testbit, Z.bits_0 by lia.
  destruct (Z.ltb_spec i len'); simpl; [|done]. by rewrite in_interval_false by lia.
Qed.

Section fields.
Variable lr : Z.
Hypothesis Hlr : 0 <= lr < 2 ^ 32.

Lemma LR_STATE_ext : GICH_LR_STATE lr = ext 28 2 lr.
Proof. unfold GICH_LR_STATE, bit32_extract. rewrite u32_small by done. rewrite (PRE_extract_div (w := 32)); done || lia. Qed.

Lemma LR_VID_ext : GICH_LR_VID lr = ext 0 10 lr.
Proof. unfold GICH_LR_VID, bit_extract. rewrite (PRE_extract_div (w := 64)); done || (unfold GICH_LR_VID_OFF, GICH_LR_VID_LEN; lia). Qed.

Lemma LR_CPUID_ext : GICH_LR_CPUID lr = ext 10 3 lr.
Proof. unfold GICH_LR_CPUID, bit_extract. rewrite (PRE_extract_div (w := 64)); done || (unfold GICH_LR_CPUID_OFF, GICH_LR_CPUID_LEN; lia). Qed.
End fields.

(** ** The value written *)

Lemma all_bytes (p : Z -> bool) : forallb p (seqZ 0 256) = true -> forall x, 0 <= x < 256 -> p x = true.
Proof.
  intros Hf x Hx. rewrite forallb_forall in Hf. apply Hf. apply list_elem_of_In, elem_of_seqZ. lia.
Qed.

(** The source taken out of [sgi.pend] is one that was pending, and putting it
    back restores the mask. *)
Lemma highest_source_spec pend : 0 <= pend < 256 -> pend ≠ 0 ->
  let s := highest_source pend 8 in
  0 <= s < 8 /\ u8 (Z.lor (u8 (Z.land pend (not32 (lsl32 1 s)))) (lsl32 1 s)) = pend.
Proof.
  intros Hp Hne s. pose proof (all_bytes (fun p => (p =? 0) ||
    ((0 <=? highest_source p 8) && (highest_source p 8 <? 8) &&
     (u8 (Z.lor (u8 (Z.land p (not32 (lsl32 1 (highest_source p 8))))) (lsl32 1 (highest_source p 8))) =? p)))
    ltac:(vm_compute; reflexivity) pend Hp) as Hb. cbv beta in Hb. fold s in Hb.
  rewrite (proj2 (Z.eqb_neq pend 0)) in Hb by done. simpl in Hb.
  apply andb_true_iff in Hb as [[H1 H2]%andb_true_iff H3]. split; [lia|]. by apply Z.eqb_eq.
Qed.

Section lr_value.
Variables (i : vgic_int) (st : Z).
Hypothesis (Hid : 0 <= i_id i < 1024) (Hprio : 0 <= i_prio i < 256) (Hst : 0 <= st < 4).

(** Identification and priority, the part all values share. *)
Definition lr_head : Z := Z.lor (placed (i_id i) 0 10) (placed (Z.shiftr (i_prio i) 3) 23 5).

Lemma lr_head_eq :
  Z.lor (u32 (Z.land (lsl64 (i_id i) GICH_LR_VID_OFF) GICH_LR_VID_MSK))
    (Z.land (lsl32 (Z.shiftr (i_prio i) 3) GICH_LR_PRIO_OFF) GICH_LR_PRIO_MSK) = lr_head.
Proof.
  unfold lr_head. f_equal. unfold placed, lsl64, lsl32, GICH_LR_VID_OFF. rewrite !Z.mod_0_l, !Z.shiftl_0_r by lia.
  rewrite (u64_small (i_id i)), (u32_small (i_id i)) by lia. change GICH_LR_VID_MSK with (Z.ones 10).
  change (BIT32_MASK 0 10) with (Z.ones 10). rewrite Z.land_ones by lia. apply u32_small.
  pose proof (Z.mod_pos_bound (i_id i) (2 ^ 10)). lia.
Qed.

Lemma prio_small : 0 <= Z.shiftr (i_prio i) 3 < 2 ^ 5.
Proof. rewrite Z.shiftr_div_pow2 by lia. divmod (i_prio i) (2 ^ 3). lia. Qed.

Lemma lr_head_range : 0 <= lr_head < 2 ^ 32.
Proof. apply lor_range; [lia|apply placed_range; lia..]. Qed.

Lemma lr_head_vid : ext 0 10 lr_head = i_id i.
Proof.
  unfold lr_head. rewrite ext_lor, ext_placed_same, ext_placed_apart by lia. apply Z.lor_0_r.
Qed.

Lemma lr_head_prio : ext 23 5 lr_head = Z.shiftr (i_prio i) 3.
Proof.
  pose proof prio_small. unfold lr_head. rewrite ext_lor, ext_placed_apart, ext_placed_same by lia. done.
Qed.

Lemma lr_head_apart off len : 10 <= off -> 0 <= len -> off + len <= 23 \/ 28 <= off -> ext off len lr_head = 0.
Proof. intros. unfold lr_head. rewrite ext_lor, !ext_placed_apart by lia. done. Qed.

(** What the hardware and the code read out of a list register. *)
Record lr_reads (lr state : Z) : Prop := {
  lr_in_range : 0 <= lr < 2 ^ 32;
  lr_vid : GICH_LR_VID lr = i_id i;
  lr_state : GICH_LR_STATE lr = state;
  lr_prio : ext 23 5 lr = Z.shiftr (i_prio i) 3;
}.

(** A head with more fields above it. *)
Lemma lr_reads_lor rest state :
  0 <= rest < 2 ^ 32 -> ext 0 10 rest = 0 -> ext 23 5 rest = 0 -> ext 28 2 rest = state ->
  lr_reads (Z.lor lr_head rest) state.
Proof.
  intros Hr Hv Hp Hs. assert (0 <= Z.lor lr_head rest < 2 ^ 32) as Hlr by (apply lor_range; [lia|apply lr_head_range|done]).
  split; [done|..].
  - rewrite LR_VID_ext, ext_lor, lr_head_vid, Hv by done || lia. apply Z.lor_0_r.
  - rewrite LR_STATE_ext, ext_lor, lr_head_apart, Hs by done || lia. done.
  - rewrite ext_lor, lr_head_prio, Hp by lia. apply Z.lor_0_r.
Qed.

Lemma lor_assoc4 a b c e : Z.lor (Z.lor (Z.lor a b) c) e = Z.lor a (Z.lor b (Z.lor c e)).
Proof. by rewrite !Z.lor_assoc. Qed.

Lemma placed_parts x off len : 10 <= off -> 1 <= len -> off + len <= 23 \/ 28 <= off -> off + len <= 32 ->
  0 <= placed x off len < 2 ^ 32 /\ ext 0 10 (placed x off len) = 0 /\ ext 23 5 (placed x off len) = 0.
Proof.
  intros. split; [apply placed_range; lia|]. split; apply ext_placed_apart; lia.
Qed.

(** An interrupt of a physical device. *)
Lemma lr_value_hw : vgic_int_is_hw i = true ->
  exists lr, lr_value i st = (lr, sgi_pend i) /\ lr_reads lr (if st =? PENDACT then ACT else st) /\
    ext 10 10 lr = i_id i /\ ext 31 1 lr = 1.
Proof.
  intros Hhw. unfold lr_value. rewrite Hhw, lr_head_eq.
  change (Z.land (lsl32 (u32 (i_id i)) GICH_LR_PID_OFF) GICH_LR_PID_MSK) with (placed (u32 (i_id i)) 10 10).
  rewrite u32_small by lia.
  assert (exists s, (if st =? PENDACT then (Z.lor (Z.lor (Z.lor lr_head GICH_LR_HW_BIT) (placed (i_id i) 10 10)) GICH_LR_STATE_ACT, sgi_pend i)
      else (Z.lor (Z.lor (Z.lor lr_head GICH_LR_HW_BIT) (placed (i_id i) 10 10)) (Z.land (lsl32 st GICH_LR_STATE_OFF) GICH_LR_STATE_MSK), sgi_pend i))
    = (Z.lor lr_head (Z.lor GICH_LR_HW_BIT (Z.lor (placed (i_id i) 10 10) (placed s 28 2))), sgi_pend i) /\
      s = (if st =? PENDACT then ACT else st) /\ 0 <= s < 4) as (s & -> & <- & Hs).
  { destruct (Z.eqb_spec st PENDACT).
    - exists ACT. rewrite lor_assoc4. done.
    - exists st. rewrite lor_assoc4. done. }
  destruct (placed_parts (i_id i) 10 10) as (P1 & P2 & P3); [lia..|].
  destruct (placed_parts s 28 2) as (Q1 & Q2 & Q3); [lia..|].
  eexists. split; [done|]. split; [apply lr_reads_lor|].
  - do 2 (apply lor_range; [lia|done|]). done.
  - rewrite !ext_lor, P2, Q2 by lia. done.
  - rewrite !ext_lor, P3, Q3 by lia. done.
  - rewrite !ext_lor, (ext_placed_apart (i_id i)), ext_placed_same by lia. done.
  - split.
    + rewrite !ext_lor, lr_head_apart, ext_placed_same, (ext_placed_apart s) by lia. simpl. apply Z.lor_0_r.
    + rewrite !ext_lor, lr_head_apart, !ext_placed_apart by lia. done.
Qed.

(** A virtual interrupt that is not software-generated. *)
Lemma lr_value_soft : vgic_int_is_hw i = false -> 16 <= i_id i ->
  exists lr, lr_value i st = (lr, sgi_pend i) /\ lr_reads lr st.
Proof.
  intros Hhw Hge. unfold lr_value. rewrite Hhw, lr_head_eq.
  destruct (Z.ltb_spec (i_id i) GIC_MAX_SGIS); [unfold GIC_MAX_SGIS in *; lia|].
  change (Z.land (lsl32 st GICH_LR_STATE_OFF) GICH_LR_STATE_MSK) with (placed st 28 2).
  destruct (placed_parts st 28 2) as (Q1 & Q2 & Q3); [lia..|]. eexists. split; [done|].
  destruct (negb _ && _).
  - rewrite <- Z.lor_assoc. apply lr_reads_lor.
    + apply lor_range; [lia|done|done].
    + rewrite ext_lor, Q2 by lia. done.
    + rewrite ext_lor, Q3 by lia. done.
    + rewrite ext_lor, ext_placed_same by lia. done.
  - apply lr_reads_lor; try done. by rewrite ext_placed_same by lia.
Qed.

(** An active software-generated interrupt. *)
Lemma lr_value_sgi_act : i_id i < 16 -> has st ACT = true -> 0 <= targets i < 8 ->
  exists lr, lr_value i st = (lr, sgi_pend i) /\ lr_reads lr ACT /\ GICH_LR_CPUID lr = targets i.
Proof.
  intros Hlt Hact Ht. assert (vgic_int_is_hw i = false) as Hhw.
  { unfold vgic_int_is_hw. destruct (Z.ltb_spec (i_id i) GIC_MAX_SGIS); [done|unfold GIC_MAX_SGIS in *; lia]. }
  unfold lr_value. rewrite Hhw, lr_head_eq.
  destruct (Z.ltb_spec (i_id i) GIC_MAX_SGIS); [|unfold GIC_MAX_SGIS in *; lia].
  unfold has in Hact. rewrite Hact.
  change (Z.land (lsl32 (targets i) GICH_LR_CPUID_OFF) GICH_LR_CPUID_MSK) with (placed (targets i) 10 3).
  destruct (placed_parts (targets i) 10 3) as (P1 & P2 & P3); [lia..|].
  assert (exists e, (e = 0 \/ e = GICH_LR_EOI_BIT) /\
    (if negb (sgi_pend i =? 0) then (Z.lor (Z.lor (Z.lor lr_head (placed (targets i) 10 3)) GICH_LR_STATE_ACT) GICH_LR_EOI_BIT, sgi_pend i)
     else (Z.lor (Z.lor lr_head (placed (targets i) 10 3)) GICH_LR_STATE_ACT, sgi_pend i)) =
    (Z.lor lr_head (Z.lor (placed (targets i) 10 3) (Z.lor GICH_LR_STATE_ACT e)), sgi_pend i)) as (e' & He' & ->).
  { destruct (negb (sgi_pend i =? 0)); [exists GICH_LR_EOI_BIT|exists 0]; split; auto; rewrite ?Z.lor_0_r, ?Z.lor_assoc; done. }
  eexists. split; [done|].
  assert (lr_reads (Z.lor lr_head (Z.lor (placed (targets i) 10 3) (Z.lor GICH_LR_STATE_ACT e'))) ACT) as Hr.
  { apply lr_reads_lor.
    - apply lor_range; [lia|done|]. by destruct He' as [->| ->].
    - rewrite !ext_lor, P2 by lia. by destruct He' as [->| ->].
    - rewrite !ext_lor, P3 by lia. by destruct He' as [->| ->].
    - rewrite !ext_lor, ext_placed_apart by lia. by destruct He' as [->| ->]. }
  split; [done|]. rewrite LR_CPUID_ext by apply Hr. rewrite !ext_lor, lr_head_apart, ext_placed_same by lia.
  destruct He' as [->| ->]; apply Z.lor_0_r.
Qed.

(** A pending software-generated interrupt: the highest source goes into the
    register and out of the mask. *)
Lemma lr_value_sgi_pend : i_id i < 16 -> has st ACT = false -> 0 <= sgi_pend i < 256 -> sgi_pend i ≠ 0 ->
  let s := highest_source (sgi_pend i) 8 in
  exists lr, lr_value i st = (lr, Z.land (sgi_pend i) (not32 (lsl32 1 s))) /\ lr_reads lr PEND /\ GICH_LR_CPUID lr = s.
Proof.
  intros Hlt Hact Hp Hne s. destruct (highest_source_spec _ Hp Hne) as [Hs _]. fold s in Hs.
  assert (vgic_int_is_hw i = false) as Hhw.
  { unfold vgic_int_is_hw. destruct (Z.ltb_spec (i_id i) GIC_MAX_SGIS); [done|unfold GIC_MAX_SGIS in *; lia]. }
  unfold lr_value. rewrite Hhw, lr_head_eq.
  destruct (Z.ltb_spec (i_id i) GIC_MAX_SGIS); [|unfold GIC_MAX_SGIS in *; lia].
  unfold has in Hact. rewrite Hact. change (Z.to_nat GIC_MAX_TARGETS) with 8%nat. fold s.
  destruct (Z.ltb_spec s 0); [lia|].
  assert (Z.land (Z.shiftl s GICH_LR_CPUID_OFF) GICH_LR_CPUID_MSK = placed s 10 3) as ->.
  { unfold placed, lsl32. rewrite u32_small; [done|]. change (10 mod 32) with 10. rewrite Z.shiftl_mul_pow2 by lia. lia. }
  destruct (placed_parts s 10 3) as (P1 & P2 & P3); [lia..|]. set (q := Z.land (sgi_pend i) (not32 (lsl32 1 s))).
  assert (exists e, (e = 0 \/ e = GICH_LR_EOI_BIT) /\
    (if negb (q =? 0) then (Z.lor (Z.lor (Z.lor lr_head (placed s 10 3)) GICH_LR_STATE_PND) GICH_LR_EOI_BIT, q)
     else (Z.lor (Z.lor lr_head (placed s 10 3)) GICH_LR_STATE_PND, q)) =
    (Z.lor lr_head (Z.lor (placed s 10 3) (Z.lor GICH_LR_STATE_PND e)), q)) as (e & He & ->).
  { destruct (negb (q =? 0)); [exists GICH_LR_EOI_BIT|exists 0]; split; auto; rewrite ?Z.lor_0_r, ?Z.lor_assoc; done. }
  eexists. split; [done|].
  assert (lr_reads (Z.lor lr_head (Z.lor (placed s 10 3) (Z.lor GICH_LR_STATE_PND e))) PEND) as Hr.
  { apply lr_reads_lor.
    - apply lor_range; [lia|done|]. by destruct He as [->| ->].
    - rewrite !ext_lor, P2 by lia. by destruct He as [->| ->].
    - rewrite !ext_lor, P3 by lia. by destruct He as [->| ->].
    - rewrite !ext_lor, ext_placed_apart by lia. by destruct He as [->| ->]. }
  split; [done|]. rewrite LR_CPUID_ext by apply Hr. rewrite !ext_lor, lr_head_apart, ext_placed_same by lia.
  destruct He as [->| ->]; apply Z.lor_0_r.
Qed.
End lr_value.

(** ** Running the operations *)

Section run.
Context {H : Type} `{GicHw H}.
Implicit Types w : world H.

Lemma get_int_run w r i : int_at w r = Some i -> get_int r w = Ok (i, w).
Proof. intros Hi. by apply get_int_Ok. Qed.

Lemma put_int_run w r i old : int_at w r = Some old -> put_int r i w = Ok ((), put_at w r i).
Proof. intros Ho. apply put_int_Ok. eauto. Qed.

Lemma upd_int_run w r f i : int_at w r = Some i -> upd_int r f w = Ok ((), put_at w r (f i)).
Proof. intros Hi. unfold upd_int, mbind, st_bind. rewrite (get_int_run _ _ _ Hi). by eapply put_int_run. Qed.

Lemma get_vcpu_run w v c : 0 <= v -> vcpus (wvm w) !! Z.to_nat v = Some c -> get_vcpu v w = Ok (c, w).
Proof. intros Hv Hc. unfold get_vcpu. by rewrite (proj2 (rd_Ok _ _ _) (conj Hv Hc)). Qed.

Lemma lock_int_run w r i : int_at w r = Some i -> unlocked (i_lock i) ->
  exists l, lock_int r w = Ok ((), put_at w r (set_lock i l)) /\ unlocked (spin_unlock l).
Proof.
  intros Hi Hu. destruct (spin_lock_unlock _ Hu) as (l & El & Hul & _). exists l. split; [|done].
  unfold lock_int, mbind, st_bind. rewrite (get_int_run _ _ _ Hi). unfold lift. rewrite El. by eapply put_int_run.
Qed.

Lemma set_lr_int_at w g r : int_at (set_gic w g) r = int_at w r.
Proof. done. Qed.

(** What the virtual CPU [v] running here can rely on while only the lock of [r]
    is taken. *)
Record ready (v : Z) (c : vcpu) (r : intref) w : Prop := {
  rd_wf : wf w;
  rd_pos : 0 <= v;
  rd_vcpu : vcpus (wvm w) !! Z.to_nat v = Some c;
  rd_here : p_id c = cpu_id w;
  rd_lrs : length (curr_lrs c) = 64%nat;
  rd_ids : Forall (fun n => 0 <= n) (curr_lrs c);
  rd_ints : Z.of_nat (length (d_ints (d (wvm w)))) = int_num (d (wvm w));
  rd_num : 0 <= NUM_LRS (wgic w) <= 64;
  rd_free : forall r' i, r' ≠ r -> int_at w r' = Some i -> unlocked (i_lock i);
}.

Lemma put_at_vcpu w r i v c :
  vcpus (wvm w) !! Z.to_nat v = Some c ->
  exists c', vcpus (wvm (put_at w r i)) !! Z.to_nat v = Some c' /\
    v_id c' = v_id c /\ p_id c' = p_id c /\ curr_lrs c' = curr_lrs c.
Proof.
  intros Hc. destruct r as [v' k|k]; simpl; [|eauto].
  destruct (vcpus (wvm w) !! Z.to_nat v') as [c0|] eqn:E0; simpl; [|eauto].
  destruct (decide (Z.to_nat v' = Z.to_nat v)) as [E|E].
  - rewrite E in *. assert (c0 = c) as -> by congruence. rewrite list_lookup_insert_eq by (by eapply lookup_lt_Some).
    eauto.
  - rewrite list_lookup_insert_ne by done. eauto.
Qed.

Lemma put_at_misc w r i :
  cpu_id (put_at w r i) = cpu_id w /\ wgic (put_at w r i) = wgic w /\ wmsg (put_at w r i) = wmsg w /\
  int_num (d (wvm (put_at w r i))) = int_num (d (wvm w)) /\
  length (d_ints (d (wvm (put_at w r i)))) = length (d_ints (d (wvm w))) /\
  spilled (wvm (put_at w r i)) = spilled (wvm w).
Proof.
  destruct r as [v k|k]; simpl; [by destruct (vcpus (wvm w) !! Z.to_nat v)|]. by rewrite length_insert.
Qed.

(** Changing the interrupt [r] itself. *)
Lemma ready_put v c r w i old :
  ready v c r w -> int_at w r = Some old -> int_ok r i ->
  exists c', ready v c' r (put_at w r i) /\ v_id c' = v_id c /\ p_id c' = p_id c /\ curr_lrs c' = curr_lrs c.
Proof.
  intros [Hwf Hv Hc Hh Hl Hids Hn HN Hf] Ho Hok. destruct (put_at_vcpu w r i v c Hc) as (c' & Hc' & Ei & Ep & El).
  destruct (put_at_misc w r i) as (Mc & Mg & _ & Mn & Ml & _). exists c'. split; [|done]. split; try congruence.
  - intros r' i'. destruct (decide (r' = r)) as [->|Hne].
    + rewrite (put_at_same _ _ _ _ Ho). by intros [= <-].
    + rewrite (put_at_other _ _ _ _ _ Ho) by done. apply Hwf.
  - intros r' i' Hne. rewrite (put_at_other _ _ _ _ _ Ho) by done. by apply Hf.
Qed.

(** The state of an interrupt that is in no list register. *)
Definition soft_state (i : vgic_int) : Z :=
  if (i_id i <? GIC_MAX_SGIS) && negb (sgi_pend i =? 0) then Z.lor (i_state i) PEND else i_state i.

Lemma vgic_get_state_out w r i : int_at w r = Some i -> in_lr i = false -> vgic_get_state r w = Ok (soft_state i, w).
Proof.
  intros Hi Hn. unfold vgic_get_state, gich_get_lr, mbind, st_bind. rewrite (get_int_run _ _ _ Hi), Hn. simpl.
  rewrite (get_int_run _ _ _ Hi). unfold soft_state. by destruct (_ && _).
Qed.

(** Giving up an interrupt that is in no list register changes at most its owner. *)
Lemma yield_run v w r i : int_at w r = Some i -> in_lr i = false ->
  exists w', vgic_yield_ownership v r w = Ok ((), w') /\ (w' = w \/ w' = put_at w r (set_owner i None)).
Proof.
  intros Hi Hn. unfold vgic_yield_ownership, mbind, st_bind. rewrite (get_int_run _ _ _ Hi), Hn, orb_false_r.
  destruct (_ || _); [exists w; split; [done|by left]|]. rewrite (vgic_get_state_out _ _ _ Hi Hn).
  destruct (negb _); [exists w; split; [done|by left]|].
  rewrite (upd_int_run _ _ _ _ Hi). eexists. split; [done|by right].
Qed.

Lemma put_at_put_at w r i j : put_at (put_at w r i) r j = put_at w r j.
Proof.
  destruct r as [v k|k]; simpl.
  - destruct (vcpus (wvm w) !! Z.to_nat v) as [c|] eqn:Ec; simpl; [|by rewrite Ec].
    rewrite list_lookup_insert_eq by (by eapply lookup_lt_Some). simpl. by rewrite !list_insert_insert_eq.
  - by rewrite list_insert_insert_eq.
Qed.

(** Changing a shared interrupt other than [r]. *)
Lemma ready_put_spi v c r w k i old :
  ready v c r w -> int_at w (Spi k) = Some old -> Spi k ≠ r -> int_ok (Spi k) i -> unlocked (i_lock i) ->
  ready v c r (put_at w (Spi k) i).
Proof.
  intros [Hwf Hv Hc Hh Hl Hids Hn HN Hf] Ho Hne Hok Hu. split; try done.
  - intros r' i'. destruct (decide (r' = Spi k)) as [->|Hne'].
    + rewrite (put_at_same _ _ _ _ Ho). by intros [= <-].
    + rewrite (put_at_other _ _ _ _ _ Ho) by done. apply Hwf.
  - simpl. by rewrite length_insert.
  - intros r' i' Hne'. destruct (decide (r' = Spi k)) as [->|Hne2].
    + rewrite (put_at_same _ _ _ _ Ho). by intros [= <-].
    + rewrite (put_at_other _ _ _ _ _ Ho) by done. by apply Hf.
Qed.

Lemma int_ok_out r i l o b : int_ok r i -> match r with Priv _ _ => o = owner i | Spi _ => True end ->
  int_ok r (set_lock (set_owner (set_in_lr i b) o) l).
Proof. intros [] Ho. split; try done. destruct r; simpl in *; congruence. Qed.

(** The owner of a list register loses it. *)
Lemma evict_run v w k pi lr : int_at w (Spi k) = Some pi -> unlocked (i_lock pi) ->
  exists j, (lock_int (Spi k) ;;
    i ← get_int (Spi k);
    when (vgic_owns v i && in_lr i && (i_lr i =? lr))
      (upd_int (Spi k) (fun i => set_in_lr i false) ;; vgic_yield_ownership v (Spi k)) ;;
    unlock_int (Spi k)) w = Ok ((), put_at w (Spi k) j) /\ unlocked (i_lock j) /\
    exists l o b, j = set_lock (set_owner (set_in_lr pi b) o) l.
Proof.
  intros Hp Hu. destruct (lock_int_run _ _ _ Hp Hu) as (l & El & Hul). unfold mbind, st_bind. rewrite El.
  set (w1 := put_at w (Spi k) (set_lock pi l)).
  assert (int_at w1 (Spi k) = Some (set_lock pi l)) as H1 by exact (put_at_same _ _ _ _ Hp).
  rewrite (get_int_run _ _ _ H1). destruct (_ && _); cbn [when].
  - rewrite (upd_int_run _ _ _ _ H1). unfold w1. rewrite put_at_put_at.
    set (i2 := set_in_lr (set_lock pi l) false). set (w2 := put_at w (Spi k) i2).
    assert (int_at w2 (Spi k) = Some i2) as H2 by exact (put_at_same _ _ _ _ Hp).
    destruct (yield_run v _ _ _ H2) as (w3 & E3 & Hw3); [done|]. rewrite E3. unfold unlock_int. destruct Hw3 as [->| ->].
    + rewrite (upd_int_run _ _ _ _ H2). unfold w2. rewrite put_at_put_at. eexists. split; [done|]. split; [done|].
      exists (spin_unlock l), (owner pi), false. done.
    + unfold w2. rewrite put_at_put_at. rewrite (upd_int_run _ _ _ (set_owner i2 None)) by exact (put_at_same _ _ _ _ Hp).
      rewrite put_at_put_at. eexists. split; [done|]. split; [done|].
      exists (spin_unlock l), None, false. done.
  - unfold mret, st_ret, unlock_int. rewrite (upd_int_run _ _ _ _ H1). unfold w1. rewrite put_at_put_at.
    eexists. split; [done|]. split; [done|]. exists (spin_unlock l), (owner pi), (in_lr pi). by destruct pi.
Qed.

Lemma evict_prev_run v c r w i k :
  ready v c r w -> int_at w r = Some i -> 0 <= k < 64 ->
  exists w', evict_prev v r k w = Ok ((), w') /\ ready v c r w' /\ int_at w' r = Some i /\ wgic w' = wgic w /\
    spilled (wvm w') = spilled (wvm w).
Proof.
  intros Hr Hi Hk. pose proof Hr as [Hwf Hv Hc Hh Hl Hids Hn HN Hf].
  unfold evict_prev, mbind, st_bind. rewrite (get_vcpu_run _ _ _ Hv Hc), (get_int_run _ _ _ Hi).
  assert (is_Some (curr_lrs c !! Z.to_nat k)) as [prev Hprev] by (apply lookup_lt_is_Some_2; lia).
  unfold lift. rewrite (proj2 (rd_Ok _ _ _) (conj (proj1 Hk) Hprev)).
  destruct (negb _ && negb _) eqn:E; [|by exists w].
  apply andb_true_iff in E as [E1%negb_true_iff%Z.eqb_neq E2%negb_true_iff].
  unfold vgic_get_int, mbind, st_bind, gets. unfold gic_is_priv in E2. rewrite E2.
  destruct (Z.ltb_spec prev (int_num (d (wvm w)))); [|by exists w].
  apply Z.ltb_ge in E2. unfold mret, st_ret. set (q := prev - GIC_CPU_PRIV).
  assert (0 <= q /\ q < Z.of_nat (length (d_ints (d (wvm w))))) as [Hq0 Hq1].
  { unfold q. change GIC_CPU_PRIV with 32 in *. lia. }
  assert (exists pi, int_at w (Spi q) = Some pi) as [pi Hpi].
  { simpl. destruct (Z.ltb_spec q 0); [lia|]. apply lookup_lt_is_Some_2. lia. }
  assert (Spi q ≠ r) as Hne.
  { intros <-. apply E1. rewrite (ok_id _ _ (Hwf _ _ Hi)). simpl. unfold q. lia. }
  destruct (evict_run v w q pi k Hpi (Hf _ _ Hne Hpi)) as (j & Ej & Hj & l & o & b & Eq).
  unfold mbind, st_bind in Ej. rewrite Ej. eexists. split; [done|]. split_and!; [|by rewrite (put_at_other _ _ _ _ _ Hpi)|done|done].
  eapply ready_put_spi; try done. rewrite Eq. apply int_ok_out; [by apply Hwf|done].
Qed.

(** Noting in the virtual CPU what the list register holds. *)
Definition put_lrs w v c l : world H := set_vm w (set_vcpus (wvm w) (<[Z.to_nat v := set_curr_lrs c l]> (vcpus (wvm w)))).

Lemma put_lrs_int_at w v c l r : vcpus (wvm w) !! Z.to_nat v = Some c -> int_at (put_lrs w v c l) r = int_at w r.
Proof.
  intros Hc. destruct r as [v' k|k]; [|done]. simpl. destruct ((v' <? 0) || (k <? 0)); [done|].
  destruct (decide (Z.to_nat v' = Z.to_nat v)) as [->|Hne].
  - rewrite list_lookup_insert_eq, Hc by (by eapply lookup_lt_Some). done.
  - by rewrite list_lookup_insert_ne by done.
Qed.

Lemma ready_lrs v c r w l : ready v c r w -> length l = 64%nat -> Forall (fun n => 0 <= n) l ->
  ready v (set_curr_lrs c l) r (put_lrs w v c l).
Proof.
  intros [Hwf Hv Hc Hh Hl Hids Hn HN Hf] Hlen Hall. split; try done.
  - intros r' i'. rewrite put_lrs_int_at by done. apply Hwf.
  - simpl. by rewrite list_lookup_insert_eq by (by eapply lookup_lt_Some).
  - intros r' i' Hne. rewrite put_lrs_int_at by done. by apply Hf.
Qed.

Lemma put_lrs_run w v c l : 0 <= v -> vcpus (wvm w) !! Z.to_nat v = Some c ->
  put_vcpu v (set_curr_lrs c l) w = Ok ((), put_lrs w v c l).
Proof.
  intros Hv Hc. pose proof (lookup_lt_Some _ _ _ Hc). unfold put_vcpu, wr.
  by rewrite in_interval_true by lia.
Qed.

Lemma ready_gic v c r w g : ready v c r w -> NUM_LRS g = NUM_LRS (wgic w) -> ready v c r (set_gic w g).
Proof. intros [] Hg. split; try done. simpl. by rewrite Hg. Qed.

Lemma reg_ok_LR k : 0 <= k < 64 -> reg_ok (LR k) = true.
Proof. intros Hk. apply in_interval_true. change GIC_NUM_LIST_REGS with 64. lia. Qed.

Lemma write_lr_run w k x : 0 <= k < NUM_LRS (wgic w) -> NUM_LRS (wgic w) <= 64 ->
  on_gic (gich_write_lr k x) w = Ok ((), set_gic w (set_hw (wgic w) (hw_write (hw (wgic w)) (LR k) (u32 x)))).
Proof.
  intros Hk Hn. unfold on_gic, gich_write_lr, mbind, st_bind, outcome_bind, gets.
  rewrite (proj2 (Z.ltb_lt k _)) by lia. by rewrite wrreg_Ok by (apply reg_ok_LR; lia).
Qed.

Lemma read_lr_run w k : 0 <= k < NUM_LRS (wgic w) -> NUM_LRS (wgic w) <= 64 ->
  on_gic (gich_read_lr k) w = Ok (u32 (hw_read (hw (wgic w)) (LR k)), w).
Proof.
  intros Hk Hn. unfold on_gic, gich_read_lr, mbind, st_bind, outcome_bind, gets.
  rewrite (proj2 (Z.ltb_lt k _)) by lia. unfold rdreg. rewrite reg_ok_LR by lia. by destruct w.
Qed.

(** The interrupt in list register [k]. *)
Definition in_register (i : vgic_int) (pend k : Z) : vgic_int :=
  set_lr (set_in_lr (set_state (set_sgi_pend i pend) 0) true) k.

Lemma in_register_ok r i pend k : int_ok r i -> int_ok r (in_register i pend k).
Proof. intros []. split; try done; cbn [in_register set_lr set_in_lr set_state set_sgi_pend sgi_pend i_lr]; apply u8_range. Qed.

Lemma vgic_write_lr_run v c r w i k lr pend :
  ready v c r w -> int_at w r = Some i -> in_lr i = false -> 0 <= k < NUM_LRS (wgic w) ->
  lr_value i (soft_state i) = (lr, pend) ->
  exists w1 c1, vgic_write_lr v r k w = Ok ((), w1) /\ int_at w1 r = Some (in_register i pend k) /\
    wgic w1 = set_hw (wgic w) (hw_write (hw (wgic w)) (LR k) (u32 lr)) /\
    ready v c1 r w1 /\ curr_lrs c1 = <[Z.to_nat k := i_id i]> (curr_lrs c) /\
    spilled (wvm w1) = spilled (wvm w).
Proof.
  intros Hr Hi Hin Hk Hlr. pose proof (rd_num _ _ _ _ Hr) as Hnum.
  destruct (evict_prev_run v c r w i k Hr Hi ltac:(lia)) as (w1 & E1 & Hr1 & Hi1 & Hg1 & Hsp1).
  unfold vgic_write_lr, mbind, st_bind. rewrite E1. rewrite (vgic_get_state_out _ _ _ Hi1 Hin), (get_int_run _ _ _ Hi1), Hlr.
  rewrite (put_int_run _ _ _ _ Hi1). fold (in_register i pend k).
  pose proof (rd_wf _ _ _ _ Hr1 _ _ Hi1) as Hok.
  destruct (ready_put _ _ _ _ _ _ Hr1 Hi1 (in_register_ok _ _ pend k Hok)) as (c2 & Hr2 & _ & _ & Elrs).
  set (w2 := put_at w1 r (in_register i pend k)) in *.
  destruct (put_at_misc w1 r (in_register i pend k)) as (_ & Mg & _ & _ & _ & Ms). fold w2 in Mg, Ms.
  pose proof (rd_vcpu _ _ _ _ Hr2) as Hc2. pose proof (rd_pos _ _ _ _ Hr2) as Hv.
  rewrite (get_vcpu_run _ _ _ Hv Hc2). unfold lift, wr. rewrite (rd_lrs _ _ _ _ Hr2), in_interval_true by lia.
  rewrite (put_lrs_run _ _ _ _ Hv Hc2). set (l := <[Z.to_nat k := i_id i]> (curr_lrs c2)).
  assert (ready v (set_curr_lrs c2 l) r (put_lrs w2 v c2 l)) as Hr3.
  { apply ready_lrs; [done|unfold l; rewrite length_insert; apply Hr2|]. apply Forall_insert; [apply Hr2|].
    rewrite (ok_id _ _ Hok). pose proof (ok_range _ _ Hok). destruct r; simpl; [lia|]. change GIC_CPU_PRIV with 32. lia. }
  assert (wgic (put_lrs w2 v c2 l) = wgic w) as Eg by (simpl; congruence).
  rewrite write_lr_run by (rewrite Eg; lia). rewrite Eg. do 2 eexists. split; [done|]. split; [|split_and!].
  - change (int_at (put_lrs w2 v c2 l) r = Some (in_register i pend k)). rewrite put_lrs_int_at by done.
    by apply (put_at_same _ _ _ i).
  - done.
  - apply ready_gic; [exact Hr3|]. by rewrite Eg.
  - simpl. unfold l. by rewrite Elrs.
  - change (spilled (wvm w2) = spilled (wvm w)). congruence.
Qed.

(** What [vgic_remove_lr] makes of an interrupt whose list register reads [lr]. *)
Definition taken_back (j : vgic_int) (lr : Z) : vgic_int :=
  let j := set_state (set_in_lr j false) (GICH_LR_STATE lr) in
  if i_id j <? GIC_MAX_SGIS then
    if has (i_state j) ACT then set_targets j (GICH_LR_CPUID lr)
    else if has (i_state j) PEND then set_sgi_pend j (Z.lor (sgi_pend j) (lsl32 1 (GICH_LR_CPUID lr)))
    else j
  else j.

Lemma set_hcr_run w x : on_gic (gich_set_hcr x) w = Ok ((), set_gic w (set_hw (wgic w) (hw_write (hw (wgic w)) GICH_HCR (u32 x)))).
Proof. done. Qed.

Lemma get_hcr_run w : on_gic gich_get_hcr w = Ok (u32 (hw_read (hw (wgic w)) GICH_HCR), w).
Proof. by destruct w. Qed.

Lemma get_lr_run v c r w j lr :
  ready v c r w -> int_at w r = Some j -> owner j = Some v -> in_lr j = true -> 0 <= i_lr j < NUM_LRS (wgic w) ->
  u32 (hw_read (hw (wgic w)) (LR (i_lr j))) = lr -> GICH_LR_VID lr = i_id j -> GICH_LR_STATE lr ≠ INV ->
  gich_get_lr r w = Ok (Some (i_lr j, lr), w).
Proof.
  intros Hr Hj Ho Hin Hk Hlr Hv Hs. pose proof (rd_num _ _ _ _ Hr). unfold gich_get_lr, mbind, st_bind.
  rewrite (get_int_run _ _ _ Hj), Hin, Ho. cbv beta iota delta [negb].
  rewrite (get_vcpu_run _ _ _ (rd_pos _ _ _ _ Hr) (rd_vcpu _ _ _ _ Hr)). unfold gets.
  rewrite (rd_here _ _ _ _ Hr), Z.eqb_refl. cbv beta iota delta [negb]. rewrite read_lr_run by lia. rewrite Hlr, Hv, Z.eqb_refl.
  by rewrite (proj2 (Z.eqb_neq _ _) Hs).
Qed.

Lemma vgic_remove_lr_run v c r w j lr :
  ready v c r w -> int_at w r = Some j -> owner j = Some v -> in_lr j = true -> 0 <= i_lr j < NUM_LRS (wgic w) ->
  u32 (hw_read (hw (wgic w)) (LR (i_lr j))) = lr -> GICH_LR_VID lr = i_id j -> GICH_LR_STATE lr ≠ INV ->
  exists w' hcr, vgic_remove_lr v r w = Ok (true, w') /\ int_at w' r = Some (taken_back j lr) /\
    wgic w' = set_hw (wgic w) (hw_write (hw_write (hw (wgic w)) (LR (i_lr j)) 0) GICH_HCR hcr).
Proof.
  intros Hr Hj Ho Hin Hk Hlr Hv Hs. pose proof (rd_num _ _ _ _ Hr).
  assert (exists w1, (match Some (i_lr j, lr) with Some (n, _) => on_gic (gich_write_lr n 0) | None => mret () end) w = Ok ((), w1) /\
    int_at w1 r = Some j /\ wgic w1 = set_hw (wgic w) (hw_write (hw (wgic w)) (LR (i_lr j)) 0)) as (w1 & E1 & A1 & G1).
  { rewrite write_lr_run by lia. eexists. split; [done|]. by split. }
  unfold vgic_remove_lr, mbind, st_bind. rewrite (get_int_run _ _ _ Hj). unfold vgic_owns. rewrite bool_decide_true, Hin by done.
  change (negb true || negb true) with false. cbv beta iota. rewrite (get_lr_run _ _ _ _ _ _ Hr Hj Ho Hin Hk Hlr Hv Hs), E1.
  rewrite (upd_int_run _ _ _ _ A1). rewrite (proj2 (Z.eqb_neq _ _) Hs).
  assert (int_at (put_at w1 r (set_in_lr j false)) r = Some (set_in_lr j false)) as A2 by exact (put_at_same _ _ _ _ A1).
  rewrite (upd_int_run _ _ _ _ A2), put_at_put_at. set (j3 := set_state (set_in_lr j false) (GICH_LR_STATE lr)).
  assert (int_at (put_at w1 r j3) r = Some j3) as A3 by exact (put_at_same _ _ _ _ A1).
  rewrite (get_int_run _ _ _ A3).
  assert (when (i_id j3 <? GIC_MAX_SGIS)
    (if negb (Z.land (i_state j3) ACT =? 0) then upd_int r (fun i => set_targets i (GICH_LR_CPUID lr))
     else when (negb (Z.land (i_state j3) PEND =? 0))
       (upd_int r (fun i => set_sgi_pend i (Z.lor (sgi_pend i) (lsl32 1 (GICH_LR_CPUID lr)))))) (put_at w1 r j3) =
    Ok ((), put_at w1 r (taken_back j lr))) as ->.
  { unfold taken_back. fold j3. unfold has. destruct (i_id j3 <? GIC_MAX_SGIS); [|done]. cbn [when].
    destruct (negb (Z.land (i_state j3) ACT =? 0)); [by rewrite (upd_int_run _ _ _ _ A3), put_at_put_at|].
    destruct (negb (Z.land (i_state j3) PEND =? 0)); [|done]. cbn [when]. by rewrite (upd_int_run _ _ _ _ A3), put_at_put_at. }
  assert (int_at (put_at w1 r (taken_back j lr)) r = Some (taken_back j lr)) as A4 by exact (put_at_same _ _ _ _ A1).
  rewrite get_hcr_run, (get_int_run _ _ _ A4), set_hcr_run. do 2 eexists. split; [done|]. split; [exact A4|].
  destruct (put_at_misc w1 r (taken_back j lr)) as (_ & Mg & _). simpl. rewrite Mg, G1. done.
Qed.
End run.

(** ** The properties *)

(** The state an interrupt has after a stay in a list register. *)
Definition state_back (i : vgic_int) : Z :=
  let st := soft_state i in
  if vgic_int_is_hw i then if st =? PENDACT then ACT else st
  else if i_id i <? GIC_MAX_SGIS then if has st ACT then ACT else PEND
  else st.

(** Projections of an interrupt just built. *)
Ltac int_eval := cbv beta iota zeta delta [in_register set_owner set_lock set_lr set_in_lr set_state set_sgi_pend set_targets
  owner i_lock i_id i_state i_prio i_cfg i_lr targets sgi_pend i_hw in_lr enabled].
Ltac int_fields := cbn [owner i_lock i_id i_state i_prio i_cfg i_lr targets sgi_pend i_hw in_lr enabled] in *.

Lemma soft_state_range r i : int_ok r i -> 0 <= soft_state i < 4.
Proof.
  intros Hok. pose proof (ok_state _ _ Hok). unfold soft_state. destruct (_ && _); [|done].
  apply (lor_range 2); [lia|done|]. change PEND with 1. lia.
Qed.

Lemma not_sgi i : 16 <= i_id i -> (i_id i <? GIC_MAX_SGIS) = false.
Proof. intros. change GIC_MAX_SGIS with 16. by apply Z.ltb_ge. Qed.

Lemma taken_back_other i k lr : 16 <= i_id i -> 0 <= sgi_pend i < 256 ->
  taken_back (in_register i (sgi_pend i) k) lr = set_lr (set_in_lr (set_state i (GICH_LR_STATE lr)) false) k.
Proof.
  intros Hid Hp. unfold taken_back. cbv zeta. rewrite not_sgi by done.
  generalize (GICH_LR_STATE lr). intros s. destruct i as [f1 f2 f3 f4 f5 f6 f7 f8 f9 f10 f11 f12].
  int_eval. cbn [sgi_pend] in Hp. by rewrite (u8_small f9).
Qed.

Lemma taken_back_sgi i pend k lr : i_id i < 16 ->
  taken_back (in_register i pend k) lr =
  let j := set_lr (set_in_lr (set_state i (GICH_LR_STATE lr)) false) k in
  if has (u8 (GICH_LR_STATE lr)) ACT then set_targets (set_sgi_pend j pend) (GICH_LR_CPUID lr)
  else if has (u8 (GICH_LR_STATE lr)) PEND then set_sgi_pend j (Z.lor (u8 pend) (lsl32 1 (GICH_LR_CPUID lr)))
  else set_sgi_pend j pend.
Proof.
  intros Hid. assert ((i_id i <? GIC_MAX_SGIS) = true) as Hs by (by apply Z.ltb_lt).
  unfold taken_back. generalize (GICH_LR_STATE lr) (GICH_LR_CPUID lr). intros s q.
  destruct i as [f1 f2 f3 f4 f5 f6 f7 f8 f9 f10 f11 f12]. int_eval.
  cbn [i_id] in Hs. by rewrite Hs.
Qed.

Lemma set_same_pend i : 0 <= sgi_pend i < 256 -> set_sgi_pend i (sgi_pend i) = i.
Proof. intros Hp. destruct i. unfold set_sgi_pend. int_fields. by rewrite u8_small. Qed.

Lemma set_same_targets i : 0 <= targets i < 256 -> set_targets i (targets i) = i.
Proof. intros Hp. destruct i. unfold set_targets. int_fields. by rewrite u8_small. Qed.

Lemma lr_round_trip_value r i k : int_ok r i -> i_id i < 1024 -> soft_state i ≠ INV ->
  (i_id i < 16 -> if has (soft_state i) ACT then targets i < 8 else sgi_pend i ≠ 0) ->
  exists lr pend, lr_value i (soft_state i) = (lr, pend) /\ 0 <= lr < 2 ^ 32 /\ GICH_LR_VID lr = i_id i /\
    GICH_LR_STATE lr ≠ INV /\
    taken_back (in_register i pend k) lr = set_lr (set_in_lr (set_state i (state_back i)) false) k.
Proof.
  intros Hok Hid Hst Hsgi. pose proof (soft_state_range _ _ Hok) as Hsr. pose proof (ok_pend _ _ Hok) as Hp.
  pose proof (ok_prio _ _ Hok) as Hprio. pose proof (ok_targets _ _ Hok) as Ht.
  assert (0 <= i_id i) as Hid0.
  { rewrite (ok_id _ _ Hok). pose proof (ok_range _ _ Hok). destruct r; simpl; change GIC_CPU_PRIV with 32 in *; lia. }
  unfold state_back. cbv zeta. destruct (Z.lt_ge_cases (i_id i) 16) as [Hlt|Hge].
  - assert (vgic_int_is_hw i = false) as ->.
    { unfold vgic_int_is_hw. change GIC_MAX_SGIS with 16. by rewrite (proj2 (Z.ltb_lt (i_id i) 16)). }
    change GIC_MAX_SGIS with 16. rewrite (proj2 (Z.ltb_lt (i_id i) 16)) by done. specialize (Hsgi Hlt).
    destruct (has (soft_state i) ACT) eqn:Ea.
    + destruct (lr_value_sgi_act i (soft_state i) ltac:(lia) Hprio Hlt Ea ltac:(lia)) as (lr & E & R & Ec).
      destruct R as [Hrg Hvid Hs _]. exists lr, (sgi_pend i). split_and!; try done; [lia..| |]; [by rewrite Hs|].
      rewrite taken_back_sgi, Hs, Ec by done. cbv zeta. change (has (u8 ACT) ACT) with true. cbv iota.
      set (J := set_lr _ _). rewrite (set_same_pend J Hp : set_sgi_pend J (sgi_pend i) = J). exact (set_same_targets J Ht).
    + destruct (lr_value_sgi_pend i (soft_state i) ltac:(lia) Hprio Hlt Ea Hp Hsgi) as (lr & E & R & Ec).
      destruct (highest_source_spec _ Hp Hsgi) as [_ Hback]. destruct R as [Hrg Hvid Hs _].
      do 2 eexists. split; [exact E|]. split_and!; try done; [lia..| |]; [by rewrite Hs|].
      rewrite taken_back_sgi, Hs, Ec by done. cbv zeta. change (has (u8 PEND) ACT) with false.
      change (has (u8 PEND) PEND) with true. cbv iota. unfold set_sgi_pend. rewrite Hback. by destruct i.
  - assert (exists lr, lr_value i (soft_state i) = (lr, sgi_pend i) /\
      lr_reads i lr (if vgic_int_is_hw i then if soft_state i =? PENDACT then ACT else soft_state i else soft_state i))
      as (lr & E & [Hrg Hvid Hs _]).
    { destruct (vgic_int_is_hw i) eqn:Eh.
      - destruct (lr_value_hw i (soft_state i) ltac:(lia) Hprio Hsr Eh) as (lr & E & R & _). eauto.
      - destruct (lr_value_soft i (soft_state i) ltac:(lia) Hprio Hsr Eh Hge) as (lr & E & R). eauto. }
    exists lr, (sgi_pend i). split_and!; try done; [lia..| |].
    + rewrite Hs. destruct (vgic_int_is_hw i); [|done]. by destruct (soft_state i =? PENDACT).
    + rewrite taken_back_other, Hs, not_sgi by done. done.
Qed.

(** C20: a stay in a list register loses nothing.  [vgic_write_lr] puts an interrupt
    in any state but invalid into list register [k] and [vgic_remove_lr] takes it
    back: both return, the register is empty again, no other list register has
    changed, and the interrupt is as before except that it has used [k] and
    that what the format of the register cannot express is settled: a pending
    and active hardware interrupt comes back active, and a software-generated
    one active, or else pending, with the sources in [sgi.pend] as they were. *)
Theorem vgic_lr_round_trip {H} `{GicLaws H} (w : world H) v c r i k :
  ready v c r w -> int_at w r = Some i -> owner i = Some v -> in_lr i = false ->
  i_id i < 1024 -> 0 <= k < NUM_LRS (wgic w) -> soft_state i ≠ INV ->
  (i_id i < 16 -> if has (soft_state i) ACT then targets i < 8 else sgi_pend i ≠ 0) ->
  exists w1 w2, vgic_write_lr v r k w = Ok ((), w1) /\ vgic_remove_lr v r w1 = Ok (true, w2) /\
    int_at w2 r = Some (set_lr (set_in_lr (set_state i (state_back i)) false) k) /\
    hw_read (hw (wgic w2)) (LR k) = 0 /\
    forall n, n ≠ k -> hw_read (hw (wgic w2)) (LR n) = hw_read (hw (wgic w)) (LR n).
Proof.
  intros Hr Hi Ho Hin Hid Hk Hst Hsgi.
  destruct (lr_round_trip_value r i k (rd_wf _ _ _ _ Hr _ _ Hi) Hid Hst Hsgi) as (lr & pend & Elr & Hrg & Hvid & Hs & Hback).
  destruct (vgic_write_lr_run v c r w i k lr pend Hr Hi Hin Hk Elr) as (w1 & c1 & E1 & Hi1 & G1 & Hr1 & _ & _).
  pose proof (rd_num _ _ _ _ Hr). assert (i_lr (in_register i pend k) = k) as Ek by (apply u8_small; lia).
  destruct (vgic_remove_lr_run v c1 r w1 (in_register i pend k) lr Hr1 Hi1 Ho) as (w2 & hcr & E2 & Hi2 & G2); try done.
  { rewrite Ek, G1. done. }
  { rewrite Ek, G1. cbn [hw set_hw]. rewrite gl_same by done. rewrite (u32_small lr) by done. by apply u32_small. }
  exists w1, w2. split; [done|]. split; [done|]. split; [by rewrite Hi2, Hback|]. rewrite G2, G1, Ek. cbn [hw set_hw]. split.
  - rewrite gl_other by done. by apply gl_same.
  - intros n Hn. rewrite !gl_other by (done || congruence). done.
Qed.

(** *** Injection *)

Section inject.
Context {H : Type} `{GicLaws H}.
Implicit Types w : world H.

(** Whether list register [k] is free. *)
Definition lr_free w (k : Z) : bool := lr_empty (u32 (hw_read (hw (wgic w)) (LR k))).

Lemma bit64_get_testbit e k : 0 <= k < 64 -> negb (bit64_get e k =? 0) = Z.testbit e k.
Proof.
  intros Hk. unfold bit64_get. rewrite (PRE_get_spec (w := 64)) by lia. destruct (Z.testbit e k); [|done].
  by rewrite (proj2 (Z.eqb_neq _ 0)) by (apply Z.pow_nonzero; lia).
Qed.

Lemma elrsr_run w : NUM_LRS (wgic w) <= 64 ->
  exists e, on_gic gich_get_elrsr w = Ok (e, w) /\ 0 <= e < 2 ^ 64 /\
    forall k, 0 <= k < NUM_LRS (wgic w) -> negb (bit64_get e k =? 0) = lr_free w k.
Proof.
  intros Hn. unfold on_gic, gich_get_elrsr, mbind, st_bind, outcome_bind, gets.
  unfold rdreg. change (reg_ok (ELSR 0)) with true. change (reg_ok (ELSR 1)) with true. cbv iota.
  assert (set_gic w (wgic w) = w) as Eg by (by destruct w).
  assert (forall k, 0 <= k < 64 -> Z.testbit (u32 (hw_read (hw (wgic w)) (ELSR (k / 32)))) (k mod 32) = lr_free w k) as Hb.
  { intros k Hk. rewrite testbit_u32 by (pose proof (Z.mod_pos_bound k 32); lia).
    rewrite (proj2 (Z.ltb_lt (k mod 32) 32)) by (apply Z.mod_pos_bound; lia). by apply gl_elsr. }
  destruct (Z.ltb_spec 32 (NUM_LRS (wgic w))).
  - eexists. split; [unfold mret, st_ret; by rewrite Eg|]. split.
    { apply (lor_range 64); [lia| |apply u64_range]. pose proof (u32_range (hw_read (hw (wgic w)) (ELSR 0))). lia. }
    intros k Hk. rewrite bit64_get_testbit by lia. rewrite Z.lor_spec, testbit_lsl64 by lia. rewrite (proj2 (Z.ltb_lt k 64)) by lia. simpl andb.
    rewrite <- Hb by lia. destruct (Z.lt_ge_cases k 32).
    + rewrite (Z.testbit_neg_r _ (k - 32)), orb_false_r by lia. by rewrite Z.div_small, Z.mod_small by lia.
    + rewrite (testbit_small (u32 _) 32 k) by (try apply u32_range; lia). simpl.
      replace (k / 32) with 1 by (apply (Z.div_unique k 32 1 (k - 32)); lia).
      replace (k mod 32) with (k - 32) by (apply (Z.mod_unique k 32 1); lia). done.
  - eexists. split; [unfold mret, st_ret; by rewrite Eg|].
    split; [pose proof (u32_range (hw_read (hw (wgic w)) (ELSR 0))); lia|]. intros k Hk. rewrite bit64_get_testbit by lia.
    rewrite <- Hb by lia. by rewrite Z.div_small, Z.mod_small by lia.
Qed.

Lemma first_empty_spec w e n i : (forall k, i <= k < i + Z.of_nat n -> negb (bit64_get e k =? 0) = lr_free w k) -> 0 <= i ->
  let k := first_empty e n i in
  (i <= k < i + Z.of_nat n /\ lr_free w k = true /\ forall j, i <= j < k -> lr_free w j = false) \/
  (k = -1 /\ forall j, i <= j < i + Z.of_nat n -> lr_free w j = false).
Proof.
  revert i. induction n as [|n IH]; intros i He Hi; simpl; [right; split; [done|lia]|].
  rewrite He by lia. destruct (lr_free w i) eqn:E.
  - left. split; [lia|]. split; [done|lia].
  - destruct (IH (i + 1)) as [(Hk & Hf & Hb)|(Hk & Hb)]; [intros; apply He; lia|lia|left|right]; split_and!; try done; try lia.
    + intros j Hj. destruct (decide (j = i)) as [->|]; [done|]. apply Hb. lia.
    + intros j Hj. destruct (decide (j = i)) as [->|]; [done|]. apply Hb. lia.
Qed.

(** The place of interrupt [id] as virtual CPU [v] sees it. *)
Definition ref_of (v id : Z) : intref := if id <? GIC_CPU_PRIV then Priv v id else Spi (id - GIC_CPU_PRIV).

Lemma vgic_get_int_run w v c id : 0 <= v -> vcpus (wvm w) !! Z.to_nat v = Some c -> id < int_num (d (wvm w)) ->
  vgic_get_int v id (v_id c) w = Ok (Some (ref_of v id), w).
Proof.
  intros Hv Hc Hid. unfold vgic_get_int, ref_of, mbind, st_bind, gets. destruct (id <? GIC_CPU_PRIV).
  - rewrite (get_vcpu_run _ _ _ Hv Hc), Z.eqb_refl. done.
  - by rewrite (proj2 (Z.ltb_lt id _)).
Qed.

(** The first free list register takes the interrupt. *)
Lemma vgic_add_lr_free v c r w i k lr pend :
  ready v c r w -> int_at w r = Some i -> in_lr i = false -> enabled i = true ->
  0 <= k < NUM_LRS (wgic w) -> lr_free w k = true -> (forall j, 0 <= j < k -> lr_free w j = false) ->
  lr_value i (soft_state i) = (lr, pend) ->
  exists w1 c1, vgic_add_lr v r w = Ok (true, w1) /\ int_at w1 r = Some (in_register i pend k) /\
    wgic w1 = set_hw (wgic w) (hw_write (hw (wgic w)) (LR k) (u32 lr)) /\
    ready v c1 r w1 /\ spilled (wvm w1) = spilled (wvm w).
Proof.
  intros Hr Hi Hin Hen Hk Hfree Hfirst Hlr. pose proof (rd_num _ _ _ _ Hr) as Hnum.
  unfold vgic_add_lr, mbind, st_bind. rewrite (get_int_run _ _ _ Hi), Hen, Hin.
  change (negb true || false) with false. cbv beta iota.
  destruct (elrsr_run w ltac:(lia)) as (e & Ee & _ & He). rewrite Ee. unfold gets.
  destruct (first_empty_spec w e (Z.to_nat (NUM_LRS (wgic w))) 0) as [(F1 & F2 & F3)|(F1 & F2)];
    [intros j Hj; apply He; lia|lia| |rewrite F2 in Hfree by lia; done].
  set (k' := first_empty e (Z.to_nat (NUM_LRS (wgic w))) 0) in *.
  assert (k' = k) as ->.
  { destruct (Z.lt_trichotomy k' k) as [Hlt|[|Hlt]]; [|done|]; [rewrite Hfirst in F2 by lia|rewrite F3 in Hfree by lia]; done. }
  rewrite (proj2 (Z.ltb_ge k 0)) by lia. unfold mret at 1, st_ret at 1. rewrite (proj2 (Z.leb_le 0 k)) by lia.
  destruct (vgic_write_lr_run v c r w i k lr pend Hr Hi Hin Hk Hlr) as (w1 & c1 & E1 & Hi1 & G1 & Hr1 & _ & Hs).
  rewrite E1. exists w1, c1. done.
Qed.

Lemma int_ok_raised r v i l : int_ok r i -> match r with Priv v' _ => v' = v | Spi _ => True end ->
  int_ok r (set_in_lr (set_state (set_owner (set_lock i l) (Some v)) PEND) false).
Proof. intros [] Hv. split; try done. destruct r; simpl in *; congruence. Qed.
End inject.

(** A pending interrupt of a device, as the guest finds it. *)
Lemma lr_value_pend i : 16 <= i_id i < 1024 -> 0 <= i_prio i < 256 ->
  exists lr, lr_value i PEND = (lr, sgi_pend i) /\ lr_reads i lr PEND /\
    (i_hw i = true -> ext 10 10 lr = i_id i /\ Z.testbit lr 31 = true).
Proof.
  intros Hid Hp. destruct (vgic_int_is_hw i) eqn:Eh.
  - destruct (lr_value_hw i PEND ltac:(lia) Hp ltac:(done) Eh) as (lr & E & R & Hl & Hb). exists lr.
    split; [done|]. split; [done|]. intros _. split; [done|].
    pose proof (ext_testbit 31 1 lr 0 ltac:(lia) ltac:(lia) ltac:(lia)) as Hx. by rewrite Hb in Hx.
  - destruct (lr_value_soft i PEND ltac:(lia) Hp ltac:(done) Eh ltac:(lia)) as (lr & E & R). exists lr.
    split; [done|]. split; [done|]. intros Hhw. unfold vgic_int_is_hw in Eh. by rewrite not_sgi, Hhw in Eh by lia.
Qed.

(** An enabled interrupt goes into the first free list register. *)
Lemma inject_hw_run {H} `{GicLaws H} (w : world H) v c i id k :
  let r := ref_of v id in
  ready v c r w -> 16 <= id < 1024 -> id < int_num (d (wvm w)) -> int_at w r = Some i ->
  unlocked (i_lock i) -> enabled i = true ->
  0 <= k < NUM_LRS (wgic w) -> lr_free w k = true -> (forall j, 0 <= j < k -> lr_free w j = false) ->
  exists w' i' lr, vgic_inject_hw v id w = Ok ((), w') /\ int_at w' r = Some i' /\
    in_lr i' = true /\ i_lr i' = k /\ owner i' = Some v /\ unlocked (i_lock i') /\
    hw_read (hw (wgic w')) (LR k) = lr /\ GICH_LR_VID lr = id /\ GICH_LR_STATE lr = PEND /\
    ext 23 5 lr = Z.shiftr (i_prio i) 3 /\ (i_hw i = true -> ext 10 10 lr = id /\ Z.testbit lr 31 = true) /\
    spilled (wvm w') = spilled (wvm w) /\
    forall n, n ≠ k -> hw_read (hw (wgic w')) (LR n) = hw_read (hw (wgic w)) (LR n).
Proof.
  intros r Hr Hid Hnum Hi Hu Hen Hk Hfree Hfirst.
  pose proof (rd_wf _ _ _ _ Hr _ _ Hi) as Hok. pose proof (rd_num _ _ _ _ Hr).
  destruct (lock_int_run _ _ _ Hi Hu) as (l & El & Hul).
  set (i1 := set_in_lr (set_state (set_owner (set_lock i l) (Some v)) PEND) false).
  assert (int_ok r i1) as Hok1.
  { apply int_ok_raised; [done|]. unfold r, ref_of. by destruct (id <? GIC_CPU_PRIV). }
  destruct (ready_put _ _ _ _ i1 _ Hr Hi Hok1) as (c1 & Hr1 & _). set (w1 := put_at w r i1) in *.
  assert (int_at w1 r = Some i1) as Hi1 by exact (put_at_same _ _ _ _ Hi).
  destruct (put_at_misc w r i1) as (_ & Mg & _ & _ & _ & Ms). fold w1 in Mg, Ms.
  assert (i_id i = id) as Eid.
  { rewrite (ok_id _ _ Hok). unfold r, ref_of. destruct (id <? GIC_CPU_PRIV); simpl; lia. }
  assert (soft_state i1 = PEND) as Est by (unfold soft_state; rewrite not_sgi by (simpl; lia); done).
  assert (exists lr, lr_value i1 PEND = (lr, sgi_pend i1) /\ lr_reads i1 lr PEND /\
    (i_hw i = true -> ext 10 10 lr = id /\ Z.testbit lr 31 = true)) as (lr & Elr & R & Hlink).
  { rewrite <- Eid. apply (lr_value_pend i1); [simpl; lia|apply Hok]. }
  destruct (vgic_add_lr_free v c1 r w1 i1 k lr (sgi_pend i1)) as (w2 & c2 & E2 & Hi2 & G2 & _ & S2);
    [done|done|done|done|by rewrite Mg|unfold lr_free; by rewrite Mg|intros j Hj; unfold lr_free; rewrite Mg; by apply Hfirst|by rewrite Est|].
  destruct R as [Rg Rv Rs Rp]. rewrite Mg in G2.
  exists (put_at w2 r (set_lock (in_register i1 (sgi_pend i1) k) (spin_unlock l))), (set_lock (in_register i1 (sgi_pend i1) k) (spin_unlock l)), lr.
  split.
  { unfold vgic_inject_hw, mbind, st_bind. rewrite (get_vcpu_run _ _ _ (rd_pos _ _ _ _ Hr) (rd_vcpu _ _ _ _ Hr)).
    rewrite (vgic_get_int_run _ _ _ _ (rd_pos _ _ _ _ Hr) (rd_vcpu _ _ _ _ Hr) Hnum). fold r. unfold deref, mret, st_ret at 1.
    rewrite El. rewrite (upd_int_run _ _ _ (set_lock i l)) by exact (put_at_same _ _ _ _ Hi). rewrite put_at_put_at.
    fold i1. fold w1. rewrite E2. unfold unlock_int. by rewrite (upd_int_run _ _ _ _ Hi2). }
  destruct (put_at_misc w2 r (set_lock (in_register i1 (sgi_pend i1) k) (spin_unlock l))) as (_ & Mg2 & _ & _ & _ & Ms2).
  split; [exact (put_at_same _ _ _ _ Hi2)|]. split; [done|]. split; [apply u8_small; lia|]. split; [done|]. split; [done|].
  rewrite Mg2, G2, Ms2, S2, Ms. cbn [hw set_hw]. split; [rewrite gl_same by done; by apply u32_small|].
  split; [rewrite Rv; exact Eid|]. split; [done|]. split; [exact Rp|]. split; [done|]. split; [done|].
  intros n Hn. rewrite gl_other by (done || congruence). done.
Qed.

(** C23: an enabled device interrupt that is injected reaches the guest: when list
    register [k] is the first free one, [vgic_inject_hw] returns with the
    interrupt pending in register [k], under its own number and priority and,
    when it belongs to a physical interrupt, linked to it; it is owned by the
    virtual CPU, its lock is released, and the other list registers and the
    spilled lists are untouched. *)
Theorem vgic_inject_hw_delivers {H} `{GicLaws H} (w : world H) v c i id k :
  let r := ref_of v id in
  ready v c r w -> 16 <= id < 1024 -> id < int_num (d (wvm w)) -> int_at w r = Some i ->
  unlocked (i_lock i) -> enabled i = true ->
  0 <= k < NUM_LRS (wgic w) -> lr_free w k = true -> (forall j, 0 <= j < k -> lr_free w j = false) ->
  exists w' i' lr, vgic_inject_hw v id w = Ok ((), w') /\ int_at w' r = Some i' /\
    in_lr i' = true /\ i_lr i' = k /\ owner i' = Some v /\ unlocked (i_lock i') /\
    hw_read (hw (wgic w')) (LR k) = lr /\ GICH_LR_VID lr = id /\ GICH_LR_STATE lr = PEND /\
    ext 23 5 lr = Z.shiftr (i_prio i) 3 /\ (i_hw i = true -> ext 10 10 lr = id /\ Z.testbit lr 31 = true) /\
    spilled (wvm w') = spilled (wvm w) /\
    forall n, n ≠ k -> hw_read (hw (wgic w')) (LR n) = hw_read (hw (wgic w)) (LR n).
Proof. apply inject_hw_run. Qed.

(** *** Examples *)

Lemma fresh_ready {H} `{GicHw H} (g : gic H) s ncpus nints v r :
  0 <= v < ncpus -> 0 <= nints < 2 ^ 63 -> 0 <= NUM_LRS g <= 64 ->
  ready v (fresh_vcpu v) r (fresh_world g s ncpus nints v).
Proof.
  intros Hv Hn Hg. split; try done; try lia.
  - by apply fresh_wf.
  - cbn [wvm fresh_world vcpus fresh_vm]. rewrite list_lookup_fmap, lookup_seqZ_lt by lia. simpl. f_equal. f_equal. lia.
  - cbn [curr_lrs fresh_vcpu]. by apply Forall_replicate.
  - cbn [wvm fresh_world d fresh_vm d_ints int_num]. rewrite length_fmap, length_seqZ. lia.
  - intros r' i _ Hi. apply fresh_int_at in Hi. destruct r' as [v' k|k].
    + destruct Hi as (_ & _ & ->). destruct (k <? GIC_MAX_SGIS); by split.
    + by destruct Hi as [_ ->].
Qed.

(** Interrupt 3 from virtual CPUs 0 and 2, pending. *)
Definition demo_sgi : vgic_int := VgicInt (Some 0) SPINLOCK_INITVAL 3 PEND 0xa0 0 0 0 5 false false true.

Lemma vgic_lr_round_trip_witness :
  exists w1 w2, vgic_write_lr 0 (Priv 0 3) 2 (put_at demo_world (Priv 0 3) demo_sgi) = Ok ((), w1) /\
    vgic_remove_lr 0 (Priv 0 3) w1 = Ok (true, w2) /\
    match int_at w2 (Priv 0 3) with Some i => sgi_pend i | None => 0 end = 5.
Proof.
  assert (exists old, int_at demo_world (Priv 0 3) = Some old) as [old Ho] by (eexists; reflexivity).
  destruct (ready_put 0 (fresh_vcpu 0) (Priv 0 3) demo_world demo_sgi old) as (c & Hr & _);
    [apply fresh_ready; simpl; lia|exact Ho|by split|].
  destruct (vgic_lr_round_trip (put_at demo_world (Priv 0 3) demo_sgi) 0 c (Priv 0 3) demo_sgi 2)
    as (w1 & w2 & E1 & E2 & Hi & _); [exact Hr|exact (put_at_same _ _ _ _ Ho)|reflexivity|reflexivity|by cbv|by split|by vm_compute|by vm_compute|].
  exists w1, w2. split; [exact E1|]. split; [exact E2|]. rewrite Hi. reflexivity.
Defined.

(** Interrupt 40, enabled. *)
Definition demo_spi : vgic_int := VgicInt None SPINLOCK_INITVAL 40 INV 0x50 0 0 1 0 true false true.

Lemma vgic_inject_hw_delivers_witness :
  exists w', vgic_inject_hw 0 40 (put_at demo_world (Spi 8) demo_spi) = Ok ((), w') /\
    GICH_LR_VID (hw_read (hw (wgic w')) (LR 0)) = 40.
Proof.
  assert (exists old, int_at demo_world (Spi 8) = Some old) as [old Ho] by (eexists; reflexivity).
  destruct (ready_put 0 (fresh_vcpu 0) (Spi 8) demo_world demo_spi old) as (c & Hr & _);
    [apply fresh_ready; simpl; lia|exact Ho|by split|].
  destruct (vgic_inject_hw_delivers (put_at demo_world (Spi 8) demo_spi) 0 c demo_spi 40 0)
    as (w' & i' & lr & E & _ & _ & _ & _ & _ & Hlr & Hv & _);
    [exact Hr|lia|by vm_compute|exact (put_at_same _ _ _ _ Ho)|by split|reflexivity|by split|by vm_compute|lia|].
  exists w'. split; [exact E|]. rewrite Hlr. exact Hv.
Defined.
