(* ===== verification/VgicSpec.v ===== *)
(** What the virtual interrupt controller promises its callers: which spilled
    interrupt it takes next, when refilling ends, how register accesses and
    messages between CPUs are decoded. *)

From S2P Require Import Prelude Bit Bitmap Spinlock PhysMem Objpool Mem PageTable Mmu Dlist Cpu Gic Vm Vgic VgicInv VgicLr.

(** ** The most urgent spilled interrupt *)

(** Lower priority values are more urgent, then lower numbers. *)
Definition urgent (a b : Z * Z) : Prop := a.1 < b.1 \/ (a.1 = b.1 /\ a.2 < b.2).

#[export] Instance urgent_dec a b : Decision (urgent a b).
Proof. unfold urgent. apply _. Defined.

Lemma urgent_trans a b c : urgent a b -> urgent b c -> urgent a c.
Proof. unfold urgent. lia. Qed.

Lemma urgent_irrefl a : ~ urgent a a.
Proof. unfold urgent. lia. Qed.

Lemma not_urgent_trans a b c : urgent b c -> ~ urgent a c -> ~ urgent a b.
Proof. unfold urgent. lia. Qed.

Definition key (i : vgic_int) : Z * Z := (i_prio i, i_id i).
Definition wanted (flags : Z) (i : vgic_int) : bool := has (soft_state i) flags.
Definition least : Z * Z := (GIC_LOWEST_PRIO, GIC_MAX_VALID_INTERRUPTS).

Section spilled.
Context {H : Type} `{GicHw H}.
Implicit Types w : world H.

Definition best_key w (irq : option (intref * snode)) : Z * Z :=
  match irq with
  | None => least
  | Some (r, _) => match int_at w r with Some i => key i | None => least end
  end.

(** [irq] is the most urgent of the wanted interrupts among [L]. *)
Record best w (flags : Z) (L : list (intref * snode)) (irq : option (intref * snode)) : Prop := {
  best_in : match irq with
            | None => True
            | Some (r, h) => (r, h) ∈ L /\ exists i, int_at w r = Some i /\ wanted flags i = true /\ urgent (key i) least
            end;
  best_min : forall t h i, (t, h) ∈ L -> int_at w t = Some i -> wanted flags i = true -> ~ urgent (key i) (best_key w irq);
}.

(** An interrupt on a spilled list: it exists and is in no list register. *)
Definition spilled_out w (t : intref) : Prop := exists i, int_at w t = Some i /\ in_lr i = false.

Lemma better_spilled_run w flags h t irq L :
  spilled_out w t -> best w flags L irq ->
  exists irq', better_spilled flags h (SInt t) (irq, w) = Ok (irq', w, false) /\ best w flags (L ++ [(t, h)]) irq'.
Proof.
  intros (i & Hi & Ho) [Bin Bmin]. unfold better_spilled, mbind, outcome_bind. rewrite (vgic_get_state_out _ _ _ Hi Ho).
  assert (forall t' h' i', (t', h') ∈ L ++ [(t, h)] -> int_at w t' = Some i' -> (t', h') ∈ L \/ i' = i) as Hsplit.
  { intros t' h' i' [Hin|[= -> ->]%list_elem_of_singleton]%elem_of_app Hi'; [by left|right; congruence]. }
  destruct (Z.land (soft_state i) flags =? 0) eqn:Ef.
  - exists irq. split; [done|]. split.
    + destruct irq as [[r h']|]; [|done]. destruct Bin as [Bi ?]. split; [set_solver|done].
    + intros t' h' i' Hin Hi' Hw. destruct (Hsplit _ _ _ Hin Hi') as [HL| ->]; [by eapply Bmin|].
      unfold wanted, has in Hw. by rewrite Ef in Hw.
  - assert (wanted flags i = true) as Hwi by (unfold wanted, has; by rewrite Ef).
    rewrite (get_int_run _ _ _ Hi).
    assert ((match irq with
             | None => Ok (GIC_LOWEST_PRIO, GIC_MAX_VALID_INTERRUPTS, w)
             | Some (r, _) => match get_int r w with Ok (i, w) => Ok (i_prio i, i_id i, w) | Halt e => Halt e end
             end) = Ok (best_key w irq, w)) as Ek.
    { destruct irq as [[r h']|]; [|done]. destruct Bin as (_ & j & Hj & _). by rewrite (get_int_run _ _ _ Hj); simpl; rewrite Hj. }
    rewrite Ek. clear Ek. destruct (best_key w irq) as [kp ki] eqn:Ekey. rewrite <- Ekey in Bmin.
    destruct (_ || _) eqn:Eb.
    + exists (Some (t, h)). split; [done|].
      assert (urgent (key i) (best_key w irq)) as Hu.
      { rewrite Ekey. unfold urgent, key. simpl. lia. }
      assert (best_key w irq = least \/ urgent (best_key w irq) least) as Hle.
      { destruct irq as [[r h']|]; [|by left]. destruct Bin as (_ & j & Hj & _ & Hu'). right. simpl. by rewrite Hj. }
      split.
      * split; [set_solver|]. exists i. split; [done|]. split; [done|].
        destruct Hle as [<-|Hle]; [done|by eapply urgent_trans].
      * intros t' h' i' Hin Hi' Hw. simpl. rewrite Hi. destruct (Hsplit _ _ _ Hin Hi') as [HL| ->]; [|apply urgent_irrefl].
        eapply not_urgent_trans; [exact Hu|]. by eapply Bmin.
    + exists irq. split; [done|]. split.
      * destruct irq as [[r h']|]; [|done]. destruct Bin as [Bi ?]. split; [set_solver|done].
      * intros t' h' i' Hin Hi' Hw. destruct (Hsplit _ _ _ Hin Hi') as [HL| ->]; [by eapply Bmin|].
        rewrite Ekey. unfold urgent, key. simpl. lia.
Qed.

Lemma best_fold w flags h ts L irq :
  Forall (spilled_out w) ts -> best w flags L irq ->
  exists irq', fold_until (better_spilled flags h) (SInt <$> ts) (irq, w) = Ok (irq', w) /\
    best w flags (L ++ ((fun t => (t, h)) <$> ts)) irq'.
Proof.
  intros Hts. revert L irq. induction Hts as [|t ts Ht Hts IH]; intros L irq HB.
  - exists irq. split; [done|]. simpl. by rewrite app_nil_r.
  - destruct (better_spilled_run w flags h t irq L Ht HB) as (irq1 & E1 & HB1).
    destruct (IH _ _ HB1) as (irq2 & E2 & HB2). exists irq2. split.
    + cbn [fmap list_fmap fold_until]. rewrite E1. mstep. exact E2.
    + cbn [fmap list_fmap]. by rewrite <- app_assoc in HB2.
Qed.

(** The two lists virtual CPU [v] takes interrupts from. *)
Record spilled_lists w (v : Z) (own shared : list intref) : Prop := {
  sl_own : is_list (spilled (wvm w)) (SVcpu v) (SInt <$> own);
  sl_shared : is_list (spilled (wvm w)) SVm (SInt <$> shared);
  sl_out : Forall (spilled_out w) (own ++ shared);
}.

Definition candidates (v : Z) (own shared : list intref) : list (intref * snode) :=
  ((fun t => (t, SVcpu v)) <$> own) ++ ((fun t => (t, SVm)) <$> shared).

Lemma highest_run fuel w v flags own shared :
  spilled_lists w v own shared -> (length own < fuel)%nat -> (length shared < fuel)%nat ->
  exists irq, vgic_highest_prio_spilled fuel v flags w = Ok (irq, w) /\ best w flags (candidates v own shared) irq.
Proof.
  intros [Ho Hs [Fo Fs]%Forall_app] Lo Ls.
  destruct (best_fold w flags (SVcpu v) own [] None Fo) as (i1 & E1 & B1); [by split; [|set_solver]|].
  destruct (best_fold w flags SVm shared _ i1 Fs B1) as (i2 & E2 & B2). exists i2. split; [|exact B2].
  unfold vgic_highest_prio_spilled. rewrite (list_for_each_entry_fold _ _ _ _ _ _ Ho) by (by rewrite length_fmap).
  rewrite E1. mstep. by rewrite (list_for_each_entry_fold _ _ _ _ _ _ Hs) by (by rewrite length_fmap).
Qed.

(** ** Refilling *)

(** The first free list register, as [vgic_refill_lrs] looks for it. *)
Lemma word_bits e j : 0 <= e < 2 ^ 64 -> 0 <= j < 64 -> bit [u32 e; Z.shiftr e 32] j = Z.testbit e j.
Proof.
  intros He Hj. unfold bit. destruct (Z.lt_ge_cases j 32).
  - rewrite Z.div_small, Z.mod_small by lia. simpl. rewrite testbit_u32 by lia.
    by rewrite (proj2 (Z.ltb_lt j 32)).
  - replace (j / 32) with 1 by (apply (Z.div_unique j 32 1 (j - 32)); lia).
    replace (j mod 32) with (j - 32) by (apply (Z.mod_unique j 32 1); lia). simpl.
    rewrite Z.shiftr_spec by lia. f_equal. lia.
Qed.

Lemma find_lr_run w e : 0 <= e < 2 ^ 64 -> 0 < NUM_LRS (wgic w) <= 64 ->
  (exists k, 0 <= k < NUM_LRS (wgic w) /\ Z.testbit e k = true) ->
  exists k, find_lr e w = Ok (k, w) /\ 0 <= k < NUM_LRS (wgic w) /\ Z.testbit e k = true.
Proof.
  intros He Hn (k0 & Hk0 & Hb0). unfold find_lr, mbind, st_bind, gets, lift.
  destruct (bitmap_find_first_spec [u32 e; Z.shiftr e 32] (NUM_LRS (wgic w)) 0 true) as (r & -> & Hr); [lia|by change (nbits [_; _]) with 64|done|].
  destruct Hr as [(Hr & Hb & _)|[_ Hrun]].
  - exists r. rewrite (proj2 (Z.ltb_lt r (2 ^ 63))) by lia. rewrite word_bits in Hb by lia. done.
  - specialize (Hrun k0 ltac:(lia)). rewrite word_bits, Hb0 in Hrun by lia. done.
Qed.

(** The most urgent wanted interrupt [r] belongs to another virtual CPU. *)
Record stuck w (v flags : Z) (own shared : list intref) (r : intref) (i : vgic_int) : Prop := {
  sk_lists : spilled_lists w v own shared;
  sk_in : r ∈ own ++ shared;
  sk_at : int_at w r = Some i;
  sk_lock : unlocked (i_lock i);
  sk_wanted : wanted flags i = true;
  sk_least : urgent (key i) least;
  sk_first : forall t j, t ∈ own ++ shared -> t ≠ r -> int_at w t = Some j -> wanted flags j = true -> urgent (key i) (key j);
  sk_owner : exists o, owner i = Some o /\ o ≠ v;
}.

Lemma candidates_in v own shared t h : (t, h) ∈ candidates v own shared -> t ∈ own ++ shared.
Proof.
  unfold candidates. rewrite !elem_of_app, !list_elem_of_fmap. intros [(x & [= -> ->] & Hx)|(x & [= -> ->] & Hx)]; auto.
Qed.

Lemma in_candidates v own shared t : t ∈ own ++ shared -> exists h, (t, h) ∈ candidates v own shared.
Proof.
  unfold candidates. setoid_rewrite elem_of_app. setoid_rewrite list_elem_of_fmap. intros [Hx|Hx]; eauto 6.
Qed.

(** Then it is the one the search returns. *)
Lemma stuck_best w v flags own shared r i irq :
  stuck w v flags own shared r i -> best w flags (candidates v own shared) irq -> exists h, irq = Some (r, h).
Proof.
  intros [Hl Hin Hi Hu Hw Hk Hf Ho] [Bin Bmin]. destruct (in_candidates v _ _ _ Hin) as [h Hh].
  pose proof (Bmin r h i Hh Hi Hw) as Hbest. destruct irq as [[t h']|]; [|done].
  destruct Bin as (Ht & j & Hj & Hwj & _). simpl in Hbest. rewrite Hj in Hbest.
  destruct (decide (t = r)) as [->|Hne]; [by eexists|]. destruct Hbest.
  apply (Hf t); [by eapply candidates_in|done..].
Qed.

(** A change of the interrupt's lock only. *)
Lemma stuck_lock w v flags own shared r i l :
  stuck w v flags own shared r i -> unlocked l -> stuck (put_at w r (set_lock i l)) v flags own shared r (set_lock i l).
Proof.
  intros [[Sl Ss So] Hin Hi Hu Hw Hk Hf Ho] Hl. destruct (put_at_misc w r (set_lock i l)) as (_ & _ & _ & _ & _ & Ms).
  split; try done.
  - split; rewrite ?Ms; try done. eapply Forall_impl; [exact So|]. intros t (j & Hj & Hoj).
    destruct (decide (t = r)) as [->|Hne].
    + exists (set_lock i l). split; [by apply (put_at_same _ _ _ i)|]. by assert (j = i) as -> by congruence.
    + exists j. by rewrite (put_at_other _ _ _ _ _ Hi).
  - by apply (put_at_same _ _ _ i).
  - intros t j Ht Hne. rewrite (put_at_other _ _ _ _ _ Hi) by done. by apply Hf.
Qed.

(** The lock of the lists plays no part in it. *)
Lemma stuck_spilled_lock w v flags own shared r i l :
  stuck w v flags own shared r i ->
  stuck (set_vm w (set_spilled (wvm w) (spilled (wvm w)) l)) v flags own shared r i.
Proof. intros [[Sl Ss So] Hin Hi Hu Hw Hk Hf Ho]. by split. Qed.

(** An attempt to take it. *)
Lemma get_ownership_refused w v r i o : int_at w r = Some i -> owner i = Some o -> o ≠ v ->
  vgic_get_ownership v r w = Ok (false, w).
Proof.
  intros Hi Ho Hne. unfold vgic_get_ownership, mbind, st_bind. rewrite (get_int_run _ _ _ Hi), Ho.
  by rewrite decide_False, decide_False by congruence.
Qed.

Lemma refill_loop_stuck fuel k w v flags lr own shared r i :
  stuck w v flags own shared r i -> (length own < fuel)%nat -> (length shared < fuel)%nat -> 0 <= lr ->
  refill_loop fuel k v lr flags w = Halt HFuel.
Proof.
  revert w i. induction k as [|k IH]; intros w i Hs Lo Ls Hlr; [done|]. simpl. rewrite (proj2 (Z.ltb_ge lr 0)) by done.
  unfold mbind, st_bind. destruct (highest_run fuel w v flags own shared (sk_lists _ _ _ _ _ _ _ Hs) Lo Ls) as (irq & -> & HB).
  destruct (stuck_best _ _ _ _ _ _ _ _ Hs HB) as [h ->].
  destruct (lock_int_run _ _ _ (sk_at _ _ _ _ _ _ _ Hs) (sk_lock _ _ _ _ _ _ _ Hs)) as (l & -> & Hul).
  set (w1 := put_at w r (set_lock i l)).
  assert (int_at w1 r = Some (set_lock i l)) as Hi1 by exact (put_at_same _ _ _ _ (sk_at _ _ _ _ _ _ _ Hs)).
  destruct (sk_owner _ _ _ _ _ _ _ Hs) as (o & Ho & Hne). rewrite (get_ownership_refused _ _ _ _ o Hi1 Ho Hne).
  unfold mret at 1, st_ret at 1. unfold unlock_int. rewrite (upd_int_run _ _ _ _ Hi1). unfold w1. rewrite put_at_put_at.
  change (negb false) with true. cbv iota. apply (IH _ (set_lock i (spin_unlock l))); try done.
  exact (stuck_lock _ _ _ _ _ _ _ (spin_unlock l) Hs Hul).
Qed.
End spilled.

(** ** The properties *)

(** C27: [vgic_highest_prio_spilled] returns, leaves everything as it is and gives
    the most urgent interrupt (lowest priority value, then lowest number) that
    is in a state asked for, among the virtual CPU's own spilled interrupts and
    the VM's, with the list it is on; NULL exactly when there is none. *)
Theorem vgic_highest_prio_spilled_min {H} `{GicHw H} (fuel : nat) (w : world H) v flags own shared :
  spilled_lists w v own shared -> (length own < fuel)%nat -> (length shared < fuel)%nat ->
  (forall t i, t ∈ own ++ shared -> int_at w t = Some i -> 0 <= i_prio i < 256 /\ i_id i < 1020) ->
  exists irq, vgic_highest_prio_spilled fuel v flags w = Ok (irq, w) /\
    match irq with
    | Some (r, h) => (r, h) ∈ candidates v own shared /\
        exists i, int_at w r = Some i /\ wanted flags i = true /\
          forall t j, t ∈ own ++ shared -> int_at w t = Some j -> wanted flags j = true -> ~ urgent (key j) (key i)
    | None => forall t j, t ∈ own ++ shared -> int_at w t = Some j -> wanted flags j = false
    end.
Proof.
  intros Hs Lo Ls Hr. destruct (highest_run fuel w v flags own shared Hs Lo Ls) as (irq & E & [Bin Bmin]).
  exists irq. split; [done|]. destruct irq as [[r h]|].
  - destruct Bin as (Hin & i & Hi & Hw & _). split; [done|]. exists i. split; [done|]. split; [done|].
    intros t j Ht Hj Hwj. destruct (in_candidates v _ _ _ Ht) as [h' Hh]. specialize (Bmin _ _ _ Hh Hj Hwj).
    simpl in Bmin. by rewrite Hi in Bmin.
  - intros t j Ht Hj. destruct (wanted flags j) eqn:Hwj; [|done]. destruct (in_candidates v _ _ _ Ht) as [h' Hh].
    destruct (Bmin _ _ _ Hh Hj Hwj). destruct (Hr _ _ Ht Hj). unfold urgent, key, best_key, least. simpl.
    change GIC_LOWEST_PRIO with 255. change GIC_MAX_VALID_INTERRUPTS with 1020. lia.
Qed.

(** [vgic_refill_lrs] waits with a lock held.  An active interrupt that is spilled stays
    with the virtual CPU that took it, on the list all virtual CPUs share; when it
    is the most urgent there, refilling the list registers of another virtual CPU,
    with a register free, asks for its ownership again and again with the
    lock of the lists held.  It does so as long as the owner leaves the interrupt
    active: on its own it never ends, whatever the number of turns.  (The owner can
    end the wait by completing the interrupt, which takes the interrupt's
    lock only.) *)
Theorem vgic_refill_lrs_waits {H} `{GicLaws H} (fuel : nat) (w : world H) v (npie : bool) own shared r i :
  stuck w v (if npie then PEND else Z.lor ACT PEND) own shared r i ->
  (length own < fuel)%nat -> (length shared < fuel)%nat -> unlocked (vgic_spilled_lock (wvm w)) ->
  0 < NUM_LRS (wgic w) <= 64 -> (exists k, 0 <= k < NUM_LRS (wgic w) /\ lr_free w k = true) ->
  vgic_refill_lrs fuel v npie w = Halt HFuel.
Proof.
  intros Hs Lo Ls Hu Hn (k0 & Hk0 & Hf0). destruct (elrsr_run w ltac:(lia)) as (e & Ee & He & Hb).
  destruct (find_lr_run w e He Hn) as (k & Ek & Hk & Hkb).
  { exists k0. split; [done|]. rewrite <- bit64_get_testbit by lia. by rewrite Hb. }
  unfold vgic_refill_lrs, mbind, st_bind. rewrite Ee, Ek. unfold lock_spilled, mbind.
  destruct (spin_lock_unlock _ Hu) as (l & -> & _). unfold mbind, outcome_bind.
  by rewrite (refill_loop_stuck fuel fuel _ v _ k own shared r i) by (done || lia || by apply stuck_spilled_lock).
Qed.

(** *** Examples *)

(** Interrupt 40, active, taken by virtual CPU 1 and spilled. *)
Definition spilled_40 : vgic_int := VgicInt (Some 1) SPINLOCK_INITVAL 40 ACT 0x50 0 0 3 0 false false true.

Definition spilled_world : world regfile :=
  let w := put_at demo_world (Spi 8) spilled_40 in
  set_vm w (set_spilled (wvm w)
    (<[SInt (Spi 8) := Link (Some SVm) (Some SVm)]> (<[SVm := Link (Some (SInt (Spi 8))) (Some (SInt (Spi 8)))]> (spilled (wvm w))))
    SPINLOCK_INITVAL).

Lemma spilled_world_at : int_at spilled_world (Spi 8) = Some spilled_40.
Proof. reflexivity. Qed.

Lemma spilled_world_lists : spilled_lists spilled_world 0 [] [Spi 8].
Proof.
  split.
  - split; [by apply (bool_decide_unpack _)|by vm_compute].
  - split; [by apply (bool_decide_unpack _)|by vm_compute].
  - apply Forall_singleton. exists spilled_40. split; [apply spilled_world_at|reflexivity].
Qed.

Lemma vgic_highest_prio_spilled_min_witness :
  exists irq, vgic_highest_prio_spilled 5 0 ACT spilled_world = Ok (irq, spilled_world) /\
    exists h, irq = Some (Spi 8, h).
Proof.
  destruct (vgic_highest_prio_spilled_min 5 spilled_world 0 ACT [] [Spi 8]) as (irq & E & Hm);
    [exact spilled_world_lists|simpl; lia|simpl; lia| |].
  - intros t i Ht Hi. apply list_elem_of_singleton in Ht as ->. rewrite spilled_world_at in Hi. injection Hi as <-. simpl. lia.
  - exists irq. split; [exact E|]. destruct irq as [[r h]|].
    + destruct Hm as [Hin _]. apply candidates_in, list_elem_of_singleton in Hin as ->. by exists h.
    + specialize (Hm (Spi 8) spilled_40 ltac:(left) spilled_world_at). discriminate Hm.
Defined.

Lemma vgic_refill_lrs_waits_witness : vgic_refill_lrs 1000 0 false spilled_world = Halt HFuel.
Proof.
  apply (vgic_refill_lrs_waits 1000 spilled_world 0 false [] [Spi 8] (Spi 8) spilled_40).
  - split; [exact spilled_world_lists|left|exact spilled_world_at|by split|reflexivity|by left| |by exists 1].
    intros t j Ht Hne. by apply list_elem_of_singleton in Ht.
  - simpl. lia.
  - simpl. lia.
  - by split.
  - by split.
  - exists 0. split; [by split|by vm_compute].
Defined.
