(* ===== verification/VgicRegs.v ===== *)
(** The distributor's registers as the guest sees them: which handler serves an
    address, what a read returns, and the messages that carry a write to the CPU
    that owns the interrupt. *)

From S2P Require Import Prelude Bit Bitmap Spinlock PhysMem Objpool Mem PageTable Mmu Dlist Cpu Gic Vm Vgic VgicInv VgicLr.

(** ** Reading fields *)

Section regs.
Context {H : Type} `{GicHw H}.
Implicit Types w : world H.

Definition flag (b : bool) : Z := if b then 1 else 0.

(** The registers with one field per interrupt, the bytes they take and the
    field. *)
Definition field_regs : list (vgic_reg_handler_info H * Z * (vgic_int -> Z)) :=
  [(isenabler_info, 0x80, fun i => flag (enabled i)); (icenabler_info, 0x80, fun i => flag (enabled i));
   (ispendr_info, 0x80, fun i => flag (has (i_state i) PEND)); (icpendr_info, 0x80, fun i => flag (has (i_state i) PEND));
   (isactiver_info, 0x80, fun i => flag (has (i_state i) ACT)); (iactiver_info, 0x80, fun i => flag (has (i_state i) ACT));
   (icfgr_info, 0x80, i_cfg); (ipriorityr_info, 0x400, i_prio)].

Definition reads (info : vgic_reg_handler_info H) (f : vgic_int -> Z) : Prop :=
  exists rf, read_field info = Some rf /\ forall w v r i, int_at w r = Some i -> rf v r w = Ok (f i, w).

Lemma field_regs_sound info size f : (info, size, f) ∈ field_regs ->
  reg_access info = vgic_emul_generic /\ (Z.land (alignment info) 4 =? 0) = false /\
  (field_width info = 1 \/ field_width info = 2 \/ field_width info = 8) /\ reads info f.
Proof.
  intros Hin. assert (forall m g, (forall w v r i, int_at w r = Some i -> m v r w = Ok (g i, w)) ->
    forall fn al rid base fw upd uhw, reads (HandlerInfo fn al rid base fw (Some m) upd uhw) g) as Hmk.
  { intros m g Hm fn al rid base fw upd uhw. by exists m. }
  repeat (apply elem_of_cons in Hin as [[= -> -> ->]|Hin]; [
    split; [done|]; split; [done|]; split; [simpl; lia|]; apply Hmk; intros w v r i Hi;
    unfold vgic_int_get_enable, vgic_int_get_pend, vgic_int_get_act, vgic_int_get_cfg, vgic_int_get_prio, mbind, st_bind;
    by rewrite (get_int_run _ _ _ Hi) |]).
  by apply not_elem_of_nil in Hin.
Qed.

Lemma group_of off g : 0 <= g -> g * 0x80 <= off < g * 0x80 + 0x80 -> Z.shiftr off 7 = g.
Proof. intros Hg Ho. rewrite Z.shiftr_div_pow2 by lia. symmetry. apply (Z.div_unique off (2 ^ 7) g (off - g * 0x80)); lia. Qed.

(** Each serves its own addresses. *)
Lemma field_regs_select info size f acc : (info, size, f) ∈ field_regs ->
  regroup_base info <= GICD_REG_MASK (acc_addr acc) < regroup_base info + size -> select_handler acc = info.
Proof.
  intros Hin Hoff. unfold select_handler. set (off := GICD_REG_MASK (acc_addr acc)) in *. cbv zeta.
  do 7 (apply elem_of_cons in Hin as [[= -> -> ->]|Hin]; [
    match type of Hoff with regroup_base ?X <= _ < _ => let e := eval vm_compute in (regroup_base X) in let b := eval vm_compute in (e / 0x80) in
      change (regroup_base X) with e in Hoff; rewrite (group_of off b) by lia end; reflexivity |]).
  apply list_elem_of_singleton in Hin as [= -> -> ->]. simpl in Hoff.
  assert (8 <= Z.shiftr off 7 < 16) as Hg.
  { change off_IPRIORITYR with 0x400 in Hoff. rewrite Z.shiftr_div_pow2 by lia. split.
    - apply Z.div_le_lower_bound; lia.
    - apply Z.div_lt_upper_bound; lia. }
  repeat match goal with |- context [Z.shiftr off 7 =? ?g] =>
    let n := eval vm_compute in g in change g with n; rewrite (proj2 (Z.eqb_neq (Z.shiftr off 7) n)) by lia end.
  unfold GICD_IS_REG. by rewrite in_interval_true by (change off_IPRIORITYR with 0x400 in *; lia).
Qed.

(** What a read finds for interrupt [id]. *)
Definition field_at w (v : Z) (f : vgic_int -> Z) (id : Z) : Z :=
  if id <? int_num (d (wvm w)) then match int_at w (ref_of v id) with Some i => f i | None => 0 end else 0.

(** The virtual CPU [v] runs here and has all its interrupts. *)
Record guest w (v : Z) (c : vcpu) : Prop := {
  gu_pos : 0 <= v;
  gu_vcpu : vcpus (wvm w) !! Z.to_nat v = Some c;
  gu_cur : cur_vcpu w = v;
  gu_num : 32 <= int_num (d (wvm w)) <= 1024;
  gu_ints : forall id, 0 <= id < int_num (d (wvm w)) -> is_Some (int_at w (ref_of v id));
}.

Lemma vgic_get_int_none w v id u : 32 <= int_num (d (wvm w)) <= id -> vgic_get_int v id u w = Ok (None, w).
Proof.
  intros Hid. unfold vgic_get_int, mbind, st_bind, gets. change GIC_CPU_PRIV with 32.
  rewrite (proj2 (Z.ltb_ge id 32)), (proj2 (Z.ltb_ge id _)) by lia. done.
Qed.

Lemma field_mask fw : fw = 1 \/ fw = 2 \/ fw = 8 -> u64 (lsl64 1 fw - 1) = Z.ones fw.
Proof. by intros [->|[->| ->]]. Qed.

Lemma field_bit fw k x b : fw = 1 \/ fw = 2 \/ fw = 8 -> 0 <= k -> (k + 1) * fw <= 64 -> 0 <= b < 64 ->
  Z.testbit (lsl64 (Z.land x (Z.ones fw)) (u64 (k * fw))) b = (k * fw <=? b) && (b <? (k + 1) * fw) && Z.testbit x (b mod fw).
Proof.
  intros Hfw Hk Hle Hb. rewrite u64_small by lia. rewrite testbit_lsl64 by lia.
  rewrite (proj2 (Z.ltb_lt b 64)) by lia. cbn [andb]. destruct (Z.leb_spec (k * fw) b); cbn [andb].
  - rewrite Z.land_spec, Z.testbit_ones by lia. destruct (Z.ltb_spec b ((k + 1) * fw)).
    + rewrite in_interval_true, andb_true_r by lia. cbn [andb]. f_equal. apply (Z.mod_unique b fw k); lia.
    + rewrite (proj2 (Z.ltb_ge (b - k * fw) fw)) by lia. rewrite (proj2 (Z.leb_le 0 (b - k * fw))) by lia. by rewrite andb_false_r.
  - apply Z.testbit_neg_r. lia.
Qed.

Lemma access_fields_read ipi acc info f w v c first n k val :
  guest w v c -> acc_write acc = false -> reads info f ->
  (field_width info = 1 \/ field_width info = 2 \/ field_width info = 8) ->
  0 <= first < 2 ^ 32 -> 0 <= k -> (k + Z.of_nat n) * field_width info <= 64 ->
  exists val', access_fields ipi acc info (v_id c) first (Z.ones (field_width info)) n k val w = Ok (val', w) /\
    forall b, 0 <= b < 64 -> Z.testbit val' b = Z.testbit val b ||
      ((k * field_width info <=? b) && (b <? (k + Z.of_nat n) * field_width info) &&
       Z.testbit (field_at w v f (first + b / field_width info)) (b mod field_width info)).
Proof.
  intros Hg Hw (rf & Erf & Hrf) Hfw Hfirst. pose proof (gu_num _ _ _ Hg) as Hnum. set (fw := field_width info) in *.
  revert k val. induction n as [|n IH]; intros k val Hk Hle.
  - exists val. split; [done|]. intros b Hb. by rewrite in_interval_false, orb_false_r by lia.
  - cbn [access_fields]. unfold mbind, st_bind, gets. rewrite (gu_cur _ _ _ Hg), u64_small by lia.
    destruct (Z.lt_ge_cases (first + k) (int_num (d (wvm w)))) as [Hlt|Hge].
    + rewrite (vgic_get_int_run _ _ _ _ (gu_pos _ _ _ Hg) (gu_vcpu _ _ _ Hg) Hlt), Hw, Erf. unfold call_ptr, mret at 1, st_ret at 1.
      destruct (gu_ints _ _ _ Hg (first + k) ltac:(lia)) as [i Hi]. rewrite (Hrf _ _ _ _ Hi).
      destruct (IH (k + 1) (Z.lor val (lsl64 (Z.land (f i) (Z.ones fw)) (u64 (k * fw)))) ltac:(lia) ltac:(lia)) as (val' & E & Hb).
      exists val'. split; [done|]. intros b Hbr. rewrite Hb, Z.lor_spec, field_bit by lia || done. rewrite <- orb_assoc. f_equal.
      replace (k + 1 + Z.of_nat n) with (k + Z.of_nat (S n)) by lia.
      destruct (Z.leb_spec (k * fw) b); cbn [andb orb];
        [|by rewrite (proj2 (Z.leb_gt ((k + 1) * fw) b)) by lia].
      destruct (Z.ltb_spec b ((k + 1) * fw)); cbn [andb orb].
      * rewrite (proj2 (Z.leb_gt ((k + 1) * fw) b)), orb_false_r by lia. rewrite (proj2 (Z.ltb_lt b _)) by lia. cbn [andb].
        replace (b / fw) with k by (apply (Z.div_unique b fw k (b - k * fw)); lia).
        unfold field_at. by rewrite (proj2 (Z.ltb_lt (first + k) _)), Hi by lia.
      * by rewrite (proj2 (Z.leb_le ((k + 1) * fw) b)) by lia.
    + rewrite vgic_get_int_none by lia. exists val. split; [done|]. intros b Hb.
      destruct ((k * fw <=? b) && (b <? (k + Z.of_nat (S n)) * fw)) eqn:E; [|by rewrite orb_false_r].
      apply andb_true_iff in E as [E1%Z.leb_le E2%Z.ltb_lt]. cbn [andb].
      assert (k <= b / fw) by (apply Z.div_le_lower_bound; lia).
      unfold field_at. rewrite (proj2 (Z.ltb_ge (first + b / fw) _)) by lia. by rewrite Z.bits_0, orb_false_r.
Qed.

(** The distributor's lock plays no part in it. *)
Definition with_d_lock w (l : spinlock_t) : world H := set_vm w (set_d (wvm w) (set_d_lock (d (wvm w)) l)).

Lemma guest_d_lock w v c l : guest w v c -> guest (with_d_lock w l) v c.
Proof. intros []. by split. Qed.

(** Writing a general register of the guest. *)
Lemma set_vcpu_reg_run w v c reg val : guest w v c -> 0 <= reg <= 30 -> length (x c) = 31%nat ->
  set_vcpu_reg reg val w =
    Ok ((), set_vm w (set_vcpus (wvm w) (<[Z.to_nat v := set_x c (<[Z.to_nat reg := u64 val]> (x c))]> (vcpus (wvm w))))).
Proof.
  intros Hg Hr Hx. unfold set_vcpu_reg, mbind, st_bind, gets. rewrite (gu_cur _ _ _ Hg).
  rewrite (get_vcpu_run _ _ _ (gu_pos _ _ _ Hg) (gu_vcpu _ _ _ Hg)). unfold lift, vcpu_writereg.
  rewrite (proj2 (Z.ltb_ge 30 reg)) by lia. rewrite wr_Ok by lia. unfold mbind, outcome_bind.
  pose proof (lookup_lt_Some _ _ _ (gu_vcpu _ _ _ Hg)). pose proof (gu_pos _ _ _ Hg).
  unfold put_vcpu. by rewrite wr_Ok by lia.
Qed.

Lemma put_x_int_at w v c l r : 0 <= v -> vcpus (wvm w) !! Z.to_nat v = Some c ->
  int_at (set_vm w (set_vcpus (wvm w) (<[Z.to_nat v := set_x c l]> (vcpus (wvm w))))) r = int_at w r.
Proof.
  intros Hv Hc. destruct r as [v' k|k]; [|done]. simpl. destruct ((v' <? 0) || (k <? 0)); [done|].
  destruct (decide (Z.to_nat v' = Z.to_nat v)) as [->|Hne].
  - rewrite list_lookup_insert_eq, Hc by (by eapply lookup_lt_Some). done.
  - by rewrite list_lookup_insert_ne by done.
Qed.

(** The widths the registers accept: words, and bytes where a field is one. *)
Definition read_width (info : vgic_reg_handler_info H) (wd : Z) : Prop := wd = 4 \/ wd = 1 /\ field_width info = 8.

Lemma read_width_aligned info size f wd : (info, size, f) ∈ field_regs -> read_width info wd -> (Z.land (alignment info) wd =? 0) = false.
Proof.
  intros Hin Hwd. destruct (field_regs_sound _ _ _ Hin) as (_ & Ha & _). destruct Hwd as [->|[-> Hf]]; [done|].
  repeat (apply elem_of_cons in Hin as [[= -> -> ->]|Hin]; [done|]). by apply not_elem_of_nil in Hin.
Qed.

(** A read of one of the field registers, once the lock is taken. *)
Lemma generic_read ipi acc info size f w v c :
  guest w v c -> (info, size, f) ∈ field_regs -> acc_write acc = false -> read_width info (acc_width acc) ->
  regroup_base info <= GICD_REG_MASK (acc_addr acc) < regroup_base info + size -> 0 <= acc_reg acc <= 30 ->
  length (x c) = 31%nat ->
  let fw := field_width info in let first := (GICD_REG_MASK (acc_addr acc) - regroup_base info) * 8 / fw in
  exists val, vgic_emul_generic_access ipi acc info false (v_id c) w = Ok ((),
      set_vm w (set_vcpus (wvm w) (<[Z.to_nat v := set_x c (<[Z.to_nat (acc_reg acc) := val]> (x c))]> (vcpus (wvm w))))) /\
    0 <= val < 2 ^ 64 /\
    forall j, 0 <= j < acc_width acc * 8 / fw -> ext (j * fw) fw val = field_at w v f (first + j) mod 2 ^ fw.
Proof.
  intros Hg Hin Hw Hwd Hoff Hreg Hx fw first.
  destruct (field_regs_sound _ _ _ Hin) as (_ & _ & Hfw & Hrd). fold fw in Hfw.
  assert (0 <= regroup_base info /\ 0 <= GICD_REG_MASK (acc_addr acc) < 2 ^ 12) as [Hbase Hmask].
  { split.
    - clear -Hin. repeat (apply elem_of_cons in Hin as [[= -> -> ->]|Hin]; [done|]). by apply not_elem_of_nil in Hin.
    - unfold GICD_REG_MASK. change 0xfff with (Z.ones 12). rewrite Z.land_ones by lia. apply Z.mod_pos_bound. lia. }
  set (off := GICD_REG_MASK (acc_addr acc)) in *.
  assert (0 <= first < 2 ^ 32) as Hfirst.
  { unfold first. split; [apply Z.div_pos; lia|]. apply Z.div_lt_upper_bound; lia. }
  assert (0 < fw) by lia. set (W := acc_width acc * 8) in *.
  assert (0 < W / fw /\ W / fw * fw = W /\ 0 < W <= 32) as (Hn & Hn32 & HW).
  { unfold W. unfold read_width in Hwd. fold fw in Hwd. destruct Hwd as [E|[E1 E2]]; [rewrite E|rewrite E1, E2; done]. destruct Hfw as [->|[->| ->]]; done. }
  destruct (access_fields_read ipi acc info f w v c first (Z.to_nat (W / fw)) 0 0 Hg Hw Hrd Hfw Hfirst) as (val & E & Hb);
    [lia|fold fw; lia|]. fold fw in E, Hb.
  assert (forall b, 0 <= b < 64 -> Z.testbit (u64 val) b = (b <? W) && Z.testbit (field_at w v f (first + b / fw)) (b mod fw)) as Hbits.
  { intros b Hbr. rewrite testbit_u64, (proj2 (Z.ltb_lt b 64)) by lia. cbn [andb]. rewrite Hb, Z.bits_0 by lia. cbn [orb].
    rewrite (proj2 (Z.leb_le (0 * fw) b)) by lia. cbn [andb]. f_equal. f_equal. lia. }
  exists (u64 val). split; [|split; [apply u64_range|]].
  - unfold vgic_emul_generic_access, mbind, st_bind. rewrite Hw. fold off fw.
    rewrite (u64_small (off - regroup_base info)), (u64_small ((off - regroup_base info) * 8)) by lia. fold first. unfold mret at 1, st_ret at 1. rewrite (field_mask fw Hfw).
    fold W. rewrite E. cbn [when negb]. by apply set_vcpu_reg_run.
  - intros j Hj. assert (0 <= j * fw /\ j * fw + fw <= W) as [Hj1 Hj2] by nia.
    apply Z.bits_inj'. intros b Hb0. rewrite ext_testbit by lia. destruct (Z.ltb_spec b fw); cbn [andb].
    + rewrite Hbits, (proj2 (Z.ltb_lt (b + j * fw) W)) by lia. cbn [andb]. rewrite Z.mod_pow2_bits_low by lia.
      replace ((b + j * fw) / fw) with j by (apply (Z.div_unique _ _ j b); lia).
      f_equal. symmetry. apply (Z.mod_unique _ _ j); lia.
    + by rewrite Z.mod_pow2_bits_high by lia.
Qed.
End regs.

(** ** The properties *)

(** C25: what the guest reads from the distributor are the fields kept for its interrupts.
    A word read of an enable, pending, active, configuration or priority
    register, or a byte read of a priority register, succeeds and fills each field
    of the destination register with the field of the interrupt the address
    stands for (0 where there is no such interrupt); nothing else of the whole
    state changes but the tickets of the distributor's lock, which is free
    again.  The fields are those in memory: the state of an interrupt that sits
    in a list register is there and not in its field. *)
Theorem vgicd_read_fields {H} `{GicHw H} (ipi : Z) (fuel : nat) (w : world H) v c acc info size f :
  guest w v c -> unlocked (d_lock (d (wvm w))) -> (info, size, f) ∈ field_regs ->
  acc_write acc = false -> read_width info (acc_width acc) -> Z.land (acc_addr acc) (acc_width acc - 1) = 0 ->
  regroup_base info <= GICD_REG_MASK (acc_addr acc) < regroup_base info + size ->
  0 <= acc_reg acc <= 30 -> length (x c) = 31%nat ->
  let fw := field_width info in let first := (GICD_REG_MASK (acc_addr acc) - regroup_base info) * 8 / fw in
  exists val l, vgicd_emul_handler ipi fuel acc w = Ok (true, with_d_lock
      (set_vm w (set_vcpus (wvm w) (<[Z.to_nat v := set_x c (<[Z.to_nat (acc_reg acc) := val]> (x c))]> (vcpus (wvm w))))) l) /\
    unlocked l /\ forall j, 0 <= j < acc_width acc * 8 / fw -> ext (j * fw) fw val = field_at w v f (first + j) mod 2 ^ fw.
Proof.
  intros Hg Hu Hin Hw Hwd Hal Hoff Hreg Hx fw first. destruct (field_regs_sound _ _ _ Hin) as (Hfn & _).
  destruct (spin_lock_unlock _ Hu) as (l & El & Hul & _).
  destruct (generic_read ipi acc info size f (with_d_lock w l) v c (guest_d_lock _ _ _ l Hg) Hin Hw Hwd Hoff Hreg Hx) as (val & E & _ & Hf).
  exists val, (spin_unlock l). split_and!; [|done|intros j Hj; by rewrite Hf].
  unfold vgicd_emul_handler. rewrite (field_regs_select _ _ _ _ Hin Hoff). unfold vgic_check_reg_alignment.
  rewrite (read_width_aligned _ _ _ _ Hin Hwd), (u64_small (acc_width acc - 1)) by (destruct Hwd as [->|[-> _]]; lia).
  rewrite Hal. cbn [orb negb Z.eqb]. unfold mbind, st_bind, lock_vgicd, mbind, outcome_bind.
  rewrite El. fold (with_d_lock w l). unfold gets. rewrite (gu_cur _ _ _ (guest_d_lock _ _ _ l Hg)).
  rewrite (get_vcpu_run _ _ _ (gu_pos _ _ _ Hg) (gu_vcpu _ _ _ (guest_d_lock _ _ _ l Hg))).
  unfold call_reg_access. rewrite Hfn, E. done.
Qed.

Lemma fresh_guest {H} `{GicHw H} (g : gic H) s ncpus nints v :
  0 <= v < ncpus -> 32 <= nints <= 1024 -> guest (fresh_world g s ncpus nints v) v (fresh_vcpu v).
Proof.
  intros Hv Hn. assert (vcpus (wvm (fresh_world g s ncpus nints v)) !! Z.to_nat v = Some (fresh_vcpu v)) as Hc.
  { cbn [wvm fresh_world vcpus fresh_vm]. rewrite list_lookup_fmap, lookup_seqZ_lt by lia. simpl. f_equal. f_equal. lia. }
  split; try done; [lia|]. intros id Hid. change (int_num (d (wvm (fresh_world g s ncpus nints v)))) with nints in Hid.
  unfold ref_of, int_at. change GIC_CPU_PRIV with 32. destruct (Z.ltb_spec id 32).
  - rewrite (proj2 (Z.ltb_ge v 0)), (proj2 (Z.ltb_ge id 0)) by lia. cbn [orb]. rewrite Hc. cbn [mbind option_bind].
    apply lookup_lt_is_Some_2. cbn [v_ints fresh_vcpu]. rewrite length_fmap, length_seqZ. change GIC_CPU_PRIV with 32. lia.
  - rewrite (proj2 (Z.ltb_ge (id - 32) 0)) by lia. apply lookup_lt_is_Some_2.
    cbn [wvm fresh_world d fresh_vm d_ints]. rewrite length_fmap, length_seqZ. lia.
Qed.

(** The guest reads the first enable register into register 5: interrupt 3, a
    software-generated one, is enabled. *)
Definition read_enable : emul_access := EmulAccess 0x8000100 false false 4 5 0 false 8.

Lemma vgicd_read_fields_witness :
  exists w' val, vgicd_emul_handler 0 10 read_enable demo_world = Ok (true, w') /\ ext 3 1 val = 1 /\ ext 20 1 val = 0.
Proof.
  destruct (vgicd_read_fields 0 10 demo_world 0 (fresh_vcpu 0) read_enable isenabler_info 0x80 (fun i => flag (enabled i)))
    as (val & l & E & _ & Hf);
    [apply fresh_guest; lia|by split|left|reflexivity|left; reflexivity|reflexivity|by vm_compute|simpl; lia|reflexivity|].
  eexists _, val. split; [exact E|]. split.
  - exact (Hf 3 ltac:(split; [lia|reflexivity])).
  - exact (Hf 20 ltac:(split; [lia|reflexivity])).
Defined.

(** A pending interrupt that sits in a list register reads as not pending: the guest
    enables interrupt 40, the device raises it, and the guest reads its
    pending register into register 5. *)
Definition read_pending : emul_access := EmulAccess 0x8000204 false false 4 5 0 false 8.

Lemma pending_in_lr_unseen :
  ends_in (run 0 100 (EEmul enable_40) (guest_sets_x0 0x100)) (fun w1 =>
    ends_in (run 0 100 (EInjectHw 40) w1) (fun w2 =>
      ends_in (vgicd_emul_handler 0 10 read_pending w2) (fun w3 =>
        match int_at w2 (Spi 8), vcpus (wvm w3) !! 0%nat with
        | Some i, Some c => in_lr i && (GICH_LR_STATE (hw_read (hw (wgic w2)) (LR (i_lr i))) =? PEND) && bool_decide (x c !! 5%nat = Some 0)
        | _, _ => false
        end))) = true.
Proof. vm_compute. reflexivity. Qed.

(** ** Messages between CPUs *)

Lemma field_at_testbit x off len i : 0 <= off -> 1 <= len -> off + len <= 64 -> 0 <= i < 64 ->
  Z.testbit (lsl64 (Z.land x (Z.ones len)) off) i = (off <=? i) && (i <? off + len) && Z.testbit x (i - off).
Proof.
  intros Ho Hl Hle Hi. rewrite testbit_lsl64, (proj2 (Z.ltb_lt i 64)) by lia. cbn [andb].
  destruct (Z.leb_spec off i); cbn [andb]; [|apply Z.testbit_neg_r; lia].
  rewrite Z.land_spec, Z.testbit_ones by lia. rewrite (proj2 (Z.leb_le 0 (i - off))) by lia. cbn [andb].
  rewrite andb_comm. f_equal. destruct (Z.ltb_spec (i - off) len), (Z.ltb_spec i (off + len)); done || lia.
Qed.

Lemma msg_data_bit vm rid id reg val b : 0 <= vm < 2 ^ 16 -> 0 <= b < 64 ->
  Z.testbit (VGIC_MSG_DATA vm rid id reg val) b =
  (48 <=? b) && Z.testbit vm (b - 48) || ((32 <=? b) && (b <? 48) && Z.testbit rid (b - 32) ||
  ((16 <=? b) && (b <? 31) && Z.testbit id (b - 16) || ((8 <=? b) && (b <? 16) && Z.testbit reg (b - 8) ||
   (b <? 8) && Z.testbit val b))).
Proof.
  intros Hvm Hb. unfold VGIC_MSG_DATA. rewrite !Z.lor_spec.
  change 0xffff with (Z.ones 16). change 0x7fff with (Z.ones 15). change 0xff with (Z.ones 8).
  rewrite !field_at_testbit by lia. rewrite testbit_lsl64, (proj2 (Z.ltb_lt b 64)) by lia. cbn [andb].
  rewrite Z.land_spec, Z.testbit_ones, (proj2 (Z.leb_le 0 b)) by lia. cbn [andb].
  rewrite (andb_comm (Z.testbit val b)). change (16 + 15) with 31. change (32 + 16) with 48. change (8 + 8) with 16.
  destruct (Z.leb_spec 48 b); cbn [andb]; [done|]. by rewrite Z.testbit_neg_r by lia.
Qed.

Lemma msg_field data off len x : 0 <= off -> 0 <= len -> 0 <= x < 2 ^ len ->
  (forall i, 0 <= i < len -> Z.testbit data (i + off) = Z.testbit x i) -> Z.land (Z.shiftr data off) (Z.ones len) = x.
Proof.
  intros Ho Hl Hx Hd. apply Z.bits_inj'. intros i Hi. rewrite Z.land_spec, Z.shiftr_spec, Z.testbit_ones by lia.
  rewrite (proj2 (Z.leb_le 0 i)) by lia. destruct (Z.ltb_spec i len); cbn [andb].
  - rewrite andb_true_r. apply Hd. lia.
  - rewrite andb_false_r. symmetry. apply (testbit_small x len); lia.
Qed.

Ltac msg_bits := intros i Hi; rewrite msg_data_bit by lia;
  repeat match goal with |- context [?a <=? i + ?o] => destruct (Z.leb_spec a (i + o)); try lia
  | |- context [i + ?o <? ?a] => destruct (Z.ltb_spec (i + o) a); try lia end; cbn [andb orb];
  rewrite ?orb_false_r; f_equal; lia.

(** A message means to the CPU that receives it what its sender put in. *)
Lemma vgic_msg_roundtrip vm rid id reg val :
  0 <= vm < 2 ^ 16 -> 0 <= rid < 2 ^ 16 -> 0 <= id < 2 ^ 15 -> 0 <= reg < 2 ^ 8 -> 0 <= val < 2 ^ 8 ->
  let data := VGIC_MSG_DATA vm rid id reg val in
  VGIC_MSG_VM data = vm /\ VGIC_MSG_VGICRID data = rid /\ VGIC_MSG_INTID data = id /\
  VGIC_MSG_REG data = reg /\ VGIC_MSG_VAL data = val.
Proof.
  intros Hvm Hrid Hid Hreg Hval data. split_and!.
  - assert (0 <= data < 2 ^ 64) as Hd.
    { repeat (apply (lor_range 64); [lia|apply u64_range|]). change 0xff with (Z.ones 8). rewrite Z.land_ones by lia.
      pose proof (Z.mod_pos_bound val (2 ^ 8)). lia. }
    rewrite <- (msg_field data 48 16 vm); [|lia|lia|lia|unfold data; msg_bits].
    rewrite Z.land_ones by lia. unfold VGIC_MSG_VM. symmetry. apply Z.mod_small. rewrite Z.shiftr_div_pow2 by lia. split.
    + apply Z.div_pos; lia.
    + apply Z.div_lt_upper_bound; lia.
  - apply (msg_field data 32 16); try lia. unfold data. msg_bits.
  - apply (msg_field data 16 15); try lia. unfold data. msg_bits.
  - apply (msg_field data 8 8); try lia. unfold data. msg_bits.
  - unfold VGIC_MSG_VAL. rewrite <- (Z.shiftr_0_r data). apply (msg_field data 0 8); try lia. unfold data. msg_bits.
Qed.

(** A handler is found again under its number. *)
Lemma handler_of_regid {H} `{GicHw H} (info : vgic_reg_handler_info H) :
  info ∈ reg_handler_info_table -> info ≠ irouter_info ->
  vgic_get_reg_handler_info (regid info) = Some info /\ 0 <= regid info < 2 ^ 8.
Proof.
  intros Hin Hne. repeat (apply elem_of_cons in Hin as [->|Hin]; [done|]). by apply not_elem_of_nil in Hin.
Qed.

(** C26: a register write to a shared interrupt that another virtual CPU owns is
    carried out by that virtual CPU: the writer only sends the CPU it runs on a
    message, leaving every interrupt as it was and all locks free, and handling
    that message, whatever has happened there in between, is the same write to
    the same field of the same interrupt with the same value. *)
Theorem vgic_set_field_forwarded {H} `{GicHw H} (ipi : Z) (w : world H) v k i o co info val s :
  let r := Spi k in
  int_ok r i -> int_at w r = Some i -> unlocked (i_lock i) -> i_id i < 1024 -> owner i = Some o -> o ≠ v ->
  0 <= o -> vcpus (wvm w) !! Z.to_nat o = Some co ->
  info ∈ reg_handler_info_table -> info ≠ irouter_info -> 0 <= vm_id (wvm w) < 2 ^ 16 -> 0 <= val < 256 ->
  let msg := Msg.CpuMsg ipi VGIC_SET_REG (VGIC_MSG_DATA (vm_id (wvm w)) 0 (i_id i) (regid info) val) in
  Msg.cpu_send_msg (wmsg w) (p_id co) msg = Ok s ->
  (exists w' l, vgic_int_set_field ipi info v r val w = Ok ((), w') /\ wmsg w' = s /\
     int_at w' r = Some (set_lock i l) /\ unlocked l /\ (forall r', r' ≠ r -> int_at w' r' = int_at w r')) /\
  (forall w2 c2, vm_id (wvm w2) = vm_id (wvm w) -> 0 <= cur_vcpu w2 -> vcpus (wvm w2) !! Z.to_nat (cur_vcpu w2) = Some c2 ->
     i_id i < int_num (d (wvm w2)) ->
     vgic_ipi_handler ipi (Msg.event msg) (Msg.data msg) w2 = vgic_int_set_field ipi info (cur_vcpu w2) r val w2).
Proof.
  intros r Hok Hi Hu Hid Ho Hne Hpos Hco Hin Hni Hvm Hval msg Hsend.
  destruct (handler_of_regid info Hin Hni) as [Hinfo Hrid].
  assert (i_id i = k + 32) as Eid by exact (ok_id _ _ Hok). pose proof (ok_range _ _ Hok) as Hk. cbn in Hk.
  destruct (vgic_msg_roundtrip (vm_id (wvm w)) 0 (i_id i) (regid info) val) as (Mvm & Mrid & Mid & Mreg & Mval); [lia..|].
  split.
  - destruct (lock_int_run _ _ _ Hi Hu) as (l & El & Hul). set (w1 := put_at w r (set_lock i l)).
    assert (int_at w1 r = Some (set_lock i l)) as Hi1 by exact (put_at_same _ _ _ _ Hi).
    assert (vgic_get_ownership v r w1 = Ok (false, w1)) as Eown.
    { unfold vgic_get_ownership, mbind, st_bind. rewrite (get_int_run _ _ _ Hi1). cbn [owner set_lock]. rewrite Ho.
      by rewrite decide_False, decide_False by congruence. }
    assert (int_at (set_msg w1 s) r = Some (set_lock i l)) as Hi2 by exact Hi1.
    exists (put_at (set_msg w1 s) r (set_lock (set_lock i l) (spin_unlock l))), (spin_unlock l). split_and!.
    + unfold vgic_int_set_field, mbind, st_bind. rewrite El. fold w1. rewrite Eown. unfold gets.
      rewrite (get_int_run _ _ _ Hi1). change (owner (set_lock i l)) with (owner i). rewrite Ho.
      rewrite (get_vcpu_run w1 o co Hpos Hco). unfold send_msg. fold msg. unfold mbind, outcome_bind.
      change (wmsg w1) with (wmsg w). change (vm_id (wvm w1)) with (vm_id (wvm w)). change (i_id (set_lock i l)) with (i_id i).
      fold msg. rewrite Hsend. unfold unlock_int. by rewrite (upd_int_run _ _ _ _ Hi2).
    + done.
    + exact (put_at_same _ _ _ _ Hi2).
    + done.
    + intros r' Hr'. rewrite (put_at_other _ _ _ _ _ Hi2) by done. exact (put_at_other _ _ _ _ _ Hi Hr').
  - intros w2 c2 Evm Hcur Hc2 Hnum. unfold vgic_ipi_handler, mbind, st_bind, gets. cbn [Msg.event Msg.data msg].
    rewrite Mvm, Mid, Mreg, Mval, (get_vcpu_run _ _ _ Hcur Hc2), Evm. unfold u16 at 1. rewrite Z.mod_small, Z.eqb_refl by lia. cbn [negb].
    change (VGIC_SET_REG =? VGIC_UPDATE_ENABLE) with false. change (VGIC_SET_REG =? VGIC_ROUTE) with false.
    change (VGIC_SET_REG =? VGIC_INJECT) with false. change (VGIC_SET_REG =? VGIC_SET_REG) with true. cbv beta iota.
    rewrite Hinfo. unfold vgic_get_int, mbind, st_bind, gets. change GIC_CPU_PRIV with 32.
    rewrite (proj2 (Z.ltb_ge (i_id i) 32)), (proj2 (Z.ltb_lt (i_id i) _)) by lia. unfold mret, st_ret.
    by replace (i_id i - 32) with k by lia.
Qed.

Definition is_Ok {A} (o : outcome A) : bool := match o with Ok _ => true | Halt _ => false end.

Lemma is_Ok_ex {A} (o : outcome A) : is_Ok o = true -> exists a, o = Ok a.
Proof. destruct o; [eauto|done]. Qed.

(** Interrupt 40 belongs to virtual CPU 1; virtual CPU 0 sets its priority. *)
Definition held_40 : vgic_int := VgicInt (Some 1) SPINLOCK_INITVAL 40 ACT 0x50 0 0 3 0 false true true.

Lemma vgic_set_field_forwarded_witness :
  exists w' l, vgic_int_set_field 0 ipriorityr_info 0 (Spi 8) 0x20 (put_at demo_world (Spi 8) held_40) = Ok ((), w') /\
    int_at w' (Spi 8) = Some (set_lock held_40 l).
Proof.
  assert (exists old, int_at demo_world (Spi 8) = Some old) as [old Ho] by (eexists; reflexivity).
  destruct (is_Ok_ex (Msg.cpu_send_msg Msg.demo_sys 1
    (Msg.CpuMsg 0 VGIC_SET_REG (VGIC_MSG_DATA 1 0 40 VGIC_IPRIORITYR_ID 0x20)))) as [s Es]; [by vm_compute|].
  destruct (vgic_set_field_forwarded 0 (put_at demo_world (Spi 8) held_40) 0 8 held_40 1 (fresh_vcpu 1) ipriorityr_info 0x20 s)
    as [(w' & l & E & _ & Hi & _) _];
    [by split|exact (put_at_same _ _ _ _ Ho)|by split|by vm_compute|reflexivity|lia|lia|reflexivity| |discriminate|by split|lia|exact Es|].
  - do 8 right. left.
  - exists w', l. split; [exact E|exact Hi].
Defined.
