(* ===== verification/Lcm.v ===== *)
(** The life cycle of a VM: [core/lcm.c], [core/inc/lcm.h], the translation
    [mem_translate] of [arch/aarch64/arch_mem.c] and the dispatch of
    [arch/aarch64/hypercall.c].

    Snapshots are bytes in pages of the root pool: a pool of snapshots starts
    with its [struct snapshot_pool], linked into [ss_pool_list] through memory,
    and its snapshots follow one another.  The state is the memory, the page
    pool and the variables of the file.  Addresses of variables and the sizes
    of structures the compiler lays out are parameters, and so is the address
    translation instruction, whose result may depend on the tables in memory.
    Loops without a bound take [fuel]. *)

From S2P Require Import Prelude Bit Bitmap Spinlock PhysMem Objpool Mem PageTable Mmu Vpage Dlist Cpu Gic Vm.

(** [struct vm_config]: what these operations use of it. *)
Record vm_config := VmConfig {
  base_addr : Z;
  load_addr : Z;
  vm_size : Z;
  entry : Z;
  dmem_size : Z;
}.

Record lcm := Lcm {
  ram : mem;
  pages : page_pool;
  latest_ss : Z;
  latest_ss_id : Z;
  current_restore_cnt : Z;
  init : bool;
}.

(** ** [lcm.h] *)

Definition NUM_MAX_SNAPSHOT_RESOTRE : Z := 1.
Definition LATEST_SSID : Z := u64 (-1).
Definition NUM_MAX_SNAPSHOT_PER_POOL : Z := 3.
Definition PSCI_FNID_SYSTEM_OFF : Z := 0x84000008.
Definition PSCI_FNID_SYSTEM_RESET : Z := 0x84000009.

(** [struct snapshot_pool]: [base], [size], [last], [list], the flexible
    [pool]. *)
Definition off_pool_base : Z := 0.
Definition off_pool_size : Z := 8.
Definition off_pool_last : Z := 16.
Definition off_pool_list : Z := 24.
Definition sizeof_snapshot_pool : Z := 40.

(** [struct snapshot]: [ss_id], [size], [vm_id], [vcpu], the flexible [mem]. *)
Definition off_ss_id : Z := 0.
Definition off_ss_size : Z := 8.
Definition off_ss_vm_id : Z := 16.
Definition off_ss_vcpu : Z := 24.

(** [struct vcpu]: [id], [p_id], then [regs]: 31 registers, [spsr_el2],
    [elr_el2], [sp_el1]. *)
Definition off_vcpu_regs : Z := 16.
Definition sizeof_vcpu_regs : Z := 272.
Definition off_spsr_el2 : Z := 264.
Definition off_elr_el2 : Z := 272.

Section lcm.
(** [SS_LIST] is [&ss_pool_list], [VCPU] is [cpu()->vcpu] and [VCPUS] is
    [CURRENT_VM->vcpus]. *)
Context (SS_LIST VCPU VCPUS sizeof_vcpu : Z).
(** The configuration and number of the current VM; [dmem_size0] is
    [config.vm->dmem_size], that of the first VM. *)
Context (cfg : vm_config) (vmid dmem_size0 : Z).
(** The value of [PAR_EL1] after [AT S12E1W]. *)
Context (arm_at_s12e1w : mem -> Z -> Z).
Context (fuel : nat).

Definition sizeof_snapshot : Z := 24 + sizeof_vcpu.

Definition set_ram (s : lcm) (m : mem) : lcm :=
  Lcm m (pages s) (latest_ss s) (latest_ss_id s) (current_restore_cnt s) (init s).
Definition set_pages (s : lcm) (p : page_pool) : lcm :=
  Lcm (ram s) p (latest_ss s) (latest_ss_id s) (current_restore_cnt s) (init s).

Definition get64 (a : Z) : st lcm Z := gets (fun s => load64 (ram s) a).
Definition put64 (a v : Z) : st lcm () := modify (fun s => set_ram s (store64 (ram s) a (u64 v))).
Definition put32 (a v : Z) : st lcm () := modify (fun s => set_ram s (store32 (ram s) a (u32 v))).
Definition copy (dst src n : Z) : st lcm () := fun s =>
  m ← memcpy (ram s) dst src n;
  Ok ((), set_ram s m).

(** ** [arch_mem.c] *)

Definition mem_translate (va : Z) : st lcm Z := fun s =>
  pa ← Mmu.mem_translate arm_at_s12e1w (ram s) va;
  Ok (pa, s).

(** ** [list.h] on the pools: [next] at 0, [prev] at 8 *)

(** A load or store through NULL faults. *)
Definition ptr (a : Z) : st lcm Z := if a =? 0 then stop HFault else mret a.

Definition list_next (h : Z) : st lcm Z := a ← ptr h; get64 a.
Definition list_prev (h : Z) : st lcm Z := a ← ptr h; get64 (a + 8).
Definition set_list_next (h v : Z) : st lcm () := a ← ptr h; put64 a v.
Definition set_list_prev (h v : Z) : st lcm () := a ← ptr h; put64 (a + 8) v.

Definition init_list_head (h : Z) : st lcm () := set_list_next h h ;; set_list_prev h h.

Definition ss_list_add_tail (new head : Z) : st lcm () :=
  prev ← list_prev head;
  set_list_prev head new ;;
  set_list_next new head ;;
  set_list_prev new prev ;;
  set_list_next prev new.

Definition ss_list_del (e : Z) : st lcm () :=
  prev ← list_prev e;
  next ← list_next e;
  set_list_prev next prev ;;
  set_list_next prev next ;;
  set_list_next e 0x00100100 ;;
  set_list_prev e 0x00200200.

(** [list_last_entry], [list_first_entry]: the [struct snapshot_pool] around the
    node. *)
Definition last_pool : st lcm Z := n ← list_prev SS_LIST; mret (u64 (n - off_pool_list)).
Definition first_pool : st lcm Z := n ← list_next SS_LIST; mret (u64 (n - off_pool_list)).

(** ** [lcm.c] *)

Definition new_pool_size : Z := u64 (u64 (dmem_size0 + sizeof_snapshot) * NUM_MAX_SNAPSHOT_PER_POOL).

Definition alloc_page (n : Z) : st lcm Z := fun s =>
  '(a, p) ← mem_alloc_page (pages s) n false;
  Ok (a, set_pages s p).

Definition free_page (a n : Z) : st lcm () := fun s =>
  '(_, p) ← mem_free_page (pages s) a n;
  Ok ((), set_pages s p).

Definition alloc_ss_pool : st lcm Z :=
  let pool_size := new_pool_size in
  ss_pool ← alloc_page (NUM_PAGES pool_size);
  if ss_pool =? 0 then stop HError else
  put64 (ss_pool + off_pool_base) (ss_pool + sizeof_snapshot_pool) ;;
  put64 (ss_pool + off_pool_size) pool_size ;;
  b ← get64 (ss_pool + off_pool_base);
  put64 (ss_pool + off_pool_last) b ;;
  init_list_head (ss_pool + off_pool_list) ;;
  mret ss_pool.

Definition get_new_ss : st lcm Z :=
  ss_pool ← last_pool;
  let pool_size := new_pool_size in
  last ← get64 (ss_pool + off_pool_last);
  b ← get64 (ss_pool + off_pool_base);
  size ← get64 (ss_pool + off_pool_size);
  if u64 (b + size) <? u64 (last + sizeof_snapshot) then
    free ← gets (fun s => mem_get_free_pages (pages s));
    (if u64 (free * PAGE_SIZE) <? u64 (pool_size * 2) then
       earliest_ss_pool ← first_pool;
       ss_list_del (earliest_ss_pool + off_pool_list) ;;
       sz ← get64 (earliest_ss_pool + off_pool_size);
       free_page earliest_ss_pool (NUM_PAGES sz)
     else mret ()) ;;
    new_ss_pool ← alloc_ss_pool;
    if new_ss_pool =? 0 then stop HError else
    ss_list_add_tail (new_ss_pool + off_pool_list) SS_LIST ;;
    get64 (new_ss_pool + off_pool_base)
  else mret last.

Definition update_ss_pool_last (size : Z) : st lcm () :=
  ss_pool ← last_pool;
  last ← get64 (ss_pool + off_pool_last);
  modify (fun s => Lcm (ram s) (pages s) last (latest_ss_id s) (current_restore_cnt s) (init s)) ;;
  put64 (ss_pool + off_pool_last) (last + size).

Definition ss_pool_init : st lcm () :=
  init_list_head SS_LIST ;;
  ss_pool ← alloc_ss_pool;
  ss_list_add_tail (ss_pool + off_pool_list) SS_LIST.

Definition get_new_ss_id : st lcm Z := fun s =>
  Ok (latest_ss_id s, Lcm (ram s) (pages s) (latest_ss s) (u64 (latest_ss_id s + 1)) (current_restore_cnt s) (init s)).

Definition get_latest_ss : st lcm Z := gets latest_ss.

(** The [while] over one pool. *)
Fixpoint find_in_pool (k : nat) (id pool_end ss : Z) : st lcm (option Z) :=
  match k with
  | O => stop HFuel
  | S k =>
      size ← get64 (ss + off_ss_size);
      if (u64 (ss + size) <=? pool_end) && (0 <? size) then
        i ← get64 (ss + off_ss_id);
        if i =? id then mret (Some ss) else find_in_pool k id pool_end (u64 (ss + size))
      else mret None
  end.

(** [list_for_each_entry]: [pos] is the node. *)
Fixpoint find_in_list (k : nat) (id pos : Z) : st lcm Z :=
  match k with
  | O => stop HFuel
  | S k =>
      if pos =? SS_LIST then stop HError else
      p ← ptr pos;
      let ss_pool := u64 (p - off_pool_list) in
      ss ← get64 (ss_pool + off_pool_base);
      b ← get64 (ss_pool + off_pool_base);
      size ← get64 (ss_pool + off_pool_size);
      r ← find_in_pool fuel id (u64 (b + size)) ss;
      match r with
      | Some ss => mret ss
      | None => next ← list_next pos; find_in_list k id next
      end
  end.

Definition get_ss_by_id (id : Z) : st lcm Z :=
  pos ← list_next SS_LIST;
  find_in_list fuel id pos.

(** The hash printed before and after: 32-bit arithmetic over the bytes. *)
Fixpoint hash_bytes (m : mem) (n : nat) (a hash : Z) : Z :=
  match n with
  | O => hash
  | S n => hash_bytes m n (a + 1) (u32 (31 * hash + load8 m a))
  end.

Definition __hash_object (m : mem) (obj size : Z) : Z := hash_bytes m (Z.to_nat size) obj 0.

Definition restore_snapshot_handler_by_ss (ss : Z) : st lcm () :=
  pa ← mem_translate (base_addr cfg);
  copy pa (ss + sizeof_snapshot) (dmem_size cfg) ;;
  copy VCPU (ss + off_ss_vcpu) sizeof_vcpu.

Definition restore_snapshot_handler (arg0 : Z) : st lcm () :=
  ss ← (if arg0 =? LATEST_SSID then get_latest_ss else get_ss_by_id arg0);
  if ss =? 0 then stop HError else
  restore_snapshot_handler_by_ss ss.

(** Steps 2 to 4 of [checkpoint_snapshot_handler]. *)
Definition save_snapshot (ss : Z) : st lcm () :=
  id ← get_new_ss_id;
  put64 (ss + off_ss_id) id ;;
  put64 (ss + off_ss_size) (sizeof_snapshot + dmem_size cfg) ;;
  put32 (ss + off_ss_vm_id) vmid ;;
  copy (ss + off_ss_vcpu) VCPU sizeof_vcpu ;;
  pa ← mem_translate (base_addr cfg);
  if pa =? 0 then stop HError else
  copy (ss + sizeof_snapshot) pa (dmem_size cfg) ;;
  size ← get64 (ss + off_ss_size);
  update_ss_pool_last size.

Definition checkpoint_snapshot_handler : st lcm () :=
  i ← gets init;
  (if (i : bool) then mret () else
   ss_pool_init ;;
   modify (fun s => Lcm (ram s) (pages s) (latest_ss s) (latest_ss_id s) (current_restore_cnt s) true)) ;;
  ss ← get_new_ss;
  if ss =? 0 then stop HError else
  save_snapshot ss.

(** [vcpu_arch_reset] on the structure in memory; the system registers it also
    writes are not part of the state. *)
Definition vcpu_arch_reset_at (vcpu entry : Z) : st lcm () := fun s =>
  m ← memset (ram s) (vcpu + off_vcpu_regs) 0 sizeof_vcpu_regs;
  let m := store64 m (vcpu + off_spsr_el2)
    (Z.lor SPSR_EL1h (Z.lor SPSR_F (Z.lor SPSR_I (Z.lor SPSR_A SPSR_D)))) in
  Ok ((), set_ram s (store64 m (vcpu + off_elr_el2) (u64 entry))).

Definition restart_vm : st lcm () :=
  pa ← mem_translate (base_addr cfg);
  copy pa (load_addr cfg) (dmem_size cfg) ;;
  vcpu_arch_reset_at VCPUS (entry cfg).

Definition restart_vm_handler : st lcm () := restart_vm.

Definition guest_halt_handler (arg0 : Z) : st lcm () :=
  if arg0 =? PSCI_FNID_SYSTEM_OFF then mret ()
  else if arg0 =? PSCI_FNID_SYSTEM_RESET then
    n ← gets current_restore_cnt;
    if n <? NUM_MAX_SNAPSHOT_RESOTRE then
      modify (fun s => Lcm (ram s) (pages s) (latest_ss s) (latest_ss_id s) (u64 (n + 1)) (init s)) ;;
      restore_snapshot_handler arg0
    else stop HError
  else stop HError.

(** ** [hypercall.c] *)

Inductive hypercall_fn :=
| guest_halt | checkpoint_snapshot | restore_snapshot | print_message | restart.

Definition hypercall_handlers : list (option hypercall_fn) :=
  [Some guest_halt; Some checkpoint_snapshot; Some restore_snapshot; Some print_message; Some restart;
   None; None; None].

(** [print_message_handler] only prints. *)
Definition call_hypercall (f : hypercall_fn) (arg0 : Z) : st lcm () :=
  match f with
  | guest_halt => guest_halt_handler arg0
  | checkpoint_snapshot => checkpoint_snapshot_handler
  | restore_snapshot => restore_snapshot_handler arg0
  | print_message => mret ()
  | restart => restart_vm_handler
  end.

Definition hypercall_handler (iss arg0 : Z) : st lcm () :=
  if iss <? 8 then
    match hypercall_handlers !! Z.to_nat iss with
    | Some (Some f) => call_hypercall f arg0
    | _ => mret ()
    end
  else mret ().
End lcm.

(** ** Memory outside a region *)

(** [m'] differs from [m] at most in the [n] bytes at [a]. *)
Definition same_out (m m' : mem) (a n : Z) : Prop := forall b, b < a \/ a + n <= b -> load8 m' b = load8 m b.

(** Two regions without a common byte. *)
Definition apart (a n b k : Z) : Prop := a + n <= b \/ b + k <= a.

Lemma same_out_refl m a n : same_out m m a n.
Proof. done. Qed.

Lemma same_out_trans m1 m2 m3 a n : same_out m1 m2 a n -> same_out m2 m3 a n -> same_out m1 m3 a n.
Proof. intros H1 H2 b Hb. by rewrite H2, H1. Qed.

Lemma same_out_mono m m' a n b k : same_out m m' a n -> b <= a -> a + n <= b + k -> same_out m m' b k.
Proof. intros Hs H1 H2 x Hx. apply Hs. lia. Qed.

Lemma store_le_out m a n v : same_out m (store_le m a n v) a (Z.of_nat n).
Proof. intros b Hb. rewrite load8_store_le. by rewrite in_interval_false by lia. Qed.

Lemma store64_out m a v : same_out m (store64 m a v) a 8.
Proof. apply store_le_out. Qed.

Lemma copied_out m m' dst src n : 0 <= n -> copied m m' dst src n -> same_out m m' dst n.
Proof. intros Hn Hc b Hb. rewrite Hc. by rewrite in_interval_false by lia. Qed.

Lemma copied_in m m' dst src n k : copied m m' dst src n -> 0 <= k < n -> load8 m' (dst + k) = load8 m (src + k).
Proof. intros Hc Hk. rewrite Hc, in_interval_true by lia. f_equal. lia. Qed.

Lemma same_out_load64 m m' a n b : same_out m m' a n -> apart b 8 a n -> load64 m' b = load64 m b.
Proof. intros Hs Hb. unfold load64. apply load_le_ext. intros i Hi. apply Hs. unfold apart in Hb. lia. Qed.

Lemma hash_bytes_ext m m' n a h : (forall k, 0 <= k < Z.of_nat n -> load8 m' (a + k) = load8 m (a + k)) ->
  hash_bytes m' n a h = hash_bytes m n a h.
Proof.
  revert a h. induction n as [|n IH]; intros a h Hk; [done|]. simpl.
  rewrite <- (Z.add_0_r a), Hk, Z.add_0_r by lia. apply IH. intros k Hk'.
  replace (a + 1 + k) with (a + (1 + k)) by lia. apply Hk. lia.
Qed.

(** ** Taking and restoring a snapshot *)

Section snapshot.
Context (SS_LIST VCPU VCPUS sizeof_vcpu : Z) (cfg : vm_config) (vmid dmem_size0 : Z).
Context (arm_at_s12e1w : mem -> Z -> Z) (fuel : nat) (pa : Z).
(** The VM's page tables: their root, and the table pages with their levels. *)
Context (vm_root : Z) (T : gmap Z Z).

Local Abbreviation ss_size := (sizeof_snapshot sizeof_vcpu).
Local Abbreviation total := (ss_size + dmem_size cfg).

(** The VM's tables in memory [m] put the guest's memory at [pa]. *)
Definition maps_guest (m : mem) : Prop := bytes_ok m /\ translate m vm_root (base_addr cfg) = Some pa.

(** Where things are: the guest's memory, the virtual CPU and the list head are
    outside the pool of [sz] bytes at [p] and apart from each other. *)
Record layout (p sz : Z) : Prop := {
  lo_pool : 0 < p /\ 0 <= sz /\ p + 40 + sz < 2 ^ 62;
  lo_guest : apart pa (dmem_size cfg) p (40 + sz);
  lo_vcpu : apart VCPU sizeof_vcpu p (40 + sz);
  lo_list : apart SS_LIST 16 p (40 + sz);
  lo_gv : apart VCPU sizeof_vcpu pa (dmem_size cfg);
  lo_page : 0 <= base_addr cfg /\ pa < 2 ^ 38 /\ pa mod PAGE_SIZE = base_addr cfg mod PAGE_SIZE;
  lo_nz : 0 < SS_LIST < 2 ^ 62 /\ 0 < pa /\ 0 <= dmem_size cfg < 2 ^ 48 /\ 0 <= sizeof_vcpu < 2 ^ 48;
}.

(** The newest pool is [p] and its next snapshot goes to [ss]. *)
Record newest (s : lcm) (p sz ss : Z) : Prop := {
  nw_bytes : bytes_ok (ram s);
  nw_tail : load64 (ram s) (SS_LIST + 8) = p + 24;
  nw_base : load64 (ram s) p = p + 40;
  nw_size : load64 (ram s) (p + 8) = sz;
  nw_last : load64 (ram s) (p + 16) = ss;
}.

(** The snapshot at [ss] holds the guest of memory [m0]. *)
Record saved (m0 m : mem) (ss : Z) : Prop := {
  sv_vcpu : forall k, 0 <= k < sizeof_vcpu -> load8 m (ss + 24 + k) = load8 m0 (VCPU + k);
  sv_mem : forall k, 0 <= k < dmem_size cfg -> load8 m (ss + ss_size + k) = load8 m0 (pa + k);
}.

Lemma mem_translate_run s p sz : at_walks arm_at_s12e1w vm_root -> layout p sz -> maps_guest (ram s) ->
  mem_translate arm_at_s12e1w (base_addr cfg) s = Ok (pa, s).
Proof.
  intros Hat [_ _ _ _ _ (Hb & Hp & Hm) (_ & Hpa & _)] [Hbytes Ht]. unfold mem_translate.
  rewrite (mem_translate_walks arm_at_s12e1w vm_root (ram s) (base_addr cfg) pa) by (done || lia). done.
Qed.

(** Writes that miss the tables. *)
Lemma maps_guest_keep m m' : pt_wf m vm_root T -> maps_guest m -> bytes_ok m' -> (forall x, in_tables T x -> load8 m' x = load8 m x) ->
  pt_wf m' vm_root T /\ maps_guest m'.
Proof.
  intros Hwf [_ Ht] Hb Hk. destruct (tables_write _ _ _ _ Hwf Hb Hk) as [Hwf' Htr]. split; [done|]. split; [done|]. by rewrite (proj1 (Htr _)).
Qed.

Lemma copy_run s dst src n : bytes_ok (ram s) -> apart dst n src n -> 0 <= n < 2 ^ 63 ->
  exists m, copy dst src n s = Ok ((), set_ram s m) /\ copied (ram s) m dst src n /\ bytes_ok m.
Proof.
  intros Hb Ha Hn. destruct (memcpy_spec (ram s) dst src n Hb Ha Hn) as (m & E & Hc).
  exists m. unfold copy. rewrite E. split; [done|]. split; [done|]. by eapply copied_ok.
Qed.

Lemma last_pool_run s p : 0 < SS_LIST -> 0 <= p < 2 ^ 63 -> load64 (ram s) (SS_LIST + 8) = p + 24 ->
  last_pool SS_LIST s = Ok (p, s).
Proof.
  intros HS Hp Hl. unfold last_pool, list_prev, ptr, get64, mbind, st_bind, gets.
  rewrite (proj2 (Z.eqb_neq SS_LIST 0)) by lia. unfold mret, st_ret at 1. rewrite Hl. unfold off_pool_list, st_ret.
  rewrite u64_small by lia. do 2 f_equal. lia.
Qed.

(** Restoring what was saved. *)
Lemma restore_run s m0 p sz ss :
  at_walks arm_at_s12e1w vm_root -> layout p sz -> maps_guest (ram s) -> saved m0 (ram s) ss -> p + 40 <= ss -> ss + total <= p + 40 + sz ->
  exists m, restore_snapshot_handler_by_ss VCPU sizeof_vcpu cfg arm_at_s12e1w ss s = Ok ((), set_ram s m) /\
    (forall k, 0 <= k < dmem_size cfg -> load8 m (pa + k) = load8 m0 (pa + k)) /\
    (forall k, 0 <= k < sizeof_vcpu -> load8 m (VCPU + k) = load8 m0 (VCPU + k)) /\
    (forall a, apart a 1 pa (dmem_size cfg) -> apart a 1 VCPU sizeof_vcpu -> load8 m a = load8 (ram s) a).
Proof.
  intros Hat L Hmg [Sv Sm] H1 H2. pose proof L as [Lp Lg Lv Ll Lgv _ Ln]. pose proof (proj1 Hmg) as Hb. unfold apart, sizeof_snapshot in *.
  unfold restore_snapshot_handler_by_ss, mbind, st_bind. rewrite (mem_translate_run s p sz Hat L Hmg).
  destruct (copy_run s pa (ss + sizeof_snapshot sizeof_vcpu) (dmem_size cfg) Hb) as (m1 & -> & C1 & B1);
    [unfold apart, sizeof_snapshot; lia|lia|].
  destruct (copy_run (set_ram s m1) VCPU (ss + off_ss_vcpu) sizeof_vcpu B1) as (m2 & -> & C2 & B2);
    [unfold apart, off_ss_vcpu; lia|lia|]. cbn [ram set_ram] in C2.
  assert (0 <= dmem_size cfg /\ 0 <= sizeof_vcpu) as [Hd Hv] by lia.
  pose proof (copied_out _ _ _ _ _ Hd C1) as O1. pose proof (copied_out _ _ _ _ _ Hv C2) as O2.
  exists m2. split; [done|]. split_and!.
  - intros k Hk. rewrite O2 by lia. rewrite (copied_in _ _ _ _ _ k C1 Hk). by apply Sm.
  - intros k Hk. rewrite (copied_in _ _ _ _ _ k C2 Hk). unfold off_ss_vcpu. rewrite O1 by lia. by apply Sv.
  - intros a A1 A2. rewrite O2, O1 by lia. done.
Qed.

(** The three fields at the start of a snapshot. *)
Lemma header_run m ss id size v : bytes_ok m -> 0 <= id < 2 ^ 64 -> 0 <= size < 2 ^ 64 ->
  let m3 := store32 (store64 (store64 m (ss + off_ss_id) id) (ss + off_ss_size) size) (ss + off_ss_vm_id) v in
  bytes_ok m3 /\ same_out m m3 ss 24 /\ load64 m3 ss = id /\ load64 m3 (ss + 8) = size.
Proof.
  intros Hb Hid Hsz. cbv zeta. replace (ss + off_ss_id) with ss by (unfold off_ss_id; lia).
  unfold off_ss_size, off_ss_vm_id. set (m3 := store32 _ _ _). split_and!.
  - by repeat apply store_le_ok.
  - eapply same_out_trans; [|eapply same_out_mono; [apply store_le_out|lia|lia]].
    eapply same_out_trans; eapply same_out_mono; try apply store_le_out; simpl; lia.
  - unfold m3, load64, store32. rewrite load_store_le_ne by (simpl; lia). fold (load64 (store64 (store64 m ss id) (ss + 8) size) ss).
    rewrite load64_store64_ne by lia. by apply load64_store64.
  - unfold m3, load64, store32. rewrite load_store_le_ne by (simpl; lia). by apply load64_store64.
Qed.

Lemma update_last_run s p sz ss size : 0 < SS_LIST -> 0 <= p < 2 ^ 63 -> newest s p sz ss ->
  update_ss_pool_last SS_LIST size s =
    Ok ((), Lcm (store64 (ram s) (p + 16) (u64 (ss + size))) (pages s) ss (latest_ss_id s) (current_restore_cnt s) (init s)).
Proof.
  intros HS Hp [Nb Nt Nba Ns Nl]. unfold update_ss_pool_last, mbind, st_bind. rewrite (last_pool_run s p) by done.
  unfold get64, gets, modify, put64. cbn [ram set_ram]. unfold off_pool_last. by rewrite Nl.
Qed.

(** A change elsewhere. *)
Lemma newest_same s s' p sz ss a n : newest s p sz ss -> bytes_ok (ram s') -> same_out (ram s) (ram s') a n ->
  apart SS_LIST 16 a n -> apart p 40 a n -> newest s' p sz ss.
Proof.
  intros [Nb Nt Nba Ns Nl] Hb Ho H1 H2. unfold apart in *.
  split; [done|rewrite (same_out_load64 _ _ _ _ _ Ho); [done|unfold apart; lia]..].
Qed.

(** Writing the snapshot. *)
Lemma save_run s p sz ss :
  at_walks arm_at_s12e1w vm_root -> layout p sz -> pt_wf (ram s) vm_root T -> maps_guest (ram s) ->
  (forall x, in_tables T x -> apart x 1 p (40 + sz)) ->
  newest s p sz ss -> p + 40 <= ss -> ss + total <= p + 40 + sz ->
  exists m, save_snapshot SS_LIST VCPU sizeof_vcpu cfg vmid arm_at_s12e1w ss s =
      Ok ((), Lcm m (pages s) ss (u64 (latest_ss_id s + 1)) (current_restore_cnt s) (init s)) /\
    bytes_ok m /\ saved (ram s) m ss /\ load64 m (ss + 8) = total /\ load64 m ss = u64 (latest_ss_id s) /\
    load64 m (p + 16) = ss + total /\
    (forall a, apart a 1 ss total -> apart a 1 (p + 16) 8 -> load8 m a = load8 (ram s) a).
Proof.
  intros Hat L Hwf Hmg Htab N H1 H2. pose proof L as [Lp Lg Lv Ll Lgv _ Ln].
  assert (sizeof_snapshot sizeof_vcpu = 24 + sizeof_vcpu) as Esz by done.
  unfold apart in Lg, Lv, Ll, Lgv.
  destruct (header_run (ram s) ss (u64 (latest_ss_id s)) (u64 total) (u32 vmid) (nw_bytes _ _ _ _ N)) as (B3 & O3 & Id3 & Sz3);
    [apply u64_range..|]. set (m3 := store32 _ _ _) in *.
  unfold save_snapshot, mbind, st_bind, get_new_ss_id, put64, put32, modify. cbn [ram set_ram]. fold m3.
  set (s3 := set_ram _ m3).
  destruct (copy_run s3 (ss + off_ss_vcpu) VCPU sizeof_vcpu B3) as (m4 & -> & C4 & B4); [unfold apart, off_ss_vcpu; lia|lia|].
  assert (same_out m3 m4 (ss + 24) sizeof_vcpu) as O4 by (eapply copied_out; [lia|exact C4]).
  assert (maps_guest m4) as Hmg4.
  { apply (maps_guest_keep (ram s) m4 Hwf Hmg B4). intros x Hx. specialize (Htab x Hx). unfold apart in Htab.
    rewrite O4, O3 by lia. done. }
  rewrite (mem_translate_run (set_ram s3 m4) p sz Hat L Hmg4). rewrite (proj2 (Z.eqb_neq pa 0)) by lia.
  destruct (copy_run (set_ram s3 m4) (ss + sizeof_snapshot sizeof_vcpu) pa (dmem_size cfg) B4) as (m5 & -> & C5 & B5);
    [unfold apart; lia|lia|]. cbn [ram set_ram s3] in C4, C5.
  assert (same_out m4 m5 (ss + sizeof_snapshot sizeof_vcpu) (dmem_size cfg)) as O5 by (eapply copied_out; [lia|exact C5]).
  assert (same_out (ram s) m5 ss total) as O.
  { eapply same_out_trans; [eapply same_out_trans|]; eapply same_out_mono; [exact O3|lia|lia|exact O4|lia|lia|exact O5|lia|lia]. }
  assert (load64 m5 (ss + 8) = total) as Sz5.
  { rewrite (same_out_load64 _ _ _ _ _ O5), (same_out_load64 _ _ _ _ _ O4), Sz3 by (unfold apart; lia). apply u64_small. lia. }
  set (s5 := set_ram (set_ram s3 m4) m5).
  assert (newest s5 p sz ss) as N5.
  { apply (newest_same s s5 p sz ss ss total N B5 O); unfold apart; lia. }
  unfold get64, gets. change (ram s5) with m5. unfold off_ss_size. rewrite Sz5.
  rewrite (update_last_run s5 p sz ss total); [|lia|lia|done]. change (ram s5) with m5. rewrite (u64_small (ss + total)) by lia.
  assert (same_out m5 (store64 m5 (p + 16) (ss + total)) (p + 16) 8) as O6 by apply store_le_out.
  eexists. split; [done|]. split; [by apply store_le_ok|]. split; [|split_and!].
  - split.
    + intros k Hk. rewrite O6, O5 by lia. rewrite (copied_in _ _ _ _ _ k C4 Hk : load8 m4 (ss + 24 + k) = _).
      apply O3. lia.
    + intros k Hk. rewrite O6 by lia. rewrite (copied_in _ _ _ _ _ k C5 Hk). rewrite O4, O3 by lia. done.
  - by rewrite (same_out_load64 _ _ _ _ _ O6) by (unfold apart; lia).
  - rewrite (same_out_load64 _ _ _ _ _ O6) by (unfold apart; lia). rewrite (same_out_load64 _ _ _ _ _ O5), (same_out_load64 _ _ _ _ _ O4) by (unfold apart; lia). done.
  - apply load64_store64. lia.
  - intros a A1 A2. unfold apart in *. rewrite O6, O by lia. done.
Qed.

(** *** Room for the next snapshot *)

Local Abbreviation pool_bytes := (new_pool_size sizeof_vcpu dmem_size0).

Lemma get64_run a s : get64 a s = Ok (load64 (ram s) a, s).
Proof. done. Qed.

Lemma ptr_run a s : a ≠ 0 -> ptr a s = Ok (a, s).
Proof. intros Ha. unfold ptr. by rewrite (proj2 (Z.eqb_neq a 0)). Qed.

Lemma set_next_run h v s : h ≠ 0 -> set_list_next h v s = Ok ((), set_ram s (store64 (ram s) h (u64 v))).
Proof. intros Hh. unfold set_list_next, mbind, st_bind. by rewrite ptr_run. Qed.

Lemma set_prev_run h v s : h ≠ 0 -> set_list_prev h v s = Ok ((), set_ram s (store64 (ram s) (h + 8) (u64 v))).
Proof. intros Hh. unfold set_list_prev, mbind, st_bind. by rewrite ptr_run. Qed.

(** A fresh pool. *)
Lemma alloc_ss_pool_run s p pl :
  bytes_ok (ram s) -> mem_alloc_page (pages s) (NUM_PAGES pool_bytes) false = Ok (p, pl) ->
  0 < p -> p + 40 + pool_bytes < 2 ^ 62 -> 0 <= pool_bytes ->
  exists m, alloc_ss_pool sizeof_vcpu dmem_size0 s = Ok (p, set_ram (set_pages s pl) m) /\ bytes_ok m /\
    same_out (ram s) m p 40 /\ load64 m p = p + 40 /\ load64 m (p + 8) = pool_bytes /\ load64 m (p + 16) = p + 40.
Proof.
  intros Hb Ha Hp Hlt Hsz. unfold alloc_ss_pool, alloc_page, mbind, st_bind, mbind, outcome_bind. rewrite Ha.
  rewrite (proj2 (Z.eqb_neq p 0)) by lia. unfold put64, modify, get64, gets. cbn [ram set_ram set_pages].
  unfold off_pool_base, off_pool_size, off_pool_last, off_pool_list, sizeof_snapshot_pool, init_list_head, mbind, st_bind.
  rewrite Z.add_0_r. rewrite (u64_small (p + 40)), (u64_small pool_bytes) by lia.
  set (m2 := store64 (store64 (ram s) p (p + 40)) (p + 8) pool_bytes).
  assert (load64 m2 p = p + 40) as E2.
  { unfold m2. rewrite load64_store64_ne by lia. apply load64_store64. lia. }
  rewrite E2, (u64_small (p + 40)) by lia. set (m3 := store64 m2 (p + 16) (p + 40)).
  rewrite set_next_run, set_prev_run by lia. cbn [ram set_ram]. rewrite (u64_small (p + 24)) by lia.
  set (m4 := store64 m3 (p + 24) (p + 24)). eexists. split; [done|].
  assert (forall a v m, p <= a -> a + 8 <= p + 40 -> same_out m (store64 m a v) p 40) as Ho.
  { intros a v m H1 H2. eapply same_out_mono; [apply store_le_out|lia|simpl; lia]. }
  split_and!.
  - by repeat apply store_le_ok.
  - unfold m4, m3, m2. repeat (eapply same_out_trans; [|apply Ho; lia]). apply same_out_refl.
  - unfold m4, m3. by rewrite !load64_store64_ne by lia.
  - unfold m4, m3, m2. rewrite !load64_store64_ne by lia. by apply load64_store64; lia.
  - unfold m4, m3. rewrite !load64_store64_ne by lia. apply load64_store64. lia.
Qed.

(** It becomes the newest pool; the old tail [t] of the list points to it. *)
Lemma add_pool_run s p t :
  bytes_ok (ram s) -> load64 (ram s) (SS_LIST + 8) = t -> 0 < t < 2 ^ 62 -> 0 < SS_LIST < 2 ^ 62 ->
  0 < p -> p + 40 + pool_bytes < 2 ^ 62 -> 0 <= pool_bytes ->
  apart SS_LIST 16 p 40 -> apart t 8 p 40 -> apart t 8 (SS_LIST + 8) 8 ->
  load64 (ram s) p = p + 40 -> load64 (ram s) (p + 8) = pool_bytes -> load64 (ram s) (p + 16) = p + 40 ->
  exists m, ss_list_add_tail (p + 24) SS_LIST s = Ok ((), set_ram s m) /\ newest (set_ram s m) p pool_bytes (p + 40) /\
    (forall a, apart a 1 p 40 -> apart a 1 SS_LIST 16 -> apart a 1 t 8 -> load8 m a = load8 (ram s) a).
Proof.
  intros Hb Ht Htr HS Hp Hlt Hsz Hsp Htp Hts E0 E8 E16. unfold apart in *.
  unfold ss_list_add_tail, mbind, st_bind, list_prev, mbind, st_bind. rewrite ptr_run by lia. rewrite get64_run, Ht.
  rewrite set_prev_run by lia. rewrite set_next_run by lia. rewrite set_prev_run by lia. rewrite set_next_run by lia.
  cbn [ram set_ram]. rewrite (u64_small (p + 24)), (u64_small SS_LIST), (u64_small t) by lia.
  set (m1 := store64 (ram s) (SS_LIST + 8) (p + 24)). set (m2 := store64 m1 (p + 24) SS_LIST).
  set (m3 := store64 m2 (p + 24 + 8) t). eexists. split; [done|]. split; [split|].
  - cbn [ram set_ram]. by repeat apply store_le_ok.
  - cbn [ram set_ram]. unfold m3, m2, m1. rewrite !load64_store64_ne by lia. apply load64_store64. lia.
  - cbn [ram set_ram]. unfold m3, m2, m1. by rewrite !load64_store64_ne by lia.
  - cbn [ram set_ram]. unfold m3, m2, m1. by rewrite !load64_store64_ne by lia.
  - cbn [ram set_ram]. unfold m3, m2, m1. by rewrite !load64_store64_ne by lia.
  - intros a A1 A2 A3. unfold m3, m2, m1. rewrite !store64_out by lia. done.
Qed.

(** The oldest pool [p1] and the node [n1] after it in the list: the head, when [p1] is
    also the newest pool [p0]. *)
Record oldest (s : lcm) (p0 p1 n1 : Z) : Prop := {
  od_first : load64 (ram s) SS_LIST = p1 + 24;
  od_prev : load64 (ram s) (p1 + 32) = SS_LIST;
  od_next : load64 (ram s) (p1 + 24) = n1;
  od_range : 0 < p1 /\ p1 + 40 < 2 ^ 62 /\ apart SS_LIST 16 p1 40;
  od_case : (p1 = p0 /\ n1 = SS_LIST) \/
    (p1 ≠ p0 /\ 0 < n1 < 2 ^ 62 /\ apart n1 16 SS_LIST 16 /\ apart n1 16 p1 40 /\ apart n1 16 p0 24 /\ apart p1 40 p0 40);
}.

(** Where the next snapshot goes: behind the last one in the newest pool; at the
    start of a first pool; at the start of another one when the newest is full
    and memory allows; or, when it does not, at the start of another one once
    the oldest pool has been given back. *)
Inductive has_room (s : lcm) (p sz ss : Z) : Prop :=
| room_left : init s = true -> newest s p sz ss -> p + 40 <= ss -> ss + total <= p + 40 + sz -> has_room s p sz ss
| room_first pl : init s = false -> mem_alloc_page (pages s) (NUM_PAGES sz) false = Ok (p, pl) ->
    sz = pool_bytes -> ss = p + 40 -> total <= sz -> has_room s p sz ss
| room_next p0 sz0 ss0 pl : init s = true -> newest s p0 sz0 ss0 -> 0 < p0 -> p0 + 40 + sz0 < ss0 + ss_size -> ss0 < 2 ^ 62 ->
    0 <= sz0 -> p0 + 40 + sz0 < 2 ^ 62 -> apart SS_LIST 16 p0 (40 + sz0) -> apart p0 40 p 40 ->
    pool_bytes * 2 <= mem_get_free_pages (pages s) * PAGE_SIZE < 2 ^ 64 ->
    mem_alloc_page (pages s) (NUM_PAGES sz) false = Ok (p, pl) ->
    sz = pool_bytes -> ss = p + 40 -> total <= sz -> has_room s p sz ss
| room_evict p0 sz0 ss0 p1 n1 pl1 pl : init s = true -> newest s p0 sz0 ss0 -> 0 < p0 -> p0 + 40 + sz0 < ss0 + ss_size -> ss0 < 2 ^ 62 ->
    0 <= sz0 -> p0 + 40 + sz0 < 2 ^ 62 -> apart SS_LIST 16 p0 (40 + sz0) ->
    0 <= mem_get_free_pages (pages s) * PAGE_SIZE < pool_bytes * 2 ->
    oldest s p0 p1 n1 -> (p1 ≠ p0 -> apart p0 40 p 40) ->
    mem_free_page (pages s) p1 (NUM_PAGES (load64 (ram s) (p1 + 8))) = Ok (true, pl1) ->
    mem_alloc_page pl1 (NUM_PAGES sz) false = Ok (p, pl) ->
    sz = pool_bytes -> ss = p + 40 -> total <= sz -> has_room s p sz ss.

(** Bytes that belong to neither the pool nor the bookkeeping of the lists. *)
Definition elsewhere (s : lcm) (p sz a : Z) : Prop :=
  apart a 1 p (40 + sz) /\ apart a 1 SS_LIST 16 /\ apart a 1 (load64 (ram s) (SS_LIST + 8)) 8 /\
  (init s = true -> apart a 1 (load64 (ram s) SS_LIST) 16 /\ apart a 1 (load64 (ram s) (load64 (ram s) SS_LIST) + 8) 8).

Lemma get_new_ss_left s p sz ss : newest s p sz ss -> 0 < SS_LIST -> 0 < p -> p + 40 <= ss -> 0 <= sizeof_vcpu ->
  ss + ss_size <= p + 40 + sz -> p + 40 + sz < 2 ^ 62 -> get_new_ss SS_LIST sizeof_vcpu dmem_size0 s = Ok (ss, s).
Proof.
  intros [Nb Nt Nba Ns Nl] HS Hp H1 Hv H2 H3. assert (ss_size = 24 + sizeof_vcpu) as Es by done.
  unfold get_new_ss, mbind, st_bind. rewrite (last_pool_run s p) by lia || done.
  rewrite !get64_run. unfold off_pool_last, off_pool_base, off_pool_size. rewrite Z.add_0_r, Nba, Ns, Nl.
  rewrite (u64_small (p + 40 + sz)), (u64_small (ss + ss_size)) by lia. by rewrite (proj2 (Z.ltb_ge _ _)) by lia.
Qed.

(** A new pool, allocated and appended. *)
Lemma new_pool_run s p t pl :
  bytes_ok (ram s) -> load64 (ram s) (SS_LIST + 8) = t -> 0 < t < 2 ^ 62 -> 0 < SS_LIST < 2 ^ 62 ->
  mem_alloc_page (pages s) (NUM_PAGES pool_bytes) false = Ok (p, pl) ->
  0 < p -> p + 40 + pool_bytes < 2 ^ 62 -> 0 <= pool_bytes ->
  apart SS_LIST 16 p 40 -> apart t 8 p 40 -> apart t 8 (SS_LIST + 8) 8 ->
  exists m, (np ← alloc_ss_pool sizeof_vcpu dmem_size0; ss_list_add_tail (np + off_pool_list) SS_LIST ;; mret np) s =
      Ok (p, set_ram (set_pages s pl) m) /\
    newest (set_ram (set_pages s pl) m) p pool_bytes (p + 40) /\
    (forall a, apart a 1 p 40 -> apart a 1 SS_LIST 16 -> apart a 1 t 8 -> load8 m a = load8 (ram s) a).
Proof.
  intros Hb Ht Htr HS Ha Hp Hlt Hsz Hsp Htp Hts.
  destruct (alloc_ss_pool_run s p pl Hb Ha Hp Hlt Hsz) as (m1 & E1 & B1 & O1 & F0 & F8 & F16).
  destruct (add_pool_run (set_ram (set_pages s pl) m1) p t) as (m2 & E2 & N2 & Fr); cbn [ram set_ram]; try done.
  { rewrite (same_out_load64 _ _ _ _ _ O1); [done|]. unfold apart in *. lia. }
  exists m2. unfold mbind, st_bind. rewrite E1. unfold off_pool_list. rewrite E2. split; [done|]. split; [done|].
  intros a A1 A2 A3. rewrite Fr by done. apply O1. unfold apart in A1. lia.
Qed.

(** The oldest pool leaves the list; the rest of the newest pool's header stays. *)
Lemma drop_oldest_run s p0 p1 n1 sz0 ss0 : bytes_ok (ram s) -> oldest s p0 p1 n1 -> newest s p0 sz0 ss0 -> 0 < SS_LIST < 2 ^ 62 ->
  exists m, ss_list_del (p1 + off_pool_list) s = Ok ((), set_ram s m) /\ bytes_ok m /\
    load64 m (p1 + 8) = load64 (ram s) (p1 + 8) /\ load64 m (SS_LIST + 8) = (if decide (p1 = p0) then SS_LIST else p0 + 24) /\
    (forall a, apart a 1 SS_LIST 16 -> apart a 1 (p1 + 24) 16 -> apart a 1 (n1 + 8) 8 -> load8 m a = load8 (ram s) a).
Proof.
  intros Hb [Of Op On (Or1 & Or2 & Or3) Oc] [_ Nt _ _ _] HS. unfold apart in *.
  assert (0 < n1 < 2 ^ 62) as Hn1 by (destruct Oc as [[_ ->]|]; lia).
  unfold ss_list_del, off_pool_list, mbind, st_bind, list_prev, list_next, mbind, st_bind. rewrite ptr_run by lia. rewrite get64_run.
  rewrite ptr_run by lia. rewrite get64_run. replace (p1 + 24 + 8) with (p1 + 32) by lia. rewrite Op, On.
  rewrite set_prev_run by lia. rewrite set_next_run by lia. rewrite set_next_run by lia. rewrite set_prev_run by lia.
  cbn [ram set_ram]. rewrite (u64_small SS_LIST), (u64_small n1) by lia. replace (p1 + 24 + 8) with (p1 + 32) by lia.
  eexists. split; [done|]. split_and!.
  - by repeat apply store_le_ok.
  - rewrite !load64_store64_ne by (destruct Oc as [[-> ->]|]; lia). done.
  - destruct (decide (p1 = p0)) as [E|E], Oc as [[-> ->]|Oc]; try done; try lia.
    + do 3 rewrite load64_store64_ne by lia. apply load64_store64. lia.
    + by rewrite !load64_store64_ne by lia.
  - intros a A1 A2 A3. rewrite !store64_out by lia. done.
Qed.

Lemma room_run s p sz ss :
  bytes_ok (ram s) -> has_room s p sz ss -> layout p sz -> 0 <= pool_bytes < 2 ^ 61 ->
  exists s', (i ← gets init;
     (if (i : bool) then mret () else
      ss_pool_init SS_LIST sizeof_vcpu dmem_size0 ;;
      modify (fun s => Lcm (ram s) (pages s) (latest_ss s) (latest_ss_id s) (current_restore_cnt s) true)) ;;
     get_new_ss SS_LIST sizeof_vcpu dmem_size0) s = Ok (ss, s') /\
    newest s' p sz ss /\ p + 40 <= ss /\ ss + total <= p + 40 + sz /\ init s' = true /\
    latest_ss_id s' = latest_ss_id s /\ current_restore_cnt s' = current_restore_cnt s /\
    (forall a, elsewhere s p sz a -> load8 (ram s') a = load8 (ram s) a).
Proof.
  intros Hb Hr [Lp Lg Lv Ll Lgv _ Ln] Hpb. assert (ss_size = 24 + sizeof_vcpu) as Es by done. unfold apart in Ll.
  unfold mbind at 1, st_bind at 1, gets. destruct Hr as [Hi N H1 H2|pl Hi Ha -> -> Ht|p0 sz0 ss0 pl Hi N Hp0 Hfull Hss0 Hsz0 Hend Hl0 Hpp Hfree Ha -> -> Ht
    |p0 sz0 ss0 p1 n1 pl1 pl Hi N Hp0 Hfull Hss0 Hsz0 Hend Hl0 Hfree Hold Hpp Hfr Ha -> -> Ht].
  - exists s. rewrite Hi. unfold mbind, st_bind, mret, st_ret. rewrite (get_new_ss_left s p sz ss) by done || lia. done.
  - rewrite Hi. unfold ss_pool_init, init_list_head, mbind, st_bind. rewrite set_next_run, set_prev_run by lia.
    cbn [ram set_ram]. rewrite (u64_small SS_LIST) by lia.
    set (m1 := store64 (store64 (ram s) SS_LIST SS_LIST) (SS_LIST + 8) SS_LIST). set (s1 := set_ram (set_ram s _) m1).
    destruct (new_pool_run s1 p SS_LIST pl) as (m2 & E2 & N2 & Fr); try done; try lia; try (unfold apart; lia).
    { by repeat apply store_le_ok. }
    { apply load64_store64. lia. }
    unfold mbind, st_bind in E2. destruct (alloc_ss_pool _ _ s1) as [[np s2]|] eqn:Ea; [|done].
    destruct (ss_list_add_tail _ _ s2) as [[[] s3]|]; [|done]. injection E2 as -> ->.
    unfold modify. set (s4 := Lcm _ _ _ _ _ _).
    assert (newest s4 p pool_bytes (p + 40)) as N4 by (by destruct N2).
    exists s4. rewrite (get_new_ss_left s4 p pool_bytes (p + 40)) by done || lia. split; [done|]. split_and!; try done; try lia.
    intros a (A1 & A2 & A3 & _). unfold apart in *. change (ram s4) with m2. rewrite Fr by (unfold apart; lia).
    change (ram s1) with m1. unfold m1. rewrite !store64_out by lia. done.
  - rewrite Hi. unfold mbind, st_bind, mret, st_ret. unfold get_new_ss, mbind, st_bind. pose proof N as [Nb Nt Nba Ns Nl].
    rewrite (last_pool_run s p0) by lia || done. rewrite !get64_run. unfold off_pool_last, off_pool_base, off_pool_size.
    rewrite Z.add_0_r, Nba, Ns, Nl. rewrite (u64_small (p0 + 40 + sz0)), (u64_small (ss0 + ss_size)) by lia.
    rewrite (proj2 (Z.ltb_lt _ _)) by lia. unfold gets. rewrite (u64_small (mem_get_free_pages _ * PAGE_SIZE)) by lia.
    rewrite (u64_small (pool_bytes * 2)) by lia. rewrite (proj2 (Z.ltb_ge _ _)) by lia. unfold mret, st_ret.
    unfold apart in Hl0, Hpp.
    destruct (new_pool_run s p (p0 + 24) pl) as (m2 & E2 & N2 & Fr); try done; try lia; try (unfold apart; lia).
    unfold mbind, st_bind in E2. destruct (alloc_ss_pool _ _ s) as [[np s2]|] eqn:Ea; [|done].
    destruct (ss_list_add_tail _ _ s2) as [[[] s3]|]  eqn:Eb; [|done]. injection E2 as -> ->.
    rewrite (proj2 (Z.eqb_neq p 0)), Eb by lia. rewrite get64_run, Z.add_0_r, (nw_base _ _ _ _ N2).
    eexists. split; [done|]. split_and!; try done; try lia.
    intros a (A1 & A2 & A3 & _). rewrite Nt in A3. unfold apart in *. cbn [ram set_ram]. rewrite Fr by (unfold apart; lia). done.
  - rewrite Hi. unfold mbind, st_bind, mret, st_ret. unfold get_new_ss, mbind, st_bind. pose proof N as [Nb Nt Nba Ns Nl].
    rewrite (last_pool_run s p0) by lia || done. rewrite !get64_run. unfold off_pool_last, off_pool_base, off_pool_size.
    rewrite Z.add_0_r, Nba, Ns, Nl. rewrite (u64_small (p0 + 40 + sz0)), (u64_small (ss0 + ss_size)) by lia.
    rewrite (proj2 (Z.ltb_lt _ (ss0 + ss_size))) by lia. unfold gets. rewrite (u64_small (mem_get_free_pages _ * PAGE_SIZE)) by lia.
    rewrite (u64_small (pool_bytes * 2)) by lia. rewrite (proj2 (Z.ltb_lt _ _)) by lia.
    pose proof Hold as [Of Op On (Or1 & Or2 & Or3) Oc]. unfold first_pool, list_next, mbind, st_bind. rewrite ptr_run, get64_run, Of by lia.
    unfold mret, st_ret. replace (u64 (p1 + 24 - off_pool_list)) with p1 by (unfold off_pool_list; rewrite u64_small; lia).
    destruct (drop_oldest_run s p0 p1 n1 sz0 ss0 Hb Hold N ltac:(lia)) as (m1 & -> & B1 & E8 & Et & Fr1). rewrite get64_run. cbn [ram set_ram]. rewrite E8.
    unfold free_page, mbind, outcome_bind. cbn [pages set_ram]. rewrite Hfr. set (s1 := set_pages (set_ram s m1) pl1).
    assert (0 < (if decide (p1 = p0) then SS_LIST else p0 + 24) < 2 ^ 62) as Htr by (destruct (decide _); lia).
    destruct (new_pool_run s1 p (if decide (p1 = p0) then SS_LIST else p0 + 24) pl) as (m2 & E2 & N2 & Fr); try done; try lia; try (unfold apart in *; lia).
    { unfold apart in *. destruct (decide (p1 = p0)) as [|Hne]; [lia|]. specialize (Hpp Hne). lia. }
    { unfold apart in *. destruct (decide (p1 = p0)); lia. }
    unfold mbind, st_bind in E2. destruct (alloc_ss_pool _ _ s1) as [[np s2]|] eqn:Ea; [|done].
    destruct (ss_list_add_tail _ _ s2) as [[[] s3]|] eqn:Eb; [|done]. injection E2 as -> ->.
    rewrite (proj2 (Z.eqb_neq p 0)), Eb by lia. rewrite get64_run, Z.add_0_r, (nw_base _ _ _ _ N2).
    eexists. split; [done|]. split_and!; try done; try lia.
    intros a (A1 & A2 & A3 & A4). destruct (A4 Hi) as [A5 A6]. rewrite Nt in A3. rewrite Of in A5, A6. rewrite On in A6. cbn [ram set_ram].
    rewrite Fr; [exact (Fr1 a A2 A5 A6)|clear - A1 Hpb; unfold apart in *; lia|exact A2|].
    clear - A2 A3. unfold apart in *. destruct (decide (p1 = p0)); lia.
Qed.

(** The guest's memory, its virtual CPU and its page tables are outside all bookkeeping. *)
Definition guest_elsewhere (s : lcm) (p sz : Z) : Prop :=
  (forall k, 0 <= k < dmem_size cfg -> elsewhere s p sz (pa + k)) /\
  (forall k, 0 <= k < sizeof_vcpu -> elsewhere s p sz (VCPU + k)) /\
  (forall x, in_tables T x -> elsewhere s p sz x).

Lemma checkpoint_run s p sz ss :
  at_walks arm_at_s12e1w vm_root -> layout p sz -> pt_wf (ram s) vm_root T -> maps_guest (ram s) ->
  has_room s p sz ss -> 0 <= pool_bytes < 2 ^ 61 -> guest_elsewhere s p sz ->
  exists s1, checkpoint_snapshot_handler SS_LIST VCPU sizeof_vcpu cfg vmid dmem_size0 arm_at_s12e1w s = Ok ((), s1) /\
    p + 40 <= ss /\ ss + total <= p + 40 + sz /\
    latest_ss s1 = ss /\ latest_ss_id s1 = u64 (latest_ss_id s + 1) /\ init s1 = true /\ newest s1 p sz (ss + total) /\
    saved (ram s) (ram s1) ss /\ load64 (ram s1) ss = u64 (latest_ss_id s) /\ load64 (ram s1) (ss + 8) = total /\
    (forall a, elsewhere s p sz a -> load8 (ram s1) a = load8 (ram s) a).
Proof.
  intros Hat L Hwf Hmg Hr Hpb (Gm & Gv & Gt). pose proof L as [Lp Lg Lv Ll Lgv _ Ln]. pose proof (proj1 Hmg) as Hb. assert (ss_size = 24 + sizeof_vcpu) as Es by done.
  destruct (room_run s p sz ss Hb Hr L Hpb) as (s' & E & N & H1 & H2 & Hi & Hid & Hc & Fr).
  destruct (maps_guest_keep (ram s) (ram s') Hwf Hmg (nw_bytes _ _ _ _ N)) as [Hwf' Hmg']; [intros x Hx; by apply Fr, Gt|].
  destruct (save_run s' p sz ss Hat L Hwf' Hmg' (fun x Hx => proj1 (Gt x Hx)) N H1 H2) as (m & Es' & Bm & [Sv Sm] & F8 & F0 & F16 & Frm).
  unfold apart in Lg, Lv, Ll, Lgv. eexists. split.
  { unfold checkpoint_snapshot_handler, mbind, st_bind in *. destruct (gets init s) as [[i t1]|]; [|done].
    match type of E with match ?X with _ => _ end = _ => destruct X as [[[] t2]|]; [|done] end. rewrite E.
    rewrite (proj2 (Z.eqb_neq ss 0)) by lia. exact Es'. }
  cbn [ram latest_ss latest_ss_id init]. rewrite <- Hid. split_and!; try done; try lia.
  - destruct N as [Nb Nt Nba Ns Nl]. unfold load64 in *. split; cbn [ram]; unfold load64; try done;
      (erewrite load_le_ext; [eassumption|]; intros k Hk; apply Frm; unfold apart; lia).
  - split; [intros k Hk; rewrite Sv by done|intros k Hk; rewrite Sm by done]; apply Fr; auto.
  - intros a Ha. rewrite Frm; [by apply Fr| |]; destruct Ha as (A1 & A2 & A3 & _); unfold apart in *; lia.
Qed.
End snapshot.

(** ** Finding a snapshot *)

(** The snapshots of a pool from [ss] on, as numbers and sizes; what follows the
    last one does not read as a snapshot that fits. *)
Fixpoint chain (m : mem) (pool_end ss : Z) (l : list (Z * Z)) : Prop :=
  match l with
  | [] => (u64 (ss + load64 m (ss + 8)) <=? pool_end) && (0 <? load64 m (ss + 8)) = false
  | (id, size) :: l => load64 m ss = id /\ load64 m (ss + 8) = size /\ 0 < size /\ 0 <= ss /\ ss + size <= pool_end /\
      pool_end < 2 ^ 64 /\ chain m pool_end (ss + size) l
  end.

(** The pools from the list node [pos] on, with their snapshots. *)
Fixpoint pool_list (SS_LIST : Z) (m : mem) (pos : Z) (ps : list (Z * list (Z * Z))) : Prop :=
  match ps with
  | [] => pos = SS_LIST
  | (p, l) :: ps => pos = p + 24 /\ pos ≠ SS_LIST /\ 0 <= p < 2 ^ 63 /\ load64 m p = p + 40 /\
      p + 40 + load64 m (p + 8) < 2 ^ 64 /\ 0 <= load64 m (p + 8) /\
      chain m (p + 40 + load64 m (p + 8)) (p + 40) l /\ pool_list SS_LIST m (load64 m (p + 24)) ps
  end.

(** The first snapshot with a number. *)
Fixpoint in_chain (id ss : Z) (l : list (Z * Z)) : option Z :=
  match l with
  | [] => None
  | (i, size) :: l => if i =? id then Some ss else in_chain id (ss + size) l
  end.

Fixpoint in_pools (id : Z) (ps : list (Z * list (Z * Z))) : option Z :=
  match ps with
  | [] => None
  | (p, l) :: ps => match in_chain id (p + 40) l with Some ss => Some ss | None => in_pools id ps end
  end.

Lemma find_in_pool_run k id e ss l s : chain (ram s) e ss l -> (length l < k)%nat ->
  find_in_pool k id e ss s = Ok (in_chain id ss l, s).
Proof.
  revert ss l. induction k as [|k IH]; intros ss l Hc Hk; [lia|]. cbn [find_in_pool]. unfold mbind, st_bind.
  rewrite get64_run. unfold off_ss_size, off_ss_id. destruct l as [|[i size] l]; cbn [chain in_chain] in *.
  - by rewrite Hc.
  - destruct Hc as (E0 & E8 & Hp & Hs & He & Hlt & Hc). rewrite E8, u64_small by lia.
    rewrite (proj2 (Z.leb_le (ss + size) e)), (proj2 (Z.ltb_lt 0 size)) by lia. cbn [andb]. rewrite get64_run, Z.add_0_r, E0.
    destruct (i =? id); [done|]. apply IH; [done|simpl in Hk; lia].
Qed.

Lemma find_in_list_run SS_LIST fuel k id pos ps s :
  pool_list SS_LIST (ram s) pos ps -> (length ps < k)%nat -> Forall (fun pl => (length (snd pl) < fuel)%nat) ps ->
  find_in_list SS_LIST fuel k id pos s = match in_pools id ps with Some ss => Ok (ss, s) | None => Halt HError end.
Proof.
  revert pos ps. induction k as [|k IH]; intros pos ps Hp Hk Hf; [lia|]. cbn [find_in_list].
  destruct ps as [|[p l] ps]; cbn [pool_list in_pools] in *.
  - rewrite Hp, Z.eqb_refl. done.
  - destruct Hp as (-> & Hne & Hr & E0 & He & Hsz & Hc & Hp). apply Forall_cons in Hf as [Hl Hf]. cbn [snd] in Hl.
    rewrite (proj2 (Z.eqb_neq _ _) Hne). unfold mbind, st_bind. rewrite ptr_run by lia. unfold off_pool_list, off_pool_base, off_pool_size.
    rewrite u64_small by lia. replace (p + 24 - 24) with p by lia. rewrite !get64_run, Z.add_0_r, E0.
    rewrite (u64_small (p + 40 + _)) by lia. rewrite (find_in_pool_run _ _ _ _ l) by done.
    destruct (in_chain id (p + 40) l); [done|]. unfold list_next, mbind, st_bind. rewrite ptr_run, get64_run by lia.
    apply IH; [done|simpl in Hk; lia|done].
Qed.

(** ** The properties *)

(** C8: a snapshot brings back what it holds: the virtual CPU and [dmem_size] bytes of
    memory from [base_addr] on, at the place where the VM's tables put that
    address.  [checkpoint_snapshot_handler], in whichever pool the snapshot goes
    (the newest, a first one, another one, or another one after the oldest was
    given back), returns having numbered and stored them, with no byte changed
    outside the pool and the links of the list; from any later state
    in which the bytes of the snapshot are intact and the tables still map
    [base_addr] there, restoring the latest snapshot returns with these bytes as
    they were at the checkpoint, with the same hash printed, and with no other
    byte changed. *)
Theorem checkpoint_restore_roundtrip SS_LIST VCPU sizeof_vcpu cfg vmid dmem0 at_ fuel pa vm_root T s p sz ss :
  let total := sizeof_snapshot sizeof_vcpu + dmem_size cfg in
  at_walks at_ vm_root -> layout SS_LIST VCPU sizeof_vcpu cfg pa p sz ->
  pt_wf (ram s) vm_root T -> maps_guest cfg pa vm_root (ram s) ->
  has_room SS_LIST sizeof_vcpu cfg dmem0 s p sz ss -> 0 <= new_pool_size sizeof_vcpu dmem0 < 2 ^ 61 ->
  guest_elsewhere SS_LIST VCPU sizeof_vcpu cfg pa T s p sz ->
  exists s1, checkpoint_snapshot_handler SS_LIST VCPU sizeof_vcpu cfg vmid dmem0 at_ s = Ok ((), s1) /\
    latest_ss s1 = ss /\ load64 (ram s1) ss = u64 (latest_ss_id s) /\ newest SS_LIST s1 p sz (ss + total) /\
    (forall a, elsewhere SS_LIST s p sz a -> load8 (ram s1) a = load8 (ram s) a) /\
    forall s2, maps_guest cfg pa vm_root (ram s2) -> latest_ss s2 = ss ->
      (forall k, 0 <= k < total -> load8 (ram s2) (ss + k) = load8 (ram s1) (ss + k)) ->
      exists m, restore_snapshot_handler SS_LIST VCPU sizeof_vcpu cfg at_ fuel LATEST_SSID s2 = Ok ((), set_ram s2 m) /\
        (forall k, 0 <= k < dmem_size cfg -> load8 m (pa + k) = load8 (ram s) (pa + k)) /\
        (forall k, 0 <= k < sizeof_vcpu -> load8 m (VCPU + k) = load8 (ram s) (VCPU + k)) /\
        (forall a, apart a 1 pa (dmem_size cfg) -> apart a 1 VCPU sizeof_vcpu -> load8 m a = load8 (ram s2) a) /\
        __hash_object (ram s2) ss total = __hash_object (ram s1) ss total.
Proof.
  intros total Hat L Hwf Hmg Hr Hpb Hg.
  destruct (checkpoint_run SS_LIST VCPU sizeof_vcpu cfg vmid dmem0 at_ pa vm_root T s p sz ss Hat L Hwf Hmg Hr Hpb Hg)
    as (s1 & E & H1 & H2 & Hl & _ & _ & N & [Sv Sm] & Hid & _ & Fr). exists s1. do 5 (split; [done|]).
  intros s2 M2 L2 Hs. pose proof (lo_nz _ _ _ _ _ _ _ L) as Ln. pose proof (lo_pool _ _ _ _ _ _ _ L) as Lp.
  assert (total = 24 + sizeof_vcpu + dmem_size cfg) as Et by done.
  destruct (restore_run SS_LIST VCPU sizeof_vcpu cfg at_ pa vm_root s2 (ram s) p sz ss Hat L M2) as (m & Er & Rm & Rv & Rf); try done.
  { split; intros k Hk.
    - rewrite <- Sv by done. rewrite <- !Z.add_assoc. apply Hs. lia.
    - rewrite <- Sm by done. rewrite <- !Z.add_assoc. apply Hs. unfold sizeof_snapshot. lia. }
  exists m. split; [|split_and!; try done].
  - unfold restore_snapshot_handler, mbind, st_bind. rewrite Z.eqb_refl. unfold get_latest_ss, gets. rewrite L2.
    by rewrite (proj2 (Z.eqb_neq ss 0)) by lia.
  - apply hash_bytes_ext. intros k Hk. apply Hs. lia.
Qed.

(** With snapshots laid out one after the other in the pools of the list,
    [get_ss_by_id] returns, changes nothing, and finds the oldest snapshot with
    the number asked for; it ends in the error exit exactly when there is none. *)
Theorem get_ss_by_id_correct SS_LIST fuel id ps s :
  0 < SS_LIST -> pool_list SS_LIST (ram s) (load64 (ram s) SS_LIST) ps -> (length ps < fuel)%nat ->
  Forall (fun pl => (length (snd pl) < fuel)%nat) ps ->
  get_ss_by_id SS_LIST fuel id s = match in_pools id ps with Some ss => Ok (ss, s) | None => Halt HError end.
Proof.
  intros HS Hp Hk Hf. unfold get_ss_by_id, list_next, mbind, st_bind. rewrite ptr_run, get64_run by lia.
  by apply find_in_list_run.
Qed.

(** A guest that asks for a reset is not restored.  [guest_halt_handler] announces
    that it restores the latest snapshot but passes its reason, the function
    number 0x84000009, on as the number of the snapshot, so that it ends in the
    error exit unless a snapshot happens to have that number. *)
Theorem guest_reset_not_restored SS_LIST VCPU sizeof_vcpu cfg at_ fuel ps s :
  0 < SS_LIST -> pool_list SS_LIST (ram s) (load64 (ram s) SS_LIST) ps -> (length ps < fuel)%nat ->
  Forall (fun pl => (length (snd pl) < fuel)%nat) ps -> in_pools PSCI_FNID_SYSTEM_RESET ps = None ->
  guest_halt_handler SS_LIST VCPU sizeof_vcpu cfg at_ fuel PSCI_FNID_SYSTEM_RESET s = Halt HError.
Proof.
  intros HS Hp Hk Hf Hn. unfold guest_halt_handler. change (PSCI_FNID_SYSTEM_RESET =? PSCI_FNID_SYSTEM_OFF) with false.
  rewrite Z.eqb_refl. unfold mbind, st_bind, gets. destruct (current_restore_cnt s <? NUM_MAX_SNAPSHOT_RESOTRE); [|done].
  unfold modify, restore_snapshot_handler, mbind, st_bind. change (PSCI_FNID_SYSTEM_RESET =? LATEST_SSID) with false. cbv iota.
  unfold get_ss_by_id, list_next, mbind, st_bind. rewrite ptr_run, get64_run by lia. cbn [ram].
  by rewrite (find_in_list_run SS_LIST fuel fuel _ _ ps), Hn.
Qed.

(** *** Examples: a pool at 0x8000 with one snapshot and room for more *)

Definition demo_cfg : vm_config := VmConfig 0x1FF000 0x100000 0x1000 0x1FF000 64.
Definition demo_at : mem -> Z -> Z := walk_at vm_root.

Definition with_pool (m : mem) (p last : Z) : mem :=
  store64 (store64 (store64 (store64 (store64 (store64 (store64 m 0x1000 (p + 24)) 0x1008 (p + 24))
    p (p + 40)) (p + 8) 1800) (p + 16) last) (p + 24) 0x1000) (p + 32) 0x1000.

Definition demo_ram : mem := store64 (store64 (with_pool ∅ 0x8000 (0x8028 + 600)) 0x8028 0) 0x8030 600.

Definition demo_lcm : lcm := Lcm demo_ram demo_pool 0x8028 1 0 true.

(** A VM whose tables [mem_alloc_map] built, its one pool full and no page left: the
    next snapshot takes the place of the pool's first. *)
Definition guest_tables : mem :=
  match mem_alloc_map vm_space None 0x1FF000 2 PTE_VM_FLAGS vm_state with Ok (_, _, s) => s.2 | Halt _ => ∅ end.

Definition full_pool : page_pool := PagePool 0x60010000 64 0 0 [0xFFFFFFFF; 0xFFFFFFFF] SPINLOCK_INITVAL.

Definition full_lcm : lcm :=
  Lcm (with_pool guest_tables 0x60010000 (0x60010028 + 1800)) full_pool (0x60010028 + 1200) 3 0 true.

Lemma guest_tables_wf : exists T, pt_wf guest_tables vm_root T /\ forall x, in_tables T x -> 0x50010000 <= x < 0x50050000.
Proof.
  pose proof (mem_alloc_map_spec vm_space vm_state {[vm_root := 0]} 0x1FF000 2
    vm_state_wf ltac:(done) ltac:(done) ltac:(lia) ltac:(done) None PTE_VM_FLAGS ltac:(done) ltac:(done)) as H.
  assert (match mem_alloc_map vm_space None 0x1FF000 2 PTE_VM_FLAGS vm_state with Ok (va, _, _) => va = 0x1FF000 | Halt _ => False end) as Hc
    by (vm_compute; reflexivity).
  unfold guest_tables. destruct (mem_alloc_map vm_space None 0x1FF000 2 PTE_VM_FLAGS vm_state) as [[[va sp'] s']|h]; [|done].
  destruct H as (T & [(-> & _)|(_ & _ & pa & [(Hpt & _) [Hw _ _ _] _ _ _ _ Htab _])]); [done|]. exists T. rewrite Hpt in Hw. split; [exact Hw|].
  intros x Hx. destruct (Htab x Hx) as [(a & l & Ha & Hr)|Ho].
  - apply lookup_singleton_Some in Ha as [<- _]. unfold vm_root, PAGE_SIZE in Hr. lia.
  - assert (byte_free vm_pool x) as [Hr _] by exact Ho. cbn [base nr_pages vm_pool] in Hr. unfold vm_root, PAGE_SIZE in Hr. lia.
Qed.

Lemma with_pool_ok m p last : bytes_ok m -> bytes_ok (with_pool m p last).
Proof. intros Hm. unfold with_pool, store64. by repeat apply store_le_ok. Qed.

Lemma full_tables : exists T, pt_wf (ram full_lcm) vm_root T /\ forall x, in_tables T x -> 0x50010000 <= x < 0x50050000.
Proof.
  destruct guest_tables_wf as (T & Hwf & Hr). exists T. split; [|done].
  apply (tables_write guest_tables _ vm_root T Hwf).
  - apply with_pool_ok, (pw_bytes _ _ _ Hwf).
  - intros x Hx. apply Hr in Hx. unfold full_lcm, with_pool. cbn [ram]. rewrite !store64_out by lia. done.
Qed.

Lemma checkpoint_restore_roundtrip_witness :
  exists s1 m, checkpoint_snapshot_handler 0x1000 0x2000 512 demo_cfg 0 64 demo_at full_lcm = Ok ((), s1) /\ latest_ss s1 = 0x60010028 /\
    restore_snapshot_handler 0x1000 0x2000 512 demo_cfg demo_at 10 LATEST_SSID (set_ram s1 (store64 (ram s1) 0x2010 77)) =
      Ok ((), set_ram (set_ram s1 (store64 (ram s1) 0x2010 77)) m) /\ load8 m 0x2010 = 0.
Proof.
  destruct full_tables as (T & Hwf & Hr).
  assert (forall a, apart a 1 0x60010000 1840 -> apart a 1 0x1000 16 -> elsewhere 0x1000 full_lcm 0x60010000 1800 a) as He.
  { intros a H1 H2. unfold elsewhere. replace (load64 (ram full_lcm) (0x1000 + 8)) with 0x60010018 by (by vm_compute).
    replace (load64 (ram full_lcm) 0x1000) with 0x60010018 by (by vm_compute).
    replace (load64 (ram full_lcm) 0x60010018) with 0x1000 by (by vm_compute). unfold apart in *. lia. }
  destruct (checkpoint_restore_roundtrip 0x1000 0x2000 512 demo_cfg 0 64 demo_at 10 0x50016000 vm_root T full_lcm 0x60010000 1800 0x60010028)
    as (s1 & E & Hl & _ & N & Fr & H).
  - apply walk_at_walks.
  - split; unfold apart; cbn [base_addr dmem_size demo_cfg]; try lia. by vm_compute.
  - exact Hwf.
  - split; [exact (pw_bytes _ _ _ Hwf)|by vm_compute].
  - eapply (room_evict _ _ _ _ _ _ _ _ 0x60010000 1800 (0x60010028 + 1800) 0x60010000 0x1000).
    + reflexivity.
    + split; [exact (pw_bytes _ _ _ Hwf)|by vm_compute..].
    + lia.
    + unfold sizeof_snapshot. lia.
    + lia.
    + lia.
    + lia.
    + unfold apart. lia.
    + by vm_compute.
    + split; [by vm_compute..|unfold apart; lia|by left].
    + done.
    + by vm_compute.
    + by vm_compute.
    + by vm_compute.
    + lia.
    + by vm_compute.
  - by vm_compute.
  - split_and!; [intros k Hk; cbn [dmem_size demo_cfg] in Hk; apply He; unfold apart; lia..|].
    intros x Hx. apply Hr in Hx. apply He; unfold apart; lia.
  - destruct (H (set_ram s1 (store64 (ram s1) 0x2010 77))) as (m & Er & _ & Hv & _); [|exact Hl| |].
    + eapply maps_guest_keep; [exact Hwf|split; [exact (pw_bytes _ _ _ Hwf)|by vm_compute]|apply store_le_ok, (nw_bytes _ _ _ _ _ N)|].
      intros x Hx. apply Hr in Hx. cbn [ram set_ram]. rewrite store64_out by lia. apply Fr, He; unfold apart; lia.
    + intros k Hk. cbn [ram set_ram]. apply store64_out. unfold sizeof_snapshot in Hk. cbn in Hk. lia.
    + exists s1, m. split; [exact E|]. split; [exact Hl|]. split; [exact Er|]. rewrite (Hv 16 ltac:(lia) : load8 m 0x2010 = _). by vm_compute.
Defined.

Lemma demo_pools : pool_list 0x1000 demo_ram (load64 demo_ram 0x1000) [(0x8000, [(0, 600)])].
Proof. cbn [pool_list chain]. split_and!; by vm_compute. Qed.

Lemma get_ss_by_id_correct_witness : get_ss_by_id 0x1000 5 0 demo_lcm = Ok (0x8028, demo_lcm).
Proof. apply (get_ss_by_id_correct 0x1000 5 0 [(0x8000, [(0, 600)])] demo_lcm); [lia|exact demo_pools|simpl; lia|by repeat constructor]. Defined.

Lemma guest_reset_not_restored_witness :
  guest_halt_handler 0x1000 0x2000 512 demo_cfg demo_at 5 PSCI_FNID_SYSTEM_RESET demo_lcm = Halt HError.
Proof.
  apply (guest_reset_not_restored 0x1000 0x2000 512 demo_cfg demo_at 5 [(0x8000, [(0, 600)])] demo_lcm);
    [lia|exact demo_pools|simpl; lia|by repeat constructor|reflexivity].
Defined.

(** The search does not stop at [last]: bytes a freed page still held read as a
    snapshot that was never taken in this pool. *)
Lemma get_ss_by_id_stale :
  get_ss_by_id 0x1000 5 7 (set_ram demo_lcm (store64 (store64 demo_ram (0x8028 + 600) 7) (0x8030 + 600) 600)) =
    Ok (0x8028 + 600, set_ram demo_lcm (store64 (store64 demo_ram (0x8028 + 600) 7) (0x8030 + 600) 600)) /\
  load64 demo_ram 0x8010 = 0x8028 + 600.
Proof.
  split; [|by vm_compute].
  set (s := set_ram _ _). assert (pool_list 0x1000 (ram s) (load64 (ram s) 0x1000) [(0x8000, [(0, 600); (7, 600)])]) as Hp.
  { cbn [pool_list chain]. split_and!; by vm_compute. }
  unfold get_ss_by_id, list_next, mbind, st_bind. rewrite ptr_run, get64_run by lia.
  by rewrite (find_in_list_run _ _ _ _ _ _ _ Hp) by (simpl; lia || by repeat constructor).
Qed.
