(* ===== verification/Irq.v ===== *)
(** Physical interrupts: [core/interrupts.c], [gic_handle] of
    [arch/aarch64/gic.c], the rest of [arch/aarch64/arch_interrupts.c] and the
    hypervisor's timer, [arch/aarch64/timer.c].

    An interrupt is acknowledged, forwarded to the VM it is assigned to or
    handled by the function the hypervisor registered, and completed.  The
    state is that of the virtual interrupt controller, the tables of handlers
    and the timer.  The barriers of [gic_init] separate what the functions of
    one CPU do here; they are the subject of [Cpu]. *)

From S2P Require Import Prelude Bit Bitmap Spinlock PhysMem Objpool Mem PageTable Mmu Dlist Cpu Gic Vm Vgic VgicInv VgicLr.

(** ** [timer.c] *)

Record timer := Timer {
  TIMER_WAIT : Z;
  cntfrq : Z;
  timer_cnt : Z;
  cnthp_ctl : Z;
  cnthp_cval : Z;
}.

Definition CNTV_CTL_ENABLE : Z := 1.

Definition set_ctl (t : timer) (c : Z) : timer := Timer (TIMER_WAIT t) (cntfrq t) (timer_cnt t) c (cnthp_cval t).

Definition disable_cnthp (t : timer) : timer := set_ctl t (Z.land (u32 (cnthp_ctl t)) (not32 CNTV_CTL_ENABLE)).
Definition enable_cnthp (t : timer) : timer := set_ctl t (Z.lor (u32 (cnthp_ctl t)) CNTV_CTL_ENABLE).

Definition set_el2_timer_sec (t : timer) (sec : Z) : timer :=
  Timer (u64 (sec * 1000)) (cntfrq t) (timer_cnt t) (cnthp_ctl t) (cnthp_cval t).
Definition set_el2_timer_microsec (t : timer) (ms : Z) : timer :=
  Timer ms (cntfrq t) (timer_cnt t) (cnthp_ctl t) (cnthp_cval t).

(** [cntpct] is the counter's value when it is read. *)
Definition timer_handler (cntpct : Z) (t : timer) : timer :=
  let t := disable_cnthp t in
  let ticks := u64 (TIMER_WAIT t * cntfrq t) / 1000 in
  let t := Timer (TIMER_WAIT t) (cntfrq t) (i32 (timer_cnt t + 1)) (cnthp_ctl t) (u64 (cntpct + ticks)) in
  enable_cnthp t.

(** [frq] is the value of [CNTFRQ_EL0]. *)
Definition timer_init (frq : Z) (t : timer) : timer :=
  let t := disable_cnthp t in
  let t := set_el2_timer_sec t 2 in
  let t := Timer (TIMER_WAIT t) frq (timer_cnt t) (cnthp_ctl t) (cnthp_cval t) in
  enable_cnthp t.

(** ** [interrupts.c] *)

Definition IRQ_TIMER : Z := 26.
Definition CPU_MASTER : Z := 0.

Inductive irq_res := FORWARD_TO_VM | HANDLED_BY_HYP.

Section irq.
Context {H : Type} `{GicHw H}.
Context (fuel : nat) (cntpct : Z).

(** The handlers of the [.ipi_cpumsg_handlers] section: this program has one, so
    [VGIC_IPI_ID] is 0. *)
Definition vgic_ipi (event data : Z) (ws : world H * Msg.msgsys) : outcome (world H * Msg.msgsys) :=
  '(_, w) ← vgic_ipi_handler 0 event data (set_msg ws.1 ws.2);
  Ok (w, wmsg w).

Record irqs := Irqs { iw : world H; it : intrs; itm : timer }.

Definition on_world {A : Type} (m : st (world H) A) : st irqs A := fun s =>
  '(a, w) ← m (iw s);
  Ok (a, Irqs w (it s) (itm s)).

Definition interrupt_is_reserved (int_id : Z) : st irqs bool := fun s =>
  b ← bitmap_get (hyp_interrupt_bitmap (it s)) int_id;
  Ok (negb (b =? 0), s).

(** [handler(int_id)]. *)
Definition call_handler (h : irq_handler) (int_id : Z) : st irqs () := fun s =>
  match h with
  | gic_maintenance => on_world (gic_maintenance_handler fuel int_id) s
  | cpu_msg =>
      '(w, m) ← Msg.cpu_msg_handler [Some vgic_ipi] fuel (cpu_id (iw s)) (iw s, wmsg (iw s));
      Ok ((), Irqs (set_msg w m) (it s) (itm s))
  | timer_interrupt => Ok ((), Irqs (iw s) (it s) (timer_handler cntpct (itm s)))
  end.

Definition interrupts_handle (int_id : Z) : st irqs irq_res :=
  m ← gets (fun s => wvm (iw s));
  has ← lift (vm_has_interrupt m int_id);
  if (has : bool) then
    v ← gets (fun s => cur_vcpu (iw s));
    on_world (vgic_inject_hw v int_id) ;;
    mret FORWARD_TO_VM
  else
    res ← interrupt_is_reserved int_id;
    if (res : bool) then
      hs ← gets (fun s => interrupt_handlers (it s));
      h ← lift (rd hs int_id);
      match h with
      | Some h => call_handler h int_id ;; mret HANDLED_BY_HYP
      | None => stop HFault
      end
    else stop HError.

(** *** [arch_interrupts.c] *)

Definition interrupts_arch_conflict (interrupt_bitmap : bitmap_t) (int_id : Z) : outcome bool :=
  b ← bitmap_get interrupt_bitmap int_id;
  Ok (negb (b =? 0) && (GIC_CPU_PRIV <? int_id)).

Definition interrupts_arch_vm_assign (id : Z) : st (world H) () := vgic_set_hw id.

(** [interrupts_vm_assign]: the VM is that of the world. *)
Definition set_interrupt_bitmap (m : vm) (b : bitmap_t) : vm :=
  Vm (vm_id m) (vcpus m) (nr_cpus m) (cpus m) (master m) (vm_lock m) (d m) (spilled m) (vgic_spilled_lock m)
    (emul_mem_list m) (emul_reg_list m) b.

(** The whole function, run without another CPU in between; [assign_act] below is
    the same function access by access. *)
Definition interrupts_vm_assign (id : Z) : st irqs () := fun s =>
  c ← interrupts_arch_conflict (global_interrupt_bitmap (it s)) id;
  if (c : bool) then Halt HError else
  '(_, w) ← interrupts_arch_vm_assign id (iw s);
  b ← bitmap_set (interrupt_bitmap (wvm w)) id;
  g ← bitmap_set (global_interrupt_bitmap (it s)) id;
  Ok ((), Irqs (set_vm w (set_interrupt_bitmap (wvm w) b))
            (Intrs (hyp_interrupt_bitmap (it s)) g (interrupt_handlers (it s))) (itm s)).

(** The master of each VM runs [interrupts_vm_assign] for its own devices, and no lock
    is held: the test of the shared table, the VM's own work, and the load and
    the store of the shared granule are separate steps. *)
Inductive aphase := ACheck (id : Z) | AOwn (id : Z) | ALoad (id : Z) | AStore (id v : Z) | AEnd.

Definition assign_act (p : aphase) (w : world H) (g : bitmap_t) : option (outcome (aphase * world H * bitmap_t)) :=
  match p with
  | ACheck id => Some (c ← interrupts_arch_conflict g id; if (c : bool) then Halt HError else Ok (AOwn id, w, g))
  | AOwn id => Some (
      '(_, w) ← interrupts_arch_vm_assign id w;
      b ← bitmap_set (interrupt_bitmap (wvm w)) id;
      Ok (ALoad id, set_vm w (set_interrupt_bitmap (wvm w) b), g))
  | ALoad id => Some (v ← rd g (id / BITMAP_GRANULE_LEN); Ok (AStore id v, w, g))
  | AStore id v => Some (
      g ← wr g (id / BITMAP_GRANULE_LEN) (Z.lor v (lsl32 1 (id mod BITMAP_GRANULE_LEN)));
      Ok (AEnd, w, g))
  | AEnd => None
  end.

(** The VMs' masters and the shared table. *)
Record assigning := Assigning { as_vms : list (aphase * world H); as_global : bitmap_t }.

Inductive race_step : assigning -> assigning -> Prop :=
| race_act s k p w p' w' g' : as_vms s !! k = Some (p, w) -> assign_act p w (as_global s) = Some (Ok (p', w', g')) ->
    race_step s (Assigning (<[k := (p', w')]> (as_vms s)) g').

(** *** Initialisation *)

Definition reserve (int_id : Z) (h : irq_handler) : st irqs () := fun s =>
  t ← interrupts_reserve (it s) int_id h;
  Ok ((), Irqs (iw s) t (itm s)).

Definition on_igic {A : Type} (m : st (gic H) A) : st irqs A := on_world (on_gic m).

Definition physicl_timer_init (frq : Z) : st irqs () :=
  modify (fun s => Irqs (iw s) (it s) (timer_init frq (itm s))) ;;
  reserve IRQ_TIMER timer_interrupt ;;
  c ← gets (fun s => cpu_id (iw s));
  on_igic (gic_set_prio IRQ_TIMER 0) ;;
  on_igic (gic_set_pend c IRQ_TIMER false) ;;
  on_igic (gic_set_enable IRQ_TIMER true).

Definition gic_init (maintenance_id : Z) : st irqs () :=
  c ← gets (fun s => cpu_id (iw s));
  (if c =? CPU_MASTER then fun s =>
     '(g, t) ← gic_init_master maintenance_id (wgic (iw s)) (it s);
     Ok ((), Irqs (set_gic (iw s) g) t (itm s))
   else mret ()) ;;
  on_igic (gic_cpu_init c).

Definition interrupts_cpu_enable (int_id : Z) (en : bool) : st irqs () :=
  c ← gets (fun s => cpu_id (iw s));
  on_igic (interrupts_arch_enable c int_id en).

Definition interrupts_arch_init (maintenance_id : Z) : st irqs () :=
  gic_init maintenance_id ;;
  interrupts_cpu_enable maintenance_id true.

Definition interrupts_init (maintenance_id frq : Z) : st irqs () :=
  interrupts_arch_init maintenance_id ;;
  c ← gets (fun s => cpu_id (iw s));
  (if c =? CPU_MASTER then reserve Msg.IPI_CPU_MSG cpu_msg else mret ()) ;;
  physicl_timer_init frq ;;
  interrupts_cpu_enable Msg.IPI_CPU_MSG true.

Definition interrupts_check (int_id : Z) : st irqs bool := on_igic (interrupts_arch_check int_id).

Definition interrupts_clear (int_id : Z) : st irqs () :=
  c ← gets (fun s => cpu_id (iw s));
  on_igic (interrupts_arch_clear c int_id).

(** ** [gic.c] *)

Definition gic_handle : st irqs () :=
  ack ← on_igic gicc_iar;
  let id := bit32_extract ack GICC_IAR_ID_OFF GICC_IAR_ID_LEN in
  if id <? GIC_FIRST_SPECIAL_INTID then
    res ← interrupts_handle id;
    on_igic (gicc_eoir ack) ;;
    match res with
    | HANDLED_BY_HYP => on_igic (gicc_dir ack)
    | FORWARD_TO_VM => mret ()
    end
  else mret ().
End irq.
Arguments irqs : clear implicits.

(** ** Who an interrupt belongs to *)

Section owners.
Context {H : Type} `{GicHw H}.
Implicit Types w : world H.

(** The operations of the virtual controller leave the VM's assignment alone. *)
Definition same_assignment w w' : Prop := interrupt_bitmap (wvm w') = interrupt_bitmap (wvm w).

#[local] Instance same_assignment_preorder : PreOrder same_assignment.
Proof. split; [done|]. intros a b c H1 H2. unfold same_assignment in *. congruence. Qed.

Abbreviation A m := (keeps (fun _ => True) same_assignment m (fun _ => True)).

Lemma A_bind {X Y} (m : st (world H) X) (f : X -> st (world H) Y) : A m -> (forall x, A (f x)) -> A (m ≫= f).
Proof. intros Hm Hf. eapply keeps_bind; [apply _|exact Hm|]. intros x _. apply Hf. Qed.

Lemma A_get_int r : A (get_int r).
Proof. intros w i w' _ [_ ->]%get_int_Ok. done. Qed.

Lemma A_put_int r i : A (put_int r i).
Proof.
  intros w u w' _ [_ ->]%put_int_Ok. split; [done|]. split; [|done]. unfold same_assignment.
  destruct r as [v k|k]; simpl; [by destruct (vcpus (wvm w) !! Z.to_nat v)|done].
Qed.

Lemma A_upd_int r f : A (upd_int r f).
Proof. apply A_bind; [apply A_get_int|]. intros i. apply A_put_int. Qed.

Lemma A_lift {X} (o : outcome X) : A (lift o).
Proof. intros w a w' _. unfold lift. destruct o; [|done]. by intros [= <- <-]. Qed.

Lemma A_lock_int r : A (lock_int r).
Proof. apply A_bind; [apply A_get_int|]. intros i. apply A_bind; [apply A_lift|]. intros k. apply A_put_int. Qed.

Lemma A_get_vcpu v : A (get_vcpu v).
Proof. intros w a w' _ E. unfold get_vcpu in E. inv_bind E. by injection E as <- <-. Qed.

Lemma A_ret {X} (x : X) : A (mret x).
Proof. apply keeps_ret; [apply _|done]. Qed.

Lemma A_vgic_get_int v id u : A (vgic_get_int v id u).
Proof.
  apply A_bind; [apply keeps_gets; apply _|]. intros m. destruct (id <? GIC_CPU_PRIV).
  - apply A_bind; [apply A_get_vcpu|]. intros c. destruct (u =? v_id c); [apply A_ret|].
    destruct (vm_get_vcpu m u); [apply A_ret|]. by intros w a w' _.
  - destruct (id <? int_num (d m)); apply A_ret.
Qed.

Lemma A_vgic_set_hw id : A (vgic_set_hw id).
Proof.
  assert (forall p, A (set_hw_flag p)) as Hf.
  { intros [r|]; [|apply A_ret]. apply A_bind; [apply A_lock_int|]. intros _.
    apply A_bind; [apply A_upd_int|]. intros _. apply A_upd_int. }
  unfold vgic_set_hw. destruct (id <? GIC_MAX_SGIS); [apply A_ret|]. apply A_bind; [apply keeps_gets; apply _|]. intros m.
  destruct (id <? GIC_CPU_PRIV).
  - apply keeps_for; [apply _|]. intros j _. apply A_bind; [apply A_vgic_get_int|done].
  - apply A_bind; [apply A_get_vcpu|]. intros _. apply A_bind; [apply A_vgic_get_int|done].
Qed.

(** The hypervisor and its VMs. *)
Record platform_irqs := PlatformIrqs { p_intrs : intrs; p_vms : list (world H) }.

Definition hyp_owns (s : platform_irqs) (id : Z) : bool := bit (hyp_interrupt_bitmap (p_intrs s)) id.
Definition vm_owns w (id : Z) : bool := bit (interrupt_bitmap (wvm w)) id.

(** A VM is given an interrupt. *)
Inductive assign_step (tm : timer) : platform_irqs -> platform_irqs -> Prop :=
| assign_vm s k w id s' : p_vms s !! k = Some w -> 0 <= id < 1024 ->
    interrupts_vm_assign id (Irqs w (p_intrs s) tm) = Ok ((), s') ->
    assign_step tm s (PlatformIrqs (it s') (<[k := iw s']> (p_vms s))).

(** Every table has a bit per interrupt, a taken interrupt is marked in the global
    table, and no interrupt above 32 has two owners. *)
Record exclusive (s : platform_irqs) : Prop := {
  ex_global : bitmap_wf (global_interrupt_bitmap (p_intrs s)) /\ nbits (global_interrupt_bitmap (p_intrs s)) = 1024;
  ex_vms : Forall (fun w => bitmap_wf (interrupt_bitmap (wvm w)) /\ nbits (interrupt_bitmap (wvm w)) = 1024) (p_vms s);
  ex_hyp_marked : forall id, 0 <= id < 1024 -> hyp_owns s id = true -> bit (global_interrupt_bitmap (p_intrs s)) id = true;
  ex_vm_marked : forall k w id, p_vms s !! k = Some w -> 0 <= id < 1024 -> vm_owns w id = true ->
    bit (global_interrupt_bitmap (p_intrs s)) id = true;
  ex_hyp : forall k w id, p_vms s !! k = Some w -> 32 < id < 1024 -> vm_owns w id = true -> hyp_owns s id = false;
  ex_vm : forall k1 w1 k2 w2 id, p_vms s !! k1 = Some w1 -> p_vms s !! k2 = Some w2 -> 32 < id < 1024 ->
    vm_owns w1 id = true -> vm_owns w2 id = true -> k1 = k2;
}.

(** What an assignment does. *)
Lemma vm_assign_inv w t tm id s' :
  bitmap_wf (global_interrupt_bitmap t) /\ nbits (global_interrupt_bitmap t) = 1024 ->
  bitmap_wf (interrupt_bitmap (wvm w)) /\ nbits (interrupt_bitmap (wvm w)) = 1024 -> 0 <= id < 1024 ->
  interrupts_vm_assign id (Irqs w t tm) = Ok ((), s') ->
  (32 < id -> bit (global_interrupt_bitmap t) id = false) /\
  hyp_interrupt_bitmap (it s') = hyp_interrupt_bitmap t /\ interrupt_handlers (it s') = interrupt_handlers t /\
  (bitmap_wf (global_interrupt_bitmap (it s')) /\ nbits (global_interrupt_bitmap (it s')) = 1024) /\
  (bitmap_wf (interrupt_bitmap (wvm (iw s'))) /\ nbits (interrupt_bitmap (wvm (iw s'))) = 1024) /\
  (forall j, 0 <= j -> bit (global_interrupt_bitmap (it s')) j = (id =? j) || bit (global_interrupt_bitmap t) j) /\
  (forall j, 0 <= j -> vm_owns (iw s') j = (id =? j) || vm_owns w j).
Proof.
  intros [Gw Gn] [Vw Vn] Hid E. unfold interrupts_vm_assign, interrupts_arch_conflict in E. cbn [it iw] in E.
  rewrite bitmap_get_Ok in E by lia. unfold mbind, outcome_bind in E.
  destruct (negb _ && _) eqn:Ec; [done|]. destruct (interrupts_arch_vm_assign id w) as [[u w1]|] eqn:Ea; [|done].
  apply A_vgic_set_hw in Ea as (_ & Hs & _); [|done]. unfold same_assignment in Hs. rewrite Hs in E.
  destruct (bitmap_set_spec (interrupt_bitmap (wvm w)) id) as (b & Eb & Bw & Bn & Hb); [done|lia|]. rewrite Eb in E.
  destruct (bitmap_set_spec (global_interrupt_bitmap t) id) as (g & Eg & Gw' & Gn' & Hg); [done|lia|]. rewrite Eg in E.
  injection E as <-. split_and!; cbn; try done; try congruence.
  intros Hgt. destruct (bit (global_interrupt_bitmap t) id); [|done]. simpl in Ec. change GIC_CPU_PRIV with 32 in Ec. lia.
Qed.

Lemma assign_step_exclusive tm s s' : exclusive s -> assign_step tm s s' -> exclusive s'.
Proof.
  intros [Eg Ev Eh Em Ehv Evv] Hst. destruct Hst as [s k w id s' Hk Hid E].
  pose proof (Forall_lookup_1 _ _ _ _ Ev Hk) as Hw.
  destruct (vm_assign_inv _ _ _ _ _ Eg Hw Hid E) as (Hfree & Hh & _ & Eg' & Hw' & Hg & Ho).
  assert (forall j x, <[k := iw s']> (p_vms s) !! j = Some x -> (j = k /\ x = iw s') \/ (j ≠ k /\ p_vms s !! j = Some x)) as Hl.
  { intros j x. destruct (decide (j = k)) as [->|Hne].
    - rewrite list_lookup_insert_eq by (by eapply lookup_lt_Some). intros [= <-]. by left.
    - rewrite list_lookup_insert_ne by done. by right. }
  assert (forall j x i, p_vms s !! j = Some x -> 32 < id -> 0 <= i < 1024 -> vm_owns x i = true -> id ≠ i) as Hnew.
  { intros j x i Hj Hgt Hi Hx ->. specialize (Em _ _ _ Hj Hi Hx). by rewrite Hfree in Em. }
  split; cbn [p_intrs p_vms].
  - done.
  - by apply Forall_insert.
  - intros i Hi Hy. unfold hyp_owns in Hy. cbn [p_intrs] in Hy. rewrite Hh in Hy. rewrite Hg by lia. rewrite (Eh i Hi Hy). apply orb_true_r.
  - intros j x i Hj Hi Hx. rewrite Hg by lia. apply Hl in Hj as [[-> ->]|[_ Hj]].
    + rewrite Ho in Hx by lia. apply orb_true_iff in Hx as [->|Hx]; [done|]. rewrite (Em _ _ _ Hk Hi Hx). apply orb_true_r.
    + rewrite (Em _ _ _ Hj Hi Hx). apply orb_true_r.
  - intros j x i Hj Hi Hx. unfold hyp_owns. cbn [p_intrs]. rewrite Hh. apply Hl in Hj as [[-> ->]|[_ Hj]]; [|by eapply Ehv].
    rewrite Ho in Hx by lia. apply orb_true_iff in Hx as [->%Z.eqb_eq|Hx]; [|by eapply Ehv].
    destruct (bit (hyp_interrupt_bitmap (p_intrs s)) i) eqn:Eb; [|done]. specialize (Eh i Hid Eb). by rewrite Hfree in Eh by lia.
  - intros k1 w1 k2 w2 i H1 H2 Hi O1 O2. apply Hl in H1 as [[-> ->]|[N1 H1]]; apply Hl in H2 as [[-> ->]|[N2 H2]]; [done| | |by eapply Evv].
    + rewrite Ho in O1 by lia. apply orb_true_iff in O1 as [->%Z.eqb_eq|O1]; [|by eapply (Evv k w k2 w2 i)].
      by destruct (Hnew _ _ i H2 ltac:(lia) ltac:(lia) O2).
    + rewrite Ho in O2 by lia. apply orb_true_iff in O2 as [->%Z.eqb_eq|O2]; [|by eapply (Evv k1 w1 k w i)].
      by destruct (Hnew _ _ i H1 ltac:(lia) ltac:(lia) O1).
Qed.
End owners.

(** ** Handling an interrupt *)

Section handle.
Context {H : Type} `{GicHw H}.
Implicit Type s : irqs H.

(** The state once the interrupt is acknowledged. *)
Definition acked (w : world H) : world H := set_gic w (set_hw (wgic w) (hw_ack (hw (wgic w))).2).
Definition ack_of (w : world H) : Z := u32 (hw_ack (hw (wgic w))).1.
Definition irq_of (w : world H) : Z := bit32_extract (ack_of w) GICC_IAR_ID_OFF GICC_IAR_ID_LEN.

Lemma ack_run s : on_igic gicc_iar s = Ok (ack_of (iw s), Irqs (acked (iw s)) (it s) (itm s)).
Proof.
  unfold on_igic, on_world, on_gic, gicc_iar, ack_of, acked, mbind, outcome_bind.
  destruct (hw_ack (hw (wgic (iw s)))) as [v h]. done.
Qed.

(** Writing a register of the CPU interface. *)
Definition wrote (w : world H) (r : gic_reg) (v : Z) : world H :=
  set_gic w (set_hw (wgic w) (hw_write (hw (wgic w)) r (u32 v))).

Lemma eoir_run s ack : on_igic (gicc_eoir ack) s = Ok ((), Irqs (wrote (iw s) GICC_EOIR ack) (it s) (itm s)).
Proof. done. Qed.

Lemma dir_run s ack : on_igic (gicc_dir ack) s = Ok ((), Irqs (wrote (iw s) GICC_DIR ack) (it s) (itm s)).
Proof. done. Qed.

(** An interrupt of the VM. *)
Lemma handle_forward fuel now s w1 id :
  0 <= id < nbits (interrupt_bitmap (wvm (iw s))) -> vm_owns (iw s) id = true ->
  vgic_inject_hw (cur_vcpu (iw s)) id (iw s) = Ok ((), w1) ->
  interrupts_handle fuel now id s = Ok (FORWARD_TO_VM, Irqs w1 (it s) (itm s)).
Proof.
  intros Hid Ho Hinj. unfold vm_owns in Ho. unfold interrupts_handle, mbind, st_bind, gets, lift, vm_has_interrupt.
  rewrite bitmap_get_Ok, Ho by done. unfold mbind, outcome_bind. cbn [negb Z.eqb].
  unfold on_world, mbind, outcome_bind. by rewrite Hinj.
Qed.

(** An interrupt of the hypervisor. *)
Lemma handle_hyp fuel now s h s1 id :
  0 <= id < nbits (interrupt_bitmap (wvm (iw s))) -> vm_owns (iw s) id = false ->
  0 <= id < nbits (hyp_interrupt_bitmap (it s)) -> bit (hyp_interrupt_bitmap (it s)) id = true ->
  interrupt_handlers (it s) !! Z.to_nat id = Some (Some h) -> call_handler fuel now h id s = Ok ((), s1) ->
  interrupts_handle fuel now id s = Ok (HANDLED_BY_HYP, s1).
Proof.
  intros Hid Ho Hid' Hr Hh Hc. unfold vm_owns in Ho. unfold interrupts_handle, mbind, st_bind, gets, lift, vm_has_interrupt.
  rewrite bitmap_get_Ok, Ho by done. unfold mbind, outcome_bind. cbn [negb Z.eqb].
  unfold interrupt_is_reserved, mbind, outcome_bind. rewrite bitmap_get_Ok, Hr by done. cbn [negb Z.eqb].
  rewrite (proj2 (rd_Ok _ _ _) (conj (proj1 Hid) Hh)). by rewrite Hc.
Qed.
End handle.

(** ** Assignments that overlap *)

Section race.
Context {H : Type} `{GicHw H}.
Implicit Types (w : world H) (g : bitmap_t).

(** The steps of one call without another CPU in between are the function. *)
Lemma assign_solo id w (t : intrs) tm w' g' :
  let g := global_interrupt_bitmap t in
  assign_act (ACheck id) w g = Some (Ok (AOwn id, w, g)) ->
  assign_act (AOwn id) w g = Some (Ok (ALoad id, w', g)) ->
  (exists v, assign_act (ALoad id) w' g = Some (Ok (AStore id v, w', g)) /\ assign_act (AStore id v) w' g = Some (Ok (AEnd, w', g'))) ->
  interrupts_vm_assign id (Irqs w t tm) = Ok ((), Irqs w' (Intrs (hyp_interrupt_bitmap t) g' (interrupt_handlers t)) tm).
Proof.
  intros g E1 E2 (v & E3 & E4). unfold assign_act in *. injection E1 as E1. injection E2 as E2. injection E3 as E3. injection E4 as E4.
  unfold interrupts_vm_assign. cbn [it iw itm]. fold g. destruct (interrupts_arch_conflict g id) as [[]|]; [done| |done]. mstep.
  inv_bind E2. destruct a as [u w1]. rewrite E. mstep. inv_bind E2. rewrite E0. mstep. injection E2 as <-.
  unfold bitmap_set. inv_bind E3. rewrite E2. mstep. injection E3 as ->. inv_bind E4. rewrite E3. mstep. by injection E4 as ->.
Qed.

(** A step of VM [k] on the table [g]. *)
Lemma race_at vs g k p w p' w' g' : vs !! k = Some (p, w) -> assign_act p w g = Some (Ok (p', w', g')) ->
  race_step (Assigning vs g) (Assigning (<[k := (p', w')]> vs) g').
Proof. intros Hk Ha. by apply (race_act (Assigning vs g) k p w). Qed.

(** What is left of an assignment once the test has passed: it ends with the
    interrupt the VM's, whatever the shared table holds. *)
Lemma assign_rest vs g k id w w1 : vs !! k = Some (AOwn id, w) -> 0 <= id < 1024 ->
  bitmap_wf g /\ nbits g = 1024 -> bitmap_wf (interrupt_bitmap (wvm w)) /\ nbits (interrupt_bitmap (wvm w)) = 1024 ->
  interrupts_arch_vm_assign id w = Ok ((), w1) ->
  exists w' g', rtc race_step (Assigning vs g) (Assigning (<[k := (AEnd, w')]> vs) g') /\ vm_owns w' id = true /\ bitmap_wf g' /\ nbits g' = 1024.
Proof.
  intros Hk Hid [Gw Gn] [Vw Vn] Ea. pose proof Ea as Hsame. apply A_vgic_set_hw in Hsame as (_ & Hs & _); [|done]. unfold same_assignment in Hs.
  destruct (bitmap_set_spec (interrupt_bitmap (wvm w)) id) as (b & Eb & _ & _ & Hb); [done|lia|].
  destruct (bitmap_set_spec g id) as (g' & Eg & Gw' & Gn' & _); [done|lia|]. unfold bitmap_set in Eg. inv_bind Eg.
  set (w' := set_vm w1 (set_interrupt_bitmap (wvm w1) b)). exists w', g'. pose proof (lookup_lt_Some _ _ _ Hk) as Hlt. split_and!; [|..].
  - eapply rtc_l. { eapply (race_at vs g k); [done|]. cbn [assign_act]. unfold mbind, outcome_bind. rewrite Ea, Hs, Eb. reflexivity. }
    fold w'. eapply rtc_l. { eapply (race_at _ g k); [by apply list_lookup_insert_eq|]. cbn [assign_act]. unfold mbind, outcome_bind. rewrite E. reflexivity. }
    rewrite list_insert_insert_eq.
    eapply rtc_l. { eapply (race_at _ g k); [by apply list_lookup_insert_eq|]. cbn [assign_act]. unfold mbind, outcome_bind. rewrite Eg. reflexivity. }
    rewrite list_insert_insert_eq. apply rtc_refl.
  - unfold vm_owns, w'. cbn. rewrite Hb by lia. by rewrite Z.eqb_refl.
  - done.
  - congruence.
Qed.

(** The test passes while the interrupt is not marked. *)
Lemma assign_check_free g id w : 0 <= id < 1024 -> nbits g = 1024 -> bit g id = false -> assign_act (ACheck id) w g = Some (Ok (AOwn id, w, g)).
Proof.
  intros Hid Gn Hb. cbn [assign_act]. unfold interrupts_arch_conflict. rewrite bitmap_get_Ok, Hb by lia. done.
Qed.
End race.

(** ** The properties *)

(** C24: given away one after the other, an interrupt above 32 never belongs to two
    parties.  However many interrupts are given to VMs, each assignment complete
    before the next begins, from a state where the hypervisor's and the VMs'
    interrupts are disjoint and marked as taken they stay so, and an attempt to
    give away an interrupt that is taken ends in the error exit. *)
Theorem interrupts_exclusive {H} `{GicHw H} (tm : timer) (s s' : platform_irqs) :
  exclusive s -> rtc (assign_step (H := H) tm) s s' ->
  exclusive s' /\
  forall k w id, p_vms s' !! k = Some w -> 32 < id < 1024 -> bit (global_interrupt_bitmap (p_intrs s')) id = true ->
    interrupts_vm_assign id (Irqs w (p_intrs s') tm) = Halt HError.
Proof.
  intros He Hs. assert (exclusive s') as He'.
  { induction Hs as [|s1 s2 s3 H1 _ IH]; [done|]. apply IH. by eapply assign_step_exclusive. }
  split; [done|]. intros k w id Hk Hid Hb. destruct He' as [[Gw Gn] _ _ _ _ _].
  unfold interrupts_vm_assign, interrupts_arch_conflict. cbn [it]. rewrite bitmap_get_Ok, Hb by lia. unfold mbind, outcome_bind.
  change GIC_CPU_PRIV with 32. by rewrite (proj2 (Z.ltb_lt 32 id)) by lia.
Qed.

(** C39: assignments that overlap give one interrupt to two VMs.  [interrupts_vm_assign]
    takes no lock between its test and its update of the shared table: whenever
    an interrupt is free, the masters of any two VMs that ask for it at the
    same time can both pass the test, and both VMs end up with the interrupt. *)
Theorem interrupts_assign_race {H} `{GicHw H} (vs : list (aphase * world H)) (g : bitmap_t) k1 k2 w1 w2 id w1' w2' :
  k1 ≠ k2 -> vs !! k1 = Some (ACheck id, w1) -> vs !! k2 = Some (ACheck id, w2) ->
  0 <= id < 1024 -> bitmap_wf g -> nbits g = 1024 -> bit g id = false ->
  bitmap_wf (interrupt_bitmap (wvm w1)) /\ nbits (interrupt_bitmap (wvm w1)) = 1024 ->
  bitmap_wf (interrupt_bitmap (wvm w2)) /\ nbits (interrupt_bitmap (wvm w2)) = 1024 ->
  interrupts_arch_vm_assign id w1 = Ok ((), w1') -> interrupts_arch_vm_assign id w2 = Ok ((), w2') ->
  exists s u1 u2, rtc race_step (Assigning vs g) s /\ as_vms s !! k1 = Some (AEnd, u1) /\ as_vms s !! k2 = Some (AEnd, u2) /\
    vm_owns u1 id = true /\ vm_owns u2 id = true.
Proof.
  intros Hne Hk1 Hk2 Hid Gw Gn Hb Hw1 Hw2 E1 E2. pose proof (lookup_lt_Some _ _ _ Hk1) as L1. pose proof (lookup_lt_Some _ _ _ Hk2) as L2.
  set (vs1 := <[k1 := (AOwn id, w1)]> vs). set (vs2 := <[k2 := (AOwn id, w2)]> vs1).
  destruct (assign_rest vs2 g k1 id w1 w1') as (u1 & g1 & R1 & O1 & Gw1 & Gn1); try done.
  { unfold vs2, vs1. rewrite list_lookup_insert_ne by done. by apply list_lookup_insert_eq. }
  set (vs3 := <[k1 := (AEnd, u1)]> vs2) in *. assert (vs3 !! k2 = Some (AOwn id, w2)) as Hk2'.
  { unfold vs3, vs2, vs1. rewrite list_lookup_insert_ne by done. apply list_lookup_insert_eq. by rewrite length_insert. }
  destruct (assign_rest vs3 g1 k2 id w2 w2') as (u2 & g2 & R2 & O2 & _); try done.
  eexists _, u1, u2. split_and!; [|..|done|done].
  - eapply rtc_l; [by apply (race_at vs g k1 (ACheck id) w1 (AOwn id) w1 g); [|apply assign_check_free]|]. fold vs1.
    eapply rtc_l; [apply (race_at vs1 g k2 (ACheck id) w2 (AOwn id) w2 g); [by unfold vs1; rewrite list_lookup_insert_ne|by apply assign_check_free]|]. fold vs2.
    etrans; [exact R1|exact R2].
  - cbn [as_vms]. rewrite list_lookup_insert_ne by done. unfold vs3, vs2, vs1. apply list_lookup_insert_eq. by rewrite !length_insert.
  - cbn [as_vms]. apply list_lookup_insert_eq. unfold vs3, vs2, vs1. by rewrite !length_insert.
Qed.

(** C21: from the device to the guest.  When the interrupt [gic_handle] acknowledges is
    assigned to the VM and enabled, and a list register is free, it ends up
    pending in the first free list register, under its number and linked to the
    physical interrupt; the physical interrupt is completed but not
    deactivated, which is left to the guest, and neither the hypervisor's
    handlers nor its timer are touched. *)
Theorem gic_handle_forwards {H} `{GicLaws H} (fuel : nat) (now : Z) (s : irqs H) c i k :
  let w := acked (iw s) in let id := irq_of (iw s) in let v := cur_vcpu (iw s) in let r := ref_of v id in
  nbits (interrupt_bitmap (wvm w)) = 1024 -> vm_owns w id = true ->
  ready v c r w -> 16 <= id < 1020 -> id < int_num (d (wvm w)) -> int_at w r = Some i ->
  unlocked (i_lock i) -> enabled i = true -> i_hw i = true ->
  0 <= k < NUM_LRS (wgic w) -> lr_free w k = true -> (forall j, 0 <= j < k -> lr_free w j = false) ->
  exists w1 s' i' lr, gic_handle fuel now s = Ok ((), s') /\
    vgic_inject_hw v id w = Ok ((), w1) /\ iw s' = wrote w1 GICC_EOIR (ack_of (iw s)) /\ it s' = it s /\ itm s' = itm s /\
    int_at (iw s') r = Some i' /\ in_lr i' = true /\ i_lr i' = k /\ owner i' = Some v /\ unlocked (i_lock i') /\
    hw_read (hw (wgic (iw s'))) (LR k) = lr /\ GICH_LR_VID lr = id /\ GICH_LR_STATE lr = PEND /\
    ext 10 10 lr = id /\ Z.testbit lr 31 = true.
Proof.
  intros w id v r Hn Ho Hr Hid Hnum Hi Hu Hen Hhw Hk Hfree Hfirst.
  destruct (inject_hw_run w v c i id k Hr ltac:(lia) Hnum Hi Hu Hen Hk Hfree Hfirst)
    as (w1 & i' & lr & E & Hi' & Hin & Hlr & How & Hul & Hreg & Hvid & Hst & _ & Hlink & _).
  destruct (Hlink Hhw) as [Hl1 Hl2].
  exists w1, (Irqs (wrote w1 GICC_EOIR (ack_of (iw s))) (it s) (itm s)), i', lr. split_and!; try done.
  - unfold gic_handle, mbind, st_bind. rewrite ack_run. fold (irq_of (iw s)). fold id.
    rewrite (proj2 (Z.ltb_lt id GIC_FIRST_SPECIAL_INTID)) by (change GIC_FIRST_SPECIAL_INTID with 1020; lia).
    rewrite (handle_forward fuel now (Irqs w (it s) (itm s)) w1 id); [done|cbn [iw]; lia|done|done].
  - cbn [iw wrote wgic set_gic hw set_hw]. rewrite gl_other by done. done.
Qed.

(** *** Examples *)

Definition no_interrupts : bitmap_t := replicate 32 0.

Lemma bit_no_interrupts i : bit no_interrupts i = false.
Proof.
  unfold bit, no_interrupts. destruct (replicate 32 0 !! Z.to_nat (i / 32)) as [x|] eqn:E; simpl; [|apply Z.bits_0].
  apply lookup_replicate in E as [-> _]. apply Z.bits_0.
Qed.

Definition no_handlers : intrs := Intrs no_interrupts no_interrupts (replicate 1024 None).
Definition no_timer : timer := Timer 0 0 0 0 0.
Definition two_vms : platform_irqs := PlatformIrqs no_handlers [demo_world; demo_world].

Lemma two_vms_exclusive : exclusive two_vms.
Proof.
  assert (bitmap_wf no_interrupts /\ nbits no_interrupts = 1024) as Hw.
  { split; [|done]. split; [|done]. apply Forall_forall. intros x Hx. unfold no_interrupts in Hx.
    apply elem_of_replicate in Hx as [-> _]. lia. }
  assert (forall k w id, p_vms two_vms !! k = Some w -> vm_owns w id = true -> False) as Hno.
  { intros k w id Hk. unfold vm_owns.
    assert (interrupt_bitmap (wvm w) = no_interrupts) as ->.
    { destruct k as [|[|k]]; [injection Hk as <-..|]; [reflexivity|reflexivity|done]. }
    by rewrite bit_no_interrupts. }
  split.
  - exact Hw.
  - apply Forall_cons; split; [exact Hw|]. apply Forall_singleton. exact Hw.
  - intros id _. unfold hyp_owns. cbn. by rewrite bit_no_interrupts.
  - intros k w id Hk _ Ho. destruct (Hno k w id Hk Ho).
  - intros k w id Hk _ Ho. destruct (Hno k w id Hk Ho).
  - intros k1 w1 k2 w2 id Hk _ _ Ho. destruct (Hno k1 w1 id Hk Ho).
Qed.

Lemma interrupts_exclusive_witness :
  exists s', rtc (assign_step no_timer) two_vms s' /\ exclusive s' /\
    interrupts_vm_assign 40 (Irqs demo_world (p_intrs s') no_timer) = Halt HError.
Proof.
  destruct (ends_in_Ok (interrupts_vm_assign 40 (Irqs demo_world no_handlers no_timer))
    (fun s => bit (global_interrupt_bitmap (it s)) 40)) as (s1 & E & Hb); [by vm_compute|].
  assert (rtc (assign_step no_timer) two_vms (PlatformIrqs (it s1) (<[0%nat := iw s1]> [demo_world; demo_world]))) as Hs.
  { eapply rtc_l; [|apply rtc_refl]. apply (assign_vm no_timer two_vms 0 demo_world 40 s1); [reflexivity|lia|exact E]. }
  destruct (interrupts_exclusive no_timer two_vms _ two_vms_exclusive Hs) as [He Hn].
  eexists. split; [exact Hs|]. split; [exact He|]. exact (Hn 1%nat demo_world 40 eq_refl ltac:(lia) Hb).
Defined.

(** Two VMs that are configured with interrupt 40 start at the same time. *)
Lemma interrupts_assign_race_witness :
  exists s u1 u2, rtc race_step (Assigning [(ACheck 40, demo_world); (ACheck 40, demo_world)] no_interrupts) s /\
    as_vms s !! 0%nat = Some (AEnd, u1) /\ as_vms s !! 1%nat = Some (AEnd, u2) /\ vm_owns u1 40 = true /\ vm_owns u2 40 = true.
Proof.
  destruct (ends_in_Ok (interrupts_arch_vm_assign 40 demo_world) (fun _ => true)) as (w1 & E & _); [by vm_compute|].
  destruct two_vms_exclusive as [[Gw Gn] Hvms _ _ _ _]. apply Forall_cons in Hvms as [Hw _].
  apply (interrupts_assign_race [(ACheck 40, demo_world); (ACheck 40, demo_world)] no_interrupts 0%nat 1%nat demo_world demo_world 40 w1 w1); try done.
Defined.

(** Interrupt 32 is not covered by the test: two VMs get it. *)
Lemma interrupt_32_shared :
  ends_in (interrupts_vm_assign 32 (Irqs demo_world no_handlers no_timer)) (fun s1 =>
    ends_in (interrupts_vm_assign 32 (Irqs demo_world (it s1) no_timer)) (fun s2 =>
      vm_owns (iw s1) 32 && vm_owns (iw s2) 32)) = true.
Proof. vm_compute. reflexivity. Qed.

(** Interrupt 40 is assigned to the VM, enabled, and raised. *)
Definition irq_gic : gic regfile := Gic (fun r => match r with GICC_IAR => 40 | _ => 0 end) SPINLOCK_INITVAL (replicate 8 0) 4.
Definition irq_base : world regfile := fresh_world irq_gic Msg.demo_sys 2 64 0.
Definition irq_world : world regfile :=
  let w := put_at irq_base (Spi 8) demo_spi in
  set_vm w (set_interrupt_bitmap (wvm w) (0 :: 0x100 :: replicate 30 0)).

Lemma irq_world_ready : exists c, ready 0 c (Spi 8) (acked irq_world) /\ int_at (acked irq_world) (Spi 8) = Some demo_spi.
Proof.
  assert (exists old, int_at irq_base (Spi 8) = Some old) as [old Ho] by (eexists; reflexivity).
  destruct (ready_put 0 (fresh_vcpu 0) (Spi 8) irq_base demo_spi old) as (c & [R1 R2 R3 R4 R5 R6 R7 R8 R9] & _);
    [apply fresh_ready; simpl; lia|exact Ho|by split|].
  exists c. split; [|exact (put_at_same _ _ _ _ Ho)]. by split.
Qed.

Lemma gic_handle_forwards_witness :
  exists s', gic_handle 10 0 (Irqs irq_world no_handlers no_timer) = Ok ((), s') /\
    GICH_LR_VID (hw_read (hw (wgic (iw s'))) (LR 0)) = 40.
Proof.
  destruct irq_world_ready as (c & Hr & Hi).
  destruct (gic_handle_forwards 10 0 (Irqs irq_world no_handlers no_timer) c demo_spi 0)
    as (w1 & s' & i' & lr & E & _ & _ & _ & _ & _ & _ & _ & _ & _ & Hl & Hv & _);
    [reflexivity|by vm_compute|exact Hr|by split|by vm_compute|exact Hi|by split|reflexivity|reflexivity|by split|by vm_compute|lia|].
  exists s'. split; [exact E|]. rewrite Hl. exact Hv.
Defined.

(** A timer interrupt arms the timer for two seconds later. *)
Lemma timer_two_seconds frq now t : 0 <= frq < 2 ^ 32 ->
  let t := timer_handler now (timer_init frq t) in
  cnthp_cval t = u64 (now + 2 * frq) /\ Z.testbit (cnthp_ctl t) 0 = true.
Proof.
  intros Hf. unfold timer_handler, timer_init, enable_cnthp, disable_cnthp, set_ctl, set_el2_timer_sec. cbv zeta. cbn [cnthp_cval TIMER_WAIT cntfrq cnthp_ctl].
  change (u64 (2 * 1000)) with 2000. split.
  - f_equal. f_equal. rewrite u64_small by lia. symmetry. apply (Z.div_unique _ _ _ 0); lia.
  - rewrite Z.lor_spec. apply orb_true_r.
Qed.
