(* ===== verification/Vmm.v ===== *)
(** The virtual machine monitor: [core/vmm.c].

    At start-up every CPU looks for a VM that still wants CPUs; the first CPU of
    a VM is its master and allocates its structures.  One turn of the search
    loop runs under the lock of the VM's entry, so the CPUs interleave turn by
    turn. *)

From S2P Require Import Prelude Bit Bitmap Spinlock PhysMem Objpool Mem.

(** [struct vm_allocation]. *)
Record vm_allocation := VmAllocation { al_base : Z; al_size : Z; al_vm : Z; al_vcpus : Z }.

(** [struct vm_assignment]. *)
Record vm_assignment := VmAssignment {
  va_lock : spinlock_t;
  va_master : bool;
  ncpus : Z;
  va_cpus : Z;
  vm_alloc : vm_allocation;
}.

(** ** Assigning CPUs *)

(** One turn of the loop of [vmm_assign_vcpu] by CPU [cpu], at the entry of a VM
    that is configured with [nr_cpus] CPUs: the value of [*master] when the CPU
    is assigned. *)
Definition assign_turn (cpu nr_cpus : Z) (a : vm_assignment) : outcome (option bool * vm_assignment) :=
  l ← spin_lock (va_lock a);
  let '(r, m, n, c) :=
    if ncpus a <? nr_cpus then
      if negb (va_master a) then
        (Some true, true, u64 (ncpus a + 1), Z.lor (va_cpus a) (lsl64 1 cpu))
      else (Some false, va_master a, u64 (ncpus a + 1), Z.lor (va_cpus a) (lsl64 1 cpu))
    else (None, va_master a, ncpus a, va_cpus a) in
  Ok (r, VmAssignment (spin_unlock l) m n c (vm_alloc a)).

(** The loop from VM [i] on, over the configured numbers of CPUs left: the VM and
    whether the CPU is its master. *)
Fixpoint assign_from (cpu : Z) (conf : list Z) (i : Z) (t : list vm_assignment)
    : outcome (option (Z * bool) * list vm_assignment) :=
  match conf with
  | [] => Ok (None, t)
  | nr :: conf =>
      a ← rd t i;
      '(r, a) ← assign_turn cpu nr a;
      t ← wr t i a;
      match r with
      | Some m => Ok (Some (i, m), t)
      | None => assign_from cpu conf (i + 1) t
      end
  end.

Definition vmm_assign_vcpu (cpu : Z) (conf : list Z) (t : list vm_assignment)
    : outcome (option (Z * bool) * list vm_assignment) := assign_from cpu conf 0 t.

(** ** Allocating a VM *)

Section alloc.
Context (sizeof_vm sizeof_vcpu alignof_vcpu : Z).

Definition vmm_alloc_vm (nr_cpus : Z) (pool : page_pool) (m : mem)
    : outcome (vm_allocation * page_pool * mem) :=
  let total_size := sizeof_vm in
  let vcpus_offset := ALIGN total_size alignof_vcpu in
  let total_size := u64 (vcpus_offset + u64 (nr_cpus * sizeof_vcpu)) in
  let total_size := ALIGN total_size PAGE_SIZE in
  '(allocation, pool) ← mem_alloc_page pool (NUM_PAGES total_size) false;
  if allocation =? 0 then Halt HError else
  m ← memset m allocation 0 total_size;
  Ok (VmAllocation allocation total_size allocation (u64 (allocation + vcpus_offset)), pool, m).

(** Only the master allocates; the others find its allocation in the entry. *)
Definition vmm_alloc_install_vm (vm_id : Z) (master : bool) (conf : list Z)
    (t : list vm_assignment) (pool : page_pool) (m : mem)
    : outcome (vm_allocation * list vm_assignment * page_pool * mem) :=
  a ← rd t vm_id;
  nr ← rd conf vm_id;
  if master then
    '(al, pool, m) ← vmm_alloc_vm nr pool m;
    t ← wr t vm_id (VmAssignment (va_lock a) (va_master a) (ncpus a) (va_cpus a) al);
    Ok (al, t, pool, m)
  else Ok (vm_alloc a, t, pool, m).
End alloc.

(** ** All CPUs at once *)

(** What a CPU is doing: at the entry of VM [i], assigned, or without a VM. *)
Inductive pc := Visit (i : nat) | Got (i : nat) (m : bool) | Idle.

#[export] Instance pc_eq_dec : EqDecision pc.
Proof. solve_decision. Defined.

Record sys := Sys { entries : list vm_assignment; pcs : list pc }.

Inductive turn (conf : list Z) : sys -> sys -> Prop :=
| turn_at s c i nr a r a' :
    pcs s !! c = Some (Visit i) -> conf !! i = Some nr -> entries s !! i = Some a ->
    assign_turn (Z.of_nat c) nr a = Ok (r, a') ->
    turn conf s (Sys (<[i := a']> (entries s)) (<[c := match r with Some m => Got i m | None => Visit (S i) end]> (pcs s)))
| turn_end s c i :
    pcs s !! c = Some (Visit i) -> conf !! i = None ->
    turn conf s (Sys (entries s) (<[c := Idle]> (pcs s))).

(** Nobody has started. *)
Definition blank_entry : vm_assignment := VmAssignment SPINLOCK_INITVAL false 0 0 (VmAllocation 0 0 0 0).
Definition start (conf : list Z) (n : nat) : sys := Sys (replicate (length conf) blank_entry) (replicate n (Visit 0)).

(** How many CPUs are in a state. *)
Definition count (p : pc -> bool) (l : list pc) : Z := Z.of_nat (length (filter (fun x => p x = true) l)).

Lemma count_cons p x l : count p (x :: l) = (if p x then 1 else 0) + count p l.
Proof. unfold count. rewrite filter_cons. destruct (p x); [rewrite decide_True by done|rewrite decide_False by done]; simpl; lia. Qed.

Lemma count_insert p l c x y : l !! c = Some x ->
  count p (<[c := y]> l) = count p l - (if p x then 1 else 0) + (if p y then 1 else 0).
Proof.
  revert c. induction l as [|z l IH]; intros [|c] Hc; [done..| |].
  - injection Hc as ->. simpl. rewrite !count_cons. lia.
  - simpl. rewrite !count_cons, (IH c Hc). lia.
Qed.

Lemma count_replicate p n x : p x = false -> count p (replicate n x) = 0.
Proof. intros Hp. induction n as [|n IH]; [done|]. simpl. by rewrite count_cons, IH, Hp. Qed.

Lemma count_pos p l c x : l !! c = Some x -> p x = true -> 0 < count p l.
Proof.
  revert c. induction l as [|z l IH]; intros [|c] Hc Hp; [done..| |]; rewrite count_cons.
  - injection Hc as ->. rewrite Hp. unfold count. lia.
  - specialize (IH c Hc Hp). destruct (p z); lia.
Qed.

Lemma count_nonneg p l : 0 <= count p l.
Proof. unfold count. lia. Qed.

Definition is_got (i : nat) (x : pc) : bool := match x with Got j _ => bool_decide (j = i) | _ => false end.
Definition is_master (i : nat) (x : pc) : bool := match x with Got j m => bool_decide (j = i) && m | _ => false end.

(** Every entry tells the truth about the CPUs, and a CPU only passes full VMs. *)
Record entry_ok (nr : Z) (i : nat) (a : vm_assignment) (ps : list pc) : Prop := {
  eo_lock : unlocked (va_lock a);
  eo_count : ncpus a = count (is_got i) ps;
  eo_bound : 0 <= ncpus a <= nr;
  eo_cpus : forall c, Z.testbit (va_cpus a) (Z.of_nat c) = match ps !! c with Some x => is_got i x | None => false end;
  eo_range : 0 <= va_cpus a < 2 ^ 64;
  eo_master : count (is_master i) ps = if va_master a then 1 else 0;
  eo_first : va_master a = negb (ncpus a =? 0);
}.

Definition full (conf : list Z) (es : list vm_assignment) (i : nat) : Prop :=
  forall nr a, conf !! i = Some nr -> es !! i = Some a -> ncpus a = nr.

Record ok (conf : list Z) (n : nat) (s : sys) : Prop := {
  ok_len : length (entries s) = length conf /\ length (pcs s) = n;
  ok_entry : forall i nr a, conf !! i = Some nr -> entries s !! i = Some a -> entry_ok nr i a (pcs s);
  ok_visit : forall c i j, pcs s !! c = Some (Visit i) -> (j < i)%nat -> full conf (entries s) j;
  ok_idle : forall c j, pcs s !! c = Some Idle -> full conf (entries s) j;
  ok_got : forall c i m, pcs s !! c = Some (Got i m) -> (i < length conf)%nat;
}.

(** What a turn does. *)
Lemma assign_turn_run cpu nr a : unlocked (va_lock a) ->
  exists l, unlocked l /\ assign_turn cpu nr a = Ok (
    if ncpus a <? nr then
      (Some (negb (va_master a)), VmAssignment l true (u64 (ncpus a + 1)) (Z.lor (va_cpus a) (lsl64 1 cpu)) (vm_alloc a))
    else (None, VmAssignment l (va_master a) (ncpus a) (va_cpus a) (vm_alloc a))).
Proof.
  intros Hu. destruct (spin_lock_unlock _ Hu) as (l & El & Hul & _). exists (spin_unlock l). split; [done|].
  unfold assign_turn. rewrite El. unfold mbind, outcome_bind. destruct (ncpus a <? nr); [|done].
  by destruct (va_master a).
Qed.

Lemma start_ok conf n : Forall (fun nr => 0 <= nr < 2 ^ 63) conf -> ok conf n (start conf n).
Proof.
  intros Hc. split; cbn [entries pcs start].
  - by rewrite !length_replicate.
  - intros i nr a Hi Ha. apply lookup_replicate in Ha as [-> _]. pose proof (Forall_lookup_1 _ _ _ _ Hc Hi). cbn in H.
    split; cbn [va_lock ncpus va_cpus va_master blank_entry]; try done; try lia.
    + by rewrite count_replicate.
    + intros c. rewrite Z.bits_0. destruct (replicate n (Visit 0) !! c) as [x|] eqn:E; [|done].
      by apply lookup_replicate in E as [-> _].
    + by rewrite count_replicate.
  - intros c i j Hp. apply lookup_replicate in Hp as [[= ->] _]. lia.
  - intros c j Hp. by apply lookup_replicate in Hp as [? _].
  - intros c i m Hp. by apply lookup_replicate in Hp as [? _].
Qed.

(** A CPU that moves without being assigned changes nothing an entry records. *)
Lemma entry_ok_move nr i a ps c x y : entry_ok nr i a ps -> ps !! c = Some x ->
  is_got i x = false -> is_got i y = false -> entry_ok nr i a (<[c := y]> ps).
Proof.
  intros [E1 E2 E3 E4 E5 E6 E7] Hc Hx Hy.
  assert (is_master i x = false /\ is_master i y = false) as [Mx My].
  { split; [destruct x|destruct y]; simpl in *; try done; [by rewrite Hx|by rewrite Hy]. }
  split; try done.
  - rewrite (count_insert _ _ _ _ _ Hc), Hx, Hy. lia.
  - intros c'. destruct (decide (c' = c)) as [->|Hne].
    + rewrite list_lookup_insert_eq by (by eapply lookup_lt_Some). by rewrite E4, Hc, Hx, Hy.
    + by rewrite list_lookup_insert_ne by done.
  - rewrite (count_insert _ _ _ _ _ Hc), Mx, My. lia.
Qed.

(** The entry of the VM the CPU is assigned to. *)
Lemma entry_ok_assign nr i a l ps c : entry_ok nr i a ps -> ps !! c = Some (Visit i) -> (c < 64)%nat ->
  ncpus a < nr < 2 ^ 63 -> unlocked l ->
  entry_ok nr i (VmAssignment l true (u64 (ncpus a + 1)) (Z.lor (va_cpus a) (lsl64 1 (Z.of_nat c))) (vm_alloc a))
    (<[c := Got i (negb (va_master a))]> ps).
Proof.
  intros [E1 E2 E3 E4 E5 E6 E7] Hc Hc64 Hlt Hl. rewrite (u64_small (ncpus a + 1)) by lia.
  assert (forall b, 0 <= b < 64 -> Z.testbit (lsl64 1 (Z.of_nat c)) b = (b =? Z.of_nat c)) as Hbit.
  { intros b Hb. rewrite testbit_lsl64 by lia. rewrite (proj2 (Z.ltb_lt b 64)) by lia. cbn [andb].
    destruct (Z.eqb_spec b (Z.of_nat c)) as [->|Hne]; [by rewrite Z.sub_diag|].
    destruct (Z.lt_ge_cases b (Z.of_nat c)); [apply Z.testbit_neg_r; lia|]. apply (testbit_small 1 1); lia. }
  split; cbn [va_lock ncpus va_cpus va_master].
  - done.
  - rewrite (count_insert _ _ _ _ _ Hc), E2. simpl. rewrite bool_decide_true by done. lia.
  - lia.
  - intros c'. rewrite Z.lor_spec, E4. destruct (decide (c' = c)) as [->|Hne].
    + rewrite list_lookup_insert_eq by (by eapply lookup_lt_Some). rewrite Hbit by lia. rewrite Z.eqb_refl, orb_true_r. simpl.
      by rewrite bool_decide_true.
    + rewrite list_lookup_insert_ne by done. destruct (Z.lt_ge_cases (Z.of_nat c') 64).
      * rewrite Hbit by lia. rewrite (proj2 (Z.eqb_neq _ _)) by lia. apply orb_false_r.
      * rewrite (testbit_small (lsl64 1 (Z.of_nat c)) 64) by (try apply u64_range; lia). apply orb_false_r.
  - apply (lor_range 64); [lia|done|apply u64_range].
  - rewrite (count_insert _ _ _ _ _ Hc), E6. simpl. rewrite bool_decide_true by done. by destruct (va_master a).
  - symmetry. apply negb_true_iff, Z.eqb_neq. lia.
Qed.

Lemma full_insert conf es i a a' j : es !! i = Some a -> ncpus a <= ncpus a' ->
  (forall nr, conf !! i = Some nr -> ncpus a' <= nr) -> full conf es j -> full conf (<[i := a']> es) j.
Proof.
  intros Hi Hle Hb Hf nr b Hj. destruct (decide (j = i)) as [->|Hne].
  - rewrite list_lookup_insert_eq by (by eapply lookup_lt_Some). intros [= <-]. specialize (Hf nr a Hj Hi). specialize (Hb nr Hj). lia.
  - rewrite list_lookup_insert_ne by done. by apply Hf.
Qed.

Lemma turn_ok conf n s s' : Forall (fun nr => 0 <= nr < 2 ^ 63) conf -> (n <= 64)%nat -> ok conf n s -> turn conf s s' -> ok conf n s'.
Proof.
  intros Hconf Hn [[Le Lp] Oe Ov Oi Og] Ht. destruct Ht as [s c i nr a r a' Hc Hi Ha Et|s c i Hc Hi].
  - pose proof (Oe _ _ _ Hi Ha) as Ea. destruct (assign_turn_run (Z.of_nat c) nr a (eo_lock _ _ _ _ Ea)) as (l & Hl & Et').
    rewrite Et in Et'. injection Et' as Et'. pose proof (Forall_lookup_1 _ _ _ _ Hconf Hi) as Hnr. cbn in Hnr.
    pose proof (lookup_lt_Some _ _ _ Hc) as Hclt. pose proof (eo_bound _ _ _ _ Ea) as Hb.
    assert (exists x, <[c := match r with Some m => Got i m | None => Visit (S i) end]> (pcs s) = <[c := x]> (pcs s) /\
      entry_ok nr i a' (<[c := x]> (pcs s)) /\ (forall j, j ≠ i -> is_got j x = false) /\ ncpus a <= ncpus a' <= nr /\
      x ≠ Idle /\ (forall j, x = Visit j -> j = S i /\ ncpus a' = nr) /\ (forall j m, x = Got j m -> j = i)) as
      (x & -> & Ex & Hx & Hmono & Hid & Hvis & Hgot).
    { eexists. split; [done|]. destruct (Z.ltb_spec (ncpus a) nr) as [Hlt|Hge]; injection Et' as -> ->.
      - split_and!; try done; try (cbn [ncpus]; rewrite ?u64_small by lia; lia).
        + apply entry_ok_assign; try done; lia.
        + intros j Hne. simpl. by rewrite bool_decide_false by done.
        + intros j m Heq. by injection Heq.
      - split_and!; try done; cbn [ncpus]; try lia.
        + apply (entry_ok_move _ _ _ _ _ (Visit i)); try done. destruct Ea. by split.
        + intros j [= <-]. split; [done|lia]. }
    assert (forall j, full conf (entries s) j -> full conf (<[i := a']> (entries s)) j) as Hfull.
    { intros j. apply (full_insert conf (entries s) i a a'); [done|lia|]. intros nr' Hnr'. assert (nr' = nr) as -> by congruence. lia. }
    assert (forall c' y, <[c := x]> (pcs s) !! c' = Some y -> (c' = c /\ y = x) \/ (c' ≠ c /\ pcs s !! c' = Some y)) as Hl2.
    { intros c' y. destruct (decide (c' = c)) as [->|Hne].
      - rewrite list_lookup_insert_eq by done. intros [= <-]. by left.
      - rewrite list_lookup_insert_ne by done. by right. }
    split; cbn [entries pcs].
    + by rewrite !length_insert.
    + intros j nr' b Hj. destruct (decide (j = i)) as [->|Hne].
      * rewrite list_lookup_insert_eq by (by eapply lookup_lt_Some). intros [= <-]. by assert (nr' = nr) as -> by congruence.
      * rewrite list_lookup_insert_ne by done. intros Hbj. by apply (entry_ok_move _ _ _ _ _ (Visit i)); [apply Oe| |done|apply Hx].
    + intros c' i' j Hc' Hj. apply Hl2 in Hc' as [[-> Ey]|[_ Hc']]; [|apply Hfull; by eapply Ov].
      symmetry in Ey. destruct (Hvis _ Ey) as [-> Hnr']. destruct (decide (j = i)) as [->|Hne]; [|apply Hfull; apply (Ov c i); [done|lia]].
      intros nr' b Hj'. rewrite list_lookup_insert_eq by (by eapply lookup_lt_Some). intros [= <-]. by assert (nr' = nr) as -> by congruence.
    + intros c' j Hc'. apply Hl2 in Hc' as [[-> Ey]|[_ Hc']]; [done|]. apply Hfull. by eapply Oi.
    + intros c' j m Hc'. apply Hl2 in Hc' as [[-> Ey]|[_ Hc']]; [|by eapply Og]. symmetry in Ey. apply Hgot in Ey as ->. by eapply lookup_lt_Some.
  - assert (forall c' y, <[c := Idle]> (pcs s) !! c' = Some y -> (c' = c /\ y = Idle) \/ (c' ≠ c /\ pcs s !! c' = Some y)) as Hl2.
    { intros c' y. destruct (decide (c' = c)) as [->|Hne].
      - rewrite list_lookup_insert_eq by (by eapply lookup_lt_Some). intros [= <-]. by left.
      - rewrite list_lookup_insert_ne by done. by right. }
    split; cbn [entries pcs].
    + by rewrite length_insert.
    + intros j nr b Hj Hb. by apply (entry_ok_move _ _ _ _ _ (Visit i)); [apply Oe|..].
    + intros c' i' j Hc'. apply Hl2 in Hc' as [[_ ?]|[_ Hc']]; [done|]. by eapply Ov.
    + intros c' j Hc'. apply Hl2 in Hc' as [[_ _]|[_ Hc']]; [|by eapply Oi].
      destruct (decide (j < i)%nat); [by eapply Ov|]. intros nr a Hj. apply lookup_ge_None in Hi. apply lookup_lt_Some in Hj. lia.
    + intros c' j m Hc'. apply Hl2 in Hc' as [[_ ?]|[_ Hc']]; [done|]. by eapply Og.
Qed.

(** *** The search ends *)

Definition turns_left (conf : list Z) (x : pc) : nat := match x with Visit i => S (length conf - i) | _ => 0 end.
Fixpoint work (conf : list Z) (l : list pc) : nat :=
  match l with [] => 0 | x :: l => turns_left conf x + work conf l end.

Lemma work_insert conf l c x y : l !! c = Some x ->
  (work conf (<[c := y]> l) + turns_left conf x = work conf l + turns_left conf y)%nat.
Proof.
  revert c. induction l as [|z l IH]; intros [|c] Hc; [done..| |].
  - injection Hc as ->. simpl. lia.
  - simpl. specialize (IH c Hc). lia.
Qed.

Lemma turn_work conf s s' : turn conf s s' -> (work conf (pcs s') < work conf (pcs s))%nat.
Proof.
  intros [s0 c i nr a r a' Hc Hi Ha Et|s0 c i Hc Hi]; cbn [pcs].
  - pose proof (work_insert conf (pcs s0) c _ (match r with Some m => Got i m | None => Visit (S i) end) Hc) as Hw.
    apply lookup_lt_Some in Hi. destruct r; cbn [turns_left] in Hw; lia.
  - pose proof (work_insert conf (pcs s0) c _ Idle Hc) as Hw. cbn [turns_left] in Hw. lia.
Qed.

Lemma turn_possible conf n s c i : ok conf n s -> pcs s !! c = Some (Visit i) -> exists s', turn conf s s'.
Proof.
  intros [[Le Lp] Oe _ _ _] Hc. destruct (conf !! i) as [nr|] eqn:Hi; [|eexists; by eapply turn_end].
  assert (is_Some (entries s !! i)) as [a Ha] by (apply lookup_lt_is_Some_2; apply lookup_lt_Some in Hi; lia).
  destruct (assign_turn_run (Z.of_nat c) nr a (eo_lock _ _ _ _ (Oe _ _ _ Hi Ha))) as (l & _ & Et).
  destruct (if ncpus a <? nr then _ else _) as [r a']. eexists. by eapply turn_at.
Qed.

(** *** How many CPUs are assigned *)

Definition assigned (x : pc) : bool := match x with Got _ _ => true | _ => false end.
Definition below (k : nat) (x : pc) : bool := match x with Got i _ => bool_decide (i < k)%nat | _ => false end.

Definition zsum (l : list Z) : Z := foldr Z.add 0 l.

Lemma zsum_app l1 l2 : zsum (l1 ++ l2) = zsum l1 + zsum l2.
Proof. induction l1 as [|x l1 IH]; [done|]. simpl. unfold zsum in *. lia. Qed.

Lemma count_below_S k l : count (below (S k)) l = count (below k) l + count (is_got k) l.
Proof.
  induction l as [|x l IH]; [done|]. rewrite !count_cons, IH. destruct x as [i|i m|]; simpl; try lia.
  repeat case_bool_decide; lia.
Qed.

Lemma count_below_0 l : count (below 0) l = 0.
Proof.
  induction l as [|x l IH]; [done|]. rewrite count_cons, IH. by destruct x.
Qed.

(** Up to VM [k] the CPUs are counted by the entries. *)
Lemma count_entries conf n s k : ok conf n s -> (k <= length conf)%nat ->
  count (below k) (pcs s) = zsum (ncpus <$> take k (entries s)) /\ count (below k) (pcs s) <= zsum (take k conf) /\
  ((forall j, (j < k)%nat -> full conf (entries s) j) -> count (below k) (pcs s) = zsum (take k conf)).
Proof.
  intros Hok. destruct Hok as [[Le Lp] Oe _ _ _]. induction k as [|k IH]; intros Hk.
  - by rewrite count_below_0.
  - destruct (IH ltac:(lia)) as (I1 & I2 & I3).
    destruct (conf !! k) as [nr|] eqn:Hnr; [|apply lookup_ge_None in Hnr; lia].
    destruct (entries s !! k) as [a|] eqn:Ha; [|apply lookup_ge_None in Ha; lia].
    pose proof (Oe _ _ _ Hnr Ha) as [_ E2 E3 _ _ _ _].
    rewrite count_below_S, (take_S_r _ _ _ Ha), (take_S_r _ _ _ Hnr), fmap_app, !zsum_app, <- E2. simpl. split_and!; [lia|lia|].
    intros Hf. rewrite I3 by (intros j Hj; apply Hf; lia). rewrite (Hf k ltac:(lia) nr a Hnr Ha). lia.
Qed.

Lemma count_below_all conf n s : ok conf n s -> count (below (length conf)) (pcs s) = count assigned (pcs s).
Proof.
  intros [_ _ _ _ Og]. assert (forall l, (forall i m, Got i m ∈ l -> (i < length conf)%nat) -> count (below (length conf)) l = count assigned l) as Hl.
  { induction l as [|x l IH]; intros Hx; [done|]. rewrite !count_cons, IH by (intros i m Hm; apply (Hx i m); by right).
    destruct x as [i|i m|]; simpl; try done. rewrite bool_decide_true; [done|]. apply (Hx i m). by left. }
  apply Hl. intros i m [c Hc]%list_elem_of_lookup. by eapply Og.
Qed.

Lemma count_all l : (forall c i, l !! c ≠ Some (Visit i)) -> (forall c, l !! c ≠ Some Idle) -> count assigned l = Z.of_nat (length l).
Proof.
  induction l as [|x l IH]; intros Hv Hi; [done|]. rewrite count_cons, IH.
  - destruct x as [i|i m|]; [by destruct (Hv 0%nat i)|simpl; lia|by destruct (Hi 0%nat)].
  - intros c i. exact (Hv (S c) i).
  - intros c. exact (Hi (S c)).
Qed.

Lemma count_le p l : count p l <= Z.of_nat (length l).
Proof. unfold count. pose proof (length_filter (fun x => p x = true) l). lia. Qed.

(** When nobody searches any more, no place and no CPU has been wasted. *)
Lemma assigned_total conf n s : ok conf n s -> (forall c i, pcs s !! c ≠ Some (Visit i)) ->
  count assigned (pcs s) = Z.min (Z.of_nat n) (zsum conf).
Proof.
  intros Hok Hv. destruct (count_entries conf n s (length conf) Hok ltac:(done)) as (_ & Hle & Hfull).
  rewrite (count_below_all conf n s Hok), firstn_all in Hle, Hfull. destruct (ok_len _ _ _ Hok) as [_ Hlen].
  pose proof (count_le assigned (pcs s)) as Hln. destruct (decide (Idle ∈ pcs s)) as [[c Hi]%list_elem_of_lookup|Hni].
  - rewrite Hfull in Hln |- * by (intros j _; by eapply ok_idle). lia.
  - assert (count assigned (pcs s) = Z.of_nat n) as Hn; [|lia].
    rewrite <- Hlen. apply count_all; [done|]. intros c Hi. apply Hni. by eapply list_elem_of_lookup_2.
Qed.

(** ** The layout of an allocation *)

Lemma ALIGN_bounds v a : 0 <= v -> 0 < a -> v + a <= 2 ^ 64 -> v <= ALIGN v a < v + a /\ (a | ALIGN v a).
Proof.
  intros Hv Ha Hle. unfold ALIGN. rewrite (u64_small (v + a - 1)) by lia.
  pose proof (Z.div_mod (v + a - 1) a ltac:(lia)). pose proof (Z.mod_pos_bound (v + a - 1) a Ha).
  rewrite u64_small by nia. split; [nia|]. by exists ((v + a - 1) / a).
Qed.

(** The structures of a VM with [nr] virtual CPUs in a block of pages: [vm] first,
    then the array, aligned, all inside and all zero. *)
Record laid_out (sizeof_vm sizeof_vcpu alignof_vcpu nr : Z) (al : vm_allocation) (m m' : mem) : Prop := {
  lo_vm : al_vm al = al_base al;
  lo_vcpus : al_vm al + sizeof_vm <= al_vcpus al;
  lo_align : (alignof_vcpu | al_vcpus al);
  lo_end : al_vcpus al + nr * sizeof_vcpu <= al_base al + al_size al;
  lo_zero : forall a, al_base al <= a < al_base al + al_size al -> load8 m' a = 0;
  lo_rest : forall a, ~ (al_base al <= a < al_base al + al_size al) -> load8 m' a = load8 m a;
}.

Lemma vmm_alloc_vm_run sizeof_vm sizeof_vcpu alignof_vcpu nr pool m :
  pool_wf pool -> 0 < base pool -> 0 < sizeof_vm < 2 ^ 40 -> 0 < sizeof_vcpu < 2 ^ 40 -> 0 <= nr < 2 ^ 10 ->
  0 < alignof_vcpu -> (alignof_vcpu | PAGE_SIZE) ->
  let n := NUM_PAGES (ALIGN sizeof_vm alignof_vcpu + nr * sizeof_vcpu) in
  (exists i al pool' m', vmm_alloc_vm sizeof_vm sizeof_vcpu alignof_vcpu nr pool m = Ok (al, pool', m') /\
     al_base al = base pool + i * PAGE_SIZE /\ al_size al = n * PAGE_SIZE /\
     pool_wf pool' /\ allocated pool pool' i n /\ laid_out sizeof_vm sizeof_vcpu alignof_vcpu nr al m m') \/
  (vmm_alloc_vm sizeof_vm sizeof_vcpu alignof_vcpu nr pool m = Halt HError /\
     forall j, 0 <= j -> j + n <= nr_pages pool -> ~ fits pool n j).
Proof.
  intros Hwf Hbase Hvm Hvc Hnr Ha0 Hdiv n. assert (alignof_vcpu <= PAGE_SIZE) as Hale by (by apply Z.divide_pos_le).
  destruct (ALIGN_bounds sizeof_vm alignof_vcpu) as [Hoff Hoal]; [lia|done|unfold PAGE_SIZE in *; lia|].
  unfold vmm_alloc_vm. set (off := ALIGN sizeof_vm alignof_vcpu) in *. unfold PAGE_SIZE in Hale.
  rewrite (u64_small (nr * sizeof_vcpu)), (u64_small (off + _)) by nia. set (t := off + nr * sizeof_vcpu) in *.
  assert (0 < t < 2 ^ 51) as Ht by (subst t; nia).
  destruct (ALIGN_bounds t PAGE_SIZE) as [Hts Htal]; [lia|done|unfold PAGE_SIZE; lia|].
  assert (ALIGN t PAGE_SIZE = n * PAGE_SIZE) as Hn.
  { subst n. unfold NUM_PAGES. destruct Htal as [q ->]. by rewrite Z.div_mul. }
  rewrite Hn in *. rewrite (NUM_PAGES_exact n) by (unfold PAGE_SIZE in *; lia).
  destruct (mem_alloc_page_spec pool n false Hwf) as [(i & pool' & -> & Hwf' & Hal & _)|[-> Hno]];
    [unfold PAGE_SIZE in *; lia| |right; split; [done|by apply Hno]].
  left. pose proof Hal as (Hi & Hle & _). destruct Hwf as [[_ Hmax _ _ _ _ [_ Hbal] Hlim] _].
  cbv [mbind outcome_bind]. rewrite (proj2 (Z.eqb_neq _ _)) by (unfold PAGE_SIZE; lia).
  destruct (memset_spec m (base pool + i * PAGE_SIZE) 0 (n * PAGE_SIZE)) as (m' & -> & Hm); [unfold PAGE_SIZE in *; lia|].
  eexists i, _, pool', m'. split; [reflexivity|]. cbn [al_base al_size]. do 4 (split; [done|]).
  rewrite u64_small by (unfold PAGE_SIZE in *; nia).
  split; cbn [al_base al_size al_vm al_vcpus]; try (subst t; lia).
  - apply Z.mod_divide in Hbal; [|done]. apply Z.divide_add_r; [|done].
    apply Z.divide_add_r; [by apply (Z.divide_trans _ PAGE_SIZE)|by apply Z.divide_mul_r].
  - intros a Hin. rewrite Hm. by rewrite (proj2 (Z.leb_le _ _)), (proj2 (Z.ltb_lt _ _)) by lia.
  - intros a Hout. rewrite Hm. destruct (Z.leb_spec (base pool + i * PAGE_SIZE) a), (Z.ltb_spec a (base pool + i * PAGE_SIZE + n * PAGE_SIZE)); simpl; done || lia.
Qed.

(** ** The properties *)

(** C9: in every interleaving of the CPUs' searches each VM gets at most the CPUs it
    is configured with, its entry records exactly the CPUs that got it, and
    exactly one of them is its master; no search goes on for ever or gets
    stuck; and when all have ended as many CPUs have a VM as there are CPUs and
    places for them, a CPU staying idle only when every VM is full. *)
Theorem vmm_assign_correct conf (n : nat) s :
  Forall (fun nr => 0 <= nr < 2 ^ 63) conf -> (n <= 64)%nat -> rtc (turn conf) (start conf n) s ->
  (forall i nr a, conf !! i = Some nr -> entries s !! i = Some a -> entry_ok nr i a (pcs s)) /\
  (forall c i, pcs s !! c = Some (Visit i) -> exists s', turn conf s s') /\
  (forall s', turn conf s s' -> (work conf (pcs s') < work conf (pcs s))%nat) /\
  ((forall c i, pcs s !! c ≠ Some (Visit i)) -> count assigned (pcs s) = Z.min (Z.of_nat n) (zsum conf)).
Proof.
  intros Hc Hn Hs. assert (ok conf n s) as Hok.
  { remember (start conf n) as s0 eqn:E0. assert (ok conf n s0) as H0 by (subst; by apply start_ok). clear E0.
    induction Hs as [|s1 s2 s3 H1 _ IH]; [done|]. apply IH. by eapply turn_ok. }
  split; [apply Hok|]. split; [intros c i; by eapply turn_possible|]. split; [intros s'; apply turn_work|].
  intros Hv. by apply assigned_total.
Qed.

(** Two CPUs and one VM with a place for one: CPU 0 gets it, CPU 1 stays idle. *)
Lemma vmm_assign_correct_witness :
  exists s, rtc (turn [1]) (start [1] 2) s /\ pcs s = [Got 0 true; Idle] /\
    count assigned (pcs s) = Z.min (Z.of_nat 2) (zsum [1]).
Proof.
  assert (exists s, rtc (turn [1]) (start [1] 2) s /\ pcs s = [Got 0 true; Idle]) as (s & Hs & Hp).
  { eexists. split; [|shelve]. eapply rtc_l; [by eapply (turn_at _ _ 0 0)|]. eapply rtc_l; [by eapply (turn_at _ _ 1 0)|].
    eapply rtc_l; [by eapply (turn_end _ _ 1 1)|]. apply rtc_refl. Unshelve. reflexivity. }
  exists s. split; [done|]. split; [done|].
  refine (proj2 (proj2 (proj2 (vmm_assign_correct [1] 2 s _ _ Hs))) _).
  - constructor; [lia|constructor].
  - lia.
  - intros [|[|c]] i; rewrite Hp; done.
Defined.

(** C10: with page-aligned memory left, [vmm_alloc_vm] takes free pages for the [struct vm]
    and its array of virtual CPUs, which do not overlap, are aligned, fit the
    pages and are zero, and leaves the rest of memory alone; it reports failure
    exactly when no run of pages is long enough. *)
Theorem vmm_alloc_vm_correct sizeof_vm sizeof_vcpu alignof_vcpu nr pool m :
  pool_wf pool -> 0 < base pool -> 0 < sizeof_vm < 2 ^ 40 -> 0 < sizeof_vcpu < 2 ^ 40 -> 0 <= nr < 2 ^ 10 ->
  0 < alignof_vcpu -> (alignof_vcpu | PAGE_SIZE) ->
  let n := NUM_PAGES (ALIGN sizeof_vm alignof_vcpu + nr * sizeof_vcpu) in
  (exists i al pool' m', vmm_alloc_vm sizeof_vm sizeof_vcpu alignof_vcpu nr pool m = Ok (al, pool', m') /\
     al_base al = base pool + i * PAGE_SIZE /\ al_size al = n * PAGE_SIZE /\
     pool_wf pool' /\ allocated pool pool' i n /\ laid_out sizeof_vm sizeof_vcpu alignof_vcpu nr al m m') \/
  (vmm_alloc_vm sizeof_vm sizeof_vcpu alignof_vcpu nr pool m = Halt HError /\
     forall j, 0 <= j -> j + n <= nr_pages pool -> ~ fits pool n j).
Proof. apply vmm_alloc_vm_run. Qed.

Lemma vmm_alloc_vm_correct_witness :
  exists al pool' m', vmm_alloc_vm 5000 800 16 4 demo_pool ∅ = Ok (al, pool', m') /\ laid_out 5000 800 16 4 al ∅ m'.
Proof.
  destruct (vmm_alloc_vm_correct 5000 800 16 4 demo_pool ∅) as [(i & al & pool' & m' & E & _ & _ & _ & _ & H)|[E _]];
    [apply demo_pool_wf|reflexivity|lia|lia|lia|lia|by exists 256|exists al, pool', m'; split; assumption|].
  exfalso. assert (match vmm_alloc_vm 5000 800 16 4 demo_pool ∅ with Ok _ => true | Halt _ => false end = true) as Ho by (by vm_compute). by rewrite E in Ho.
Defined.

(** A CPU that joins a VM does not wait for the master's allocation: CPU 1 can be
    assigned and read the entry while its pointers are still null. *)
Lemma vmm_alloc_install_unready sv sc al pool m :
  exists s, rtc (turn [2]) (start [2] 2) s /\ pcs s = [Got 0 true; Got 0 false] /\
    vmm_alloc_install_vm sv sc al 0 false [2] (entries s) pool m = Ok (VmAllocation 0 0 0 0, entries s, pool, m).
Proof.
  eexists. split; [eapply rtc_l; [by eapply (turn_at _ _ 0 0)|]; eapply rtc_l; [by eapply (turn_at _ _ 1 0)|]; apply rtc_refl|].
  split; reflexivity.
Qed.
