(* ===== verification/ArchVmm.v ===== *)
(** Stage-2 translation control: [arch/aarch64/arch_vmm.c], and the CPU numbers
    of [arch/aarch64/arch_platform.c].

    Every CPU reads the physical address range it implements, adapts the
    descriptor of the VMs' page tables to it when the walk has to start at
    level 1, and writes its own [VTCR_EL2].  The descriptor is one for all CPUs. *)

From S2P Require Import Prelude Bit Spinlock PhysMem PageTable Vm.

(** ** [vmm_arch_init] *)

(** The variables all CPUs share. *)
Record tcr := Tcr {
  min_parange : Z;
  tcr_lock : spinlock_t;
  parange : Z;
  vm_pt : page_table_dscr;
}.

(** A CPU's registers. *)
Record el2_regs := El2Regs { vtcr_el2 : Z; hcr_el2 : Z; cptr_el2 : Z }.

Definition tcr_init : tcr := Tcr 7 SPINLOCK_INITVAL 0 armv8_pt_s2_dscr.

Definition ID_AA64MMFR0_PAR_MSK : Z := BIT64_MASK 0 4.
Definition VTCR_RES1 : Z := Z.shiftl 1 31.
Definition VTCR_PS_OFF : Z := 16.
Definition VTCR_PS_MSK : Z := Z.shiftl 0x7 VTCR_PS_OFF.
Definition VTCR_TG0_4K : Z := 0.
Definition VTCR_ORGN0_WB_RA_WA : Z := Z.shiftl 1 10.
Definition VTCR_IRGN0_WB_RA_WA : Z := Z.shiftl 1 8.
Definition VTCR_SH0_IS : Z := Z.shiftl 3 12.
Definition VTCR_SL0_MSK : Z := 0xc0.
Definition VTCR_SL0_01 : Z := Z.land (Z.shiftl 2 6) VTCR_SL0_MSK.
Definition VTCR_SL0_12 : Z := Z.land (Z.shiftl 1 6) VTCR_SL0_MSK.
Definition TCR_T0SZ_MSK : Z := 0x1f.
Definition VTCR_T0SZ (sz : Z) : Z := Z.land sz TCR_T0SZ_MSK.

(** [for (i = 0; i < lvls - 1; i++)] moves every level up by one. *)
Fixpoint shift_levels (n : nat) (i : Z) (ds : page_table_dscr) : outcome page_table_dscr :=
  match n with
  | O => Ok ds
  | S n =>
      w ← rd (lvl_wdt ds) (i + 1);
      wdt ← wr (lvl_wdt ds) i w;
      o ← rd (lvl_off ds) (i + 1);
      off ← wr (lvl_off ds) i o;
      t ← rd (lvl_term ds) (i + 1);
      term ← wr (lvl_term ds) i t;
      shift_levels n (i + 1) (PtDscr (lvls ds) off wdt term)
  end.

Definition patch_dscr (bits : Z) (ds : page_table_dscr) : outcome page_table_dscr :=
  ds ← shift_levels (Z.to_nat (lvls ds - 1)) 0 ds;
  wdt ← wr (lvl_wdt ds) 0 bits;
  Ok (PtDscr (u64 (lvls ds - 1)) (lvl_off ds) wdt (lvl_term ds)).

(** [mmfr0] is the CPU's [ID_AA64MMFR0_EL1]. *)
Definition vmm_arch_init_tcr (mmfr0 : Z) (t : tcr) (r : el2_regs) : outcome (tcr * el2_regs) :=
  let temp_parange := Z.land mmfr0 ID_AA64MMFR0_PAR_MSK in
  l ← spin_lock (tcr_lock t);
  let m := if temp_parange <? min_parange t then temp_parange else min_parange t in
  let l := spin_unlock l in
  bits ← rd parange_table m;
  ds ← (if bits <? 44 then patch_dscr bits (vm_pt t) else Ok (vm_pt t));
  let vtcr := Z.lor VTCR_RES1 (Z.lor (Z.land (Z.shiftl m VTCR_PS_OFF) VTCR_PS_MSK)
    (Z.lor VTCR_TG0_4K (Z.lor VTCR_ORGN0_WB_RA_WA (Z.lor VTCR_IRGN0_WB_RA_WA
    (Z.lor (VTCR_T0SZ (u64 (64 - bits))) (Z.lor VTCR_SH0_IS
    (if bits <? 44 then VTCR_SL0_12 else VTCR_SL0_01))))))) in
  Ok (Tcr m l m ds, El2Regs vtcr (hcr_el2 r) (cptr_el2 r)).

Definition vmm_arch_profile_init (mmfr0 : Z) (t : tcr) (r : el2_regs) : outcome (tcr * el2_regs) :=
  vmm_arch_init_tcr mmfr0 t r.

Definition HCR_VM_BIT : Z := Z.shiftl 1 0.
Definition HCR_FMO_BIT : Z := Z.shiftl 1 3.
Definition HCR_IMO_BIT : Z := Z.shiftl 1 4.
Definition HCR_RW_BIT : Z := Z.shiftl 1 31.

Definition vmm_arch_init (mmfr0 : Z) (t : tcr) (r : el2_regs) : outcome (tcr * el2_regs) :=
  '(t, r) ← vmm_arch_profile_init mmfr0 t r;
  let hcr := Z.lor HCR_VM_BIT (Z.lor HCR_RW_BIT (Z.lor HCR_IMO_BIT HCR_FMO_BIT)) in
  Ok (t, El2Regs (vtcr_el2 r) hcr 0).

(** The CPUs one after the other. *)
Fixpoint all_cpus (l : list Z) (t : tcr) : outcome (tcr * list el2_regs) :=
  match l with
  | [] => Ok (t, [])
  | mmfr0 :: l =>
      '(t, r) ← vmm_arch_init mmfr0 t (El2Regs 0 0 0);
      '(t, rs) ← all_cpus l t;
      Ok (t, r :: rs)
  end.

(** ** [arch_platform.c] *)

Definition platform_arch_cpuid_to_mpidr (cpu_num cpuid : Z) : Z :=
  if cpu_num <? cpuid then not64 (Z.land (not32 MPIDR_RES1) MPIDR_RES0_MSK) else
  let mpidr := Z.lor cpuid MPIDR_RES1 in
  if cpu_num =? 1 then Z.lor mpidr MPIDR_U_BIT else mpidr.

Definition cpu_id_to_mpidr (cpu_num id : Z) : Z := platform_arch_cpuid_to_mpidr cpu_num id.

(** ** What the hardware makes of it *)

(** The fields of [VTCR_EL2] with a 4 KiB granule: the size of the input address
    and the level at which the walk starts. *)
Definition ipa_bits (vtcr : Z) : Z := 64 - Z.land vtcr 0x3f.
Definition start_level (vtcr : Z) : Z := 2 - Z.land (Z.shiftr vtcr 6) 3.

(** The software's tables are those the hardware walks: as many levels, the same
    index fields, a first level that covers the input addresses; and stage 2 is
    on, with interrupts routed to the hypervisor. *)
Record walks_as (ds : page_table_dscr) (r : el2_regs) : Prop := {
  wa_lvls : lvls ds = 4 - start_level (vtcr_el2 r);
  wa_off : take (Z.to_nat (lvls ds)) (lvl_off ds) = drop (Z.to_nat (start_level (vtcr_el2 r))) [39; 30; 21; 12];
  wa_wdt : exists w, lvl_wdt ds !! 0%nat = Some w /\ ipa_bits (vtcr_el2 r) <= w;
  wa_hcr : hcr_el2 r = 0x80000019;
}.

(** A CPU whose range has 44 bits or more leaves the descriptor alone. *)
Lemma wide_run mmfr0 m l p r : 4 <= Z.land mmfr0 ID_AA64MMFR0_PAR_MSK <= 5 -> 4 <= m -> unlocked l ->
  exists l' r' m', vmm_arch_init mmfr0 (Tcr m l p armv8_pt_s2_dscr) r = Ok (Tcr m' l' m' armv8_pt_s2_dscr, r') /\
    unlocked l' /\ 4 <= m' <= 5 /\ m' <= m /\ m' <= Z.land mmfr0 ID_AA64MMFR0_PAR_MSK /\ walks_as armv8_pt_s2_dscr r' /\
    ipa_bits (vtcr_el2 r') = nth (Z.to_nat m') parange_table 0.
Proof.
  intros Hp Hm Hl. set (par := Z.land mmfr0 ID_AA64MMFR0_PAR_MSK) in *. destruct (spin_lock_unlock l Hl) as (k & Ek & Hk & _).
  set (m' := if par <? m then par else m). assert (m' = 4 \/ m' = 5) as Hm' by (unfold m'; destruct (Z.ltb_spec par m); lia).
  assert (m' <= m /\ m' <= par) as [Hle1 Hle2] by (unfold m'; destruct (Z.ltb_spec par m); lia).
  unfold vmm_arch_init, vmm_arch_profile_init, vmm_arch_init_tcr. cbn [tcr_lock min_parange vm_pt]. rewrite Ek. fold par. mstep. fold m'.
  exists (spin_unlock k). destruct Hm' as [-> | ->].
  - eexists _, 4. split; [reflexivity|]. split_and!; try done; try lia. split; try done. by exists 48.
  - eexists _, 5. split; [reflexivity|]. split_and!; try done; try lia. split; try done. by exists 48.
Qed.

Lemma wide_all l t : Forall (fun mmfr0 => 4 <= Z.land mmfr0 ID_AA64MMFR0_PAR_MSK <= 5) l -> 4 <= min_parange t -> unlocked (tcr_lock t) ->
  vm_pt t = armv8_pt_s2_dscr ->
  exists t' rs, all_cpus l t = Ok (t', rs) /\ unlocked (tcr_lock t') /\ vm_pt t' = armv8_pt_s2_dscr /\
    length rs = length l /\ Forall (walks_as armv8_pt_s2_dscr) rs.
Proof.
  intros Hl. revert t. induction Hl as [|x l Hx Hl IH]; intros [m k p ds] Hm Hk Ht; cbn [min_parange tcr_lock vm_pt all_cpus length] in *.
  - by exists (Tcr m k p ds), [].
  - subst ds. destruct (wide_run x m k p (El2Regs 0 0 0) Hx Hm Hk) as (k' & r & m' & E & Hk' & Hm' & _ & _ & Hw & _). rewrite E. mstep.
    destruct (IH (Tcr m' k' m' armv8_pt_s2_dscr)) as (t' & rs & E' & Hk2 & Ht2 & Hrs & Hall); [cbn; lia|done|done|]. rewrite E'. mstep.
    exists t', (r :: rs). split_and!; try done; [cbn; by rewrite Hrs|by constructor].
Qed.

(** ** The properties *)

(** C32: the tables the hypervisor builds are those the hardware walks.  When all
    CPUs, however many, implement 44 or 48 bits of physical address, they leave
    the four-level descriptor as it is, and each CPU's walk starts at its first
    level; and a single CPU with 36 to 42 bits turns it into the three-level
    descriptor its walk has. *)
Theorem vmm_arch_init_walks mmfr0 (l : list Z) :
  let par := Z.land mmfr0 ID_AA64MMFR0_PAR_MSK in
  (Forall (fun x => 4 <= Z.land x ID_AA64MMFR0_PAR_MSK <= 5) l -> exists t rs, all_cpus l tcr_init = Ok (t, rs) /\
     vm_pt t = armv8_pt_s2_dscr /\ length rs = length l /\ Forall (walks_as (vm_pt t)) rs) /\
  (1 <= par <= 3 -> exists t r, all_cpus [mmfr0] tcr_init = Ok (t, [r]) /\ lvls (vm_pt t) = 3 /\ walks_as (vm_pt t) r /\
     Some (ipa_bits (vtcr_el2 r)) = lvl_wdt (vm_pt t) !! 0%nat).
Proof.
  intros par. split.
  - intros Hl. destruct (wide_all l tcr_init Hl) as (t & rs & E & _ & Ht & Hn & Hw); [done|by split|done|]. exists t, rs. by rewrite Ht.
  - intros Hp. assert (par = 1 \/ par = 2 \/ par = 3) as Hc by lia. unfold all_cpus, vmm_arch_init, vmm_arch_profile_init, vmm_arch_init_tcr. fold par.
    destruct Hc as [-> | [-> | ->]]; eexists _, _; (split; [reflexivity|]); (split; [reflexivity|]); (split; [|reflexivity]);
      (split; [reflexivity|reflexivity| |reflexivity]); eexists; (split; [reflexivity|]); by vm_compute.
Qed.

Lemma vmm_arch_init_walks_witness :
  (exists t rs, all_cpus [0x1124; 0x1125; 4] tcr_init = Ok (t, rs) /\ Forall (walks_as (vm_pt t)) rs) /\
  exists t r, all_cpus [0x1122] tcr_init = Ok (t, [r]) /\ lvls (vm_pt t) = 3.
Proof.
  split.
  - destruct (vmm_arch_init_walks 0 [0x1124; 0x1125; 4]) as [H _]. destruct H as (t & rs & H1 & _ & _ & H2).
    + apply (bool_decide_unpack _). by vm_compute.
    + by exists t, rs.
  - destruct (vmm_arch_init_walks 0x1122 []) as [_ H]. destruct H as (t & r & H1 & H2 & _).
    + by vm_compute.
    + by exists t, r.
Defined.

(** With two CPUs of 40 bits each the descriptor is shortened twice: two levels,
    where both walks have three. *)
Lemma vmm_arch_init_twice : exists t r1 r2, all_cpus [2; 2] tcr_init = Ok (t, [r1; r2]) /\
  lvls (vm_pt t) = 2 /\ start_level (vtcr_el2 r1) = 1 /\ start_level (vtcr_el2 r2) = 1.
Proof. eexists _, _, _. split; [reflexivity|]. by split_and!. Qed.

(** 52 bits: the table of ranges ends before. *)
Lemma vmm_arch_init_52 : all_cpus [6] tcr_init = Halt HFault.
Proof. reflexivity. Qed.

(** 32 bits: the mask of [T0SZ] cuts 32 to 0, an input size of 64 bits. *)
Lemma vmm_arch_init_32 : exists t r, all_cpus [0] tcr_init = Ok (t, [r]) /\ ipa_bits (vtcr_el2 r) = 64.
Proof. eexists _, _. split; reflexivity. Qed.

(** The CPU after the last is accepted. *)
Lemma cpu_id_past_last : platform_arch_cpuid_to_mpidr 4 4 = 0x80000004.
Proof. reflexivity. Qed.
