(* ===== verification/Gic3.v ===== *)
(** The GICv3 driver: [arch/aarch64/gicv3.c], [arch/aarch64/inc/gicv3.h], and what
    [gic.c] and [arch_interrupts.c] do when they are compiled with
    [GIC_VERSION=3] (not the default build).

    A GICv3 has the distributor of [Gic], with a routing register per interrupt, a
    redistributor for every CPU's private interrupts, and a CPU interface that is
    accessed through system registers.  The class [Gic3Hw] is the hardware, and
    [Gic3Laws] what the proofs rely on of it.  The operations on the distributor
    are those of [Gic], on the registers both versions have. *)

From S2P Require Import Prelude Bit Bitmap Spinlock Gic Vm ArchVmm.

(** ** Registers *)

(** [struct gicr_hw]. *)
Inductive gicr_reg : Type :=
| R_IIDR | R_TYPER | R_WAKER
| R_ID (i : Z)
| IGROUPR0
| ISENABLER0 | ICENABLER0
| ISPENDR0 | ICPENDR0
| ISACTIVER0 | ICACTIVER0
| R_IPRIORITYR (i : Z)
| ICFGR0 | ICFGR1.

(** The system registers of [sysregs.h] that the driver uses. *)
Inductive icc_reg : Type :=
| icc_sre_el2 | icc_ctlr_el1 | icc_igrpen1_el1 | icc_pmr_el1 | icc_bpr1_el1
| icc_eoir1_el1 | icc_dir_el1 | icc_sgi1r_el1
| ich_hcr_el2 | ich_vtr_el2 | ich_misr_el2 | ich_eisr_el2 | ich_elrsr_el2
| ich_lr_el2 (i : Z).

(** A register of the distributor, of CPU [c]'s redistributor, of CPU [c] itself. *)
Inductive reg3 : Type :=
| Dist (r : gic_reg)
| IROUTER (i : Z)
| Redist (c : Z) (r : gicr_reg)
| Sys (c : Z) (r : icc_reg).

#[export] Instance gicr_reg_eq_dec : EqDecision gicr_reg.
Proof. solve_decision. Defined.
#[export] Instance icc_reg_eq_dec : EqDecision icc_reg.
Proof. solve_decision. Defined.
#[export] Instance reg3_eq_dec : EqDecision reg3.
Proof. solve_decision. Defined.

(** [h3_ack] is a CPU's read of [icc_iar1_el1], which acknowledges an interrupt;
    [h3_wait] is the passing of time between two reads of a register that the
    hardware changes. *)
Class Gic3Hw (H : Type) := {
  h3_read : H -> reg3 -> Z;
  h3_write : H -> reg3 -> Z -> H;
  h3_ack : Z -> H -> Z * H;
  h3_wait : H -> H;
}.

(** The distributor as [Gic] sees it. *)
#[export] Instance dist_hw {H} `{Gic3Hw H} : GicHw H := {
  hw_read h r := h3_read h (Dist r);
  hw_write h r v := h3_write h (Dist r) v;
  hw_ack h := (0, h);
}.

Definition GICD_CTLR_ENA_BIT : Z := 0x2.
Definition GICD_CTLR_ARE_NS_BIT : Z := 0x10.
Definition MPIDR_AFF_LVL (mpidr lvl : Z) : Z := Z.land (Z.shiftr mpidr (8 * lvl)) 0xff.

(** [~MPIDR_AFF_MSK] is an [int]; as a 64-bit value it is sign-extended. *)
Definition GICD_IROUTER_INV : Z := u64 (i32 (Z.lnot MPIDR_AFF_MSK)).
Definition GICD_IROUTER_RES0_MSK : Z := Z.shiftl 1 40 - 1.
Definition GICD_IROUTER_IRM_BIT : Z := Z.shiftl 1 31.
Definition GICD_IROUTER_AFF_MSK : Z := Z.land GICD_IROUTER_RES0_MSK (not64 GICD_IROUTER_IRM_BIT).

Definition GICR_WAKER_ProcessorSleep_BIT : Z := 0x2.
Definition GICR_WAKER_ChildrenASleep_BIT : Z := 0x4.

Definition ICC_CTLR_EOIMode_BIT : Z := Z.shiftl 1 1.
Definition ICC_SGIR_SGIINTID_OFF : Z := 24.
Definition ICC_SGIR_SGIINTID_LEN : Z := 4.
Definition ICC_SGIR_SGIINTID (sgir : Z) : Z := bit64_extract sgir ICC_SGIR_SGIINTID_OFF ICC_SGIR_SGIINTID_LEN.
Definition ICC_SGIR_IRM_BIT : Z := Z.shiftl 1 40.
Definition ICC_SGIR_TRGLSTFLT_OFF : Z := 0.
Definition ICC_SGIR_TRGLSTFLT_LEN : Z := 16.
Definition ICC_SGIR_TRGLSTFLT (sgir : Z) : Z := bit64_extract sgir ICC_SGIR_TRGLSTFLT_OFF ICC_SGIR_TRGLSTFLT_LEN.
Definition ICC_SGIR_AFF1_OFFSET : Z := 16.
Definition ICC_SRE_ENB_BIT : Z := 0x8.
Definition ICC_SRE_SRE_BIT : Z := 0x1.
Definition ICC_IGRPEN_EL1_ENB_BIT : Z := 0x1.
Definition ICH_HCR_LRENPIE_BIT : Z := GICH_HCR_LRENPIE_BIT.
Definition ICH_VTR_OFF : Z := GICH_VTR_OFF.
Definition ICH_VTR_MSK : Z := GICH_VTR_MSK.

(** The bounds of the register arrays. *)
Definition reg3_ok (r : reg3) : bool :=
  match r with
  | Dist r => reg_ok r
  | IROUTER i => (0 <=? i) && (i <? GIC_MAX_INTERUPTS)
  | Redist _ (R_IPRIORITYR i) => (0 <=? i) && (i <? GIC_NUM_PRIO_REGS GIC_CPU_PRIV)
  | Redist _ (R_ID i) => (0 <=? i) && (i <? 12)
  | _ => true
  end.

(** ** Driver *)

Section gic3.
Context {H : Type} `{Gic3Hw H}.

(** The state of [gic.c] ([gic_cpu_map] belongs to [gicv2.c] and is empty), and the
    two locks of [gicv3.c]. *)
Record gic3 := Gic3 {
  g_d : gic H;
  gicr_lock : spinlock_t;
  route_lock : spinlock_t;
}.

Definition hw3 (g : gic3) : H := hw (g_d g).
Definition set_hw3 (g : gic3) (h : H) : gic3 := Gic3 (set_hw (g_d g) h) (gicr_lock g) (route_lock g).

Definition on_gicd {A} (m : st (gic H) A) : st gic3 A := fun g =>
  '(a, d) ← m (g_d g); Ok (a, Gic3 d (gicr_lock g) (route_lock g)).

(** Registers of the redistributors are 32 bits wide, routing and system registers 64. *)
Definition width (r : reg3) : Z -> Z := match r with IROUTER _ | Sys _ _ => u64 | _ => u32 end.

Definition rd3 (r : reg3) : st gic3 Z := fun g => if reg3_ok r then Ok (width r (h3_read (hw3 g) r), g) else Halt HFault.
Definition wr3 (r : reg3) (v : Z) : st gic3 () := fun g =>
  if reg3_ok r then Ok ((), set_hw3 g (h3_write (hw3 g) r (width r v))) else Halt HFault.

Definition lock_gicr : st gic3 () := fun g => l ← spin_lock (gicr_lock g); Ok ((), Gic3 (g_d g) l (route_lock g)).
Definition unlock_gicr : st gic3 () := fun g => Ok ((), Gic3 (g_d g) (spin_unlock (gicr_lock g)) (route_lock g)).
Definition lock_route : st gic3 () := fun g => l ← spin_lock (route_lock g); Ok ((), Gic3 (g_d g) (gicr_lock g) l).
Definition unlock_route : st gic3 () := fun g => Ok ((), Gic3 (g_d g) (gicr_lock g) (spin_unlock (route_lock g))).

(** The CPU that runs the code, [cpu()->id]. *)
Context (cpu_id : Z).

(** *** [gicv3.h] *)

Definition NUM_LRS3 : st gic3 Z := gets (fun g => NUM_LRS (g_d g)).

(** The [switch] over the register's number. *)
Definition gich_read_lr (i : Z) : st gic3 Z :=
  n ← NUM_LRS3;
  if i <? n then (if i <? 16 then rd3 (Sys cpu_id (ich_lr_el2 i)) else mret 0) else stop HError.

Definition gich_write_lr (i val : Z) : st gic3 () :=
  n ← NUM_LRS3;
  if i <? n then (if i <? 16 then wr3 (Sys cpu_id (ich_lr_el2 i)) val else mret ()) else stop HError.

Definition gich_get_hcr : st gic3 Z := v ← rd3 (Sys cpu_id ich_hcr_el2); mret (u32 v).
Definition gich_set_hcr (hcr : Z) : st gic3 () := wr3 (Sys cpu_id ich_hcr_el2) hcr.
Definition gich_get_misr : st gic3 Z := v ← rd3 (Sys cpu_id ich_misr_el2); mret (u32 v).
Definition gich_get_eisr : st gic3 Z := rd3 (Sys cpu_id ich_eisr_el2).
Definition gich_get_elrsr : st gic3 Z := rd3 (Sys cpu_id ich_elrsr_el2).
Definition gicc_iar : st gic3 Z := fun g => let '(v, h) := h3_ack cpu_id (hw3 g) in Ok (u32 v, set_hw3 g h).
Definition gicc_eoir (eoir : Z) : st gic3 () := wr3 (Sys cpu_id icc_eoir1_el1) eoir.
Definition gicc_dir (dir : Z) : st gic3 () := wr3 (Sys cpu_id icc_dir_el1) dir.

(** *** [gicv3.c] *)

Definition gich_num_lrs : st gic3 Z :=
  vtr ← rd3 (Sys cpu_id ich_vtr_el2);
  mret (Z.shiftr (Z.land vtr ICH_VTR_MSK) ICH_VTR_OFF + 1).

Definition for3 (lo hi : Z) (body : Z -> st gic3 ()) : st gic3 () := for_st (Z.to_nat (hi - lo)) lo body.

Definition gicc_init : st gic3 () :=
  n ← gich_num_lrs;
  for3 0 n (fun i => gich_write_lr i 0) ;;
  wr3 (Sys cpu_id icc_pmr_el1) GIC_LOWEST_PRIO ;;
  wr3 (Sys cpu_id icc_bpr1_el1) 0 ;;
  wr3 (Sys cpu_id icc_ctlr_el1) ICC_CTLR_EOIMode_BIT ;;
  hcr ← rd3 (Sys cpu_id ich_hcr_el2);
  wr3 (Sys cpu_id ich_hcr_el2) (Z.lor hcr ICH_HCR_LRENPIE_BIT) ;;
  wr3 (Sys cpu_id icc_igrpen1_el1) ICC_IGRPEN_EL1_ENB_BIT.

(** [while (gicr[cpu()->id].WAKER & GICR_WAKER_ChildrenASleep_BIT);] *)
Fixpoint wait_awake (fuel : nat) : st gic3 () := fun g =>
  match fuel with
  | O => Halt HFuel
  | S fuel =>
      '(w, g) ← rd3 (Redist cpu_id R_WAKER) g;
      if Z.land w GICR_WAKER_ChildrenASleep_BIT =? 0 then Ok ((), g)
      else wait_awake fuel (set_hw3 g (h3_wait (hw3 g)))
  end.

Definition gicr_init (fuel : nat) : st gic3 () :=
  w ← rd3 (Redist cpu_id R_WAKER);
  wr3 (Redist cpu_id R_WAKER) (Z.land w (not32 GICR_WAKER_ProcessorSleep_BIT)) ;;
  wait_awake fuel ;;
  wr3 (Redist cpu_id IGROUPR0) MINUS1 ;;
  wr3 (Redist cpu_id ICENABLER0) MINUS1 ;;
  wr3 (Redist cpu_id ICPENDR0) MINUS1 ;;
  wr3 (Redist cpu_id ICACTIVER0) MINUS1 ;;
  for3 0 (GIC_NUM_PRIO_REGS GIC_CPU_PRIV) (fun i => wr3 (Redist cpu_id (R_IPRIORITYR i)) MINUS1).

(** [for (i = 0; i < n; i++) a[i] = read(i)]. *)
Fixpoint read_array3 (n : nat) (i : Z) (read : Z -> st gic3 Z) : st gic3 (list Z) :=
  match n with
  | O => mret []
  | S n => v ← read i; l ← read_array3 n (i + 1) read; mret (v :: l)
  end.

(** The fields of [struct gicc_state] that [gicv3.c] uses. *)
Record gicc_state3 := GiccState3 {
  t_PMR : Z; t_BPR : Z; t_ISENABLER : Z; t_IPRIORITYR : list Z; t_HCR : Z; t_LR : list Z;
}.

Definition gicc_save_state : st gic3 gicc_state3 :=
  pmr ← rd3 (Sys cpu_id icc_pmr_el1);
  bpr ← rd3 (Sys cpu_id icc_bpr1_el1);
  isen ← rd3 (Redist cpu_id ISENABLER0);
  prio ← read_array3 (Z.to_nat (GIC_NUM_PRIO_REGS GIC_CPU_PRIV)) 0 (fun i => rd3 (Redist cpu_id (R_IPRIORITYR i)));
  hcr ← rd3 (Sys cpu_id ich_hcr_el2);
  n ← gich_num_lrs;
  lrs ← read_array3 (Z.to_nat n) 0 gich_read_lr;
  mret (GiccState3 (u32 pmr) (u32 bpr) isen prio (u32 hcr) lrs).

Definition gicc_restore_state (s : gicc_state3) : st gic3 () :=
  wr3 (Sys cpu_id icc_sre_el2) ICC_SRE_SRE_BIT ;;
  wr3 (Sys cpu_id icc_ctlr_el1) ICC_CTLR_EOIMode_BIT ;;
  wr3 (Sys cpu_id icc_igrpen1_el1) ICC_IGRPEN_EL1_ENB_BIT ;;
  wr3 (Sys cpu_id icc_pmr_el1) (t_PMR s) ;;
  wr3 (Sys cpu_id icc_bpr1_el1) (t_BPR s) ;;
  wr3 (Redist cpu_id ISENABLER0) (t_ISENABLER s) ;;
  for3 0 (GIC_NUM_PRIO_REGS GIC_CPU_PRIV) (fun i => v ← lift (rd (t_IPRIORITYR s) i); wr3 (Redist cpu_id (R_IPRIORITYR i)) v) ;;
  wr3 (Sys cpu_id ich_hcr_el2) (t_HCR s) ;;
  n ← gich_num_lrs;
  for3 0 n (fun i => v ← lift (rd (t_LR s) i); gich_write_lr i v).

Definition gic_cpu_init (fuel : nat) : st gic3 () := gicr_init fuel ;; gicc_init.

Definition gicr_set_prio (int_id prio gicr_id : Z) : st gic3 () :=
  let reg_ind := GIC_PRIO_REG int_id in
  let off := GIC_PRIO_OFF int_id in
  let mask := BIT32_MASK off GIC_PRIO_BITS in
  lock_gicr ;;
  v ← rd3 (Redist gicr_id (R_IPRIORITYR reg_ind));
  wr3 (Redist gicr_id (R_IPRIORITYR reg_ind)) (Z.lor (Z.land v (not32 mask)) (Z.land (lsl32 prio off) mask)) ;;
  unlock_gicr.

Definition gicr_get_prio (int_id gicr_id : Z) : st gic3 Z :=
  let reg_ind := GIC_PRIO_REG int_id in
  let off := GIC_PRIO_OFF int_id in
  lock_gicr ;;
  v ← rd3 (Redist gicr_id (R_IPRIORITYR reg_ind));
  unlock_gicr ;;
  mret (u8 (Z.land (Z.shiftr v off) (BIT32_MASK off GIC_PRIO_BITS))).

Definition gicr_set_icfgr (int_id cfg gicr_id : Z) : st gic3 () :=
  let reg_ind := u64 (int_id * GIC_CONFIG_BITS) / 32 in
  let off := u64 (int_id * GIC_CONFIG_BITS) mod 32 in
  let mask := lsl32 (u32 (lsl32 1 GIC_CONFIG_BITS - 1)) off in
  let r := Redist gicr_id (if reg_ind =? 0 then ICFGR0 else ICFGR1) in
  lock_gicr ;;
  v ← rd3 r;
  wr3 r (Z.lor (Z.land v (not32 mask)) (Z.land (lsl32 cfg off) mask)) ;;
  unlock_gicr.

Definition gicr_set_pend (int_id : Z) (pend : bool) (gicr_id : Z) : st gic3 () :=
  lock_gicr ;;
  wr3 (Redist gicr_id (if pend then ISPENDR0 else ICPENDR0)) (lsl32 1 int_id) ;;
  unlock_gicr.

Definition gicr_get_pend (int_id gicr_id : Z) : st gic3 bool :=
  if gic_is_priv int_id then
    v ← rd3 (Redist gicr_id ISPENDR0); mret (negb (Z.land v (GIC_INT_MASK int_id) =? 0))
  else mret false.

Definition gicr_set_act (int_id : Z) (act : bool) (gicr_id : Z) : st gic3 () :=
  lock_gicr ;;
  wr3 (Redist gicr_id (if act then ISACTIVER0 else ICACTIVER0)) (GIC_INT_MASK int_id) ;;
  unlock_gicr.

Definition gicr_get_act (int_id gicr_id : Z) : st gic3 bool :=
  if gic_is_priv int_id then
    v ← rd3 (Redist gicr_id ISACTIVER0); mret (negb (Z.land v (GIC_INT_MASK int_id) =? 0))
  else mret false.

Definition gicr_set_enable (int_id : Z) (en : bool) (gicr_id : Z) : st gic3 () :=
  let bit := GIC_INT_MASK int_id in
  lock_gicr ;;
  wr3 (Redist gicr_id (if en then ISENABLER0 else ICENABLER0)) bit ;;
  unlock_gicr.

Definition gicd_set_route (int_id route : Z) : st gic3 () :=
  if gic_is_priv int_id then mret () else
  lock_route ;;
  wr3 (IROUTER int_id) (Z.land route GICD_IROUTER_AFF_MSK) ;;
  unlock_route.

(** [cpu_num] is [platform.cpu_num]. *)
Definition gic_send_sgi (cpu_num cpu_target sgi_num : Z) : st gic3 () :=
  if sgi_num <? GIC_MAX_SGIS then
    let mpidr := Z.land (cpu_id_to_mpidr cpu_num cpu_target) MPIDR_AFF_MSK in
    let sgi := Z.lor (Z.lor (lsl64 (MPIDR_AFF_LVL mpidr 1) ICC_SGIR_AFF1_OFFSET) (lsl64 1 (MPIDR_AFF_LVL mpidr 0)))
                 (lsl64 sgi_num ICC_SGIR_SGIINTID_OFF) in
    wr3 (Sys cpu_id icc_sgi1r_el1) sgi
  else mret ().

Definition gic_set_prio (int_id prio : Z) : st gic3 () :=
  if negb (gic_is_priv int_id) then on_gicd (gicd_set_prio int_id prio) else gicr_set_prio int_id prio cpu_id.
Definition gic_get_prio (int_id : Z) : st gic3 Z :=
  if negb (gic_is_priv int_id) then on_gicd (gicd_get_prio int_id) else gicr_get_prio int_id cpu_id.
Definition gic_set_icfgr (int_id cfg : Z) : st gic3 () :=
  if negb (gic_is_priv int_id) then on_gicd (gicd_set_icfgr int_id cfg) else gicr_set_icfgr int_id cfg cpu_id.
Definition gic_set_pend (int_id : Z) (pend : bool) : st gic3 () :=
  if negb (gic_is_priv int_id) then on_gicd (gicd_set_pend int_id pend) else gicr_set_pend int_id pend cpu_id.
Definition gic_get_pend (int_id : Z) : st gic3 bool :=
  if negb (gic_is_priv int_id) then on_gicd (gicd_get_pend int_id) else gicr_get_pend int_id cpu_id.
Definition gic_set_act (int_id : Z) (act : bool) : st gic3 () :=
  if negb (gic_is_priv int_id) then on_gicd (gicd_set_act int_id act) else gicr_set_act int_id act cpu_id.
Definition gic_get_act (int_id : Z) : st gic3 bool :=
  if negb (gic_is_priv int_id) then on_gicd (gicd_get_act int_id) else gicr_get_act int_id cpu_id.
Definition gic_set_enable (int_id : Z) (en : bool) : st gic3 () :=
  if negb (gic_is_priv int_id) then on_gicd (gicd_set_enable int_id en) else gicr_set_enable int_id en cpu_id.

(** *** [gic.c] and [arch_interrupts.c] with [GIC_VERSION] 3 *)

Definition gicd_init_regs3 : st gic3 () :=
  int_num ← on_gicd gic_num_irqs;
  for3 GIC_NUM_PRIVINT_REGS (GIC_NUM_INT_REGS int_num) (fun i =>
    wr3 (Dist (IGROUPR i)) MINUS1 ;; wr3 (Dist (ICENABLER i)) MINUS1 ;;
    wr3 (Dist (ICPENDR i)) MINUS1 ;; wr3 (Dist (ICACTIVER i)) MINUS1) ;;
  for3 (GIC_NUM_PRIO_REGS GIC_CPU_PRIV) (GIC_NUM_PRIO_REGS int_num) (fun i => wr3 (Dist (IPRIORITYR i)) MINUS1) ;;
  for3 GIC_CPU_PRIV GIC_MAX_INTERUPTS (fun i => wr3 (IROUTER i) GICD_IROUTER_INV) ;;
  ctlr ← rd3 (Dist CTLR);
  wr3 (Dist CTLR) (Z.lor ctlr (Z.lor GICD_CTLR_ARE_NS_BIT GICD_CTLR_ENA_BIT)).

Definition gicd_init3 (maintenance_id : Z) (g : gic3) (t : intrs) : outcome (gic3 * intrs) :=
  '(_, g) ← gicd_init_regs3 g;
  t ← interrupts_reserve t maintenance_id gic_maintenance;
  Ok (g, t).

(** [gic_init] before the first of its barriers. *)
Definition gic_init_first (master : bool) (maintenance_id : Z) (g : gic3) (t : intrs) : outcome (gic3 * intrs) :=
  '(_, g) ← wr3 (Sys cpu_id icc_sre_el2) (Z.lor ICC_SRE_SRE_BIT ICC_SRE_ENB_BIT) g;
  if master then
    '(g, t) ← gicd_init3 maintenance_id g t;
    '(n, g) ← gich_num_lrs g;
    Ok (Gic3 (Gic (hw3 g) (gicd_lock (g_d g)) (gic_cpu_map (g_d g)) n) (gicr_lock g) (route_lock g), t)
  else Ok (g, t).

(** [mpidr] is [cpu()->arch.mpidr]. *)
Definition interrupts_arch_enable (mpidr int_id : Z) (en : bool) : st gic3 () :=
  gic_set_enable int_id en ;;
  gic_set_prio int_id 0x01 ;;
  gicd_set_route int_id mpidr.

End gic3.
Arguments gic3 : clear implicits.

(** ** What is relied on of the hardware

    From the GICv3 architecture specification: priority, configuration and routing
    registers, list registers and [ICH_HCR_EL2] hold what was written last;
    [ICC_PMR_EL1] and [ICC_BPR1_EL1] have fewer bits than are written, but take
    back what was read from them; writing a set or a clear register of the enabled
    or active interrupts adds or removes the written ones; no other write changes
    these.  A redistributor whose [ProcessorSleep] is clear wakes up in time. *)
Definition held (r : reg3) : bool :=
  match r with
  | Dist r => storage r
  | IROUTER _ | Redist _ (R_IPRIORITYR _ | ICFGR0 | ICFGR1) | Sys _ (ich_lr_el2 _ | ich_hcr_el2) => true
  | _ => false
  end.

Definition masked (r : reg3) : bool := match r with Sys _ (icc_pmr_el1 | icc_bpr1_el1) => true | _ => false end.

Definition seen (r : reg3) : bool :=
  held r || masked r || match r with Redist _ (ISENABLER0 | ISACTIVER0) | Sys _ ich_vtr_el2 => true | _ => false end.

(** The writes that change what [r] reads as. *)
Definition clears (r : reg3) : option reg3 :=
  match r with
  | Redist c ISENABLER0 => Some (Redist c ICENABLER0)
  | Redist c ISACTIVER0 => Some (Redist c ICACTIVER0)
  | _ => None
  end.
Definition apart (r w : reg3) : Prop := w <> r /\ clears r <> Some w.

Class Gic3Laws (H : Type) `{Gic3Hw H} := {
  g3_same : forall (h : H) r v, held r = true -> h3_read (h3_write h r v) r = v;
  g3_back : forall (h h' : H) r, masked r = true -> h3_read (h3_write h r (h3_read h' r)) r = h3_read h' r;
  g3_small : forall (h : H) r, masked r = true -> 0 <= h3_read h r < 2 ^ 32;
  g3_set : forall (h : H) r w v, clears r = Some w -> h3_read (h3_write h r v) r = Z.lor (h3_read h r) v;
  g3_clear : forall (h : H) r w v, clears r = Some w -> h3_read (h3_write h w v) r = Z.land (h3_read h r) (not32 v);
  g3_other : forall (h : H) r w v, seen r = true -> apart r w -> h3_read (h3_write h w v) r = h3_read h r;
  g3_wait_keeps : forall (h : H) r, seen r = true -> h3_read (h3_wait h) r = h3_read h r;
  g3_sleep : forall (h : H) c v, Z.testbit (h3_read (h3_write h (Redist c R_WAKER) v) (Redist c R_WAKER)) 1 = Z.testbit v 1;
  g3_wakes : forall (h : H) c, Z.testbit (h3_read h (Redist c R_WAKER)) 1 = false ->
    exists n, Z.testbit (h3_read (Nat.iter n h3_wait h) (Redist c R_WAKER)) 2 = false;
}.

Lemma land_onebit2 w k : 0 <= k -> (Z.land w (2 ^ k) =? 0) = negb (Z.testbit w k).
Proof.
  intros Hk. destruct (Z.testbit w k) eqn:E; cbn [negb].
  - apply Z.eqb_neq. intros E0. assert (Z.testbit (Z.land w (2 ^ k)) k = false) as Hb by (by rewrite E0, Z.bits_0).
    by rewrite Z.land_spec, E, Z.pow2_bits_true in Hb by lia.
  - apply Z.eqb_eq. apply Z.bits_inj'. intros i Hi. rewrite Z.land_spec, Z.bits_0. destruct (decide (i = k)) as [->|Hne]; [by rewrite E|].
    rewrite Z.pow2_bits_false by lia. apply andb_false_r.
Qed.

Section laws3.
Context {H : Type} `{Gic3Laws H}.
Implicit Type g : gic3 H.

(** *** Sequences of writes *)

Definition writes (l : list (reg3 * Z)) (h : H) : H := foldl (fun h w => h3_write h w.1 (width w.1 w.2)) h l.

Lemma writes_app l1 l2 h : writes (l1 ++ l2) h = writes l2 (writes l1 h).
Proof. apply foldl_app. Qed.

Lemma writes_other l h r : seen r = true -> Forall (fun w => apart r w.1) l -> h3_read (writes l h) r = h3_read h r.
Proof.
  intros Hr. revert h. induction l as [|w l IH]; intros h; [done|]. intros [Hw Hl]%Forall_cons. change (writes (w :: l) h) with (writes l (h3_write h w.1 (width w.1 w.2))).
  rewrite IH by done. by apply g3_other.
Qed.

(** The last write to a register counts. *)
Lemma writes_last l1 r v l2 h : held r = true -> Forall (fun w => apart r w.1) l2 -> h3_read (writes (l1 ++ (r, v) :: l2) h) r = width r v.
Proof.
  intros Hr Hl. rewrite writes_app.
  change (writes ((r, v) :: l2) (writes l1 h)) with (writes l2 (h3_write (writes l1 h) r (width r v))). rewrite writes_other; [by apply g3_same| |done].
  unfold seen. by rewrite Hr.
Qed.

(** [m] makes the writes of [l]. *)
Definition does (l : list (reg3 * Z)) (m : st (gic3 H) ()) (N : Z) : Prop :=
  forall g, NUM_LRS (g_d g) = N -> m g = Ok ((), set_hw3 g (writes l (hw3 g))).

Lemma does_wr r v N : reg3_ok r = true -> does [(r, v)] (wr3 r v) N.
Proof. intros Hr g _. unfold wr3. by rewrite Hr. Qed.

Lemma does_nil N : does [] (mret ()) N.
Proof. intros [[h l m n] a b] _. reflexivity. Qed.

Lemma does_seq l1 l2 m1 m2 N : does l1 m1 N -> does l2 m2 N -> does (l1 ++ l2) (m1 ;; m2) N.
Proof.
  intros D1 D2 g Hg. unfold mbind, st_bind. rewrite D1 by done. rewrite D2 by done. rewrite writes_app. by destruct g as [[h l m n] a b].
Qed.

Lemma does_for (w : Z -> reg3 * Z) body n lo N : (forall i, lo <= i < lo + Z.of_nat n -> does [w i] (body i) N) ->
  does (w <$> seqZ lo (Z.of_nat n)) (for_st n lo body) N.
Proof.
  revert lo. induction n as [|n IH]; intros lo Hb; [apply does_nil|].
  rewrite seqZ_cons by lia. replace (Z.pred (Z.of_nat (S n))) with (Z.of_nat n) by lia.
  apply (does_seq [w lo]); [apply Hb; lia|]. apply IH. intros i Hi. apply Hb. lia.
Qed.

Lemma does_for3 (w : Z -> reg3 * Z) body lo hi N : lo <= hi -> (forall i, lo <= i < hi -> does [w i] (body i) N) ->
  does (w <$> seqZ lo (hi - lo)) (for3 lo hi body) N.
Proof.
  intros Hle Hb. unfold for3. rewrite <- (Z2Nat.id (hi - lo)) at 1 by lia. apply does_for. intros i Hi. apply Hb. lia.
Qed.

Lemma does_lr c i v N : i < N -> i < 16 -> does [(Sys c (ich_lr_el2 i), v)] (gich_write_lr c i v) N.
Proof.
  intros Hi H16 g Hg. unfold gich_write_lr, NUM_LRS3, mbind, st_bind, gets. rewrite Hg, (proj2 (Z.ltb_lt i N)), (proj2 (Z.ltb_lt i 16)) by done. done.
Qed.

Lemma does_lift {A} (o : outcome A) a l (m : A -> st (gic3 H) ()) N : o = Ok a -> does l (m a) N -> does l (v ← lift o; m v) N.
Proof. intros -> D g Hg. unfold mbind, st_bind, lift. by apply D. Qed.

(** *** Saving and restoring *)

Definition num_lrs (h : H) (c : Z) : Z := Z.shiftr (Z.land (u64 (h3_read h (Sys c ich_vtr_el2))) ICH_VTR_MSK) ICH_VTR_OFF + 1.

Lemma num_lrs_range h c : 1 <= num_lrs h c <= 64.
Proof.
  unfold num_lrs. change ICH_VTR_MSK with (Z.ones 6). change ICH_VTR_OFF with 0. rewrite Z.land_ones, Z.shiftr_0_r by lia.
  pose proof (Z.mod_pos_bound (u64 (h3_read h (Sys c ich_vtr_el2))) (2 ^ 6)). lia.
Qed.

Definition val g (r : reg3) : Z := width r (h3_read (hw3 g) r).

Lemma read_array_run (f : Z -> Z) (read : Z -> st (gic3 H) Z) n i g : (forall j, i <= j < i + Z.of_nat n -> read j g = Ok (f j, g)) ->
  read_array3 n i read g = Ok (f <$> seqZ i (Z.of_nat n), g).
Proof.
  revert i. induction n as [|n IH]; intros i Hr; [done|]. rewrite seqZ_cons by lia. replace (Z.pred (Z.of_nat (S n))) with (Z.of_nat n) by lia.
  cbn [read_array3 fmap list_fmap]. unfold mbind, st_bind. rewrite Hr by lia. rewrite IH; [done|]. intros j Hj. apply Hr. lia.
Qed.

Definition saved (c : Z) g : gicc_state3 :=
  GiccState3 (u32 (val g (Sys c icc_pmr_el1))) (u32 (val g (Sys c icc_bpr1_el1))) (val g (Redist c ISENABLER0))
    ((fun i => val g (Redist c (R_IPRIORITYR i))) <$> seqZ 0 8) (u32 (val g (Sys c ich_hcr_el2)))
    ((fun i => val g (Sys c (ich_lr_el2 i))) <$> seqZ 0 (num_lrs (hw3 g) c)).

Lemma gicc_save_run c g : NUM_LRS (g_d g) = num_lrs (hw3 g) c -> num_lrs (hw3 g) c <= 16 -> gicc_save_state c g = Ok (saved c g, g).
Proof.
  intros HN H16. pose proof (num_lrs_range (hw3 g) c) as Hn. unfold gicc_save_state, mbind, st_bind. cbn [rd3 reg3_ok].
  change (Z.to_nat (GIC_NUM_PRIO_REGS GIC_CPU_PRIV)) with 8%nat.
  rewrite (read_array_run (fun i => val g (Redist c (R_IPRIORITYR i)))).
  2: { intros j Hj. unfold rd3, val. cbn [reg3_ok]. change (GIC_NUM_PRIO_REGS GIC_CPU_PRIV) with 8. by rewrite in_interval_true by lia. }
  change (gich_num_lrs c g) with (Ok (num_lrs (hw3 g) c, g)). cbn beta iota.
  rewrite (read_array_run (fun i => val g (Sys c (ich_lr_el2 i)))).
  2: { intros j Hj. unfold gich_read_lr, NUM_LRS3, mbind, st_bind, gets. rewrite HN, (proj2 (Z.ltb_lt j _)), (proj2 (Z.ltb_lt j 16)) by lia. done. }
  by rewrite Z2Nat.id by lia.
Qed.

Definition restore_head (c : Z) (g : gic3 H) : list (reg3 * Z) :=
  [(Sys c icc_sre_el2, ICC_SRE_SRE_BIT); (Sys c icc_ctlr_el1, ICC_CTLR_EOIMode_BIT); (Sys c icc_igrpen1_el1, ICC_IGRPEN_EL1_ENB_BIT);
   (Sys c icc_pmr_el1, u32 (val g (Sys c icc_pmr_el1))); (Sys c icc_bpr1_el1, u32 (val g (Sys c icc_bpr1_el1)));
   (Redist c ISENABLER0, val g (Redist c ISENABLER0))] ++
  ((fun i => (Redist c (R_IPRIORITYR i), val g (Redist c (R_IPRIORITYR i)))) <$> seqZ 0 8) ++
  [(Sys c ich_hcr_el2, u32 (val g (Sys c ich_hcr_el2)))].

Definition restore_lrs (c : Z) (g : gic3 H) (n : Z) : list (reg3 * Z) :=
  (fun i => (Sys c (ich_lr_el2 i), val g (Sys c (ich_lr_el2 i)))) <$> seqZ 0 n.

Lemma rd_fmap_seqZ (f : Z -> Z) n i : 0 <= i < n -> rd (f <$> seqZ 0 n) i = Ok (f i).
Proof.
  intros Hi. apply rd_Ok. split; [lia|]. rewrite list_lookup_fmap, lookup_seqZ_lt by lia. cbn [fmap option_fmap option_map]. do 2 f_equal. lia.
Qed.

Lemma apart_num_lrs c l : Forall (fun w => w.1 <> Sys c ich_vtr_el2) l -> forall h, num_lrs (writes l h) c = num_lrs h c.
Proof.
  intros Hl h. unfold num_lrs. rewrite writes_other; [done|done|]. apply (Forall_impl _ _ _ Hl). intros [r v] Hw. split; [done|]. done.
Qed.

(** [m] makes the writes of [l] and goes on with [k]. *)
Definition leads (l : list (reg3 * Z)) (k m : st (gic3 H) ()) (N : Z) : Prop :=
  forall g, NUM_LRS (g_d g) = N -> m g = k (set_hw3 g (writes l (hw3 g))).

Lemma leads_nil k N : leads [] k k N.
Proof. intros [[h l m n] a b] _. reflexivity. Qed.

Lemma leads_seq l1 l2 m1 m2 k N : does l1 m1 N -> leads l2 k m2 N -> leads (l1 ++ l2) k (m1 ;; m2) N.
Proof.
  intros D1 D2 g Hg. unfold mbind, st_bind. rewrite D1 by done. rewrite D2 by done. rewrite writes_app. by destruct g as [[h l m n] a b].
Qed.

Lemma leads_wr r v l m k N : reg3_ok r = true -> leads l k m N -> leads ((r, v) :: l) k (wr3 r v ;; m) N.
Proof. intros Hr. apply (leads_seq [(r, v)]). by apply does_wr. Qed.

Lemma set_hw3_twice g h h' : set_hw3 (set_hw3 g h) h' = set_hw3 g h'.
Proof. by destruct g as [[? ? ? ?] ? ?]. Qed.

Lemma gicc_restore_run c g1 g2 : num_lrs (hw3 g1) c <= 16 -> num_lrs (hw3 g2) c = num_lrs (hw3 g1) c -> NUM_LRS (g_d g2) = num_lrs (hw3 g1) c ->
  gicc_restore_state c (saved c g1) g2 =
  Ok ((), set_hw3 g2 (writes (restore_head c g1 ++ restore_lrs c g1 (num_lrs (hw3 g1) c)) (hw3 g2))).
Proof.
  intros H16 Hn HN. pose proof (num_lrs_range (hw3 g1) c) as Hr. set (n := num_lrs (hw3 g1) c) in *.
  assert (leads (restore_head c g1) (m ← gich_num_lrs c; for3 0 m (fun i => v ← lift (rd (t_LR (saved c g1)) i); gich_write_lr c i v))
    (gicc_restore_state c (saved c g1)) n) as Hlead.
  { unfold gicc_restore_state. do 6 (apply leads_wr; [done|]). apply leads_seq; [|apply leads_wr; [done|apply leads_nil]].
    apply (does_for3 (fun i => (Redist c (R_IPRIORITYR i), val g1 (Redist c (R_IPRIORITYR i)))) _ 0 8); [lia|].
    intros i Hi. eapply does_lift; [apply rd_fmap_seqZ; lia|]. apply does_wr. cbn [reg3_ok]. change (GIC_NUM_PRIO_REGS GIC_CPU_PRIV) with 8. by apply in_interval_true. }
  rewrite Hlead by done. unfold mbind, st_bind.
  change (gich_num_lrs c (set_hw3 g2 (writes (restore_head c g1) (hw3 g2)))) with
    (Ok (num_lrs (writes (restore_head c g1) (hw3 g2)) c, set_hw3 g2 (writes (restore_head c g1) (hw3 g2)))).
  rewrite apart_num_lrs, Hn by (repeat constructor; done). cbn beta iota.
  rewrite (does_for3 (fun i => (Sys c (ich_lr_el2 i), val g1 (Sys c (ich_lr_el2 i)))) _ 0 n n); [|lia| |done].
  - rewrite Z.sub_0_r, writes_app, set_hw3_twice. done.
  - intros i Hi. eapply does_lift; [apply rd_fmap_seqZ; lia|]. apply does_lr; lia.
Qed.

(** What a CPU's interface and redistributor hold. *)
Record iface_of (c : Z) (g g' : gic3 H) : Prop := {
  if_pmr : val g' (Sys c icc_pmr_el1) = val g (Sys c icc_pmr_el1);
  if_bpr : val g' (Sys c icc_bpr1_el1) = val g (Sys c icc_bpr1_el1);
  if_prio : forall i, 0 <= i < 8 -> val g' (Redist c (R_IPRIORITYR i)) = val g (Redist c (R_IPRIORITYR i));
  if_hcr : u32 (val g' (Sys c ich_hcr_el2)) = u32 (val g (Sys c ich_hcr_el2));
  if_lr : forall i, 0 <= i < num_lrs (hw3 g) c -> val g' (Sys c (ich_lr_el2 i)) = val g (Sys c (ich_lr_el2 i));
}.

(** [r] belongs to CPU [c]. *)
Definition of_cpu (c : Z) (r : reg3) : bool := match r with Redist d _ | Sys d _ => d =? c | _ => false end.

(** What was written to a register, when only one value was. *)
Lemma writes_entry l h r v x : seen r = true -> clears r = None -> (forall h', h3_read (h3_write h' r (width r v)) r = x) ->
  (r, v) ∈ l -> (forall w, (r, w) ∈ l -> w = v) -> h3_read (writes l h) r = x.
Proof.
  intros Hs Hc Hx. induction l as [|[r' v'] l IH] using rev_ind; [by intros ?%elem_of_nil|]. intros Hin Hf.
  rewrite writes_app. change (writes [(r', v')] (writes l h)) with (h3_write (writes l h) r' (width r' v')).
  destruct (decide (r' = r)) as [->|Hne].
  - rewrite (Hf v' ltac:(set_solver)). apply Hx.
  - rewrite g3_other; [apply IH| |]; [|intros w Hw; apply Hf; set_solver|done|split; [done|by rewrite Hc]].
    apply elem_of_app in Hin as [Hin|[= <- <-]%list_elem_of_singleton]; done.
Qed.

Lemma restore_entries c g n r v : (r, v) ∈ restore_head c g ++ restore_lrs c g n ->
  of_cpu c r = true /\ (held r = true -> v = (if decide (r = Sys c ich_hcr_el2) then u32 (val g r) else val g r)) /\ (masked r = true -> v = u32 (val g r)).
Proof.
  unfold restore_head, restore_lrs. rewrite !elem_of_app, !list_elem_of_fmap.
  intros [[Hin|[(i & [= -> ->] & Hi)|Hin]]|(i & [= -> ->] & Hi)].
  - repeat (apply elem_of_cons in Hin as [[= -> ->]|Hin]; [cbn [of_cpu held masked]; by rewrite Z.eqb_refl|]). by apply elem_of_nil in Hin.
  - cbn [of_cpu held masked]. rewrite Z.eqb_refl. split; [done|]. split; [|done]. by rewrite decide_False.
  - apply list_elem_of_singleton in Hin as [= -> ->]. cbn [of_cpu held masked]. rewrite Z.eqb_refl. split; [done|]. split; [|done]. by rewrite decide_True.
  - cbn [of_cpu held masked]. rewrite Z.eqb_refl. split; [done|]. split; [|done]. by rewrite decide_False.
Qed.

Lemma back_value g r h : masked r = true -> h3_read (h3_write h r (width r (u32 (val g r)))) r = h3_read (hw3 g) r.
Proof.
  intros Hm. unfold val. pose proof (g3_small (hw3 g) r Hm) as Hs.
  assert (width r (u32 (width r (h3_read (hw3 g) r))) = h3_read (hw3 g) r) as ->; [|by apply g3_back].
  destruct r as [| | |? []]; try done; cbn [width]; rewrite (u64_small (h3_read _ _)), u32_small by lia; by apply u64_small; lia.
Qed.

Lemma width_idem r x : width r (width r x) = width r x.
Proof. destruct r; cbn [width]; unfold u32, u64; by rewrite Zmod_mod. Qed.

Lemma head_in c g n r v : (r, v) ∈ restore_head c g -> (r, v) ∈ restore_head c g ++ restore_lrs c g n.
Proof. intros Hin. apply elem_of_app. by left. Qed.

Lemma prio_in c g i : 0 <= i < 8 -> (Redist c (R_IPRIORITYR i), val g (Redist c (R_IPRIORITYR i))) ∈ restore_head c g.
Proof.
  intros Hi. unfold restore_head. apply elem_of_app. right. apply elem_of_app. left. apply list_elem_of_fmap. exists i. split; [done|]. apply elem_of_seqZ. lia.
Qed.

Lemma restored c g1 g2 n : n = num_lrs (hw3 g1) c ->
  let g3 := set_hw3 g2 (writes (restore_head c g1 ++ restore_lrs c g1 n) (hw3 g2)) in
  iface_of c g1 g3 /\ val g3 (Redist c ISENABLER0) = u32 (Z.lor (h3_read (hw3 g2) (Redist c ISENABLER0)) (val g1 (Redist c ISENABLER0))) /\
  (forall r, seen r = true -> of_cpu c r = false -> val g3 r = val g2 r).
Proof.
  intros -> g3. set (n := num_lrs (hw3 g1) c). set (l := restore_head c g1 ++ restore_lrs c g1 n) in *.
  assert (Hv : forall r, val g3 r = width r (h3_read (writes l (hw3 g2)) r)) by done.
  assert (Hheld : forall r, held r = true -> r <> Sys c ich_hcr_el2 -> (r, val g1 r) ∈ l -> val g3 r = val g1 r).
  { intros r Hr Hne Hin. rewrite Hv, (writes_entry l (hw3 g2) r (val g1 r) (width r (val g1 r))).
    - unfold val. by rewrite !width_idem.
    - unfold seen. by rewrite Hr.
    - by destruct r as [| |? []|? []].
    - intros h. by apply g3_same.
    - done.
    - intros w (_ & Hw & _)%restore_entries. rewrite Hw by done. by rewrite decide_False. }
  assert (Hmask : forall r, masked r = true -> (r, u32 (val g1 r)) ∈ l -> val g3 r = val g1 r).
  { intros r Hr Hin. rewrite Hv, (writes_entry l (hw3 g2) r (u32 (val g1 r)) (h3_read (hw3 g1) r)); [done| | | |done|].
    - unfold seen. rewrite Hr. by rewrite orb_true_r.
    - by destruct r as [| |? []|? []].
    - intros h. by apply back_value.
    - intros w (_ & _ & Hw)%restore_entries. by apply Hw. }
  split; [split|split].
  - apply Hmask; [done|]. apply head_in. unfold restore_head. rewrite !elem_of_app. left. do 3 right. left.
  - apply Hmask; [done|]. apply head_in. unfold restore_head. rewrite !elem_of_app. left. do 4 right. left.
  - intros i Hi. apply Hheld; [done|done|]. by apply head_in, prio_in.
  - rewrite Hv, (writes_entry l (hw3 g2) _ (u32 (val g1 (Sys c ich_hcr_el2))) (u64 (u32 (val g1 (Sys c ich_hcr_el2))))); [|done|done| | |].
    + cbn [width]. pose proof (u32_range (val g1 (Sys c ich_hcr_el2))). rewrite !(u64_small (u32 _)) by lia. apply u32_small. lia.
    + intros h. by apply g3_same.
    + apply head_in. unfold restore_head. rewrite !elem_of_app. do 2 right. left.
    + intros w (_ & Hw & _)%restore_entries. rewrite Hw by done. by rewrite decide_True.
  - intros i Hi. apply Hheld; [done|done|]. apply elem_of_app. right. apply list_elem_of_fmap. exists i. split; [done|]. apply elem_of_seqZ. lia.
  - rewrite Hv. unfold l, restore_head. rewrite <- !app_assoc. cbn [app].
    match goal with |- context [writes (?a :: ?b :: ?c :: ?d :: ?e :: ?f :: ?t) ?h] => change (a :: b :: c :: d :: e :: f :: t) with ([a; b; c; d; e] ++ [f] ++ t) end.
    do 2 rewrite writes_app. rewrite writes_other; [|done|].
    + cbn [writes foldl fst snd width]. rewrite (g3_set _ _ (Redist c ICENABLER0)) by done. rewrite !g3_other by (done || (split; done)).
      unfold val. cbn [width]. f_equal. f_equal. unfold u32. by rewrite Zmod_mod.
    + apply Forall_app. split; [|constructor; [split; done|]].
      * apply Forall_forall. intros w (i & -> & _)%list_elem_of_fmap. split; done.
      * apply Forall_forall. intros w (i & -> & _)%list_elem_of_fmap. split; done.
  - intros r Hr Hc. rewrite Hv, writes_other; [done|done|]. apply Forall_forall. intros [r' v] (Ho & _)%restore_entries. cbn [fst].
    split; [intros ->; congruence|]. intros E. destruct r as [| |d []|d []]; try done; injection E as <-; cbn [of_cpu] in Ho, Hc; congruence.
Qed.

(** *** Private interrupts *)

(** The priority CPU [c]'s redistributor holds for interrupt [j]. *)
Definition prio3 g (c j : Z) : Z := bit32_extract (val g (Redist c (R_IPRIORITYR (j / 4)))) (8 * (j mod 4)) 8.

Lemma prio3_reg j : 0 <= j < 32 ->
  GIC_PRIO_REG j = j / 4 /\ GIC_PRIO_OFF j = 8 * (j mod 4) /\ forall c, reg3_ok (Redist c (R_IPRIORITYR (j / 4))) = true.
Proof.
  intros Hj. destruct (prio_reg j ltac:(lia)) as (E1 & E2 & _). split; [done|]. split; [done|]. intros c. cbn [reg3_ok].
  change (GIC_NUM_PRIO_REGS GIC_CPU_PRIV) with 8. apply in_interval_true. divmod j 4. lia.
Qed.

(** A critical section of [gicr_lock]. *)
Lemma gicr_section (m : st (gic3 H) ()) l g : unlocked (gicr_lock g) -> does l m (NUM_LRS (g_d g)) ->
  exists g', (lock_gicr ;; m ;; unlock_gicr) g = Ok ((), g') /\ unlocked (gicr_lock g') /\ hw3 g' = writes l (hw3 g) /\
    gicd_lock (g_d g') = gicd_lock (g_d g) /\ route_lock g' = route_lock g /\ NUM_LRS (g_d g') = NUM_LRS (g_d g).
Proof.
  intros Hl Hm. destruct (spin_lock_unlock _ Hl) as (k & El & Hul & _). unfold mbind, st_bind, lock_gicr. rewrite El. cbn [mbind outcome_bind].
  rewrite Hm by done. unfold unlock_gicr. eexists. split; [done|]. by destruct g as [[? ? ? ?] ? ?].
Qed.

Lemma gicr_set_prio_spec g id prio c : unlocked (gicr_lock g) -> 0 <= id < 32 -> 0 <= prio < 256 ->
  exists g', gicr_set_prio id prio c g = Ok ((), g') /\ unlocked (gicr_lock g') /\
    (forall d j, 0 <= j < 32 -> prio3 g' d j = if (d =? c) && (j =? id) then prio else prio3 g d j) /\
    (forall r, seen r = true -> (forall i, r <> Redist c (R_IPRIORITYR i)) -> val g' r = val g r).
Proof.
  intros Hl Hid Hp. destruct (prio3_reg id Hid) as (E1 & E2 & E3). unfold gicr_set_prio. rewrite E1, E2.
  set (r := Redist c (R_IPRIORITYR (id / 4))). set (mask := BIT32_MASK (8 * (id mod 4)) GIC_PRIO_BITS).
  set (x := Z.lor (Z.land (val g r) (not32 mask)) (Z.land (lsl32 prio (8 * (id mod 4))) mask)).
  destruct (gicr_section (wr3 r x) [(r, x)] g Hl) as (g' & E & Hl' & Hhw & _); [apply does_wr, E3|].
  exists g'. split; [|split; [done|]].
  - rewrite <- E. unfold mbind, st_bind. destruct (lock_gicr g) as [[[] g1]|] eqn:El; [|done].
    unfold rd3 at 1. fold r. rewrite (E3 c : reg3_ok r = true). unfold lock_gicr in El. apply bind_Ok in El as (k & _ & [= <-]). reflexivity.
  - change (writes [(r, x)] (hw3 g)) with (h3_write (hw3 g) r (u32 x)) in Hhw. split.
    + intros d j Hj. unfold prio3, val. rewrite Hhw. cbn [width]. divmod id 4. divmod j 4.
      destruct (decide (Redist d (R_IPRIORITYR (j / 4)) = r)) as [[= -> Eq]|Ne].
      * rewrite Z.eqb_refl, Eq. fold r. rewrite g3_same by done. unfold x, val. cbn [width]. unfold mask.
        rewrite (extract_masked_write _ _ _ GIC_PRIO_BITS) by (unfold GIC_PRIO_BITS; lia).
        assert ((8 * (j mod 4) =? 8 * (id mod 4)) = (j =? id)) as -> by (repeat zcase). done.
      * rewrite g3_other by (done || (split; done)). destruct (Z.eqb_spec d c) as [->|]; [|done]. destruct (Z.eqb_spec j id) as [->|]; [|done]. done.
    + intros r' Hr' Hne. unfold val. rewrite Hhw, g3_other; [done|done|]. split; [intros E'; by apply (Hne (id / 4))|]. by destruct r' as [| |? []|? []].
Qed.

(** Enabling and disabling a private interrupt concerns it alone. *)
Definition enabled3 g (c j : Z) : bool := Z.testbit (val g (Redist c ISENABLER0)) j.

Lemma int_mask_bit id j : 0 <= id < 32 -> 0 <= j < 32 -> Z.testbit (GIC_INT_MASK id) j = (j =? id).
Proof.
  intros Hi Hj. unfold GIC_INT_MASK. rewrite Z.mod_small, testbit_lsl32, testbit_1 by lia. repeat zcase.
Qed.

Lemma gicr_set_enable_spec g id en c : unlocked (gicr_lock g) -> 0 <= id < 32 ->
  exists g', gicr_set_enable id en c g = Ok ((), g') /\ unlocked (gicr_lock g') /\
    (forall d j, 0 <= j < 32 -> enabled3 g' d j = if (d =? c) && (j =? id) then en else enabled3 g d j) /\
    (forall r, seen r = true -> r <> Redist c ISENABLER0 -> val g' r = val g r).
Proof.
  intros Hl Hid. set (r := Redist c (if en then ISENABLER0 else ICENABLER0)).
  destruct (gicr_section (wr3 r (GIC_INT_MASK id)) [(r, GIC_INT_MASK id)] g Hl) as (g' & E & Hl' & Hhw & _); [apply does_wr; by destruct en|].
  exists g'. split; [done|]. split; [done|].
  change (writes [(r, GIC_INT_MASK id)] (hw3 g)) with (h3_write (hw3 g) r (width r (GIC_INT_MASK id))) in Hhw.
  assert (width r (GIC_INT_MASK id) = GIC_INT_MASK id) as Hw. { apply u32_small. unfold GIC_INT_MASK, lsl32. apply u32_range. }
  rewrite Hw in Hhw. split.
  - intros d j Hj. unfold enabled3, val. rewrite Hhw. cbn [width]. rewrite !testbit_u32 by lia. rewrite (proj2 (Z.ltb_lt j 32)) by lia. cbn [andb].
    destruct (Z.eqb_spec d c) as [->|Hd]; cbn [andb].
    + unfold r. destruct en.
      * rewrite (g3_set _ _ (Redist c ICENABLER0)) by done. rewrite Z.lor_spec, int_mask_bit by lia. destruct (j =? id); [apply orb_true_r|apply orb_false_r].
      * rewrite (g3_clear _ (Redist c ISENABLER0) (Redist c ICENABLER0)) by done. rewrite Z.land_spec, testbit_not32, int_mask_bit by lia.
        destruct (j =? id), (Z.ltb_spec j 32); cbn [andb negb]; rewrite ?andb_false_r, ?andb_true_r; done || lia.
    + rewrite g3_other; [done|done|]. unfold r. split; destruct en; cbn [clears]; congruence.
  - intros r' Hr' Hne. unfold val. rewrite Hhw, g3_other; [done|done|]. unfold r. destruct en.
    + split; [congruence|]. by destruct r' as [| |? []|? []].
    + split; [intros <-; done|]. destruct r' as [| |? []|? []]; try done; cbn [clears]; congruence.
Qed.

(** *** Bringing up a CPU *)

Lemma wait_awake_run n c g : Z.testbit (h3_read (Nat.iter n h3_wait (hw3 g)) (Redist c R_WAKER)) 2 = false ->
  exists k, forall fuel, (n < fuel)%nat -> wait_awake c fuel g = Ok ((), set_hw3 g (Nat.iter k h3_wait (hw3 g))).
Proof.
  revert g. induction n as [|n IH]; intros g Hn.
  - exists 0%nat. intros [|fuel] Hf; [lia|]. cbn [wait_awake rd3 reg3_ok width mbind outcome_bind]. cbn [Nat.iter nat_rect] in Hn.
    change GICR_WAKER_ChildrenASleep_BIT with (2 ^ 2). rewrite land_onebit2, testbit_u32, Hn by lia. cbn [andb negb]. by destruct g as [[? ? ? ?] ? ?].
  - destruct (Z.testbit (u32 (h3_read (hw3 g) (Redist c R_WAKER))) 2) eqn:E0.
    + rewrite Nat.iter_succ_r in Hn. destruct (IH (set_hw3 g (h3_wait (hw3 g))) Hn) as [k Hk]. exists (S k). intros [|fuel] Hf; [lia|].
      cbn [wait_awake rd3 reg3_ok width mbind outcome_bind]. change GICR_WAKER_ChildrenASleep_BIT with (2 ^ 2). rewrite land_onebit2, E0 by lia. cbn [negb].
      rewrite Hk by lia. rewrite set_hw3_twice, Nat.iter_succ_r. done.
    + exists 0%nat. intros [|fuel] Hf; [lia|]. cbn [wait_awake rd3 reg3_ok width mbind outcome_bind].
      change GICR_WAKER_ChildrenASleep_BIT with (2 ^ 2). rewrite land_onebit2, E0 by lia. cbn [negb]. by destruct g as [[? ? ? ?] ? ?].
Qed.

Definition init_last (c hcr : Z) : list (reg3 * Z) :=
  [(Sys c ich_hcr_el2, Z.lor hcr ICH_HCR_LRENPIE_BIT); (Sys c icc_igrpen1_el1, ICC_IGRPEN_EL1_ENB_BIT)].

Lemma gicc_init_leads c n g : NUM_LRS (g_d g) = n -> num_lrs (hw3 g) c = n -> n <= 16 ->
  gicc_init c g = Ok ((), set_hw3 g (writes (((fun i => (Sys c (ich_lr_el2 i), 0)) <$> seqZ 0 n) ++
    [(Sys c icc_pmr_el1, GIC_LOWEST_PRIO); (Sys c icc_bpr1_el1, 0); (Sys c icc_ctlr_el1, ICC_CTLR_EOIMode_BIT)] ++
    init_last c (val g (Sys c ich_hcr_el2))) (hw3 g))).
Proof.
  intros HN Hn H16. pose proof (num_lrs_range (hw3 g) c) as Hr. unfold gicc_init. unfold mbind at 1, st_bind at 1.
  change (gich_num_lrs c g) with (Ok (num_lrs (hw3 g) c, g)). cbn beta iota. rewrite Hn.
  assert (leads (((fun i => (Sys c (ich_lr_el2 i), 0)) <$> seqZ 0 n) ++
      [(Sys c icc_pmr_el1, GIC_LOWEST_PRIO); (Sys c icc_bpr1_el1, 0); (Sys c icc_ctlr_el1, ICC_CTLR_EOIMode_BIT)])
    (hcr ← rd3 (Sys c ich_hcr_el2); wr3 (Sys c ich_hcr_el2) (Z.lor hcr ICH_HCR_LRENPIE_BIT) ;; wr3 (Sys c icc_igrpen1_el1) ICC_IGRPEN_EL1_ENB_BIT)
    (for3 0 n (fun i => gich_write_lr c i 0) ;; wr3 (Sys c icc_pmr_el1) GIC_LOWEST_PRIO ;; wr3 (Sys c icc_bpr1_el1) 0 ;;
     wr3 (Sys c icc_ctlr_el1) ICC_CTLR_EOIMode_BIT ;; hcr ← rd3 (Sys c ich_hcr_el2);
     wr3 (Sys c ich_hcr_el2) (Z.lor hcr ICH_HCR_LRENPIE_BIT) ;; wr3 (Sys c icc_igrpen1_el1) ICC_IGRPEN_EL1_ENB_BIT) n) as Hlead.
  { apply leads_seq; [|do 3 (apply leads_wr; [done|]); apply leads_nil].
    rewrite <- (Z.sub_0_r n) at 1. apply (does_for3 (fun i => (Sys c (ich_lr_el2 i), 0))); [lia|]. intros i Hi. apply does_lr; lia. }
  rewrite Hlead by done. clear Hlead. unfold mbind at 1, st_bind at 1. unfold rd3. cbn [reg3_ok].
  assert (h3_read (writes (((fun i => (Sys c (ich_lr_el2 i), 0)) <$> seqZ 0 n) ++
      [(Sys c icc_pmr_el1, GIC_LOWEST_PRIO); (Sys c icc_bpr1_el1, 0); (Sys c icc_ctlr_el1, ICC_CTLR_EOIMode_BIT)]) (hw3 g)) (Sys c ich_hcr_el2) =
    h3_read (hw3 g) (Sys c ich_hcr_el2)) as Hh.
  { apply writes_other; [done|]. apply Forall_app. split; [|repeat constructor; done].
    apply Forall_forall. intros w (i & -> & _)%list_elem_of_fmap. split; done. }
  change (hw3 (set_hw3 g ?h)) with h. rewrite Hh. unfold mbind, st_bind. rewrite (does_wr (Sys c ich_hcr_el2) _ n) by done.
  rewrite (does_wr (Sys c icc_igrpen1_el1) _ n) by done. rewrite !set_hw3_twice. rewrite app_assoc, (writes_app (_ ++ _)). reflexivity.
Qed.

Lemma gicr_init_leads c n g : NUM_LRS (g_d g) = n ->
  exists k fuel0, forall fuel, (fuel0 <= fuel)%nat ->
  gicr_init c fuel g = Ok ((), set_hw3 g (writes
    ([(Redist c IGROUPR0, MINUS1); (Redist c ICENABLER0, MINUS1); (Redist c ICPENDR0, MINUS1); (Redist c ICACTIVER0, MINUS1)] ++
      ((fun i => (Redist c (R_IPRIORITYR i), MINUS1)) <$> seqZ 0 8))
    (Nat.iter k h3_wait (writes [(Redist c R_WAKER, Z.land (val g (Redist c R_WAKER)) (not32 GICR_WAKER_ProcessorSleep_BIT))] (hw3 g))))).
Proof.
  intros HN. set (x := Z.land (val g (Redist c R_WAKER)) (not32 GICR_WAKER_ProcessorSleep_BIT)).
  set (h1 := writes [(Redist c R_WAKER, x)] (hw3 g)).
  assert (Z.testbit (h3_read h1 (Redist c R_WAKER)) 1 = false) as Hs.
  { unfold h1. cbn [writes foldl fst snd]. rewrite g3_sleep. cbn [width]. rewrite testbit_u32 by lia. unfold x. rewrite Z.land_spec.
    change (Z.testbit (not32 GICR_WAKER_ProcessorSleep_BIT) 1) with false. rewrite andb_false_r. done. }
  destruct (g3_wakes h1 c Hs) as [n0 Hn0]. destruct (wait_awake_run n0 c (set_hw3 g h1) Hn0) as [k Hk].
  exists k, (S n0). intros fuel Hf. unfold gicr_init. unfold mbind at 1, st_bind at 1, rd3 at 1. cbn [reg3_ok]. fold (val g (Redist c R_WAKER)). fold x.
  unfold mbind at 1, st_bind at 1. rewrite (does_wr (Redist c R_WAKER) x n) by done. fold h1. unfold mbind at 1, st_bind at 1. rewrite Hk by lia.
  assert (does ([(Redist c IGROUPR0, MINUS1); (Redist c ICENABLER0, MINUS1); (Redist c ICPENDR0, MINUS1); (Redist c ICACTIVER0, MINUS1)] ++
      ((fun i => (Redist c (R_IPRIORITYR i), MINUS1)) <$> seqZ 0 8))
    (wr3 (Redist c IGROUPR0) MINUS1 ;; wr3 (Redist c ICENABLER0) MINUS1 ;; wr3 (Redist c ICPENDR0) MINUS1 ;; wr3 (Redist c ICACTIVER0) MINUS1 ;;
     for3 0 (GIC_NUM_PRIO_REGS GIC_CPU_PRIV) (fun i => wr3 (Redist c (R_IPRIORITYR i)) MINUS1)) n) as Hd.
  { do 4 (apply (does_seq [_]); [by apply does_wr|]). apply (does_for3 (fun i => (Redist c (R_IPRIORITYR i), MINUS1)) _ 0 8); [lia|].
    intros i Hi. apply does_wr. cbn [reg3_ok]. change (GIC_NUM_PRIO_REGS GIC_CPU_PRIV) with 8. by apply in_interval_true. }
  rewrite Hd by done. by rewrite !set_hw3_twice.
Qed.

Definition init_list (c n hcr : Z) : list (reg3 * Z) :=
  ([(Redist c IGROUPR0, MINUS1); (Redist c ICENABLER0, MINUS1); (Redist c ICPENDR0, MINUS1); (Redist c ICACTIVER0, MINUS1)] ++
    ((fun i => (Redist c (R_IPRIORITYR i), MINUS1)) <$> seqZ 0 8)) ++
  ((fun i => (Sys c (ich_lr_el2 i), 0)) <$> seqZ 0 n) ++
  [(Sys c icc_pmr_el1, GIC_LOWEST_PRIO); (Sys c icc_bpr1_el1, 0); (Sys c icc_ctlr_el1, ICC_CTLR_EOIMode_BIT)] ++ init_last c hcr.

Lemma iter_wait_keeps k h r : seen r = true -> h3_read (Nat.iter k h3_wait h) r = h3_read h r.
Proof. intros Hr. induction k as [|k IH]; [done|]. cbn [Nat.iter nat_rect]. rewrite g3_wait_keeps by done. apply IH. Qed.

Lemma woken_keeps c k x h r : seen r = true -> h3_read (Nat.iter k h3_wait (writes [(Redist c R_WAKER, x)] h)) r = h3_read h r.
Proof.
  intros Hr. rewrite iter_wait_keeps, writes_other; [done|done| |done]. constructor; [|constructor]. cbn [fst].
  split; [intros <-; done|]. by destruct r as [| |? []|? []].
Qed.

Lemma cpu_init_run c g : NUM_LRS (g_d g) = num_lrs (hw3 g) c -> num_lrs (hw3 g) c <= 16 ->
  exists h hcr fuel0, (forall r, seen r = true -> h3_read h r = h3_read (hw3 g) r) /\
    forall fuel, (fuel0 <= fuel)%nat -> gic_cpu_init c fuel g = Ok ((), set_hw3 g (writes (init_list c (num_lrs (hw3 g) c) hcr) h)).
Proof.
  intros HN H16. destruct (gicr_init_leads c _ g HN) as (k & fuel0 & Hi).
  set (h := Nat.iter k h3_wait (writes [(Redist c R_WAKER, Z.land (val g (Redist c R_WAKER)) (not32 GICR_WAKER_ProcessorSleep_BIT))] (hw3 g))) in *.
  assert (Hk : forall r, seen r = true -> h3_read h r = h3_read (hw3 g) r) by (intros r Hr; by apply woken_keeps).
  set (l := [(Redist c IGROUPR0, MINUS1); (Redist c ICENABLER0, MINUS1); (Redist c ICPENDR0, MINUS1); (Redist c ICACTIVER0, MINUS1)] ++
    ((fun i => (Redist c (R_IPRIORITYR i), MINUS1)) <$> seqZ 0 8)) in *.
  exists h, (val (set_hw3 g (writes l h)) (Sys c ich_hcr_el2)), fuel0. split; [done|]. intros fuel Hf. unfold gic_cpu_init, mbind, st_bind. rewrite Hi by done.
  rewrite (gicc_init_leads c (num_lrs (hw3 g) c)); [|done| |done].
  - rewrite set_hw3_twice. unfold init_list. fold l. by rewrite (writes_app l).
  - change (hw3 (set_hw3 g (writes l h))) with (writes l h). rewrite apart_num_lrs; [unfold num_lrs; by rewrite Hk|].
    apply Forall_app. split; [repeat constructor; done|]. apply Forall_forall. by intros w (i & -> & _)%list_elem_of_fmap.
Qed.

Lemma init_entries c n hcr r v : (r, v) ∈ init_list c n hcr ->
  of_cpu c r = true /\ (forall d x, r = Redist d x -> v = MINUS1) /\ (forall i, r = Sys c (ich_lr_el2 i) -> v = 0) /\
  (r = Sys c ich_hcr_el2 -> v = Z.lor hcr ICH_HCR_LRENPIE_BIT) /\ r <> Redist c ISENABLER0 /\ r <> Redist c ISACTIVER0.
Proof.
  unfold init_list, init_last. rewrite !elem_of_app, !list_elem_of_fmap.
  intros [[Hin|(i & [= -> ->] & Hi)]|[(i & [= -> ->] & Hi)|[Hin|Hin]]]; [|cbn [of_cpu]; rewrite Z.eqb_refl; split_and!; done..| |];
    (repeat (apply elem_of_cons in Hin as [[= -> ->]|Hin]; [cbn [of_cpu]; rewrite Z.eqb_refl; split_and!; done|]); by apply elem_of_nil in Hin).
Qed.

(** A clear register in the list leaves nothing of what it clears. *)
Lemma cleared l r w h : clears r = Some w -> (w, MINUS1) ∈ l -> (forall v, (w, v) ∈ l -> v = MINUS1) -> (forall v, (r, v) ∉ l) ->
  h3_read (writes l h) r = 0.
Proof.
  intros Hc. assert (seen r = true /\ width w = u32) as [Hr Hw] by (destruct r as [| |? []|? []]; try done; by injection Hc as <-).
  induction l as [|[x v] l IH] using rev_ind; [by intros ?%elem_of_nil|]. intros Hin Hf Hn.
  rewrite writes_app. change (writes [(x, v)] (writes l h)) with (h3_write (writes l h) x (width x v)).
  destruct (decide (x = w)) as [->|Hne].
  - rewrite (Hf v) by set_solver. rewrite (g3_clear _ _ _ _ Hc), Hw. change (not32 (u32 MINUS1)) with 0. apply Z.land_0_r.
  - rewrite g3_other; [apply IH|done|].
    + by apply elem_of_app in Hin as [Hin|[= <- <-]%list_elem_of_singleton].
    + intros u Hu. apply Hf. set_solver.
    + intros u Hu. apply (Hn u). set_solver.
    + split; [intros ->; apply (Hn v); set_solver|]. rewrite Hc. congruence.
Qed.

Lemma cpu_init_clean c n hcr h g : 0 <= n -> let g' := set_hw3 g (writes (init_list c n hcr) h) in
  val g' (Redist c ISENABLER0) = 0 /\ val g' (Redist c ISACTIVER0) = 0 /\ (forall j, 0 <= j < 32 -> prio3 g' c j = GIC_LOWEST_PRIO) /\
  (forall i, 0 <= i < n -> val g' (Sys c (ich_lr_el2 i)) = 0) /\ Z.testbit (val g' (Sys c ich_hcr_el2)) 2 = true /\
  (forall r, seen r = true -> of_cpu c r = false -> val g' r = width r (h3_read h r)).
Proof.
  intros Hn g'. pose proof (init_entries c n hcr) as Hen.
  assert (Hclr : forall r w, clears r = Some w -> (w, MINUS1) ∈ init_list c n hcr -> of_cpu c r = true -> val g' r = 0).
  { intros r w Hc Hin Ho. unfold val. change (hw3 g') with (writes (init_list c n hcr) h). rewrite (cleared _ r w); [by destruct r|done|done| |].
    - intros v Hv. apply Hen in Hv as (_ & Hv & _). destruct r as [| |? []|? []]; try done; injection Hc as <-; by eapply Hv.
    - intros v (_ & _ & _ & _ & Hx & Hy)%Hen. destruct r as [| |d []|? []]; try done; cbn [of_cpu] in Ho; apply Z.eqb_eq in Ho; subst d; done. }
  assert (Hh : forall r v, held r = true -> (r, v) ∈ init_list c n hcr -> (forall u, (r, u) ∈ init_list c n hcr -> u = v) -> val g' r = width r v).
  { intros r v Hr Hin Hf. unfold val. change (hw3 g') with (writes (init_list c n hcr) h).
    rewrite (writes_entry _ h r v (width r v)); [apply width_idem| | |intros; by apply g3_same|done|done]; [unfold seen; by rewrite Hr|by destruct r as [| |? []|? []]]. }
  assert (Hself : of_cpu c (Redist c ISENABLER0) = true) by (cbn; apply Z.eqb_refl). split_and!.
  - apply (Hclr _ (Redist c ICENABLER0)); [done| |done]. unfold init_list. set_solver.
  - apply (Hclr _ (Redist c ICACTIVER0)); [done| |done]. unfold init_list. set_solver.
  - intros j Hj. divmod j 4. unfold prio3. rewrite (Hh _ MINUS1); [|done| |].
    + cbn [width]. assert (j mod 4 = 0 \/ j mod 4 = 1 \/ j mod 4 = 2 \/ j mod 4 = 3) as [-> |[-> |[-> | ->]]] by lia; reflexivity.
    + unfold init_list. apply elem_of_app. left. apply elem_of_app. right. apply list_elem_of_fmap. exists (j / 4). split; [done|]. apply elem_of_seqZ. lia.
    + intros u (_ & Hu & _)%Hen. by eapply Hu.
  - intros i Hi. rewrite (Hh _ 0); [done|done| |].
    + unfold init_list. apply elem_of_app. right. apply elem_of_app. left. apply list_elem_of_fmap. exists i. split; [done|]. apply elem_of_seqZ. lia.
    + intros u (_ & _ & Hu & _)%Hen. by eapply Hu.
  - rewrite (Hh _ (Z.lor hcr ICH_HCR_LRENPIE_BIT)); [|done| |].
    + cbn [width]. rewrite testbit_u64, Z.lor_spec by lia. change (Z.testbit ICH_HCR_LRENPIE_BIT 2) with true. rewrite orb_true_r. done.
    + unfold init_list, init_last. rewrite !elem_of_app. do 3 right. left.
    + intros u (_ & _ & _ & Hu & _)%Hen. by apply Hu.
  - intros r Hr Hc. unfold val. change (hw3 g') with (writes (init_list c n hcr) h). f_equal. apply writes_other; [done|].
    apply Forall_forall. intros [x v] (Ho & _)%Hen. cbn [fst].
    split; [intros ->; congruence|]. intros E. destruct r as [| |d []|d []]; try done; injection E as <-; cbn [of_cpu] in Ho, Hc; congruence.
Qed.

End laws3.

(** ** A controller with these properties *)

Definition regfile3 : Type := reg3 -> Z.

Definition upd3 (h : regfile3) (r : reg3) (v : Z) : regfile3 := fun r' => if decide (r' = r) then v else h r'.

Definition regfile3_read (h : regfile3) (r : reg3) : Z := if masked r then Z.land (h r) 0xff else h r.

Definition regfile3_write (h : regfile3) (r : reg3) (v : Z) : regfile3 :=
  match r with
  | Redist c ISENABLER0 | Redist c ISACTIVER0 => upd3 h r (Z.lor (h r) v)
  | Redist c ICENABLER0 => upd3 h (Redist c ISENABLER0) (Z.land (h (Redist c ISENABLER0)) (not32 v))
  | Redist c ICACTIVER0 => upd3 h (Redist c ISACTIVER0) (Z.land (h (Redist c ISACTIVER0)) (not32 v))
  | _ => upd3 h r v
  end.

(** A redistributor is awake after the first wait. *)
Definition regfile3_wait (h : regfile3) : regfile3 := fun r =>
  match r with Redist c R_WAKER => if Z.testbit (h r) 1 then h r else Z.clearbit (h r) 2 | _ => h r end.

#[export] Instance regfile3_hw : Gic3Hw regfile3 := {
  h3_read := regfile3_read;
  h3_write := regfile3_write;
  h3_ack c h := (1023, h);
  h3_wait := regfile3_wait;
}.

Lemma upd3_eq h r v : upd3 h r v r = v.
Proof. unfold upd3. by rewrite decide_True. Qed.
Lemma upd3_ne h r r' v : r' <> r -> upd3 h r v r' = h r'.
Proof. intros Hne. unfold upd3. by rewrite decide_False. Qed.

#[export] Instance regfile3_laws : Gic3Laws regfile3.
Proof.
  split; cbn [h3_read h3_write h3_wait regfile3_hw].
  - intros h r v Hr. unfold regfile3_read. destruct r as [|?|? []|? []]; try done; cbn [masked regfile3_write]; apply upd3_eq.
  - intros h h' r Hr. unfold regfile3_read. rewrite Hr. destruct r as [|?|? []|? []]; try done; cbn [regfile3_write]; rewrite upd3_eq;
      rewrite <- Z.land_assoc; by rewrite Z.land_diag.
  - intros h r Hr. unfold regfile3_read. rewrite Hr. change 0xff with (Z.ones 8). rewrite Z.land_ones by lia. pose proof (Z.mod_pos_bound (h r) (2 ^ 8)). lia.
  - intros h r w v Hc. destruct r as [|?|? []|? []]; try done; unfold regfile3_read; cbn [masked regfile3_write]; apply upd3_eq.
  - intros h r w v Hc. destruct r as [|?|? []|? []]; try done; injection Hc as <-; unfold regfile3_read; cbn [masked regfile3_write]; apply upd3_eq.
  - intros h r w v Hr [Hne Hcl]. unfold regfile3_read. assert (regfile3_write h w v r = h r) as ->; [|done].
    destruct w as [|?|d []|? []]; cbn [regfile3_write]; apply upd3_ne; try congruence; intros ->; by apply Hcl.
  - intros h r Hr. unfold regfile3_read. by destruct r as [|?|? []|? []].
  - intros h c v. unfold regfile3_read. cbn [masked regfile3_write]. by rewrite upd3_eq.
  - intros h c Hs. exists 1%nat. unfold regfile3_read in *. cbn [masked Nat.iter nat_rect regfile3_wait] in *. rewrite Hs. apply Z.clearbit_eq.
Qed.

Definition demo_gic3 : gic3 regfile3 :=
  Gic3 (Gic (fun r => match r with Sys _ ich_vtr_el2 => 3 | Redist _ R_WAKER => 6 | Redist _ ISENABLER0 => 0x80 | Sys 0 (ich_lr_el2 1) => 0x5000 | _ => 0 end)
         SPINLOCK_INITVAL [] 4) SPINLOCK_INITVAL SPINLOCK_INITVAL.

(** ** The properties *)

(** The state of a CPU's interface survives: what [gicc_save_state] has taken down,
    [gicc_restore_state] brings back, whatever the registers hold by then (priority
    mask, binary point, priorities of the private interrupts, [ICH_HCR_EL2], all
    list registers), and the registers of the other CPUs and of the distributor stay
    as they are.  Only the enabled interrupts are not what they were: those that
    have been enabled since stay enabled, since [ISENABLER0] only adds. *)
Theorem gicc_state_roundtrip {H} `{Gic3Laws H} (c : Z) (g1 g2 : gic3 H) :
  NUM_LRS (g_d g1) = num_lrs (hw3 g1) c -> num_lrs (hw3 g1) c <= 16 ->
  NUM_LRS (g_d g2) = NUM_LRS (g_d g1) -> num_lrs (hw3 g2) c = num_lrs (hw3 g1) c ->
  exists s g3, gicc_save_state c g1 = Ok (s, g1) /\ gicc_restore_state c s g2 = Ok ((), g3) /\ iface_of c g1 g3 /\
    val g3 (Redist c ISENABLER0) = u32 (Z.lor (h3_read (hw3 g2) (Redist c ISENABLER0)) (val g1 (Redist c ISENABLER0))) /\
    (forall r, seen r = true -> of_cpu c r = false -> val g3 r = val g2 r).
Proof.
  intros HN H16 HN2 Hn2. exists (saved c g1). eexists. split; [by apply gicc_save_run|]. split; [apply gicc_restore_run; congruence|]. by apply restored.
Qed.

Lemma gicc_state_roundtrip_witness : exists s g3,
  gicc_save_state 0 demo_gic3 = Ok (s, demo_gic3) /\
  gicc_restore_state 0 s (set_hw3 demo_gic3 (upd3 (hw3 demo_gic3) (Sys 0 (ich_lr_el2 1)) 0)) = Ok ((), g3) /\ val g3 (Sys 0 (ich_lr_el2 1)) = 0x5000.
Proof.
  destruct (gicc_state_roundtrip 0 demo_gic3 (set_hw3 demo_gic3 (upd3 (hw3 demo_gic3) (Sys 0 (ich_lr_el2 1)) 0))) as (s & g3 & E1 & E2 & Hif & _);
    [reflexivity|vm_compute; congruence|reflexivity|reflexivity|].
  exists s, g3. split; [exact E1|]. split; [exact E2|]. rewrite (if_lr _ _ _ Hif); [reflexivity|]. vm_compute. split; congruence.
Defined.

(** [gic_cpu_init] brings up a CPU: it waits until the redistributor is awake, which
    happens, and returns with all private interrupts disabled, inactive and of the
    lowest priority, with empty list registers and the maintenance interrupt for
    them on; the other CPUs' registers are as they were. *)
Theorem gic_cpu_init_correct {H} `{Gic3Laws H} (c : Z) (g : gic3 H) :
  NUM_LRS (g_d g) = num_lrs (hw3 g) c -> num_lrs (hw3 g) c <= 16 ->
  exists g' fuel0, (forall fuel, (fuel0 <= fuel)%nat -> gic_cpu_init c fuel g = Ok ((), g')) /\
    val g' (Redist c ISENABLER0) = 0 /\ val g' (Redist c ISACTIVER0) = 0 /\ (forall j, 0 <= j < 32 -> prio3 g' c j = GIC_LOWEST_PRIO) /\
    (forall i, 0 <= i < num_lrs (hw3 g) c -> val g' (Sys c (ich_lr_el2 i)) = 0) /\ Z.testbit (val g' (Sys c ich_hcr_el2)) 2 = true /\
    (forall r, seen r = true -> of_cpu c r = false -> val g' r = val g r).
Proof.
  intros HN H16. destruct (cpu_init_run c g HN H16) as (h & hcr & fuel0 & Hk & Hrun). pose proof (num_lrs_range (hw3 g) c) as Hn.
  destruct (cpu_init_clean c (num_lrs (hw3 g) c) hcr h g (Z.le_trans _ _ _ Z.le_0_1 (proj1 Hn))) as (P1 & P2 & P3 & P4 & P5 & P6).
  eexists _, fuel0. split; [exact Hrun|]. split_and!; [done..|]. intros r Hr Hc. rewrite P6 by done. unfold val. by rewrite Hk.
Qed.

Lemma gic_cpu_init_correct_witness : exists g' fuel0, (forall fuel, (fuel0 <= fuel)%nat -> gic_cpu_init 0 fuel demo_gic3 = Ok ((), g')) /\
  val g' (Redist 0 ISENABLER0) = 0 /\ val g' (Redist 1 ISENABLER0) = 0x80.
Proof.
  destruct (gic_cpu_init_correct 0 demo_gic3) as (g' & fuel0 & Hrun & P1 & _ & _ & _ & _ & P6); [reflexivity|vm_compute; congruence|].
  exists g', fuel0. split; [exact Hrun|]. split; [exact P1|]. rewrite P6; reflexivity.
Defined.

(** Private interrupts are each CPU's own: setting the priority or the enable bit of
    one changes that of no other interrupt and of no other CPU. *)
Theorem gic_private_exact {H} `{Gic3Laws H} (c id prio : Z) (en : bool) (g : gic3 H) :
  unlocked (gicr_lock g) -> 0 <= id < 32 -> 0 <= prio < 256 ->
  exists g' g'', gic_set_prio c id prio g = Ok ((), g') /\ gic_set_enable c id en g' = Ok ((), g'') /\ unlocked (gicr_lock g'') /\
    (forall d j, 0 <= j < 32 -> prio3 g'' d j = if (d =? c) && (j =? id) then prio else prio3 g d j) /\
    (forall d j, 0 <= j < 32 -> enabled3 g'' d j = if (d =? c) && (j =? id) then en else enabled3 g d j).
Proof.
  intros Hl Hid Hp. destruct (gicr_set_prio_spec g id prio c Hl Hid Hp) as (g1 & E1 & Hl1 & P1 & K1).
  destruct (gicr_set_enable_spec g1 id en c Hl1 Hid) as (g2 & E2 & Hl2 & P2 & K2). exists g1, g2.
  unfold gic_set_prio, gic_set_enable, gic_is_priv. rewrite (proj2 (Z.ltb_lt id GIC_CPU_PRIV)) by (change GIC_CPU_PRIV with 32; lia). cbn [negb].
  split; [done|]. split; [done|]. split; [done|]. split.
  - intros d j Hj. rewrite <- P1 by done. unfold prio3. rewrite K2; done.
  - intros d j Hj. rewrite P2 by done. unfold enabled3. rewrite (K1 (Redist d ISENABLER0)); done.
Qed.

Lemma gic_private_exact_witness : exists g' g'', gic_set_prio 1 27 0xa0 demo_gic3 = Ok ((), g') /\ gic_set_enable 1 27 true g' = Ok ((), g'') /\
  prio3 g'' 1 27 = 0xa0 /\ prio3 g'' 0 27 = 0 /\ enabled3 g'' 1 7 = true.
Proof.
  destruct (gic_private_exact 1 27 0xa0 true demo_gic3) as (g' & g'' & E1 & E2 & _ & P & Q); [by split|lia|lia|].
  exists g', g''. split; [exact E1|]. split; [exact E2|]. rewrite !P, Q by lia. done.
Defined.

Lemma aff_of_cpu cpu_num t : 0 <= t < 16 -> t <= cpu_num -> Z.land (cpu_id_to_mpidr cpu_num t) MPIDR_AFF_MSK = t.
Proof.
  intros Ht Hn. unfold cpu_id_to_mpidr, platform_arch_cpuid_to_mpidr. destruct (Z.ltb_spec cpu_num t); [lia|].
  assert (exists n, t = Z.of_nat n /\ (n < 16)%nat) as (n & -> & Hn16) by (exists (Z.to_nat t); lia).
  destruct (cpu_num =? 1); do 16 (destruct n as [|n]; [by vm_compute|]); lia.
Qed.

(** [gic_send_sgi] to one of the first 16 CPUs of the platform sends the interrupt to
    that CPU and no other: the value written to [ICC_SGI1R_EL1] names it in the
    target list, cluster 0, and not all CPUs. *)
Theorem gic_send_sgi_target {H} `{Gic3Hw H} (c cpu_num t sgi : Z) (g : gic3 H) :
  0 <= t < 16 -> t <= cpu_num -> 0 <= sgi < 16 ->
  exists v, gic_send_sgi c cpu_num t sgi g = Ok ((), set_hw3 g (h3_write (hw3 g) (Sys c icc_sgi1r_el1) v)) /\
    ICC_SGIR_TRGLSTFLT v = 2 ^ t /\ ICC_SGIR_SGIINTID v = sgi /\ bit64_extract v ICC_SGIR_AFF1_OFFSET 8 = 0 /\ Z.land v ICC_SGIR_IRM_BIT = 0.
Proof.
  intros Ht Hn Hs. unfold gic_send_sgi. rewrite (proj2 (Z.ltb_lt sgi GIC_MAX_SGIS)) by (unfold GIC_MAX_SGIS; lia).
  rewrite aff_of_cpu by done.
  unfold wr3. cbn [reg3_ok width]. eexists. split; [done|].
  assert (exists n, t = Z.of_nat n /\ (n < 16)%nat) as (n & -> & Hn16) by (exists (Z.to_nat t); lia).
  assert (exists k, sgi = Z.of_nat k /\ (k < 16)%nat) as (k & -> & Hk) by (exists (Z.to_nat sgi); lia).
  clear - Hn16 Hk. do 16 (destruct n as [|n]; [do 16 (destruct k as [|k]; [by vm_compute|]); lia|]). lia.
Qed.

Lemma gic_send_sgi_target_witness : exists v,
  gic_send_sgi 0 4 3 1 demo_gic3 = Ok ((), set_hw3 demo_gic3 (h3_write (hw3 demo_gic3) (Sys 0 icc_sgi1r_el1) v)) /\ ICC_SGIR_TRGLSTFLT v = 8.
Proof.
  destruct (gic_send_sgi_target 0 4 3 1 demo_gic3) as (v & E & P & _); [lia|lia|lia|]. exists v. split; [exact E|exact P].
Defined.

(** Beyond the first 16 CPUs the target list overflows into the cluster number. *)
Lemma gic_send_sgi_overflow : exists v,
  gic_send_sgi 0 32 16 1 demo_gic3 = Ok ((), set_hw3 demo_gic3 (h3_write (hw3 demo_gic3) (Sys 0 icc_sgi1r_el1) v)) /\
  ICC_SGIR_TRGLSTFLT v = 0 /\ bit64_extract v ICC_SGIR_AFF1_OFFSET 8 = 1.
Proof. exists 0x1010000. split; [|split]; reflexivity. Qed.

(** The route that is meant to be invalid selects all CPUs: bit 31 of
    [GICD_IROUTER_INV] is the routing mode. *)
Lemma invalid_route_broadcasts : Z.land GICD_IROUTER_INV GICD_IROUTER_IRM_BIT = GICD_IROUTER_IRM_BIT.
Proof. reflexivity. Qed.

(** [gicr_get_prio] masks after shifting, as [gicd_get_prio] does. *)
Lemma gicr_get_prio_zero : exists g' g'', gicr_set_prio 27 0xa0 0 demo_gic3 = Ok ((), g') /\ prio3 g' 0 27 = 0xa0 /\ gicr_get_prio 27 0 g' = Ok (0, g'').
Proof. eexists _, _. split; [reflexivity|]. split; reflexivity. Qed.
