(* ===== verification/Vgic3.v ===== *)
(** Of the virtual GICv3, [arch/aarch64/vgicv3.c] and [arch/aarch64/inc/vgicv3.h]
    (not the default build): the routing of interrupts, the registers of the
    virtual redistributors, and the system registers that a guest's accesses trap
    on.

    A virtual interrupt has a route, the value of the guest's routing register, and
    the physical route that goes with it; for a private interrupt the same word
    holds the redistributor.  What [vgic.c] does with them (ownership, list
    registers) is the subject of [Vgic], for the other version. *)

From S2P Require Import Prelude Bit Bitmap Spinlock Cpu Gic Vm Vgic ArchVmm Gic3.

(** ** Routing *)

(** The members of [struct vgic_int] that routing uses; [phys] is a union of two
    words. *)
Record vgic_int3 := Int3 { i3_id : Z; i3_route : Z; i3_phys : Z }.

Definition vgic_broadcast (i : vgic_int3) : bool := negb (Z.land (i3_route i) GICD_IROUTER_IRM_BIT =? 0).

(** [mpidr] is the [MPIDR_EL1] of the CPU that runs the code. *)
Definition vgic_int_vcpu_is_target (mpidr : Z) (v : vcpu) (i : vgic_int3) : bool :=
  let priv := gic_is_priv (i3_id i) in
  let local := priv && (i3_phys i =? p_id v) in
  let routed_here := negb priv && (Z.lxor (i3_phys i) (Z.land mpidr MPIDR_AFF_MSK) =? 0) in
  let any := negb priv && vgic_broadcast i in
  local || routed_here || any.

Definition vgic_int_has_other_target (mpidr : Z) (i : vgic_int3) : bool :=
  let priv := gic_is_priv (i3_id i) in
  let routed_here := negb priv && (Z.lxor (i3_phys i) (Z.land mpidr MPIDR_AFF_MSK) =? 0) in
  let route_valid := negb (i3_phys i =? GICD_IROUTER_INV) in
  let any := negb priv && vgic_broadcast i in
  any || (negb routed_here && route_valid).

(** [m] and [p] are [cpu()->vcpu->vm] and [cpu()->vcpu->p_id]. *)
Definition vgic_int_ptarget_mask (m : vm) (p : Z) (i : vgic_int3) : Z :=
  u8 (if vgic_broadcast i then Z.land (cpus m) (not32 (lsl32 1 p)) else lsl32 1 (i3_phys i)).

(** [cpu_num] is [platform.cpu_num]. *)
Definition vgic_int_set_route (cpu_num : Z) (m : vm) (v : vcpu) (i : vgic_int3) (route : Z) : outcome (bool * vgic_int3) :=
  if gic_is_priv (i3_id i) then Ok (false, i) else
  phys_route ← (if negb (Z.land route GICD_IROUTER_IRM_BIT =? 0) then Ok (cpu_id_to_mpidr cpu_num (p_id v)) else
    tvcpu ← vm_get_vcpu_by_mpidr m (Z.land route MPIDR_AFF_MSK);
    Ok match tvcpu with
       | Some t => Z.land (cpu_id_to_mpidr cpu_num (p_id t)) MPIDR_AFF_MSK
       | None => GICD_IROUTER_INV
       end);
  let i' := Int3 (i3_id i) (Z.land route GICD_IROUTER_RES0_MSK) phys_route in
  Ok (negb (i3_route i =? i3_route i'), i').

Definition vgic_int_get_route (i : vgic_int3) : Z := if gic_is_priv (i3_id i) then 0 else i3_route i.

Definition vgic_int_set_route_hw {H} `{Gic3Hw H} (i : vgic_int3) : st (gic3 H) () := gicd_set_route (i3_id i) (i3_phys i).

(** What [vgic_init] and [vgic_cpu_init] leave in the interrupts. *)
Definition init_spi3 (k : Z) : vgic_int3 := Int3 (k + GIC_CPU_PRIV) GICD_IROUTER_INV GICD_IROUTER_INV.
Definition init_priv3 (p k : Z) : vgic_int3 := Int3 k GICD_IROUTER_INV p.

(** The part of [vgicd_emul_router_access] that reads and writes the route; [reg] is
    what the guest's register holds. *)
Definition top_access (acc : emul_access) : bool := (acc_width acc =? 4) && negb (Z.land (acc_addr acc) 4 =? 0).
Definition word_access (acc : emul_access) : bool := acc_width acc =? 4.

Definition router_read (acc : emul_access) (route : Z) : Z :=
  if top_access acc then u32 (Z.shiftr route 32) else if word_access acc then u32 route else route.

Definition router_write (acc : emul_access) (route reg : Z) : Z :=
  if top_access acc then Z.lor (Z.land route (BIT64_MASK 0 32)) (lsl64 (Z.land reg (BIT64_MASK 0 32)) 32)
  else if word_access acc then Z.lor (Z.land route (BIT64_MASK 32 32)) (Z.land reg (BIT64_MASK 0 32))
  else reg.

(** ** Redistributors *)

Definition sizeof_gicr_hw : Z := 0x20000.
Definition GICR_REG_MASK (addr : Z) : Z := Z.land addr 0x1ffff.
Definition GICR_IS_REG (base size offset : Z) : bool := (base <=? offset) && (offset <? base + size).

(** The structure that [vgicr_emul_handler] picks: one of [vgicv3.c], or the one of
    [vgic.c] that [reg_handler_info_table] has under this number, or [razwi_info]. *)
Inductive vgicr_info := vgicr_ctrl_info | vgicr_typer_info | vgicr_pidr_info | shared_info (id : Z) | vgicr_razwi.

#[export] Instance vgicr_info_eq_dec : EqDecision vgicr_info.
Proof. solve_decision. Defined.

Definition vgicr_select (vgicr_addr addr : Z) : vgicr_info :=
  let r := GICR_REG_MASK addr in
  if r =? 0x0 then vgicr_ctrl_info
  else if r =? 0x10100 then shared_info VGIC_ISENABLER_ID
  else if r =? 0x10200 then shared_info VGIC_ISPENDR_ID
  else if r =? 0x10300 then shared_info VGIC_ICACTIVER_ID
  else if r =? 0x10180 then shared_info VGIC_ICENABLER_ID
  else if r =? 0x10280 then shared_info VGIC_ICPENDR_ID
  else if r =? 0x10380 then shared_info VGIC_ICFGR_ID
  else if (r =? 0x10c00) || (r =? 0x10c04) then shared_info VGIC_ICFGR_ID
  else
    let acc_offset := GICR_REG_MASK (u64 (addr - vgicr_addr)) in
    if GICR_IS_REG 0x8 8 acc_offset then vgicr_typer_info
    else if GICR_IS_REG 0x10400 0x20 acc_offset then shared_info VGIC_IPRIORITYR_ID
    else if GICR_IS_REG 0xffd0 0x30 acc_offset then vgicr_pidr_info
    else vgicr_razwi.

Definition vgicr_get_id (vgicr_addr : Z) (acc : emul_access) : Z := u64 (acc_addr acc - vgicr_addr) / sizeof_gicr_hw.

Definition GICR_TYPER_LAST_OFF : Z := 4.
Definition GICR_TYPER_PRCNUM_OFF : Z := 8.
Definition GICR_TYPER_AFFVAL_OFF : Z := 32.

(** [vgicr.TYPER] as [vgic_init] sets it. *)
Definition vgicr_typer (m : vm) (v : vcpu) : Z :=
  let typer := lsl64 (v_id v) GICR_TYPER_PRCNUM_OFF in
  let typer := Z.lor typer (lsl64 (Z.land (vmpidr v) MPIDR_AFF_MSK) GICR_TYPER_AFFVAL_OFF) in
  Z.lor typer (Z.shiftl (if v_id v =? nr_cpus m - 1 then 1 else 0) GICR_TYPER_LAST_OFF).

Section handlers.
Context {G : Type} `{GicHw G} {G3 : Type} `{Gic3Hw G3}.
Context (VGIC_IPI_ID : Z).

Definition vgicr_emul_ctrl_access (acc : emul_access) : st (world G) () :=
  when (negb (acc_write acc)) (set_vcpu_reg (acc_reg acc) 0).

(** [typers] are the [TYPER]s of the VM's redistributors. *)
Definition vgicr_emul_typer_access (typers : list Z) (acc : emul_access) (vgicr_id : Z) : st (world G) () :=
  if acc_write acc then mret () else
  m ← gets wvm;
  match vm_get_vcpu m vgicr_id with
  | None => stop HFault
  | Some v =>
      typer ← lift (rd typers (v_id v));
      let typer := if top_access acc then Z.shiftr typer 32 else if word_access acc then Z.land typer (BIT_MASK 0 32) else typer in
      set_vcpu_reg (acc_reg acc) typer
  end.

(** The physical redistributor is only read. *)
Definition vgicr_emul_pidr_access (g : gic3 G3) (acc : emul_access) (vgicr_id : Z) : st (world G) () :=
  if acc_write acc then mret () else
  m ← gets wvm;
  let pgicr_id := vm_translate_to_pcpuid m vgicr_id in
  val ← (if negb (pgicr_id =? INVALID_CPUID)
         then '(v, _) ← lift (rd3 (Redist pgicr_id (R_ID (u64 (Z.land (acc_addr acc) 0xff - 0xd0) / 4))) g); mret v
         else mret 0);
  set_vcpu_reg (acc_reg acc) val.

Definition vgic_icc_sgir_handler (acc : emul_access) : st (world G) bool :=
  when (acc_write acc) (
    v ← gets cur_vcpu;
    c ← get_vcpu v;
    m ← gets wvm;
    sgir ← lift (vcpu_readreg c (acc_reg acc));
    sgir ← (if acc_multi_reg acc then h ← lift (vcpu_readreg c (acc_reg_high acc)); mret (Z.lor sgir (lsl64 h 32)) else mret sgir);
    let int_id := ICC_SGIR_SGIINTID sgir in
    trgtlist ← (if negb (Z.land sgir ICC_SGIR_IRM_BIT =? 0) then mret (Z.land (cpus m) (not32 (lsl32 1 (p_id c))))
                else lift (vm_translate_to_pcpu_mask m (ICC_SGIR_TRGLSTFLT sgir) (nr_cpus m)));
    vgic_send_sgi_msg VGIC_IPI_ID v trgtlist int_id) ;;
  mret true.

Definition vgic_icc_sre_handler (acc : emul_access) : st (world G) bool :=
  when (negb (acc_write acc)) (set_vcpu_reg (acc_reg acc) 0x1) ;; mret true.

End handlers.

(** ** Where interrupts go *)

(** A VM whose virtual CPUs have different affinities and run on CPUs of the
    platform; a target mask has eight bits. *)
Record team_ok (cpu_num : Z) (m : vm) : Prop := {
  tk_len : Z.of_nat (length (vcpus m)) = nr_cpus m;
  tk_cpu : forall k v, vcpus m !! k = Some v -> 0 <= p_id v < 8 /\ p_id v <= cpu_num;
  tk_aff : forall k j v u, vcpus m !! k = Some v -> vcpus m !! j = Some u -> Z.land (vmpidr v) MPIDR_AFF_MSK = Z.land (vmpidr u) MPIDR_AFF_MSK -> k = j;
}.

Lemma by_mpidr_from cpu_num m mpidr n k j t : team_ok cpu_num m -> vcpus m !! j = Some t -> (k <= j)%nat -> (j < k + n)%nat ->
  Z.of_nat (k + n) = nr_cpus m -> Z.land (vmpidr t) MPIDR_AFF_MSK = Z.land mpidr MPIDR_AFF_MSK ->
  get_vcpu_by_mpidr m n (Z.of_nat k) mpidr = Ok (Some t).
Proof.
  intros Ht Hj Hkj Hjn Hn Ha. revert k Hkj Hjn Hn. induction n as [|n IH]; intros k Hkj Hjn Hn; [lia|].
  cbn [get_vcpu_by_mpidr]. unfold vm_get_vcpu. rewrite (proj2 (Z.ltb_lt _ _)) by lia. rewrite Nat2Z.id. pose proof (tk_len _ _ Ht).
  destruct (vcpus m !! k) as [v|] eqn:Ek; [|apply lookup_ge_None in Ek; lia].
  destruct (Z.eqb_spec (Z.land (vmpidr v) MPIDR_AFF_MSK) (Z.land mpidr MPIDR_AFF_MSK)) as [E|Hne].
  - assert (k = j) as -> by (eapply tk_aff; [done|exact Ek|exact Hj|congruence]). congruence.
  - assert (k <> j) by congruence. replace (Z.of_nat k + 1) with (Z.of_nat (S k)) by lia. apply IH; lia.
Qed.

Lemma vm_get_vcpu_by_mpidr_spec cpu_num m mpidr j t : team_ok cpu_num m -> vcpus m !! j = Some t ->
  Z.land (vmpidr t) MPIDR_AFF_MSK = Z.land mpidr MPIDR_AFF_MSK -> vm_get_vcpu_by_mpidr m mpidr = Ok (Some t).
Proof.
  intros Ht Hj Ha. pose proof (tk_len _ _ Ht) as Hl. pose proof (lookup_lt_Some _ _ _ Hj). unfold vm_get_vcpu_by_mpidr.
  apply (by_mpidr_from cpu_num m mpidr _ 0 j); [done|done|lia|lia|lia|done].
Qed.

(** The guest's choice is carried out: after [vgic_int_set_route] with the affinity
    of one of the VM's virtual CPUs, the interrupt's target is the CPU that runs it;
    it is a target there, there are other targets everywhere else, messages go
    to it, and the guest reads the route back. *)
Theorem vgic_route_exact cpu_num m v i j t route : team_ok cpu_num m -> vcpus m !! j = Some t -> gic_is_priv (i3_id i) = false ->
  Z.land route GICD_IROUTER_IRM_BIT = 0 -> Z.land route MPIDR_AFF_MSK = Z.land (vmpidr t) MPIDR_AFF_MSK ->
  exists changed i', vgic_int_set_route cpu_num m v i route = Ok (changed, i') /\
    vgic_int_get_route i' = Z.land route GICD_IROUTER_RES0_MSK /\
    (forall u p, 0 <= p < 8 -> p <= cpu_num ->
      vgic_int_vcpu_is_target (cpu_id_to_mpidr cpu_num p) u i' = (p =? p_id t) /\
      vgic_int_has_other_target (cpu_id_to_mpidr cpu_num p) i' = negb (p =? p_id t)) /\
    (forall q, vgic_int_ptarget_mask m q i' = 2 ^ p_id t).
Proof.
  intros Ht Hj Hp Hirm Haff. destruct (tk_cpu _ _ Ht _ _ Hj) as [Hc Hcn]. unfold vgic_int_set_route. rewrite Hp, Hirm. cbn [negb Z.eqb].
  rewrite (vm_get_vcpu_by_mpidr_spec cpu_num m _ j t Ht Hj) by (rewrite <- Z.land_assoc, Z.land_diag; done). cbn [mbind outcome_bind].
  rewrite aff_of_cpu by lia. eexists _, _. split; [done|].
  assert (vgic_broadcast (Int3 (i3_id i) (Z.land route GICD_IROUTER_RES0_MSK) (p_id t)) = false) as Hb.
  { unfold vgic_broadcast. cbn [i3_route]. rewrite <- Z.land_assoc. change (Z.land GICD_IROUTER_RES0_MSK GICD_IROUTER_IRM_BIT) with GICD_IROUTER_IRM_BIT. by rewrite Hirm. }
  split; [unfold vgic_int_get_route; cbn [i3_id]; by rewrite Hp|]. split.
  - intros u p H8 Hpn. unfold vgic_int_vcpu_is_target, vgic_int_has_other_target. rewrite Hb. cbn [i3_id i3_phys]. rewrite Hp. cbn [negb andb orb].
    rewrite aff_of_cpu by lia. rewrite orb_false_r.
    assert ((Z.lxor (p_id t) p =? 0) = (p =? p_id t)) as ->.
    { destruct (Z.eqb_spec p (p_id t)) as [->|Hne]; [by rewrite Z.lxor_nilpotent|]. apply Z.eqb_neq. intros E%Z.lxor_eq. congruence. }
    split; [done|]. assert (p_id t =? GICD_IROUTER_INV = false) as ->; [|by rewrite andb_true_r].
    apply Z.eqb_neq. change GICD_IROUTER_INV with 0xffffffffffff0000. lia.
  - intros q. unfold vgic_int_ptarget_mask. rewrite Hb. cbn [i3_phys].
    assert (exists n, p_id t = Z.of_nat n /\ (n < 8)%nat) as (n & -> & Hn) by (exists (Z.to_nat (p_id t)); lia).
    clear - Hn. do 8 (destruct n as [|n]; [reflexivity|]). lia.
Qed.

Definition team_vcpu (id pid : Z) : vcpu := Vcpu id pid (replicate 31 0) 0 0 0 (vm_cpuid_to_mpidr 2 id) [] [].
Definition team_vm : vm :=
  Vm 0 [team_vcpu 0 3; team_vcpu 1 1] 2 10 3 SPINLOCK_INITVAL (Vgicd [] SPINLOCK_INITVAL 0 0 0 0) ∅ SPINLOCK_INITVAL [] [] [].

Lemma team_vm_ok : team_ok 4 team_vm.
Proof.
  split; [done| |].
  - intros [|[|k]] v E; [injection E as <-|injection E as <-|done]; cbn [p_id team_vcpu]; lia.
  - intros [|[|k]] [|[|j]] v u Ev Eu E; try done; injection Ev as <-; injection Eu as <-; by vm_compute in E.
Qed.

Lemma vgic_route_exact_witness : exists changed i', vgic_int_set_route 4 team_vm (team_vcpu 0 3) (init_spi3 5) 1 = Ok (changed, i') /\
  vgic_int_ptarget_mask team_vm 3 i' = 2 /\ vgic_int_vcpu_is_target (cpu_id_to_mpidr 4 3) (team_vcpu 0 3) i' = false.
Proof.
  destruct (vgic_route_exact 4 team_vm (team_vcpu 0 3) (init_spi3 5) 1 (team_vcpu 1 1) 1) as (ch & i' & E & _ & Ht & Hm);
    [apply team_vm_ok|reflexivity|reflexivity|reflexivity|reflexivity|].
  exists ch, i'. split; [exact E|]. split; [apply Hm|]. by apply Ht.
Defined.

(** Before the guest has set any route every shared interrupt goes to every CPU: the
    value for no route has the bit for all. *)
Lemma fresh_spi_everywhere mpidr v k : 0 <= k -> vgic_int_vcpu_is_target mpidr v (init_spi3 k) = true.
Proof.
  intros Hk. unfold vgic_int_vcpu_is_target, gic_is_priv. cbn [i3_id init_spi3]. rewrite (proj2 (Z.ltb_ge _ _)) by (unfold GIC_CPU_PRIV, GIC_MAX_SGIS, GIC_MAX_PPIS; lia).
  change (vgic_broadcast (init_spi3 k)) with true. apply orb_true_r.
Qed.

(** A private interrupt counts as having other targets. *)
Lemma private_has_other mpidr p k : 0 <= k < 32 -> 0 <= p < 2 ^ 32 -> vgic_int_has_other_target mpidr (init_priv3 p k) = true.
Proof.
  intros Hk Hp. unfold vgic_int_has_other_target, gic_is_priv. cbn [i3_id i3_phys init_priv3]. rewrite (proj2 (Z.ltb_lt _ _)) by (unfold GIC_CPU_PRIV, GIC_MAX_SGIS, GIC_MAX_PPIS; lia).
  cbn [negb andb orb]. apply negb_true_iff, Z.eqb_neq. change GICD_IROUTER_INV with 0xffffffffffff0000. lia.
Qed.

(** ** The guest's registers *)

(** A routing register is accessed in halves: writing one sets it and leaves the other. *)
Theorem router_halves lo hi route reg : acc_width lo = 4 -> Z.land (acc_addr lo) 4 = 0 -> acc_width hi = 4 -> Z.land (acc_addr hi) 4 = 4 ->
  0 <= route < 2 ^ 64 ->
  router_read lo (router_write lo route reg) = u32 reg /\ router_read hi (router_write lo route reg) = router_read hi route /\
  router_read hi (router_write hi route reg) = u32 reg /\ router_read lo (router_write hi route reg) = router_read lo route.
Proof.
  intros W1 A1 W2 A2 Hr. unfold router_read, router_write, top_access, word_access. rewrite W1, A1, W2, A2. cbn [Z.eqb andb negb Pos.eqb].
  change (BIT64_MASK 0 32) with (Z.ones 32). change (BIT64_MASK 32 32) with (Z.shiftl (Z.ones 32) 32).
  assert (Hhi : forall k, 64 <= k -> Z.testbit route k = false) by (intros k Hk; apply (testbit_small route 64); lia).
  split_and!; apply Z.bits_inj'; intros k Hk; rewrite !testbit_u32 by lia; destruct (Z.ltb_spec k 32); cbn [andb]; try done;
    rewrite ?Z.shiftr_spec, !Z.lor_spec, ?testbit_lsl64, !Z.land_spec, ?Z.shiftl_spec, !Z.testbit_ones by lia; repeat zcase;
    rewrite ?andb_false_r, ?andb_true_r, ?orb_false_r; cbn [orb]; try done; f_equal; lia.
Qed.

Definition half (addr : Z) : emul_access := EmulAccess addr true false 4 0 0 false 8.

Lemma router_halves_witness : router_read (half 0x6004) (router_write (half 0x6004) 0x80000001 0x12) = 0x12.
Proof. destruct (router_halves (half 0x6000) (half 0x6004) 0x80000001 0x12) as (_ & _ & E & _); [reflexivity..|lia|exact E]. Defined.

(** The registers of a redistributor get the handlers of their own kind, but for
    two: writes that set active interrupts are handled as writes that clear them,
    and those that clear them as writes of the configuration. *)
Theorem vgicr_select_regs base n : 0 <= base < 2 ^ 48 -> base mod sizeof_gicr_hw = 0 -> 0 <= n < 2 ^ 10 ->
  let at_ off := vgicr_select base (base + n * sizeof_gicr_hw + off) in
  at_ 0x0 = vgicr_ctrl_info /\ at_ 0x8 = vgicr_typer_info /\ at_ 0xc = vgicr_typer_info /\ at_ 0xffe8 = vgicr_pidr_info /\
  at_ 0x10100 = shared_info VGIC_ISENABLER_ID /\ at_ 0x10180 = shared_info VGIC_ICENABLER_ID /\
  at_ 0x10200 = shared_info VGIC_ISPENDR_ID /\ at_ 0x10280 = shared_info VGIC_ICPENDR_ID /\
  at_ 0x10c00 = shared_info VGIC_ICFGR_ID /\ at_ 0x10c04 = shared_info VGIC_ICFGR_ID /\
  (forall i, 0 <= i < 32 -> at_ (0x10400 + i) = shared_info VGIC_IPRIORITYR_ID) /\
  at_ 0x10300 = shared_info VGIC_ICACTIVER_ID /\ at_ 0x10380 = shared_info VGIC_ICFGR_ID.
Proof.
  intros Hb Hm Hn at_. unfold sizeof_gicr_hw in *.
  assert (Hat : forall off, 0 <= off < 0x20000 -> GICR_REG_MASK (base + n * 0x20000 + off) = off /\
    GICR_REG_MASK (u64 (base + n * 0x20000 + off - base)) = off).
  { intros off Ho. unfold GICR_REG_MASK. change 0x1ffff with (Z.ones 17). rewrite u64_small by lia. rewrite !Z.land_ones by lia. change (2 ^ 17) with 0x20000. split.
    - rewrite <- Z.add_assoc, Z.add_mod, Hm by lia. rewrite Z.add_0_l, Z.mod_mod, Z.add_comm, Z_mod_plus_full by lia. by apply Z.mod_small.
    - replace (base + n * 0x20000 + off - base) with (off + n * 0x20000) by lia. rewrite Z_mod_plus_full. by apply Z.mod_small. }
  assert (Hsel : forall off, 0 <= off < 0x20000 -> at_ off = vgicr_select 0 off).
  { intros off Ho. unfold at_, vgicr_select. unfold sizeof_gicr_hw. destruct (Hat off Ho) as [-> ->]. rewrite Z.sub_0_r, u64_small by lia.
    assert (GICR_REG_MASK off = off) as ->; [|done]. unfold GICR_REG_MASK. change 0x1ffff with (Z.ones 17). rewrite Z.land_ones by lia. by apply Z.mod_small. }
  split_and!; [rewrite Hsel by lia; reflexivity..| |rewrite Hsel by lia; reflexivity|rewrite Hsel by lia; reflexivity].
  intros i Hi. rewrite Hsel by lia. assert (exists k, i = Z.of_nat k /\ (k < 32)%nat) as (k & -> & Hk) by (exists (Z.to_nat i); lia).
  do 32 (destruct k as [|k]; [reflexivity|]). lia.
Qed.

Lemma vgicr_select_regs_witness : vgicr_select 0x080A0000 (0x080A0000 + 1 * sizeof_gicr_hw + 0x10300) = shared_info VGIC_ICACTIVER_ID.
Proof. apply (vgicr_select_regs 0x080A0000 1); [lia|reflexivity|lia]. Defined.

(** [vgicr.TYPER] tells the guest the number and the affinity of the redistributor's
    CPU, and which is the last. *)
Theorem vgicr_typer_fields m v : 0 <= v_id v < 2 ^ 16 ->
  bit64_extract (vgicr_typer m v) GICR_TYPER_PRCNUM_OFF 16 = v_id v /\
  bit64_extract (vgicr_typer m v) GICR_TYPER_AFFVAL_OFF 16 = Z.land (vmpidr v) MPIDR_AFF_MSK /\
  Z.testbit (vgicr_typer m v) GICR_TYPER_LAST_OFF = (v_id v =? nr_cpus m - 1).
Proof.
  intros Hid. set (aff := Z.land (vmpidr v) MPIDR_AFF_MSK).
  assert (0 <= aff < 2 ^ 16) as Haff by (unfold aff; change MPIDR_AFF_MSK with (Z.ones 16); rewrite Z.land_ones by lia; apply Z.mod_pos_bound; lia).
  assert (Hb : forall k, 0 <= k < 64 -> Z.testbit (vgicr_typer m v) k =
    Z.testbit (v_id v) (k - 8) || Z.testbit aff (k - 32) || ((k =? 4) && (v_id v =? nr_cpus m - 1))).
  { intros k Hk. unfold vgicr_typer. fold aff. rewrite !Z.lor_spec, !testbit_lsl64, Z.shiftl_spec by (unfold GICR_TYPER_PRCNUM_OFF, GICR_TYPER_AFFVAL_OFF; lia).
    rewrite (proj2 (Z.ltb_lt k 64)) by lia. cbn [andb]. unfold GICR_TYPER_PRCNUM_OFF, GICR_TYPER_AFFVAL_OFF, GICR_TYPER_LAST_OFF. f_equal.
    destruct (Z.eqb_spec k 4) as [->|Hne]; [by destruct (v_id v =? nr_cpus m - 1)|]. cbn [andb]. destruct (v_id v =? nr_cpus m - 1); [|apply Z.bits_0].
    destruct (decide (0 <= k - 4)); [by rewrite testbit_1, (proj2 (Z.eqb_neq (k - 4) 0)) by lia|by rewrite Z.testbit_neg_r by lia]. }
  assert (Hs : forall x n k, 0 <= x < 2 ^ n -> 0 <= n -> k < 0 \/ n <= k -> Z.testbit x k = false).
  { intros y n k Hy Hn0 [Hk|Hk]; [by apply Z.testbit_neg_r|]. by apply (testbit_small y n). }
  split_and!.
  - apply Z.bits_inj'. intros k Hk. unfold bit64_extract. rewrite (PRE_extract_testbit (w := 64)) by (unfold GICR_TYPER_PRCNUM_OFF; lia).
    unfold GICR_TYPER_PRCNUM_OFF. destruct (Z.ltb_spec k 16); [|by rewrite (Hs (v_id v) 16) by lia]. cbn [andb].
    rewrite Hb, (Hs aff 16) by lia. rewrite (proj2 (Z.eqb_neq _ _)) by lia. rewrite !orb_false_r. f_equal. lia.
  - apply Z.bits_inj'. intros k Hk. unfold bit64_extract. rewrite (PRE_extract_testbit (w := 64)) by (unfold GICR_TYPER_AFFVAL_OFF; lia).
    unfold GICR_TYPER_AFFVAL_OFF. destruct (Z.ltb_spec k 16); [|by rewrite (Hs aff 16) by lia]. cbn [andb].
    rewrite Hb, (Hs (v_id v) 16) by lia. rewrite (proj2 (Z.eqb_neq _ _)) by lia. rewrite orb_false_r. cbn [orb]. f_equal. lia.
  - unfold GICR_TYPER_LAST_OFF. rewrite Hb, (Hs (v_id v) 16), (Hs aff 16) by lia. done.
Qed.

(** ** Software interrupts *)

(** A guest's write to [ICC_SGI1R_EL1] that does not address all CPUs sends the
    message for the interrupt to exactly the CPUs that run the virtual CPUs of its
    target list. *)
Theorem sgir_targets {G} `{GicHw G} VGIC_IPI_ID acc (w : world G) c sgir :
  acc_write acc = true -> acc_multi_reg acc = false -> rd (vcpus (wvm w)) (cur_vcpu w) = Ok c -> vcpu_readreg c (acc_reg acc) = Ok sgir ->
  Z.land sgir ICC_SGIR_IRM_BIT = 0 -> 0 <= nr_cpus (wvm w) <= 64 ->
  (forall i v, vm_get_vcpu (wvm w) i = Some v -> 0 <= i -> 0 <= p_id v < 64) ->
  exists mask, vgic_icc_sgir_handler VGIC_IPI_ID acc w = (vgic_send_sgi_msg VGIC_IPI_ID (cur_vcpu w) mask (ICC_SGIR_SGIINTID sgir) ;; mret true) w /\
    forall p, 0 <= p -> Z.testbit mask p = true <->
      exists i v, 0 <= i < nr_cpus (wvm w) /\ Z.testbit (ICC_SGIR_TRGLSTFLT sgir) i = true /\ vm_get_vcpu (wvm w) i = Some v /\ p_id v = p.
Proof.
  intros Hw Hm Hc Hs Hirm Hn Hv. destruct (vm_translate_to_pcpu_mask_spec (wvm w) (ICC_SGIR_TRGLSTFLT sgir) (nr_cpus (wvm w)) Hn Hv) as (pm & E & Hp).
  exists pm. split; [|done]. unfold vgic_icc_sgir_handler. rewrite Hw. unfold when, mbind, st_bind, gets, get_vcpu. rewrite Hc. cbn [mbind outcome_bind].
  rewrite Hs. cbn [lift]. rewrite Hm. cbv beta iota delta [mret st_ret]. rewrite Hirm. cbn [Z.eqb negb]. rewrite E. done.
Qed.
