(* ===== verification/Smmu.v ===== *)
(** Devices under stage-2 translation: [arch/aarch64/smmuv2.c], and [iommu.c] as
    compiled with [SMMU_VERSION=2].

    The SMMU looks a transaction's stream id up in its stream match registers
    ([SMR]); the entry that matches names, through [S2CR], the context bank that
    holds the page table to use.  The driver hands out context banks and entries
    and merges entries that belong together.

    The registers the driver programs hold what was written to them; what a write
    makes of a fault status register is a parameter ([w1c]). *)

From S2P Require Import Prelude Bit Bitmap Spinlock PhysMem PageTable ArchVmm.

(** ** Registers *)

(** A context bank, as far as it is used. *)
Record smmu_cntxt_hw := CntxtHw { SCTLR : Z; TTBR0 : Z; TCR : Z; FSR : Z }.

Record smmu_glbl_rs0_hw := Rs0Hw {
  CR0 : Z;
  IDR0 : Z;
  IDR1 : Z;
  IDR2 : Z;
  IDR7 : Z;
  GFSR : Z;
  NSGFSR : Z;
  SMR : list Z;
  S2CR : list Z;
}.

Record smmu_glbl_rs1_hw := Rs1Hw { CBAR : list Z; CBA2R : list Z }.

Record smmu_hw := SmmuHw {
  glbl_rs0_at : Z;
  glbl_rs1_at : Z;
  cntxt_at : Z;
  glbl_rs0 : smmu_glbl_rs0_hw;
  glbl_rs1 : smmu_glbl_rs1_hw;
  cntxt : list smmu_cntxt_hw;
}.

Definition SME_MAX_NUM : Z := 128.
Definition CTX_MAX_NUM : Z := 128.

Record smmu_priv := SmmuPriv {
  hw : smmu_hw;
  sme_lock : spinlock_t;
  sme_num : Z;
  sme_bitmap : bitmap_t;
  grp_bitmap : bitmap_t;
  ctx_lock : spinlock_t;
  ctx_num : Z;
  ctxbank_bitmap : bitmap_t;
}.

(** *** Field updates *)

Definition on_hw (f : smmu_hw -> smmu_hw) (s : smmu_priv) : smmu_priv :=
  SmmuPriv (f (hw s)) (sme_lock s) (sme_num s) (sme_bitmap s) (grp_bitmap s) (ctx_lock s) (ctx_num s) (ctxbank_bitmap s).
Definition set_rs0 (r : smmu_glbl_rs0_hw) (s : smmu_priv) : smmu_priv :=
  on_hw (fun h => SmmuHw (glbl_rs0_at h) (glbl_rs1_at h) (cntxt_at h) r (glbl_rs1 h) (cntxt h)) s.
Definition set_rs1 (r : smmu_glbl_rs1_hw) (s : smmu_priv) : smmu_priv :=
  on_hw (fun h => SmmuHw (glbl_rs0_at h) (glbl_rs1_at h) (cntxt_at h) (glbl_rs0 h) r (cntxt h)) s.
Definition set_cntxt (c : list smmu_cntxt_hw) (s : smmu_priv) : smmu_priv :=
  on_hw (fun h => SmmuHw (glbl_rs0_at h) (glbl_rs1_at h) (cntxt_at h) (glbl_rs0 h) (glbl_rs1 h) c) s.
Definition set_ptrs (a b c : Z) (s : smmu_priv) : smmu_priv :=
  on_hw (fun h => SmmuHw a b c (glbl_rs0 h) (glbl_rs1 h) (cntxt h)) s.
Definition set_SMR (l : list Z) (s : smmu_priv) : smmu_priv :=
  let r := glbl_rs0 (hw s) in set_rs0 (Rs0Hw (CR0 r) (IDR0 r) (IDR1 r) (IDR2 r) (IDR7 r) (GFSR r) (NSGFSR r) l (S2CR r)) s.
Definition set_S2CR (l : list Z) (s : smmu_priv) : smmu_priv :=
  let r := glbl_rs0 (hw s) in set_rs0 (Rs0Hw (CR0 r) (IDR0 r) (IDR1 r) (IDR2 r) (IDR7 r) (GFSR r) (NSGFSR r) (SMR r) l) s.
Definition set_CR0 (v : Z) (s : smmu_priv) : smmu_priv :=
  let r := glbl_rs0 (hw s) in set_rs0 (Rs0Hw v (IDR0 r) (IDR1 r) (IDR2 r) (IDR7 r) (GFSR r) (NSGFSR r) (SMR r) (S2CR r)) s.
Definition set_GFSRs (v nv : Z) (s : smmu_priv) : smmu_priv :=
  let r := glbl_rs0 (hw s) in set_rs0 (Rs0Hw (CR0 r) (IDR0 r) (IDR1 r) (IDR2 r) (IDR7 r) v nv (SMR r) (S2CR r)) s.
Definition set_sme (l : spinlock_t) (n : Z) (b g : bitmap_t) (s : smmu_priv) : smmu_priv :=
  SmmuPriv (hw s) l n b g (ctx_lock s) (ctx_num s) (ctxbank_bitmap s).
Definition set_sme_lock (l : spinlock_t) (s : smmu_priv) : smmu_priv := set_sme l (sme_num s) (sme_bitmap s) (grp_bitmap s) s.
Definition set_sme_bitmap (b : bitmap_t) (s : smmu_priv) : smmu_priv := set_sme (sme_lock s) (sme_num s) b (grp_bitmap s) s.
Definition set_grp_bitmap (g : bitmap_t) (s : smmu_priv) : smmu_priv := set_sme (sme_lock s) (sme_num s) (sme_bitmap s) g s.
Definition set_ctx (l : spinlock_t) (n : Z) (b : bitmap_t) (s : smmu_priv) : smmu_priv :=
  SmmuPriv (hw s) (sme_lock s) (sme_num s) (sme_bitmap s) (grp_bitmap s) l n b.
Definition set_ctx_lock (l : spinlock_t) (s : smmu_priv) : smmu_priv := set_ctx l (ctx_num s) (ctxbank_bitmap s) s.
Definition set_ctxbank_bitmap (b : bitmap_t) (s : smmu_priv) : smmu_priv := set_ctx (ctx_lock s) (ctx_num s) b s.

(** *** Fields of the registers *)

Definition SMMUV2_CR0_USFCFG : Z := Z.shiftl 1 10.
Definition SMMUV2_CR0_SMCFCFG : Z := Z.shiftl 1 21.
Definition SMMUV2_CR0_CLIENTPD : Z := Z.shiftl 1 0.
Definition SMMUV2_CR0_CLEAR (cr0 : Z) : Z := Z.land cr0 (Z.lor (u32 (Z.shiftl 3 30)) (Z.shiftl 1 11)).
Definition SMMUV2_IDR0_MASK : Z := 0xFF.
Definition SMMUV2_IDR0_S2TS_BIT : Z := Z.shiftl 1 30.
Definition SMMUV2_IDR0_SMS_BIT : Z := Z.shiftl 1 27.
Definition SMMUV2_IDR0_BTM_BIT : Z := Z.shiftl 1 13.
Definition SMMUV2_IDR1_PAGESIZE_BIT : Z := Z.shiftl 1 31.
Definition SMMUV2_IDR2_PTFSv8_4kB_BIT : Z := Z.shiftl 1 12.

Definition SMMU_SMR_ID (smr : Z) : Z := bit32_extract smr 0 15.
Definition SMMU_ID_MSK : Z := BIT32_MASK 0 15.
Definition SMMU_SMR_MASK (smr : Z) : Z := bit32_extract smr 16 15.
Definition SMMUV2_SMR_VALID : Z := Z.shiftl 1 31.

Definition S2CR_IMPL_MASK : Z := BIT32_MASK 30 2.
Definition S2CR_CBNDX_MASK : Z := BIT32_MASK 0 8.
Definition S2CR_CBNDX (s2cr : Z) : Z := bit32_extract s2cr 0 8.
Definition S2CR_CLEAR (s2cr : Z) : Z := Z.land s2cr S2CR_IMPL_MASK.
Definition S2CR_DFLT : Z := 0.

Definition SMMUV2_CBAR_VMID (id : Z) : Z := Z.land id 0xFF.
Definition SMMUV2_CBAR_VA64 : Z := Z.shiftl 1 0.
Definition SMMUV2_CB_TTBA (x : Z) : Z := BIT64_MASK x (48 - x).
Definition SMMUV2_SCTLR_CLEAR (sctlr : Z) : Z :=
  Z.land sctlr (Z.lor (u32 (Z.shiftl 0xF 28)) (Z.lor (Z.shiftl 1 20) (Z.lor (Z.shiftl 0xF 9) (Z.shiftl 1 11)))).
Definition SMMUV2_SCTLR_DEFAULT : Z := Z.lor (Z.shiftl 1 7) (Z.shiftl 1 0).
Definition SMMUV2_TCR_T0SZ (sz : Z) : Z := Z.land sz 0x1F.
Definition SMMUV2_TCR_SL0_MSK : Z := Z.shiftl 3 6.
Definition SMMUV2_TCR_SL0_0 : Z := Z.land (Z.shiftl 2 6) SMMUV2_TCR_SL0_MSK.
Definition SMMUV2_TCR_SL0_1 : Z := Z.land (Z.shiftl 1 6) SMMUV2_TCR_SL0_MSK.
Definition SMMUV2_TCR_IRGN0_WB_RA_WA : Z := Z.shiftl 1 8.
Definition SMMUV2_TCR_ORGN0_WB_RA_WA : Z := Z.shiftl 1 10.
Definition SMMUV2_TCR_SH0_IS : Z := Z.shiftl 3 12.
Definition SMMUV2_TCR_TG0_4K : Z := Z.shiftl 0 14.
Definition SMMUV2_TCR_PS_OFF : Z := 16.
Definition SMMUV2_TCR_PS_MSK : Z := Z.shiftl 7 SMMUV2_TCR_PS_OFF.

(** ** The driver *)

Definition smmu_sme_is_group (s : smmu_priv) (sme : Z) : outcome bool :=
  b ← bitmap_get (grp_bitmap s) sme; Ok (negb (b =? 0)).
Definition smmu_sme_get_ctx (s : smmu_priv) (sme : Z) : outcome Z :=
  v ← rd (S2CR (glbl_rs0 (hw s))) sme; Ok (S2CR_CBNDX v).
Definition smmu_sme_get_id (s : smmu_priv) (sme : Z) : outcome Z :=
  v ← rd (SMR (glbl_rs0 (hw s))) sme; Ok (SMMU_SMR_ID v).
Definition smmu_sme_get_mask (s : smmu_priv) (sme : Z) : outcome Z :=
  v ← rd (SMR (glbl_rs0 (hw s))) sme; Ok (SMMU_SMR_MASK v).

Definition ensure (b : bool) : outcome unit := if b then Ok tt else Halt HError.

(** [parange] is the variable [vmm_arch_init] sets. *)
Definition smmu_check_features (parange : Z) (s : smmu_priv) : outcome unit :=
  let r := glbl_rs0 (hw s) in
  let version := bit32_extract (IDR7 r) 4 4 in
  _ ← ensure (version =? 2);
  _ ← ensure (negb (Z.land (IDR0 r) SMMUV2_IDR0_S2TS_BIT =? 0));
  _ ← ensure (negb (Z.land (IDR0 r) SMMUV2_IDR0_SMS_BIT =? 0));
  _ ← ensure (negb (Z.land (IDR0 r) SMMUV2_IDR0_BTM_BIT =? 0));
  _ ← ensure (negb (Z.land (IDR2 r) SMMUV2_IDR2_PTFSv8_4kB_BIT =? 0));
  let pasize := bit32_extract (IDR2 r) 4 4 in
  let ipasize := bit32_extract (IDR2 r) 0 4 in
  if pasize <? parange then Halt HError
  else if ipasize <? parange then Halt HError
  else Ok tt.

Definition smmu_alloc_ctxbnk (s : smmu_priv) : outcome (Z * smmu_priv) :=
  l ← spin_lock (ctx_lock s);
  nth ← bitmap_find_nth (ctxbank_bitmap s) (ctx_num s) 1 0 false;
  bm ← (if 0 <=? nth then bitmap_set (ctxbank_bitmap s) nth else Ok (ctxbank_bitmap s));
  Ok (nth, set_ctx (spin_unlock l) (ctx_num s) bm s).

Definition smmu_cb_ttba_offset (parange t0sz : Z) : outcome Z :=
  bits ← rd parange_table parange;
  Ok (if bits <? 44 then if (21 <=? t0sz) && (t0sz <=? 33) then 37 - t0sz else 12
      else if (16 <=? t0sz) && (t0sz <=? 24) then 28 - t0sz else 12).

Definition smmu_tcr (parange bits : Z) : Z :=
  let tcr := Z.land (Z.shiftl parange SMMUV2_TCR_PS_OFF) SMMUV2_TCR_PS_MSK in
  let tcr := Z.lor tcr SMMUV2_TCR_TG0_4K in
  let tcr := Z.lor tcr SMMUV2_TCR_ORGN0_WB_RA_WA in
  let tcr := Z.lor tcr SMMUV2_TCR_IRGN0_WB_RA_WA in
  let tcr := Z.lor tcr (SMMUV2_TCR_T0SZ (u64 (64 - bits))) in
  let tcr := Z.lor tcr SMMUV2_TCR_SH0_IS in
  Z.lor tcr (if bits <? 44 then SMMUV2_TCR_SL0_1 else SMMUV2_TCR_SL0_0).

Definition smmu_write_ctxbnk (parange ctx_id root_pt vm_id : Z) (s : smmu_priv) : outcome smmu_priv :=
  l ← spin_lock (ctx_lock s);
  b ← bitmap_get (ctxbank_bitmap s) ctx_id;
  if b =? 0 then Halt HError else
  let rs1 := glbl_rs1 (hw s) in
  cbar ← wr (CBAR rs1) ctx_id (u32 (SMMUV2_CBAR_VMID vm_id));
  cba2r ← wr (CBA2R rs1) ctx_id SMMUV2_CBAR_VA64;
  bits ← rd parange_table parange;
  off ← smmu_cb_ttba_offset parange (u64 (64 - bits));
  c ← rd (cntxt (hw s)) ctx_id;
  let ttbr := Z.land root_pt (SMMUV2_CB_TTBA off) in
  let sctlr := Z.lor (SMMUV2_SCTLR_CLEAR (SCTLR c)) SMMUV2_SCTLR_DEFAULT in
  cs ← wr (cntxt (hw s)) ctx_id (CntxtHw (Z.lor (SCTLR c) sctlr) ttbr (u32 (smmu_tcr parange bits)) (FSR c));
  Ok (set_ctx_lock (spin_unlock l) (set_cntxt cs (set_rs1 (Rs1Hw cbar cba2r) s))).

Definition smmu_alloc_sme (s : smmu_priv) : outcome (Z * smmu_priv) :=
  l ← spin_lock (sme_lock s);
  nth ← bitmap_find_nth (sme_bitmap s) (sme_num s) 1 0 false;
  bm ← (if 0 <=? nth then bitmap_set (sme_bitmap s) nth else Ok (sme_bitmap s));
  Ok (nth, set_sme_lock (spin_unlock l) (set_sme_bitmap bm s)).

(** The condition under which entry [sme] is merged with the new one. *)
Definition mergeable (s : smmu_priv) (sme mask sme_mask ctx : Z) (group : bool) : outcome bool :=
  let mask_r := Z.land mask sme_mask in
  g ← (if group then Ok true else smmu_sme_is_group s sme);
  if g && ((mask_r =? mask) || (mask_r =? sme_mask)) then
    c ← smmu_sme_get_ctx s sme; Ok (ctx =? c)
  else Ok false.

(** The loop over the entries from [sme] on, [n] of which are left; the bit of the
    next one is read before the bound is tested. *)
Fixpoint sme_loop (n : nat) (sme mask id ctx : Z) (group : bool) (s : smmu_priv) : outcome (bool * smmu_priv) :=
  __bit ← bitmap_get (sme_bitmap s) sme;
  match n with
  | O => Ok (false, s)
  | S n =>
      if __bit =? 0 then sme_loop n (sme + 1) mask id ctx group s else
      sme_mask ← smmu_sme_get_mask s sme;
      sme_id ← smmu_sme_get_id s sme;
      let diff_id := Z.land (Z.lxor sme_id id) (not32 (Z.lor mask sme_mask)) in
      if diff_id =? 0 then
        m ← mergeable s sme mask sme_mask ctx group;
        if (m : bool) then
          if sme_mask <? mask then
            bm ← bitmap_clear (sme_bitmap s) sme;
            sme_loop n (sme + 1) mask id ctx group (set_sme_bitmap bm s)
          else Ok (true, s)
        else Halt HError
      else sme_loop n (sme + 1) mask id ctx group s
  end.

Definition smmu_compatible_sme_exists (mask id ctx : Z) (group : bool) (s : smmu_priv) : outcome (bool * smmu_priv) :=
  l ← spin_lock (sme_lock s);
  '(included, s) ← sme_loop (Z.to_nat (sme_num s)) 0 mask id ctx group s;
  Ok (included, set_sme_lock (spin_unlock l) s).

Definition smmu_write_sme (sme mask id : Z) (group : bool) (s : smmu_priv) : outcome smmu_priv :=
  l ← spin_lock (sme_lock s);
  b ← bitmap_get (sme_bitmap s) sme;
  if b =? 0 then Halt HError else
  smr ← wr (SMR (glbl_rs0 (hw s))) sme (u32 (Z.shiftl mask 16));
  v ← rd smr sme;
  smr ← wr smr sme (Z.lor v (Z.land id SMMU_ID_MSK));
  v ← rd smr sme;
  smr ← wr smr sme (Z.lor v SMMUV2_SMR_VALID);
  grp ← (if group then bitmap_set (grp_bitmap s) sme else Ok (grp_bitmap s));
  Ok (set_sme_lock (spin_unlock l) (set_grp_bitmap grp (set_SMR smr s))).

Definition smmu_write_s2c (sme ctx_id : Z) (s : smmu_priv) : outcome smmu_priv :=
  l ← spin_lock (sme_lock s);
  b ← bitmap_get (ctxbank_bitmap s) ctx_id;
  if b =? 0 then Halt HError else
  b ← bitmap_get (sme_bitmap s) sme;
  if b =? 0 then Halt HError else
  v ← rd (S2CR (glbl_rs0 (hw s))) sme;
  let s2cr := S2CR_CLEAR v in
  let s2cr := Z.lor s2cr S2CR_DFLT in
  let s2cr := Z.lor s2cr (u32 (Z.land ctx_id S2CR_CBNDX_MASK)) in
  s2cr ← wr (S2CR (glbl_rs0 (hw s))) sme s2cr;
  Ok (set_sme_lock (spin_unlock l) (set_S2CR s2cr s)).

Section device.
(** What a write of [v] makes of a fault status register that holds [x]. *)
Variable w1c : Z -> Z -> Z.

Definition clear_cntxt (i : Z) (cs : list smmu_cntxt_hw) : outcome (list smmu_cntxt_hw) :=
  c ← rd cs i;
  wr cs i (CntxtHw 0 (TTBR0 c) (TCR c) (w1c (FSR c) (u32 (-1)))).

(** [base] is [platform.arch.smmu.base]. *)
Definition smmu_init (base parange : Z) (s : smmu_priv) : outcome smmu_priv :=
  let r := glbl_rs0 (hw s) in
  let pg_size := if Z.land (IDR1 r) SMMUV2_IDR1_PAGESIZE_BIT =? 0 then 0x1000 else 0x10000 in
  let num_page := Z.shiftl 1 (bit32_extract (IDR1 r) 28 3 + 1) in
  let ctx_bank_num := bit32_extract (IDR1 r) 0 8 in
  let s := set_ptrs base (u64 (base + pg_size)) (u64 (base + num_page * pg_size)) s in
  _ ← smmu_check_features parange s;
  cb ← bitmap_clear_consecutive (ctxbank_bitmap s) 0 ctx_bank_num;
  let s := set_ctx SPINLOCK_INITVAL ctx_bank_num cb s in
  let num := Z.land (IDR0 r) SMMUV2_IDR0_MASK in
  sb ← bitmap_clear_consecutive (sme_bitmap s) 0 num;
  gb ← bitmap_clear_consecutive (grp_bitmap s) 0 num;
  let s := set_sme SPINLOCK_INITVAL num sb gb s in
  let s := set_GFSRs (w1c (GFSR r) (GFSR r)) (w1c (NSGFSR r) (NSGFSR r)) s in
  smr ← for_loop (Z.to_nat (sme_num s)) 0 (fun i l => wr l i 0) (SMR (glbl_rs0 (hw s)));
  let s := set_SMR smr s in
  cs ← for_loop (Z.to_nat (ctx_num s)) 0 clear_cntxt (cntxt (hw s));
  let s := set_cntxt cs s in
  let cr0 := SMMUV2_CR0_CLEAR (CR0 (glbl_rs0 (hw s))) in
  let cr0 := Z.lor cr0 (Z.lor SMMUV2_CR0_USFCFG SMMUV2_CR0_SMCFCFG) in
  let cr0 := Z.land cr0 (not32 SMMUV2_CR0_CLIENTPD) in
  Ok (set_CR0 cr0 s).

(** ** [iommu.c] *)

(** [vm->io.mmu], and of the VM its number and the root of its page table. *)
Record iommu_vm_arch := IommuVm { global_mask : Z; ctx_id : Z }.

(** The test [ctx_id < 0] is of a [size_t]. *)
Definition iommu_vm_arch_init_ctx (parange vm_id rootpt : Z) (io : iommu_vm_arch) (s : smmu_priv) : outcome (Z * iommu_vm_arch * smmu_priv) :=
  if ctx_id io <? 0 then
    '(ctx, s) ← smmu_alloc_ctxbnk s;
    if 0 <=? ctx then
      s ← smmu_write_ctxbnk parange ctx rootpt vm_id s;
      Ok (ctx, IommuVm (global_mask io) ctx, s)
    else Ok (ctx, io, s)
  else Ok (ctx_id io, io, s).

(** The tail of [iommu_vm_arch_add], from the search for a compatible entry on.  The
    program gets here only with [ctx] = [(size_t)-1] ([iommu_never_adds] below). *)
Definition add_entry (mask id ctx : Z) (group : bool) (s : smmu_priv) : outcome (bool * smmu_priv) :=
  '(included, s) ← smmu_compatible_sme_exists mask id ctx group s;
  if (included : bool) then Ok (true, s) else
  '(sme, s) ← smmu_alloc_sme s;
  if sme <? 0 then Ok (false, s) else
  s ← smmu_write_sme sme mask id group s;
  s ← smmu_write_s2c sme ctx s;
  Ok (true, s).

Definition iommu_vm_arch_add (parange vm_id rootpt mask id : Z) (io : iommu_vm_arch) (s : smmu_priv) : outcome (bool * iommu_vm_arch * smmu_priv) :=
  '(vm_ctx, io, s) ← iommu_vm_arch_init_ctx parange vm_id rootpt io s;
  let prep_mask := Z.lor (Z.land mask SMMU_ID_MSK) (global_mask io) in
  let prep_id := Z.land id SMMU_ID_MSK in
  let group := negb (mask =? 0) in
  if vm_ctx <? 0 then Ok (false, io, s) else
  '(r, s) ← add_entry prep_mask prep_id vm_ctx group s;
  Ok (r, io, s).

Definition iommu_arch_vm_add_device (parange vm_id rootpt id : Z) (io : iommu_vm_arch) (s : smmu_priv) : outcome (bool * iommu_vm_arch * smmu_priv) :=
  iommu_vm_arch_add parange vm_id rootpt 0 id io s.

Fixpoint add_groups (parange vm_id rootpt : Z) (groups : list (Z * Z)) (io : iommu_vm_arch) (s : smmu_priv) : outcome (bool * iommu_vm_arch * smmu_priv) :=
  match groups with
  | [] => Ok (true, io, s)
  | (mask, id) :: groups =>
      '(r, io, s) ← iommu_vm_arch_add parange vm_id rootpt mask id io s;
      if (r : bool) then add_groups parange vm_id rootpt groups io s else Ok (false, io, s)
  end.

(** [config_mask] and [plat_mask] are the configured masks of the VM and of the
    platform; [groups] is [config->arch.smmu.groups]. *)
Definition iommu_arch_vm_init (parange vm_id rootpt config_mask plat_mask : Z) (groups : list (Z * Z)) (s : smmu_priv) : outcome (bool * iommu_vm_arch * smmu_priv) :=
  add_groups parange vm_id rootpt groups (IommuVm (Z.lor config_mask plat_mask) (u64 (-1))) s.

Definition iommu_arch_init (cpu_is_master : bool) (base parange : Z) (s : smmu_priv) : outcome (bool * smmu_priv) :=
  if cpu_is_master && negb (base =? 0) then
    s ← smmu_init base parange s; Ok (true, s)
  else Ok (false, s).

End device.

(** ** What the hardware does with a stream id *)

(** Stream [sid] is one of those entry ([mask], [id]) stands for. *)
Definition in_stream (mask id sid : Z) : bool := Z.land (Z.lxor id sid) (Z.lnot mask) =? 0.

Definition smr (s : smmu_priv) (k : Z) : Z := default 0 (SMR (glbl_rs0 (hw s)) !! Z.to_nat k).
Definition s2cr (s : smmu_priv) (k : Z) : Z := default 0 (S2CR (glbl_rs0 (hw s)) !! Z.to_nat k).
Definition sid_mask (s : smmu_priv) (k : Z) : Z := SMMU_SMR_MASK (smr s k).
Definition sid_id (s : smmu_priv) (k : Z) : Z := SMMU_SMR_ID (smr s k).
Definition bank (s : smmu_priv) (k : Z) : Z := S2CR_CBNDX (s2cr s k).
Definition valid (s : smmu_priv) (k : Z) : bool := Z.testbit (smr s k) 31.
Definition matches (s : smmu_priv) (k sid : Z) : bool := valid s k && in_stream (sid_mask s k) (sid_id s k) sid.

(** Some valid entry sends stream [sid] to context bank [c]. *)
Definition reaches (s : smmu_priv) (sid c : Z) : Prop :=
  exists k, 0 <= k < sme_num s /\ matches s k sid = true /\ bank s k = c.

(** The SMMU translates stream [sid] with bank [c]: with [SMCFCFG] set, as [smmu_init]
    leaves it, only when exactly one entry matches; it faults a transaction that
    several match. *)
Definition routes (s : smmu_priv) (sid c : Z) : Prop :=
  exists k, 0 <= k < sme_num s /\ matches s k sid = true /\ bank s k = c /\
    forall j, 0 <= j < sme_num s -> matches s j sid = true -> j = k.

Lemma routes_reaches s sid c : routes s sid c -> reaches s sid c.
Proof. intros (k & Hk & Hm & Hc & _). by exists k. Qed.

(** Entry [k] is in use. *)
Definition live (s : smmu_priv) (k : Z) : Prop := 0 <= k < sme_num s /\ bit (sme_bitmap s) k = true.

(** A bitmap of 128 bits. *)
Definition map128 (b : bitmap_t) : Prop := bitmap_wf b /\ nbits b = 128.

(** Entries in use are valid and stand for disjoint sets of streams.  An entry that
    has been merged stays valid in hardware; the streams it stands for belong to
    an entry in use of the same context bank. *)
Record smmu_ok (s : smmu_priv) : Prop := {
  ok_smr : length (SMR (glbl_rs0 (hw s))) = 128%nat;
  ok_s2cr : length (S2CR (glbl_rs0 (hw s))) = 128%nat;
  ok_num : 0 < sme_num s < SME_MAX_NUM;
  ok_sme : map128 (sme_bitmap s);
  ok_grp : map128 (grp_bitmap s);
  ok_ctx : map128 (ctxbank_bitmap s);
  ok_lock : unlocked (sme_lock s);
  ok_valid : forall k, live s k -> valid s k = true;
  ok_disjoint : forall i j sid, live s i -> live s j -> matches s i sid = true -> matches s j sid = true -> i = j;
  ok_stale : forall k, 0 <= k < sme_num s -> valid s k = true ->
    exists i, live s i /\ bank s i = bank s k /\ forall sid, matches s k sid = true -> matches s i sid = true;
}.

(** *** Sets of streams *)

Lemma in_stream_bits mask id sid :
  in_stream mask id sid = true <-> forall n, 0 <= n -> Z.testbit mask n = true \/ Z.testbit id n = Z.testbit sid n.
Proof.
  unfold in_stream. rewrite Z.eqb_eq. split.
  - intros H n Hn. apply (f_equal (fun z => Z.testbit z n)) in H.
    rewrite Z.land_spec, Z.lxor_spec, Z.lnot_spec, Z.bits_0 in H by done.
    destruct (Z.testbit mask n), (Z.testbit id n), (Z.testbit sid n); auto; done.
  - intros H. apply Z.bits_inj'. intros n Hn. rewrite Z.land_spec, Z.lxor_spec, Z.lnot_spec, Z.bits_0 by done.
    destruct (H n Hn) as [-> | ->]; [by rewrite andb_false_r|by rewrite xorb_nilpotent].
Qed.

Lemma in_stream_self mask id : in_stream mask id id = true.
Proof. apply in_stream_bits. auto. Qed.

(** Two entries have a stream in common: the test of the driver. *)
Definition meet (m1 i1 m2 i2 : Z) : bool := Z.land (Z.lxor i2 i1) (not32 (Z.lor m1 m2)) =? 0.

Definition id15 (x : Z) : Prop := 0 <= x < 2 ^ 15.

Lemma id15_high x n : id15 x -> 15 <= n -> Z.testbit x n = false.
Proof. intros Hx Hn. apply (testbit_small x 15); [done|lia]. Qed.

Lemma meet_bits m1 i1 m2 i2 : id15 i1 -> id15 i2 ->
  meet m1 i1 m2 i2 = true <->
  forall n, 0 <= n -> Z.testbit m1 n = true \/ Z.testbit m2 n = true \/ Z.testbit i1 n = Z.testbit i2 n.
Proof.
  intros H1 H2. unfold meet. rewrite Z.eqb_eq. split.
  - intros H n Hn. destruct (Z.ltb_spec n 15).
    2: { rewrite (id15_high i1), (id15_high i2) by done. auto. }
    apply (f_equal (fun z => Z.testbit z n)) in H.
    rewrite Z.land_spec, Z.lxor_spec, testbit_not32, Z.lor_spec, Z.bits_0 in H by done.
    destruct (Z.ltb_spec n 32); [|lia].
    destruct (Z.testbit m1 n), (Z.testbit m2 n), (Z.testbit i1 n), (Z.testbit i2 n); auto; done.
  - intros H. apply Z.bits_inj'. intros n Hn. rewrite Z.land_spec, Z.lxor_spec, testbit_not32, Z.lor_spec, Z.bits_0 by done.
    destruct (H n Hn) as [-> |[-> | ->]]; [by rewrite !andb_false_r|by rewrite orb_true_r, !andb_false_r|by rewrite xorb_nilpotent].
Qed.

Lemma meet_shared m1 i1 m2 i2 sid : id15 i1 -> id15 i2 ->
  in_stream m1 i1 sid = true -> in_stream m2 i2 sid = true -> meet m1 i1 m2 i2 = true.
Proof.
  rewrite !in_stream_bits. intros Hi1 Hi2 H1 H2. apply meet_bits; [done..|]. intros n Hn.
  destruct (H1 n Hn) as [|E1], (H2 n Hn) as [|E2]; auto. right. right. congruence.
Qed.

(** A stream in the intersection: the bits the first entry fixes are its own, the
    others the second's. *)
Lemma meet_stream m1 i1 m2 i2 : id15 i1 -> id15 i2 -> meet m1 i1 m2 i2 = true ->
  exists sid, in_stream m1 i1 sid = true /\ in_stream m2 i2 sid = true.
Proof.
  intros H1 H2 Hm. rewrite meet_bits in Hm by done.
  exists (Z.lor (Z.land i1 (Z.lnot m1)) (Z.land i2 m1)).
  split; apply in_stream_bits; intros n Hn; specialize (Hm n Hn);
    rewrite Z.lor_spec, !Z.land_spec, Z.lnot_spec by done;
    destruct (Z.testbit m1 n), (Z.testbit m2 n), (Z.testbit i1 n), (Z.testbit i2 n); cbn; intuition congruence.
Qed.

(** An entry with fewer open bits that meets another is included in it. *)
Lemma meet_included m1 i1 m2 i2 sid : id15 i1 -> id15 i2 -> meet m1 i1 m2 i2 = true -> Z.land m1 m2 = m1 ->
  in_stream m1 i1 sid = true -> in_stream m2 i2 sid = true.
Proof.
  rewrite !in_stream_bits. intros Hi1 Hi2 Hm Hs H n Hn. rewrite meet_bits in Hm by done.
  apply (f_equal (fun z => Z.testbit z n)) in Hs. rewrite Z.land_spec in Hs.
  specialize (Hm n Hn). specialize (H n Hn).
  destruct (Z.testbit m1 n), (Z.testbit m2 n), (Z.testbit i1 n), (Z.testbit i2 n), (Z.testbit sid n); cbn in *; intuition congruence.
Qed.

Lemma meet_sym m1 i1 m2 i2 : meet m1 i1 m2 i2 = meet m2 i2 m1 i1.
Proof. unfold meet. by rewrite Z.lxor_comm, Z.lor_comm. Qed.

(** *** Fields *)

Lemma extract_bits v off len n : 0 <= off < 32 -> 0 < len <= 32 -> 0 <= n ->
  Z.testbit (bit32_extract v off len) n = (n <? len) && Z.testbit v (n + off).
Proof.
  intros Ho Hl Hn. unfold bit32_extract, PRE_extract. change (Z.of_nat 32) with 32. rewrite Z.mod_small by lia.
  rewrite Z.land_spec, Z.shiftr_spec, BIT32_MASK_testbit by lia.
  destruct (Z.ltb_spec n len), (Z.leb_spec 0 n), (Z.ltb_spec n (0 + len)), (Z.ltb_spec n 32); try lia; cbn; by rewrite ?andb_true_r, ?andb_false_r.
Qed.

Lemma extract_range v off len : 0 <= off < 32 -> 0 < len < 32 -> 0 <= bit32_extract v off len < 2 ^ len.
Proof.
  intros Ho Hl. assert (0 <= bit32_extract v off len).
  { unfold bit32_extract, PRE_extract. apply Z.land_nonneg. right. apply u32_range. }
  split; [done|]. apply bits_bound; [lia|done|]. intros n Hn. rewrite extract_bits by lia. destruct (Z.ltb_spec n len); [lia|done].
Qed.

Lemma sid_mask_range s k : id15 (sid_mask s k).
Proof. unfold id15, sid_mask, SMMU_SMR_MASK. apply extract_range; lia. Qed.
Lemma sid_id_range s k : id15 (sid_id s k).
Proof. unfold id15, sid_id, SMMU_SMR_ID. apply extract_range; lia. Qed.
Lemma bank_range s k : 0 <= bank s k < 256.
Proof. unfold bank, S2CR_CBNDX. apply (extract_range _ 0 8); lia. Qed.

(** The value [smmu_write_sme] stores. *)
Definition smr_value (mask id : Z) : Z :=
  Z.lor (Z.lor (u32 (Z.shiftl mask 16)) (Z.land id SMMU_ID_MSK)) SMMUV2_SMR_VALID.

Lemma smr_value_bits mask id n : id15 mask -> id15 id -> 0 <= n -> Z.testbit (smr_value mask id) n =
  (n =? 31) || (if n <? 16 then Z.testbit id n else (n <? 31) && Z.testbit mask (n - 16)).
Proof.
  intros Hm Hi Hn. unfold smr_value, SMMUV2_SMR_VALID. change SMMU_ID_MSK with (2 ^ 15 - 1).
  rewrite !Z.lor_spec, testbit_u32, Z.land_spec, !Z.shiftl_spec, testbit_ones_pow, testbit_1 by lia.
  destruct (Z.eqb_spec (n - 31) 0), (Z.eqb_spec n 31), (Z.ltb_spec n 16), (Z.ltb_spec n 32), (Z.ltb_spec n 15), (Z.ltb_spec n 31); try lia;
    rewrite ?orb_true_r, ?andb_false_r, ?andb_true_r, ?orb_false_r; cbn [orb andb]; try done;
    rewrite ?(Z.testbit_neg_r mask) by lia; try done.
  1: { by rewrite (id15_high id) by (done || lia). }
  all: by rewrite (id15_high mask) by (done || lia).
Qed.

Lemma smr_value_fields mask id : id15 mask -> id15 id ->
  SMMU_SMR_MASK (smr_value mask id) = mask /\ SMMU_SMR_ID (smr_value mask id) = id /\ Z.testbit (smr_value mask id) 31 = true.
Proof.
  intros Hm Hi. split_and!.
  - apply (bits_eq_u 15); [lia|unfold SMMU_SMR_MASK; apply extract_range; lia|done|]. intros n Hn. unfold SMMU_SMR_MASK.
    rewrite extract_bits, smr_value_bits by (done || lia).
    destruct (Z.ltb_spec n 15), (Z.eqb_spec (n + 16) 31), (Z.ltb_spec (n + 16) 16), (Z.ltb_spec (n + 16) 31); try lia.
    cbn [orb andb]. f_equal. lia.
  - apply (bits_eq_u 15); [lia|unfold SMMU_SMR_ID; apply extract_range; lia|done|]. intros n Hn. unfold SMMU_SMR_ID.
    rewrite extract_bits, smr_value_bits by (done || lia). rewrite Z.add_0_r.
    by destruct (Z.ltb_spec n 15), (Z.eqb_spec n 31), (Z.ltb_spec n 16); try lia.
  - by rewrite smr_value_bits.
Qed.

Lemma s2cr_bank v ctx : 0 <= ctx < 256 ->
  S2CR_CBNDX (Z.lor (Z.lor (S2CR_CLEAR v) S2CR_DFLT) (u32 (Z.land ctx S2CR_CBNDX_MASK))) = ctx.
Proof.
  intros Hc. apply (bits_eq_u 8); [lia|unfold S2CR_CBNDX; apply extract_range; lia|lia|]. intros n Hn. unfold S2CR_CBNDX, S2CR_CLEAR, S2CR_DFLT.
  change S2CR_IMPL_MASK with (Z.shiftl 3 30). change S2CR_CBNDX_MASK with (2 ^ 8 - 1).
  rewrite extract_bits, Z.add_0_r, !Z.lor_spec, testbit_u32, !Z.land_spec, Z.bits_0, Z.shiftl_spec, testbit_ones_pow by lia.
  rewrite (Z.testbit_neg_r 3) by lia.
  destruct (Z.ltb_spec n 8), (Z.ltb_spec n 32); try lia. by rewrite andb_false_r, andb_true_r.
Qed.

Lemma rd_smr s k : length (SMR (glbl_rs0 (hw s))) = 128%nat -> 0 <= k < 128 -> rd (SMR (glbl_rs0 (hw s))) k = Ok (smr s k).
Proof.
  intros Hl Hk. destruct (rd_in_range (SMR (glbl_rs0 (hw s))) k) as [x Hx]; [lia|]. rewrite Hx. apply rd_Ok in Hx as [_ Hx].
  unfold smr. by rewrite Hx.
Qed.

Lemma rd_s2cr s k : length (S2CR (glbl_rs0 (hw s))) = 128%nat -> 0 <= k < 128 -> rd (S2CR (glbl_rs0 (hw s))) k = Ok (s2cr s k).
Proof.
  intros Hl Hk. destruct (rd_in_range (S2CR (glbl_rs0 (hw s))) k) as [x Hx]; [lia|]. rewrite Hx. apply rd_Ok in Hx as [_ Hx].
  unfold s2cr. by rewrite Hx.
Qed.

(** ** The search for a compatible entry *)

Section search.
Context (s : smmu_priv) (mask id ctx : Z) (group : bool).
Hypotheses (Lsmr : length (SMR (glbl_rs0 (hw s))) = 128%nat) (Ls2cr : length (S2CR (glbl_rs0 (hw s))) = 128%nat)
  (Hgrp : map128 (grp_bitmap s)) (Hmask : id15 mask).

(** The new entry and entry [k] have a stream in common. *)
Definition hit (k : Z) : bool := meet mask id (sid_mask s k) (sid_id s k).

(** When the merge is allowed, one of the masks contains the other and the bank is
    the same. *)
Lemma mergeable_run bm k : 0 <= k < 128 -> exists m, mergeable (set_sme_bitmap bm s) k mask (sid_mask s k) ctx group = Ok m /\
  (m = true -> bank s k = ctx /\ (Z.land mask (sid_mask s k) = mask \/ Z.land mask (sid_mask s k) = sid_mask s k)).
Proof.
  intros Hk. unfold mergeable, smmu_sme_is_group, smmu_sme_get_ctx. cbn [hw grp_bitmap set_sme_bitmap set_sme].
  destruct Hgrp as [_ Hn]. rewrite bitmap_get_Ok by lia. rewrite rd_s2cr by done. mstep.
  set (g := if group then Ok true else _). assert (exists b, g = Ok b) as [b ->] by (unfold g; destruct group; eauto). mstep.
  destruct (Z.eqb_spec (Z.land mask (sid_mask s k)) mask) as [E1|_], (Z.eqb_spec (Z.land mask (sid_mask s k)) (sid_mask s k)) as [E2|_], b;
    cbn [andb orb]; eexists; (split; [reflexivity|]); try done; intros He%Z.eqb_eq; eauto.
Qed.

(** The larger of two masks one of which contains the other contains the other. *)
Lemma land_le_l a b : 0 <= a -> 0 <= b -> Z.land a b <= a.
Proof.
  intros Ha Hb. rewrite <- (Z.land_diag a) at 2. apply Z.ldiff_le; [by apply Z.land_nonneg; left|].
  apply Z.bits_inj'. intros n Hn. rewrite Z.ldiff_spec, !Z.land_spec, Z.bits_0. by destruct (Z.testbit a n), (Z.testbit b n).
Qed.

Definition search_result (bm : bitmap_t) (lo n : Z) (r : outcome (bool * smmu_priv)) : Prop :=
  match r with
  | Halt h => h = HError /\ exists k, lo <= k < lo + n /\ bit bm k = true /\ hit k = true
  | Ok (included, s') => exists bm', s' = set_sme_bitmap bm' s /\ map128 bm' /\
      (forall k, 0 <= k -> bit bm' k = true -> bit bm k = true) /\
      (forall k, 0 <= k -> bit bm k = true -> bit bm' k = false ->
         lo <= k < lo + n /\ hit k = true /\ Z.land (sid_mask s k) mask = sid_mask s k /\ bank s k = ctx) /\
      if included then exists k, lo <= k < lo + n /\ bit bm' k = true /\ hit k = true /\ Z.land mask (sid_mask s k) = mask /\ bank s k = ctx
      else forall k, lo <= k < lo + n -> bit bm' k = true -> hit k = false
  end.

(** One entry further down. *)
Lemma search_result_skip bm lo n r : 0 <= lo -> 0 <= n -> (bit bm lo = true -> hit lo = false) ->
  search_result bm (lo + 1) n r -> search_result bm lo (n + 1) r.
Proof.
  intros Hl Hn Hs. destruct r as [[inc s']|h]; cbn.
  - intros (bm' & Es & Hm & Hsub & Hcl & Hi). exists bm'. split_and!; [done..| |].
    + intros k Hk Hb Hb'. destruct (Hcl k Hk Hb Hb') as (Hr & Hh). split; [lia|done].
    + destruct inc; [destruct Hi as (k & Hk & Hb); exists k; split; [lia|done]|].
      intros k Hk Hb. destruct (decide (k = lo)) as [-> |]; [by apply Hs, Hsub|apply Hi; [lia|done]].
  - intros [-> (k & Hk & Hb)]. split; [done|]. exists k. split; [lia|done].
Qed.

Lemma search_result_clear bm bm1 lo n r : 0 <= lo -> 0 <= n -> bit bm lo = true -> hit lo = true ->
  Z.land (sid_mask s lo) mask = sid_mask s lo -> bank s lo = ctx ->
  (forall k, 0 <= k -> bit bm1 k = negb (lo =? k) && bit bm k) ->
  search_result bm1 (lo + 1) n r -> search_result bm lo (n + 1) r.
Proof.
  intros Hl Hn Hb0 Hh0 Hm0 Hc0 H1. destruct r as [[inc s']|h]; cbn.
  - intros (bm' & Es & Hm & Hsub & Hcl & Hi). exists bm'. split_and!; [done..| | |].
    + intros k Hk Hb. specialize (Hsub k Hk Hb). rewrite H1 in Hsub by done. by apply andb_true_iff in Hsub as [_ ?].
    + intros k Hk Hb Hb'. destruct (Z.eqb_spec lo k) as [<-|Hne]; [split; [lia|done]|].
      destruct (Hcl k Hk) as (Hr & Hh); [rewrite H1 by done; destruct (Z.eqb_spec lo k); [done|exact Hb]|done|]. split; [lia|done].
    + destruct inc; [destruct Hi as (k & Hk & Hb); exists k; split; [lia|done]|].
      intros k Hk Hb. destruct (decide (k = lo)) as [-> |]; [|apply Hi; [lia|done]].
      specialize (Hsub lo Hl Hb). rewrite H1, Z.eqb_refl in Hsub by done. done.
  - intros [-> (k & Hk & Hb & Hh)]. split; [done|]. exists k. split; [lia|]. split; [|done].
    rewrite H1 in Hb by lia. by apply andb_true_iff in Hb as [_ ?].
Qed.

Lemma sme_loop_spec n lo bm : map128 bm -> 0 <= lo -> lo + Z.of_nat n < 128 ->
  search_result bm lo (Z.of_nat n) (sme_loop n lo mask id ctx group (set_sme_bitmap bm s)).
Proof.
  revert lo bm. induction n as [|n IH]; intros lo bm Hbm Hlo Hn.
  - cbn [sme_loop]. destruct Hbm as [Hw Hnb]. cbn [sme_bitmap set_sme_bitmap set_sme]. rewrite bitmap_get_Ok by lia. mstep.
    exists bm. split_and!; try done; intros; [congruence|lia].
  - rewrite Nat2Z.inj_succ, <- Z.add_1_r. cbn [sme_loop]. destruct Hbm as [Hw Hnb].
    cbn [sme_bitmap set_sme_bitmap set_sme]. rewrite bitmap_get_Ok by lia. mstep.
    destruct (bit bm lo) eqn:Hb; [cbn [Z.eqb]|apply search_result_skip; [lia..|congruence|apply IH; [done|lia..]]].
    unfold smmu_sme_get_mask, smmu_sme_get_id. cbn [hw set_sme_bitmap set_sme]. rewrite rd_smr by (done || lia). mstep.
    change (SMMU_SMR_MASK (smr s lo)) with (sid_mask s lo). change (SMMU_SMR_ID (smr s lo)) with (sid_id s lo).
    change (Z.land (Z.lxor (sid_id s lo) id) (not32 (Z.lor mask (sid_mask s lo))) =? 0) with (hit lo).
    destruct (hit lo) eqn:Hh; [|apply search_result_skip; [lia..|done|apply IH; [done|lia..]]].
    destruct (mergeable_run bm lo ltac:(lia)) as (m & -> & Hm). mstep. destruct m.
    2: { cbn. split; [done|]. exists lo. split; [lia|done]. }
    destruct (Hm eq_refl) as [Hc Hor]. pose proof (sid_mask_range s lo) as Hr. unfold id15 in Hr, Hmask.
    destruct (Z.ltb_spec (sid_mask s lo) mask).
    + destruct (bitmap_clear_spec bm lo Hw ltac:(lia)) as (bm1 & -> & Hw1 & Hn1 & Hb1). mstep.
      apply (search_result_clear bm bm1); try done; try lia.
      * rewrite Z.land_comm. destruct Hor as [E|E]; [|done]. pose proof (land_le_l (sid_mask s lo) mask). rewrite Z.land_comm in E. lia.
      * apply IH; [by split; [|lia]|lia..].
    + cbn. exists bm. split_and!; try done.
      * intros k Hk Hb1 Hb2. congruence.
      * exists lo. split_and!; try done; try lia. destruct Hor as [E|E]; [done|]. pose proof (land_le_l mask (sid_mask s lo)).
        rewrite E. lia.
Qed.

End search.

(** ** Adding an entry *)

(** Entries in use decide where a stream goes. *)
Lemma reaches_live s sid c : smmu_ok s -> reaches s sid c <-> exists i, live s i /\ matches s i sid = true /\ bank s i = c.
Proof.
  intros Hok. split.
  - intros (k & Hk & Hm & Hc). pose proof Hm as [Hv _]%andb_true_iff.
    destruct (ok_stale s Hok k Hk Hv) as (i & Hl & Hb & Hi). exists i. split_and!; [done|by apply Hi|congruence].
  - intros (i & [Hi _] & Hm & Hc). exists i. done.
Qed.

Lemma matches_ext s s' k sid : smr s' k = smr s k -> matches s' k sid = matches s k sid.
Proof. intros E. unfold matches, valid, sid_mask, sid_id. by rewrite E. Qed.

(** [s'] is [s] with entry [e], free in [bm'], programmed for the streams
    ([mask], [id]) and bank [ctx]; [bm'] is what the search has left of the
    entries in use. *)
Record entry_added (s s' : smmu_priv) (bm' : bitmap_t) (e mask id ctx : Z) : Prop := {
  ea_num : sme_num s' = sme_num s;
  ea_e : 0 <= e < sme_num s;
  ea_free : bit bm' e = false;
  ea_live : forall k, live s' k <-> k = e \/ (0 <= k < sme_num s /\ bit bm' k = true);
  ea_smr : forall k, 0 <= k -> smr s' k = if k =? e then smr_value mask id else smr s k;
  ea_bank : forall k, 0 <= k -> bank s' k = if k =? e then ctx else bank s k;
}.

Section added.
Context (s s' : smmu_priv) (bm' : bitmap_t) (e mask id ctx : Z).
Hypotheses (Hok : smmu_ok s) (Hm : id15 mask) (Hi : id15 id) (Hadd : entry_added s s' bm' e mask id ctx).
Hypothesis Hsub : forall k, 0 <= k -> bit bm' k = true -> bit (sme_bitmap s) k = true.
Hypothesis Hclear : forall k, 0 <= k -> bit (sme_bitmap s) k = true -> bit bm' k = false ->
  hit s mask id k = true /\ Z.land (sid_mask s k) mask = sid_mask s k /\ bank s k = ctx.
Hypothesis Hmiss : forall k, 0 <= k < sme_num s -> bit bm' k = true -> hit s mask id k = false.

Lemma added_new sid : matches s' e sid = in_stream mask id sid.
Proof.
  destruct Hadd as [_ He _ _ Hs _]. destruct (smr_value_fields mask id Hm Hi) as (E1 & E2 & E3).
  unfold matches, valid, sid_mask, sid_id. rewrite Hs, Z.eqb_refl, E1, E2, E3 by lia. done.
Qed.

Lemma added_old k sid : 0 <= k -> k <> e -> matches s' k sid = matches s k sid.
Proof.
  intros Hk Hne. apply matches_ext. destruct Hadd as [_ _ _ _ Hs _]. rewrite Hs by done. by destruct (Z.eqb_spec k e).
Qed.

(** An entry that has been merged is included in the new one, *)
Lemma added_cleared k sid : live s k -> bit bm' k = false -> matches s k sid = true -> matches s' e sid = true /\ bank s k = bank s' e.
Proof.
  intros [Hk Hb] Hb' Hmk. destruct (Hclear k ltac:(lia) Hb Hb') as (Hh & Hl & Hc). rewrite added_new.
  apply andb_true_iff in Hmk as [_ Hmk]. split.
  - eapply meet_included; [apply sid_id_range|exact Hi| |exact Hl|exact Hmk]. by rewrite meet_sym.
  - destruct Hadd as [_ He _ _ _ Hbk]. rewrite Hbk, Z.eqb_refl by lia. done.
Qed.

(** and one that has not been shares no stream with it. *)
Lemma added_kept k sid : 0 <= k < sme_num s -> bit bm' k = true -> matches s' e sid = true -> matches s' k sid = true -> k = e.
Proof.
  intros Hk Hb He Hmk. destruct (Z.eqb_spec k e) as [|Hne]; [done|exfalso]. rewrite added_new in He. rewrite added_old in Hmk by lia.
  apply andb_true_iff in Hmk as [_ Hmk]. pose proof (Hmiss k Hk Hb) as Hh. unfold hit in Hh.
  rewrite (meet_shared mask id (sid_mask s k) (sid_id s k) sid) in Hh; [done..|apply sid_id_range|done|done].
Qed.

Lemma added_bank_old k : 0 <= k -> k <> e -> bank s' k = bank s k.
Proof. intros Hk Hne. destruct Hadd as [_ _ _ _ _ Hbk]. rewrite Hbk by done. by destruct (Z.eqb_spec k e). Qed.

Lemma added_disjoint i j sid : live s' i -> live s' j -> matches s' i sid = true -> matches s' j sid = true -> i = j.
Proof.
  intros Li Lj Mi Mj. pose proof Hadd as [_ He Hf Hl _ _]. apply Hl in Li, Lj.
  destruct Li as [-> |[Hi1 Bi]], Lj as [-> |[Hj Bj]]; [done|symmetry; by eapply added_kept|by eapply added_kept|].
  assert (i <> e) by congruence. assert (j <> e) by congruence. rewrite added_old in Mi, Mj by lia.
  apply (ok_disjoint s Hok i j sid); try done; (split; [done|]); apply Hsub; [lia|done|lia|done].
Qed.

Lemma added_valid k : live s' k -> valid s' k = true.
Proof.
  intros Lk. pose proof Hadd as [_ He Hf Hl Hs _]. apply Hl in Lk. unfold valid. destruct (Z.eqb_spec k e) as [-> |Hne].
  - rewrite Hs, Z.eqb_refl by lia. by apply smr_value_fields.
  - destruct Lk as [|[Hk Bk]]; [done|]. rewrite Hs by lia. destruct (Z.eqb_spec k e); [done|]. apply (ok_valid s Hok). split; [done|]. by apply Hsub; [lia|].
Qed.

Lemma added_stale k : 0 <= k < sme_num s' -> valid s' k = true ->
  exists i, live s' i /\ bank s' i = bank s' k /\ forall sid, matches s' k sid = true -> matches s' i sid = true.
Proof.
  intros Hk Hv. pose proof Hadd as [En He Hf Hl Hs _]. rewrite En in Hk. destruct (Z.eqb_spec k e) as [-> |Hne].
  { exists e. split_and!; [by apply Hl; left|done|done]. }
  assert (valid s k = true) as Hv0. { unfold valid in *. rewrite Hs in Hv by lia. by destruct (Z.eqb_spec k e). }
  destruct (ok_stale s Hok k Hk Hv0) as (i & [Hi1 Bi] & Hb & Hc). destruct (bit bm' i) eqn:Bi'.
  - assert (i <> e) by congruence. exists i. split; [by apply Hl; right|]. split; [rewrite !added_bank_old by lia; done|].
    intros sid. rewrite !added_old by lia. apply Hc.
  - exists e. split; [by apply Hl; left|]. split.
    + destruct (Hclear i ltac:(lia) Bi Bi') as (_ & _ & E). rewrite (added_bank_old k) by lia. destruct Hadd as [_ _ _ _ _ Hbk].
      rewrite Hbk, Z.eqb_refl by lia. congruence.
    + intros sid. rewrite (added_old k) by lia. intros Hsid. apply (added_cleared i); [done..|by apply Hc].
Qed.

(** Where the streams go afterwards. *)
Lemma added_reaches sid c : smmu_ok s' -> reaches s' sid c <-> if in_stream mask id sid then c = ctx else reaches s sid c.
Proof.
  intros Hok'. rewrite reaches_live by done. pose proof Hadd as [En He Hf Hl _ Hbk]. rewrite <- (added_new sid).
  assert (bank s' e = ctx) as Hbe by (by rewrite Hbk, Z.eqb_refl by lia). assert (live s' e) as He' by (by apply Hl; left).
  destruct (matches s' e sid) eqn:Hme.
  - split; [|intros ->; exists e; done]. intros (i & Li & Mi & <-). by rewrite (added_disjoint i e sid).
  - rewrite reaches_live by done. split; intros (i & Li & Mi & <-).
    + apply Hl in Li as [-> |[Hi1 Bi]]; [congruence|]. assert (i <> e) by congruence. exists i. rewrite added_old in Mi by lia.
      rewrite added_bank_old by lia. split; [|done]. split; [done|]. by apply Hsub; [lia|].
    + destruct Li as [Hi1 Bi]. destruct (bit bm' i) eqn:Bi'; [|by destruct (added_cleared i sid ltac:(done) Bi' Mi); congruence].
      assert (i <> e) by congruence. exists i. split; [by apply Hl; right|]. rewrite added_old, added_bank_old by lia. done.
Qed.

End added.

(** *** The calls *)

Lemma bitmap_set_fault map i : nbits map <= i -> bitmap_set map i = Halt HFault.
Proof.
  intros Hi. unfold bitmap_set, BITMAP_GRANULE_LEN, nbits in *. divmod i 32. rewrite rd_out_of_range by lia. done.
Qed.

Lemma alloc_sme_run s : unlocked (sme_lock s) -> map128 (sme_bitmap s) -> 0 < sme_num s < 128 ->
  (exists e l bm, smmu_alloc_sme s = Ok (e, set_sme_lock l (set_sme_bitmap bm s)) /\ 0 <= e < sme_num s /\
     bit (sme_bitmap s) e = false /\ unlocked l /\ map128 bm /\ forall k, 0 <= k -> bit bm k = (e =? k) || bit (sme_bitmap s) k) \/
  (smmu_alloc_sme s = Halt HFault /\ forall k, 0 <= k < sme_num s -> bit (sme_bitmap s) k = true).
Proof.
  intros Hl [Hw Hn] Hnum. unfold smmu_alloc_sme. destruct (spin_lock_unlock _ Hl) as (l & -> & Hul & _). mstep.
  destruct (bitmap_find_first_spec (sme_bitmap s) (sme_num s) 0 false) as (r & -> & Hr); [lia..|]. mstep.
  destruct Hr as [(Hr & Hf & _)|[-> Hrun]].
  - destruct (Z.leb_spec 0 r); [|lia]. destruct (bitmap_set_spec (sme_bitmap s) r Hw ltac:(lia)) as (bm & -> & Hw' & Hn' & Hb). mstep.
    left. exists r, (spin_unlock l), bm. split; [done|]. split; [lia|]. split; [done|]. split; [done|]. split; [split; [done|lia]|done].
  - right. cbn [Z.leb Z.compare SIZE_MAX]. rewrite bitmap_set_fault by (rewrite Hn; by vm_compute). split; [done|].
    intros k Hk. apply Hrun. lia.
Qed.

Lemma write_sme_run s e mask id group : unlocked (sme_lock s) -> map128 (sme_bitmap s) -> map128 (grp_bitmap s) ->
  length (SMR (glbl_rs0 (hw s))) = 128%nat -> 0 <= e < 128 -> bit (sme_bitmap s) e = true ->
  exists l g, smmu_write_sme e mask id group s =
    Ok (set_sme_lock l (set_grp_bitmap g (set_SMR (<[Z.to_nat e := smr_value mask id]> (SMR (glbl_rs0 (hw s)))) s))) /\ unlocked l /\ map128 g.
Proof.
  intros Hl [Hw Hn] [Hgw Hgn] Hlen He Hb. unfold smmu_write_sme. destruct (spin_lock_unlock _ Hl) as (l & -> & Hul & _). mstep.
  rewrite bitmap_get_Ok, Hb by lia. mstep. cbn [Z.eqb]. rewrite wr_Ok by lia. mstep.
  assert (forall v, rd (<[Z.to_nat e := v]> (SMR (glbl_rs0 (hw s)))) e = Ok v) as Hrd.
  { intros v. apply rd_Ok. split; [lia|]. apply list_lookup_insert_eq. lia. }
  rewrite Hrd. mstep. rewrite wr_Ok by (rewrite length_insert; lia). mstep. rewrite list_insert_insert_eq, Hrd. mstep.
  rewrite wr_Ok by (rewrite length_insert; lia). mstep. rewrite list_insert_insert_eq.
  assert (exists g, (if group then bitmap_set (grp_bitmap s) e else Ok (grp_bitmap s)) = Ok g /\ map128 g) as (g & -> & Hg).
  { destruct group; [|by eexists]. destruct (bitmap_set_spec (grp_bitmap s) e Hgw ltac:(lia)) as (g & -> & Hg1 & Hg2 & _).
    exists g. split; [done|]. split; [done|lia]. }
  mstep. exists (spin_unlock l), g. done.
Qed.

Lemma write_s2c_run s e ctx : unlocked (sme_lock s) -> map128 (sme_bitmap s) -> map128 (ctxbank_bitmap s) ->
  length (S2CR (glbl_rs0 (hw s))) = 128%nat -> 0 <= e < 128 -> bit (sme_bitmap s) e = true -> 0 <= ctx < 128 -> bit (ctxbank_bitmap s) ctx = true ->
  exists l v, smmu_write_s2c e ctx s = Ok (set_sme_lock l (set_S2CR (<[Z.to_nat e := v]> (S2CR (glbl_rs0 (hw s)))) s)) /\ unlocked l /\ S2CR_CBNDX v = ctx.
Proof.
  intros Hl [Hw Hn] [Hcw Hcn] Hlen He Hb Hc Hcb. unfold smmu_write_s2c. destruct (spin_lock_unlock _ Hl) as (l & -> & Hul & _). mstep.
  rewrite (bitmap_get_Ok _ ctx), Hcb by lia. mstep. cbn [Z.eqb]. rewrite (bitmap_get_Ok _ e), Hb by lia. mstep. cbn [Z.eqb].
  rewrite rd_s2cr by (done || lia). mstep. rewrite wr_Ok by lia. mstep. eexists _, _. split; [reflexivity|]. split; [done|]. apply s2cr_bank. lia.
Qed.

(** Only which entries are in use matters, not how the bitmap says it. *)
Lemma ok_same_live s l bm : smmu_ok s -> unlocked l -> map128 bm -> (forall k, 0 <= k -> bit bm k = bit (sme_bitmap s) k) ->
  smmu_ok (set_sme_lock l (set_sme_bitmap bm s)).
Proof.
  intros Hok Hl Hbm Hb.
  assert (forall k, live (set_sme_lock l (set_sme_bitmap bm s)) k <-> live s k) as Hlive.
  { intros k. unfold live. cbn. split; intros [Hk Hbk]; (split; [done|]); [rewrite <- Hb by lia|rewrite Hb by lia]; done. }
  destruct Hok as [H1 H2 H3 H4 H5 H6 H7 Hv Hd Hst]. constructor; try done.
  - intros k Hk%Hlive. by apply Hv.
  - intros i j sid Hi%Hlive Hj%Hlive. by apply Hd.
  - intros k Hk Hvk. destruct (Hst k Hk Hvk) as (i & Hi%Hlive & Hr). by exists i.
Qed.

(** The new entry is included in an entry in use. *)
Lemma add_included s bm mask id ctx k : smmu_ok s -> id15 id ->
  (forall k, 0 <= k -> bit bm k = true -> bit (sme_bitmap s) k = true) ->
  (forall k, 0 <= k -> bit (sme_bitmap s) k = true -> bit bm k = false ->
     0 <= k < sme_num s /\ hit s mask id k = true /\ Z.land (sid_mask s k) mask = sid_mask s k /\ bank s k = ctx) ->
  0 <= k < sme_num s -> bit bm k = true -> hit s mask id k = true -> Z.land mask (sid_mask s k) = mask -> bank s k = ctx ->
  (forall k, 0 <= k -> bit bm k = bit (sme_bitmap s) k) /\
  forall sid c, reaches s sid c <-> if in_stream mask id sid then c = ctx else reaches s sid c.
Proof.
  intros Hok Hi Hsub Hcl Hk Hb Hh Hl Hc. assert (live s k) as Lk by (split; [done|by apply Hsub; [lia|]]).
  assert (forall sid, in_stream mask id sid = true -> matches s k sid = true) as Hin.
  { intros sid Hs. unfold matches. rewrite (ok_valid s Hok k Lk). cbn [andb].
    by apply (meet_included mask id _ _ sid Hi (sid_id_range s k) Hh Hl). }
  split.
  - intros j Hj. destruct (bit bm j) eqn:Bj; [by rewrite Hsub|]. destruct (bit (sme_bitmap s) j) eqn:Bj'; [exfalso|done].
    destruct (Hcl j Hj Bj' Bj) as (Hr & Hhj & Hlj & _). assert (j = k); [|congruence].
    apply (ok_disjoint s Hok j k (sid_id s j)); [by split|done| |].
    + unfold matches. rewrite (ok_valid s Hok j) by (by split). apply in_stream_self.
    + apply Hin. apply (meet_included (sid_mask s j) (sid_id s j) mask id); [apply sid_id_range|done|by rewrite meet_sym|done|apply in_stream_self].
  - intros sid c. destruct (in_stream mask id sid) eqn:Hs; [|done]. specialize (Hin sid Hs). rewrite reaches_live by done. split.
    + intros (i & Li & Mi & <-). by rewrite (ok_disjoint s Hok i k sid).
    + intros ->. by exists k.
Qed.

Lemma lookup_set (l : list Z) e v k : 0 <= k -> 0 <= e < Z.of_nat (length l) ->
  default 0 (<[Z.to_nat e := v]> l !! Z.to_nat k) = if k =? e then v else default 0 (l !! Z.to_nat k).
Proof.
  intros Hk He. destruct (Z.eqb_spec k e) as [-> |Hne]; [by rewrite list_lookup_insert_eq by lia|].
  by rewrite list_lookup_insert_ne by lia.
Qed.

(** The entry is new: the rest of [add_entry] after the search. *)
Lemma add_new s bm l mask id ctx group : smmu_ok s -> id15 mask -> id15 id -> 0 <= ctx < 128 -> bit (ctxbank_bitmap s) ctx = true ->
  map128 bm -> unlocked l -> (forall k, 0 <= k -> bit bm k = true -> bit (sme_bitmap s) k = true) ->
  let s1 := set_sme_lock l (set_sme_bitmap bm s) in
  (exists e s2 s3 s4, smmu_alloc_sme s1 = Ok (e, s2) /\ smmu_write_sme e mask id group s2 = Ok s3 /\ smmu_write_s2c e ctx s3 = Ok s4 /\
     0 <= e /\ entry_added s s4 bm e mask id ctx /\
     (smmu_ok s4 <-> (forall k, live s4 k -> valid s4 k = true) /\
        (forall i j sid, live s4 i -> live s4 j -> matches s4 i sid = true -> matches s4 j sid = true -> i = j) /\
        (forall k, 0 <= k < sme_num s4 -> valid s4 k = true ->
           exists i, live s4 i /\ bank s4 i = bank s4 k /\ forall sid, matches s4 k sid = true -> matches s4 i sid = true))) \/
  (smmu_alloc_sme s1 = Halt HFault /\ forall k, 0 <= k < sme_num s -> live s k).
Proof.
  intros Hok Hm Hi Hc Hcb Hbm Hl Hsub s1. pose proof Hok as [L1 L2 Hnum _ Hgrp Hctx _ _ _ _]. unfold SME_MAX_NUM in Hnum.
  destruct (alloc_sme_run s1) as [(e & l2 & bm2 & E2 & He & Hf & Hl2 & Hbm2 & Hb2)|[E Hall]]; [done..| |].
  2: { right. split; [done|]. intros k Hk. split; [done|]. apply Hsub; [lia|]. by apply Hall. }
  left. cbn [sme_num s1 set_sme_lock set_sme_bitmap set_sme] in He. cbn [sme_bitmap s1 set_sme_lock set_sme_bitmap set_sme] in Hf, Hb2.
  assert (bit bm2 e = true) as Hbe by (by rewrite Hb2, Z.eqb_refl by lia).
  destruct (write_sme_run (set_sme_lock l2 (set_sme_bitmap bm2 s1)) e mask id group) as (l3 & g & E3 & Hl3 & Hg); [done..|lia|done|].
  destruct (write_s2c_run (set_sme_lock l3 (set_grp_bitmap g (set_SMR (<[Z.to_nat e := smr_value mask id]> (SMR (glbl_rs0 (hw s))))
    (set_sme_lock l2 (set_sme_bitmap bm2 s1))))) e ctx) as (l4 & v & E4 & Hl4 & Hv); [done..|lia|done|done|done|].
  eexists e, _, _, _. split; [exact E2|]. split; [exact E3|]. split; [exact E4|]. split; [lia|]. split.
  - constructor; cbn; try done; try lia.
    + intros k. unfold live. cbn. split.
      * intros [Hk Hbk]. rewrite Hb2 in Hbk by lia. destruct (Z.eqb_spec e k); [by left|by right].
      * intros [-> |[Hk Hbk]]; [by split|]. split; [done|]. by rewrite Hb2, Hbk, orb_true_r by lia.
    + intros k Hk. unfold smr. cbn. apply lookup_set; lia.
    + intros k Hk. unfold bank, s2cr. cbn. rewrite lookup_set by lia. by destruct (k =? e).
  - split; [intros []; done|]. intros (Hv' & Hd' & Hs'). constructor; try done; cbn; rewrite ?length_insert; done.
Qed.

(** ** Properties *)

(** What the entries would guarantee if banks were allocated, which the program
    never does ([iommu_never_adds]): the tail of [iommu_vm_arch_add], run with an
    allocated bank.  The entries never send a stream to two banks.  Adding the
    streams ([mask], [id]) returns with the driver in such a state again, in
    which the entries send exactly these streams to that bank and all others
    where they did before; it ends in the error exit only when a stream is
    already in use, and in a fault only when all entries are.  A stream that a
    merged entry still matches is not translated at all ([smmu_merge_conflict]). *)
Theorem smmu_streams_isolated s mask id ctx group :
  smmu_ok s -> id15 mask -> id15 id -> 0 <= ctx < CTX_MAX_NUM -> bit (ctxbank_bitmap s) ctx = true ->
  (forall sid c1 c2, reaches s sid c1 -> reaches s sid c2 -> c1 = c2) /\
  match add_entry mask id ctx group s with
  | Ok (r, s') => r = true /\ smmu_ok s' /\
      forall sid c, reaches s' sid c <-> if in_stream mask id sid then c = ctx else reaches s sid c
  | Halt HError => exists k sid, live s k /\ matches s k sid = true /\ in_stream mask id sid = true
  | Halt HFault => forall k, 0 <= k < sme_num s -> live s k
  | Halt _ => False
  end.
Proof.
  intros Hok Hm Hi Hc Hcb. split.
  { intros sid c1 c2. rewrite !reaches_live by done. intros (i & Li & Mi & <-) (j & Lj & Mj & <-). by rewrite (ok_disjoint s Hok i j sid). }
  pose proof Hok as [L1 L2 Hnum Hsme Hgrp Hctx Hlk _ _ _]. unfold SME_MAX_NUM in Hnum. unfold CTX_MAX_NUM in Hc.
  unfold add_entry, smmu_compatible_sme_exists. destruct (spin_lock_unlock _ Hlk) as (l & -> & Hul & _). mstep.
  pose proof (sme_loop_spec s mask id ctx group L1 L2 Hgrp Hm (Z.to_nat (sme_num s)) 0 (sme_bitmap s) Hsme ltac:(lia) ltac:(lia)) as Hsr.
  replace (set_sme_bitmap (sme_bitmap s) s) with s in Hsr by (by destruct s). rewrite Z2Nat.id in Hsr by lia.
  destruct (sme_loop _ _ _ _ _ _ s) as [[inc s1]|h]; cbn in Hsr.
  2: { destruct Hsr as [-> (k & Hk & Hb & Hh)]. mstep. destruct (meet_stream _ _ _ _ Hi (sid_id_range s k) Hh) as (sid & Hs1 & Hs2).
       exists k, sid. split; [by split|]. split; [|done]. unfold matches. by rewrite (ok_valid s Hok k) by (by split). }
  destruct Hsr as (bm & -> & Hbm & Hsub & Hcl & Hinc). mstep. destruct inc.
  { destruct Hinc as (k & Hk & Hb & Hh & Hlk' & Hbk). split; [done|].
    destruct (add_included s bm mask id ctx k) as [Hsame Hr]; try done. split; [by apply ok_same_live|exact Hr]. }
  destruct (add_new s bm (spin_unlock l) mask id ctx group) as [(e & s2 & s3 & s4 & E2 & E3 & E4 & He & Hadd & Hok4)|[E Hall]]; try done.
  2: { rewrite E. mstep. exact Hall. }
  rewrite E2. mstep. destruct (Z.ltb_spec e 0); [lia|]. rewrite E3. mstep. rewrite E4. mstep. split; [done|].
  assert (forall k, 0 <= k -> bit (sme_bitmap s) k = true -> bit bm k = false ->
    hit s mask id k = true /\ Z.land (sid_mask s k) mask = sid_mask s k /\ bank s k = ctx) as Hcl' by (intros; by apply Hcl).
  assert (smmu_ok s4) as Ok4.
  { apply Hok4. split_and!; [intros k; by apply (added_valid s s4 bm e mask id ctx)|intros i j sid; by apply (added_disjoint s s4 bm e mask id ctx)|intros k; by apply (added_stale s s4 bm e mask id ctx)]. }
  split; [done|]. intros sid c. by apply (added_reaches s s4 bm e mask id ctx).
Qed.

(** A state in which nothing has been handed out but bank 1. *)
Definition idle_smmu : smmu_priv :=
  SmmuPriv (SmmuHw 0 0 0 (Rs0Hw 0 0 0 0 0 0 0 (replicate 128 0) (replicate 128 0))
      (Rs1Hw (replicate 128 0) (replicate 128 0)) (replicate 128 (CntxtHw 0 0 0 0)))
    SPINLOCK_INITVAL 16 (replicate 4 0) (replicate 4 0) SPINLOCK_INITVAL 8 [2; 0; 0; 0].

Lemma nothing_valid_ok s : length (SMR (glbl_rs0 (hw s))) = 128%nat -> length (S2CR (glbl_rs0 (hw s))) = 128%nat ->
  0 < sme_num s < SME_MAX_NUM -> map128 (sme_bitmap s) -> map128 (grp_bitmap s) -> map128 (ctxbank_bitmap s) -> unlocked (sme_lock s) ->
  (forall k, 0 <= k < sme_num s -> bit (sme_bitmap s) k = false /\ smr s k = 0) -> smmu_ok s.
Proof.
  intros H1 H2 H3 H4 H5 H6 H7 Hz. constructor; try done.
  - intros k [Hk Hb]. destruct (Hz k Hk). congruence.
  - intros i j sid [Hk Hb]. destruct (Hz i Hk). congruence.
  - intros k Hk Hv. destruct (Hz k Hk) as [_ E]. unfold valid in Hv. rewrite E, Z.bits_0 in Hv. done.
Qed.

Lemma idle_smmu_ok : smmu_ok idle_smmu.
Proof.
  assert (forall w, 0 <= w < 2 ^ 32 -> map128 [w; 0; 0; 0]) as Hm.
  { intros w Hw. split; [split; [repeat constructor; lia|done]|done]. }
  apply nothing_valid_ok; try done; [by apply (Hm 0)|by apply (Hm 0)|by apply (Hm 2)|].
  intros k Hk. cbn [sme_num idle_smmu] in Hk. split; [apply bit_replicate|]. unfold smr. cbn [hw glbl_rs0 SMR idle_smmu].
  destruct (replicate 128 0 !! Z.to_nat k) as [x|] eqn:E; [|done]. by apply lookup_replicate in E as [-> _].
Qed.

Lemma smmu_streams_isolated_witness : exists s', add_entry 7 64 1 true idle_smmu = Ok (true, s') /\ smmu_ok s' /\ forall c, reaches s' 66 c <-> c = 1.
Proof.
  destruct (smmu_streams_isolated idle_smmu 7 64 1 true idle_smmu_ok) as [_ Hadd]; [unfold id15; lia..|vm_compute; split; [congruence|reflexivity]|reflexivity|].
  destruct (add_entry 7 64 1 true idle_smmu) as [[r s']|h] eqn:E.
  - destruct Hadd as (-> & Hok & Hr). exists s'. split; [reflexivity|]. split; [exact Hok|]. intros c. exact (Hr 66 c).
  - exfalso. assert (match add_entry 7 64 1 true idle_smmu with Ok _ => true | Halt _ => false end = true) as Hc by (vm_compute; reflexivity).
    rewrite E in Hc. discriminate.
Defined.

(** *** The control registers *)

Lemma TTBA_testbit off n : 0 <= off < 48 -> 0 <= n -> Z.testbit (SMMUV2_CB_TTBA off) n = (off <=? n) && (n <? 48).
Proof.
  intros Ho Hn. unfold SMMUV2_CB_TTBA. rewrite (word_mask (w := 64)) by lia.
  destruct (Z.ltb_spec n 64), (Z.leb_spec off n), (Z.ltb_spec n 48), (Z.ltb_spec n (off + (48 - off))); done || lia.
Qed.

Lemma ttba_aligned off root : 0 <= off < 48 -> 0 <= root < 2 ^ 48 -> root mod 2 ^ off = 0 -> Z.land root (SMMUV2_CB_TTBA off) = root.
Proof.
  intros Ho Hr Ha. apply Z.bits_inj'. intros n Hn. rewrite Z.land_spec, TTBA_testbit by done.
  destruct (Z.ltb_spec n 48); [|by rewrite (testbit_small root 48) by lia]. rewrite andb_true_r.
  destruct (Z.leb_spec off n); [by rewrite andb_true_r|]. rewrite <- (Z.mod_pow2_bits_low root off n), Ha, Z.bits_0 by lia. done.
Qed.

(** The bank of a VM walks the VM's table as its CPUs do. *)
Lemma tcr_matches_vtcr mmfr0 t r t' r' : vmm_arch_init mmfr0 t r = Ok (t', r') ->
  exists bits off, rd parange_table (parange t') = Ok bits /\ smmu_cb_ttba_offset (parange t') (u64 (64 - bits)) = Ok off /\ 0 <= off < 48 /\
    u32 (smmu_tcr (parange t') bits) = Z.land (vtcr_el2 r') (2 ^ 31 - 1).
Proof.
  unfold vmm_arch_init, vmm_arch_profile_init, vmm_arch_init_tcr. intros H. inv_bind H. inv_bind E. inv_bind E. inv_bind E.
  injection E as <-. injection H as <- <-. cbn [parange vtcr_el2]. set (m := if Z.land mmfr0 ID_AA64MMFR0_PAR_MSK <? min_parange t then _ else _) in *. clearbody m.
  match goal with E : rd parange_table m = Ok ?b |- _ => exists b; rename E into Eb end.
  unfold smmu_cb_ttba_offset. rewrite Eb. mstep. apply rd_Ok in Eb as [Hm Eb]. eexists. split; [done|]. split; [done|].
  pose proof (lookup_lt_Some _ _ _ Eb) as Hlt. cbn in Hlt.
  assert (m = 0 \/ m = 1 \/ m = 2 \/ m = 3 \/ m = 4 \/ m = 5) as Hcases by lia.
  destruct Hcases as [-> |[-> |[-> |[-> |[-> | ->]]]]]; injection Eb as <-; (split; [vm_compute; split; congruence|reflexivity]).
Qed.

(** The SMMU walks a VM's page table as its CPUs do.  Once [vmm_arch_init] has
    run, [smmu_write_ctxbnk] gives an allocated context bank the translation
    control the CPUs have, the root of the table it was given when that is
    aligned as the size of its first level asks, and the VM's number, turns the
    bank on, and leaves the other banks and the routing of streams alone. *)
Theorem smmu_write_ctxbnk_correct mmfr0 t r t' r' s ctx root vm_id :
  vmm_arch_init mmfr0 t r = Ok (t', r') ->
  unlocked (ctx_lock s) -> map128 (ctxbank_bitmap s) -> 0 <= ctx < CTX_MAX_NUM -> bit (ctxbank_bitmap s) ctx = true ->
  length (CBAR (glbl_rs1 (hw s))) = 128%nat -> length (CBA2R (glbl_rs1 (hw s))) = 128%nat -> ctx < Z.of_nat (length (cntxt (hw s))) ->
  0 <= root < 2 ^ 48 ->
  (forall bits off, rd parange_table (parange t') = Ok bits -> smmu_cb_ttba_offset (parange t') (u64 (64 - bits)) = Ok off -> root mod 2 ^ off = 0) ->
  exists s' b, smmu_write_ctxbnk (parange t') ctx root vm_id s = Ok s' /\ unlocked (ctx_lock s') /\
    cntxt (hw s') !! Z.to_nat ctx = Some b /\ TCR b = Z.land (vtcr_el2 r') (2 ^ 31 - 1) /\ TTBR0 b = root /\ Z.testbit (SCTLR b) 0 = true /\
    CBAR (glbl_rs1 (hw s')) !! Z.to_nat ctx = Some (vm_id mod 256) /\
    (forall j, j <> Z.to_nat ctx -> cntxt (hw s') !! j = cntxt (hw s) !! j) /\ glbl_rs0 (hw s') = glbl_rs0 (hw s).
Proof.
  intros Hv Hl [Hw Hn] Hc Hb L1 L2 L3 Hr Ha. unfold CTX_MAX_NUM in Hc. destruct (tcr_matches_vtcr _ _ _ _ _ Hv) as (bits & off & E1 & E2 & Hoff & E3).
  unfold smmu_write_ctxbnk. destruct (spin_lock_unlock _ Hl) as (l & -> & Hul & _). mstep. rewrite bitmap_get_Ok, Hb by lia. mstep. cbn [Z.eqb].
  rewrite wr_Ok by lia. mstep. rewrite wr_Ok by lia. mstep. rewrite E1. mstep. rewrite E2. mstep.
  destruct (rd_in_range (cntxt (hw s)) ctx ltac:(lia)) as [c ->]. mstep. rewrite wr_Ok by lia. mstep.
  eexists _, _. split; [reflexivity|].
  cbn [hw cntxt glbl_rs0 glbl_rs1 CBAR ctx_lock set_ctx_lock set_ctx set_cntxt set_rs1 on_hw]. rewrite !list_lookup_insert_eq by lia.
  split; [done|]. split; [done|]. cbn [TCR TTBR0 SCTLR].
  split; [done|]. split; [by apply ttba_aligned; [done..|eapply Ha]|]. split; [by rewrite !Z.lor_spec, !orb_true_r|]. split.
  - f_equal. unfold SMMUV2_CBAR_VMID. change 0xFF with (Z.ones 8). rewrite Z.land_ones by lia. apply u32_small.
    pose proof (Z.mod_pos_bound vm_id 256 ltac:(lia)). lia.
  - split; [|done]. intros j Hj. by apply list_lookup_insert_ne.
Qed.

Lemma smmu_write_ctxbnk_correct_witness : exists s' b, smmu_write_ctxbnk 5 1 0x40001000 3 idle_smmu = Ok s' /\ cntxt (hw s') !! 1%nat = Some b /\
  TTBR0 b = 0x40001000 /\ TCR b = 0x53590.
Proof.
  destruct (vmm_arch_init 5 tcr_init (El2Regs 0 0 0)) as [[t' r']|] eqn:E; [|exfalso; vm_compute in E; discriminate].
  assert (parange t' = 5 /\ vtcr_el2 r' = 0x80053590) as [Ep Er] by (vm_compute in E; injection E as <- <-; split; reflexivity).
  destruct (smmu_write_ctxbnk_correct 5 tcr_init (El2Regs 0 0 0) t' r' idle_smmu 1 0x40001000 3 E) as (s' & b & Hs & _ & Hb & Ht & Hr & _);
    [split; [reflexivity|vm_compute; split; congruence]|exact (ok_ctx _ idle_smmu_ok)|vm_compute; split; congruence|reflexivity..|vm_compute; split; congruence| |].
  - rewrite Ep. intros bits off Hbits. vm_compute in Hbits. injection Hbits as <-. intros Hoff. vm_compute in Hoff. injection Hoff as <-. reflexivity.
  - exists s', b. rewrite Ep in Hs. split; [exact Hs|]. split; [exact Hb|]. split; [exact Hr|]. rewrite Ht, Er. reflexivity.
Defined.

(** *** Initialisation *)

Lemma clear_smrs n (l : list Z) : (n <= length l)%nat ->
  exists l', for_loop n 0 (fun i l => wr l i 0) l = Ok l' /\ length l' = length l /\ forall k, 0 <= k < Z.of_nat n -> default 0 (l' !! Z.to_nat k) = 0.
Proof.
  intros Hn. destruct (for_loop_rule (fun i l' => length l' = length l /\ forall k, 0 <= k < i -> default 0 (l' !! Z.to_nat k) = 0)
    (fun i l => wr l i 0) n 0) with (s := l) as (l' & E & Hl & Hk).
  - intros i l1 Hi [Hl1 Hk1]. rewrite wr_Ok by lia. eexists. split; [done|]. rewrite length_insert. split; [done|].
    intros k Hk. rewrite lookup_set by lia. destruct (Z.eqb_spec k i); [done|]. apply Hk1. lia.
  - split; [done|]. intros k Hk. lia.
  - exists l'. done.
Qed.

Lemma clear_cntxts w1c n (l : list smmu_cntxt_hw) : (n <= length l)%nat -> exists l', for_loop n 0 (clear_cntxt w1c) l = Ok l' /\
  forall k c, (k < n)%nat -> l' !! k = Some c -> SCTLR c = 0.
Proof.
  intros Hn. destruct (for_loop_rule (fun i l' => length l' = length l /\ forall k c, Z.of_nat k < i -> l' !! k = Some c -> SCTLR c = 0)
    (clear_cntxt w1c) n 0) with (s := l) as (l' & E & Hl & Hk).
  - intros i l1 Hi [Hl1 Hk1]. unfold clear_cntxt. destruct (rd_in_range l1 i ltac:(lia)) as [c ->]. mstep. rewrite wr_Ok by lia.
    eexists. split; [done|]. rewrite length_insert. split; [done|]. intros k c' Hk. destruct (decide (k = Z.to_nat i)) as [-> |Hne].
    + rewrite list_lookup_insert_eq by lia. intros [= <-]. done.
    + rewrite list_lookup_insert_ne by done. apply Hk1. lia.
  - split; [done|]. intros k c Hk. lia.
  - exists l'. split; [done|]. intros k c Hkn. apply Hk. lia.
Qed.

Lemma check_features_halt par s h : smmu_check_features par s = Halt h -> h = HError.
Proof.
  unfold smmu_check_features, ensure. repeat (case_match; mstep; try congruence).
Qed.

(** [smmu_init] sets up a device that lets nothing through.  It stops in the
    error exit exactly when the SMMU lacks a feature the hypervisor needs;
    otherwise it returns, the invariant holds, no stream is routed anywhere, the
    context banks are free and off, and transactions go through the SMMU. *)
Theorem smmu_init_correct w1c base par s :
  let r := glbl_rs0 (hw s) in let nctx := bit32_extract (IDR1 r) 0 8 in
  length (SMR r) = 128%nat -> length (S2CR r) = 128%nat -> 0 < Z.land (IDR0 r) SMMUV2_IDR0_MASK < SME_MAX_NUM ->
  map128 (sme_bitmap s) -> map128 (grp_bitmap s) -> map128 (ctxbank_bitmap s) ->
  nctx <= CTX_MAX_NUM -> nctx <= Z.of_nat (length (cntxt (hw s))) ->
  match smmu_init w1c base par s with
  | Ok s' => smmu_check_features par s = Ok tt /\ smmu_ok s' /\ unlocked (ctx_lock s') /\ ctx_num s' = nctx /\
      (forall sid c, ~ reaches s' sid c) /\ (forall k, 0 <= k < nctx -> bit (ctxbank_bitmap s') k = false) /\
      (forall k c, Z.of_nat k < nctx -> cntxt (hw s') !! k = Some c -> SCTLR c = 0) /\ Z.testbit (CR0 (glbl_rs0 (hw s'))) 0 = false
  | Halt h => h = HError /\ smmu_check_features par s = Halt HError
  end.
Proof.
  intros r nctx L1 L2 Hnum [Hsw Hsn] [Hgw Hgn] [Hcw Hcn] Hctx Lc. unfold SME_MAX_NUM in Hnum. unfold CTX_MAX_NUM in Hctx.
  pose proof (extract_range (IDR1 r) 0 8 ltac:(lia) ltac:(lia)) as Hnx. fold nctx in Hnx.
  unfold smmu_init. fold r nctx. change (smmu_check_features par (set_ptrs _ _ _ s)) with (smmu_check_features par s).
  destruct (smmu_check_features par s) as [[]|h] eqn:Ef; mstep; [|by rewrite (check_features_halt _ _ _ Ef)].
  destruct (bitmap_clear_consecutive_spec (ctxbank_bitmap s) 0 nctx) as (cb & Ecb & Hcb1 & Hcb2 & Hcb); [done|lia..|].
  destruct (bitmap_clear_consecutive_spec (sme_bitmap s) 0 (Z.land (IDR0 r) SMMUV2_IDR0_MASK)) as (sb & Esb & Hsb1 & Hsb2 & Hsb); [done|lia..|].
  destruct (bitmap_clear_consecutive_spec (grp_bitmap s) 0 (Z.land (IDR0 r) SMMUV2_IDR0_MASK)) as (gb & Egb & Hgb1 & Hgb2 & _); [done|lia..|].
  cbn [ctxbank_bitmap sme_bitmap grp_bitmap set_ptrs on_hw set_ctx]. rewrite Ecb. mstep. rewrite Esb. mstep. rewrite Egb. mstep.
  cbn [sme_num ctx_num hw glbl_rs0 SMR cntxt set_GFSRs set_rs0 set_sme set_ctx set_ptrs on_hw]. fold r.
  destruct (clear_smrs (Z.to_nat (Z.land (IDR0 r) SMMUV2_IDR0_MASK)) (SMR r)) as (smr' & Esmr & Hsl & Hsz); [lia|]. rewrite Esmr. mstep.
  cbn [ctx_num hw cntxt set_SMR set_GFSRs set_rs0 set_sme set_ctx set_ptrs on_hw].
  destruct (clear_cntxts w1c (Z.to_nat nctx) (cntxt (hw s))) as (cs & Ecs & Hcs); [lia|]. rewrite Ecs. mstep. split; [done|].
  match goal with |- smmu_ok ?x /\ _ => set (s' := x) end.
  assert (forall k, 0 <= k < sme_num s' -> bit (sme_bitmap s') k = false /\ smr s' k = 0) as Hzero.
  { intros k Hk. change (sme_num s') with (Z.land (IDR0 r) SMMUV2_IDR0_MASK) in Hk. split.
    - change (sme_bitmap s') with sb. rewrite Hsb by lia. destruct (Z.leb_spec 0 k), (Z.ltb_spec k (0 + Z.land (IDR0 r) SMMUV2_IDR0_MASK)); done || lia.
    - apply Hsz. lia. }
  split; [|split; [|split; [done|split; [|split; [|split]]]]].
  - apply nothing_valid_ok; try done; [by rewrite <- L1|split; [done|by rewrite <- Hsn]|split; [done|by rewrite <- Hgn]|split; [done|by rewrite <- Hcn]].
  - done.
  - intros sid c (k & Hk & Hm & _). destruct (Hzero k Hk) as [_ E]. unfold matches, valid in Hm. rewrite E, Z.bits_0 in Hm. done.
  - intros k Hk. change (ctxbank_bitmap s') with cb. rewrite Hcb by lia. destruct (Z.leb_spec 0 k), (Z.ltb_spec k (0 + nctx)); done || lia.
  - intros k c Hk. apply Hcs. lia.
  - change (CR0 _) with (Z.land (Z.lor (SMMUV2_CR0_CLEAR (CR0 r)) (Z.lor SMMUV2_CR0_USFCFG SMMUV2_CR0_SMCFCFG)) (not32 SMMUV2_CR0_CLIENTPD)).
    rewrite Z.land_spec, testbit_not32 by lia. apply andb_false_r.
Qed.

(** A device with eight context banks and sixteen entries. *)
Definition fresh_smmu : smmu_priv :=
  on_hw (fun h => SmmuHw 0 0 0 (Rs0Hw 1 (Z.lor 16 0x48002000) 8 0x1055 0x20 0 0 (replicate 128 0x80000000) (replicate 128 0)) (glbl_rs1 h) (cntxt h))
    (set_ctxbank_bitmap (replicate 4 0) idle_smmu).

Lemma smmu_init_correct_witness : exists s', smmu_init (fun _ _ => 0) 0x9050000 5 fresh_smmu = Ok s' /\ smmu_ok s' /\ forall sid c, ~ reaches s' sid c.
Proof.
  pose proof (smmu_init_correct (fun _ _ => 0) 0x9050000 5 fresh_smmu) as Hi. cbv zeta in Hi.
  destruct (smmu_init (fun _ _ => 0) 0x9050000 5 fresh_smmu) as [s'|h] eqn:E.
  - exists s'. destruct Hi as (_ & Hok & _ & _ & Hr & _);
      [reflexivity|reflexivity|vm_compute; split; congruence|exact (ok_sme _ idle_smmu_ok)|exact (ok_sme _ idle_smmu_ok)|exact (ok_sme _ idle_smmu_ok)|vm_compute; congruence|vm_compute; congruence|].
    split; [reflexivity|]. split; [exact Hok|exact Hr].
  - exfalso. assert (match smmu_init (fun _ _ => 0) 0x9050000 5 fresh_smmu with Ok _ => true | Halt _ => false end = true) as Hc by (vm_compute; reflexivity).
    rewrite E in Hc. discriminate.
Defined.

(** ** A context bank is never handed out *)

Lemma sme_loop_foreign n sme mask id ctx group s inc s' : 256 <= ctx -> sme_loop n sme mask id ctx group s = Ok (inc, s') ->
  inc = false /\ ctxbank_bitmap s' = ctxbank_bitmap s.
Proof.
  intros Hc. revert sme s. induction n as [|n IH]; intros sme s; cbn [sme_loop]; intros H; inv_bind H.
  { by injection H as <- <-. }
  case_match; [by eapply IH|]. inv_bind H. inv_bind H. case_match; [|by eapply IH]. inv_bind H.
  rename E2 into Hm. destruct a2; [exfalso|discriminate].
  unfold mergeable, smmu_sme_get_ctx in Hm. inv_bind Hm. match type of Hm with (if ?b then _ else _) = _ => destruct b; [|discriminate] end.
  inv_bind Hm. inv_bind E3. injection E3 as <-.
  injection Hm as Hm%Z.eqb_eq. pose proof (extract_range a4 0 8 ltac:(lia) ltac:(lia)). unfold S2CR_CBNDX in Hm. lia.
Qed.

(** An index is a [size_t]: the tests for a negative one never hold. *)
Lemma find_nth_from_nonneg map k i count nth b r : 0 <= i -> find_nth_from map k i count nth b = Ok r -> 0 <= r.
Proof.
  revert i count. induction k as [|k IH]; intros i count Hi; cbn [find_nth_from]; intros Hr; [injection Hr as <-; by vm_compute|]. inv_bind Hr.
  case_match; [case_match|]; [injection Hr as <-; done| |]; (eapply IH; [|exact Hr]; lia).
Qed.

Lemma find_nth_nonneg map size nth set r : bitmap_find_nth map size nth 0 set = Ok r -> 0 <= r.
Proof.
  unfold bitmap_find_nth. case_match; [intros [= <-]; by vm_compute|]. by apply find_nth_from_nonneg.
Qed.

Lemma alloc_sme_keeps s e s' : smmu_alloc_sme s = Ok (e, s') -> 0 <= e /\ ctxbank_bitmap s' = ctxbank_bitmap s.
Proof.
  unfold smmu_alloc_sme. intros H. inv_bind H. inv_bind H. inv_bind H. injection H as <- <-. split; [by eapply find_nth_nonneg|done].
Qed.

Lemma write_sme_keeps s sme mask id group s' : smmu_write_sme sme mask id group s = Ok s' -> ctxbank_bitmap s' = ctxbank_bitmap s.
Proof.
  unfold smmu_write_sme. intros H. inv_bind H. inv_bind H. destruct (a0 =? 0); [discriminate|].
  do 6 inv_bind H. by injection H as <-.
Qed.

(** The error exit, a fault or a deadlock. *)
Definition halts {A} (o : outcome A) : Prop := exists h, o = Halt h.

Lemma halts_bind {A B} (m : outcome A) (f : A -> outcome B) : (forall a, m = Ok a -> halts (f a)) -> halts (m ≫= f).
Proof. intros H. destruct m as [a|h]; [by apply H|by exists h]. Qed.

Lemma add_entry_foreign mask id ctx group s : 256 <= ctx -> nbits (ctxbank_bitmap s) <= ctx -> halts (add_entry mask id ctx group s).
Proof.
  intros Hc Hn. unfold add_entry, smmu_compatible_sme_exists. apply halts_bind. intros [inc s1] H. inv_bind H. inv_bind H.
  destruct a0 as [inc' s0]. injection H as <- <-. destruct (sme_loop_foreign _ _ _ _ _ _ _ _ _ Hc E0) as [-> E1].
  apply halts_bind. intros [e s2] [He H2]%alloc_sme_keeps. destruct (Z.ltb_spec e 0); [lia|].
  apply halts_bind. intros s3 H3%write_sme_keeps. apply halts_bind. intros s4 H4. exfalso. unfold smmu_write_s2c in H4. inv_bind H4. inv_bind H4.
  rewrite bitmap_get_fault in E3; [discriminate|]. rewrite H3, H2. cbn. by rewrite E1.
Qed.

(** With an SMMU no VM gets a device.  [iommu_arch_vm_init] leaves [ctx_id] at
    [(size_t)-1], which the test [ctx_id < 0] never finds, so that no context bank
    is allocated; adding a device, or the first of a VM's groups, then never
    returns: it ends in the error exit or reads far outside the bitmap of the
    context banks. *)
Theorem iommu_never_adds par vm_id root config_mask plat_mask m i groups id s : map128 (ctxbank_bitmap s) ->
  halts (iommu_arch_vm_init par vm_id root config_mask plat_mask ((m, i) :: groups) s) /\
  exists io, iommu_arch_vm_init par vm_id root config_mask plat_mask [] s = Ok (true, io, s) /\ halts (iommu_arch_vm_add_device par vm_id root id io s).
Proof.
  intros [_ Hn]. assert (forall mask id gm, halts (iommu_vm_arch_add par vm_id root mask id (IommuVm gm (u64 (-1))) s)) as Hadd.
  { intros mask id' gm. unfold iommu_vm_arch_add, iommu_vm_arch_init_ctx. cbn [ctx_id global_mask].
    change (u64 (-1) <? 0) with false. mstep. apply halts_bind. intros [r s'] H.
    destruct (add_entry_foreign (Z.lor (Z.land mask SMMU_ID_MSK) gm) (Z.land id' SMMU_ID_MSK) (u64 (-1)) (negb (mask =? 0)) s) as [h Hh];
      [by vm_compute|rewrite Hn; by vm_compute|]. cbn [global_mask] in H. congruence. }
  split.
  - unfold iommu_arch_vm_init. cbn [add_groups]. apply halts_bind. intros [[r io] s'] H. destruct (Hadd m i (Z.lor config_mask plat_mask)). congruence.
  - eexists. split; [reflexivity|]. apply Hadd.
Qed.

Lemma iommu_never_adds_witness : halts (iommu_arch_vm_init 5 3 0x40001000 0 0 [(7, 64)] idle_smmu).
Proof. exact (proj1 (iommu_never_adds 5 3 0x40001000 0 0 7 64 [] 64 idle_smmu (ok_ctx _ idle_smmu_ok))). Defined.

(** ** Where merging goes wrong *)

(** Devices 4 and 5 of the VM with bank 1 become part of a group, streams 0 to 7. *)
Definition merged : outcome smmu_priv :=
  '(_, s) ← add_entry 0 4 1 false idle_smmu;
  '(_, s) ← add_entry 0 5 1 false s;
  '(_, s) ← add_entry 7 0 1 true s;
  Ok s.

(** The entries a merge frees stay valid in hardware: stream 5 matches two entries,
    which the SMMU, as it is configured, answers with a fault. *)
Lemma smmu_merge_conflict : exists s, merged = Ok s /\ matches s 0 5 = true /\ matches s 1 5 = true /\ forall c, ~ routes s 5 c.
Proof.
  assert ((s ← merged; Ok (matches s 0 5, matches s 1 5, sme_num s)) = Ok (true, true, 16)) as H by (vm_compute; reflexivity).
  destruct merged as [s|h]; [|discriminate H]. exists s. injection H as H0 H1 Hn. do 3 (split; [done|]). intros c (k & _ & _ & _ & Hu).
  pose proof (Hu 0 ltac:(lia) H0). pose proof (Hu 1 ltac:(lia) H1). lia.
Qed.

(** An entry is valid before its bank is written: when another VM's device 64 gets
    an entry that was freed, its transactions go to the first VM's memory until
    [smmu_write_s2c] has run. *)
Lemma smmu_write_sme_window :
  (s ← merged; '(sme, s) ← smmu_alloc_sme s; s ← smmu_write_sme sme 0 64 false s; Ok (matches s sme 64, bank s sme)) = Ok (true, 1).
Proof. vm_compute. reflexivity. Qed.

(** With 128 entries the loop over the entries reads a bit past the bitmap. *)
Lemma smmu_for_each_overrun : sme_loop 128 0 0 4 1 false idle_smmu = Halt HFault.
Proof. vm_compute. reflexivity. Qed.
