(* ===== verification/Smmu3.v ===== *)
(** The SMMUv3 driver: [arch/aarch64/smmuv3.c].

    The driver and the SMMU share memory: a queue through which the driver sends
    commands, and the stream table, which says what becomes of the transactions
    of a stream.  The SMMU is a parameter, the class [SmmuHw]: its registers can
    be read and written, and between two reads it may work on the memory
    ([work]).  What the architecture says about the command queue is a class of
    its own, next to the theorems that rest on it. *)

From S2P Require Import Prelude Bit Bitmap Spinlock PhysMem Mem ArchVmm.

(** ** Registers and fields *)

Definition BIT_MASK_LR (last first : Z) : Z := u64 (Z.shiftl (Z.shiftr (2 ^ 64 - 1) (64 - (last + 1 - first))) first).

(** [__builtin_ffsl(mask) - 1]. *)
Definition field_shift (mask : Z) : Z := Z.log2 (Z.land mask (- mask)).
Definition FIELD_PREP (mask val : Z) : Z := Z.land (u64 (Z.shiftl (u64 val) (field_shift mask))) mask.
Definition FIELD_GET (mask reg : Z) : Z := Z.shiftr (Z.land reg mask) (field_shift mask).

Definition ARM_SMMU_IDR0 : Z := 0x0.
Definition IDR0_ST_LVL : Z := BIT_MASK_LR 28 27.
Definition IDR0_VMID16 : Z := Z.shiftl 1 18.
Definition IDR0_S2P : Z := Z.shiftl 1 0.
Definition IDR0_S1P : Z := Z.shiftl 1 1.
Definition IDR0_ST_LVL_2LVL : Z := 1.
Definition SMMU_AIDR : Z := 0x1c.
Definition ARM_SMMU_IDR1 : Z := 0x4.
Definition IDR1_TABLES_PRESET : Z := Z.shiftl 1 30.
Definition IDR1_QUEUES_PRESET : Z := Z.shiftl 1 29.
Definition IDR1_REL : Z := Z.shiftl 1 28.
Definition IDR1_CMDQS : Z := BIT_MASK_LR 25 21.
Definition IDR1_EVTQS : Z := BIT_MASK_LR 20 16.
Definition IDR1_SIDSIZE : Z := BIT_MASK_LR 5 0.
Definition ARM_SMMU_CR0 : Z := 0x20.
Definition CR0_CMDQEN : Z := Z.shiftl 1 3.
Definition CR0_EVTQEN : Z := Z.shiftl 1 2.
Definition CR0_SMMUEN : Z := Z.shiftl 1 0.
Definition ARM_SMMU_CR0ACK : Z := 0x24.
Definition ARM_SMMU_CR1 : Z := 0x28.
Definition CR1_TABLE_SH : Z := BIT_MASK_LR 11 10.
Definition CR1_TABLE_OC : Z := BIT_MASK_LR 9 8.
Definition CR1_TABLE_IC : Z := BIT_MASK_LR 7 6.
Definition CR1_QUEUE_SH : Z := BIT_MASK_LR 5 4.
Definition CR1_QUEUE_OC : Z := BIT_MASK_LR 3 2.
Definition CR1_QUEUE_IC : Z := BIT_MASK_LR 1 0.
Definition CR1_CACHE_WB : Z := 1.
Definition ARM_SMMU_STRTAB_BASE : Z := 0x80.
Definition STRTAB_BASE_RA : Z := Z.shiftl 1 62.
Definition STRTAB_BASE_ADDR_MASK : Z := BIT_MASK_LR 51 6.
Definition ARM_SMMU_STRTAB_BASE_CFG : Z := 0x88.
Definition STRTAB_BASE_CFG_FMT : Z := BIT_MASK_LR 17 16.
Definition STRTAB_BASE_CFG_FMT_LINEAR : Z := 0.
Definition STRTAB_BASE_CFG_FMT_2LVL : Z := 1.
Definition STRTAB_BASE_CFG_SPLIT : Z := BIT_MASK_LR 10 6.
Definition STRTAB_BASE_CFG_LOG2SIZE : Z := BIT_MASK_LR 5 0.
Definition ARM_SMMU_CMDQ_BASE : Z := 0x90.
Definition ARM_SMMU_CMDQ_PROD : Z := 0x98.
Definition ARM_SMMU_CMDQ_CONS : Z := 0x9c.
Definition ARM_SMMU_EVTQ_BASE : Z := 0xa0.
Definition ARM_SMMU_EVTQ_PROD : Z := 0x100a8.
Definition ARM_SMMU_EVTQ_CONS : Z := 0x100ac.
Definition ARM_SMMU_GERROR : Z := 0x60.
Definition GERROR_CMDQ_ERR : Z := Z.shiftl 1 0.
Definition GERROR_EVTQ_ABT_ERR : Z := Z.shiftl 1 2.
Definition ARM_SMMU_GERRORN : Z := 0x64.
Definition ARM_SMMU_SH_ISH : Z := 3.
Definition ARM_SMMU_MEMATTR_OIWB : Z := 0xf.

Definition Q_IDX (reg shift : Z) : Z := Z.land reg (Z.shiftl 1 shift - 1).
Definition Q_WRP (reg shift : Z) : Z := Z.land reg (Z.shiftl 1 shift).
Definition Q_OVF (reg : Z) : Z := Z.land reg (Z.shiftl 1 31).
Definition Q_EMPTY (prod cons shift : Z) : bool := (Q_IDX prod shift =? Q_IDX cons shift) && (Q_WRP prod shift =? Q_WRP cons shift).
Definition Q_FULL (prod cons shift : Z) : bool := (Q_IDX prod shift =? Q_IDX cons shift) && negb (Q_WRP prod shift =? Q_WRP cons shift).
Definition Q_BASE_RWA : Z := Z.shiftl 1 62.
Definition Q_BASE_ADDR_MASK : Z := BIT_MASK_LR 51 5.
Definition Q_BASE_LOG2SIZE : Z := BIT_MASK_LR 4 0.

Definition STRTAB_L1_SZ_SHIFT : Z := 20.
Definition STRTAB_SPLIT : Z := 8.
Definition STRTAB_L1_DESC_DWORDS : Z := 1.
Definition STRTAB_L1_DESC_SIZE : Z := Z.shiftl STRTAB_L1_DESC_DWORDS 3.
Definition STRTAB_L1_DESC_SPAN : Z := BIT_MASK_LR 4 0.
Definition STRTAB_L1_DESC_L2PTR_MASK : Z := BIT_MASK_LR 51 6.
Definition STRTAB_STE_DWORDS_BITS : Z := 3.
Definition STRTAB_STE_DWORDS : Z := Z.shiftl 1 STRTAB_STE_DWORDS_BITS.
Definition STRTAB_STE_SIZE : Z := Z.shiftl STRTAB_STE_DWORDS 3.
Definition STRTAB_STE_0_V : Z := Z.shiftl 1 0.
Definition STRTAB_STE_0_CFG : Z := BIT_MASK_LR 3 1.
Definition STRTAB_STE_0_CFG_BYPASS : Z := 4.
Definition STRTAB_STE_0_CFG_S2_TRANS : Z := 6.
Definition STRTAB_STE_1_SHCFG : Z := BIT_MASK_LR 45 44.
Definition STRTAB_STE_1_SHCFG_INCOMING : Z := 1.
Definition STRTAB_STE_2_S2VMID : Z := BIT_MASK_LR 15 0.
Definition STRTAB_STE_2_VTCR : Z := BIT_MASK_LR 50 32.
Definition STRTAB_STE_2_S2AA64 : Z := Z.shiftl 1 51.
Definition STRTAB_STE_2_S2PTW : Z := Z.shiftl 1 54.
Definition STRTAB_STE_2_S2R : Z := Z.shiftl 1 58.
Definition STRTAB_STE_3_S2TTB_MASK : Z := BIT_MASK_LR 51 4.

Definition CMDQ_ENT_DWORDS : Z := 2.
Definition CMDQ_MAX_SZ_SHIFT : Z := 8.
Definition CMDQ_0_OP : Z := BIT_MASK_LR 7 0.
Definition CMDQ_PREFETCH_0_SID : Z := BIT_MASK_LR 63 32.
Definition CMDQ_PREFETCH_1_SIZE : Z := BIT_MASK_LR 4 0.
Definition CMDQ_PREFETCH_1_ADDR_MASK : Z := BIT_MASK_LR 63 12.
Definition CMDQ_CFGI_0_SID : Z := BIT_MASK_LR 63 32.
Definition CMDQ_CFGI_1_LEAF : Z := Z.shiftl 1 0.
Definition CMDQ_CFGI_1_RANGE : Z := BIT_MASK_LR 4 0.
Definition CMDQ_TLBI_0_VMID : Z := BIT_MASK_LR 47 32.
Definition CMDQ_TLBI_0_ASID : Z := BIT_MASK_LR 63 48.
Definition CMDQ_TLBI_1_LEAF : Z := Z.shiftl 1 0.
Definition CMDQ_TLBI_1_VA_MASK : Z := BIT_MASK_LR 63 12.
Definition CMDQ_TLBI_1_IPA_MASK : Z := BIT_MASK_LR 51 12.
Definition CMDQ_SYNC_0_CS : Z := BIT_MASK_LR 13 12.
Definition CMDQ_SYNC_0_CS_IRQ : Z := 1.
Definition CMDQ_SYNC_0_CS_SEV : Z := 2.
Definition CMDQ_SYNC_0_MSH : Z := BIT_MASK_LR 23 22.
Definition CMDQ_SYNC_0_MSIATTR : Z := BIT_MASK_LR 27 24.
Definition CMDQ_SYNC_0_MSIDATA : Z := BIT_MASK_LR 63 32.
Definition CMDQ_SYNC_1_MSIADDR_MASK : Z := BIT_MASK_LR 51 2.
Definition EVTQ_ENT_DWORDS : Z := 4.
Definition EVTQ_MAX_SZ_SHIFT : Z := 7.
Definition ARM_SMMU_SYNC_TIMEOUT : Z := 1000000.
Definition ARM_SMMU_FEAT_2_LVL_STRTAB : Z := Z.shiftl 1 0.

(** ** Commands *)

(** [struct arm_smmu_cmdq_ent], by opcode, with the fields its case uses. *)
Inductive cmdq_ent :=
| TLBI_EL2_ALL
| TLBI_NSNH_ALL
| PREFETCH_ADDR (sid size addr : Z)
| PREFETCH_CFG (sid : Z)
| CFGI_STE (sid : Z) (leaf : bool)
| CFGI_ALL
| TLBI_NH_VA (asid vmid : Z) (leaf : bool) (addr : Z)
| TLBI_S2_IPA (vmid : Z) (leaf : bool) (addr : Z)
| TLBI_NH_ASID (asid vmid : Z)
| TLBI_S12_VMALL (vmid : Z)
| CMD_SYNC (msidata msiaddr : Z)
| UNKNOWN (opcode : Z).

Definition opcode (e : cmdq_ent) : Z :=
  match e with
  | PREFETCH_CFG _ => 0x1 | PREFETCH_ADDR _ _ _ => 0x2 | CFGI_STE _ _ => 0x3 | CFGI_ALL => 0x4
  | TLBI_NH_ASID _ _ => 0x11 | TLBI_NH_VA _ _ _ _ => 0x12 | TLBI_EL2_ALL => 0x20 | TLBI_S12_VMALL _ => 0x28
  | TLBI_S2_IPA _ _ _ => 0x2a | TLBI_NSNH_ALL => 0x30 | CMD_SYNC _ _ => 0x46 | UNKNOWN op => op
  end.

(** The two words of the command; an unknown opcode ends in the error exit. *)
Definition arm_smmu_cmdq_build_cmd (ent : cmdq_ent) : outcome (Z * Z) :=
  let op := FIELD_PREP CMDQ_0_OP (opcode ent) in
  match ent with
  | TLBI_EL2_ALL | TLBI_NSNH_ALL => Ok (op, 0)
  | PREFETCH_ADDR sid size addr =>
      Ok (Z.lor op (FIELD_PREP CMDQ_PREFETCH_0_SID sid),
          Z.lor (FIELD_PREP CMDQ_PREFETCH_1_SIZE size) (Z.land addr CMDQ_PREFETCH_1_ADDR_MASK))
  | PREFETCH_CFG sid => Ok (Z.lor op (FIELD_PREP CMDQ_PREFETCH_0_SID sid), 0)
  | CFGI_STE sid leaf => Ok (Z.lor op (FIELD_PREP CMDQ_CFGI_0_SID sid), FIELD_PREP CMDQ_CFGI_1_LEAF (Z.b2z leaf))
  | CFGI_ALL => Ok (op, FIELD_PREP CMDQ_CFGI_1_RANGE 31)
  | TLBI_NH_VA asid vmid leaf addr =>
      Ok (Z.lor (Z.lor op (FIELD_PREP CMDQ_TLBI_0_ASID asid)) (FIELD_PREP CMDQ_TLBI_0_VMID vmid),
          Z.lor (FIELD_PREP CMDQ_TLBI_1_LEAF (Z.b2z leaf)) (Z.land addr CMDQ_TLBI_1_VA_MASK))
  | TLBI_S2_IPA vmid leaf addr =>
      Ok (Z.lor op (FIELD_PREP CMDQ_TLBI_0_VMID vmid),
          Z.lor (FIELD_PREP CMDQ_TLBI_1_LEAF (Z.b2z leaf)) (Z.land addr CMDQ_TLBI_1_IPA_MASK))
  | TLBI_NH_ASID asid vmid =>
      Ok (Z.lor (Z.lor op (FIELD_PREP CMDQ_TLBI_0_ASID asid)) (FIELD_PREP CMDQ_TLBI_0_VMID vmid), 0)
  | TLBI_S12_VMALL vmid => Ok (Z.lor op (FIELD_PREP CMDQ_TLBI_0_VMID vmid), 0)
  | CMD_SYNC msidata msiaddr =>
      let op := Z.lor op (FIELD_PREP CMDQ_SYNC_0_CS (if msiaddr =? 0 then CMDQ_SYNC_0_CS_SEV else CMDQ_SYNC_0_CS_IRQ)) in
      Ok (Z.lor op (Z.lor (FIELD_PREP CMDQ_SYNC_0_MSH ARM_SMMU_SH_ISH)
            (Z.lor (FIELD_PREP CMDQ_SYNC_0_MSIATTR ARM_SMMU_MEMATTR_OIWB) (FIELD_PREP CMDQ_SYNC_0_MSIDATA msidata))),
          Z.land msiaddr CMDQ_SYNC_1_MSIADDR_MASK)
  | UNKNOWN _ => Halt HError
  end.

(** ** The device *)

Record arm_smmu_queue := Queue {
  q_base_addr : Z;
  q_base : Z;
  ent_dwords : Z;
  max_n_shift : Z;
  prod : Z;
  cons : Z;
  prod_reg : Z;
  cons_reg : Z;
  gerr_mask : Z;
}.

Record arm_smmu_strtab_cfg := StrtabCfg {
  strtab : Z;
  l1_desc : Z;
  num_l1_ents : Z;
  strtab_base : Z;
  strtab_base_cfg : Z;
}.

(** [base_dma], [strtab_dma] and [l2ptr_dma] are the addresses they are computed
    from: [paging_hvirt2phys] is the identity. *)
Record arm_smmu_device := Device {
  base : Z;
  features : Z;
  cmdq : arm_smmu_queue;
  cmdq_lock : spinlock_t;
  evtq : arm_smmu_queue;
  sid_bits : Z;
  scfg : arm_smmu_strtab_cfg;
}.

Definition set_q_base_addr (b : Z) (q : arm_smmu_queue) : arm_smmu_queue :=
  Queue b (q_base q) (ent_dwords q) (max_n_shift q) (prod q) (cons q) (prod_reg q) (cons_reg q) (gerr_mask q).
Definition set_prod (p : Z) (q : arm_smmu_queue) : arm_smmu_queue :=
  Queue (q_base_addr q) (q_base q) (ent_dwords q) (max_n_shift q) p (cons q) (prod_reg q) (cons_reg q) (gerr_mask q).
Definition set_cons (c : Z) (q : arm_smmu_queue) : arm_smmu_queue :=
  Queue (q_base_addr q) (q_base q) (ent_dwords q) (max_n_shift q) (prod q) c (prod_reg q) (cons_reg q) (gerr_mask q).
Definition set_shift (n : Z) (q : arm_smmu_queue) : arm_smmu_queue :=
  Queue (q_base_addr q) (q_base q) (ent_dwords q) n (prod q) (cons q) (prod_reg q) (cons_reg q) (gerr_mask q).

Definition set_cmdq (q : arm_smmu_queue) (d : arm_smmu_device) : arm_smmu_device := Device (base d) (features d) q (cmdq_lock d) (evtq d) (sid_bits d) (scfg d).
Definition set_cmdq_lock (l : spinlock_t) (d : arm_smmu_device) : arm_smmu_device := Device (base d) (features d) (cmdq d) l (evtq d) (sid_bits d) (scfg d).
Definition set_evtq (q : arm_smmu_queue) (d : arm_smmu_device) : arm_smmu_device := Device (base d) (features d) (cmdq d) (cmdq_lock d) q (sid_bits d) (scfg d).
Definition set_features (f : Z) (d : arm_smmu_device) : arm_smmu_device := Device (base d) f (cmdq d) (cmdq_lock d) (evtq d) (sid_bits d) (scfg d).
Definition set_sid_bits (n : Z) (d : arm_smmu_device) : arm_smmu_device := Device (base d) (features d) (cmdq d) (cmdq_lock d) (evtq d) n (scfg d).
Definition set_scfg (c : arm_smmu_strtab_cfg) (d : arm_smmu_device) : arm_smmu_device := Device (base d) (features d) (cmdq d) (cmdq_lock d) (evtq d) (sid_bits d) c.

(** The SMMU: its registers, by offset, and what it does with the memory when it
    gets to run. *)
Class SmmuHw (D : Type) := {
  reg_read : D -> Z -> Z;
  reg_write32 : D -> Z -> Z -> D;
  reg_write64 : D -> Z -> Z -> D;
  work : D -> mem -> D;
}.

Section driver.
Context {D : Type} `{SmmuHw D}.

(** The SMMU, the memory it shares with the driver, and the driver's own state. *)
Record sys := Sys { dev : D; ram : mem; pool : page_pool; smmu : arm_smmu_device }.

Definition set_dev (d : D) (s : sys) : sys := Sys d (ram s) (pool s) (smmu s).
Definition set_ram (m : mem) (s : sys) : sys := Sys (dev s) m (pool s) (smmu s).
Definition set_smmu (x : arm_smmu_device) (s : sys) : sys := Sys (dev s) (ram s) (pool s) x.

(** Register accesses; [addr] is an address, the device is at [base]. *)
Definition mmio_read32 (addr : Z) (s : sys) : Z * sys :=
  let d := work (dev s) (ram s) in (reg_read d (addr - base (smmu s)), set_dev d s).
Definition mmio_write32 (addr value : Z) (s : sys) : sys := set_dev (reg_write32 (dev s) (addr - base (smmu s)) value) s.
Definition mmio_write64 (addr value : Z) (s : sys) : sys := set_dev (reg_write64 (dev s) (addr - base (smmu s)) value) s.

(** *** Queues *)

Definition queue_full (q : arm_smmu_queue) : bool := Q_FULL (prod q) (cons q) (max_n_shift q).
Definition queue_empty (q : arm_smmu_queue) : bool := Q_EMPTY (prod q) (cons q) (max_n_shift q).

Definition queue_sync_cons (s : sys) : sys :=
  let q := cmdq (smmu s) in
  let '(c, s) := mmio_read32 (cons_reg q) s in
  set_smmu (set_cmdq (set_cons c q) (smmu s)) s.

Definition queue_error (s : sys) : bool * sys :=
  let '(gerror, s) := mmio_read32 (base (smmu s) + ARM_SMMU_GERROR) s in
  let '(gerrorn, s) := mmio_read32 (base (smmu s) + ARM_SMMU_GERRORN) s in
  (negb (Z.land (Z.lxor gerror gerrorn) (gerr_mask (cmdq (smmu s))) =? 0), s).

Definition inc_prod (p shift : Z) : Z :=
  let p' := u32 (Z.lor (Q_WRP p shift) (Q_IDX p shift) + 1) in
  Z.lor (Q_OVF p) (Z.lor (Q_WRP p' shift) (Q_IDX p' shift)).

Definition queue_inc_prod (s : sys) : sys :=
  let q := cmdq (smmu s) in
  let q := set_prod (inc_prod (prod q) (max_n_shift q)) q in
  mmio_write32 (prod_reg q) (prod q) (set_smmu (set_cmdq q (smmu s)) s).

(** The commands have two words; [ent_dwords] of the command queue is 2. *)
Definition queue_write (dst : Z) (cmd : Z * Z) (m : mem) : mem := store64 (store64 m dst cmd.1) (dst + 8) cmd.2.

Definition queue_entry (q : arm_smmu_queue) (reg : Z) : Z := u64 (q_base_addr q + Q_IDX reg (max_n_shift q) * ent_dwords q * 8).

Definition arm_smmu_cmdq_skip_err (s : sys) : outcome sys :=
  let q := cmdq (smmu s) in
  cmd ← arm_smmu_cmdq_build_cmd (CMD_SYNC 0 0);
  let s := set_ram (queue_write (queue_entry q (cons q)) cmd (ram s)) s in
  let '(gerrorn, s) := mmio_read32 (base (smmu s) + ARM_SMMU_GERRORN) s in
  Ok (mmio_write32 (base (smmu s) + ARM_SMMU_GERRORN) (Z.lxor gerrorn GERROR_CMDQ_ERR) s).

(** A turn of the loop that waits for the queue to become empty. *)
Definition drain_body (s : sys) : outcome sys :=
  let s := queue_sync_cons s in
  let '(err, s) := queue_error s in
  if err then arm_smmu_cmdq_skip_err s else Ok s.

Definition drain (fuel : nat) (s : sys) : outcome sys :=
  while fuel (fun s => Ok (negb (queue_empty (cmdq (smmu s))))) drain_body s.

Definition arm_smmu_cmdq_insert_cmd (fuel : nat) (cmd : Z * Z) (s : sys) : outcome sys :=
  s ← while fuel (fun s => Ok (queue_full (cmdq (smmu s)))) (fun s => Ok (queue_sync_cons s)) s;
  let q := cmdq (smmu s) in
  let s := set_ram (queue_write (queue_entry q (prod q)) cmd (ram s)) s in
  drain fuel (queue_inc_prod s).

Definition arm_smmu_cmdq_issue_cmd (fuel : nat) (ent : cmdq_ent) (s : sys) : outcome sys :=
  cmd ← arm_smmu_cmdq_build_cmd ent;
  l ← spin_lock (cmdq_lock (smmu s));
  s ← arm_smmu_cmdq_insert_cmd fuel cmd (set_smmu (set_cmdq_lock l (smmu s)) s);
  Ok (set_smmu (set_cmdq_lock (spin_unlock (cmdq_lock (smmu s))) (smmu s)) s).

Definition arm_smmu_cmdq_issue_sync (fuel : nat) (s : sys) : outcome sys := arm_smmu_cmdq_issue_cmd fuel (CMD_SYNC 0 0) s.

(** *** The stream table *)

Definition off_span : Z := 0.
Definition off_l2ptr : Z := 8.
Definition off_l2ptr_dma : Z := 16.
Definition off_active_stes : Z := 24.
Definition sizeof_l1_desc : Z := 32.

(** [desc] is the address of a [struct arm_smmu_strtab_l1_desc]. *)
Definition arm_smmu_write_strtab_l1_desc (dst desc : Z) (m : mem) : mem :=
  let val := FIELD_PREP STRTAB_L1_DESC_SPAN (load8 m (desc + off_span)) in
  let val := Z.lor val (Z.land (load64 m (desc + off_l2ptr_dma)) STRTAB_L1_DESC_L2PTR_MASK) in
  store64 m dst val.

Definition arm_smmu_sync_ste_for_sid (fuel : nat) (sid : Z) (s : sys) : outcome sys :=
  s ← arm_smmu_cmdq_issue_cmd fuel (CFGI_STE sid true) s;
  arm_smmu_cmdq_issue_sync fuel s.

Definition VTCR_CELL : Z :=
  Z.lor (Z.lor 0 (Z.shiftl 1 6)) (Z.lor (Z.shiftl 1 8) (Z.lor (Z.shiftl 1 10) (Z.lor (Z.shiftl 3 12) VTCR_RES1))).

Definition ste_bypass_0 : Z := Z.lor STRTAB_STE_0_V (FIELD_PREP STRTAB_STE_0_CFG STRTAB_STE_0_CFG_BYPASS).

Definition write_bypass_ste (dst vmid : Z) (m : mem) : mem :=
  let m := store64 m (dst + 8) (FIELD_PREP STRTAB_STE_1_SHCFG STRTAB_STE_1_SHCFG_INCOMING) in
  let m := store64 m (dst + 16) (FIELD_PREP STRTAB_STE_2_S2VMID vmid) in
  store64 m dst ste_bypass_0.

Definition ste_s2_2 (vmid : Z) : Z :=
  Z.lor (FIELD_PREP STRTAB_STE_2_S2VMID vmid) (Z.lor (FIELD_PREP STRTAB_STE_2_VTCR VTCR_CELL)
    (Z.lor STRTAB_STE_2_S2PTW (Z.lor STRTAB_STE_2_S2AA64 STRTAB_STE_2_S2R))).
Definition ste_s2_0 : Z := Z.lor (FIELD_PREP STRTAB_STE_0_CFG STRTAB_STE_0_CFG_S2_TRANS) STRTAB_STE_0_V.

(** [notify] says that the argument [smmu] is not NULL. *)
Definition arm_smmu_write_strtab_ent (fuel : nat) (notify : bool) (sid dst : Z) (bypass : bool) (vmid root_pt : Z) (s : sys) : outcome sys :=
  if bypass then
    let s := set_ram (write_bypass_ste dst vmid (ram s)) s in
    if notify then arm_smmu_sync_ste_for_sid fuel sid s else Ok s
  else
    let s := set_ram (store64 (ram s) (dst + 16) (ste_s2_2 vmid)) s in
    let s := set_ram (store64 (ram s) (dst + 24) (Z.land root_pt STRTAB_STE_3_S2TTB_MASK)) s in
    s ← arm_smmu_sync_ste_for_sid fuel sid s;
    let s := set_ram (store64 (ram s) dst ste_s2_0) s in
    arm_smmu_sync_ste_for_sid fuel sid s.

(** [CURRENT_VM]: the number and the page table of the VM of the running virtual
    CPU; without one the access is through a null pointer. *)
Definition CURRENT_VM (current : option (Z * Z)) : outcome (Z * Z) := match current with Some v => Ok v | None => Halt HFault end.

Definition arm_smmu_init_bypass_stes (current : option (Z * Z)) (tab nent : Z) (m : mem) : outcome mem :=
  for_loop (Z.to_nat nent) 0 (fun n m => '(id, _) ← CURRENT_VM current; Ok (write_bypass_ste (tab + n * STRTAB_STE_SIZE) (u32 id) m)) m.

Definition ENOMEM : Z := 12.

Definition alloc (n : Z) (aligned : bool) (s : sys) : outcome (Z * sys) :=
  '(p, pl) ← mem_alloc_page (pool s) n aligned; Ok (p, Sys (dev s) (ram s) pl (smmu s)).

Definition arm_smmu_init_strtab_linear (current : option (Z * Z)) (s : sys) : outcome (Z * sys) :=
  let x := smmu s in
  let size := u32 (lsl32 1 (sid_bits x) * STRTAB_STE_SIZE) in
  '(tab, s) ← alloc (NUM_PAGES size) true s;
  if tab =? 0 then Ok (- ENOMEM, s) else
  let n := lsl32 1 (sid_bits x) in
  let reg := Z.lor (FIELD_PREP STRTAB_BASE_CFG_FMT STRTAB_BASE_CFG_FMT_LINEAR) (FIELD_PREP STRTAB_BASE_CFG_LOG2SIZE (sid_bits x)) in
  let c := scfg x in
  let s := set_smmu (set_scfg (StrtabCfg tab (l1_desc c) n (strtab_base c) (u32 reg)) x) s in
  m ← arm_smmu_init_bypass_stes current tab n (ram s);
  Ok (0, set_ram m s).

Definition arm_smmu_init_l1_strtab (s : sys) : outcome (Z * sys) :=
  let c := scfg (smmu s) in
  let size := u32 (sizeof_l1_desc * num_l1_ents c) in
  '(d, s) ← alloc (NUM_PAGES size) false s;
  let s := set_smmu (set_scfg (StrtabCfg (strtab c) d (num_l1_ents c) (strtab_base c) (strtab_base_cfg c)) (smmu s)) s in
  if d =? 0 then Ok (- ENOMEM, s) else
  m ← for_loop (Z.to_nat (num_l1_ents c)) 0 (fun n m =>
        m ← memset m (d + n * sizeof_l1_desc) 0 sizeof_l1_desc;
        Ok (arm_smmu_write_strtab_l1_desc (strtab c + n * STRTAB_L1_DESC_SIZE) (d + n * sizeof_l1_desc) m)) (ram s);
  Ok (0, set_ram m s).

Definition MIN (a b : Z) : Z := if a <=? b then a else b.

Definition arm_smmu_init_strtab_2lvl (s : sys) : outcome (Z * sys) :=
  let x := smmu s in
  let size := u32 (STRTAB_L1_SZ_SHIFT - 3) in
  let size := MIN size (u32 (sid_bits x - STRTAB_SPLIT)) in
  let n := lsl32 1 size in
  let size := u32 (size + STRTAB_SPLIT) in
  let x := if size <? sid_bits x then set_sid_bits size x else x in
  let l1size := u32 (n * STRTAB_L1_DESC_SIZE) in
  '(tab, s) ← alloc (NUM_PAGES l1size) true s;
  let c := scfg x in
  if tab =? 0 then Ok (- ENOMEM, set_smmu (set_scfg (StrtabCfg (strtab c) (l1_desc c) n (strtab_base c) (strtab_base_cfg c)) x) s) else
  let reg := Z.lor (FIELD_PREP STRTAB_BASE_CFG_FMT STRTAB_BASE_CFG_FMT_2LVL)
    (Z.lor (FIELD_PREP STRTAB_BASE_CFG_LOG2SIZE size) (FIELD_PREP STRTAB_BASE_CFG_SPLIT STRTAB_SPLIT)) in
  arm_smmu_init_l1_strtab (set_smmu (set_scfg (StrtabCfg tab (l1_desc c) n (strtab_base c) (u32 reg)) x) s).

Definition arm_smmu_init_strtab (current : option (Z * Z)) (s : sys) : outcome (Z * sys) :=
  '(ret, s) ← (if negb (Z.land (features (smmu s)) ARM_SMMU_FEAT_2_LVL_STRTAB =? 0)
               then arm_smmu_init_strtab_2lvl s else arm_smmu_init_strtab_linear current s);
  if negb (ret =? 0) then Ok (ret, s) else
  let c := scfg (smmu s) in
  let reg := Z.lor (Z.land (strtab c) STRTAB_BASE_ADDR_MASK) STRTAB_BASE_RA in
  Ok (0, set_smmu (set_scfg (StrtabCfg (strtab c) (l1_desc c) (num_l1_ents c) reg (strtab_base_cfg c)) (smmu s)) s).

(** *** Set-up *)

Definition arm_smmu_init_one_queue (q : arm_smmu_queue) (prod_off cons_off dwords gerr : Z) (s : sys) : outcome (Z * arm_smmu_queue * sys) :=
  '(b, s) ← alloc 1 false s;
  if b =? 0 then Ok (- ENOMEM, set_q_base_addr b q, s) else
  let qb := Z.lor (Z.lor Q_BASE_RWA (Z.land b Q_BASE_ADDR_MASK)) (FIELD_PREP Q_BASE_LOG2SIZE (max_n_shift q)) in
  Ok (0, Queue b qb dwords (max_n_shift q) 0 0 (u64 (base (smmu s) + prod_off)) (u64 (base (smmu s) + cons_off)) gerr, s).

Definition arm_smmu_init_queues (s : sys) : outcome (Z * sys) :=
  '(ret, q, s) ← arm_smmu_init_one_queue (cmdq (smmu s)) ARM_SMMU_CMDQ_PROD ARM_SMMU_CMDQ_CONS CMDQ_ENT_DWORDS GERROR_CMDQ_ERR s;
  let s := set_smmu (set_cmdq q (smmu s)) s in
  if negb (ret =? 0) then Ok (ret, s) else
  '(ret, q, s) ← arm_smmu_init_one_queue (evtq (smmu s)) ARM_SMMU_EVTQ_PROD ARM_SMMU_EVTQ_CONS EVTQ_ENT_DWORDS GERROR_EVTQ_ABT_ERR s;
  Ok (ret, set_smmu (set_evtq q (smmu s)) s).

Definition arm_smmu_init_structures (current : option (Z * Z)) (s : sys) : outcome (Z * sys) :=
  '(ret, s) ← arm_smmu_init_queues s;
  if negb (ret =? 0) then Ok (ret, s) else arm_smmu_init_strtab current s.

(** [n] reads of the acknowledge register are left. *)
Fixpoint wait_ack (n : nat) (val ack_off : Z) (s : sys) : outcome sys :=
  match n with
  | O => Halt HError
  | S n => let '(v, s) := mmio_read32 (base (smmu s) + ack_off) s in if v =? val then Ok s else wait_ack n val ack_off s
  end.

Definition arm_smmu_write_reg_sync (val reg_off ack_off : Z) (s : sys) : outcome sys :=
  wait_ack (Z.to_nat ARM_SMMU_SYNC_TIMEOUT) val ack_off (mmio_write32 (base (smmu s) + reg_off) val s).

Definition cr1_value : Z :=
  Z.lor (FIELD_PREP CR1_TABLE_SH ARM_SMMU_SH_ISH) (Z.lor (FIELD_PREP CR1_TABLE_OC CR1_CACHE_WB) (Z.lor (FIELD_PREP CR1_TABLE_IC CR1_CACHE_WB)
    (Z.lor (FIELD_PREP CR1_QUEUE_SH ARM_SMMU_SH_ISH) (Z.lor (FIELD_PREP CR1_QUEUE_OC CR1_CACHE_WB) (FIELD_PREP CR1_QUEUE_IC CR1_CACHE_WB))))).

Definition arm_smmu_device_reset (fuel : nat) (s : sys) : outcome sys :=
  let at_ off := base (smmu s) + off in
  s ← arm_smmu_write_reg_sync 0 ARM_SMMU_CR0 ARM_SMMU_CR0ACK s;
  let s := mmio_write32 (at_ ARM_SMMU_CR1) (u32 cr1_value) s in
  let s := mmio_write64 (at_ ARM_SMMU_STRTAB_BASE) (strtab_base (scfg (smmu s))) s in
  let s := mmio_write32 (at_ ARM_SMMU_STRTAB_BASE_CFG) (strtab_base_cfg (scfg (smmu s))) s in
  let s := mmio_write64 (at_ ARM_SMMU_CMDQ_BASE) (q_base (cmdq (smmu s))) s in
  let s := mmio_write32 (at_ ARM_SMMU_CMDQ_PROD) (prod (cmdq (smmu s))) s in
  let s := mmio_write32 (at_ ARM_SMMU_CMDQ_CONS) (cons (cmdq (smmu s))) s in
  s ← arm_smmu_write_reg_sync CR0_CMDQEN ARM_SMMU_CR0 ARM_SMMU_CR0ACK s;
  s ← arm_smmu_cmdq_issue_cmd fuel CFGI_ALL s;
  s ← arm_smmu_cmdq_issue_sync fuel s;
  s ← arm_smmu_cmdq_issue_cmd fuel TLBI_NSNH_ALL s;
  s ← arm_smmu_cmdq_issue_cmd fuel TLBI_EL2_ALL s;
  s ← arm_smmu_cmdq_issue_sync fuel s;
  let s := mmio_write64 (at_ ARM_SMMU_EVTQ_BASE) (q_base (evtq (smmu s))) s in
  let s := mmio_write32 (at_ ARM_SMMU_EVTQ_PROD) (prod (evtq (smmu s))) s in
  let s := mmio_write32 (at_ ARM_SMMU_EVTQ_CONS) (cons (evtq (smmu s))) s in
  s ← arm_smmu_write_reg_sync (Z.lor CR0_CMDQEN CR0_EVTQEN) ARM_SMMU_CR0 ARM_SMMU_CR0ACK s;
  arm_smmu_write_reg_sync (Z.lor (Z.lor CR0_CMDQEN CR0_EVTQEN) CR0_SMMUEN) ARM_SMMU_CR0 ARM_SMMU_CR0ACK s.

Definition arm_smmu_device_init_features (s : sys) : outcome sys :=
  let '(_, s) := mmio_read32 (base (smmu s) + SMMU_AIDR) s in
  let '(reg, s) := mmio_read32 (base (smmu s) + ARM_SMMU_IDR0) s in
  let f := if FIELD_GET IDR0_ST_LVL reg =? IDR0_ST_LVL_2LVL then ARM_SMMU_FEAT_2_LVL_STRTAB else 0 in
  if Z.land reg IDR0_S2P =? 0 then Halt HError else
  let f := if FIELD_GET IDR0_S1P reg =? 0 then f else Z.lor f IDR0_S1P in
  let f := if FIELD_GET IDR0_VMID16 reg =? 0 then f else Z.lor f IDR0_VMID16 in
  let '(reg, s) := mmio_read32 (base (smmu s) + ARM_SMMU_IDR1) s in
  if negb (Z.land reg (Z.lor IDR1_TABLES_PRESET (Z.lor IDR1_QUEUES_PRESET IDR1_REL)) =? 0) then Halt HError else
  let n := MIN CMDQ_MAX_SZ_SHIFT (FIELD_GET IDR1_CMDQS reg) in
  if n =? 0 then Halt HError else
  let e := MIN EVTQ_MAX_SZ_SHIFT (FIELD_GET IDR1_EVTQS reg) in
  let sb := FIELD_GET IDR1_SIDSIZE reg in
  let f := if sb <=? STRTAB_SPLIT then Z.land f (not32 ARM_SMMU_FEAT_2_LVL_STRTAB) else f in
  let x := smmu s in
  Ok (set_smmu (set_sid_bits sb (set_features f (set_evtq (set_shift e (evtq x)) (set_cmdq (set_shift n (cmdq x)) x)))) s).

(** The results of the three calls are not looked at. *)
Definition arm_smmuv3_init (fuel : nat) (plat_base : Z) (current : option (Z * Z)) (s : sys) : outcome sys :=
  let x := smmu s in
  let s := set_smmu (Device plat_base (features x) (cmdq x) (cmdq_lock x) (evtq x) (sid_bits x) (scfg x)) s in
  s ← arm_smmu_device_init_features s;
  '(_, s) ← arm_smmu_init_structures current s;
  arm_smmu_device_reset fuel s.

(** *** Devices of a VM *)

Definition arm_smmu_init_l2_strtab (fuel : nat) (current : option (Z * Z)) (sid : Z) (s : sys) : outcome (Z * sys) :=
  let c := scfg (smmu s) in
  let i := Z.shiftr sid STRTAB_SPLIT in
  let desc := l1_desc c + i * sizeof_l1_desc in
  if negb (load64 (ram s) (desc + off_l2ptr) =? 0) then
    Ok (0, set_ram (store32 (ram s) (desc + off_active_stes) (u32 (load32 (ram s) (desc + off_active_stes) + 1))) s)
  else
    let size := Z.shiftl 1 (STRTAB_SPLIT + STRTAB_STE_DWORDS_BITS + 3) in
    let dst := strtab c + i * STRTAB_L1_DESC_DWORDS * 8 in
    let s := set_ram (store8 (ram s) (desc + off_span) (STRTAB_SPLIT + 1)) s in
    '(l2, s) ← alloc (NUM_PAGES size) true s;
    let s := set_ram (store64 (ram s) (desc + off_l2ptr) l2) s in
    if l2 =? 0 then Halt HError else
    let s := set_ram (store64 (ram s) (desc + off_l2ptr_dma) l2) s in
    let s := set_ram (store32 (ram s) (desc + off_active_stes) 1) s in
    m ← arm_smmu_init_bypass_stes current l2 (Z.shiftl 1 STRTAB_SPLIT) (ram s);
    let s := set_ram (arm_smmu_write_strtab_l1_desc dst desc m) s in
    s ← arm_smmu_cmdq_issue_cmd fuel (CFGI_STE sid false) s;
    Ok (0, s).

Definition arm_smmu_get_step_for_sid (sid : Z) (s : sys) : Z :=
  let c := scfg (smmu s) in
  if negb (Z.land (features (smmu s)) ARM_SMMU_FEAT_2_LVL_STRTAB =? 0) then
    let d := l1_desc c + Z.shiftr sid STRTAB_SPLIT * STRTAB_L1_DESC_DWORDS * sizeof_l1_desc in
    load64 (ram s) (d + off_l2ptr) + Z.land sid (Z.shiftl 1 STRTAB_SPLIT - 1) * STRTAB_STE_DWORDS * 8
  else strtab c + u32 (sid * STRTAB_STE_DWORDS) * 8.

Definition arm_smmu_init_ste (fuel : nat) (current : option (Z * Z)) (sid vmid : Z) (s : sys) : outcome (Z * sys) :=
  '(ret, s) ← (if negb (Z.land (features (smmu s)) ARM_SMMU_FEAT_2_LVL_STRTAB =? 0)
               then arm_smmu_init_l2_strtab fuel current sid s else Ok (0, s));
  if negb (ret =? 0) then Ok (ret, s) else
  '(_, root) ← CURRENT_VM current;
  s ← arm_smmu_write_strtab_ent fuel true sid (arm_smmu_get_step_for_sid sid s) false vmid root s;
  Ok (0, s).

Definition arm_smmuv3_vm_dev_init (fuel : nat) (current : option (Z * Z)) (vmid sid : Z) (s : sys) : outcome (Z * sys) :=
  '(ret, s) ← arm_smmu_init_ste fuel current sid (u32 vmid) s;
  if negb (ret =? 0) then Ok (ret, s) else
  s ← arm_smmu_cmdq_issue_cmd fuel (TLBI_S12_VMALL (u16 vmid)) s;
  Ok (0, s).

(** [iommu.c] as compiled with [SMMU_VERSION=3]. *)
Definition iommu_arch_vm_add_device (fuel : nat) (current : option (Z * Z)) (vm_id id : Z) (s : sys) : outcome (bool * sys) :=
  '(ret, s) ← arm_smmuv3_vm_dev_init fuel current vm_id id s; Ok (ret =? 0, s).

Fixpoint iommu_arch_vm_init (fuel : nat) (current : option (Z * Z)) (vm_id : Z) (groups : list Z) (s : sys) : outcome (bool * sys) :=
  match groups with
  | [] => Ok (true, s)
  | id :: groups =>
      '(ret, s) ← arm_smmuv3_vm_dev_init fuel current vm_id id s;
      if negb (ret =? 0) then Ok (false, s) else iommu_arch_vm_init fuel current vm_id groups s
  end.

Definition iommu_arch_init (fuel : nat) (cpu_is_master : bool) (plat_base : Z) (current : option (Z * Z)) (s : sys) : outcome (bool * sys) :=
  if cpu_is_master && negb (plat_base =? 0) then s ← arm_smmuv3_init fuel plat_base current s; Ok (true, s) else Ok (false, s).

End driver.
