(* ===== verification/Smmu3Cmd.v ===== *)
(** The command queue of the SMMUv3 driver ([Smmu3]).

    A queue of [2^shift] commands is read and written at two pointers of
    [shift + 1] bits, the index and a wrap bit.  What the architecture says about
    the SMMU's end of it is the class [SmmuLaws]; [cmdq_executes_in_order] is
    the driver's promise: the commands are executed in order, each once, and the
    queue is empty again when the call returns. *)

From S2P Require Import Prelude Bit Bitmap Spinlock PhysMem Mem ArchVmm Smmu3.

(** ** Pointers *)

Definition ptr (reg shift : Z) : Z := Z.land reg (2 ^ (shift + 1) - 1).

(** The next pointer. *)
Definition nxt (p shift : Z) : Z := (p + 1) mod 2 ^ (shift + 1).

Lemma land_low reg n : 0 <= n -> Z.land reg (2 ^ n - 1) = reg mod 2 ^ n.
Proof. intros Hn. replace (2 ^ n - 1) with (Z.ones n) by (rewrite Z.ones_equiv; lia). by apply Z.land_ones. Qed.

Lemma ptr_mod reg shift : 0 <= shift -> ptr reg shift = reg mod 2 ^ (shift + 1).
Proof. intros Hs. apply land_low. lia. Qed.

Lemma ptr_idx reg shift : 0 <= shift -> ptr reg shift mod 2 ^ shift = reg mod 2 ^ shift.
Proof. intros Hs. rewrite ptr_mod, Z.pow_add_r by lia. apply Z.mod_mod_divide, Z.divide_factor_l. Qed.

Lemma ptr_range reg shift : 0 <= shift -> 0 <= ptr reg shift < 2 ^ (shift + 1).
Proof. intros Hs. rewrite ptr_mod by done. apply Z.mod_pos_bound. apply Z.pow_pos_nonneg; lia. Qed.

Lemma Q_IDX_mod reg shift : 0 <= shift -> Q_IDX reg shift = reg mod 2 ^ shift.
Proof. intros Hs. unfold Q_IDX. rewrite Z.shiftl_mul_pow2, Z.mul_1_l by done. by apply land_low. Qed.

Lemma Q_WRP_mod reg shift : 0 <= shift -> Q_WRP reg shift = 2 ^ shift * ((reg / 2 ^ shift) mod 2).
Proof.
  intros Hs. unfold Q_WRP. apply Z.bits_inj'. intros n Hn. rewrite Z.land_spec, Z.shiftl_spec, testbit_1 by done.
  rewrite Z.mul_comm, <- Z.shiftl_mul_pow2, Z.shiftl_spec by done.
  rewrite <- Z.shiftr_div_pow2 by done. change (Z.shiftr reg shift mod 2) with (Z.shiftr reg shift mod 2 ^ 1). destruct (Z.eqb_spec (n - shift) 0) as [E|E].
  - rewrite andb_true_r, E. replace n with shift by lia. rewrite Z.mod_pow2_bits_low, Z.shiftr_spec by lia. f_equal; lia.
  - rewrite andb_false_r. destruct (Z.ltb_spec n shift); [by rewrite Z.testbit_neg_r by lia|]. by rewrite Z.mod_pow2_bits_high by lia.
Qed.

Lemma ptr_split reg shift : 0 <= shift -> ptr reg shift = Q_IDX reg shift + Q_WRP reg shift.
Proof.
  intros Hs. rewrite ptr_mod, Q_IDX_mod, Q_WRP_mod, Z.pow_add_r by lia. apply Z.rem_mul_r; [|lia]. apply Z.pow_nonzero; lia.
Qed.

Lemma ptr_lor reg shift : 0 <= shift -> Z.lor (Q_WRP reg shift) (Q_IDX reg shift) = ptr reg shift.
Proof.
  intros Hs. unfold Q_WRP, Q_IDX, ptr. rewrite Z.shiftl_mul_pow2, Z.mul_1_l by done. apply Z.bits_inj'. intros n Hn.
  rewrite Z.lor_spec, !Z.land_spec, !testbit_ones_pow, Z.pow2_bits_eqb by lia.
  destruct (Z.eqb_spec shift n), (Z.ltb_spec n shift), (Z.ltb_spec n (shift + 1)); try lia;
    by destruct (Z.testbit reg n).
Qed.

(** Half of the pointer decides nothing: both do. *)
Lemma ptr_inj p c shift : 0 <= shift -> ptr p shift = ptr c shift <-> Q_IDX p shift = Q_IDX c shift /\ Q_WRP p shift = Q_WRP c shift.
Proof.
  intros Hs. rewrite !ptr_split by done. split; [|lia]. rewrite !Q_IDX_mod, !Q_WRP_mod by done.
  pose proof (Z.pow_pos_nonneg 2 shift ltac:(lia) Hs) as HP.
  pose proof (Z.mod_pos_bound p (2 ^ shift) HP). pose proof (Z.mod_pos_bound c (2 ^ shift) HP).
  pose proof (Z.mod_pos_bound (p / 2 ^ shift) 2 ltac:(lia)). pose proof (Z.mod_pos_bound (c / 2 ^ shift) 2 ltac:(lia)). intros E.
  set (x := (p / 2 ^ shift) mod 2) in *. set (y := (c / 2 ^ shift) mod 2) in *. set (a := p mod 2 ^ shift) in *. set (b := c mod 2 ^ shift) in *.
  clearbody x y a b. assert (x = 0 \/ x = 1) as Hx by lia. assert (y = 0 \/ y = 1) as Hy by lia. destruct Hx as [-> | ->], Hy as [-> | ->]; lia.
Qed.

Lemma Q_EMPTY_ptr p c shift : 0 <= shift -> Q_EMPTY p c shift = (ptr p shift =? ptr c shift).
Proof.
  intros Hs. unfold Q_EMPTY. pose proof (ptr_inj p c shift Hs).
  destruct (Z.eqb_spec (Q_IDX p shift) (Q_IDX c shift)), (Z.eqb_spec (Q_WRP p shift) (Q_WRP c shift)), (Z.eqb_spec (ptr p shift) (ptr c shift)); tauto.
Qed.

Lemma Q_FULL_ptr p c shift : 0 <= shift -> ptr p shift = ptr c shift -> Q_FULL p c shift = false.
Proof. intros Hs Hp. unfold Q_FULL. apply ptr_inj in Hp as [-> ->]; [|done]. by rewrite !Z.eqb_refl. Qed.

Lemma inc_prod_ptr p shift : 0 <= shift <= 8 -> ptr (inc_prod p shift) shift = nxt (ptr p shift) shift.
Proof.
  intros Hs. unfold inc_prod. rewrite !ptr_lor by lia. pose proof (ptr_range p shift ltac:(lia)) as Hp.
  assert (2 ^ (shift + 1) <= 2 ^ 9) by (apply Z.pow_le_mono_r; lia). rewrite u32_small by lia. unfold nxt. rewrite <- ptr_mod by lia.
  unfold ptr, Q_OVF. apply Z.bits_inj'. intros n Hn. rewrite !Z.land_spec, Z.lor_spec, !Z.land_spec, Z.shiftl_spec, testbit_1, testbit_ones_pow by lia.
  destruct (Z.eqb_spec (n - 31) 0), (Z.ltb_spec n (shift + 1)); try lia; rewrite ?andb_false_r, ?andb_true_r; cbn [orb]; done.
Qed.

Lemma inc_prod_range p shift : 0 <= p < 2 ^ 32 -> 0 <= shift <= 8 -> 0 <= inc_prod p shift < 2 ^ 32.
Proof.
  intros Hp Hs. unfold inc_prod. rewrite !ptr_lor by lia. assert (2 ^ (shift + 1) <= 2 ^ 9) by (apply Z.pow_le_mono_r; lia).
  apply lor_range; [lia| |].
  - apply land_range; [lia|done|]. by apply Z.shiftl_nonneg.
  - match goal with |- 0 <= ptr ?x shift < _ => pose proof (ptr_range x shift ltac:(lia)) end. lia.
Qed.

Lemma nxt_ne p shift : 0 <= shift -> 0 <= p < 2 ^ (shift + 1) -> nxt p shift <> p.
Proof.
  intros Hs Hp. unfold nxt. assert (2 ^ 1 <= 2 ^ (shift + 1)) by (apply Z.pow_le_mono_r; lia).
  destruct (Z.eqb_spec (p + 1) (2 ^ (shift + 1))) as [E|]; [rewrite E, Z.mod_same by lia; lia|rewrite Z.mod_small by lia; lia].
Qed.

Lemma load8_store64_out m a v x : ~ (a <= x < a + 8) -> load8 (store64 m a v) x = load8 m x.
Proof.
  intros Hx. unfold store64. rewrite load8_store_le. change (Z.of_nat 8) with 8.
  destruct (Z.leb_spec a x), (Z.ltb_spec x (a + 8)); done || lia.
Qed.

(** ** The SMMU's end *)

Definition sync_cmd : Z * Z := default (0, 0) (match arm_smmu_cmdq_build_cmd (CMD_SYNC 0 0) with Ok c => Some c | Halt _ => None end).

(** The command at pointer [c] of a queue at [b]. *)
Definition slot_at (b shift c : Z) : Z := b + c mod 2 ^ shift * 16.
Definition slot (m : mem) (b shift c : Z) : Z * Z := (load64 m (slot_at b shift c), load64 m (slot_at b shift c + 8)).

Definition r_prod {D} `{SmmuHw D} (d : D) : Z := reg_read d ARM_SMMU_CMDQ_PROD.
Definition r_cons {D} `{SmmuHw D} (d : D) : Z := reg_read d ARM_SMMU_CMDQ_CONS.

(** A command error is active while the two error registers differ. *)
Definition cmd_err {D} `{SmmuHw D} (d : D) : bool :=
  negb (Z.land (Z.lxor (reg_read d ARM_SMMU_GERROR) (reg_read d ARM_SMMU_GERRORN)) GERROR_CMDQ_ERR =? 0).

(** What the architecture promises.  [cmds] are the commands the SMMU has executed,
    [queue_of] the address and size of the queue it has been given, [accepts] the
    commands it knows, and [patience] bounds how long it may leave the queue
    alone.  When it works on a queue that is not empty and no error is active, it
    executes the command at its pointer and advances, or reports an error and
    stays there; the driver's registers it does not change. *)
Class SmmuLaws (D : Type) `{SmmuHw D} := {
  cmds : D -> list (Z * Z);
  queue_of : D -> Z * Z;
  accepts : Z * Z -> bool;
  patience : D -> nat;
  accepts_sync : accepts sync_cmd = true;
  write_prod d v : let d' := reg_write32 d ARM_SMMU_CMDQ_PROD v in
    r_prod d' = v /\ r_cons d' = r_cons d /\ cmd_err d' = cmd_err d /\ cmds d' = cmds d /\ queue_of d' = queue_of d;
  ack_error d m : let d1 := work d m in let d' := reg_write32 d1 ARM_SMMU_GERRORN (Z.lxor (reg_read d1 ARM_SMMU_GERRORN) GERROR_CMDQ_ERR) in
    r_prod d' = r_prod d1 /\ r_cons d' = r_cons d1 /\ cmd_err d' = negb (cmd_err d1) /\ cmds d' = cmds d1 /\ queue_of d' = queue_of d1;
  work_keeps d m : r_prod (work d m) = r_prod d /\ queue_of (work d m) = queue_of d /\ reg_read (work d m) ARM_SMMU_GERRORN = reg_read d ARM_SMMU_GERRORN;
  work_cmdq d m b shift : queue_of d = (b, shift) -> 0 <= shift -> let d' := work d m in
    let c := ptr (r_cons d) shift in let x := slot m b shift c in let busy := negb (cmd_err d) && negb (c =? ptr (r_prod d) shift) in
    (ptr (r_cons d') shift = c /\ cmd_err d' = cmd_err d /\ cmds d' = cmds d /\ (busy = true -> (patience d' < patience d)%nat)) \/
    (busy = true /\ accepts x = true /\ ptr (r_cons d') shift = nxt c shift /\ cmd_err d' = false /\ cmds d' = cmds d ++ [x]) \/
    (busy = true /\ accepts x = false /\ ptr (r_cons d') shift = c /\ cmd_err d' = true /\ cmds d' = cmds d);
}.

Section drain.
Context {D : Type} `{SmmuLaws D}.
Context (b shift c0 : Z) (L : list (Z * Z)).
Hypotheses (Hshift : 1 <= shift <= 8) (Hc0 : 0 <= c0 < 2 ^ (shift + 1)) (Hb : 0 <= b /\ b + 4096 < 2 ^ 64).

Implicit Type d : D.

(** One command [x] is in the queue; it has not been executed, *)
Record waiting (x : Z * Z) (err : bool) (d : D) (m : mem) : Prop := {
  wt_queue : queue_of d = (b, shift);
  wt_prod : ptr (r_prod d) shift = nxt c0 shift;
  wt_cons : ptr (r_cons d) shift = c0;
  wt_err : cmd_err d = err;
  wt_cmds : cmds d = L;
  wt_slot : slot m b shift c0 = x;
}.

(** or it has. *)
Record executed (x : Z * Z) (d : D) : Prop := {
  ex_queue : queue_of d = (b, shift);
  ex_prod : ptr (r_prod d) shift = nxt c0 shift;
  ex_cons : ptr (r_cons d) shift = nxt c0 shift;
  ex_err : cmd_err d = false;
  ex_cmds : cmds d = L ++ [x];
}.

Lemma c0_ne : (c0 =? nxt c0 shift) = false.
Proof. apply Z.eqb_neq. intros E. by apply (nxt_ne c0 shift); [lia|done|]. Qed.

Lemma executed_work x d m : executed x d -> executed x (work d m).
Proof.
  intros [Hq Hp Hc He Hx]. destruct (work_keeps d m) as (Kp & Kq & _). destruct (work_cmdq d m b shift Hq ltac:(lia)) as [(H1 & H2 & H3 & _)|[(Hbusy & _)|(Hbusy & _)]].
  - constructor; congruence.
  - rewrite Hc, Hp, Z.eqb_refl, andb_false_r in Hbusy. done.
  - rewrite Hc, Hp, Z.eqb_refl, andb_false_r in Hbusy. done.
Qed.

Lemma waiting_work_err x d m : waiting x true d m -> waiting x true (work d m) m.
Proof.
  intros [Hq Hp Hc He Hx Hs]. destruct (work_keeps d m) as (Kp & Kq & _). destruct (work_cmdq d m b shift Hq ltac:(lia)) as [(H1 & H2 & H3 & _)|[(Hbusy & _)|(Hbusy & _)]].
  - constructor; congruence.
  - rewrite He in Hbusy. done.
  - rewrite He in Hbusy. done.
Qed.

(** The SMMU is less patient afterwards, or has executed the command it knows, or
    has reported one it does not. *)
Lemma waiting_work x d m : waiting x false d m ->
  (waiting x false (work d m) m /\ (patience (work d m) < patience d)%nat) \/
  (if accepts x then executed x (work d m) else waiting x true (work d m) m).
Proof.
  intros [Hq Hp Hc He Hx Hs]. destruct (work_keeps d m) as (Kp & Kq & _).
  destruct (work_cmdq d m b shift Hq ltac:(lia)) as [(H1 & H2 & H3 & H4)|[(Hbusy & Ha & H1 & H2 & H3)|(Hbusy & Ha & H1 & H2 & H3)]].
  - left. split; [constructor; congruence|]. apply H4. rewrite He, Hc, Hp, c0_ne. done.
  - right. rewrite Hc, Hs in Ha. rewrite Ha. constructor; congruence.
  - right. rewrite Hc, Hs in Ha. rewrite Ha. constructor; congruence.
Qed.

(** *** The driver's end *)

(** The driver's view of the queue, as [arm_smmu_init_one_queue] sets it up. *)
Record cmdq_cfg (s : sys (D := D)) : Prop := {
  cc_base : q_base_addr (cmdq (smmu s)) = b;
  cc_shift : max_n_shift (cmdq (smmu s)) = shift;
  cc_dwords : ent_dwords (cmdq (smmu s)) = CMDQ_ENT_DWORDS;
  cc_prod_reg : prod_reg (cmdq (smmu s)) = base (smmu s) + ARM_SMMU_CMDQ_PROD;
  cc_cons_reg : cons_reg (cmdq (smmu s)) = base (smmu s) + ARM_SMMU_CMDQ_CONS;
  cc_gerr : gerr_mask (cmdq (smmu s)) = GERROR_CMDQ_ERR;
}.

(** Everything but the queue and the SMMU is as it was. *)
Record only_queue (s s' : sys (D := D)) : Prop := {
  oq_pool : pool s' = pool s;
  oq_smmu : smmu s' = set_cmdq (cmdq (smmu s')) (smmu s);
  oq_prod : prod (cmdq (smmu s')) = prod (cmdq (smmu s));
  oq_ram : forall a, ~ (b <= a < b + 4096) -> load8 (ram s') a = load8 (ram s) a;
  oq_ok : bytes_ok (ram s) -> bytes_ok (ram s');
}.

Lemma only_queue_trans s1 s2 s3 : only_queue s1 s2 -> only_queue s2 s3 -> only_queue s1 s3.
Proof.
  intros [P1 Q1 R1 M1 O1] [P2 Q2 R2 M2 O2]. constructor; try congruence.
  - rewrite Q2, Q1. done.
  - intros a Ha. rewrite M2, M1 by done. done.
  - auto.
Qed.

(** With enough fuel the loop ends in [s']. *)
Definition drains (s s' : sys (D := D)) : Prop := exists F, forall fuel, (F <= fuel)%nat -> drain fuel s = Ok s'.

Lemma drain_S fuel s : drain (S fuel) s = if queue_empty (cmdq (smmu s)) then Ok s else s' ← drain_body s; drain fuel s'.
Proof. unfold drain. change (while (S fuel) ?c ?body s) with (b ← c s; if (b : bool) then s' ← body s; while fuel c body s' else Ok s). mstep. by destruct (queue_empty _). Qed.

Lemma drains_stop s : queue_empty (cmdq (smmu s)) = true -> drains s s.
Proof. intros He. exists 1%nat. intros [|fuel] Hf; [lia|]. by rewrite drain_S, He. Qed.

Lemma drains_step s s1 s' : queue_empty (cmdq (smmu s)) = false -> drain_body s = Ok s1 -> drains s1 s' -> drains s s'.
Proof.
  intros He Hbody [F HF]. exists (S F). intros [|fuel] Hf; [lia|]. rewrite drain_S, He, Hbody. mstep. apply HF. lia.
Qed.

(** What a turn of the loop reads. *)
Definition polled (s : sys (D := D)) : sys :=
  let d1 := work (dev s) (ram s) in
  Sys (work (work d1 (ram s)) (ram s)) (ram s) (pool s) (set_cmdq (set_cons (r_cons d1) (cmdq (smmu s))) (smmu s)).

Lemma drain_body_run s : cmdq_cfg s ->
  drain_body s = if cmd_err (work (work (dev s) (ram s)) (ram s)) then arm_smmu_cmdq_skip_err (polled s) else Ok (polled s).
Proof.
  intros [Eb Es Ed Ep Ec Eg]. unfold drain_body, queue_sync_cons, queue_error, mmio_read32. cbn [dev ram smmu set_dev set_smmu base set_cmdq cmdq gerr_mask set_cons].
  rewrite Ec, Eg. rewrite !Z.add_simpl_l. destruct (work_keeps (work (work (dev s) (ram s)) (ram s)) (ram s)) as (_ & _ & ->).
  unfold cmd_err, polled. destruct (negb _); done.
Qed.

Lemma polled_cfg s : cmdq_cfg s -> cmdq_cfg (polled s).
Proof. intros []. constructor; done. Qed.

Lemma polled_only s : only_queue s (polled s).
Proof. constructor; done. Qed.

Lemma slot_bounds c : b <= slot_at b shift c /\ slot_at b shift c + 16 <= b + 4096.
Proof.
  unfold slot_at. pose proof (Z.mod_pos_bound c (2 ^ shift) ltac:(apply Z.pow_pos_nonneg; lia)).
  assert (2 ^ shift <= 2 ^ 8) by (apply Z.pow_le_mono_r; lia). lia.
Qed.

Lemma queue_entry_slot s reg : cmdq_cfg s -> queue_entry (cmdq (smmu s)) reg = slot_at b shift (ptr reg shift).
Proof.
  intros [Eb Es Ed _ _ _]. unfold queue_entry. rewrite Eb, Es, Ed, Q_IDX_mod by lia. pose proof (slot_bounds (ptr reg shift)) as Hs.
  unfold slot_at in *. rewrite ptr_idx in * by lia. unfold CMDQ_ENT_DWORDS. rewrite u64_small by lia. lia.
Qed.

Lemma queue_write_slot m c x : 0 <= x.1 < 2 ^ 64 -> 0 <= x.2 < 2 ^ 64 -> slot (queue_write (slot_at b shift c) x m) b shift c = x.
Proof.
  intros H1 H2. unfold slot, queue_write. rewrite load64_store64_ne, !load64_store64 by (try done; lia). by destruct x.
Qed.

Lemma queue_write_out m c x a : ~ (b <= a < b + 4096) -> load8 (queue_write (slot_at b shift c) x m) a = load8 m a.
Proof.
  intros Ha. pose proof (slot_bounds c). unfold queue_write. by rewrite !load8_store64_out by lia.
Qed.

Lemma sync_cmd_range : 0 <= sync_cmd.1 < 2 ^ 64 /\ 0 <= sync_cmd.2 < 2 ^ 64.
Proof. vm_compute. repeat split; congruence. Qed.

(** Skipping a command the SMMU has rejected puts a CMD_SYNC in its place. *)
Lemma skip_err_run x s : cmdq_cfg s -> waiting x true (dev s) (ram s) -> ptr (cons (cmdq (smmu s))) shift = c0 ->
  exists s', arm_smmu_cmdq_skip_err s = Ok s' /\ cmdq_cfg s' /\ only_queue s s' /\ smmu s' = smmu s /\ waiting sync_cmd false (dev s') (ram s').
Proof.
  intros Hcfg Hw Hc. unfold arm_smmu_cmdq_skip_err. change (arm_smmu_cmdq_build_cmd (CMD_SYNC 0 0)) with (@Ok (Z * Z) sync_cmd). mstep.
  rewrite (queue_entry_slot s _ Hcfg), Hc. set (m := queue_write (slot_at b shift c0) sync_cmd (ram s)).
  assert (waiting sync_cmd true (work (dev s) m) m) as Hw'.
  { apply waiting_work_err. destruct Hw as [Hq Hp Hcc He Hx _]. constructor; try done. by apply queue_write_slot; apply sync_cmd_range. }
  unfold mmio_read32, mmio_write32. cbn [dev ram smmu set_dev set_ram base]. rewrite !Z.add_simpl_l. eexists. split; [reflexivity|].
  split; [destruct Hcfg; by constructor|]. split; [|split; [done|]].
  - constructor; cbn [pool smmu ram set_dev set_ram]; [done|by destruct (smmu s)|done|intros a Ha; by apply queue_write_out|].
    intros Hok. apply store_le_ok, store_le_ok, Hok.
  - cbn [dev ram set_dev]. destruct (ack_error (dev s) m) as (Ap & Ac & Ae & Ax & Aq). destruct Hw' as [Hq Hp Hcc He Hx Hs].
    constructor; try congruence; [by rewrite Ae, He|done].
Qed.

(** The queue as the driver sees it, with its copy of the SMMU's pointer at [c]. *)
Definition sees (c : Z) (s : sys (D := D)) : Prop := ptr (prod (cmdq (smmu s))) shift = nxt c0 shift /\ ptr (cons (cmdq (smmu s))) shift = c.

Lemma sees_empty c s : cmdq_cfg s -> sees c s -> queue_empty (cmdq (smmu s)) = (nxt c0 shift =? c).
Proof. intros [_ Es _ _ _ _] [Hp Hc]. unfold queue_empty. by rewrite Es, Q_EMPTY_ptr, Hp, Hc by lia. Qed.

Lemma sees_waiting s : cmdq_cfg s -> sees c0 s -> queue_empty (cmdq (smmu s)) = false.
Proof. intros Hcfg Hs. rewrite (sees_empty c0) by done. rewrite Z.eqb_sym. apply c0_ne. Qed.

(** The state in which the loop ends. *)
Definition drained (x : Z * Z) (s s' : sys (D := D)) : Prop :=
  drains s s' /\ cmdq_cfg s' /\ only_queue s s' /\ executed x (dev s') /\ sees (nxt c0 shift) s'.

Lemma only_queue_refl s : only_queue s s.
Proof. constructor; try done. by destruct (smmu s). Qed.

Lemma drain_executed x s c : cmdq_cfg s -> executed x (dev s) -> sees c s -> c = c0 \/ c = nxt c0 shift -> exists s', drained x s s'.
Proof.
  intros Hcfg Hx Hs [-> | ->].
  - pose proof (executed_work x _ (ram s) Hx) as H1. pose proof (executed_work x _ (ram s) H1) as H2. pose proof (executed_work x _ (ram s) H2) as H3.
    exists (polled s). split; [|split; [by apply polled_cfg|split; [by apply polled_only|split; [done|]]]].
    + eapply drains_step; [by apply sees_waiting|rewrite drain_body_run by done; by rewrite (ex_err _ _ H2)|].
      apply drains_stop. rewrite (sees_empty (nxt c0 shift)); [apply Z.eqb_refl|by apply polled_cfg|]. destruct Hs as [Hp _]. split; [done|]. apply H1.
    + destruct Hs as [Hp _]. split; [done|]. apply H1.
  - exists s. split; [apply drains_stop; rewrite (sees_empty (nxt c0 shift)) by done; apply Z.eqb_refl|]. split; [done|]. split; [apply only_queue_refl|done].
Qed.

Lemma drained_step x s s1 s' : cmdq_cfg s -> sees c0 s -> drain_body s = Ok s1 -> only_queue s s1 -> drained x s1 s' -> drained x s s'.
Proof.
  intros Hcfg Hs Hbody Ho (Hd & Hc & Ho' & Hx & Hs'). split; [eapply drains_step; [by apply sees_waiting|done|done]|]. split; [done|].
  split; [by eapply only_queue_trans|done].
Qed.

(** A command the SMMU knows gets executed, *)
Lemma drain_accepted x : accepts x = true -> forall n s, (patience (dev s) <= n)%nat -> cmdq_cfg s -> waiting x false (dev s) (ram s) -> sees c0 s ->
  exists s', drained x s s'.
Proof.
  intros Ha n. induction n as [n IH] using lt_wf_ind. intros s Hn Hcfg Hw Hs.
  set (d1 := work (dev s) (ram s)). set (d2 := work d1 (ram s)). set (d3 := work d2 (ram s)).
  assert (forall c, ptr (r_cons d1) shift = c -> sees c (polled s)) as Hsp by (intros c Hc; destruct Hs as [Hp _]; split; [done|exact Hc]).
  pose proof (polled_cfg s Hcfg) as Hcfg'. assert (drain_body s = if cmd_err d2 then arm_smmu_cmdq_skip_err (polled s) else Ok (polled s)) as Hbody by (by apply drain_body_run).
  assert (forall c, cmd_err d2 = false -> ptr (r_cons d1) shift = c -> c = c0 \/ c = nxt c0 shift -> executed x d3 -> exists s', drained x s s') as Hfin.
  { intros c He Hc Hor H3. rewrite He in Hbody. destruct (drain_executed x (polled s) c Hcfg' H3 (Hsp c Hc) Hor) as [s' Hd].
    exists s'. by eapply drained_step; [done|done|done|apply polled_only|]. }
  destruct (waiting_work x _ _ Hw) as [[H1 P1]|H1]; [|rewrite Ha in H1].
  2: { pose proof (executed_work x _ (ram s) H1) as H2. apply (Hfin (nxt c0 shift)); [apply H2|apply H1|by right|by apply executed_work]. }
  destruct (waiting_work x _ _ H1) as [[H2 P2]|H2]; [|rewrite Ha in H2].
  2: { apply (Hfin c0); [apply H2|apply H1|by left|by apply executed_work]. }
  destruct (waiting_work x _ _ H2) as [[H3 P3]|H3]; [|rewrite Ha in H3].
  2: { apply (Hfin c0); [apply H2|apply H1|by left|done]. }
  assert (cmd_err d2 = false) as E2 by apply H2. rewrite E2 in Hbody. destruct (IH (patience d3)) with (s := polled s) as [s' Hd]; try done.
  - change (dev (polled s)) with d3. unfold d3, d2, d1 in *. lia.
  - apply Hsp, H1.
  - exists s'. by eapply drained_step; [done|done|done|apply polled_only|].
Qed.

(** and one it has rejected is replaced by a CMD_SYNC, which it knows. *)
Lemma drain_skip x s : cmdq_cfg s -> sees c0 s -> cmd_err (work (work (dev s) (ram s)) (ram s)) = true ->
  ptr (r_cons (work (dev s) (ram s))) shift = c0 -> waiting x true (dev (polled s)) (ram s) -> exists s', drained sync_cmd s s'.
Proof.
  intros Hcfg Hs He Hc Hw. pose proof (polled_cfg s Hcfg) as Hcfg'. pose proof (drain_body_run s Hcfg) as Hbody. rewrite He in Hbody.
  destruct (skip_err_run x (polled s) Hcfg' Hw Hc) as (s1 & E1 & Hcfg1 & Ho1 & Esm & Hw1). rewrite E1 in Hbody.
  destruct (drain_accepted sync_cmd accepts_sync _ s1 (Nat.le_refl _) Hcfg1 Hw1) as [s' Hd].
  { unfold sees. rewrite Esm. destruct Hs as [Hp _]. split; [done|exact Hc]. }
  exists s'. eapply drained_step; [done|done|done| |done]. eapply only_queue_trans; [apply polled_only|done].
Qed.

Lemma drain_error x s : cmdq_cfg s -> waiting x true (dev s) (ram s) -> sees c0 s -> exists s', drained sync_cmd s s'.
Proof.
  intros Hcfg Hw Hs. pose proof (waiting_work_err x _ _ Hw) as H1. pose proof (waiting_work_err x _ _ H1) as H2. pose proof (waiting_work_err x _ _ H2) as H3.
  apply (drain_skip x); [done|done|apply H2|apply H1|done].
Qed.

Lemma drain_rejected x : accepts x = false -> forall n s, (patience (dev s) <= n)%nat -> cmdq_cfg s -> waiting x false (dev s) (ram s) -> sees c0 s ->
  exists s', drained sync_cmd s s'.
Proof.
  intros Ha n. induction n as [n IH] using lt_wf_ind. intros s Hn Hcfg Hw Hs.
  destruct (waiting_work x _ _ Hw) as [[H1 P1]|H1]; [|rewrite Ha in H1].
  2: { pose proof (waiting_work_err x _ _ H1) as H2. pose proof (waiting_work_err x _ _ H2) as H3. apply (drain_skip x); [done|done|apply H2|apply H1|done]. }
  destruct (waiting_work x _ _ H1) as [[H2 P2]|H2]; [|rewrite Ha in H2].
  2: { pose proof (waiting_work_err x _ _ H2) as H3. apply (drain_skip x); [done|done|apply H2|apply H1|done]. }
  pose proof (polled_cfg s Hcfg) as Hcfg'. pose proof (drain_body_run s Hcfg) as Hbody. rewrite (wt_err _ _ _ _ H2) in Hbody.
  assert (sees c0 (polled s)) as Hsp by (destruct Hs as [Hp _]; split; [done|apply H1]).
  assert (exists s', drained sync_cmd (polled s) s') as [s' Hd].
  { destruct (waiting_work x _ _ H2) as [[H3 P3]|H3]; [|rewrite Ha in H3; by apply (drain_error x)].
    apply (IH (patience (dev (polled s)))); try done. cbn [dev polled] in *. lia. }
  exists s'. by eapply drained_step; [done|done|done|apply polled_only|].
Qed.

End drain.

(** ** Issuing a command *)

(** The queue is empty, both sides agree about that, and no error is active. *)
Record cmdq_idle {D} `{SmmuLaws D} (s : sys (D := D)) : Prop := {
  ci_cfg : cmdq_cfg (q_base_addr (cmdq (smmu s))) (max_n_shift (cmdq (smmu s))) s;
  ci_base : 0 <= q_base_addr (cmdq (smmu s)) /\ q_base_addr (cmdq (smmu s)) + 4096 < 2 ^ 64;
  ci_shift : 1 <= max_n_shift (cmdq (smmu s)) <= CMDQ_MAX_SZ_SHIFT;
  ci_queue : queue_of (dev s) = (q_base_addr (cmdq (smmu s)), max_n_shift (cmdq (smmu s)));
  ci_prod : ptr (r_prod (dev s)) (max_n_shift (cmdq (smmu s))) = ptr (prod (cmdq (smmu s))) (max_n_shift (cmdq (smmu s)));
  ci_cons : ptr (r_cons (dev s)) (max_n_shift (cmdq (smmu s))) = ptr (prod (cmdq (smmu s))) (max_n_shift (cmdq (smmu s)));
  ci_copy : ptr (cons (cmdq (smmu s))) (max_n_shift (cmdq (smmu s))) = ptr (prod (cmdq (smmu s))) (max_n_shift (cmdq (smmu s)));
  ci_err : cmd_err (dev s) = false;
}.

(** What a call leaves alone: the pool, the memory outside the queue, and of the
    driver's state all but the queue and its lock. *)
Record outside_same {D} (s s' : sys (D := D)) : Prop := {
  os_pool : pool s' = pool s;
  os_base : base (smmu s') = base (smmu s);
  os_features : features (smmu s') = features (smmu s);
  os_evtq : evtq (smmu s') = evtq (smmu s);
  os_sid : sid_bits (smmu s') = sid_bits (smmu s);
  os_scfg : scfg (smmu s') = scfg (smmu s);
  os_queue : q_base_addr (cmdq (smmu s')) = q_base_addr (cmdq (smmu s));
  os_ram : forall a, ~ (q_base_addr (cmdq (smmu s)) <= a < q_base_addr (cmdq (smmu s)) + 4096) -> load8 (ram s') a = load8 (ram s) a;
  os_ok : bytes_ok (ram s) -> bytes_ok (ram s');
}.

Definition u64_ok (x : Z) : Prop := 0 <= x < 2 ^ 64.

Lemma land_mask_ok x mask : u64_ok mask -> u64_ok (Z.land x mask).
Proof.
  intros Hm. assert (0 <= Z.land x mask) by (apply Z.land_nonneg; right; apply Hm). split; [done|]. apply bits_bound; [lia|done|].
  intros i Hi. rewrite Z.land_spec, (testbit_small mask 64) by (done || lia). apply andb_false_r.
Qed.

Lemma lor_ok x y : u64_ok x -> u64_ok y -> u64_ok (Z.lor x y).
Proof. intros Hx Hy. apply lor_range; [lia|done|done]. Qed.

Lemma mask_lr_ok last first : u64_ok (BIT_MASK_LR last first).
Proof. apply u64_range. Qed.

Lemma field_ok mask v : u64_ok mask -> u64_ok (FIELD_PREP mask v).
Proof. apply land_mask_ok. Qed.

Lemma build_cmd_ok ent cmd : arm_smmu_cmdq_build_cmd ent = Ok cmd -> u64_ok cmd.1 /\ u64_ok cmd.2.
Proof.
  assert (u64_ok 0) by (vm_compute; split; congruence). assert (u64_ok CMDQ_CFGI_1_LEAF) by (vm_compute; split; congruence).
  destruct ent; cbn [arm_smmu_cmdq_build_cmd]; intros [= <-]; cbn [fst snd]; split;
    repeat first [assumption | apply lor_ok | apply field_ok | apply land_mask_ok | apply mask_lr_ok].
Qed.

(** The command in the queue and the pointer advanced. *)
Lemma insert_waiting {D} `{SmmuLaws D} (s : sys (D := D)) cmd : cmdq_idle s -> u64_ok cmd.1 -> u64_ok cmd.2 ->
  let q := cmdq (smmu s) in let c0 := ptr (prod q) (max_n_shift q) in
  let s1 := queue_inc_prod (set_ram (queue_write (queue_entry q (prod q)) cmd (ram s)) s) in
  cmdq_cfg (q_base_addr q) (max_n_shift q) s1 /\ waiting (q_base_addr q) (max_n_shift q) c0 (cmds (dev s)) cmd false (dev s1) (ram s1) /\
  sees (max_n_shift q) c0 c0 s1.
Proof.
  intros [Hcfg Hb Hsh Hq Hp Hc Hcp He] H1 H2 q c0 s1. unfold CMDQ_MAX_SZ_SHIFT in Hsh.
  pose proof (queue_entry_slot _ _ Hsh Hb s (prod q) Hcfg) as Hent. fold q in Hent, Hb, Hsh, Hq, Hp, Hc, Hcp. fold c0 in Hent, Hp, Hc, Hcp.
  destruct Hcfg as [_ _ Ed Ep Ec Eg]. fold q in Ed, Ep, Ec, Eg.
  assert (dev s1 = reg_write32 (dev s) ARM_SMMU_CMDQ_PROD (inc_prod (prod q) (max_n_shift q))) as Edev.
  { unfold s1, queue_inc_prod, mmio_write32. cbn [dev set_dev set_smmu set_ram smmu base set_cmdq prod_reg set_prod cmdq prod max_n_shift]. fold q.
    rewrite Ep. by rewrite Z.add_simpl_l. }
  destruct (write_prod (dev s) (inc_prod (prod q) (max_n_shift q))) as (Wp & Wc & We & Wx & Wq). rewrite <- Edev in Wp, Wc, We, Wx, Wq.
  split_and!; [by constructor| |split; [|done]].
  - constructor; try congruence.
    + rewrite Wp. apply inc_prod_ptr. lia.
    + change (ram s1) with (queue_write (queue_entry q (prod q)) cmd (ram s)). rewrite Hent. by apply queue_write_slot.
  - apply (inc_prod_ptr (prod q)). lia.
Qed.

Lemma insert_run {D} `{SmmuLaws D} (s : sys (D := D)) cmd : cmdq_idle s -> u64_ok cmd.1 -> u64_ok cmd.2 ->
  exists F s', (forall fuel, (F <= fuel)%nat -> arm_smmu_cmdq_insert_cmd fuel cmd s = Ok s') /\ cmdq_idle s' /\ outside_same s s' /\
    cmdq_lock (smmu s') = cmdq_lock (smmu s) /\ cmds (dev s') = cmds (dev s) ++ [if accepts cmd then cmd else sync_cmd].
Proof.
  intros Hidle H1 H2. destruct (insert_waiting s cmd Hidle H1 H2) as (Hcfg1 & Hw & Hs).
  set (q := cmdq (smmu s)) in *. set (c0 := ptr (prod q) (max_n_shift q)) in *.
  set (s1 := queue_inc_prod (set_ram (queue_write (queue_entry q (prod q)) cmd (ram s)) s)) in *.
  destruct Hidle as [Hcfg Hb Hsh Hq Hp Hc Hcp He]. unfold CMDQ_MAX_SZ_SHIFT in Hsh. fold q in Hcfg, Hb, Hsh, Hq, Hp, Hc, Hcp.
  assert (0 <= c0 < 2 ^ (max_n_shift q + 1)) as Hc0 by (apply ptr_range; lia).
  assert (exists s', drained (q_base_addr q) (max_n_shift q) c0 (cmds (dev s)) (if accepts cmd then cmd else sync_cmd) s1 s') as (s' & [F HF] & Hcfg' & Ho & Hx & Hs').
  { destruct (accepts cmd) eqn:Ha; [eapply drain_accepted|eapply drain_rejected]; eauto. }
  exists (S F), s'. split; [|split; [|split; [|split]]].
  - intros [|fuel] Hf; [lia|]. unfold arm_smmu_cmdq_insert_cmd.
    change (while (S fuel) ?c ?body s) with (b ← c s; if (b : bool) then s' ← body s; while fuel c body s' else Ok s). mstep.
    unfold queue_full. fold q. rewrite Q_FULL_ptr by (done || lia). apply HF. lia.
  - destruct Ho as [Op Osm Opr Oram Ook]. pose proof Hcfg' as [Cb Cs _ _ _ _]. destruct Hs' as [Sp Sc]. destruct Hx as [Xq Xp Xc Xe Xm].
    constructor; rewrite ?Cb, ?Cs; try done; try congruence.
  - destruct Ho as [Op Osm Opr Oram Ook]. constructor; try (rewrite Osm; done); [done|apply Hcfg'| |].
    + intros a Ha. rewrite (Oram a Ha). change (ram s1) with (queue_write (queue_entry q (prod q)) cmd (ram s)).
      rewrite (queue_entry_slot _ _ Hsh Hb s _ Hcfg). by apply queue_write_out.
    + intros Hok. apply Ook. apply store_le_ok, store_le_ok, Hok.
  - destruct Ho as [Op Osm _ _ _]. by rewrite Osm.
  - apply Hx.
Qed.

Lemma outside_same_trans {D} (s1 s2 s3 : sys (D := D)) : outside_same s1 s2 -> outside_same s2 s3 -> outside_same s1 s3.
Proof.
  intros [] []. constructor; try congruence; [|auto]. intros a Ha. rewrite os_ram1 by (by rewrite os_queue0). by apply os_ram0.
Qed.

Lemma outside_same_refl {D} (s : sys (D := D)) : outside_same s s.
Proof. by constructor. Qed.

(** The queue and its lock as every call finds and leaves them. *)
Definition cmdq_ready {D} `{SmmuLaws D} (s : sys (D := D)) : Prop := cmdq_idle s /\ unlocked (cmdq_lock (smmu s)).

Lemma idle_lock {D} `{SmmuLaws D} (s : sys (D := D)) l : cmdq_idle s -> cmdq_idle (set_smmu (set_cmdq_lock l (smmu s)) s).
Proof. intros [[] ? ? ? ? ? ? ?]. constructor; [by constructor|done..]. Qed.

Lemma issue_run {D} `{SmmuLaws D} (s : sys (D := D)) ent cmd : cmdq_ready s -> arm_smmu_cmdq_build_cmd ent = Ok cmd ->
  exists F s', (forall fuel, (F <= fuel)%nat -> arm_smmu_cmdq_issue_cmd fuel ent s = Ok s') /\ cmdq_ready s' /\ outside_same s s' /\
    cmds (dev s') = cmds (dev s) ++ [if accepts cmd then cmd else sync_cmd].
Proof.
  intros [Hidle Hl] Hcmd. destruct (build_cmd_ok _ _ Hcmd) as [K1 K2]. destruct (spin_lock_unlock _ Hl) as (l & El & Hul & _).
  destruct (insert_run (set_smmu (set_cmdq_lock l (smmu s)) s) cmd (idle_lock s l Hidle) K1 K2) as (F & s1 & HF & Hi1 & Ho & Hlk & Hx).
  cbn [smmu set_smmu cmdq_lock set_cmdq_lock] in Hlk. exists F, (set_smmu (set_cmdq_lock (spin_unlock (cmdq_lock (smmu s1))) (smmu s1)) s1).
  split; [|split; [|split]].
  - intros fuel Hf. unfold arm_smmu_cmdq_issue_cmd. rewrite Hcmd, El. mstep. rewrite (HF fuel Hf). done.
  - split; [by apply idle_lock|]. cbn [smmu set_smmu cmdq_lock set_cmdq_lock]. by rewrite Hlk.
  - destruct Ho. by constructor.
  - exact Hx.
Qed.

Fixpoint issue_all {D} `{SmmuHw D} (fuel : nat) (ents : list cmdq_ent) (s : sys (D := D)) : outcome sys :=
  match ents with
  | [] => Ok s
  | e :: ents => s ← arm_smmu_cmdq_issue_cmd fuel e s; issue_all fuel ents s
  end.

(** C12: the command queue is a queue.  Commands that are issued one after the other
    are taken by the SMMU in that order, one execution for each: a command it
    accepts is executed once, and for one it rejects, which it never executes, it
    executes the CMD_SYNC the driver puts in its place.  Every call returns,
    whenever the SMMU works at all, with the queue empty, its lock free and no
    error active, and changes no memory but the queue's page. *)
Theorem cmdq_executes_in_order {D} `{SmmuLaws D} (s : sys (D := D)) ents cs :
  cmdq_ready s -> Forall2 (fun e c => arm_smmu_cmdq_build_cmd e = Ok c) ents cs ->
  exists F s', (forall fuel, (F <= fuel)%nat -> issue_all fuel ents s = Ok s') /\ cmdq_ready s' /\ outside_same s s' /\
    cmds (dev s') = cmds (dev s) ++ ((fun c => if accepts c then c else sync_cmd) <$> cs).
Proof.
  intros Hr Hcs. revert s Hr. induction Hcs as [|e c ents cs Hc _ IH]; intros s Hr.
  { exists 0%nat, s. split; [done|]. split; [done|]. split; [apply outside_same_refl|]. cbn. by rewrite app_nil_r. }
  destruct (issue_run s e c Hr Hc) as (F1 & s1 & HF1 & Hr1 & Ho1 & Hx1). destruct (IH s1 Hr1) as (F2 & s2 & HF2 & Hr2 & Ho2 & Hx2).
  exists (F1 + F2)%nat, s2. split; [|split; [done|split; [by eapply outside_same_trans|]]].
  - intros fuel Hf. cbn [issue_all]. rewrite HF1 by lia. mstep. apply HF2. lia.
  - rewrite Hx2, Hx1, fmap_cons, <- app_assoc. done.
Qed.

(** ** An SMMU *)

(** One that works on the queue whenever it can and knows the commands of the
    driver by their opcodes. *)
Record toy := Toy { t_prod : Z; t_cons : Z; t_gerror : Z; t_gerrorn : Z; t_cmds : list (Z * Z); t_queue : Z * Z; t_regs : Z -> Z }.

Definition toy_knows (c : Z * Z) : bool :=
  existsb (Z.eqb (Z.land c.1 0xff)) [0x1; 0x2; 0x3; 0x4; 0x11; 0x12; 0x20; 0x28; 0x2a; 0x30; 0x46].

Definition toy_read (d : toy) (off : Z) : Z :=
  if off =? ARM_SMMU_CMDQ_PROD then t_prod d else if off =? ARM_SMMU_CMDQ_CONS then t_cons d
  else if off =? ARM_SMMU_GERROR then t_gerror d else if off =? ARM_SMMU_GERRORN then t_gerrorn d else t_regs d off.

Definition toy_write (d : toy) (off v : Z) : toy :=
  if off =? ARM_SMMU_CMDQ_PROD then Toy v (t_cons d) (t_gerror d) (t_gerrorn d) (t_cmds d) (t_queue d) (t_regs d)
  else if off =? ARM_SMMU_GERRORN then Toy (t_prod d) (t_cons d) (t_gerror d) v (t_cmds d) (t_queue d) (t_regs d)
  else Toy (t_prod d) (t_cons d) (t_gerror d) (t_gerrorn d) (t_cmds d) (t_queue d) (fun o => if o =? off then v else t_regs d o).

Definition toy_work (d : toy) (m : mem) : toy :=
  let '(b, shift) := t_queue d in
  let c := ptr (t_cons d) shift in
  let x := slot m b shift c in
  if Z.testbit (Z.lxor (t_gerror d) (t_gerrorn d)) 0 || (c =? ptr (t_prod d) shift) then d
  else if toy_knows x then Toy (t_prod d) (nxt c shift) (t_gerror d) (t_gerrorn d) (t_cmds d ++ [x]) (t_queue d) (t_regs d)
  else Toy (t_prod d) (t_cons d) (Z.lxor (t_gerror d) 1) (t_gerrorn d) (t_cmds d) (t_queue d) (t_regs d).

#[export] Instance toy_hw : SmmuHw toy := { reg_read := toy_read; reg_write32 := toy_write; reg_write64 := toy_write; work := toy_work }.

Lemma toy_err (d : toy) : cmd_err d = Z.testbit (Z.lxor (t_gerror d) (t_gerrorn d)) 0.
Proof.
  unfold cmd_err. cbn [reg_read toy_hw]. change (toy_read d ARM_SMMU_GERROR) with (t_gerror d). change (toy_read d ARM_SMMU_GERRORN) with (t_gerrorn d).
  change GERROR_CMDQ_ERR with (2 ^ 1 - 1). rewrite land_low by lia. change (2 ^ 1) with 2. rewrite <- Z.bit0_mod. by destruct (Z.testbit _ 0).
Qed.

#[export] Instance toy_laws : SmmuLaws toy.
Proof.
  refine {| cmds := t_cmds; queue_of := t_queue; accepts := toy_knows; patience := fun _ => 0%nat |}.
  - reflexivity.
  - intros d v. cbv zeta. rewrite !toy_err. done.
  - intros d m. cbv zeta. rewrite !toy_err. cbn [reg_write32 toy_hw]. split_and!; try done.
    change (t_gerror (toy_write _ _ _)) with (t_gerror (toy_work d m)).
    change (t_gerrorn (toy_write _ _ _)) with (Z.lxor (t_gerrorn (toy_work d m)) 1).
    rewrite !Z.lxor_spec. change (Z.testbit 1 0) with true. by destruct (Z.testbit (t_gerror _) 0), (Z.testbit (t_gerrorn _) 0).
  - intros d m. change (work d m) with (toy_work d m). unfold toy_work. destruct (t_queue d) as [b shift] eqn:Eq.
    repeat case_match; split_and!; try done; by rewrite Eq.
  - intros d m b shift Eq Hs. cbv zeta. rewrite !toy_err. change (work d m) with (toy_work d m). change (queue_of d) with (t_queue d) in Eq.
    change (r_cons d) with (t_cons d). change (r_prod d) with (t_prod d). unfold toy_work. rewrite Eq.
    destruct (Z.testbit (Z.lxor (t_gerror d) (t_gerrorn d)) 0) eqn:Ee; cbn [orb negb andb].
    { left. rewrite Ee. done. }
    destruct (ptr (t_cons d) shift =? ptr (t_prod d) shift) eqn:Ep; cbn [orb negb andb].
    { left. rewrite Ee. done. }
    destruct (toy_knows (slot m b shift (ptr (t_cons d) shift))) eqn:Ek; [right; left|right; right].
    + split_and!; try done. change (r_cons _) with (nxt (ptr (t_cons d) shift) shift). unfold nxt.
      rewrite ptr_mod by done. by rewrite Z.mod_mod by (apply Z.pow_nonzero; lia).
    + split_and!; try done. cbn [t_gerror t_gerrorn].
      rewrite !Z.lxor_spec in *. change (Z.testbit 1 0) with true. by destruct (Z.testbit (t_gerror d) 0), (Z.testbit (t_gerrorn d) 0).
Defined.

Definition toy_queue : arm_smmu_queue := Queue 0x50000000 0 2 8 0 0 (0x9050000 + ARM_SMMU_CMDQ_PROD) (0x9050000 + ARM_SMMU_CMDQ_CONS) GERROR_CMDQ_ERR.

(** A table of 64 streams at 0x50001000. *)
Definition toy_sys : sys (D := toy) :=
  Sys (Toy 0 0 0 0 [] (0x50000000, 8) (fun _ => 0)) ∅ (PagePool 0 0 0 0 [] SPINLOCK_INITVAL)
    (Device 0x9050000 0 toy_queue SPINLOCK_INITVAL toy_queue 6 (StrtabCfg 0x50001000 0 64 0 6)).

Lemma toy_ready : cmdq_ready toy_sys.
Proof. split; [|split; [done|vm_compute; split; congruence]]. constructor; [by constructor|vm_compute; split; congruence..|done|done|done|done|done]. Qed.

Lemma cmdq_executes_in_order_witness : exists fuel s', issue_all fuel [CFGI_STE 5 true; CMD_SYNC 0 0] toy_sys = Ok s' /\ cmds (dev s') = [(0x500000003, 1); sync_cmd].
Proof.
  destruct (cmdq_executes_in_order toy_sys [CFGI_STE 5 true; CMD_SYNC 0 0] [(0x500000003, 1); sync_cmd] toy_ready) as (F & s' & HF & _ & _ & Hx).
  - constructor; [reflexivity|]. constructor; [reflexivity|]. constructor.
  - exists F, s'. split; [apply HF; lia|exact Hx].
Defined.
