(* ===== verification/Smmu3Ste.v ===== *)
(** The stream table of the SMMUv3 driver ([Smmu3]).

    [fate] is what the SMMU does with the transactions of a stream, read off the
    table in memory.  The theorems say what becomes of it when a device is given
    to a VM. *)

From S2P Require Import Prelude Bit Bitmap Spinlock PhysMem Mem ArchVmm Smmu3 Smmu3Cmd.

(** ** What the SMMU reads *)

(** Transactions are aborted, pass untranslated, or go through the stage-2 table at
    [ttb] as VM [vmid], under the translation control [vtcr]: the sizes of input
    and output, the granule and the level at which the walk starts. *)
Inductive fate := FAbort | FBypass | FStage2 (vmid ttb vtcr : Z).

(** A stream table entry. *)
Definition ste_fate (m : mem) (a : Z) : fate :=
  let w0 := load64 m a in
  if Z.land w0 STRTAB_STE_0_V =? 0 then FAbort
  else if FIELD_GET STRTAB_STE_0_CFG w0 =? STRTAB_STE_0_CFG_BYPASS then FBypass
  else if FIELD_GET STRTAB_STE_0_CFG w0 =? STRTAB_STE_0_CFG_S2_TRANS then
    FStage2 (FIELD_GET STRTAB_STE_2_S2VMID (load64 m (a + 16))) (Z.land (load64 m (a + 24)) STRTAB_STE_3_S2TTB_MASK)
      (FIELD_GET STRTAB_STE_2_VTCR (load64 m (a + 16)))
  else FAbort.

(** A linear table at [tab]. *)
Definition linear_fate (m : mem) (tab sid : Z) : fate := ste_fate m (tab + sid * STRTAB_STE_SIZE).

(** A two-level table: the entry of the first level gives the address of a table of
    [2^(span - 1)] entries, or nothing. *)
Definition twolevel_fate (m : mem) (tab sid : Z) : fate :=
  let l1 := load64 m (tab + Z.shiftr sid STRTAB_SPLIT * STRTAB_L1_DESC_SIZE) in
  let span := FIELD_GET STRTAB_L1_DESC_SPAN l1 in
  if span =? 0 then FAbort
  else let i := sid mod 2 ^ STRTAB_SPLIT in
  if 2 ^ (span - 1) <=? i then FAbort else ste_fate m (Z.land l1 STRTAB_L1_DESC_L2PTR_MASK + i * STRTAB_STE_SIZE).

(** ** Memory *)

(** Bytes outside [P] are as before. *)
Definition same_outside (P : Z -> Prop) (m m' : mem) : Prop := forall a, ~ P a -> load8 m' a = load8 m a.

Lemma same_outside_trans P m1 m2 m3 : same_outside P m1 m2 -> same_outside P m2 m3 -> same_outside P m1 m3.
Proof. intros H1 H2 a Ha. by rewrite H2, H1. Qed.

Lemma same_outside_mono (P Q : Z -> Prop) m m' : (forall a, P a -> Q a) -> same_outside P m m' -> same_outside Q m m'.
Proof. intros HPQ Hm a Ha. apply Hm. auto. Qed.

Lemma same_load64 P m m' a : same_outside P m m' -> (forall x, a <= x < a + 8 -> ~ P x) -> load64 m' a = load64 m a.
Proof. intros Hm Ha. apply load_le_ext. intros k Hk. apply Hm, Ha. lia. Qed.

Lemma same_fate P m m' a : same_outside P m m' -> (forall x, a <= x < a + 32 -> ~ P x) -> ste_fate m' a = ste_fate m a.
Proof. intros Hm Ha. unfold ste_fate. rewrite !(same_load64 P m m') by (done || (intros; apply Ha; lia)). done. Qed.

Lemma same_store64 a v m : same_outside (fun x => a <= x < a + 8) m (store64 m a v).
Proof. intros x Hx. by apply load8_store64_out. Qed.

(** ** Writing an entry *)

Section entries.
Context {D : Type} `{SmmuLaws D}.
Implicit Types s : sys (D := D).

(** The page of the command queue. *)
Definition in_queue (s : sys (D := D)) (a : Z) : Prop := q_base_addr (cmdq (smmu s)) <= a < q_base_addr (cmdq (smmu s)) + 4096.

(** The driver's configuration and the pool, which the calls below keep. *)
Record same_cfg (s s' : sys (D := D)) : Prop := {
  sc_pool : pool s' = pool s;
  sc_features : features (smmu s') = features (smmu s);
  sc_bits : sid_bits (smmu s') = sid_bits (smmu s);
  sc_scfg : scfg (smmu s') = scfg (smmu s);
  sc_queue : q_base_addr (cmdq (smmu s')) = q_base_addr (cmdq (smmu s));
}.

Lemma same_cfg_trans s1 s2 s3 : same_cfg s1 s2 -> same_cfg s2 s3 -> same_cfg s1 s3.
Proof. intros [] []. constructor; congruence. Qed.

Lemma outside_cfg s s' : outside_same s s' -> same_cfg s s'.
Proof. by intros []. Qed.

Lemma outside_ram s s' : outside_same s s' -> same_outside (in_queue s) (ram s) (ram s').
Proof. intros Ho a Ha. by apply (os_ram _ _ Ho). Qed.

Lemma ready_ram s m : cmdq_ready s -> cmdq_ready (set_ram m s).
Proof. intros [[[] ? ? ? ? ? ? ?] Hl]. split; [constructor; [by constructor|done..]|done]. Qed.

(** The command the SMMU executes for one that is issued. *)
Definition cmd_of (e : cmdq_ent) : Z * Z := match arm_smmu_cmdq_build_cmd e with Ok c => c | Halt _ => (0, 0) end.
Definition ran (e : cmdq_ent) : Z * Z := if accepts (cmd_of e) then cmd_of e else sync_cmd.

Lemma issue_ran s e : cmdq_ready s -> arm_smmu_cmdq_build_cmd e = Ok (cmd_of e) ->
  exists F s', (forall fuel, (F <= fuel)%nat -> arm_smmu_cmdq_issue_cmd fuel e s = Ok s') /\ cmdq_ready s' /\ outside_same s s' /\
    cmds (dev s') = cmds (dev s) ++ [ran e].
Proof. apply issue_run. Qed.

Lemma sync_ste_run s sid : cmdq_ready s ->
  exists F s', (forall fuel, (F <= fuel)%nat -> arm_smmu_sync_ste_for_sid fuel sid s = Ok s') /\ cmdq_ready s' /\ outside_same s s' /\
    cmds (dev s') = cmds (dev s) ++ [ran (CFGI_STE sid true); ran (CMD_SYNC 0 0)].
Proof.
  intros Hr. destruct (issue_ran s (CFGI_STE sid true) Hr eq_refl) as (F1 & s1 & E1 & Hr1 & Ho1 & Hx1).
  destruct (issue_ran s1 (CMD_SYNC 0 0) Hr1 eq_refl) as (F2 & s2 & E2 & Hr2 & Ho2 & Hx2). exists (F1 + F2)%nat, s2.
  split; [|split; [done|split; [by eapply outside_same_trans|]]].
  - intros fuel Hf. unfold arm_smmu_sync_ste_for_sid, arm_smmu_cmdq_issue_sync. rewrite E1 by lia. mstep. apply E2. lia.
  - rewrite Hx2, Hx1, <- app_assoc. done.
Qed.

Lemma ste_s2_2_ok vmid : u64_ok (ste_s2_2 vmid).
Proof.
  unfold ste_s2_2. repeat first [apply lor_ok | apply field_ok | apply mask_lr_ok]; vm_compute; split; congruence.
Qed.

Lemma ste_s2_2_vmid vmid : FIELD_GET STRTAB_STE_2_S2VMID (ste_s2_2 vmid) = vmid mod 2 ^ 16.
Proof.
  unfold FIELD_GET, ste_s2_2. rewrite Z.land_lor_distr_l. set (x := Z.land (Z.lor _ _) STRTAB_STE_2_S2VMID).
  replace x with 0 by (vm_compute; reflexivity). clear x. rewrite Z.lor_0_r. unfold FIELD_PREP. change STRTAB_STE_2_S2VMID with (2 ^ 16 - 1).
  change (field_shift (2 ^ 16 - 1)) with 0. rewrite Z.shiftr_0_r, Z.shiftl_0_r, !land_low by lia. rewrite Z.mod_mod by lia.
  unfold u64. by rewrite !Z.mod_mod_divide by (by exists (2 ^ 48)).
Qed.

(** What of [VTCR_CELL] fits the field. *)
Definition cell_vtcr : Z := VTCR_CELL mod 2 ^ 19.

Lemma ste_s2_2_vtcr vmid : FIELD_GET STRTAB_STE_2_VTCR (ste_s2_2 vmid) = cell_vtcr.
Proof.
  unfold FIELD_GET, ste_s2_2. rewrite Z.land_lor_distr_l. unfold FIELD_PREP at 1. rewrite <- Z.land_assoc.
  change (Z.land STRTAB_STE_2_S2VMID STRTAB_STE_2_VTCR) with 0. rewrite Z.land_0_r. reflexivity.
Qed.

(** Of VM [vmid] with its table at [root]. *)
Definition vm_fate (vmid root : Z) : fate := FStage2 (vmid mod 2 ^ 16) (Z.land root STRTAB_STE_3_S2TTB_MASK) cell_vtcr.

Lemma entry_fate m a : load64 m a = ste_s2_0 ->
  ste_fate m a = FStage2 (FIELD_GET STRTAB_STE_2_S2VMID (load64 m (a + 16))) (Z.land (load64 m (a + 24)) STRTAB_STE_3_S2TTB_MASK)
    (FIELD_GET STRTAB_STE_2_VTCR (load64 m (a + 16))).
Proof. intros E. unfold ste_fate. rewrite E. reflexivity. Qed.

Lemma write_ent_run s sid dst vmid root : cmdq_ready s -> (forall x, dst <= x < dst + 32 -> ~ in_queue s x) ->
  exists F s', (forall fuel, (F <= fuel)%nat -> arm_smmu_write_strtab_ent fuel true sid dst false vmid root s = Ok s') /\ cmdq_ready s' /\ same_cfg s s' /\
    same_outside (fun x => dst <= x < dst + 32 \/ in_queue s x) (ram s) (ram s') /\
    ste_fate (ram s') dst = vm_fate vmid root /\
    cmds (dev s') = cmds (dev s) ++ [ran (CFGI_STE sid true); ran (CMD_SYNC 0 0); ran (CFGI_STE sid true); ran (CMD_SYNC 0 0)].
Proof.
  intros Hr Hq. set (m1 := store64 (store64 (ram s) (dst + 16) (ste_s2_2 vmid)) (dst + 24) (Z.land root STRTAB_STE_3_S2TTB_MASK)).
  destruct (sync_ste_run (set_ram m1 s) sid (ready_ram s m1 Hr)) as (F1 & s1 & E1 & Hr1 & Ho1 & Hx1).
  set (m2 := store64 (ram s1) dst ste_s2_0). destruct (sync_ste_run (set_ram m2 s1) sid (ready_ram s1 m2 Hr1)) as (F2 & s2 & E2 & Hr2 & Ho2 & Hx2).
  assert (in_queue s1 = in_queue s) as Eq by (unfold in_queue; by rewrite (sc_queue _ _ (outside_cfg _ _ Ho1))).
  assert (same_outside (in_queue s) m1 (ram s1)) as S1 by (exact (outside_ram _ _ Ho1)).
  assert (same_outside (in_queue s) m2 (ram s2)) as S2 by (rewrite <- Eq; exact (outside_ram _ _ Ho2)).
  exists (F1 + F2)%nat, s2. split; [|split; [done|split; [|split; [|split]]]].
  - intros fuel Hf. unfold arm_smmu_write_strtab_ent. cbn [ram set_ram]. change (set_ram ?a (set_ram ?b s)) with (set_ram a s). fold m1.
    rewrite E1 by lia. mstep. apply E2. lia.
  - apply outside_cfg in Ho1, Ho2. destruct Ho1, Ho2. cbn [pool smmu set_ram] in *. constructor; congruence.
  - intros a Ha. rewrite S2 by tauto. unfold m2. rewrite load8_store64_out by lia. rewrite S1 by tauto. unfold m1. by rewrite !load8_store64_out by lia.
  - assert (u64_ok (Z.land root STRTAB_STE_3_S2TTB_MASK)) as Hroot by (apply land_mask_ok, mask_lr_ok).
    assert (forall off, 0 <= off <= 24 -> load64 (ram s2) (dst + off) = load64 m2 (dst + off)) as L2
      by (intros off Ho; apply (same_load64 (in_queue s)); [done|intros x Hx; apply Hq; lia]).
    assert (forall off, 0 <= off <= 24 -> load64 (ram s1) (dst + off) = load64 m1 (dst + off)) as L1
      by (intros off Ho; apply (same_load64 (in_queue s)); [done|intros x Hx; apply Hq; lia]).
    assert (load64 (ram s2) dst = ste_s2_0) as ->%entry_fate
      by (pose proof (L2 0 ltac:(lia)) as E0; rewrite Z.add_0_r in E0; rewrite E0; apply load64_store64; vm_compute; split; congruence).
    rewrite !L2 by lia. unfold m2.
    rewrite !load64_store64_ne by lia. rewrite !L1 by lia. unfold m1. rewrite load64_store64 by done. rewrite load64_store64_ne by lia. rewrite load64_store64 by apply ste_s2_2_ok.
    by rewrite ste_s2_2_vmid, ste_s2_2_vtcr, <- Z.land_assoc, Z.land_diag.
  - rewrite Hx2. change (dev (set_ram m2 s1)) with (dev s1). rewrite Hx1, <- app_assoc. done.
Qed.

(** ** Giving devices to a VM *)

(** A linear table of [2^sid_bits] entries next to the command queue. *)
Record linear_table (s : sys (D := D)) : Prop := {
  lt_features : Z.land (features (smmu s)) ARM_SMMU_FEAT_2_LVL_STRTAB = 0;
  lt_bits : 0 <= sid_bits (smmu s) <= 25;
  lt_apart : forall x, strtab (scfg (smmu s)) <= x < strtab (scfg (smmu s)) + 2 ^ sid_bits (smmu s) * STRTAB_STE_SIZE -> ~ in_queue s x;
}.

Definition has_stream s (sid : Z) : Prop := 0 <= sid < 2 ^ sid_bits (smmu s).
Definition fate_of s (sid : Z) : fate := linear_fate (ram s) (strtab (scfg (smmu s))) sid.

Lemma same_cfg_table s s' : same_cfg s s' -> linear_table s -> linear_table s'.
Proof.
  intros [] [Hf Hb Ha]. constructor; [congruence..|]. unfold in_queue. rewrite sc_queue0, sc_scfg0, sc_bits0. exact Ha.
Qed.

Lemma stream_entry s sid : linear_table s -> has_stream s sid -> arm_smmu_get_step_for_sid sid s = strtab (scfg (smmu s)) + sid * STRTAB_STE_SIZE.
Proof.
  intros [Hf Hb _] Hsid. unfold has_stream in Hsid. unfold arm_smmu_get_step_for_sid. rewrite Hf. cbn [negb Z.eqb].
  assert (2 ^ sid_bits (smmu s) <= 2 ^ 25) by (apply Z.pow_le_mono_r; lia).
  change STRTAB_STE_DWORDS with 8. change STRTAB_STE_SIZE with 64. rewrite u32_small by lia. lia.
Qed.

(** The commands that go with a stream. *)
Definition dev_init_cmds (vmid sid : Z) : list (Z * Z) :=
  [ran (CFGI_STE sid true); ran (CMD_SYNC 0 0); ran (CFGI_STE sid true); ran (CMD_SYNC 0 0); ran (TLBI_S12_VMALL (u16 vmid))].

(** What a call that gives [sids] to VM [vmid] with its table at [root] does. *)
Record assigned (sids : list Z) (vmid root : Z) s s' : Prop := {
  as_ready : cmdq_ready s';
  as_cfg : same_cfg s s';
  as_given : forall sid, sid ∈ sids -> fate_of s' sid = vm_fate vmid root;
  as_rest : forall sid, has_stream s sid -> sid ∉ sids -> fate_of s' sid = fate_of s sid;
  as_cmds : cmds (dev s') = cmds (dev s) ++ mjoin (dev_init_cmds vmid <$> sids);
}.

Lemma vm_dev_init_run s id root vmid sid : cmdq_ready s -> linear_table s -> has_stream s sid ->
  exists F s', (forall fuel, (F <= fuel)%nat -> arm_smmuv3_vm_dev_init fuel (Some (id, root)) vmid sid s = Ok (0, s')) /\ assigned [sid] vmid root s s'.
Proof.
  intros Hr Ht Hsid. pose proof Ht as [Hf Hb Ha]. set (tab := strtab (scfg (smmu s))) in *. unfold has_stream in Hsid.
  destruct (write_ent_run s sid (tab + sid * STRTAB_STE_SIZE) (u32 vmid) root Hr) as (F1 & s1 & E1 & Hr1 & Hc1 & Hm1 & Hfate & Hx1).
  { change STRTAB_STE_SIZE with 64 in *. intros x Hx. apply Ha. nia. }
  destruct (issue_ran s1 (TLBI_S12_VMALL (u16 vmid)) Hr1 eq_refl) as (F2 & s2 & E2 & Hr2 & Ho2 & Hx2).
  assert (in_queue s1 = in_queue s) as Eq by (unfold in_queue; by rewrite (sc_queue _ _ Hc1)).
  pose proof (outside_ram _ _ Ho2) as Hm2. rewrite Eq in Hm2. pose proof (same_cfg_trans _ _ _ Hc1 (outside_cfg _ _ Ho2)) as Hc.
  assert (forall k, has_stream s k -> fate_of s2 k = linear_fate (ram s1) tab k) as Hk.
  { intros k Hk. unfold has_stream in Hk. unfold fate_of. rewrite (sc_scfg _ _ Hc). apply (same_fate _ _ _ _ Hm2). intros x Hx. apply Ha. change STRTAB_STE_SIZE with 64 in *. fold tab in Hx. nia. }
  exists (F1 + F2)%nat, s2. split; [|constructor].
  - intros fuel Hfuel. unfold arm_smmuv3_vm_dev_init, arm_smmu_init_ste. rewrite Hf. mstep. cbn [negb Z.eqb CURRENT_VM]. mstep.
    rewrite stream_entry by done. fold tab. rewrite E1 by lia. cbv beta iota zeta delta [mbind outcome_bind negb Z.eqb]. by rewrite E2 by lia.
  - done.
  - done.
  - intros k ->%list_elem_of_singleton. rewrite Hk by done. unfold linear_fate. rewrite Hfate. unfold vm_fate. f_equal.
    unfold u32. by rewrite Z.mod_mod_divide by (by exists (2 ^ 16)).
  - intros k Hsk Hne. rewrite Hk by done. unfold has_stream in Hsk. apply (same_fate _ _ _ _ Hm1). fold tab.
    assert (k <> sid) by (intros ->; apply Hne; by apply list_elem_of_singleton).
    intros x Hx. change STRTAB_STE_SIZE with 64 in *. intros [Hin|Hin]; [nia|]. apply (Ha x); [nia|done].
  - rewrite Hx2, Hx1, <- app_assoc. done.
Qed.

Lemma assigned_trans sid sids vmid root s1 s2 s3 : has_stream s1 sid ->
  assigned [sid] vmid root s1 s2 -> assigned sids vmid root s2 s3 -> assigned (sid :: sids) vmid root s1 s3.
Proof.
  intros Hsid [Hr1 Hc1 Hg1 Hs1 Hx1] [Hr2 Hc2 Hg2 Hs2 Hx2].
  assert (forall k, has_stream s1 k -> has_stream s2 k) as Hk by (unfold has_stream; by rewrite (sc_bits _ _ Hc1)).
  constructor; [done|by eapply same_cfg_trans| | |].
  - intros k [-> |Hin]%elem_of_cons; [|by apply Hg2]. destruct (decide (sid ∈ sids)); [by apply Hg2|].
    rewrite Hs2 by auto. apply Hg1. by apply list_elem_of_singleton.
  - intros k Hin [Hne Hni]%not_elem_of_cons. rewrite Hs2 by auto. apply Hs1; [done|]. by rewrite list_elem_of_singleton.
  - rewrite Hx2, Hx1, <- app_assoc. done.
Qed.

(** C11: giving devices to a VM, with a linear stream table (at most 2^25 streams,
    beside the command queue).  [iommu_arch_vm_init] over the stream identifiers
    of a VM's devices returns, whenever the SMMU works, with success; afterwards
    the entries of these streams name the page table and the number of the VM and
    the translation control [VTCR_CELL] (which is not that of the CPUs,
    [ste_vtcr]), the fate of every other stream is unchanged, and
    the SMMU has executed, in order, the invalidations of each new entry (before
    and after it becomes valid, each followed by a synchronisation) and of the
    VM's translations. *)
Theorem iommu_vm_init_assigns s id root vmid sids :
  cmdq_ready s -> linear_table s -> Forall (has_stream s) sids ->
  exists F s', (forall fuel, (F <= fuel)%nat -> iommu_arch_vm_init fuel (Some (id, root)) vmid sids s = Ok (true, s')) /\ assigned sids vmid root s s'.
Proof.
  intros Hr Ht Hall. revert s Hr Ht Hall. induction sids as [|sid sids IH]; intros s Hr Ht Hall.
  { exists 0%nat, s. split; [done|]. constructor; [done|by constructor| |done|by rewrite app_nil_r]. by intros k ?%elem_of_nil. }
  apply Forall_cons in Hall as [Hsid Hall]. destruct (vm_dev_init_run s id root vmid sid Hr Ht Hsid) as (F1 & s1 & E1 & A1).
  destruct (IH s1) as (F2 & s2 & E2 & A2).
  { apply A1. } { apply (same_cfg_table s), Ht. apply A1. } { unfold has_stream in *. by rewrite (sc_bits _ _ (as_cfg _ _ _ _ _ A1)). }
  exists (F1 + F2)%nat, s2. split; [|by eapply assigned_trans].
  intros fuel Hf. cbn [iommu_arch_vm_init]. rewrite E1 by lia. mstep. apply E2. lia.
Qed.

End entries.

(** ** A new table *)

Lemma write_bypass_out dst vmid m : same_outside (fun x => dst <= x < dst + 24) m (write_bypass_ste dst vmid m).
Proof. intros x Hx. unfold write_bypass_ste. rewrite !load8_store64_out by lia. done. Qed.

Lemma write_bypass_fate dst vmid m : ste_fate (write_bypass_ste dst vmid m) dst = FBypass.
Proof.
  unfold ste_fate. assert (load64 (write_bypass_ste dst vmid m) dst = ste_bypass_0) as -> by (apply load64_store64; vm_compute; split; congruence).
  reflexivity.
Qed.

(** A new table lets every stream through until its device is given to a VM; only
    the table is written. *)
Theorem new_table_bypasses id root tab n m : 0 <= n ->
  exists m', arm_smmu_init_bypass_stes (Some (id, root)) tab n m = Ok m' /\
    (forall sid, 0 <= sid < n -> linear_fate m' tab sid = FBypass) /\
    same_outside (fun x => tab <= x < tab + n * STRTAB_STE_SIZE) m m'.
Proof.
  intros Hn. unfold arm_smmu_init_bypass_stes, linear_fate. change STRTAB_STE_SIZE with 64.
  destruct (for_loop_rule (fun i m' => (forall sid, 0 <= sid < i -> ste_fate m' (tab + sid * 64) = FBypass) /\
    same_outside (fun x => tab <= x < tab + n * 64) m m')
    (fun n m => '(id, _) ← CURRENT_VM (Some (id, root)); Ok (write_bypass_ste (tab + n * 64) (u32 id) m)) (Z.to_nat n) 0) with (s := m) as (m' & E & HI).
  - intros j mj Hj [Hf Ho]. exists (write_bypass_ste (tab + j * 64) (u32 id) mj). split; [done|]. split.
    + intros sid Hsid. destruct (Z.eqb_spec sid j) as [-> |]; [apply write_bypass_fate|].
      rewrite (same_fate _ _ _ _ (write_bypass_out _ _ _)) by lia. apply Hf. lia.
    + apply (same_outside_trans _ _ mj); [done|]. eapply same_outside_mono; [|apply write_bypass_out]. cbn beta. intros x Hx. nia.
  - split; [lia|]. by intros x Hx.
  - exists m'. rewrite Z2Nat.id, Z.add_0_l in HI by done. done.
Qed.

(** ** Two levels *)

Section two_level.
Context {D : Type} `{SmmuLaws D}.
Implicit Types s : sys (D := D).

Definition no_overlap (a n b k : Z) : Prop := a + n <= b \/ b + k <= a.

(** The block of stream [sid] has no table yet, and [l2] is what the pool gives: the
    driver's descriptor, the SMMU's, the new table and the command queue are
    apart. *)
Record first_of_block s (sid l2 : Z) (pl : page_pool) : Prop := {
  fb_desc : load64 (ram s) (l1_desc (scfg (smmu s)) + Z.shiftr sid STRTAB_SPLIT * sizeof_l1_desc + off_l2ptr) = 0;
  fb_l1 : load64 (ram s) (strtab (scfg (smmu s)) + Z.shiftr sid STRTAB_SPLIT * STRTAB_L1_DESC_SIZE) = 0;
  fb_alloc : mem_alloc_page (pool s) 4 true = Ok (l2, pl);
  fb_l2 : 0 < l2 < 2 ^ 48 /\ l2 mod 64 = 0;
  fb_apart : let desc := l1_desc (scfg (smmu s)) + Z.shiftr sid STRTAB_SPLIT * sizeof_l1_desc in
    let dst := strtab (scfg (smmu s)) + Z.shiftr sid STRTAB_SPLIT * STRTAB_L1_DESC_SIZE in
    let q := q_base_addr (cmdq (smmu s)) in
    no_overlap desc 32 l2 0x4000 /\ no_overlap desc 32 dst 8 /\ no_overlap dst 8 l2 0x4000 /\
    no_overlap q 4096 l2 0x4000 /\ no_overlap q 4096 dst 8;
}.

(** The SMMU's descriptor of a table of 256 entries. *)
Lemma l1_value l2 : 0 <= l2 < 2 ^ 48 -> l2 mod 64 = 0 ->
  let v := Z.lor (FIELD_PREP STRTAB_L1_DESC_SPAN 9) (Z.land l2 STRTAB_L1_DESC_L2PTR_MASK) in
  u64_ok v /\ FIELD_GET STRTAB_L1_DESC_SPAN v = 9 /\ Z.land v STRTAB_L1_DESC_L2PTR_MASK = l2.
Proof.
  intros Hl Hal. cbv zeta. change (FIELD_PREP STRTAB_L1_DESC_SPAN 9) with 9.
  assert (Z.land l2 STRTAB_L1_DESC_L2PTR_MASK = l2) as E.
  { change STRTAB_L1_DESC_L2PTR_MASK with (Z.shiftl (Z.ones 46) 6). apply Z.bits_inj'. intros n Hn.
    rewrite Z.land_spec, Z.shiftl_spec, Z.testbit_ones by lia.
    destruct (Z.ltb_spec n 6) as [Hlt|Hge].
    - rewrite <- (Z.mod_pow2_bits_low l2 6 n) by lia. change (2 ^ 6) with 64. rewrite Hal, Z.bits_0. done.
    - rewrite (proj2 (Z.leb_le 0 (n - 6))) by lia. destruct (Z.ltb_spec (n - 6) 46); [apply andb_true_r|].
      by rewrite (testbit_small l2 48 n) by lia. }
  assert (forall k, 0 <= k <= 6 -> Z.land l2 (Z.ones k) = 0) as Hlow.
  { intros k Hk. rewrite Z.land_ones by lia. assert (64 = 2 ^ (6 - k) * 2 ^ k) as E64 by (rewrite <- Z.pow_add_r by lia; by replace (6 - k + k) with 6 by lia).
    apply Z.mod_divide; [apply Z.pow_nonzero; lia|]. exists (l2 / 64 * 2 ^ (6 - k)). rewrite <- Z.mul_assoc, <- E64. pose proof (Z.div_mod l2 64). lia. }
  rewrite E. split_and!.
  - apply lor_ok; unfold u64_ok; lia.
  - unfold FIELD_GET. rewrite Z.land_lor_distr_l. change (Z.land l2 STRTAB_L1_DESC_SPAN) with (Z.land l2 (Z.ones 5)). by rewrite Hlow by lia.
  - rewrite Z.land_lor_distr_l, E. by change (Z.land 9 STRTAB_L1_DESC_L2PTR_MASK) with 0.
Qed.

(** The first device of a block of 256 streams opens the whole block: where the
    SMMU aborted the transactions of these streams, it lets them through
    untranslated once [arm_smmu_init_l2_strtab] has returned. *)
Theorem l2_strtab_bypasses s id root sid l2 pl : cmdq_ready s -> first_of_block s sid l2 pl ->
  exists F s', (forall fuel, (F <= fuel)%nat -> arm_smmu_init_l2_strtab fuel (Some (id, root)) sid s = Ok (0, s')) /\ cmdq_ready s' /\
    forall k, Z.shiftr k STRTAB_SPLIT = Z.shiftr sid STRTAB_SPLIT ->
      twolevel_fate (ram s) (strtab (scfg (smmu s))) k = FAbort /\ twolevel_fate (ram s') (strtab (scfg (smmu s))) k = FBypass.
Proof.
  intros Hr [Hd H1 Ha [Hl Hal] Hap]. cbv zeta in Hap. unfold no_overlap, sizeof_l1_desc, off_l2ptr in *.
  change STRTAB_L1_DESC_SIZE with 8 in *. set (i := Z.shiftr sid STRTAB_SPLIT) in *. set (c := scfg (smmu s)) in *.
  set (desc := l1_desc c + i * 32) in *. set (dst := strtab c + i * 8) in *.
  set (m1 := store32 (store64 (store64 (store8 (ram s) desc 9) (desc + 8) l2) (desc + 16) l2) (desc + 24) 1).
  destruct (new_table_bypasses id root l2 256 m1 ltac:(lia)) as (m2 & E2 & Hby & Hout). change STRTAB_STE_SIZE with 64 in Hout.
  assert (load8 m2 desc = 9) as Espan.
  { rewrite Hout by lia. unfold m1, store32, store64. rewrite !load8_store_le, load8_store8, Z.eqb_refl. by rewrite !in_interval_false by lia. }
  assert (load64 m2 (desc + 16) = l2) as Edma.
  { rewrite (same_load64 _ _ _ _ Hout) by lia. unfold m1, load64, store32. rewrite load_store_le_ne by lia. apply load64_store64. lia. }
  destruct (l1_value l2 ltac:(lia) Hal) as (Hv1 & Hv2 & Hv3). set (v := Z.lor _ _) in *. set (m3 := store64 m2 dst v).
  assert (cmdq_ready (Sys (dev s) m3 pl (smmu s))) as Hr3 by (destruct Hr as [[[] ? ? ? ? ? ? ?] ?]; split; [constructor; [by constructor|done..]|done]).
  destruct (issue_ran _ (CFGI_STE sid false) Hr3 eq_refl) as (F & s' & E & Hr' & Ho & _).
  exists F, s'. split; [|split; [done|]].
  - intros fuel Hf. unfold arm_smmu_init_l2_strtab. fold c i. unfold sizeof_l1_desc, off_l2ptr. fold desc. rewrite Hd. cbn [Z.eqb negb].
    replace (desc + off_span) with desc by (unfold off_span; lia). change (STRTAB_SPLIT + 1) with 9. unfold alloc.
    change (NUM_PAGES (Z.shiftl 1 (STRTAB_SPLIT + STRTAB_STE_DWORDS_BITS + 3))) with 4. cbn [pool set_ram]. rewrite Ha. mstep.
    rewrite (proj2 (Z.eqb_neq l2 0)) by lia. unfold off_l2ptr_dma, off_active_stes. cbn [ram set_ram].
    fold m1. change (Z.shiftl 1 STRTAB_SPLIT) with 256. rewrite E2. mstep. unfold arm_smmu_write_strtab_l1_desc.
    replace (desc + off_span) with desc by (unfold off_span; lia). unfold off_l2ptr_dma. rewrite Espan, Edma. fold v.
    replace (i * STRTAB_L1_DESC_DWORDS * 8) with (i * 8) by (change STRTAB_L1_DESC_DWORDS with 1; lia). fold dst m3.
    by rewrite E.
  - intros k Hk. unfold twolevel_fate. rewrite Hk. fold i. change STRTAB_L1_DESC_SIZE with 8. fold dst. rewrite H1. split; [done|].
    pose proof (outside_ram _ _ Ho) as Hs'. unfold in_queue in Hs'. cbn [ram smmu] in Hs'.
    rewrite (same_load64 _ _ _ dst Hs') by lia. unfold m3 at 1 2 3. rewrite load64_store64 by done. rewrite Hv2, Hv3.
    pose proof (Z.mod_pos_bound k 256 ltac:(lia)). change (2 ^ STRTAB_SPLIT) with 256. cbn [Z.eqb]. change (2 ^ (9 - 1)) with 256.
    rewrite (proj2 (Z.leb_gt _ _)) by lia. change STRTAB_STE_SIZE with 64. rewrite (same_fate _ _ _ _ Hs') by lia.
    rewrite (same_fate _ _ _ _ (same_store64 dst v m2)) by lia. apply Hby. lia.
Qed.

End two_level.

(** ** Where the driver falls short *)

(** The table's entries name the VM of the running virtual CPU; when the driver is
    initialised there is none. *)
Lemma bypass_needs_vm tab n m : 0 < n -> arm_smmu_init_bypass_stes None tab n m = Halt HFault.
Proof. intros Hn. unfold arm_smmu_init_bypass_stes. replace (Z.to_nat n) with (S (Z.to_nat (n - 1))) by lia. reflexivity. Qed.

(** The entries' translation control claims input addresses of 64 bits and leaves the
    size of the output at its least, whatever the CPU's own VTCR_EL2 has. *)
Lemma ste_vtcr : ipa_bits cell_vtcr = 64 /\ Z.land (Z.shiftr cell_vtcr VTCR_PS_OFF) 7 = 0.
Proof. by vm_compute. Qed.

(** The toy SMMU's table has 64 streams, all of them aborted. *)
Lemma toy_table : linear_table toy_sys.
Proof. constructor; [reflexivity|vm_compute; split; congruence|]. intros x Hx Hq. change (0x50001000 <= x < 0x50001000 + 2 ^ 6 * 64) in Hx. change (0x50000000 <= x < 0x50000000 + 4096) in Hq. lia. Qed.

Lemma iommu_vm_init_assigns_witness : exists fuel s', iommu_arch_vm_init fuel (Some (1, 0x60000000)) 1 [5; 9] toy_sys = Ok (true, s') /\
  fate_of s' 5 = FStage2 1 0x60000000 0x3540 /\ fate_of s' 9 = FStage2 1 0x60000000 0x3540 /\ fate_of s' 6 = FAbort /\ length (cmds (dev s')) = 10%nat.
Proof.
  destruct (iommu_vm_init_assigns toy_sys 1 0x60000000 1 [5; 9] toy_ready toy_table) as (F & s' & HF & [_ _ Hg Hs Hx]).
  - repeat constructor; vm_compute; congruence.
  - exists F, s'. split; [apply HF; lia|]. split; [apply (Hg 5); left|]. split; [apply (Hg 9); right; left|]. split.
    + rewrite (Hs 6); [reflexivity|vm_compute; split; congruence|]. by intros [|[|[]%elem_of_nil]%elem_of_cons]%elem_of_cons.
    + rewrite Hx. reflexivity.
Defined.

(** The same SMMU with a table of two levels: the driver's descriptors at 0x50002000,
    the SMMU's at 0x50001000, and pages in [demo_pool]. *)
Definition toy_levels : sys (D := toy) :=
  Sys (dev toy_sys) ∅ demo_pool
    (Device 0x9050000 ARM_SMMU_FEAT_2_LVL_STRTAB toy_queue SPINLOCK_INITVAL toy_queue 16 (StrtabCfg 0x50001000 0x50002000 256 0 16)).

Lemma l2_strtab_bypasses_witness : exists fuel s', arm_smmu_init_l2_strtab fuel (Some (1, 0x60000000)) 0x305 toy_levels = Ok (0, s') /\
  twolevel_fate (ram toy_levels) 0x50001000 0x3FF = FAbort /\ twolevel_fate (ram s') 0x50001000 0x3FF = FBypass.
Proof.
  assert (cmdq_ready toy_levels) as Hr by (destruct toy_ready as [[[] ? ? ? ? ? ? ?] ?]; split; [constructor; [by constructor|done..]|done]).
  destruct (mem_alloc_page demo_pool 4 true) as [[l2 pl]|] eqn:E; [|vm_compute in E; discriminate E].
  assert (l2 = 0x50010000) as ->.
  { assert (match mem_alloc_page demo_pool 4 true with Ok (a, _) => a | Halt _ => 0 end = 0x50010000) as H by (vm_compute; reflexivity).
    rewrite E in H. exact H. }
  destruct (l2_strtab_bypasses toy_levels 1 0x60000000 0x305 0x50010000 pl Hr) as (F & s' & HF & _ & Hk).
  - split; [reflexivity|reflexivity|exact E|split; [lia|reflexivity]|]. cbv zeta. unfold no_overlap.
    change (Z.shiftr 0x305 STRTAB_SPLIT) with 3. vm_compute. split_and!; (left; discriminate) || (right; discriminate).
  - exists F, s'. split; [apply HF; lia|]. exact (Hk 0x3FF eq_refl).
Defined.
