(* ===== verification/GuestMem.v ===== *)
(** The memory of a guest: [vm_init_mem_regions], [vm_init_dev] and
    [vm_master_init] of [core/vm.c], the configuration of [core/inc/config.h],
    [core/io.c] and [arch/aarch64/iommu.c] of a build without an IOMMU.

    A VM's address space is built over the page allocator and RAM that all VMs
    share: its image and device tree are copied into fresh pages, its devices
    and the shared memory are mapped where the configuration says.  The theorems
    say what a guest finds in its memory and that it reaches nothing else. *)

From S2P Require Import Prelude Bit Bitmap Spinlock PhysMem Objpool Mem PageTable Mmu Vpage Dlist Cpu Gic Vm Vgic VgicInv VgicLr Irq.

(** ** The configuration *)

(** [interrupt_num] is the length of [dev_interrupts]. *)
Record vm_dev_region := VmDevRegion {
  dev_id : Z;
  dev_pa : Z;
  dev_va : Z;
  dev_size : Z;
  dev_interrupts : list Z;
}.

Record dtb_config := DtbConfig { dtb_base_addr : Z; dtb_load_addr : Z; dtb_size : Z }.

Record rq_config_vm := RqConfigVm { cfg_vbase : Z; cfg_rq_size : Z }.

(** [nr_devs] is the length of [devs]; [arch.gic] is a parameter of [vgic_init]. *)
Record vm_config := VmConfig {
  base_addr : Z;
  load_addr : Z;
  size : Z;
  entry : Z;
  dmem_size : Z;
  cfg_nr_cpus : Z;
  devs : list vm_dev_region;
  rq_vm_cfg : rq_config_vm;
}.

(** ** [io.c] over the [iommu.c] of a build without an SMMU *)

Definition iommu_arch_vm_add_device (id : Z) : bool := true.
Definition iommu_arch_vm_init : bool := true.

Definition io_vm_init : bool := iommu_arch_vm_init.
Definition io_vm_add_device (dev_id : Z) : bool :=
  if negb (dev_id =? 0) then iommu_arch_vm_add_device dev_id else false.

(** The loop that adds the devices that have an id. *)
Fixpoint io_add_devs (l : list vm_dev_region) : outcome () :=
  match l with
  | [] => Ok ()
  | dev :: l =>
      if negb (dev_id dev =? 0) && negb (io_vm_add_device (dev_id dev)) then Halt HError
      else io_add_devs l
  end.

Section guest.
Context {P : Type} `{PageAllocator P}.
Context (arm_at_s12e1w : mem -> Z -> Z).

Abbreviation state := (P * mem)%type.

(** ** RAM and the device tree *)

(** One half of [vm_init_mem_regions]: map [n] pages at [base], find where they
    are and copy [count] bytes from [src] there. *)
Definition load_region (base n src count : Z) (sp : addr_space) (s : state)
    : outcome (addr_space * state) :=
  '(va, sp, s) ← mem_alloc_map sp None base n PTE_VM_FLAGS s;
  if negb (va =? base) then Halt HError else
  pa ← mem_translate arm_at_s12e1w s.2 va;
  m ← memcpy s.2 pa src count;
  Ok (sp, (s.1, m)).

Definition vm_init_mem_regions (cfg : vm_config) (dtb : dtb_config) (sp : addr_space) (s : state)
    : outcome (addr_space * state) :=
  '(sp, s) ← load_region (base_addr cfg) (NUM_PAGES (u64 (size cfg + dmem_size cfg)))
    (load_addr cfg) (size cfg) sp s;
  load_region (dtb_base_addr dtb) (NUM_PAGES (dtb_size dtb)) (dtb_load_addr dtb) (dtb_size dtb) sp s.

(** ** Devices *)

Section dev.
Context {H0 : Type} `{GicHw H0}.

(** [for (j = 0; j < dev->interrupt_num; j++) interrupts_vm_assign(..)]. *)
Fixpoint assign_ints (l : list Z) : st (irqs H0) () :=
  match l with
  | [] => mret ()
  | id :: l => interrupts_vm_assign id ;; assign_ints l
  end.

Fixpoint init_devs (l : list vm_dev_region) (sp : addr_space) (s : state) (w : irqs H0)
    : outcome (addr_space * state * irqs H0) :=
  match l with
  | [] => Ok (sp, s, w)
  | dev :: l =>
      let n := ALIGN (dev_size dev) PAGE_SIZE / PAGE_SIZE in
      '(sp, s) ← (if negb (dev_va dev =? INVALID_VA) then
          '(_, sp, s) ← mem_alloc_map_dev sp (dev_va dev) (dev_pa dev) n s;
          Ok (sp, s)
        else Ok (sp, s));
      '(_, w) ← assign_ints (dev_interrupts dev) w;
      init_devs l sp s w
  end.

(** [shared_mem] is the address of the descriptor [mem_init] set up: [va] at 0,
    [pa] at 8 and [size] at 16. *)
Definition vm_init_dev (cfg : vm_config) (shared_mem : Z) (sp : addr_space) (s : state)
    (w : irqs H0) : outcome (addr_space * state * irqs H0) :=
  '(sp, s, w) ← init_devs (devs cfg) sp s w;
  _ ← (if io_vm_init then io_add_devs (devs cfg) else Ok ());
  if negb (shared_mem =? 0) then
    '(_, sp, s) ← mem_alloc_map_dev sp (load64 s.2 shared_mem) (load64 s.2 (shared_mem + 8))
      (NUM_PAGES (load64 s.2 (shared_mem + 16))) s;
    Ok (sp, s, w)
  else Ok (sp, s, w).

(** What the master does in [vm_init] between the last two barriers. *)
Definition vm_init_memory (cfg : vm_config) (dtb : dtb_config) (shared_mem : Z) (sp : addr_space)
    (s : state) (w : irqs H0) : outcome (addr_space * state * irqs H0) :=
  '(sp, s) ← vm_init_mem_regions cfg dtb sp s;
  vm_init_dev cfg shared_mem sp s w.
End dev.

(** ** Writes that miss the tables *)

Lemma space_write sp p m m' T :
  space_wf sp (p, m) T -> bytes_ok m' -> (forall x, in_tables T x -> load8 m' x = load8 m x) ->
  space_wf sp (p, m') T /\ forall va, translate m' (root (as_pt sp)) va = translate m (root (as_pt sp)) va /\
    busy m' (root (as_pt sp)) va = busy m (root (as_pt sp)) va.
Proof using Type.
  intros [Hwf Hd Hi Hs] Hb Hk. cbn [fst snd] in *. destruct (tables_write _ _ _ _ Hwf Hb Hk) as [Hwf' Htr]. split; [by split|done].
Qed.

(** What is mapped is busy. *)
Lemma translate_busy m r va pa : translate m r va = Some pa -> busy m r va = true.
Proof using Type.
  rewrite translate_leaf_at. unfold busy, busy_entry, leaf. destruct (leaf_at m r va) as [l e]. cbn [fst snd].
  rewrite is_table_bits, is_block_bits. destruct (Z.testbit e 0); [done|]. by destruct (l =? 3).
Qed.

(** ** Building an address space *)

(** [n] pages at [rg_va] that are the pages at [rg_pa]. *)
Record region := Region { rg_va : Z; rg_n : Z; rg_pa : Z }.

Definition in_region (r : region) (x : Z) : bool := (rg_va r <=? x) && (x <? rg_va r + rg_n r * PAGE_SIZE).

(** Where a list of regions puts an address. *)
Fixpoint place (l : list region) (x : Z) : option Z :=
  match l with
  | [] => None
  | r :: l => if in_region r x then Some (rg_pa r + (x - rg_va r)) else place l x
  end.

Definition covers (l : list region) (x : Z) : bool := existsb (fun r => in_region r x) l.

Lemma place_covers l x : covers l x = match place l x with Some _ => true | None => false end.
Proof using Type. induction l as [|r l IH]; simpl; [done|]. by destruct (in_region r x). Qed.

Lemma place_app l1 l2 x : place (l1 ++ l2) x = match place l1 x with Some q => Some q | None => place l2 x end.
Proof using Type. induction l1 as [|r l IH]; simpl; [done|]. by destruct (in_region r x). Qed.

Lemma covers_app l1 l2 x : covers (l1 ++ l2) x = covers l1 x || covers l2 x.
Proof using Type. apply existsb_app. Qed.

(** From [s] to [s'] exactly the regions [l] were added to the space, in tables
    made of free memory; what is neither a table nor free is as it was. *)
Record built (l : list region) (sp : addr_space) (s : state) (T : gmap Z Z)
    (sp' : addr_space) (s' : state) (T' : gmap Z Z) : Prop := {
  bu_space : as_pt sp' = as_pt sp /\ as_type sp' = as_type sp /\ unlocked (as_lock sp');
  bu_wf : space_wf sp' s' T';
  bu_map x : 0 <= x < 2 ^ 48 -> translate s'.2 (root (as_pt sp)) x =
    match place l x with Some q => Some q | None => translate s.2 (root (as_pt sp)) x end;
  bu_busy x : 0 <= x < 2 ^ 48 -> busy s'.2 (root (as_pt sp)) x = covers l x || busy s.2 (root (as_pt sp)) x;
  bu_owns x : pa_owns s'.1 x -> pa_owns s.1 x;
  bu_tables x : in_tables T' x -> in_tables T x \/ pa_owns s.1 x;
  bu_frame x : ~ in_tables T x -> ~ pa_owns s.1 x -> load8 s'.2 x = load8 s.2 x;
}.

Lemma built_refl sp s T : space_wf sp s T -> unlocked (as_lock sp) -> built [] sp s T sp s T.
Proof using Type. intros Hs Hl. split; auto. Qed.

Lemma built_trans l1 l2 sp s T sp1 s1 T1 sp2 s2 T2 :
  built l1 sp s T sp1 s1 T1 -> built l2 sp1 s1 T1 sp2 s2 T2 -> built (l2 ++ l1) sp s T sp2 s2 T2.
Proof using Type.
  intros [(P1 & Y1 & L1) W1 N1 U1 F1 B1 M1] [(P2 & Y2 & L2) W2 N2 U2 F2 B2 M2]. rewrite P1 in *. split.
  - split_and!; congruence.
  - done.
  - intros x Hx. rewrite N2, N1, place_app by done. by destruct (place l2 x).
  - intros x Hx. by rewrite U2, U1, covers_app, orb_assoc by done.
  - auto.
  - intros x Hx. destruct (B2 x Hx) as [Hin|]; auto.
  - intros x Hn Ho. rewrite M2, M1; try done; [|by auto]. intros Hin. by destruct (B1 x Hin).
Qed.

Lemma map_built sp s T at_ n pages sp' s' T' pa :
  map_post sp s T at_ n pages sp' s' T' pa -> built [Region at_ n pa] sp s T sp' s' T'.
Proof using Type.
  intros [M1 M2 M3 M4 M5 M6 M7 M8]. split; try done; intros x Hx; destruct (M3 x Hx) as [E1 E2].
  - rewrite E1. simpl. unfold in_region. cbn [rg_va rg_n rg_pa]. by destruct (_ && _).
  - rewrite E2. simpl. unfold in_region. cbn [rg_va rg_n rg_pa]. by rewrite orb_false_r.
Qed.

Lemma disjoint_separate a b n : 0 <= n -> (forall x, a <= x < a + n -> ~ b <= x < b + n) -> separate a b n.
Proof using Type. intros Hn Hd. unfold separate. destruct (Z.le_gt_cases (a + n) b); [by left|]. right. specialize (Hd (Z.max a b)). lia. Qed.

(** ** Loading a region *)

(** Bytes that are in no table and not free. *)
Definition outside (s : state) (T : gmap Z Z) (a n : Z) : Prop :=
  forall x, a <= x < a + n -> ~ in_tables T x /\ ~ pa_owns s.1 x.

Lemma outside_built l sp s T sp' s' T' a n :
  built l sp s T sp' s' T' -> outside s T a n -> outside s' T' a n /\ forall x, a <= x < a + n -> load8 s'.2 x = load8 s.2 x.
Proof using Type.
  intros [_ _ _ _ Ho Ht Hf] Hout. split; intros x Hx; destruct (Hout x Hx) as [H1 H2]; [|by apply Hf].
  split; [|by auto]. intros Hin. by destruct (Ht x Hin).
Qed.

(** [n] pages at [base] hold, in fresh memory at [pa], the [count] bytes at [src]. *)
Record loaded (base n src count : Z) (sp : addr_space) (s : state) (T : gmap Z Z)
    (sp' : addr_space) (s' : state) (T' : gmap Z Z) (pa : Z) : Prop := {
  ld_built : built [Region base n pa] sp s T sp' s' T';
  ld_free : range_free sp s base n;
  ld_fresh x : pa <= x < pa + n * PAGE_SIZE -> pa_owns s.1 x;
  ld_outside : outside s' T' pa (n * PAGE_SIZE);
  ld_bytes k : 0 <= k < count -> load8 s'.2 (pa + k) = load8 s.2 (src + k);
}.

(** Free memory is below the 38 bits [PAR_PA_MSK] keeps. *)
Definition low (s : state) : Prop := forall x, pa_owns s.1 x -> 0 <= x < 2 ^ 38.

Lemma load_region_spec sp s T base n src count :
  space_wf sp s T -> unlocked (as_lock sp) -> at_walks arm_at_s12e1w (root (as_pt sp)) -> low s ->
  page_addr base -> 1 <= n -> base + n * PAGE_SIZE <= 2 ^ 48 -> 0 <= count <= n * PAGE_SIZE ->
  outside s T src count ->
  or_error (fun '(sp', s') => exists T' pa, loaded base n src count sp s T sp' s' T' pa)
    (load_region base n src count sp s).
Proof using Type.
  intros Hwf Hlk Hat Hlow Hbase Hn Htop Hc Hsrc. unfold load_region.
  eapply or_error_bind; [by apply mem_alloc_map_spec with (T := T)|].
  intros [[va sp1] [p1 m1]] (T1 & [(-> & _)|(-> & Hfree & pa & Hmp)]).
  { rewrite (proj2 (Z.eqb_neq INVALID_VA base)); [done|]. destruct Hbase as [? Hmod]. intros Heq. by rewrite <- Heq in Hmod. }
  rewrite Z.eqb_refl. cbn [negb snd fst]. pose proof (map_built _ _ _ _ _ _ _ _ _ _ Hmp) as Hbu1.
  pose proof Hmp as [_ W1 Hmap Htgt [[Hpa0 Hpam] Hpal] Ho Htab Hfr]. cbn [target_ok fst snd] in *.
  assert (forall x, base <= x < base + n * PAGE_SIZE -> translate m1 (root (as_pt sp)) x = Some (pa + (x - base))) as Hm.
  { intros x Hx. rewrite (proj1 (Hmap x ltac:(destruct Hbase; lia))).
    by rewrite (proj2 (Z.leb_le _ _)), (proj2 (Z.ltb_lt _ _)) by lia. }
  assert (pa < 2 ^ 38) as Hpa38 by (apply Hlow, Htgt; unfold PAGE_SIZE; lia).
  rewrite (mem_translate_walks arm_at_s12e1w (root (as_pt sp)) m1 base pa); [|done|apply W1|rewrite Hm by (unfold PAGE_SIZE; lia); f_equal; lia|apply Hbase|lia|by rewrite Hpam; symmetry; apply Hbase].
  destruct (outside_built _ _ _ _ _ _ _ _ _ Hbu1 Hsrc) as [_ Hsame]. cbn [snd] in Hsame.
  destruct (memcpy_spec m1 pa src count) as (m2 & E & Hcp).
  { apply W1. }
  { apply disjoint_separate; [lia|]. intros x Hx Hx2. by apply (Hsrc x Hx2), Htgt; lia. }
  { unfold PAGE_SIZE in *. destruct Hbase. lia. }
  mstep. rewrite E. mstep. simpl.
  assert (forall x, ~ (pa <= x < pa + count) -> load8 m2 x = load8 m1 x) as Hout.
  { intros x Hx. rewrite (Hcp x). destruct (Z.leb_spec pa x), (Z.ltb_spec x (pa + count)); simpl; done || lia. }
  destruct (space_write sp1 p1 m1 m2 T1 W1) as [W2 Htr].
  { eapply copied_ok; [apply W1|done]. }
  { intros x Hx. apply Hout. intros Hx2. by apply (Htgt x); lia || done. }
  destruct Hbu1 as [(Ept & Ety & Eul) _ E3 E4 E5 E6 E7]. cbn [fst snd] in *. rewrite Ept in Htr.
  exists T1, pa. split; cbn [fst snd].
  - split; try done; cbn [fst snd].
    + intros x Hx. rewrite (proj1 (Htr x)). by apply E3.
    + intros x Hx. rewrite (proj2 (Htr x)). by apply E4.
    + intros x Hx1 Hx2. rewrite Hout; [by apply E7|]. intros Hx. apply Hx2, Htgt. lia.
  - done.
  - intros x Hx. by apply Htgt.
  - intros x Hx. split; apply Htgt; lia.
  - intros k Hk. rewrite (Hcp (pa + k)), (proj2 (Z.leb_le _ _)), (proj2 (Z.ltb_lt _ _)) by lia. cbn [andb].
    replace (src + (pa + k - pa)) with (src + k) by lia. apply Hsame. lia.
Qed.

(** ** Mapping devices *)

Lemma map_dev_built sp s T va pa n :
  space_wf sp s T -> unlocked (as_lock sp) -> page_addr va -> page_addr pa -> 0 <= n ->
  va + n * PAGE_SIZE <= 2 ^ 48 -> pa + n * PAGE_SIZE <= 2 ^ 48 -> range_free sp s va n ->
  or_error (fun '(_, sp', s') => exists T', built [Region va n pa] sp s T sp' s' T') (mem_alloc_map_dev sp va pa n s).
Proof using Type.
  intros Hwf Hlk Hva Hpa Hn Hv Hp Hfree. destruct (Z.eqb_spec n 0) as [->|Hnz].
  - unfold mem_alloc_map_dev, mem_alloc_vpage. pose proof Hva as [Hr Hm]. rewrite (at_valid va Hva) by (unfold PAGE_SIZE in *; lia). cbn [negb].
    rewrite (proj2 (Z.ltb_ge MAX_VA va)) by (unfold MAX_VA; lia). unfold IS_ALIGNED. rewrite (proj2 (Z.eqb_eq _ _) Hm). cbn [negb orb].
    destruct (spin_lock_unlock _ Hlk) as (l & -> & Hul & _). mstep. destruct s as [p m].
    match goal with |- context [while ?f ?c ?b ?v] => assert (while f c b v = Ok v) as -> by done end.
    mstep. simpl. exists T. split; cbn [fst snd as_pt as_type as_lock set_as_lock]; auto.
    + by destruct Hwf.
    + intros x Hx. simpl. unfold in_region. cbn [rg_va rg_n].
      destruct (Z.leb_spec va x), (Z.ltb_spec x (va + 0 * PAGE_SIZE)); simpl; done || lia.
    + intros x Hx. simpl. unfold in_region. cbn [rg_va rg_n].
      destruct (Z.leb_spec va x), (Z.ltb_spec x (va + 0 * PAGE_SIZE)); simpl; done || lia.
  - eapply or_error_mono; [apply mem_alloc_map_dev_spec with (T := T); done || lia|].
    intros [[va' sp'] s'] (T' & [(_ & (x & Hx & Hb) & _)|(_ & _ & pa' & Hm)]).
    + by rewrite (Hfree x Hx) in Hb.
    + exists T'. pose proof (mp_target _ _ _ _ _ _ _ _ _ _ Hm) as Hpa'. cbn in Hpa'. subst pa'. by eapply map_built.
Qed.

(** A mapping the configuration asks for. *)
Definition region_ok (r : region) : Prop :=
  page_addr (rg_va r) /\ page_addr (rg_pa r) /\ 0 <= rg_n r /\
  rg_va r + rg_n r * PAGE_SIZE <= 2 ^ 48 /\ rg_pa r + rg_n r * PAGE_SIZE <= 2 ^ 48.

Definition dev_region (dev : vm_dev_region) : list region :=
  if dev_va dev =? INVALID_VA then [] else [Region (dev_va dev) (NUM_PAGES (dev_size dev)) (dev_pa dev)].

(** The regions of the devices, the last one first. *)
Fixpoint dev_regions (l : list vm_dev_region) : list region :=
  match l with [] => [] | dev :: l => dev_regions l ++ dev_region dev end.

(** No two devices overlap. *)
Definition apart_regions (l1 l2 : list region) : Prop := forall x, covers l1 x = true -> covers l2 x = false.

Fixpoint devs_apart (l : list vm_dev_region) : Prop :=
  match l with [] => True | dev :: l => apart_regions (dev_regions l) (dev_region dev) /\ devs_apart l end.

(** The addresses of [l] are still free. *)
Definition free_for (l : list region) (sp : addr_space) (s : state) : Prop :=
  forall x, covers l x = true -> busy s.2 (root (as_pt sp)) x = false.

Lemma covers_range l x : Forall region_ok l -> covers l x = true -> 0 <= x < 2 ^ 48.
Proof using Type.
  intros Hl. unfold covers. rewrite existsb_exists. intros (r & Hr & Hin).
  rewrite Forall_forall in Hl. destruct (Hl r) as ([Hv _] & _ & _ & Hlim & _); [by apply list_elem_of_In|].
  unfold in_region in Hin. apply andb_true_iff in Hin as [?%Z.leb_le ?%Z.ltb_lt]. lia.
Qed.

Lemma free_built l1 l2 sp s T sp' s' T' : Forall region_ok l2 -> built l1 sp s T sp' s' T' ->
  apart_regions l2 l1 -> free_for l2 sp s -> free_for l2 sp' s'.
Proof using Type.
  intros Hok Hb Ha Hf x Hx. destruct Hb as [(-> & _) _ _ Hb _ _ _].
  rewrite Hb by (by eapply covers_range). by rewrite (Ha x Hx), (Hf x Hx).
Qed.

Lemma free_range r sp s : free_for [r] sp s -> range_free sp s (rg_va r) (rg_n r).
Proof using Type.
  intros Hf x Hx. apply Hf. simpl. unfold in_region. by rewrite (proj2 (Z.leb_le _ _)), (proj2 (Z.ltb_lt _ _)) by lia.
Qed.

Lemma free_app l1 l2 sp s : free_for (l1 ++ l2) sp s -> free_for l1 sp s /\ free_for l2 sp s.
Proof using Type. intros Hf. split; intros x Hx; apply Hf; rewrite covers_app, Hx; [done|apply orb_true_r]. Qed.

(** ** All devices *)

Section devices.
Context {H0 : Type} `{GicHw H0}.

Lemma assign_ints_app l1 l2 (w w' : irqs H0) : assign_ints (l1 ++ l2) w = Ok ((), w') ->
  exists w1, assign_ints l1 w = Ok ((), w1) /\ assign_ints l2 w1 = Ok ((), w').
Proof using Type.
  revert w. induction l1 as [|id l1 IH]; intros w E; [by exists w|]. simpl in *. unfold mbind, st_bind in *.
  destruct (interrupts_vm_assign id w) as [[[] w1]|]; [by apply IH|done].
Qed.

Lemma init_devs_built l sp s T (w w' : irqs H0) :
  space_wf sp s T -> unlocked (as_lock sp) -> Forall region_ok (dev_regions l) -> devs_apart l ->
  free_for (dev_regions l) sp s -> assign_ints (concat (dev_interrupts <$> l)) w = Ok ((), w') ->
  or_error (fun '(sp', s', w2) => w2 = w' /\ exists T', built (dev_regions l) sp s T sp' s' T') (init_devs l sp s w).
Proof using Type.
  revert sp s T w. induction l as [|dev l IH]; intros sp s T w Hwf Hlk Hok Hap Hfree Hint.
  { simpl in *. injection Hint as <-. split; [done|]. exists T. by apply built_refl. }
  cbn [dev_regions] in Hok, Hfree. apply Forall_app in Hok as [Hokl Hokd]. apply free_app in Hfree as [Hfl Hfd].
  destruct Hap as [Had Hap]. apply assign_ints_app in Hint as (w1 & Hw1 & Hint). cbn [init_devs].
  eapply (or_error_bind (fun '(sp1, s1) => exists T1, built (dev_region dev) sp s T sp1 s1 T1)).
  - unfold dev_region in *. destruct (dev_va dev =? INVALID_VA); cbn [negb].
    { simpl. exists T. by apply built_refl. }
    inversion Hokd as [|? ? (Hv & Hp & Hn & Hl1 & Hl2) _]; subst. cbn [rg_va rg_n rg_pa] in *. apply free_range in Hfd.
    eapply or_error_bind; [by apply (map_dev_built sp s T)|]. intros [[va sp1] s1] HT. exact HT.
  - intros [sp1 s1] (T1 & Hb1). rewrite Hw1. mstep.
    eapply or_error_mono; [apply (IH sp1 s1 T1 w1); try done; [apply Hb1|apply Hb1|by eapply free_built]|].
    intros [[sp2 s2] w2] (-> & T2 & Hb2). split; [done|]. exists T2. by eapply built_trans.
Qed.

Lemma io_add_devs_run l : io_add_devs l = Ok ().
Proof using Type. induction l as [|dev l IH]; [done|]. simpl. unfold io_vm_add_device. by destruct (dev_id dev =? 0). Qed.

(** The region of the shared-memory descriptor at [p]. *)
Definition shared_region (m : mem) (p : Z) : list region :=
  if p =? 0 then [] else [Region (load64 m p) (NUM_PAGES (load64 m (p + 16))) (load64 m (p + 8))].

Lemma shared_region_kept m m' p : (forall x, p <= x < p + 24 -> load8 m' x = load8 m x) -> shared_region m' p = shared_region m p.
Proof using Type.
  intros Hk. unfold shared_region. destruct (p =? 0); [done|].
  assert (forall o, 0 <= o <= 16 -> load64 m' (p + o) = load64 m (p + o)) as Hl.
  { intros o Ho. apply load_le_ext. intros j Hj. apply Hk. lia. }
  specialize (Hl 0 ltac:(lia)) as Hz. rewrite !Z.add_0_r in Hz. by rewrite Hz, !Hl by lia.
Qed.

Lemma vm_init_dev_built cfg p sp s T (w w' : irqs H0) :
  space_wf sp s T -> unlocked (as_lock sp) -> Forall region_ok (shared_region s.2 p ++ dev_regions (devs cfg)) ->
  devs_apart (devs cfg) -> apart_regions (shared_region s.2 p) (dev_regions (devs cfg)) ->
  free_for (shared_region s.2 p ++ dev_regions (devs cfg)) sp s -> outside s T p 24 ->
  assign_ints (concat (dev_interrupts <$> devs cfg)) w = Ok ((), w') ->
  or_error (fun '(sp', s', w2) => w2 = w' /\ exists T', built (shared_region s.2 p ++ dev_regions (devs cfg)) sp s T sp' s' T')
    (vm_init_dev cfg p sp s w).
Proof using Type.
  intros Hwf Hlk Hok Hap Hsap Hfree Hout Hint. apply Forall_app in Hok as [Hoks Hokd]. apply free_app in Hfree as [Hfs Hfd].
  unfold vm_init_dev. eapply or_error_bind; [by apply (init_devs_built (devs cfg) sp s T w w')|].
  intros [[sp1 s1] w1] (-> & T1 & Hb1). cbn [io_vm_init iommu_arch_vm_init]. rewrite io_add_devs_run. mstep.
  pose proof (shared_region_kept s.2 s1.2 p (proj2 (outside_built _ _ _ _ _ _ _ _ _ Hb1 Hout))) as Hreg.
  apply (free_built _ _ _ _ _ _ _ _ Hoks Hb1 Hsap) in Hfs. rewrite <- Hreg in *. unfold shared_region in *.
  destruct (p =? 0); cbn [negb]; [by split; [|exists T1]|].
  inversion Hoks as [|? ? (Hv & Hp & Hn & Hl1 & Hl2) _]; subst. cbn [rg_va rg_n rg_pa] in *. apply free_range in Hfs.
  eapply or_error_bind; [apply (map_dev_built sp1 s1 T1); try done; apply Hb1|].
  intros [[va sp2] s2] (T2 & Hb2). split; [done|]. exists T2. by apply (built_trans _ [_] _ _ _ _ _ _ _ _ _ Hb1 Hb2).
Qed.

(** ** The whole guest *)

Definition ram_pages (cfg : vm_config) : Z := NUM_PAGES (u64 (size cfg + dmem_size cfg)).
Definition dtb_pages (dtb : dtb_config) : Z := NUM_PAGES (dtb_size dtb).

(** What a VM is given besides its RAM and device tree. *)
Definition fixed_regions (cfg : vm_config) (m : mem) (p : Z) : list region := shared_region m p ++ dev_regions (devs cfg).

(** A configuration that makes sense: images that fit, sources outside of free memory and
    tables, devices that overlap neither each other nor the rest. *)
Record guest_ok (cfg : vm_config) (dtb : dtb_config) (p : Z) (sp : addr_space) (s : state) (T : gmap Z Z) : Prop := {
  go_wf : space_wf sp s T;
  go_lock : unlocked (as_lock sp);
  go_low : low s;
  go_ram : page_addr (base_addr cfg) /\ 0 <= size cfg /\ 0 <= dmem_size cfg /\ 1 <= size cfg + dmem_size cfg < 2 ^ 48 /\
    base_addr cfg + ram_pages cfg * PAGE_SIZE <= 2 ^ 48;
  go_dtb : page_addr (dtb_base_addr dtb) /\ 1 <= dtb_size dtb < 2 ^ 48 /\ dtb_base_addr dtb + dtb_pages dtb * PAGE_SIZE <= 2 ^ 48;
  go_src : outside s T (load_addr cfg) (size cfg) /\ outside s T (dtb_load_addr dtb) (dtb_size dtb) /\ outside s T p 24;
  go_regions : Forall region_ok (fixed_regions cfg s.2 p);
  go_devs : devs_apart (devs cfg) /\ apart_regions (shared_region s.2 p) (dev_regions (devs cfg));
  go_free : free_for (fixed_regions cfg s.2 p) sp s;
  go_apart : forall pa pb, apart_regions (fixed_regions cfg s.2 p)
    [Region (dtb_base_addr dtb) (dtb_pages dtb) pa; Region (base_addr cfg) (ram_pages cfg) pb];
}.

Lemma pages_hold n : 1 <= n < 2 ^ 48 -> 1 <= NUM_PAGES n /\ n <= NUM_PAGES n * PAGE_SIZE.
Proof using Type. intros Hn. pose proof (NUM_PAGES_bounds n ltac:(unfold PAGE_SIZE; lia)). unfold PAGE_SIZE in *. lia. Qed.

(** The guest's memory as its configuration describes it: RAM at [ram], device tree at
    [fdt]. *)
Record guest_built (cfg : vm_config) (dtb : dtb_config) (p : Z) (sp : addr_space) (s : state) (T : gmap Z Z)
    (sp' : addr_space) (s' : state) (T' : gmap Z Z) (ram fdt : Z) : Prop := {
  gb_built : built (fixed_regions cfg s.2 p ++
    [Region (dtb_base_addr dtb) (dtb_pages dtb) fdt; Region (base_addr cfg) (ram_pages cfg) ram]) sp s T sp' s' T';
  gb_image k : 0 <= k < size cfg -> load8 s'.2 (ram + k) = load8 s.2 (load_addr cfg + k);
  gb_dtb k : 0 <= k < dtb_size dtb -> load8 s'.2 (fdt + k) = load8 s.2 (dtb_load_addr dtb + k);
  gb_fresh x : ram <= x < ram + ram_pages cfg * PAGE_SIZE \/ fdt <= x < fdt + dtb_pages dtb * PAGE_SIZE -> pa_owns s.1 x;
  gb_taken : outside s' T' ram (ram_pages cfg * PAGE_SIZE) /\ outside s' T' fdt (dtb_pages dtb * PAGE_SIZE);
  gb_apart x : ~ (ram <= x < ram + ram_pages cfg * PAGE_SIZE /\ fdt <= x < fdt + dtb_pages dtb * PAGE_SIZE);
}.

Lemma vm_init_memory_built cfg dtb p sp s T (w w' : irqs H0) :
  guest_ok cfg dtb p sp s T -> at_walks arm_at_s12e1w (root (as_pt sp)) -> assign_ints (concat (dev_interrupts <$> devs cfg)) w = Ok ((), w') ->
  or_error (fun '(sp', s', w2) => w2 = w' /\ exists T' ram fdt, guest_built cfg dtb p sp s T sp' s' T' ram fdt)
    (vm_init_memory cfg dtb p sp s w).
Proof using Type.
  intros [Hwf Hlk Hlow (Hb & Hs0 & Hd0 & Hsz & Htop) (Hdb & Hds & Hdtop) (Hsrc & Hdsrc & Hp) Hreg [Hdv Hsd] Hfree Hap] Hat Hint.
  unfold vm_init_memory, vm_init_mem_regions. fold (ram_pages cfg). fold (dtb_pages dtb).
  assert (1 <= ram_pages cfg /\ size cfg <= ram_pages cfg * PAGE_SIZE) as [Hrn Hrs].
  { unfold ram_pages. rewrite u64_small by lia. pose proof (pages_hold _ Hsz). lia. }
  destruct (pages_hold _ Hds) as [Hdn Hdl]. fold (dtb_pages dtb) in Hdn, Hdl.
  eapply (or_error_bind (fun '(sp2, s2) => exists T2 ram fdt T1 s1 sp1,
    loaded (base_addr cfg) (ram_pages cfg) (load_addr cfg) (size cfg) sp s T sp1 s1 T1 ram /\
    loaded (dtb_base_addr dtb) (dtb_pages dtb) (dtb_load_addr dtb) (dtb_size dtb) sp1 s1 T1 sp2 s2 T2 fdt)).
  { eapply or_error_bind; [by apply (load_region_spec sp s T)|]. intros [sp1 s1] (T1 & ram & L1).
    pose proof (ld_built _ _ _ _ _ _ _ _ _ _ _ L1) as B1. destruct (bu_space _ _ _ _ _ _ _ B1) as (Ept & _ & Hl1).
    eapply or_error_mono; [apply (load_region_spec sp1 s1 T1); try done; try lia|].
    - apply B1.
    - by rewrite Ept.
    - intros x Hx. by apply Hlow, (bu_owns _ _ _ _ _ _ _ B1).
    - by apply (outside_built _ _ _ _ _ _ _ _ _ B1).
    - intros [sp2 s2] (T2 & fdt & L2). eauto 10. }
  intros [sp2 s2] (T2 & ram & fdt & T1 & s1 & sp1 & L1 & L2).
  destruct L1 as [B1 F1 O1 U1 C1], L2 as [B2 F2 O2 U2 C2]. pose proof (built_trans _ _ _ _ _ _ _ _ _ _ _ B1 B2) as B12. cbn [app] in B12.
  destruct (outside_built _ _ _ _ _ _ _ _ _ B12 Hp) as [Hp2 Hkeep]. pose proof (shared_region_kept s.2 s2.2 p Hkeep) as Hsh.
  destruct (bu_space _ _ _ _ _ _ _ B12) as (Ept & _ & Hl2).
  eapply or_error_mono; [apply (vm_init_dev_built cfg p sp2 s2 T2 w w'); rewrite ?Hsh; try done|].
  - apply B12.
  - by eapply free_built.
  - intros [[sp3 s3] w3] (-> & T3 & B3). rewrite Hsh in B3. split; [done|]. exists T3, ram, fdt.
    destruct (outside_built _ _ _ _ _ _ _ _ _ B2 U1) as [U1' K1].
    destruct (outside_built _ _ _ _ _ _ _ _ _ B3 U1') as [U1'' K1'], (outside_built _ _ _ _ _ _ _ _ _ B3 U2) as [U2'' K2'].
    destruct (outside_built _ _ _ _ _ _ _ _ _ B1 Hdsrc) as [_ Kd]. split.
    + by apply (built_trans _ _ _ _ _ _ _ _ _ _ _ B12 B3).
    + intros k Hk. rewrite K1', K1 by lia. by apply C1.
    + intros k Hk. rewrite K2', C2 by lia. apply Kd. lia.
    + intros x [Hx|Hx]; [by apply O1|]. by apply (bu_owns _ _ _ _ _ _ _ B1), O2.
    + by split.
    + intros x [Hx1 Hx2]. by apply (U1 x Hx1), O2.
Qed.
End devices.

(** ** Other guests *)

(** Another VM's space, whose tables are apart, is not touched. *)
Lemma built_other l sp s T sp' s' T' spo To :
  built l sp s T sp' s' T' -> space_wf spo s To -> (forall x, in_tables To x -> ~ in_tables T x) ->
  space_wf spo s' To /\ forall x, translate s'.2 (root (as_pt spo)) x = translate s.2 (root (as_pt spo)) x /\
    busy s'.2 (root (as_pt spo)) x = busy s.2 (root (as_pt spo)) x.
Proof using Type.
  intros [_ [[Hb _ _ _ _ _ _] _ Hi _] _ _ Ho _ Hf] Hwo Hd. destruct s as [p m], s' as [p' m']. cbn [fst snd] in *.
  destruct (space_write spo p m m' To Hwo Hb) as [[W1 W2 W3 W4] Htr].
  - intros x Hx. apply Hf; [by apply Hd|]. destruct Hx as (a & k & Ha & Hx). by apply (sw_sep _ _ _ Hwo a k).
  - split; [|done]. split; try done. intros a k x Ha Hx Ho'. by apply (W4 a k x Ha Hx), Ho.
Qed.
End guest.

(** ** The properties *)

(** *** An example: two VMs with their root tables in the first pages of the pool *)

Definition demo_other : addr_space := AddrSpace (PageTable 0x50011000 vm_pt_dscr) AS_VM 2 SPINLOCK_INITVAL.
Definition two_state : page_pool * mem := (PagePool vm_root 64 61 2 [3; 0x80000000] SPINLOCK_INITVAL, ∅).

Lemma two_state_wf root : root = 0x50010000 \/ root = 0x50011000 ->
  space_wf (AddrSpace (PageTable root vm_pt_dscr) AS_VM 1 SPINLOCK_INITVAL) two_state {[root := 0]}.
Proof.
  intros Hr. split.
  - destruct Hr as [-> | ->]; by apply empty_tree.
  - done.
  - split; [|done]. split; [|done]. split; try done; try (simpl; lia). split; [|done]. repeat constructor; lia.
  - intros a l x Ha Hx [_ Hf]. apply lookup_singleton_Some in Ha as [<- _]. cbn [fst two_state base] in Hf.
    assert ((x - vm_root) / PAGE_SIZE = (root - vm_root) / PAGE_SIZE) as E.
    { unfold vm_root, PAGE_SIZE in *. destruct Hr as [-> | ->]; symmetry; [apply (Z.div_unique _ _ 0 (x - 0x50010000))|apply (Z.div_unique _ _ 1 (x - 0x50011000))]; lia. }
    rewrite E in Hf. destruct Hr as [-> | ->]; by vm_compute in Hf.
Qed.

Lemma demo_other_empty x : translate two_state.2 0x50011000 x = None.
Proof. destruct (empty_tree two_state.2 0x50011000) as [_ He]; [done..|apply He]. Qed.

Lemma two_state_owns x : pa_owns two_state.1 x -> 0x50012000 <= x < 0x50050000.
Proof.
  intros [Hx Hf]. cbn [fst two_state base nr_pages] in *. destruct (Z.lt_ge_cases x 0x50012000); [|unfold vm_root, PAGE_SIZE in *; lia].
  exfalso. assert ((x - vm_root) / PAGE_SIZE = 0 \/ (x - vm_root) / PAGE_SIZE = 1) as [E|E].
  { unfold vm_root, PAGE_SIZE in *. pose proof (Z.div_mod (x - 0x50010000) 0x1000). pose proof (Z.mod_pos_bound (x - 0x50010000) 0x1000). lia. }
  - rewrite E in Hf. by vm_compute in Hf.
  - rewrite E in Hf. by vm_compute in Hf.
Qed.

(** An image of 100 bytes, a device tree of 50, one device. *)
Definition demo_guest : vm_config :=
  VmConfig 0x1FF000 0x1000 100 0x1FF000 4096 1 [VmDevRegion 1 0x1C0B0000 0x1C090000 0x10000 []] (RqConfigVm 0 0).
Definition demo_dtb : dtb_config := DtbConfig 0x400000 0x2000 50.

Lemma demo_guest_ok : guest_ok demo_guest demo_dtb 0 vm_space two_state {[vm_root := 0]}.
Proof.
  assert (forall a n, 0 <= a -> a + n <= 0x50010000 -> outside two_state {[vm_root := 0]} a n) as Hout.
  { intros a n Ha Hn x Hx. split.
    - intros (b & l & Hb & Hin). apply lookup_singleton_Some in Hb as [<- _]. unfold vm_root in Hin. lia.
    - intros Ho%two_state_owns. lia. }
  split; try (by split_and!; simpl; try apply Hout; try lia).
  - apply two_state_wf. by left.
  - intros x Hx%two_state_owns. lia.
  - repeat constructor; simpl; unfold page_addr, PAGE_SIZE; try lia; done.
  - intros x Hx. by apply empty_tree.
  - intros pa pb x Hx. cbn [fixed_regions] in *. change (covers [Region 0x1C090000 16 0x1C0B0000] x = true) in Hx.
    cbn [covers existsb] in *. unfold in_region in *. cbn [rg_va rg_n] in *. unfold PAGE_SIZE in *.
    change (ram_pages demo_guest) with 2. change (dtb_pages demo_dtb) with 1. cbn [base_addr dtb_base_addr demo_guest demo_dtb]. lia.
Qed.

(** The same with shared memory, described at 0x3000, and an interrupt of the device. *)
Definition shm_guest : vm_config :=
  VmConfig 0x1FF000 0x1000 100 0x1FF000 4096 1 [VmDevRegion 1 0x1C0B0000 0x1C090000 0x10000 [40]] (RqConfigVm 0 0).
Definition shm_state : page_pool * mem :=
  (two_state.1, store64 (store64 (store64 ∅ 0x3000 0x7E000000) 0x3008 0x60000000) 0x3010 0x2000).

Lemma shm_guest_ok : guest_ok shm_guest demo_dtb 0x3000 vm_space shm_state {[vm_root := 0]}.
Proof.
  assert (forall a n, 0 <= a -> a + n <= 0x50010000 -> outside shm_state {[vm_root := 0]} a n) as Hout.
  { intros a n Ha Hn x Hx. split.
    - intros (b & l & Hb & Hin). apply lookup_singleton_Some in Hb as [<- _]. unfold vm_root in Hin. lia.
    - intros Ho%two_state_owns. lia. }
  destruct (space_write vm_space two_state.1 ∅ shm_state.2 {[vm_root := 0]} (two_state_wf vm_root ltac:(by left))) as [Hwf Htr].
  { unfold shm_state, store64. repeat apply store_le_ok. intros a. unfold load8. by rewrite lookup_empty. }
  { intros x (b & l & Hb & Hin). apply lookup_singleton_Some in Hb as [<- _]. unfold vm_root in Hin. unfold shm_state. cbn [snd].
    unfold store64. rewrite !load8_store_le. by rewrite !in_interval_false by lia. }
  assert (fixed_regions shm_guest shm_state.2 0x3000 = [Region 0x7E000000 2 0x60000000; Region 0x1C090000 16 0x1C0B0000]) as Er by (by vm_compute).
  split; rewrite ?Er; try done; try (by split_and!; simpl; try apply Hout; try lia).
  - intros x Hx%two_state_owns. lia.
  - repeat constructor; simpl; unfold page_addr, PAGE_SIZE; try lia; done.
  - split; [by split_and!|]. assert (shared_region shm_state.2 0x3000 = [Region 0x7E000000 2 0x60000000]) as -> by (by vm_compute).
    change (dev_regions (devs shm_guest)) with [Region 0x1C090000 16 0x1C0B0000]. intros x Hx. cbn [covers existsb] in *.
    unfold in_region in *. cbn [rg_va rg_n] in *. unfold PAGE_SIZE in *. lia.
  - intros x Hx. rewrite (proj2 (Htr x)). by apply empty_tree.
  - intros pa pb x Hx. cbn [covers existsb] in *. unfold in_region in *. cbn [rg_va rg_n] in *. unfold PAGE_SIZE in *.
    change (ram_pages shm_guest) with 2. change (dtb_pages demo_dtb) with 1. cbn [base_addr dtb_base_addr shm_guest demo_dtb]. lia.
Qed.

(** C5: what a guest finds in its memory.  With a configuration that makes sense, whose
    interrupts can be assigned, the master's set-up of the address space returns
    or ends in the error exit, never in a fault or a deadlock; when it returns,
    the image and the device tree are, byte for byte, in fresh pages at their
    addresses; the devices and the shared memory are at theirs; every other
    address translates as before; and no byte is written outside the tables and
    the pages that were free. *)
Theorem vm_init_memory_correct {P} `{PageAllocator P} {H0} `{GicHw H0} (arm_at_s12e1w : mem -> Z -> Z)
    cfg dtb p sp (s : P * mem) T (w w' : irqs H0) :
  guest_ok cfg dtb p sp s T -> at_walks arm_at_s12e1w (root (as_pt sp)) ->
  assign_ints (concat (dev_interrupts <$> devs cfg)) w = Ok ((), w') ->
  or_error (fun '(sp', s', w2) => w2 = w' /\ exists T' ram fdt, guest_built cfg dtb p sp s T sp' s' T' ram fdt)
    (vm_init_memory arm_at_s12e1w cfg dtb p sp s w).
Proof. apply vm_init_memory_built. Qed.

Definition demo_irqs := Irqs demo_world no_handlers no_timer.

Lemma vm_init_memory_correct_witness :
  exists sp' s' w' T' ram fdt,
    vm_init_memory (walk_at vm_root) shm_guest demo_dtb 0x3000 vm_space shm_state demo_irqs = Ok (sp', s', w') /\
    guest_built shm_guest demo_dtb 0x3000 vm_space shm_state {[vm_root := 0]} sp' s' T' ram fdt /\
    translate s'.2 vm_root 0x7E001234 = Some 0x60001234.
Proof.
  assert (match vm_init_memory (walk_at vm_root) shm_guest demo_dtb 0x3000 vm_space shm_state demo_irqs with
    | Ok (_, s', _) => bool_decide (translate s'.2 vm_root 0x7E001234 = Some 0x60001234) | Halt _ => false end = true) as Hrun by (vm_compute; reflexivity).
  assert (match assign_ints [40] demo_irqs with Ok _ => true | Halt _ => false end = true) as Hint by (vm_compute; reflexivity).
  destruct (assign_ints [40] demo_irqs) as [[[] w']|h] eqn:Ei; [|discriminate Hint].
  pose proof (vm_init_memory_correct (walk_at vm_root) shm_guest demo_dtb 0x3000 vm_space shm_state {[vm_root := 0]}
    demo_irqs w' shm_guest_ok (walk_at_walks vm_root) Ei) as H.
  destruct (vm_init_memory _ _ _ _ _ _ _) as [[[sp' s'] w2]|h]; [|discriminate Hrun].
  destruct H as (-> & T' & ram & fdt & Hb). exists sp', s', w', T', ram, fdt. split; [reflexivity|]. split; [exact Hb|].
  exact (bool_decide_eq_true_1 _ Hrun).
Defined.

Lemma place_region l x q : place l x = Some q ->
  exists r, In r l /\ rg_pa r <= q < rg_pa r + rg_n r * PAGE_SIZE.
Proof.
  induction l as [|r l IH]; [done|]. simpl. destruct (in_region r x) eqn:Hin; [|intros Hq; destruct (IH Hq) as (r' & ? & ?); eauto].
  intros [= <-]. exists r. split; [by left|]. unfold in_region in Hin. apply andb_true_iff in Hin as [?%Z.leb_le ?%Z.ltb_lt]. lia.
Qed.

(** C1: stage-2 translation keeps guests apart.  Setting up a VM, when it returns,
    changes neither how another VM's addresses translate nor what the other VM
    has in its memory; no address of the other VM translates to the pages the VM
    gets for its RAM and device tree; and each address of the VM itself
    translates only to those, to its configured devices, to the shared memory,
    or to where it did before.  The theorem is about translation: an access that
    no translation covers traps, and the abort handler performs it at the same
    physical address ([Aborts.aborts_passthrough_correct]). *)
Theorem guest_translations_isolated {P} `{PageAllocator P} {H0} `{GicHw H0} (arm_at_s12e1w : mem -> Z -> Z)
    cfg dtb p sp (s : P * mem) T (w w' : irqs H0) spo To :
  guest_ok cfg dtb p sp s T -> at_walks arm_at_s12e1w (root (as_pt sp)) ->
  assign_ints (concat (dev_interrupts <$> devs cfg)) w = Ok ((), w') ->
  space_wf spo s To -> (forall x, in_tables To x -> ~ in_tables T x) ->
  (forall x q, translate s.2 (root (as_pt spo)) x = Some q -> ~ in_tables T q /\ ~ pa_owns s.1 q) ->
  or_error (fun '(sp', s', _) => exists ram fdt,
      (forall x, translate s'.2 (root (as_pt spo)) x = translate s.2 (root (as_pt spo)) x) /\
      (forall x q, translate s.2 (root (as_pt spo)) x = Some q -> load8 s'.2 q = load8 s.2 q /\
         ~ (ram <= q < ram + ram_pages cfg * PAGE_SIZE) /\ ~ (fdt <= q < fdt + dtb_pages dtb * PAGE_SIZE)) /\
      (forall x q, 0 <= x < 2 ^ 48 -> translate s'.2 (root (as_pt sp)) x = Some q ->
         translate s.2 (root (as_pt sp)) x = Some q \/
         ram <= q < ram + ram_pages cfg * PAGE_SIZE \/ fdt <= q < fdt + dtb_pages dtb * PAGE_SIZE \/
         exists r, In r (fixed_regions cfg s.2 p) /\ rg_pa r <= q < rg_pa r + rg_n r * PAGE_SIZE))
    (vm_init_memory arm_at_s12e1w cfg dtb p sp s w).
Proof.
  intros Hok Hat Hint Hwo Hd Hre. eapply or_error_mono; [by apply (vm_init_memory_built arm_at_s12e1w cfg dtb p sp s T w w')|].
  intros [[sp' s'] w2] (_ & T' & ram & fdt & [Hb _ _ Hfresh _ _]). exists ram, fdt.
  destruct (built_other _ _ _ _ _ _ _ _ _ Hb Hwo Hd) as [_ Htr]. split; [intros x; apply Htr|]. split.
  - intros x q Hq. destruct (Hre x q Hq) as [Ht Ho]. split; [by apply (bu_frame _ _ _ _ _ _ _ Hb)|].
    split; intros Hin; apply Ho, Hfresh; auto.
  - intros x q Hx Hq. rewrite (bu_map _ _ _ _ _ _ _ Hb x Hx) in Hq. destruct (place _ x) as [q'|] eqn:Epl; [|by left].
    injection Hq as ->. right. apply place_region in Epl as (r & Hr & Hin). apply in_app_iff in Hr as [Hr|[<-|[<-|[]]]]; eauto.
Qed.

Lemma guest_translations_isolated_witness :
  match vm_init_memory (walk_at vm_root) demo_guest demo_dtb 0 vm_space two_state demo_irqs with
  | Ok (_, s', _) => forall x, translate s'.2 0x50011000 x = None
  | Halt _ => False
  end.
Proof.
  assert (match vm_init_memory (walk_at vm_root) demo_guest demo_dtb 0 vm_space two_state demo_irqs with
    | Ok _ => true | Halt _ => false end = true) as Hrun by (by vm_compute).
  assert (forall x, translate two_state.2 0x50011000 x = None) as Hn by (apply demo_other_empty).
  assert (forall x, in_tables {[0x50011000 := 0]} x -> ~ in_tables {[vm_root := 0]} x) as Hd.
  { intros x (a & l & Ha & Hx) (b & k & Hb & Hy). apply lookup_singleton_Some in Ha as [<- _], Hb as [<- _].
    unfold vm_root, PAGE_SIZE in *. lia. }
  pose proof (guest_translations_isolated (walk_at vm_root) demo_guest demo_dtb 0 vm_space two_state {[vm_root := 0]}
    demo_irqs demo_irqs demo_other {[0x50011000 := 0]} demo_guest_ok (walk_at_walks vm_root) eq_refl) as H.
  destruct (vm_init_memory _ _ _ _ _ _ _) as [[[sp' s'] w2]|h]; [|discriminate Hrun].
  destruct H as (ram & fdt & Htr & _).
  - destruct (two_state_wf 0x50011000) as [? ? ? ?]; [by right|]. split; assumption.
  - exact Hd.
  - intros x q Hq. change (translate two_state.2 0x50011000 x = Some q) in Hq. rewrite (Hn x) in Hq. discriminate Hq.
  - intros x. exact (eq_trans (Htr x) (Hn x)).
Defined.
