(* ===== verification/Rq.v ===== *)
(** Queues shared between VMs: [core/rq.c], [core/inc/rq.h].

    A VM opens its queue, which gives it fresh pages at the configured address;
    another VM attaches it, which maps the same pages at an address of its own.
    The VMs share the page pool and RAM; the running one is [CURRENT_VM], and the
    address translation instruction walks its tables.  The registered VMs are
    held in the order of [vm_list]; [get_vm_by_id] takes the first with the id,
    as [Vm] shows of the linked list. *)

From S2P Require Import Prelude Bit Bitmap Spinlock PhysMem Objpool Mem PageTable Mmu Vpage Dlist Cpu Gic Vm Vgic VgicInv VgicLr Irq GuestMem.

Record rq_vm := RqVm { vbase : Z; pbase : Z; rq_size : Z }.

(** What [rq.c] uses of a [struct vm]. *)
Record guest := Guest { g_id : Z; g_as : addr_space; g_rq : rq_vm }.

(** [cur] is the position of [CURRENT_VM], [cvcpu] the running virtual CPU. *)
Record rqsys := RqSys { vms : list guest; cur : nat; cvcpu : vcpu; mstate : page_pool * mem }.

Definition set_as (g : guest) (sp : addr_space) : guest := Guest (g_id g) sp (g_rq g).
Definition set_rq (g : guest) (r : rq_vm) : guest := Guest (g_id g) (g_as g) r.
Definition put_vm (q : rqsys) (i : nat) (g : guest) : rqsys := RqSys (<[i := g]> (vms q)) (cur q) (cvcpu q) (mstate q).
Definition set_mstate (q : rqsys) (s : page_pool * mem) : rqsys := RqSys (vms q) (cur q) (cvcpu q) s.

(** [get_vm_by_id]: the position in the list, or NULL. *)
Fixpoint find_vm (l : list guest) (id : Z) : option nat :=
  match l with
  | [] => None
  | g :: l => if g_id g =? id then Some 0%nat else S <$> find_vm l id
  end.

Definition vm_at (q : rqsys) (i : nat) : outcome guest :=
  match vms q !! i with Some g => Ok g | None => Halt HFault end.

(** [vcpu_writereg(cpu()->vcpu, ..)]. *)
Definition writereg (q : rqsys) (reg val : Z) : outcome rqsys :=
  v ← vcpu_writereg (cvcpu q) reg val;
  Ok (RqSys (vms q) (cur q) v (mstate q)).

Definition vm_rq_init (cfg : rq_config_vm) (g : guest) : guest :=
  set_rq g (RqVm (cfg_vbase cfg) (pbase (g_rq g)) (cfg_rq_size cfg)).

Section rq.
(** The instruction with the tables at the given root in use. *)
Context (arm_at_s12e1w : Z -> mem -> Z -> Z).

Definition current_translate (g : guest) (m : mem) (va : Z) : outcome Z :=
  mem_translate (arm_at_s12e1w (root (as_pt (g_as g)))) m va.

Definition rq_open_hanlder (q : rqsys) : outcome rqsys :=
  g ← vm_at q (cur q);
  let r := g_rq g in
  '(va, sp, s) ← mem_alloc_map (g_as g) None (vbase r) (NUM_PAGES (rq_size r)) PTE_VM_FLAGS (mstate q);
  if negb (va =? vbase r) then Halt HError else
  pa ← current_translate g s.2 va;
  let r := RqVm (vbase r) pa (rq_size r) in
  let q := set_mstate (put_vm q (cur q) (set_rq (set_as g sp) r)) s in
  q ← writereg q 0 (g_id g);
  q ← writereg q 1 (vbase r);
  q ← writereg q 2 (rq_size r);
  match find_vm (vms q) (g_id g) with
  | None => Halt HError
  | Some j =>
      g' ← vm_at q j;
      Ok (put_vm q j (set_rq g' (RqVm (vbase r) (pbase r) (rq_size r))))
  end.

(** [fuel] bounds the loop of [mem_unmap]. *)
Definition rq_close_hanlder (fuel : nat) (q : rqsys) : outcome rqsys :=
  g ← vm_at q (cur q);
  '(sp, s) ← mem_unmap fuel (g_as g) (vbase (g_rq g)) (NUM_PAGES (rq_size (g_rq g))) true (mstate q);
  Ok (set_mstate (put_vm q (cur q) (set_as g sp)) s).

Definition rq_attach_hanlder (arg0 arg1 : Z) (q : rqsys) : outcome rqsys :=
  match find_vm (vms q) arg0 with
  | None => Halt HError
  | Some j =>
      rec_vm ← vm_at q j;
      g ← vm_at q (cur q);
      let n := NUM_PAGES (rq_size (g_rq rec_vm)) in
      let pages := mem_ppages_get (pbase (g_rq rec_vm)) n in
      '(sp, s) ← mem_map (g_as g) arg1 (Some pages) n PTE_VM_FLAGS (mstate q);
      let q := set_mstate (put_vm q (cur q) (set_as g sp)) s in
      pa ← current_translate g s.2 arg1;
      rec_vm ← vm_at q j;
      if negb (pa =? pbase (g_rq rec_vm)) then Halt HError else
      q ← writereg q 0 arg1;
      writereg q 1 (rq_size (g_rq rec_vm))
  end.

Definition rq_detach_hanlder (fuel : nat) (arg0 arg1 : Z) (q : rqsys) : outcome rqsys :=
  g ← vm_at q (cur q);
  '(sp, s) ← mem_unmap fuel (g_as g) arg0 (NUM_PAGES arg1) false (mstate q);
  Ok (set_mstate (put_vm q (cur q) (set_as g sp)) s).
End rq.

(** ** VMs that share a pool *)

(** Every VM has a well-formed space of its own: [Ts] are the tables of each. *)
Record sys_ok (q : rqsys) (Ts : list (gmap Z Z)) : Prop := {
  so_len : length Ts = length (vms q);
  so_wf i g T : vms q !! i = Some g -> Ts !! i = Some T -> space_wf (g_as g) (mstate q) T /\ unlocked (as_lock (g_as g));
  so_apart i j Ti Tj x : i ≠ j -> Ts !! i = Some Ti -> Ts !! j = Some Tj -> in_tables Ti x -> ~ in_tables Tj x;
  so_low : low (mstate q);
  so_regs : length (x (cvcpu q)) = 31%nat;
  so_ids : NoDup (g_id <$> vms q);
}.

Lemma so_tables q Ts i g : sys_ok q Ts -> vms q !! i = Some g -> exists T, Ts !! i = Some T.
Proof. intros Hok Hg. apply lookup_lt_is_Some. rewrite (so_len _ _ Hok). by eapply lookup_lt_Some. Qed.

(** How VM [g]'s address [x] translates. *)
Definition tr (s : page_pool * mem) (g : guest) (x : Z) : option Z := translate s.2 (root (as_pt (g_as g))) x.

(** One VM's space grows; the others stay as they are. *)
Lemma sys_update q Ts i g T l sp' s' T' rq' :
  sys_ok q Ts -> vms q !! i = Some g -> Ts !! i = Some T -> built l (g_as g) (mstate q) T sp' s' T' ->
  sys_ok (set_mstate (put_vm q i (set_rq (set_as g sp') rq')) s') (<[i := T']> Ts) /\
  (forall j h, j ≠ i -> vms q !! j = Some h -> forall x, tr s' h x = tr (mstate q) h x).
Proof.
  intros Hok Hg HT Hb. pose proof Hok as [Hlen Hwf Hap Hlow Hreg Hid]. pose proof (lookup_lt_Some _ _ _ HT) as Hi.
  pose proof (lookup_lt_Some _ _ _ Hg) as Hi'. split.
  - split; cbn [vms set_mstate put_vm mstate cvcpu].
    + by rewrite !length_insert.
    + intros j h Tj. destruct (decide (j = i)) as [->|Hne].
      * rewrite !list_lookup_insert_eq by done. intros [= <-] [= <-]. cbn [set_as set_rq g_as].
        split; [apply Hb|apply Hb].
      * rewrite !list_lookup_insert_ne by done. intros Hh Hj. destruct (Hwf _ _ _ Hh Hj) as [Hw Hl]. split; [|done].
        eapply (built_other _ _ _ _ _ _ _ (g_as h) Tj Hb); [done|]. intros x Hx. by eapply (Hap j i).
    + assert (forall j Tj x, j ≠ i -> Ts !! j = Some Tj -> in_tables Tj x -> ~ in_tables T' x) as Hnew.
      { intros j Tj x Hne Hj Hx Hx'. destruct (lookup_lt_is_Some_2 (vms q) j) as [h Hh]; [rewrite <- Hlen; by eapply lookup_lt_Some|].
        destruct (bu_tables _ _ _ _ _ _ _ Hb x Hx') as [Hin|Ho]; [by apply (Hap j i Tj T x)|].
        destruct (Hwf _ _ _ Hh Hj) as [Hw _]. destruct Hx as (a & k & Ha & Hx). by apply (sw_sep _ _ _ Hw a k x). }
      intros j k Tj Tk x Hne. destruct (decide (j = i)) as [->|Hji]; destruct (decide (k = i)) as [->|Hki]; [done|..].
      * rewrite list_lookup_insert_eq, list_lookup_insert_ne by done. intros [= <-] Hk Hx Hx'. by apply (Hnew k Tk x).
      * rewrite list_lookup_insert_ne, list_lookup_insert_eq by done. intros Hj [= <-]. by apply Hnew with (j := j).
      * rewrite !list_lookup_insert_ne by done. by apply Hap.
    + intros x Hx. by apply Hlow, (bu_owns _ _ _ _ _ _ _ Hb).
    + done.
    + rewrite list_fmap_insert, list_insert_id; [done|]. rewrite list_lookup_fmap, Hg. done.
  - intros j h Hne Hh x. destruct (so_tables _ _ _ _ Hok Hh) as [Tj Hj]. destruct (Hwf _ _ _ Hh Hj) as [Hw _].
    eapply (built_other _ _ _ _ _ _ _ (g_as h) Tj Hb Hw). intros y Hy. by eapply (Hap j i).
Qed.

Lemma writereg_run q reg val : length (x (cvcpu q)) = 31%nat -> 0 <= reg <= 30 ->
  exists v, writereg q reg val = Ok (RqSys (vms q) (cur q) v (mstate q)) /\ x v = <[Z.to_nat reg := u64 val]> (x (cvcpu q)).
Proof.
  intros Hl Hr. unfold writereg, vcpu_writereg. rewrite (proj2 (Z.ltb_ge 30 reg)) by lia.
  unfold wr. rewrite (proj2 (Z.leb_le 0 reg)), (proj2 (Z.ltb_lt _ _)) by lia. cbn. by eexists.
Qed.

Lemma find_vm_unique l i g : NoDup (g_id <$> l) -> l !! i = Some g -> find_vm l (g_id g) = Some i.
Proof.
  revert i. induction l as [|h l IH]; intros [|i] Hn Hi; [done..| |].
  - injection Hi as ->. simpl. by rewrite Z.eqb_refl.
  - simpl in *. apply NoDup_cons in Hn as [Hni Hn]. rewrite (proj2 (Z.eqb_neq _ _)); [by rewrite (IH i)|].
    intros Heq. apply Hni. rewrite Heq. apply list_elem_of_fmap_2. by eapply list_elem_of_lookup_2.
Qed.

(** ** The handlers *)

Section handlers.
Context (arm_at_s12e1w : Z -> mem -> Z -> Z) (Hat : forall r, at_walks (arm_at_s12e1w r) r).

Definition rq_pages (g : guest) : Z := NUM_PAGES (rq_size (g_rq g)).

(** A queue a VM may have: some pages at a page-aligned address. *)
Definition rq_ok (g : guest) : Prop :=
  page_addr (vbase (g_rq g)) /\ 1 <= rq_size (g_rq g) < 2 ^ 48 /\ vbase (g_rq g) + rq_pages g * PAGE_SIZE <= 2 ^ 48.

(** The queue of [g], opened, is the fresh pages at [pa]; nothing else changed. *)
Record opened (q : rqsys) (g : guest) (T : gmap Z Z) (q' : rqsys) (sp' : addr_space) (T' : gmap Z Z) (pa : Z) : Prop := {
  op_vms : vms q' = <[cur q := Guest (g_id g) sp' (RqVm (vbase (g_rq g)) pa (rq_size (g_rq g)))]> (vms q);
  op_cur : cur q' = cur q;
  op_built : built [Region (vbase (g_rq g)) (rq_pages g) pa] (g_as g) (mstate q) T sp' (mstate q') T';
  op_fresh y : pa <= y < pa + rq_pages g * PAGE_SIZE -> pa_owns (mstate q).1 y;
  op_taken y : pa <= y < pa + rq_pages g * PAGE_SIZE -> ~ in_tables T' y /\ ~ pa_owns (mstate q').1 y;
  op_pa : page_addr pa /\ pa < 2 ^ 38 /\ pa + rq_pages g * PAGE_SIZE <= 2 ^ 48;
  op_regs : x (cvcpu q') = <[2%nat := u64 (rq_size (g_rq g))]> (<[1%nat := u64 (vbase (g_rq g))]>
    (<[0%nat := u64 (g_id g)]> (x (cvcpu q))));
}.

Lemma rq_open_spec q Ts g T :
  sys_ok q Ts -> vms q !! cur q = Some g -> Ts !! cur q = Some T -> rq_ok g ->
  or_error (fun q' => exists sp' T' pa, opened q g T q' sp' T' pa /\ sys_ok q' (<[cur q := T']> Ts))
    (rq_open_hanlder arm_at_s12e1w q).
Proof.
  intros Hok Hg HT (Hv & Hs & Htop). unfold rq_open_hanlder, vm_at. rewrite Hg. mstep. fold (rq_pages g).
  destruct (so_wf _ _ Hok _ _ _ Hg HT) as [Hwf Hlk]. destruct (pages_hold _ Hs) as [Hn _]. fold (rq_pages g) in Hn.
  eapply or_error_bind; [by apply mem_alloc_map_spec with (T := T)|].
  intros [[va sp1] s1] (T1 & [(-> & _)|(-> & _ & pa & Hmp)]).
  { rewrite (proj2 (Z.eqb_neq INVALID_VA (vbase (g_rq g)))); [done|]. destruct Hv as [? Hmod]. intros Heq. by rewrite <- Heq in Hmod. }
  rewrite Z.eqb_refl. cbn [negb]. pose proof (map_built _ _ _ _ _ _ _ _ _ _ Hmp) as Hb.
  pose proof Hmp as [_ _ _ Htgt [Hpa Hlim] _ _ _]. cbn [target_ok] in Htgt.
  assert (pa < 2 ^ 38) as Hpa38 by (apply (so_low _ _ Hok), Htgt; unfold PAGE_SIZE; lia).
  unfold current_translate. rewrite (mem_translate_walks _ (root (as_pt (g_as g))) s1.2 (vbase (g_rq g)) pa (Hat _)); [mstep| |
    |apply Hv|split; [apply Hpa|done]|rewrite (proj2 Hpa); symmetry; apply Hv].
  2: { apply (bu_wf _ _ _ _ _ _ _ Hb). }
  2: { rewrite (bu_map _ _ _ _ _ _ _ Hb) by apply Hv. simpl. unfold in_region. cbn [rg_va rg_n rg_pa].
       rewrite (proj2 (Z.leb_le _ _)), (proj2 (Z.ltb_lt _ _)) by (unfold PAGE_SIZE; lia). cbn [andb]. f_equal. lia. }
  set (r := RqVm (vbase (g_rq g)) pa (rq_size (g_rq g))).
  destruct (sys_update q Ts (cur q) g T _ sp1 s1 T1 r Hok Hg HT Hb) as [Hok1 _].
  set (q1 := set_mstate (put_vm q (cur q) (set_rq (set_as g sp1) r)) s1) in *. pose proof (so_regs _ _ Hok1) as Hl.
  destruct (writereg_run q1 0 (g_id g)) as (v0 & -> & E0); [done|lia|]. mstep.
  destruct (writereg_run (RqSys (vms q1) (cur q1) v0 (mstate q1)) 1 (vbase r)) as (v1 & -> & E1); [cbn; by rewrite E0, length_insert|lia|]. mstep.
  cbn [vms cur cvcpu mstate] in *.
  destruct (writereg_run (RqSys (vms q1) (cur q1) v1 (mstate q1)) 2 (rq_size r)) as (v2 & -> & E2); [cbn; by rewrite E1, E0, !length_insert|lia|]. mstep.
  cbn [vms cur cvcpu mstate] in *. assert (vms q1 !! cur q = Some (set_rq (set_as g sp1) r)) as Hq1.
  { apply list_lookup_insert_eq. by eapply lookup_lt_Some. }
  change (g_id g) with (g_id (set_rq (set_as g sp1) r)) at 1. rewrite (find_vm_unique _ _ _ (so_ids _ _ Hok1) Hq1). rewrite Hq1. mstep. simpl.
  exists sp1, T1, pa. split.
  - split; cbn [vms put_vm cur mstate cvcpu q1 set_mstate]; try done.
    + by rewrite list_insert_insert_eq.
    + intros y Hy. by apply Htgt.
    + intros y Hy. split; by apply Htgt.
    + by rewrite E2, E1, E0.
  - unfold put_vm. cbn [vms cur mstate cvcpu]. cbn [vms q1 put_vm set_mstate]. destruct Hok1 as [O1 O2 O3 O4 O5 O6].
    split; cbn [vms cur mstate cvcpu]; rewrite ?list_insert_insert_eq; try done. by rewrite E2, E1, E0, !length_insert.
Qed.

(** A range inside one 2 MiB block is inflated completely. *)
Lemma covered_block sp va len (s : page_pool * mem) : 0 <= va -> 1 <= len -> va / 2 ^ 21 = (va + len - 1) / 2 ^ 21 -> covered sp va len s.
Proof using Type.
  intros Hva Hl Hb y k Hy Hk. left. enough (y / 2 ^ shift_of (Z.of_nat k) = va / 2 ^ shift_of (Z.of_nat k)) as -> by lia.
  assert (y / 2 ^ 21 = va / 2 ^ 21) as E.
  { pose proof (Z.div_le_mono va y (2 ^ 21)). pose proof (Z.div_le_mono y (va + len - 1) (2 ^ 21)). lia. }
  replace (2 ^ shift_of (Z.of_nat k)) with (2 ^ 21 * 2 ^ (9 * (2 - Z.of_nat k))).
  - rewrite <- !Z.div_div by lia. by rewrite E.
  - rewrite <- Z.pow_add_r by lia. f_equal. unfold shift_of. lia.
Qed.

(** The queue of [rec], attached by [g] at [va], is the same pages. *)
Record attached (q : rqsys) (g rec : guest) (T : gmap Z Z) (va : Z) (q' : rqsys) (sp' : addr_space) (T' : gmap Z Z) : Prop := {
  at_vms : vms q' = <[cur q := set_as g sp']> (vms q);
  at_cur : cur q' = cur q;
  at_built : built [Region va (rq_pages rec) (pbase (g_rq rec))] (g_as g) (mstate q) T sp' (mstate q') T';
  at_regs : x (cvcpu q') = <[1%nat := u64 (rq_size (g_rq rec))]> (<[0%nat := u64 va]> (x (cvcpu q)));
}.

(** Where a queue can be attached. *)
Definition attach_ok (rec : guest) (va : Z) : Prop :=
  page_addr va /\ 1 <= rq_size (g_rq rec) < 2 ^ 48 /\ va + rq_pages rec * PAGE_SIZE <= 2 ^ 48 /\
  va / 2 ^ 21 = (va + rq_pages rec * PAGE_SIZE - 1) / 2 ^ 21 /\
  page_addr (pbase (g_rq rec)) /\ pbase (g_rq rec) < 2 ^ 38 /\ pbase (g_rq rec) + rq_pages rec * PAGE_SIZE <= 2 ^ 48.

Lemma rq_attach_spec q Ts g T j rec va :
  sys_ok q Ts -> vms q !! cur q = Some g -> Ts !! cur q = Some T -> vms q !! j = Some rec -> attach_ok rec va ->
  or_error (fun q' => exists sp' T', attached q g rec T va q' sp' T' /\ sys_ok q' (<[cur q := T']> Ts))
    (rq_attach_hanlder arm_at_s12e1w (g_id rec) va q).
Proof.
  intros Hok Hg HT Hj (Hv & Hs & Htop & Hblk & Hpa & Hpa38 & Hlim). unfold rq_attach_hanlder.
  rewrite (find_vm_unique _ _ _ (so_ids _ _ Hok) Hj). unfold vm_at. rewrite Hj, Hg. mstep. fold (rq_pages rec).
  destruct (so_wf _ _ Hok _ _ _ Hg HT) as [Hwf Hlk]. destruct (pages_hold _ Hs) as [Hn _]. fold (rq_pages rec) in Hn.
  eapply or_error_bind.
  { apply mem_map_spec with (T := T); try done. apply covered_block; [apply Hv|unfold PAGE_SIZE; lia|done]. }
  intros [sp1 s1] (T1 & pa & Hmp). pose proof (map_built _ _ _ _ _ _ _ _ _ _ Hmp) as Hb.
  pose proof (mp_target _ _ _ _ _ _ _ _ _ _ Hmp) as Htgt. cbn [target_ok mem_ppages_get pp_base] in Htgt. subst pa.
  unfold current_translate. rewrite (mem_translate_walks _ (root (as_pt (g_as g))) s1.2 va (pbase (g_rq rec)) (Hat _)); [mstep| |
    |apply Hv|split; [apply Hpa|done]|rewrite (proj2 Hpa); symmetry; apply Hv].
  2: { apply (bu_wf _ _ _ _ _ _ _ Hb). }
  2: { rewrite (bu_map _ _ _ _ _ _ _ Hb) by apply Hv. simpl. unfold in_region. cbn [rg_va rg_n rg_pa].
       rewrite (proj2 (Z.leb_le _ _)), (proj2 (Z.ltb_lt _ _)) by (unfold PAGE_SIZE; lia). cbn [andb]. f_equal. lia. }
  destruct (sys_update q Ts (cur q) g T _ sp1 s1 T1 (g_rq g) Hok Hg HT Hb) as [Hok1 _].
  change (set_rq (set_as g sp1) (g_rq g)) with (set_as g sp1) in Hok1.
  set (q1 := set_mstate (put_vm q (cur q) (set_as g sp1)) s1) in *. pose proof (so_regs _ _ Hok1) as Hl.
  assert (exists rec', vms q1 !! j = Some rec' /\ g_rq rec' = g_rq rec) as (rec' & Hj' & Hrq).
  { cbn [q1 set_mstate put_vm vms]. destruct (decide (j = cur q)) as [->|Hne].
    - rewrite list_lookup_insert_eq by (by eapply lookup_lt_Some). eexists. split; [done|]. by assert (g = rec) as -> by congruence.
    - rewrite list_lookup_insert_ne by done. eauto. }
  rewrite Hj'. mstep. rewrite Hrq, Z.eqb_refl. cbn [negb].
  destruct (writereg_run q1 0 va) as (v0 & -> & E0); [done|lia|]. mstep.
  destruct (writereg_run (RqSys (vms q1) (cur q1) v0 (mstate q1)) 1 (rq_size (g_rq rec))) as (v1 & -> & E1); [cbn; by rewrite E0, length_insert|lia|].
  cbn [vms cur cvcpu mstate] in *. simpl. exists sp1, T1. split.
  - split; cbn [vms cur mstate cvcpu q1 set_mstate put_vm]; try done. by rewrite E1, E0.
  - destruct Hok1 as [O1 O2 O3 O4 O5 O6]. split; cbn [vms cur mstate cvcpu]; try done. by rewrite E1, E0, !length_insert.
Qed.
End handlers.

(** ** The properties *)

(** Another VM runs, on virtual CPU [v]. *)
Definition switch (q : rqsys) (i : nat) (v : vcpu) : rqsys := RqSys (vms q) i v (mstate q).

(** C6: a queue is shared memory.  VM [B] opens its queue and VM [A], with another
    number, then attaches it at a page-aligned address, in a range of addresses
    inside one block of 2 MiB (elsewhere [mem_map] goes wrong,
    [Vpage.mem_map_straddle]).  The two handlers return or end in the error
    exit; when they return, [A]'s address and [B]'s address of every byte of the
    queue translate to the same physical byte, in pages that were free before,
    the addresses of all other VMs translate as before, and none that translated
    to no free memory translates into the queue. *)
Theorem rq_shared (arm_at_s12e1w : Z -> mem -> Z -> Z) q Ts a A B v va :
  (forall r, at_walks (arm_at_s12e1w r) r) -> sys_ok q Ts -> a ≠ cur q ->
  vms q !! cur q = Some B -> vms q !! a = Some A -> rq_ok B -> length (x v) = 31%nat ->
  page_addr va -> va + rq_pages B * PAGE_SIZE <= 2 ^ 48 -> va / 2 ^ 21 = (va + rq_pages B * PAGE_SIZE - 1) / 2 ^ 21 ->
  or_error (fun q' => exists pa,
      (forall k, 0 <= k < rq_pages B * PAGE_SIZE -> tr (mstate q') A (va + k) = Some (pa + k) /\
         tr (mstate q') B (vbase (g_rq B) + k) = Some (pa + k) /\ pa_owns (mstate q).1 (pa + k)) /\
      (forall c C y, c ≠ a -> c ≠ cur q -> vms q !! c = Some C -> tr (mstate q') C y = tr (mstate q) C y /\
         forall z, tr (mstate q') C y = Some z -> ~ pa_owns (mstate q).1 z -> ~ (pa <= z < pa + rq_pages B * PAGE_SIZE)))
    (q1 ← rq_open_hanlder arm_at_s12e1w q; rq_attach_hanlder arm_at_s12e1w (g_id B) va (switch q1 a v)).
Proof.
  intros Hat Hok Hne HB HA Hrq Hv Hva Htop Hblk. destruct (so_tables _ _ _ _ Hok HB) as [TB HTB], (so_tables _ _ _ _ Hok HA) as [TA HTA].
  eapply or_error_bind; [by apply (rq_open_spec arm_at_s12e1w Hat q Ts B TB)|].
  intros q1 (sp1 & T1 & pa & [Ovms Ocur Ob Ofr Otk (Opa & Op38 & Olim) _] & Hok1).
  set (B1 := Guest (g_id B) sp1 (RqVm (vbase (g_rq B)) pa (rq_size (g_rq B)))) in *.
  assert (vms q1 !! cur q = Some B1) as HB1 by (rewrite Ovms; apply list_lookup_insert_eq; by eapply lookup_lt_Some).
  assert (vms q1 !! a = Some A) as HA1 by (rewrite Ovms; by rewrite list_lookup_insert_ne).
  assert (sys_ok (switch q1 a v) (<[cur q := T1]> Ts)) as Hok2 by (destruct Hok1; by split).
  assert (attach_ok B1 va) as Hatt by (split_and!; try done; apply Hrq).
  eapply or_error_mono.
  { apply (rq_attach_spec arm_at_s12e1w Hat (switch q1 a v) (<[cur q := T1]> Ts) A TA (cur q) B1 va); try done. by rewrite list_lookup_insert_ne. }
  intros q2 (sp2 & T2 & [Avms Acur Ab _] & Hok3). change (rq_pages B1) with (rq_pages B) in Ab. change (pbase (g_rq B1)) with pa in Ab.
  assert (forall c C y, c ≠ a -> vms q1 !! c = Some C -> tr (mstate q2) C y = tr (mstate q1) C y) as Hother.
  { intros c C y Hc HC. apply (proj2 (sys_update (switch q1 a v) _ a A TA _ sp2 (mstate q2) T2 (g_rq A) Hok2 HA1 ltac:(by rewrite list_lookup_insert_ne) Ab) c C Hc HC). }
  assert (forall k, 0 <= k < rq_pages B * PAGE_SIZE -> tr (mstate q1) B (vbase (g_rq B) + k) = Some (pa + k)) as HtB.
  { intros k Hk. destruct Hrq as ([Hv0 _] & _ & Hvt). unfold tr. rewrite (bu_map _ _ _ _ _ _ _ Ob) by lia. simpl. unfold in_region. cbn [rg_va rg_n rg_pa].
    rewrite (proj2 (Z.leb_le _ _)), (proj2 (Z.ltb_lt _ _)) by lia. cbn [andb]. f_equal. lia. }
  exists pa. split.
  - intros k Hk. split; [|split].
    + unfold tr. rewrite (bu_map _ _ _ _ _ _ _ Ab) by (destruct Hva; lia). simpl. unfold in_region. cbn [rg_va rg_n rg_pa].
      rewrite (proj2 (Z.leb_le _ _)), (proj2 (Z.ltb_lt _ _)) by lia. cbn [andb]. f_equal. lia.
    + rewrite <- (HtB k Hk). specialize (Hother (cur q) B1 (vbase (g_rq B) + k) ltac:(done) HB1).
      unfold tr in *. cbn [g_as B1] in Hother. destruct (bu_space _ _ _ _ _ _ _ Ob) as (Ept & _). by rewrite Ept in Hother.
    + apply Ofr. lia.
  - intros c C y Hca Hcb HC. assert (tr (mstate q2) C y = tr (mstate q) C y) as E.
    { rewrite (Hother c C y Hca) by (rewrite Ovms; by rewrite list_lookup_insert_ne).
      apply (proj2 (sys_update q Ts (cur q) B TB _ sp1 (mstate q1) T1 (g_rq B) Hok HB HTB Ob) c C Hcb HC). }
    split; [done|]. intros z Hz Hnf Hin. by apply Hnf, Ofr.
Qed.

(** *** Two VMs with a queue of a page each *)

Definition demo_vcpu0 : vcpu := Vcpu 0 0 (replicate 31 0) 0 0 0 0 [] [].
Definition demo_B : guest := Guest 1 vm_space (RqVm 0x10000000 0 0x1000).
Definition demo_A : guest := Guest 2 demo_other (RqVm 0x10000000 0 0x1000).
Definition demo_q : rqsys := RqSys [demo_B; demo_A] 0 demo_vcpu0 two_state.

Lemma demo_q_ok : sys_ok demo_q [{[vm_root := 0]}; {[0x50011000 := 0]}].
Proof.
  split.
  - done.
  - intros [|[|i]] g T Hg HT; [..|done]; injection Hg as <-; injection HT as <-; (split; [|done]).
    + apply two_state_wf. by left.
    + destruct (two_state_wf 0x50011000) as [? ? ? ?]; [by right|]. by split.
  - intros [|[|i]] [|[|j]] Ti Tj y Hne Hi Hj (a & k & Ha & Hy) (b & l & Hb & Hz); try done; injection Hi as <-; injection Hj as <-;
      apply lookup_singleton_Some in Ha as [<- _], Hb as [<- _]; unfold vm_root, PAGE_SIZE in *; lia.
  - intros y Hy%two_state_owns. lia.
  - done.
  - cbn [vms demo_q fmap list_fmap g_id demo_B demo_A]. apply NoDup_cons. split; [set_solver|]. apply NoDup_singleton.
Qed.

Lemma rq_shared_witness :
  exists q1 q2 pa, rq_open_hanlder walk_at demo_q = Ok q1 /\
    rq_attach_hanlder walk_at 1 0x200000 (switch q1 1 demo_vcpu0) = Ok q2 /\
    tr (mstate q2) demo_A 0x200000 = Some pa /\ tr (mstate q2) demo_B 0x10000000 = Some pa.
Proof.
  assert (match (q1 ← rq_open_hanlder walk_at demo_q; rq_attach_hanlder walk_at 1 0x200000 (switch q1 1 demo_vcpu0)) with
    | Ok _ => true | Halt _ => false end = true) as Hrun by (by vm_compute).
  assert (rq_ok demo_B) as Hrq by (unfold rq_ok, page_addr; cbn [demo_B g_rq vbase rq_size]; split; [split; [lia|reflexivity]|split; [lia|vm_compute; discriminate]]).
  assert (page_addr 0x200000) as Hva by (split; [lia|reflexivity]).
  assert (0x200000 + rq_pages demo_B * PAGE_SIZE <= 2 ^ 48) as Htop by (vm_compute; discriminate).
  assert (0x200000 / 2 ^ 21 = (0x200000 + rq_pages demo_B * PAGE_SIZE - 1) / 2 ^ 21) as Hblk by (vm_compute; reflexivity).
  pose proof (rq_shared walk_at demo_q _ 1 demo_A demo_B demo_vcpu0 0x200000 walk_at_walks demo_q_ok (Nat.neq_succ_0 0) eq_refl eq_refl
    Hrq eq_refl Hva Htop Hblk) as H.
  change (g_id demo_B) with 1 in H. destruct (rq_open_hanlder walk_at demo_q) as [q1|]; [|discriminate Hrun].
  cbn [mbind outcome_bind] in *. destruct (rq_attach_hanlder walk_at 1 0x200000 (switch q1 1 demo_vcpu0)) as [q2|] eqn:E2; [|discriminate Hrun].
  destruct H as (pa & Hk & _). destruct (Hk 0) as (H1 & H2 & _); [by split|]. rewrite Z.add_0_r in H1, H2.
  exists q1, q2, (pa + 0). split_and!; [reflexivity|exact E2|exact H1|exact H2].
Defined.

(** Closing a queue never returns: giving its pages back takes the pool's lock
    twice. *)
Lemma rq_close_deadlock :
  match rq_open_hanlder walk_at demo_q with Ok q1 => rq_close_hanlder 10 q1 = Halt HDeadlock | Halt _ => False end.
Proof. by vm_compute. Qed.

(** A queue that was never opened can be attached: it gives the guest physical
    address 0. *)
Lemma rq_attach_unopened :
  match rq_attach_hanlder walk_at 1 0x200000 (switch demo_q 1 demo_vcpu0) with
  | Ok q' => tr (mstate q') demo_A 0x200000 = Some 0
  | Halt _ => False
  end.
Proof. by vm_compute. Qed.
