(* ===== verification/Aborts.v ===== *)
(** Traps of a guest: [arch/aarch64/aborts.c] and the accessors of
    [core/inc/emul.h].

    A trapped load or store is decoded from the syndrome register and handed to
    the device that emulates its address, or done on the physical address itself
    when none does; a hypercall goes to [Lcm].  The state is that of the virtual
    interrupt controller, with the running virtual CPU's registers in it, and
    that of [Lcm], whose memory is the physical memory.  The registers a
    hypercall finds as bytes in memory are not tied to those of the VM's
    record. *)

From S2P Require Import Prelude Bit Bitmap Spinlock PhysMem Objpool Mem PageTable Mmu Dlist Cpu Gic Vm Vgic VgicInv Lcm.

(** ** Accesses *)

(** Loads of a width: the C conversions of [addr_read].  The two arms of the
    conditional for four bytes are [int32_t] and [uint32_t], whose common type
    is unsigned; the smaller types are promoted to [int]. *)
Definition sext (w v : Z) : Z := if v <? 2 ^ (w - 1) then v else v - 2 ^ w.

Definition addr_write (m : mem) (addr width val : Z) : outcome mem :=
  if width =? 1 then Ok (store_le m addr 1 (u8 val))
  else if width =? 2 then Ok (store_le m addr 2 (u16 val))
  else if width =? 4 then Ok (store_le m addr 4 (u32 val))
  else if width =? 8 then Ok (store_le m addr 8 (u64 val))
  else Halt HError.

Definition addr_read (m : mem) (addr width : Z) (sign_ext : bool) : outcome Z :=
  if width =? 1 then Ok (u64 (if sign_ext then sext 8 (load_le m addr 1) else load_le m addr 1))
  else if width =? 2 then Ok (u64 (if sign_ext then sext 16 (load_le m addr 2) else load_le m addr 2))
  else if width =? 4 then Ok (u64 (u32 (if sign_ext then sext 32 (load_le m addr 4) else load_le m addr 4)))
  else if width =? 8 then Ok (load_le m addr 8)
  else Halt HError.

(** [emul.h] has the same two functions on a [struct emul_access]. *)
Definition emul_write (m : mem) (emul : emul_access) (val : Z) : outcome mem :=
  addr_write m (acc_addr emul) (acc_width emul) val.
Definition emul_read (m : mem) (emul : emul_access) : outcome Z :=
  addr_read m (acc_addr emul) (acc_width emul) (acc_sign_ext emul).

(** ** The syndrome *)

Definition ESR_ISS_OFF : Z := 0.
Definition ESR_ISS_LEN : Z := 25.
Definition ESR_IL_OFF : Z := 25.
Definition ESR_IL_LEN : Z := 1.
Definition ESR_EC_OFF : Z := 26.
Definition ESR_EC_LEN : Z := 6.
Definition ESR_EC_DALEL : Z := 0x24.
Definition ESR_EC_HVC64 : Z := 0x16.
Definition ESR_ISS_DA_DSFC_OFF : Z := 0.
Definition ESR_ISS_DA_DSFC_LEN : Z := 6.
Definition ESR_ISS_DA_WnR_BIT : Z := Z.shiftl 1 6.
Definition ESR_ISS_DA_FnV_BIT : Z := Z.shiftl 1 10.
Definition ESR_ISS_DA_SRT_OFF : Z := 16.
Definition ESR_ISS_DA_SRT_LEN : Z := 5.
Definition ESR_ISS_DA_SSE_OFF : Z := 21.
Definition ESR_ISS_DA_SSE_LEN : Z := 1.
Definition ESR_ISS_DA_SAS_OFF : Z := 22.
Definition ESR_ISS_DA_SAS_LEN : Z := 2.
Definition ESR_ISS_DA_ISV_BIT : Z := Z.shiftl 1 24.
Definition ESR_ISS_DA_DSFC_TRNSLT : Z := 0x4.
Definition ESR_ISS_DA_DSFC_PERMIS : Z := 0xC.

(** ** The handlers *)

Section aborts.
Context {H : Type} `{GicHw H}.
(** The hypercall handler of [Lcm] with its parameters, and what the members of
    [struct emul_access] that [aborts_data_lower] leaves alone hold.
    [fuel] is that of the virtual interrupt controller. *)
Context (hypercall : Z -> Z -> st lcm ()) (junk : emul_access) (fuel : nat).

Record trap := Trap { tw : world H; tl : lcm }.

Definition on_vgic {A : Type} (m : st (world H) A) : st trap A := fun s =>
  '(a, w) ← m (tw s);
  Ok (a, Trap w (tl s)).

Definition on_lcm {A : Type} (m : st lcm A) : st trap A := fun s =>
  '(a, l) ← m (tl s);
  Ok (a, Trap (tw s) l).

(** [cpu()->vcpu]. *)
Definition this_vcpu : st trap vcpu := on_vgic (v ← gets cur_vcpu; get_vcpu v).
Definition set_this_vcpu (c : vcpu) : st trap () := on_vgic (v ← gets cur_vcpu; put_vcpu v c).

(** A store to physical memory. *)
Definition phys_write (addr width val : Z) : st trap () :=
  on_lcm (fun l => m ← addr_write (ram l) addr width val; Ok ((), set_ram l m)).
Definition phys_read (addr width : Z) (sign_ext : bool) : st trap Z :=
  on_lcm (fun l => v ← addr_read (ram l) addr width sign_ext; Ok (v, l)).

(** The call through the handler pointer; its result is not used.  [VGIC_IPI_ID] is
    0, as in [Irq]. *)
Definition call_emul (h : emul_handler) (emul : emul_access) : st trap () :=
  match h with vgicd_emul => _ ← on_vgic (vgicd_emul_handler 0 fuel emul); mret () end.

Definition access_of (iss addr : Z) : emul_access :=
  EmulAccess addr (negb (Z.land iss ESR_ISS_DA_WnR_BIT =? 0))
    (negb (bit64_extract iss ESR_ISS_DA_SSE_OFF ESR_ISS_DA_SSE_LEN =? 0))
    (Z.shiftl 1 (bit64_extract iss ESR_ISS_DA_SAS_OFF ESR_ISS_DA_SAS_LEN))
    (bit64_extract iss ESR_ISS_DA_SRT_OFF ESR_ISS_DA_SRT_LEN)
    (acc_reg_high junk) (acc_multi_reg junk) (acc_reg_width junk).

(** No device: the access is done on the address itself. *)
Definition passthrough (emul : emul_access) : st trap () :=
  c ← this_vcpu;
  if acc_write emul then
    reg_val ← lift (vcpu_readreg c (acc_reg emul));
    phys_write (acc_addr emul) (acc_width emul) (Z.land reg_val (BIT_MASK 0 (u64 (acc_width emul * 8))))
  else
    val ← phys_read (acc_addr emul) (acc_width emul) (acc_sign_ext emul);
    c ← lift (vcpu_writereg c (acc_reg emul) val);
    set_this_vcpu c.

Definition aborts_data_lower (iss far il : Z) : st trap () :=
  if (Z.land iss ESR_ISS_DA_ISV_BIT =? 0) || negb (Z.land iss ESR_ISS_DA_FnV_BIT =? 0) then stop HError else
  let DSFC := Z.land (bit64_extract iss ESR_ISS_DA_DSFC_OFF ESR_ISS_DA_DSFC_LEN) (Z.shiftl 0xf 2) in
  if negb (DSFC =? ESR_ISS_DA_DSFC_TRNSLT) && negb (DSFC =? ESR_ISS_DA_DSFC_PERMIS) then stop HError else
  m ← gets (fun s => wvm (tw s));
  (match vm_emul_get_mem m far with
   | None => passthrough (access_of iss far)
   | Some h => call_emul h (access_of iss far)
   end) ;;
  c ← this_vcpu;
  set_this_vcpu (vcpu_writepc c (u64 (vcpu_readpc c + (2 + 2 * il)))).

(** [hsr] and [far] are the values of [ESR_EL2] and [FAR_EL2]. *)
Definition aborts_sync_handler (hsr far : Z) : st trap () :=
  let ec := bit64_extract hsr ESR_EC_OFF ESR_EC_LEN in
  let iss := bit64_extract hsr ESR_ISS_OFF ESR_ISS_LEN in
  let il := bit64_extract hsr ESR_IL_OFF ESR_IL_LEN in
  if ec =? ESR_EC_DALEL then aborts_data_lower iss far il
  else if ec =? ESR_EC_HVC64 then
    c ← this_vcpu;
    arg0 ← lift (vcpu_readreg c 0);
    on_lcm (hypercall iss arg0)
  else mret ().
End aborts.

Arguments trap : clear implicits.

(** ** What the architecture puts into the syndrome *)

(** [ESR_EL2] for a load ([wnr] 0) or store ([wnr] 1) of [2^sas] bytes, sign extended
    if [sse], of register [srt], used as X register if [sf] and as W register
    otherwise, with acquire or release semantics if [ar], that faulted with
    status [dfsc].  The code reads neither [sf] nor [ar]. *)
Definition esr_data_abort (il sas sse srt sf ar wnr dfsc : Z) : Z :=
  Z.shiftl ESR_EC_DALEL 26 + Z.shiftl il 25 + Z.shiftl 1 24 + Z.shiftl sas 22 + Z.shiftl sse 21 + Z.shiftl srt 16 +
  Z.shiftl sf 15 + Z.shiftl ar 14 + Z.shiftl wnr 6 + dfsc.

Definition esr_hvc (iss : Z) : Z := Z.shiftl ESR_EC_HVC64 26 + Z.shiftl 1 25 + iss.

(** The fields of a trapped access. *)
Record fields := Fields { f_il : Z; f_sas : Z; f_sse : Z; f_srt : Z; f_sf : Z; f_ar : Z; f_wnr : Z; f_dfsc : Z }.

(** Translation and permission faults at any level. *)
Definition faults : list Z := [4; 5; 6; 7; 12; 13; 14; 15].

Definition fields_ok (f : fields) : Prop :=
  0 <= f_il f < 2 /\ 0 <= f_sas f < 4 /\ 0 <= f_sse f < 2 /\ 0 <= f_srt f < 32 /\ 0 <= f_sf f < 2 /\ 0 <= f_ar f < 2 /\ 0 <= f_wnr f < 2 /\ In (f_dfsc f) faults.

Definition esr_of (f : fields) : Z := esr_data_abort (f_il f) (f_sas f) (f_sse f) (f_srt f) (f_sf f) (f_ar f) (f_wnr f) (f_dfsc f).

Definition access (junk : emul_access) (f : fields) (addr : Z) : emul_access :=
  EmulAccess addr (f_wnr f =? 1) (f_sse f =? 1) (2 ^ f_sas f) (f_srt f) (acc_reg_high junk) (acc_multi_reg junk) (acc_reg_width junk).

(** The decoder inverts the encoding: checked on every combination of fields. *)
Definition decodes (f : fields) : bool :=
  let hsr := esr_of f in
  let iss := bit64_extract hsr ESR_ISS_OFF ESR_ISS_LEN in
  let dsfc := Z.land (bit64_extract iss ESR_ISS_DA_DSFC_OFF ESR_ISS_DA_DSFC_LEN) (Z.shiftl 0xf 2) in
  (bit64_extract hsr ESR_EC_OFF ESR_EC_LEN =? ESR_EC_DALEL) && (bit64_extract hsr ESR_IL_OFF ESR_IL_LEN =? f_il f) &&
  negb (Z.land iss ESR_ISS_DA_ISV_BIT =? 0) && (Z.land iss ESR_ISS_DA_FnV_BIT =? 0) &&
  ((dsfc =? ESR_ISS_DA_DSFC_TRNSLT) || (dsfc =? ESR_ISS_DA_DSFC_PERMIS)) &&
  eqb (negb (Z.land iss ESR_ISS_DA_WnR_BIT =? 0)) (f_wnr f =? 1) &&
  eqb (negb (bit64_extract iss ESR_ISS_DA_SSE_OFF ESR_ISS_DA_SSE_LEN =? 0)) (f_sse f =? 1) &&
  (Z.shiftl 1 (bit64_extract iss ESR_ISS_DA_SAS_OFF ESR_ISS_DA_SAS_LEN) =? 2 ^ f_sas f) &&
  (bit64_extract iss ESR_ISS_DA_SRT_OFF ESR_ISS_DA_SRT_LEN =? f_srt f).

(** All values below [n]. *)
Definition upto (n : nat) : list Z := Z.of_nat <$> seq 0 n.

Lemma upto_all (p : Z -> bool) n x : forallb p (upto n) = true -> 0 <= x < Z.of_nat n -> p x = true.
Proof.
  intros Hp Hx. rewrite forallb_forall in Hp. apply Hp. apply list_elem_of_In, list_elem_of_fmap. exists (Z.to_nat x).
  split; [lia|]. apply elem_of_seq. lia.
Qed.

Lemma decodes_all : forallb (fun il => forallb (fun sas => forallb (fun sse => forallb (fun srt =>
  forallb (fun sf => forallb (fun ar => forallb (fun wnr => forallb (fun dfsc => decodes (Fields il sas sse srt sf ar wnr dfsc)) faults)
  (upto 2)) (upto 2)) (upto 2)) (upto 32)) (upto 2)) (upto 4)) (upto 2) = true.
Proof. by vm_compute. Qed.

Lemma decodes_ok f : fields_ok f -> decodes f = true.
Proof.
  intros (H1 & H2 & H3 & H4 & H4a & H4b & H5 & H6). destruct f as [il sas sse srt sf ar wnr dfsc]. cbn [f_il f_sas f_sse f_srt f_sf f_ar f_wnr f_dfsc] in *.
  pose proof decodes_all as Ha. apply (upto_all _ _ il) in Ha; [|done]. apply (upto_all _ _ sas) in Ha; [|done].
  apply (upto_all _ _ sse) in Ha; [|done]. apply (upto_all _ _ srt) in Ha; [|done].
  apply (upto_all _ _ sf) in Ha; [|done]. apply (upto_all _ _ ar) in Ha; [|done]. apply (upto_all _ _ wnr) in Ha; [|done].
  rewrite forallb_forall in Ha. by apply Ha.
Qed.

(** ** What the handlers do *)

Section handling.
Context {H : Type} `{GicHw H}.
Context (hypercall : Z -> Z -> st lcm ()) (junk : emul_access) (fuel : nat).
Implicit Type s : trap H.

(** The running virtual CPU is [c]. *)
Definition runs (s : trap H) (c : vcpu) : Prop :=
  0 <= cur_vcpu (tw s) /\ vcpus (wvm (tw s)) !! Z.to_nat (cur_vcpu (tw s)) = Some c.

(** The state with the running virtual CPU replaced. *)
Definition with_vcpu (s : trap H) (c : vcpu) : trap H :=
  Trap (set_vm (tw s) (set_vcpus (wvm (tw s)) (<[Z.to_nat (cur_vcpu (tw s)) := c]> (vcpus (wvm (tw s)))))) (tl s).

Lemma this_vcpu_run s c : runs s c -> this_vcpu s = Ok (c, s).
Proof.
  intros [Hv Hc]. unfold this_vcpu, on_vgic, get_vcpu, gets, mbind, st_bind, outcome_bind.
  rewrite (proj2 (rd_Ok _ _ _) (conj Hv Hc)). by destruct s.
Qed.

Lemma set_this_vcpu_run s c c' : runs s c -> set_this_vcpu c' s = Ok ((), with_vcpu s c').
Proof.
  intros [Hv Hc]. unfold set_this_vcpu, on_vgic, put_vcpu, gets, mbind, st_bind, outcome_bind, wr.
  apply lookup_lt_Some in Hc. by rewrite (proj2 (Z.leb_le 0 _) Hv), (proj2 (Z.ltb_lt _ _)) by lia.
Qed.

Lemma with_vcpu_runs s c c' : runs s c -> runs (with_vcpu s c') c'.
Proof. intros [Hv Hc]. split; [done|]. cbn. apply list_lookup_insert_eq. by eapply lookup_lt_Some. Qed.

Lemma with_vcpu_twice s c c' : with_vcpu (with_vcpu s c) c' = with_vcpu s c'.
Proof. unfold with_vcpu. destruct s as [w l]. cbn. by rewrite list_insert_insert_eq. Qed.

(** [vcpu_writepc] past the instruction. *)
Definition stepped (f : fields) (c : vcpu) : vcpu := vcpu_writepc c (u64 (vcpu_readpc c + (2 + 2 * f_il f))).

(** The trap of a load or store is decoded, done, and the guest continues after it. *)
Lemma abort_run f far s : fields_ok f ->
  aborts_sync_handler hypercall junk fuel (esr_of f) far s =
  ((match vm_emul_get_mem (wvm (tw s)) far with
    | None => passthrough (access junk f far)
    | Some h => call_emul fuel h (access junk f far)
    end) ;; c ← this_vcpu; set_this_vcpu (stepped f c)) s.
Proof.
  intros Hf. pose proof (decodes_ok f Hf) as Hd. unfold decodes in Hd. rewrite !andb_true_iff in Hd.
  destruct Hd as ((((((((D1 & D2) & D3) & D4) & D5) & D6) & D7) & D8) & D9). unfold aborts_sync_handler. rewrite D1.
  apply Z.eqb_eq in D2, D8, D9. apply eqb_prop in D6, D7. rewrite D2. set (iss := bit64_extract (esr_of f) ESR_ISS_OFF ESR_ISS_LEN) in *.
  unfold aborts_data_lower. apply negb_true_iff in D3. rewrite D3, D4. cbn [negb orb].
  rewrite <- negb_orb, D5. cbn [negb]. unfold gets at 1, mbind at 1, st_bind at 1.
  assert (access_of junk iss far = access junk f far) as ->.
  { unfold access_of, access. by rewrite D6, D7, D8, D9. }
  done.
Qed.

(** *** Loads and stores *)

(** The X register after a load instruction of [2^sas] bytes: the extension is to the
    64 bits of an X register, or to the 32 bits of a W register with zeros above. *)
Definition arch_load (m : mem) (a sas : Z) (sse sf : bool) : Z :=
  let v := load_le m a (Z.to_nat (2 ^ sas)) in
  let v := if sse then sext (8 * 2 ^ sas) v else v in
  if sf then u64 v else u32 v.

(** The loads the code extends otherwise: LDRSB and LDRSH to a W register, LDRSW. *)
Definition misextended (f : fields) : bool :=
  (f_sse f =? 1) && (((f_sas f <? 2) && (f_sf f =? 0)) || ((f_sas f =? 2) && (f_sf f =? 1))).

(** Eight bytes are loaded into X registers only. *)
Definition load_exists (f : fields) : Prop := f_sas f = 3 -> f_sf f = 1.

Lemma sext_mod w v k : 0 < w <= k -> 0 <= v < 2 ^ w -> sext w v mod 2 ^ k = if v <? 2 ^ (w - 1) then v else v + 2 ^ k - 2 ^ w.
Proof.
  intros Hw Hv. assert (2 ^ w <= 2 ^ k) by (apply Z.pow_le_mono_r; lia). unfold sext. destruct (_ <? _); [apply Z.mod_small; lia|].
  replace (v - 2 ^ w) with (v + 2 ^ k - 2 ^ w + (-1) * 2 ^ k) by lia. rewrite Z.mod_add by lia. apply Z.mod_small. lia.
Qed.

Lemma addr_read_arch m a f : bytes_ok m -> fields_ok f -> load_exists f -> misextended f = false ->
  addr_read m a (2 ^ f_sas f) (f_sse f =? 1) = Ok (arch_load m a (f_sas f) (f_sse f =? 1) (f_sf f =? 1)).
Proof.
  intros Hm (_ & Hs & Hsse & _ & Hsf & _) Hex Hmis. unfold misextended in Hmis. unfold load_exists in Hex. destruct f as [il sas sse srt sf ar wnr dfsc].
  cbn [f_sas f_sse f_sf] in *. unfold addr_read, arch_load.
  assert (sse = 0 \/ sse = 1) as [->| ->] by lia; assert (sf = 0 \/ sf = 1) as [->| ->] by lia;
  assert (sas = 0 \/ sas = 1 \/ sas = 2 \/ sas = 3) as [->|[->|[->| ->]]] by lia; try discriminate Hmis; try (by specialize (Hex eq_refl));
  cbn [Z.eqb Pos.eqb Z.pow Z.pow_pos Pos.iter Z.mul Pos.mul]; 
  change (Z.to_nat (2 ^ 0)) with 1%nat; change (Z.to_nat (2 ^ 1)) with 2%nat; change (Z.to_nat (2 ^ 2)) with 4%nat; change (Z.to_nat (2 ^ 3)) with 8%nat;
  change (8 * 2 ^ 0) with 8; change (8 * 2 ^ 1) with 16; change (8 * 2 ^ 2) with 32; change (8 * 2 ^ 3) with 64; f_equal.
  - pose proof (load_le_range m a 1 Hm). change (256 ^ Z.of_nat 1) with (2 ^ 8) in *. rewrite u64_small, u32_small; lia.
  - pose proof (load_le_range m a 2 Hm). change (256 ^ Z.of_nat 2) with (2 ^ 16) in *. rewrite u64_small, u32_small; lia.
  - pose proof (load_le_range m a 4 Hm). change (256 ^ Z.of_nat 4) with (2 ^ 32) in *. rewrite u32_small, u64_small; lia.
  - pose proof (load_le_range m a 4 Hm). change (256 ^ Z.of_nat 4) with (2 ^ 32) in *. rewrite (u32_small (load_le m a 4)) by lia. done.
  - pose proof (load_le_range m a 8 Hm). change (256 ^ Z.of_nat 8) with (2 ^ 64) in *. rewrite u64_small by lia. done.
  - apply u64_small. unfold u32. pose proof (Z.mod_pos_bound (sext 32 (load_le m a 4)) (2 ^ 32) ltac:(lia)). lia.
  - pose proof (load_le_range m a 8 Hm). change (256 ^ Z.of_nat 8) with (2 ^ 64) in *. unfold u64. rewrite (sext_mod 64 _ 64) by lia. destruct (load_le m a 8 <? _); lia.
Qed.

(** The loads the code gets wrong, for every negative value: LDRSB and LDRSH to a W
    register fill the upper half of the X register, LDRSW leaves it zero. *)
Lemma addr_read_misextended m a f : bytes_ok m -> fields_ok f -> misextended f = true ->
  2 ^ (8 * 2 ^ f_sas f - 1) <= load_le m a (Z.to_nat (2 ^ f_sas f)) ->
  exists v, addr_read m a (2 ^ f_sas f) true = Ok v /\ v ≠ arch_load m a (f_sas f) true (f_sf f =? 1) /\
    (2 ^ 32 <= v <-> f_sas f < 2).
Proof.
  intros Hm (_ & Hs & Hsse & _ & Hsf & _) Hmis Hneg. unfold misextended in Hmis. destruct f as [il sas sse srt sf ar wnr dfsc].
  cbn [f_sas f_sse f_sf] in *. unfold addr_read, arch_load.
  assert (sf = 0 \/ sf = 1) as [->| ->] by lia;
  assert (sas = 0 \/ sas = 1 \/ sas = 2 \/ sas = 3) as [->|[->|[->| ->]]] by lia; rewrite ?andb_false_r in Hmis; try discriminate Hmis.
  all: cbn [Z.eqb Pos.eqb Z.pow Z.pow_pos Pos.iter Z.mul Pos.mul] in *; change (8 * 2 ^ 0) with 8 in *; change (8 * 2 ^ 1) with 16 in *; change (8 * 2 ^ 2) with 32 in *.
  - change (Z.to_nat (2 ^ 0)) with 1%nat in *. pose proof (load_le_range m a 1 Hm). change (256 ^ Z.of_nat 1) with (2 ^ 8) in *.
    eexists. split; [done|]. unfold u64, u32. rewrite !(sext_mod 8) by lia. change (2 ^ (8 - 1)) with 128. destruct (Z.ltb_spec (load_le m a 1) 128); lia.
  - change (Z.to_nat (2 ^ 1)) with 2%nat in *. pose proof (load_le_range m a 2 Hm). change (256 ^ Z.of_nat 2) with (2 ^ 16) in *.
    eexists. split; [done|]. unfold u64, u32. rewrite !(sext_mod 16) by lia. change (2 ^ (16 - 1)) with 32768. destruct (Z.ltb_spec (load_le m a 2) 32768); lia.
  - change (Z.to_nat (2 ^ 2)) with 4%nat in *. pose proof (load_le_range m a 4 Hm). change (256 ^ Z.of_nat 4) with (2 ^ 32) in *.
    eexists. split; [done|]. unfold u64, u32. rewrite !(sext_mod 32) by lia. change (2 ^ (32 - 1)) with 2147483648.
    destruct (Z.ltb_spec (load_le m a 4) 2147483648); [lia|]. rewrite Z.mod_small by lia. lia.
Qed.

(** Only the low bytes are stored. *)
Lemma store_le_mod m a n v : store_le m a n (v mod 256 ^ Z.of_nat n) = store_le m a n v.
Proof.
  revert m a v. induction n as [|n IH]; intros m a v; [done|]. cbn [store_le].
  assert (256 ^ Z.of_nat (S n) = 256 * 256 ^ Z.of_nat n) as E by (rewrite Nat2Z.inj_succ, Z.pow_succ_r by lia; done).
  assert (0 < 256 ^ Z.of_nat n) by (apply Z.pow_pos_nonneg; lia).
  rewrite E, Z.rem_mul_r by lia. set (h := (v / 256) mod 256 ^ Z.of_nat n).
  assert (store8 m a (v mod 256 + 256 * h) = store8 m a v) as ->.
  { unfold store8, u8. change (2 ^ 8) with 256. by rewrite (Z.mul_comm 256), Z.mod_add, Z.mod_mod by lia. }
  rewrite (Z.mul_comm 256 h), Z.div_add, (Z.div_small (v mod 256)), Z.add_0_l by (try apply Z.mod_pos_bound; lia). apply IH.
Qed.

Lemma addr_write_arch m a sas v : 0 <= sas < 4 ->
  addr_write m a (2 ^ sas) (Z.land v (BIT_MASK 0 (u64 (2 ^ sas * 8)))) = Ok (store_le m a (Z.to_nat (2 ^ sas)) v).
Proof.
  intros Hs. assert (forall n, 0 < n -> forall w, w = 256 ^ n -> Z.land v (w - 1) mod w = v mod w) as Hl.
  { intros n Hn w ->. replace 256 with (2 ^ 8) by done. rewrite <- Z.pow_mul_r by lia.
    replace (2 ^ (8 * n) - 1) with (Z.ones (8 * n)) by (rewrite Z.ones_equiv; lia). by rewrite Z.land_ones, Z.mod_mod by lia. }
  assert (sas = 0 \/ sas = 1 \/ sas = 2 \/ sas = 3) as [->|[->|[->| ->]]] by lia.
  - change (BIT_MASK 0 (u64 (2 ^ 0 * 8))) with (2 ^ 8 - 1). unfold addr_write, u8. cbn [Z.eqb Z.pow Z.pow_pos Pos.iter]. rewrite (Hl 1) by done. f_equal.
    apply (store_le_mod m a 1).
  - change (BIT_MASK 0 (u64 (2 ^ 1 * 8))) with (2 ^ 16 - 1). change (addr_write m a (2 ^ 1)) with (fun x => Ok (store_le m a 2 (u16 x))).
    cbv beta. unfold u16. rewrite (Hl 2) by done. f_equal. apply (store_le_mod m a 2).
  - change (BIT_MASK 0 (u64 (2 ^ 2 * 8))) with (2 ^ 32 - 1). change (addr_write m a (2 ^ 2)) with (fun x => Ok (store_le m a 4 (u32 x))).
    cbv beta. unfold u32. rewrite (Hl 4) by done. f_equal. apply (store_le_mod m a 4).
  - change (BIT_MASK 0 (u64 (2 ^ 3 * 8))) with (2 ^ 64 - 1). change (addr_write m a (2 ^ 3)) with (fun x => Ok (store_le m a 8 (u64 x))).
    cbv beta. unfold u64. rewrite (Hl 8) by done. f_equal. apply (store_le_mod m a 8).
Qed.

Lemma passthrough_load f far s c val : fields_ok f -> f_wnr f = 0 -> runs s c -> length (x c) = 31%nat ->
  addr_read (ram (tl s)) far (2 ^ f_sas f) (f_sse f =? 1) = Ok val ->
  exists c', vcpu_writereg c (f_srt f) val = Ok c' /\ passthrough (access junk f far) s = Ok ((), with_vcpu s c').
Proof.
  intros (_ & _ & _ & Hsrt & _) Hw Hr Hx Hv.
  assert (exists c', vcpu_writereg c (f_srt f) val = Ok c') as [c' Ec].
  { unfold vcpu_writereg. destruct (Z.ltb_spec 30 (f_srt f)); [by eexists|]. rewrite wr_Ok by lia. by eexists. }
  exists c'. split; [done|]. unfold passthrough, mbind at 1, st_bind at 1. rewrite (this_vcpu_run s c Hr). cbn [acc_write access acc_addr acc_width acc_sign_ext acc_reg].
  rewrite Hw. change (0 =? 1) with false. cbv iota. unfold mbind at 1, st_bind at 1, phys_read, on_lcm, mbind, outcome_bind. rewrite Hv.
  unfold st_bind, lift. rewrite Ec. destruct s as [w l]. by apply (set_this_vcpu_run _ c).
Qed.

Lemma passthrough_store f far s c v : fields_ok f -> f_wnr f = 1 -> runs s c -> vcpu_readreg c (f_srt f) = Ok v ->
  passthrough (access junk f far) s = Ok ((), Trap (tw s) (set_ram (tl s) (store_le (ram (tl s)) far (Z.to_nat (2 ^ f_sas f)) v))).
Proof.
  intros (_ & Hsas & _) Hw Hr Hv. unfold passthrough, mbind at 1, st_bind at 1. rewrite (this_vcpu_run s c Hr). cbn [acc_write access acc_addr acc_width acc_sign_ext acc_reg].
  rewrite Hw. change (1 =? 1) with true. cbv iota. unfold mbind at 1, st_bind at 1, lift. rewrite Hv.
  unfold phys_write, on_lcm, mbind, outcome_bind. by rewrite (addr_write_arch _ _ _ _ Hsas).
Qed.
End handling.

(** ** The properties *)

(** C22: a trapped load or store of an address no device emulates is what the
    instruction would have done at the physical address it names.  For every
    size, register (X or W) and sign extension the syndrome can encode, a store
    puts the low bytes of the register (0 for XZR) at the address; a load puts
    the extended bytes into the register (and leaves XZR alone); in both cases the
    guest continues after the instruction and nothing else changes.  Excepted are
    the loads of [misextended]: LDRSB and LDRSH to a W register and LDRSW. *)
Theorem aborts_passthrough_correct {H} `{GicHw H} hypercall junk fuel (s : trap H) f far c :
  fields_ok f -> vm_emul_get_mem (wvm (tw s)) far = None -> runs s c -> length (x c) = 31%nat -> bytes_ok (ram (tl s)) ->
  (f_wnr f = 0 -> load_exists f -> misextended f = false ->
     exists c', vcpu_writereg c (f_srt f) (arch_load (ram (tl s)) far (f_sas f) (f_sse f =? 1) (f_sf f =? 1)) = Ok c' /\
       aborts_sync_handler hypercall junk fuel (esr_of f) far s = Ok ((), with_vcpu s (stepped f c'))) /\
  (f_wnr f = 1 -> exists v, vcpu_readreg c (f_srt f) = Ok v /\
     aborts_sync_handler hypercall junk fuel (esr_of f) far s =
       Ok ((), with_vcpu (Trap (tw s) (set_ram (tl s) (store_le (ram (tl s)) far (Z.to_nat (2 ^ f_sas f)) v))) (stepped f c))).
Proof.
  intros Hf He Hr Hx Hm. rewrite (abort_run hypercall junk fuel f far s Hf), He. pose proof Hf as (_ & Hsas & _ & Hsrt & _). split.
  - intros Hw Hex Hne. destruct (passthrough_load junk f far s c (arch_load (ram (tl s)) far (f_sas f) (f_sse f =? 1) (f_sf f =? 1)) Hf Hw Hr Hx) as (c' & Ec & Ep).
    { by apply addr_read_arch. }
    exists c'. split; [done|]. unfold mbind, st_bind. rewrite Ep, (this_vcpu_run _ c' (with_vcpu_runs s c c' Hr)).
    by rewrite (set_this_vcpu_run _ c' _ (with_vcpu_runs s c c' Hr)), with_vcpu_twice.
  - intros Hw. assert (exists v, vcpu_readreg c (f_srt f) = Ok v) as [v Hv].
    { unfold vcpu_readreg. destruct (Z.ltb_spec 30 (f_srt f)); [by eexists|]. destruct (lookup_lt_is_Some_2 (x c) (Z.to_nat (f_srt f))) as [v Hv]; [lia|].
      exists v. apply rd_Ok. split; [lia|done]. }
    exists v. split; [done|]. unfold mbind, st_bind. rewrite (passthrough_store junk f far s c v Hf Hw Hr Hv).
    set (s1 := Trap (tw s) _). assert (runs s1 c) as Hr1 by exact Hr.
    by rewrite (this_vcpu_run s1 c Hr1), (set_this_vcpu_run s1 c _ Hr1).
Qed.

(** [ldrsb x3] of a byte 0xFF, and [strh w3] of the register. *)
Definition demo_trap : trap regfile := Trap demo_world (Lcm {[0x9000 := 0xFF]} demo_pool 0 0 0 false).
Definition ldrsb_x3 : fields := Fields 1 0 1 3 1 0 0 4.
Definition strh_w3 : fields := Fields 1 1 0 3 0 0 1 6.

Lemma demo_trap_runs : runs demo_trap (fresh_vcpu 0).
Proof. by split. Qed.

Lemma demo_trap_bytes : bytes_ok (ram (tl demo_trap)).
Proof. intros a. unfold load8. cbn [ram tl demo_trap]. destruct (decide (a = 0x9000)) as [->|Hne]; [done|]. by rewrite lookup_singleton_ne. Qed.

Lemma aborts_passthrough_correct_witness :
  (exists c', vcpu_writereg (fresh_vcpu 0) 3 (2 ^ 64 - 1) = Ok c' /\
    aborts_sync_handler (fun _ _ => mret ()) enable_40 10 (esr_of ldrsb_x3) 0x9000 demo_trap = Ok ((), with_vcpu demo_trap (stepped ldrsb_x3 c'))) /\
  (exists v, vcpu_readreg (fresh_vcpu 0) 3 = Ok v /\
    aborts_sync_handler (fun _ _ => mret ()) enable_40 10 (esr_of strh_w3) 0x9000 demo_trap =
      Ok ((), with_vcpu (Trap demo_world (set_ram (tl demo_trap) (store_le {[0x9000 := 0xFF]} 0x9000 2 v))) (stepped strh_w3 (fresh_vcpu 0)))).
Proof.
  split.
  - refine (proj1 (aborts_passthrough_correct (fun _ _ => mret ()) enable_40 10 demo_trap ldrsb_x3 0x9000 (fresh_vcpu 0) _ _ demo_trap_runs _ demo_trap_bytes) eq_refl _ _);
      try reflexivity; [|by intros _]. unfold fields_ok, faults. cbn. split_and!; lia || auto.
  - refine (proj2 (aborts_passthrough_correct (fun _ _ => mret ()) enable_40 10 demo_trap strh_w3 0x9000 (fresh_vcpu 0) _ _ demo_trap_runs _ demo_trap_bytes) eq_refl);
      try reflexivity. unfold fields_ok, faults. cbn. split_and!; lia || auto.
Defined.

(** A trapped access to the distributor reaches its emulation as the guest made
    it.  The address, direction, width, register and sign extension that the
    emulation gets are those of the instruction, and once it has returned the
    guest continues after the instruction; where the emulation stops, so does
    the handler. *)
Theorem aborts_emulated_correct {H} `{GicHw H} hypercall junk fuel (s : trap H) f far h :
  fields_ok f -> vm_emul_get_mem (wvm (tw s)) far = Some h ->
  aborts_sync_handler hypercall junk fuel (esr_of f) far s =
    match vgicd_emul_handler 0 fuel (EmulAccess far (f_wnr f =? 1) (f_sse f =? 1) (2 ^ f_sas f) (f_srt f)
            (acc_reg_high junk) (acc_multi_reg junk) (acc_reg_width junk)) (tw s) with
    | Ok (_, w) => (c ← this_vcpu; set_this_vcpu (stepped f c)) (Trap w (tl s))
    | Halt e => Halt e
    end.
Proof.
  intros Hf He. rewrite (abort_run hypercall junk fuel f far s Hf), He. destruct h. unfold mbind at 1, st_bind at 1, call_emul.
  unfold mbind at 1, st_bind at 1, on_vgic at 1, mbind at 1, outcome_bind, access. by destruct (vgicd_emul_handler _ _ _ _) as [[b w]|e].
Qed.

(** The guest reads GICD_CTLR of an emulated distributor. *)
Definition gicd_trap : trap regfile :=
  Trap (set_vm demo_world (vm_emul_add_mem (wvm demo_world) (EmulMem 0x8000000 0x10000 vgicd_emul))) (tl demo_trap).

Lemma aborts_emulated_correct_witness :
  aborts_sync_handler (fun _ _ => mret ()) enable_40 10 (esr_of (Fields 1 2 0 5 0 0 0 4)) 0x8000000 gicd_trap =
    match vgicd_emul_handler 0 10 (EmulAccess 0x8000000 false false 4 5 0 false 8) (tw gicd_trap) with
    | Ok (_, w) => (c ← this_vcpu; set_this_vcpu (stepped (Fields 1 2 0 5 0 0 0 4) c)) (Trap w (tl gicd_trap))
    | Halt e => Halt e
    end.
Proof.
  refine (aborts_emulated_correct (fun _ _ => mret ()) enable_40 10 gicd_trap (Fields 1 2 0 5 0 0 0 4) 0x8000000 vgicd_emul _ _).
  - unfold fields_ok, faults. cbn. split_and!; lia || auto.
  - reflexivity.
Defined.

(** A trap that is neither a data abort nor a hypercall is ignored: the guest goes
    back to the instruction that trapped. *)
Lemma aborts_other_ignored {H} `{GicHw H} hypercall junk fuel hsr far (s : trap H) :
  let ec := bit64_extract hsr ESR_EC_OFF ESR_EC_LEN in
  ec ≠ ESR_EC_DALEL -> ec ≠ ESR_EC_HVC64 -> aborts_sync_handler hypercall junk fuel hsr far s = Ok ((), s).
Proof.
  intros ec H1 H2. unfold aborts_sync_handler. fold ec. by rewrite (proj2 (Z.eqb_neq _ _) H1), (proj2 (Z.eqb_neq _ _) H2).
Qed.
