(* ===== verification/VmInit.v ===== *)
(** The start-up of a VM by its CPUs: [vm_init] of [core/vm.c] with
    [vm_master_init], [vm_vcpu_init], and [vcpu_arch_init], [vm_arch_init] of
    [arch/aarch64/arch_vm.c].

    All CPUs of a VM run [vm_init] at the same time on the VM's one structure,
    kept apart by barriers on [vm->sync].  What a CPU does between two accesses
    to the token is one step here: it works on its own virtual CPU, or under the
    lock of the VM, or is the master and works on what only the master touches.
    The theorems say that the barriers are where they have to be. *)

From S2P Require Import Prelude Bit Bitmap Atomic Spinlock PhysMem Objpool Mem PageTable Mmu Vpage Dlist Cpu Gic Vm Vgic VgicInv VgicLr Irq GuestMem Rq.

(** ** Control flow *)

(** The barriers of [vm_init]: the two around [vm_vcpu_init], the first and the
    last one of [cpu_sync_and_clear_msgs], and the one after the set-up of the
    memory. *)
Inductive bar := B1 | B2 | BClear | BLast | B3.

Inductive pc :=
| PMaster
| PCpu
| PEnter (b : bar)
| PSpin (b : bar) (exp : Z)
| PVcpu
| PArch
| PAdd
| PRead
| PDrain (next : Z)
| PMem
| PReg
| PDone.

Definition then_ (b : bar) : pc :=
  match b with B1 => PVcpu | B2 => PArch | BClear => PAdd | BLast => PMem | B3 => PReg end.

(** A CPU: [cpu()->id], the argument [master], [cpu()->vcpu], [VMPIDR_EL2] and
    [VTTBR_EL2]. *)
Record core := Core {
  c_id : Z;
  c_master : bool;
  c_pc : pc;
  c_vcpu : option Z;
  c_vmpidr : Z;
  c_vttbr : Z;
}.

Definition goto (c : core) (p : pc) : core := Core (c_id c) (c_master c) p (c_vcpu c) (c_vmpidr c) (c_vttbr c).

Definition VTTBR_VMID_OFF : Z := 48.
Definition VTTBR_VMID_LEN : Z := 8.
Definition VTTBR_VMID_MSK : Z := BIT64_MASK VTTBR_VMID_OFF VTTBR_VMID_LEN.

Section vminit.
Context {H : Type} `{GicHw H} {P : Type} `{PageAllocator P}.
(** The address translation instruction with the tables at a root in use; the
    configuration; what the pages of the interrupt array held before. *)
Context (arm_at_s12e1w : Z -> mem -> Z -> Z).
Context (vm_id_ : Z) (cfg : vm_config) (dtb : dtb_config) (shared_mem : Z).
Context (dscrp : vgic_dscrp) (gicv_addr : Z) (junk : Z -> vgic_int) (fuel : nat) (slot : Z).

(** The VM with the interrupt controller and the messages around it, its token,
    address space, the page pool and RAM, its queue, the list of VMs, and its
    CPUs. *)
Record vsys := VSys {
  s_irq : irqs H;
  s_tok : Barrier.cpu_synctoken;
  s_as : addr_space;
  s_mem : P * mem;
  s_rq : guest;
  s_list : vmlist;
  s_cores : list core;
}.

Definition s_vm (s : vsys) : vm := wvm (iw (s_irq s)).

Definition set_irq (s : vsys) (x : irqs H) : vsys :=
  VSys x (s_tok s) (s_as s) (s_mem s) (s_rq s) (s_list s) (s_cores s).
Definition set_tok (s : vsys) (t : Barrier.cpu_synctoken) : vsys :=
  VSys (s_irq s) t (s_as s) (s_mem s) (s_rq s) (s_list s) (s_cores s).
Definition set_space (s : vsys) (sp : addr_space) (m : P * mem) : vsys :=
  VSys (s_irq s) (s_tok s) sp m (s_rq s) (s_list s) (s_cores s).
Definition set_core (s : vsys) (i : nat) (c : core) : vsys :=
  VSys (s_irq s) (s_tok s) (s_as s) (s_mem s) (s_rq s) (s_list s) (<[i := c]> (s_cores s)).
Definition on_vm (s : vsys) (m : vm) : vsys :=
  set_irq s (Irqs (set_vm (iw (s_irq s)) m) (it (s_irq s)) (itm (s_irq s))).

(** The interrupt controller's world as CPU [c] sees it. *)
Definition as_core (c : core) (x : irqs H) : irqs H :=
  Irqs (World (c_id c) (default 0 (c_vcpu c)) (cpu_num (iw x)) (wvm (iw x)) (wgic (iw x)) (wmsg (iw x)))
    (it x) (itm x).

(** ** The steps *)

Definition vm_master_init (c : core) (s : vsys) : outcome vsys :=
  let m := s_vm s in
  let m := Vm vm_id_ (vcpus m) (cfg_nr_cpus cfg) (cpus m) (c_id c) (vm_lock m) (d m) (spilled m)
    (vgic_spilled_lock m) [] [] (interrupt_bitmap m) in
  let s := set_tok (on_vm s m) (Barrier.cpu_sync_init (cfg_nr_cpus cfg)) in
  '(sp, ms) ← as_init AS_VM vm_id_ 0 (s_mem s);
  Ok (set_space s sp ms).

Definition vm_cpu_init_ (c : core) (s : vsys) : outcome vsys :=
  m ← vm_cpu_init (c_id c) (s_vm s);
  Ok (on_vm s m).

(** [VTTBR_EL2] for the VM. *)
Definition vcpu_arch_profile_init (s : vsys) : Z :=
  Z.lor (Z.land (lsl64 (vm_id (s_vm s)) VTTBR_VMID_OFF) VTTBR_VMID_MSK)
    (Z.land (root (as_pt (s_as s))) (not64 VTTBR_VMID_MSK)).

Definition upd_vcpu (v : Z) (f : vcpu -> vcpu) : st (world H) () :=
  c ← get_vcpu v;
  put_vcpu v (f c).

Definition vcpu_arch_init (v : Z) (nr : Z) : st (world H) Z :=
  c ← get_vcpu v;
  let mpidr := vm_cpuid_to_mpidr nr (v_id c) in
  put_vcpu v (Vcpu (v_id c) (p_id c) (x c) (spsr_el2 c) (elr_el2 c) (sp_el1 c) mpidr (curr_lrs c) (v_ints c)) ;;
  vgic_cpu_init v ;;
  mret mpidr.

Definition vm_vcpu_init (c : core) (s : vsys) : outcome (core * vsys) :=
  v ← vm_calc_vcpu_id (c_id c) (s_vm s);
  match vm_get_vcpu (s_vm s) v with
  | None => Halt HFault
  | Some _ =>
      let w := iw (as_core c (s_irq s)) in
      '(_, w) ← upd_vcpu v (fun x => Vcpu v (c_id c) (Vm.x x) (spsr_el2 x) (elr_el2 x) (sp_el1 x) (vmpidr x) (curr_lrs x) (v_ints x)) w;
      '(mpidr, w) ← vcpu_arch_init v (nr_cpus (s_vm s)) w;
      '(_, w) ← upd_vcpu v (fun x => vcpu_arch_reset x (entry cfg)) w;
      Ok (Core (c_id c) (c_master c) (c_pc c) (Some v) mpidr (vcpu_arch_profile_init s), on_vm s (wvm w))
  end.

(** [vm_arch_init] before [cpu_sync_and_clear_msgs]. *)
Definition vm_arch_init (c : core) (s : vsys) : outcome vsys :=
  if master (s_vm s) =? c_id c then
    '(sp, ms, w) ← vgic_init dscrp gicv_addr junk (s_as s) (s_mem s) (iw (as_core c (s_irq s)));
    Ok (set_irq (set_space s sp ms) (Irqs w (it (s_irq s)) (itm (s_irq s))))
  else Ok s.

(** The second [if (master)] of [vm_init]. *)
Definition vm_init_master (c : core) (s : vsys) : outcome vsys :=
  if c_master c then
    '(sp, ms, w) ← vm_init_memory (arm_at_s12e1w (root (as_pt (s_as s)))) cfg dtb shared_mem (s_as s) (s_mem s)
      (as_core c (s_irq s));
    let s := set_irq (set_space s sp ms) w in
    Ok (VSys (s_irq s) (s_tok s) (s_as s) (s_mem s) (vm_rq_init (rq_vm_cfg cfg) (s_rq s)) (s_list s) (s_cores s))
  else Ok s.

(** What a CPU that does not wait does next; [None] where it is at the token or
    has returned. *)
Definition act (c : core) (s : vsys) : option (outcome (core * vsys)) :=
  match c_pc c with
  | PMaster => Some (s ← (if c_master c then vm_master_init c s else Ok s); Ok (goto c PCpu, s))
  | PCpu => Some (s ← vm_cpu_init_ c s; Ok (goto c (PEnter B1), s))
  | PVcpu => Some ('(c, s) ← vm_vcpu_init c s; Ok (goto c (PEnter B2), s))
  | PArch => Some (s ← vm_arch_init c s; Ok (goto c (PEnter BClear), s))
  | PMem => Some (s ← vm_init_master c s; Ok (goto c (PEnter B3), s))
  | PReg => Some (l ← vm_list_register (s_list s) slot;
      Ok (goto c PDone, VSys (s_irq s) (s_tok s) (s_as s) (s_mem s) (s_rq s) l (s_cores s)))
  | _ => None
  end.

(** One access to the token: entering a barrier, leaving it, and the stages of
    [cpu_sync_and_clear_msgs] between its barriers. *)
Definition at_token (c : core) (t : Barrier.cpu_synctoken) : option (core * Barrier.cpu_synctoken) :=
  match c_pc c with
  | PEnter b =>
      if Barrier.ready t then
        let val := atomic_inc_return (Barrier.count t) in
        Some (goto c (PSpin b (Barrier.exp_v val (Barrier.n t))), Barrier.Token (Barrier.ready t) (Barrier.n t) val)
      else None
  | PSpin b x => if Barrier.may_leave t x then Some (goto c (then_ b), t) else None
  | PAdd =>
      if Barrier.ready t then
        Some (goto c PRead, Barrier.Token (Barrier.ready t) (Barrier.n t) (atomic_add 1 (Barrier.count t)))
      else None
  | PRead => Some (goto c (PDrain (Barrier.next_count (Barrier.count t) (Barrier.n t))), t)
  | PDrain x => if Barrier.may_leave t x then Some (goto c (PEnter BLast), t) else None
  | _ => None
  end.

(** CPU [i] makes a step, if it can. *)
Definition cstep (i : nat) (s : vsys) : option vsys :=
  c ← s_cores s !! i;
  match act c s with
  | Some (Ok (c, s)) => Some (set_core s i c)
  | Some (Halt _) => None
  | None => '(c, t) ← at_token c (s_tok s); Some (set_core (set_tok s t) i c)
  end.

(** CPU [i] handles its messages while it waits in [cpu_sync_and_clear_msgs], and
    once more before its last barrier. *)
Definition mstep (i : nat) (s : vsys) : option vsys :=
  c ← s_cores s !! i;
  match c_pc c with
  | PDrain _ | PEnter BLast =>
      match call_handler fuel 0 cpu_msg 0 (as_core c (s_irq s)) with
      | Ok (_, x) => Some (set_irq s x)
      | Halt _ => None
      end
  | _ => None
  end.

Inductive step (s s' : vsys) : Prop :=
| step_cpu i : cstep i s = Some s' -> step s s'
| step_msg i : mstep i s = Some s' -> step s s'.

(** ** The start *)

(** The structures in the zeroed pages of [vmm_alloc_vm]. *)
Definition zero_vcpu : vcpu := Vcpu 0 0 (replicate 31 0) 0 0 0 0 (replicate 64 0) (replicate 32 blank).

Definition zero_vm (n : nat) : vm :=
  Vm 0 (replicate n zero_vcpu) 0 0 0 (Spinlock 0 0) (Vgicd [] (Spinlock 0 0) 0 0 0 0) ∅ (Spinlock 0 0) [] []
    (replicate 32 0).

Definition start (team : list (Z * bool)) (g : gic H) (ms : Msg.msgsys) (t : intrs) (tm : timer) (num : Z)
    (sp : addr_space) (pm : P * mem) (l : vmlist) : vsys :=
  VSys (Irqs (World 0 0 num (zero_vm (length team)) g ms) t tm) (Barrier.Token false 0 0) sp pm
    (Guest 0 sp (RqVm 0 0 0)) l ((fun p => Core p.1 p.2 PMaster None 0 0) <$> team).
End vminit.

Arguments vsys : clear implicits.

(** ** The token *)

(** Where a place is in the program, how often the token has been incremented
    before it, and how many of the increments the CPU has seen complete. *)
Definition ord (p : pc) : Z :=
  match p with
  | PMaster => 0 | PCpu => 1 | PEnter B1 => 2 | PSpin B1 _ => 3 | PVcpu => 4 | PEnter B2 => 5 | PSpin B2 _ => 6
  | PArch => 7 | PEnter BClear => 8 | PSpin BClear _ => 9 | PAdd => 10 | PRead => 11 | PDrain _ => 12
  | PEnter BLast => 13 | PSpin BLast _ => 14 | PMem => 15 | PEnter B3 => 16 | PSpin B3 _ => 17 | PReg => 18 | PDone => 19
  end.

Definition inc (p : pc) : Z :=
  match p with
  | PMaster | PCpu | PEnter B1 => 0
  | PSpin B1 _ | PVcpu | PEnter B2 => 1
  | PSpin B2 _ | PArch | PEnter BClear => 2
  | PSpin BClear _ | PAdd => 3
  | PRead | PDrain _ | PEnter BLast => 4
  | PSpin BLast _ | PMem | PEnter B3 => 5
  | PSpin B3 _ | PReg | PDone => 6
  end.

Definition waiting (p : pc) : bool := match p with PSpin _ _ | PRead | PDrain _ => true | _ => false end.

Definition seen (p : pc) : Z := inc p - (if waiting p then 1 else 0).

Definition incs (l : list pc) : Z := foldr Z.add 0 (inc <$> l).

Definition exp_ok (N : Z) (p : pc) : Prop :=
  match p with PSpin _ x => x = inc p * N | PDrain x => 4 * N <= x | _ => True end.

(** What a CPU has seen complete all CPUs have done. *)
Record sync (t : Barrier.cpu_synctoken) (l : list pc) : Prop := {
  sy_count : Barrier.count t = incs l;
  sy_n : if Barrier.ready t then Barrier.n t = Z.of_nat (length l) else Forall (fun p => inc p = 0) l;
  sy_bal : forall p q, p ∈ l -> q ∈ l -> seen p <= inc q;
  sy_exp : Forall (exp_ok (Z.of_nat (length l))) l;
}.

Lemma inc_range p : 0 <= inc p <= 6.
Proof. by destruct p as [| |[]|[]| | | | | | | |]. Qed.

Lemma incs_bounds l a b : Forall (fun p => a <= inc p <= b) l -> a * Z.of_nat (length l) <= incs l <= b * Z.of_nat (length l).
Proof.
  unfold incs. induction 1 as [|p l Hp Hl IH]; [simpl; lia|]. rewrite fmap_cons, length_cons. cbn [foldr]. rewrite Nat2Z.inj_succ. lia.
Qed.

Lemma incs_insert l i p q : l !! i = Some p -> incs (<[i := q]> l) = incs l + inc q - inc p.
Proof.
  intros Hi. unfold incs. rewrite list_fmap_insert. apply (Barrier.sum_insert _ i). by rewrite list_lookup_fmap, Hi.
Qed.

Lemma elem_of_insert_inv {A} (l : list A) i x y : y ∈ <[i := x]> l -> y = x \/ y ∈ l.
Proof. intros [j [(-> & -> & _)|[_ Hj]]%list_lookup_insert_Some]%list_elem_of_lookup; [by left|right; by eapply list_elem_of_lookup_2]. Qed.

(** One of them lags: the sum is short of the round. *)
Lemma incs_short l i p b : l !! i = Some p -> inc p < b -> Forall (fun q => inc q <= b) l -> incs l < b * Z.of_nat (length l).
Proof.
  intros Hi Hp Hl. rewrite Forall_forall in Hl. pose proof (incs_insert l i p PMaster Hi) as E. simpl in E.
  assert (Forall (fun q => inc q <= b) (<[i := PMaster]> l)) as Hl'.
  { apply Forall_insert; [by apply Forall_forall|]. simpl. pose proof (inc_range p). lia. }
  apply list_elem_of_split_length in Hi as (l1 & l2 & -> & _). unfold incs. rewrite fmap_app, foldr_app, fmap_cons. cbn [foldr].
  rewrite length_app, length_cons, Nat2Z.inj_add, Nat2Z.inj_succ.
  assert (forall l z, Forall (fun q => inc q <= b) l -> foldr Z.add z (inc <$> l) <= z + b * Z.of_nat (length l)) as Hs.
  { clear. intros l z. induction 1; [simpl; lia|]. rewrite fmap_cons, length_cons. cbn [foldr]. rewrite Nat2Z.inj_succ. lia. }
  assert (Forall (fun q => inc q <= b) l1 /\ Forall (fun q => inc q <= b) l2) as [H1 H2].
  { split; apply Forall_forall; intros q Hq; apply Hl; set_solver. }
  pose proof (Hs l1 (inc p + foldr Z.add 0 (inc <$> l2)) H1). pose proof (Hs l2 0 H2). lia.
Qed.

Section sync.
Context (t : Barrier.cpu_synctoken) (l : list pc) (Hs : sync t l).

(** A count that is complete for a waiting CPU is complete for all. *)
Lemma round_done k : k * Z.of_nat (length l) <= Barrier.count t ->
  (exists p, p ∈ l /\ k <= inc p) -> forall q, q ∈ l -> k <= inc q.
Proof using Hs.
  destruct Hs as [Hc _ Hb _]. intros Hk _ q Hq. destruct (Z.lt_ge_cases (inc q) k) as [Hlt|]; [exfalso|done].
  apply list_elem_of_lookup in Hq as [i Hi]. pose proof (incs_short l i q k Hi Hlt) as Hsh. rewrite Hc in Hk.
  assert (Forall (fun p => inc p <= k) l); [|specialize (Hsh ltac:(done)); lia].
  apply Forall_forall. intros p Hp. specialize (Hb p q Hp (list_elem_of_lookup_2 _ _ _ Hi)). unfold seen in Hb.
  destruct (waiting p); lia.
Qed.

Lemma incs_ge k : (forall q, q ∈ l -> k <= inc q) -> k * Z.of_nat (length l) <= incs l <= 6 * Z.of_nat (length l).
Proof using Type. intros Hq. apply incs_bounds, Forall_forall. intros p Hp. pose proof (inc_range p). split; [auto|lia]. Qed.
End sync.

(** A step that leaves the token alone. *)
Lemma sync_move t l i p q : sync t l -> l !! i = Some p -> inc q = inc p -> seen q <= seen p \/ (forall x, x ∈ l -> seen q <= inc x) ->
  exp_ok (Z.of_nat (length l)) q -> sync t (<[i := q]> l).
Proof.
  intros [Hc Hn Hb He] Hi Hinc Hseen Hq. assert (p ∈ l) as Hp by (by eapply list_elem_of_lookup_2). split.
  - rewrite (incs_insert _ _ _ _ Hi). lia.
  - rewrite length_insert. destruct (Barrier.ready t); [done|]. apply Forall_insert; [done|]. rewrite Forall_forall in Hn. rewrite Hinc. by apply Hn.
  - intros a b [->|Ha]%elem_of_insert_inv [->|Hb']%elem_of_insert_inv.
    + unfold seen. destruct (waiting q); lia.
    + destruct Hseen as [Hle|Hall]; [specialize (Hb p b Hp Hb'); lia|by apply Hall].
    + rewrite Hinc. by apply Hb.
    + by apply Hb.
  - rewrite length_insert. by apply Forall_insert.
Qed.

(** A step that increments it. *)
Lemma sync_inc t l i p q : sync t l -> (length l <= 64)%nat -> l !! i = Some p -> Barrier.ready t = true ->
  waiting p = false -> waiting q = true -> inc q = inc p + 1 -> exp_ok (Z.of_nat (length l)) q ->
  sync (Barrier.Token (Barrier.ready t) (Barrier.n t) (i32 (Barrier.count t + 1))) (<[i := q]> l).
Proof.
  intros Hs HN Hi Hr Hwp Hwq Hinc Hq. destruct Hs as [Hc Hn Hb He]. assert (p ∈ l) as Hp by (by eapply list_elem_of_lookup_2).
  pose proof (incs_ge l 0 ltac:(intros x _; pose proof (inc_range x); lia)) as Hsum.
  split; cbn [Barrier.count Barrier.ready Barrier.n].
  - rewrite (incs_insert _ _ _ _ Hi), Hc. rewrite i32_small by lia. lia.
  - rewrite length_insert. by rewrite Hr in *.
  - intros a b [->|Ha]%elem_of_insert_inv [->|Hb']%elem_of_insert_inv.
    + unfold seen. rewrite Hwq. lia.
    + specialize (Hb p b Hp Hb'). unfold seen in *. rewrite Hwq. rewrite Hwp in Hb. lia.
    + specialize (Hb a p Ha Hp). lia.
    + by apply Hb.
  - rewrite length_insert. by apply Forall_insert.
Qed.

(** The value that a CPU that enters a barrier computes is that of its round. *)
Lemma exp_exact t l p : sync t l -> (length l <= 64)%nat -> p ∈ l -> waiting p = false -> Barrier.ready t = true ->
  Barrier.exp_v (i32 (Barrier.count t + 1)) (Barrier.n t) = (inc p + 1) * Z.of_nat (length l).
Proof.
  intros [Hc Hn Hb He] HN Hp Hw Hr. rewrite Hr in Hn. rewrite Hn.
  assert (forall q, q ∈ l -> inc p <= inc q) as Hlo. { intros q Hq. specialize (Hb p q Hp Hq). unfold seen in Hb. rewrite Hw in Hb. lia. }
  pose proof (incs_ge l (inc p) Hlo) as Hge. pose proof (inc_range p) as Hir.
  apply list_elem_of_lookup in Hp as [i Hi]. pose proof (incs_short l i p (inc p + 1) Hi ltac:(lia)) as Hsh.
  pose proof (lookup_lt_Some _ _ _ Hi) as Hlen. set (N := Z.of_nat (length l)) in *.
  assert (incs l < (inc p + 1) * N) as Hlt.
  { apply Hsh, Forall_forall. intros q Hq. specialize (Hb q p Hq (list_elem_of_lookup_2 _ _ _ Hi)). unfold seen in Hb. destruct (waiting q); lia. }
  assert (0 <= inc p * N) as H0 by nia. rewrite Hc, i32_small, Barrier.exp_v_round by lia.
  replace (incs l + 1 - 1) with (incs l) by lia.
  f_equal. f_equal. symmetry. apply (Z.div_unique _ _ _ (incs l - inc p * N)); lia.
Qed.

(** The next multiple of the number of CPUs is not below the round's. *)
Lemma next_count_ge t l p : sync t l -> (length l <= 64)%nat -> p ∈ l -> p = PRead -> Barrier.ready t = true ->
  4 * Z.of_nat (length l) <= Barrier.next_count (Barrier.count t) (Barrier.n t).
Proof.
  intros [Hc Hn Hb He] HN Hp -> Hr. rewrite Hr in Hn. rewrite Hn.
  assert (forall q, q ∈ l -> 3 <= inc q) as Hlo by (intros q Hq; exact (Hb PRead q Hp Hq)).
  pose proof (incs_ge l 3 Hlo) as Hge. apply list_elem_of_lookup in Hp as [i Hi]. pose proof (lookup_lt_Some _ _ _ Hi) as Hlen.
  pose proof (incs_insert l i PRead PAdd Hi) as E. cbn [inc] in E.
  pose proof (incs_ge (<[i := PAdd]> l) 3) as Hge'. rewrite length_insert in Hge'. set (N := Z.of_nat (length l)) in *.
  assert (3 * N + 1 <= incs l) as Hlow.
  { enough (3 * N <= incs (<[i := PAdd]> l)) by lia. apply Hge'. intros q [->|Hq]%elem_of_insert_inv; [done|auto]. }
  unfold Barrier.next_count. rewrite Hc. rewrite Z.quot_div_nonneg by lia.
  enough (4 <= (incs l + N - 1) / N) by nia. apply Z.div_le_lower_bound; lia.
Qed.

Lemma leave_all t l p x : sync t l -> p ∈ l -> x = inc p * Z.of_nat (length l) \/ (inc p * Z.of_nat (length l) <= x) ->
  Barrier.may_leave t x = true -> forall q, q ∈ l -> inc p <= inc q.
Proof.
  intros Hs Hp Hx Hl. apply (round_done t l Hs); [|by exists p]. unfold Barrier.may_leave in Hl. apply negb_true_iff, Z.ltb_ge in Hl. lia.
Qed.

(** No place that the other CPUs look at lies between two places. *)
Definition same_side (p q : pc) : Prop :=
  (2 <=? ord q) = (2 <=? ord p) /\ (5 <=? ord q) = (5 <=? ord p) /\
  (ord q <? 1) = (ord p <? 1) /\ (ord q <? 8) = (ord p <? 8) /\ (ord q <? 16) = (ord p <? 16).

(** Accesses to the token keep it in step, and change nothing of a CPU but its
    place, which moves on. *)
Lemma at_token_sync t l i c c' t' : sync t l -> (length l <= 64)%nat -> l !! i = Some (c_pc c) ->
  at_token c t = Some (c', t') ->
  sync t' (<[i := c_pc c']> l) /\ c' = goto c (c_pc c') /\ Barrier.ready t' = Barrier.ready t /\
  inc (c_pc c) <= inc (c_pc c') /\ same_side (c_pc c) (c_pc c').
Proof.
  intros Hs HN Hi Ha. assert (c_pc c ∈ l) as Hp by (by eapply list_elem_of_lookup_2).
  pose proof (proj1 (Forall_forall _ _) (sy_exp _ _ Hs) _ Hp) as Hexp.
  assert (Barrier.ready t = false -> inc (c_pc c) = 0) as Hz.
  { intros E. pose proof (sy_n _ _ Hs) as Hn. rewrite E, Forall_forall in Hn. by apply Hn. }
  unfold at_token in Ha. destruct (c_pc c) as [| |b|b x| | | | |x| | |] eqn:Ec; try done.
  - destruct (Barrier.ready t) eqn:Er; [|done]. injection Ha as <- <-. cbn [c_pc goto].
    unfold atomic_inc_return, atomic_add_return. rewrite <- Er. split.
    + eapply (sync_inc t l i); [done|done|exact Hi|done|done|done|by destruct b|].
      rewrite (exp_exact t l (PEnter b)) by done. by destruct b.
    + destruct b; by split_and!.
  - destruct (Barrier.may_leave t x) eqn:El; [|done]. injection Ha as <- <-. cbn [c_pc goto]. split.
    + eapply sync_move; [done|exact Hi|by destruct b| |by destruct b].
      right. intros q Hq. pose proof (leave_all t l (PSpin b x) x Hs Hp ltac:(by left) El q Hq). by destruct b.
    + destruct b; by split_and!.
  - destruct (Barrier.ready t) eqn:Er; [|done]. injection Ha as <- <-. cbn [c_pc goto]. rewrite <- Er. split; [|by split_and!].
    by eapply (sync_inc t l i).
  - injection Ha as <- <-. cbn [c_pc goto]. split; [|by split_and!]. eapply sync_move; [done|exact Hi|done|by left|].
    cbn [exp_ok]. apply (next_count_ge t l PRead); try done. destruct (Barrier.ready t); [done|]. by specialize (Hz eq_refl).
  - destruct (Barrier.may_leave t x) eqn:El; [|done]. injection Ha as <- <-. cbn [c_pc goto]. split; [|by split_and!].
    eapply sync_move; [done|exact Hi|done| |done]. right. intros q Hq. by apply (leave_all t l (PDrain x) x Hs Hp ltac:(by right) El q).
Qed.

(** *** The CPUs' numbers *)

Section team.
Context (team : list (Z * bool)) (Hnd : NoDup team.*1) (Hids : Forall (fun p => 0 <= p < 64) team.*1).

(** The number of CPUs of the VM below [p]. *)
Definition rk (p : Z) : Z := zcount (fun i => bool_decide (i ∈ team.*1)) 0 p.

Lemma zcount_members (l : list Z) n : NoDup l -> Forall (fun p => 0 <= p < n) l ->
  zcount (fun i => bool_decide (i ∈ l)) 0 n = Z.of_nat (length l).
Proof using Type.
  induction l as [|p l IH]; intros Hn Hl.
  - apply zcount_none. intros i Hi. by rewrite bool_decide_eq_false_2 by (apply not_elem_of_nil).
  - apply NoDup_cons in Hn as [Hp Hn]. apply Forall_cons in Hl as [Hr Hl].
    rewrite (zcount_flip (fun i => bool_decide (i ∈ l)) _ 0 n p 1); [|lia..| |].
    + rewrite IH by done. rewrite length_cons. lia.
    + intros i Hi. replace i with p by lia. by apply bool_decide_eq_false_2.
    + intros i Hi. destruct (Z.leb_spec p i), (Z.ltb_spec i (p + 1)); cbn [andb].
      * apply bool_decide_eq_true_2. replace i with p by lia. left.
      * apply bool_decide_ext. rewrite elem_of_cons. split; [intros [->|]; [lia|done]|by right].
      * apply bool_decide_ext. rewrite elem_of_cons. split; [intros [->|]; [lia|done]|by right].
      * apply bool_decide_ext. rewrite elem_of_cons. split; [intros [->|]; [lia|done]|by right].
Qed.

Lemma rk_lt p q : p ∈ team.*1 -> 0 <= p < q -> rk p < rk q.
Proof using Type.
  intros Hp Hq. unfold rk. replace q with (p + (1 + (q - p - 1))) by lia. rewrite (zcount_app _ 0 p), (zcount_app _ (0 + p) 1) by lia.
  pose proof (zcount_pos (fun i => bool_decide (i ∈ team.*1)) (0 + p) 1 p ltac:(lia) ltac:(by apply bool_decide_eq_true_2)).
  pose proof (zcount_range (fun i => bool_decide (i ∈ team.*1)) (0 + p + 1) (q - p - 1)). lia.
Qed.

Lemma rk_inj p q : p ∈ team.*1 -> q ∈ team.*1 -> rk p = rk q -> p = q.
Proof using Hids.
  intros Hp Hq E. rewrite Forall_forall in Hids. pose proof (Hids p Hp). pose proof (Hids q Hq).
  destruct (Z.lt_trichotomy p q) as [Hl|[->|Hl]]; [|done|].
  - pose proof (rk_lt p q Hp ltac:(lia)). lia.
  - pose proof (rk_lt q p Hq ltac:(lia)). lia.
Qed.

Lemma rk_range p : p ∈ team.*1 -> 0 <= rk p < Z.of_nat (length team).
Proof using Hnd Hids.
  intros Hp. pose proof (proj1 (Forall_forall _ _) Hids p Hp) as Hr. cbv beta in Hr. split; [apply zcount_range; lia|].
  rewrite <- (length_fmap fst team), <- (zcount_members team.*1 64 Hnd Hids). apply (rk_lt p 64 Hp). lia.
Qed.
End team.

(** ** What the steps do to the VM *)

Section effects.
Context {H : Type} `{GicHw H}.
Implicit Types w : world H.

(** Interrupts of the virtual CPUs in [ok] and shared ones are set up, their locks
    free. *)
Definition ints_good (ok : Z -> Prop) w : Prop :=
  forall r i, int_at w r = Some i -> (match r with Priv v _ => ok v | Spi _ => True end) ->
  int_ok r i /\ gap (i_lock i) = 0.

Definition locks_good w : Prop :=
  gap (vgic_spilled_lock (wvm w)) = 0 /\ gap (d_lock (d (wvm w))) = 0 /\ gap (gicd_lock (wgic w)) = 0.

Lemma good_wf w : ints_good (fun _ => True) w -> locks_good w -> wf w /\ all_free w.
Proof.
  intros Hi (H1 & H2 & H3). split; [|split_and!; try done]; intros r i Hr; apply (Hi r i Hr); by destruct r.
Qed.

Lemma good_of_wf w : wf w -> all_free w -> ints_good (fun _ => True) w /\ locks_good w.
Proof. intros Hw (Hf & H1 & H2 & H3). split; [|by split_and!]. intros r i Hr _. split; [by apply Hw|by eapply Hf]. Qed.

(** The world with the interrupts [l] on virtual CPU [v]. *)
Definition with_ints w (v : Z) (c : vcpu) (l : list vgic_int) : world H :=
  set_vm w (set_vcpus (wvm w) (<[Z.to_nat v := set_v_ints c l]> (vcpus (wvm w)))).

Lemma with_ints_id w v c : vcpus (wvm w) !! Z.to_nat v = Some c -> with_ints w v c (v_ints c) = w.
Proof.
  intros Hc. unfold with_ints. replace (set_v_ints c (v_ints c)) with c by (by destruct c). rewrite list_insert_id by done.
  by destruct w as [? ? ? [] ? ?].
Qed.

Lemma upd_priv w v c l k f i : 0 <= v -> 0 <= k -> vcpus (wvm w) !! Z.to_nat v = Some c -> l !! Z.to_nat k = Some i ->
  upd_int (Priv v k) f (with_ints w v c l) = Ok ((), with_ints w v c (<[Z.to_nat k := f i]> l)).
Proof.
  intros Hv Hk Hc Hi. pose proof (lookup_lt_Some _ _ _ Hc) as Hlen.
  assert (int_at (with_ints w v c l) (Priv v k) = Some i) as Hat.
  { unfold int_at, with_ints. rewrite (proj2 (Z.ltb_ge v 0)), (proj2 (Z.ltb_ge k 0)) by lia. cbn [orb wvm set_vm vcpus set_vcpus].
    rewrite list_lookup_insert_eq by done. cbn [mbind option_bind]. by destruct c. }
  unfold upd_int. unfold mbind, st_bind. rewrite (proj2 (get_int_Ok _ _ _ _) (conj Hat eq_refl)).
  rewrite (proj2 (put_int_Ok _ _ _ () _) (conj (ex_intro _ _ Hat) eq_refl)). f_equal. f_equal.
  unfold put_at, with_ints. cbn [wvm set_vm vcpus set_vcpus]. rewrite list_lookup_insert_eq by done.
  unfold set_vm, set_vcpus. cbn. rewrite list_insert_insert_eq. reflexivity.
Qed.

Lemma for_upd_priv f w v c n : 0 <= v -> vcpus (wvm w) !! Z.to_nat v = Some c -> forall k l, 0 <= k -> k + Z.of_nat n <= Z.of_nat (length l) ->
  exists l', for_st n k (fun i => upd_int (Priv v i) (f i)) (with_ints w v c l) = Ok ((), with_ints w v c l') /\
    length l' = length l /\ forall j i', l' !! j = Some i' -> exists i, l !! j = Some i /\
      i' = if (k <=? Z.of_nat j) && (Z.of_nat j <? k + Z.of_nat n) then f (Z.of_nat j) i else i.
Proof.
  intros Hv Hc. induction n as [|n IH]; intros k l Hk Hn.
  - exists l. split; [done|]. split; [done|]. intros j i' Hj. exists i'. split; [done|].
    destruct (Z.leb_spec k (Z.of_nat j)), (Z.ltb_spec (Z.of_nat j) (k + Z.of_nat 0)); try done. lia.
  - destruct (lookup_lt_is_Some_2 l (Z.to_nat k)) as [i Hi]; [lia|].
    destruct (IH (k + 1) (<[Z.to_nat k := f k i]> l)) as (l' & E & Hl & Hj); [lia|rewrite length_insert; lia|].
    exists l'. split; [|split; [by rewrite length_insert in Hl|]].
    + cbn [for_st]. unfold mbind, st_bind. by rewrite (upd_priv w v c l k (f k) i) by done.
    + intros j i' Hji. destruct (Hj j i' Hji) as (i0 & Hi0 & ->).
      apply list_lookup_insert_Some in Hi0 as [(Ej & <- & _)|[Ej Hi0]].
      * exists i. split; [by rewrite <- Ej|]. replace (Z.of_nat j) with k by lia.
        destruct (Z.leb_spec (k + 1) k), (Z.leb_spec k k), (Z.ltb_spec k (k + Z.of_nat (S n))); try lia. done.
      * exists i0. split; [done|]. destruct (Z.leb_spec (k + 1) (Z.of_nat j)), (Z.leb_spec k (Z.of_nat j)); try lia; try done.
        cbn [andb]. replace (k + 1 + Z.of_nat n) with (k + Z.of_nat (S n)) by lia. done.
Qed.

Definition fresh_ints (v : Z) (l : list vgic_int) : Prop :=
  length l = 32%nat /\ forall k i, l !! k = Some i -> int_ok (Priv v (Z.of_nat k)) i /\ gap (i_lock i) = 0.

Lemma INIT_LIST_HEAD_Ok {K} `{Countable K} (m : gmap K (link K)) (k : K) : exists m', INIT_LIST_HEAD m (Some k) = Ok m'.
Proof. unfold INIT_LIST_HEAD, set_next, set_prev. mstep. by eexists. Qed.

(** [vgic_cpu_init] on a virtual CPU whose interrupts have never been touched. *)
Lemma vgic_cpu_init_spec w v c : 0 <= v -> vcpus (wvm w) !! Z.to_nat v = Some c -> v_ints c = replicate 32 blank ->
  exists l q, vgic_cpu_init v w = Ok ((), set_vm (with_ints w v c l)
      (set_spilled (wvm (with_ints w v c l)) q (vgic_spilled_lock (wvm w)))) /\ fresh_ints v l.
Proof.
  intros Hv Hc Hz. destruct (for_upd_priv (fun i => init_priv v i) w v c 32 Hv Hc 0 (v_ints c)) as (l1 & E1 & L1 & S1);
    [lia|rewrite Hz; simpl; lia|].
  destruct (for_upd_priv (fun _ x => set_enabled x true) w v c 16 Hv Hc 0 l1) as (l2 & E2 & L2 & S2);
    [lia|rewrite L1, Hz; simpl; lia|].
  rewrite with_ints_id in E1 by done.
  destruct (INIT_LIST_HEAD_Ok (spilled (wvm (with_ints w v c l2))) (SVcpu v)) as [q Eq].
  exists l2, q. split.
  - unfold vgic_cpu_init. change (Z.to_nat GIC_CPU_PRIV) with 32%nat. change (Z.to_nat GIC_MAX_SGIS) with 16%nat.
    unfold mbind, st_bind. rewrite E1. rewrite E2. unfold on_spilled. rewrite Eq. reflexivity.
  - split; [by rewrite L2, L1, Hz|]. intros k i Hi. destruct (S2 k i Hi) as (i1 & Hi1 & ->). destruct (S1 k i1 Hi1) as (i0 & Hi0 & ->).
    rewrite Hz in Hi0. apply lookup_replicate in Hi0 as [-> Hk].
    destruct (Z.leb_spec 0 (Z.of_nat k)), (Z.ltb_spec (Z.of_nat k) (0 + Z.of_nat 32)); try lia. cbn [andb].
    assert (0 <= Z.of_nat k < GIC_CPU_PRIV) as Hkr by (change GIC_CPU_PRIV with 32; lia).
    destruct (Z.of_nat k <? 0 + Z.of_nat 16); by split.
Qed.

(** *** Giving interrupts to the VM *)

Lemma assign_ints_good l (s : irqs H) s' : good (iw s) -> assign_ints l s = Ok ((), s') -> good (iw s') /\ keepv (iw s) (iw s').
Proof.
  revert s. induction l as [|id l IH]; intros s Hg E; [by injection E as <-|].
  cbn [assign_ints] in E. unfold mbind, st_bind in E. destruct (interrupts_vm_assign id s) as [[[] s1]|] eqn:E1; [|done].
  unfold interrupts_vm_assign in E1. inv_bind E1. destruct a; [done|]. inv_bind E1. destruct a as [u w]. apply (G_set_hw id) in E2 as (Hg1 & K1 & _); [|done].
  inv_bind E1. inv_bind E1. injection E1 as <-.
  assert (good (set_vm w (set_interrupt_bitmap (wvm w) a))) as Hg1' by exact Hg1.
  apply IH in E as [Hg2 K2]; [|exact Hg1']. split; [done|]. etrans; [|exact K2]. etrans; [exact K1|]. split; done || reflexivity.
Qed.

Lemma init_devs_good {P} `{PageAllocator P} l sp (ms : P * mem) (s : irqs H) sp' ms' s' : good (iw s) ->
  init_devs l sp ms s = Ok (sp', ms', s') -> good (iw s') /\ keepv (iw s) (iw s').
Proof.
  revert sp ms s. induction l as [|dev l IH]; intros sp ms s Hg E; [injection E as <- <- <-; split; [done|reflexivity]|].
  cbn [init_devs] in E. inv_bind E. destruct a as [sp1 ms1]. inv_bind E. destruct a as [[] s1].
  apply assign_ints_good in E1 as [Hg1 K1]; [|done]. apply IH in E as [Hg2 K2]; [|done]. split; [done|by etrans].
Qed.

(** The master's set-up of the memory touches the interrupts it gives to the VM
    and no more of the VM. *)
Lemma vm_init_memory_good {P} `{PageAllocator P} at_ cfg dtb p sp (ms : P * mem) (s : irqs H) sp' ms' s' : good (iw s) ->
  vm_init_memory at_ cfg dtb p sp ms s = Ok (sp', ms', s') -> good (iw s') /\ keepv (iw s) (iw s').
Proof.
  intros Hg E. unfold vm_init_memory in E. inv_bind E. destruct a as [sp1 ms1]. unfold vm_init_dev in E. inv_bind E.
  destruct a as [[sp2 ms2] s2]. apply init_devs_good in E1 as [Hg1 K1]; [|done]. inv_bind E.
  destruct (negb (p =? 0)).
  - inv_bind E. destruct a0 as [[va sp3] ms3]. by injection E as <- <- <-.
  - by injection E as <- <- <-.
Qed.

(** Handling messages. *)
Lemma handle_msgs_good f cpu w ms w' ms' : good w ->
  Msg.handle_msgs [Some vgic_ipi] f cpu (w, ms) = Ok (w', ms') -> good w' /\ keepv w w'.
Proof.
  revert w ms. induction f as [|f IH]; intros w ms Hg E; [done|]. cbn [Msg.handle_msgs] in E. inv_bind E. destruct a as [m ms1].
  destruct m as [msg|]; [|injection E as <- <-; split; [done|reflexivity]]. inv_bind E. destruct a as [w1 ms2]. cbn [fst] in E1.
  assert (good w1 /\ keepv w w1) as [Hg1 K1]; [|apply IH in E as [Hg2 K2]; [|done]; split; [done|by etrans]].
  unfold Msg.dispatch in E1. destruct (_ <? _); [|injection E1 as <- <-; split; [done|reflexivity]]. inv_bind E1.
  apply rd_Ok in E2 as [Hh Hl]. destruct (Z.to_nat (Msg.handler msg)); [|done]. injection Hl as <-.
  unfold vgic_ipi in E1. inv_bind E1. destruct a as [[] w2]. injection E1 as <- <-. destruct Hg as [Hwf Hf].
  assert (wf (set_msg w ms1)) as Hwf1 by exact Hwf.
  apply (K_ipi_handler 0) in E2 as (Hwf2 & F & _); [|exact Hwf1]. split; [split; [exact Hwf2|]|].
  - apply (frame_all_free _ _ F). exact Hf.
  - apply frame_keepv in F as [A1 A2 A3]. by split.
Qed.

Lemma cpu_msgs_good f cpu w ms w' ms' : good w ->
  Msg.cpu_msg_handler [Some vgic_ipi] f cpu (w, ms) = Ok (w', ms') -> good w' /\ keepv w w'.
Proof. intros Hg E. unfold Msg.cpu_msg_handler in E. inv_bind E. destruct a as [w1 ms1]. injection E as <- <-. by eapply handle_msgs_good. Qed.
End effects.

(** *** The steps *)

Section steps.
Context {H : Type} `{GicHw H} {P : Type} `{PageAllocator P}.
Context (cfg : vm_config) (dscrp : vgic_dscrp) (gicv_addr : Z) (junk : Z -> vgic_int).
Implicit Types s : vsys H P.

(** What [vm_vcpu_init] makes of a virtual CPU. *)
Record vcpu_ready (id pid : Z) (v : vcpu) : Prop := {
  vr_id : v_id v = id;
  vr_pid : p_id v = pid;
  vr_pc : elr_el2 v = u64 (entry cfg);
  vr_x : length (x v) = 31%nat;
}.

Lemma vm_vcpu_init_spec c s v : vm_calc_vcpu_id (c_id c) (s_vm s) = Ok v -> 0 <= v < nr_cpus (s_vm s) ->
  vcpus (s_vm s) !! Z.to_nat v = Some zero_vcpu ->
  exists mpidr ttbr V q, vm_vcpu_init cfg c s = Ok (Core (c_id c) (c_master c) (c_pc c) (Some v) mpidr ttbr,
      on_vm s (set_spilled (set_vcpus (s_vm s) (<[Z.to_nat v := V]> (vcpus (s_vm s)))) q (vgic_spilled_lock (s_vm s)))) /\
    vcpu_ready v (c_id c) V /\ fresh_ints v (v_ints V).
Proof using Type.
  intros Ev Hv Hz. pose proof (lookup_lt_Some _ _ _ Hz) as Hlen. set (m := s_vm s) in *.
  set (n := Z.to_nat v). fold n in Hz, Hlen.
  set (w0 := iw (as_core c (s_irq s))). set (mpidr := vm_cpuid_to_mpidr (nr_cpus m) v).
  set (V1 := Vcpu v (c_id c) (x zero_vcpu) 0 0 0 0 (curr_lrs zero_vcpu) (v_ints zero_vcpu)).
  set (V2 := Vcpu v (c_id c) (x zero_vcpu) 0 0 0 mpidr (curr_lrs zero_vcpu) (v_ints zero_vcpu)).
  set (w1 := set_vm w0 (set_vcpus (wvm w0) (<[n := V1]> (vcpus (wvm w0))))).
  set (w2 := set_vm w1 (set_vcpus (wvm w1) (<[n := V2]> (vcpus (wvm w1))))).
  assert (vcpus (wvm w2) !! n = Some V2) as HV2.
  { unfold w2, w1. cbn [wvm set_vm vcpus set_vcpus]. rewrite list_lookup_insert_eq by (rewrite length_insert; exact Hlen). done. }
  destruct (vgic_cpu_init_spec w2 v V2 ltac:(lia) HV2 eq_refl) as (l & q & E3 & Hl).
  assert (forall (w : world H) c0 f, vcpus (wvm w) !! n = Some c0 ->
    upd_vcpu v f w = Ok ((), set_vm w (set_vcpus (wvm w) (<[n := f c0]> (vcpus (wvm w)))))) as Hupd.
  { intros w c0 f Hc0. unfold upd_vcpu, mbind, st_bind, get_vcpu. rewrite (proj2 (rd_Ok _ _ _) (conj (proj1 Hv) Hc0)). mstep.
    unfold put_vcpu. pose proof (lookup_lt_Some _ _ _ Hc0). rewrite wr_Ok by (unfold n in *; lia). reflexivity. }
  assert (vcpus (wvm w1) !! n = Some V1) as HV1 by (unfold w1; cbn [wvm set_vm vcpus set_vcpus]; by apply list_lookup_insert_eq).
  exists mpidr, (vcpu_arch_profile_init s), (vcpu_arch_reset (set_v_ints V2 l) (entry cfg)), q. split.
  - assert (vcpu_arch_init v (nr_cpus m) w1 = Ok (mpidr, set_vm (with_ints w2 v V2 l)
        (set_spilled (wvm (with_ints w2 v V2 l)) q (vgic_spilled_lock (wvm w2))))) as E4.
    { unfold vcpu_arch_init, mbind, st_bind. unfold get_vcpu at 1.
      rewrite (proj2 (rd_Ok (vcpus (wvm w1)) v V1) (conj (proj1 Hv) HV1)). cbn [outcome_bind mbind]. mstep.
      assert (length (vcpus (wvm w1)) = length (vcpus m)) as HL1 by (apply (length_insert (vcpus m))).
      unfold put_vcpu. rewrite wr_Ok by (unfold n in *; lia). mstep.
      fold n. match goal with |- context [vgic_cpu_init v ?w] => change w with w2 end. by rewrite E3. }
    unfold vm_vcpu_init. fold m. rewrite Ev. mstep. unfold vm_get_vcpu. rewrite (proj2 (Z.ltb_lt v _)) by lia. fold n. rewrite Hz. fold w0.
    rewrite (Hupd w0 zero_vcpu) by exact Hz. mstep.
    match goal with |- context [vcpu_arch_init v _ ?w] => change w with w1 end. rewrite E4. mstep.
    rewrite (Hupd _ (set_v_ints V2 l)).
    + f_equal. f_equal. unfold on_vm, set_vm, with_ints, w2, w1, set_spilled, set_vcpus. cbn. fold n. rewrite !list_insert_insert_eq. reflexivity.
    + unfold with_ints. cbn [wvm set_vm vcpus set_vcpus set_spilled]. fold n. rewrite list_lookup_insert_eq; [done|]. by eapply lookup_lt_Some.
  - split; [by split|exact Hl].
Qed.

(** Everything but the distributor's registers. *)
Record only_regs (w w' : world H) : Prop := {
  or_vm : set_d (wvm w') (d (wvm w)) = wvm w;
  or_lock : d_lock (d (wvm w')) = d_lock (d (wvm w));
  or_gic : gframe (wgic w) (wgic w');
}.

#[local] Instance only_regs_preorder : PreOrder only_regs.
Proof using Type.
  split.
  - intros w. split; [by destruct (wvm w)|done|reflexivity].
  - intros a b c [V1 L1 G1] [V2 L2 G2]. split; [|congruence|by etrans].
    destruct (wvm a), (wvm b), (wvm c). unfold set_d in *. cbn in *. congruence.
Qed.

Lemma regs_keep : keeps (fun _ => True) only_regs (vgicd_regs_init dscrp) (fun _ => True).
Proof using Type.
  assert (forall r, keeps (fun _ => True) only_regs (on_gic (rdreg r)) (fun _ => True)) as Hr.
  { intros r w a w' _ E. unfold on_gic in E. inv_bind E. destruct a0 as [b g]. injection E as <- <-.
    apply gkeeps_rdreg in E0 as (_ & Hg & _); [|done]. split; [done|]. split; [|done]. split; [cbn; by destruct (wvm w)|done|done]. }
  assert (forall f, (forall x, d_lock (f x) = d_lock x) -> keeps (fun _ => True) only_regs (upd_d f) (fun _ => True)) as Hd.
  { intros f Hf w a w' _ E. injection E as <- <-. split; [done|]. split; [|done].
    split; [cbn; by destruct (wvm w)|by cbn; rewrite Hf|reflexivity]. }
  unfold vgicd_regs_init, vgic_get_itln.
  apply (keeps_bind _ _ _ _ (fun _ => True)); [by apply Hd|]. intros _ _.
  apply (keeps_bind _ _ _ _ (fun _ => True)); [|intros t _].
  { apply (keeps_bind _ _ _ _ (fun _ => True)); [apply Hr|]. intros t _. destruct (_ <? _); (apply keeps_ret; [apply _|done]). }
  apply (keeps_bind _ _ _ _ (fun _ => True)); [apply keeps_gets; apply _|]. intros m _.
  apply (keeps_bind _ _ _ _ (fun _ => True)); [apply Hr|]. intros i _. by apply Hd.
Qed.

(** At most 1024 interrupts. *)
Lemma regs_num w w' : vgicd_regs_init dscrp w = Ok ((), w') -> 32 <= int_num (d (wvm w')) <= 1024.
Proof using Type.
  intros E. unfold vgicd_regs_init, vgic_get_itln, mbind, st_bind in E. destruct (upd_d _ w) as [[u w1]|]; [|done].
  destruct (on_gic (rdreg TYPER) w1) as [[ty w2]|]; [|done]. set (itln := if GIC_MAX_PPIS <? _ then _ else _) in E.
  assert (0 <= bit32_extract ty GICD_TYPER_ITLN_OFF GICD_TYPER_ITLN_LEN < 32 /\
    0 <= Z.land (u64 (ALIGN (interrupt_num dscrp) 32 / 32 - 1)) (BIT32_MASK 0 GICD_TYPER_ITLN_LEN) < 32) as [B1 B2].
  { assert (forall z, 0 <= Z.land z 31 < 32) as Hl by (intros z; change 31 with (Z.ones 5); rewrite Z.land_ones by lia; by apply Z.mod_pos_bound).
    split; [|apply Hl]. unfold bit32_extract, PRE_extract. apply Hl. }
  destruct (itln w2) as [[n w3]|] eqn:En; [|done].
  assert (0 <= n < 32) as Hn by (unfold itln in En; destruct (_ <? _); injection En as <- <-; lia).
  destruct (gets wvm w3) as [[m w4]|]; [|done]. destruct (on_gic (rdreg IIDR) w4) as [[i w5]|]; [|done].
  injection E as <-. cbn. rewrite u64_small by lia. lia.
Qed.

Lemma regs_run w : exists w', vgicd_regs_init dscrp w = Ok ((), w').
Proof using Type. unfold vgicd_regs_init, vgic_get_itln, mbind, st_bind. cbn. destruct (_ <? _); by eexists. Qed.

(** [vgic_init] on a well-formed address space returns or ends in the error exit. *)
Lemma vgic_init_or_error sp (ms : P * mem) T w : space_wf sp ms T -> unlocked (as_lock sp) ->
  page_addr (gicc_addr dscrp) -> gicc_addr dscrp + 2 * PAGE_SIZE <= 2 ^ 48 -> page_addr gicv_addr -> gicv_addr + 2 * PAGE_SIZE <= 2 ^ 48 ->
  or_error (fun _ => True) (vgic_init dscrp gicv_addr junk sp ms w).
Proof using Type.
  intros Hs Hlk Hg1 Hg2 Hv1 Hv2. unfold vgic_init. destruct (regs_run w) as [w1 E1]. rewrite E1. mstep. pose proof (regs_num _ _ E1) as Hnum.
  change (NUM_PAGES sizeof_gicc_hw) with 2. eapply or_error_bind; [by apply (mem_alloc_map_dev_spec sp ms T (gicc_addr dscrp) 2 Hs Hlk Hg1)|].
  intros [[va sp1] ms1] (T1 & HT). assert (pa_inv ms1.1) as Hinv by (destruct HT as [(_ & _ & [_ [_ _ ? _] _ _ _ _])|(_ & _ & pa & [_ [_ _ ? _] _ _ _ _ _ _])]; done).
  set (num := int_num (d (wvm w1))) in *. assert (1 <= NUM_PAGES (u64 (num * sizeof_vgic_int)) < 2 ^ 64) as Hn.
  { unfold sizeof_vgic_int, NUM_PAGES, ALIGN, PAGE_SIZE. rewrite (u64_small (num * 56)), (u64_small (num * 56 + _ - 1)) by lia.
    pose proof (Z.div_le_lower_bound (num * 56 + 0x1000 - 1) 0x1000 1). pose proof (Z.div_le_upper_bound (num * 56 + 0x1000 - 1) 0x1000 100).
    rewrite u64_small by lia. rewrite Z.div_mul by lia. lia. }
  destruct (pa_alloc ms1.1 _ false) as [[pp p1]|h] eqn:Ea; [|by apply (pa_alloc_halt _ _ _ _ Hinv Hn Ea)]. mstep. by destruct (_ =? 0).
Qed.

(** [vgic_init] sets up the shared interrupts and leaves the virtual CPUs alone. *)
Lemma vgic_init_keeps sp (ms : P * mem) w sp' ms' w' :
  (forall i, 0 <= i_lr (junk i) < 256 /\ 0 <= sgi_pend (junk i) < 256) ->
  vgic_init dscrp gicv_addr junk sp ms w = Ok (sp', ms', w') ->
  vcpus (wvm w') = vcpus (wvm w) /\ cpus (wvm w') = cpus (wvm w) /\ nr_cpus (wvm w') = nr_cpus (wvm w) /\
  master (wvm w') = master (wvm w) /\ vm_lock (wvm w') = vm_lock (wvm w) /\
  (locks_good w -> locks_good w') /\
  forall k i, int_at w' (Spi k) = Some i -> int_ok (Spi k) i /\ gap (i_lock i) = 0.
Proof using Type.
  intros Hj E. unfold vgic_init in E. inv_bind E. destruct a as [[] w1]. pose proof (regs_num _ _ E0) as Hnum. apply regs_keep in E0 as (_ & [Rv Rl Rg] & _); [|done].
  inv_bind E. destruct a as [[va sp1] ms1]. inv_bind E. destruct a as [pages p]. destruct (_ =? 0); [done|].
  inv_bind E. injection E as <- <- <-. cbn.
  split_and!; [exact (f_equal vcpus Rv)|exact (f_equal cpus Rv)|exact (f_equal nr_cpus Rv)|exact (f_equal master Rv)|exact (f_equal vm_lock Rv)| |].
  - intros (L1 & L2 & L3). split; [done|]. split; [cbn; congruence|]. destruct Rg as [_ _ Gl]. cbn. congruence.
  - intros k i Hi. destruct (Z.ltb_spec k 0) as [|Hk]; [done|].
    rewrite list_lookup_fmap in Hi. set (num := int_num (d (wvm w1))) in *.
    destruct (seqZ 0 num !! Z.to_nat k) as [k'|] eqn:Ek; [|done]. apply seqZ_lookup_to_nat in Ek as [-> Hkn]; [|lia].
    injection Hi as <-. destruct (Hj (0 + k)) as [J1 J2]. split; [|done]. split; try done.
    cbn [init_spi i_id ref_id]. rewrite u64_small; [lia|]. change GIC_CPU_PRIV with 32. lia.
Qed.
End steps.

(** ** The invariant *)

(** What the others can tell of a CPU: it is counted in [vm->cpus], its virtual
    CPU is set up. *)
Record view := View { w_id : Z; w_started : bool; w_inited : bool; w_vc : option Z }.

Definition view_of (c : core) : view :=
  View (c_id c) (2 <=? ord (c_pc c)) (5 <=? ord (c_pc c)) (if 5 <=? ord (c_pc c) then c_vcpu c else None).

Section invariant.
Context {H : Type} `{GicHw H} {P : Type} `{PageAllocator P}.
Context (arm_at_s12e1w : Z -> mem -> Z -> Z).
Context (vm_id_ : Z) (cfg : vm_config) (dtb : dtb_config) (shared_mem : Z).
Context (dscrp : vgic_dscrp) (gicv_addr : Z) (junk : Z -> vgic_int) (fuel : nat) (slot : Z).
Implicit Types s : vsys H P.

Abbreviation step := (step arm_at_s12e1w vm_id_ cfg dtb shared_mem dscrp gicv_addr junk fuel slot).
Abbreviation act := (act arm_at_s12e1w vm_id_ cfg dtb shared_mem dscrp gicv_addr junk slot).

(** The VM's CPUs and which of them is the master. *)
Context (team : list (Z * bool)) (mi : nat).
Record team_ok : Prop := {
  tm_nodup : NoDup team.*1;
  tm_ids : Forall (fun p => 0 <= p < 64) team.*1;
  tm_master : forall j p, team !! j = Some p -> (p.2 = true <-> j = mi);
  tm_has : (mi < length team)%nat;
  tm_nr : cfg_nr_cpus cfg = Z.of_nat (length team);
  tm_junk : forall i, 0 <= i_lr (junk i) < 256 /\ 0 <= sgi_pend (junk i) < 256;
}.
Context (Hteam : team_ok) (mem0 : P * mem).

Lemma team_len : (length team <= 64)%nat.
Proof using Hteam.
  destruct Hteam as [Hn Hi _ _ _ _]. pose proof (zcount_members team.*1 64 Hn Hi) as E. rewrite length_fmap in E.
  pose proof (zcount_range (fun i => bool_decide (i ∈ team.*1)) 0 64). lia.
Qed.

Record vm_inv (vs : list view) (w : world H) : Prop := {
  vm_len : length (vcpus (wvm w)) = length team;
  vm_mask : 0 <= cpus (wvm w) < 2 ^ 64 /\ forall p, 0 <= p < 64 -> Z.testbit (cpus (wvm w)) p = true <->
    exists j v, vs !! j = Some v /\ w_id v = p /\ w_started v = true;
  vm_done : forall j v, vs !! j = Some v -> w_inited v = true -> w_vc v = Some (rk team (w_id v)) /\
    exists c, vcpus (wvm w) !! Z.to_nat (rk team (w_id v)) = Some c /\ vcpu_ready cfg (rk team (w_id v)) (w_id v) c;
  vm_zero : forall j v, vs !! j = Some v -> w_inited v = false ->
    vcpus (wvm w) !! Z.to_nat (rk team (w_id v)) = Some zero_vcpu;
  vm_ints : ints_good (fun u => exists j v, vs !! j = Some v /\ w_inited v = true /\ rk team (w_id v) = u) w;
  vm_locks : locks_good w;
}.

(** The master's work on the memory so far, when it is at place [o]. *)
Definition mem_done (o : Z) s : Prop :=
  if o <? 1 then s_mem s = mem0 else
  exists sp1 ms1, as_init AS_VM vm_id_ 0 mem0 = Ok (sp1, ms1) /\
  if o <? 8 then s_as s = sp1 /\ s_mem s = ms1 else
  exists (w w' : world H) sp2 ms2, vgic_init dscrp gicv_addr junk sp1 ms1 w = Ok (sp2, ms2, w') /\
  if o <? 16 then s_as s = sp2 /\ s_mem s = ms2 else
  exists (x x' : irqs H), vm_init_memory (arm_at_s12e1w (root (as_pt sp2))) cfg dtb shared_mem sp2 ms2 x = Ok (s_as s, s_mem s, x').

Record inv s : Prop := {
  in_team : (fun c => (c_id c, c_master c)) <$> s_cores s = team;
  in_sync : sync (s_tok s) (c_pc <$> s_cores s);
  in_ready : forall j c, s_cores s !! j = Some c -> c_master c = true -> Barrier.ready (s_tok s) = (1 <=? ord (c_pc c));
  in_nr : Barrier.ready (s_tok s) = true -> nr_cpus (s_vm s) = Z.of_nat (length team);
  in_early : forall j c, s_cores s !! j = Some c -> inc (c_pc c) <= 2 -> unlocked (vm_lock (s_vm s)) /\
    forall j' c', s_cores s !! j' = Some c' -> c_master c' = true -> 1 <= ord (c_pc c') -> master (s_vm s) = c_id c';
  in_vm : vm_inv (view_of <$> s_cores s) (iw (s_irq s));
  in_mem : forall j c, s_cores s !! j = Some c -> c_master c = true -> mem_done (ord (c_pc c)) s;
}.

(** *** Facts about the CPUs *)

Section facts.
Context s (Hinv : inv s).

Lemma core_team j c : s_cores s !! j = Some c -> team !! j = Some (c_id c, c_master c).
Proof using Hinv. intros Hj. rewrite <- (in_team _ Hinv). by rewrite list_lookup_fmap, Hj. Qed.

Lemma core_id j c : s_cores s !! j = Some c -> c_id c ∈ team.*1 /\ 0 <= c_id c < 64.
Proof using Hinv Hteam.
  intros Hj%core_team. assert (c_id c ∈ team.*1) as Hin.
  { apply list_elem_of_fmap. exists (c_id c, c_master c). split; [done|]. by eapply list_elem_of_lookup_2. }
  split; [done|]. exact (proj1 (Forall_forall _ _) (tm_ids Hteam) _ Hin).
Qed.

Lemma core_inj j j' c c' : s_cores s !! j = Some c -> s_cores s !! j' = Some c' -> c_id c = c_id c' -> j = j'.
Proof using Hinv Hteam.
  intros Hj%core_team Hj'%core_team E. eapply (NoDup_lookup team.*1); [apply Hteam| |]; rewrite list_lookup_fmap.
  - by rewrite Hj.
  - rewrite Hj'. cbn. by rewrite E.
Qed.

Lemma core_master j c : s_cores s !! j = Some c -> (c_master c = true <-> j = mi).
Proof using Hinv Hteam. intros Hj%core_team. exact (tm_master Hteam j _ Hj). Qed.

Lemma cores_len : length (s_cores s) = length team.
Proof using Hinv. rewrite <- (in_team _ Hinv). by rewrite length_fmap. Qed.

Lemma rk_core j c : s_cores s !! j = Some c -> 0 <= rk team (c_id c) < Z.of_nat (length team).
Proof using Hinv Hteam. intros Hj. apply rk_range; [apply Hteam..|]. by apply (core_id j). Qed.

Lemma rk_core_inj j j' c c' : s_cores s !! j = Some c -> s_cores s !! j' = Some c' -> rk team (c_id c) = rk team (c_id c') -> j = j'.
Proof using Hinv Hteam.
  intros Hj Hj' E. apply (core_inj j j' c c' Hj Hj'). eapply rk_inj; [apply Hteam|by apply (core_id j)|by apply (core_id j')|done].
Qed.

Lemma pc_lookup j c : s_cores s !! j = Some c -> (c_pc <$> s_cores s) !! j = Some (c_pc c).
Proof using Type. intros Hj. by rewrite list_lookup_fmap, Hj. Qed.

(** What CPU [c] has seen complete every CPU has done. *)
Lemma all_inc i c : s_cores s !! i = Some c -> forall j c', s_cores s !! j = Some c' -> seen (c_pc c) <= inc (c_pc c').
Proof using Hinv.
  intros Hi j c' Hj. apply (sy_bal _ _ (in_sync _ Hinv)); eapply list_elem_of_lookup_2; by apply pc_lookup.
Qed.

Lemma inc_ready i c : s_cores s !! i = Some c -> 1 <= inc (c_pc c) -> Barrier.ready (s_tok s) = true.
Proof using Hinv.
  intros Hi Hinc. pose proof (sy_n _ _ (in_sync _ Hinv)) as Hn. destruct (Barrier.ready (s_tok s)); [done|].
  rewrite Forall_forall in Hn. rewrite (Hn (c_pc c)) in Hinc; [lia|]. eapply list_elem_of_lookup_2. by apply pc_lookup.
Qed.
End facts.

Lemma mem_done_ext o o' s s' : s_as s' = s_as s -> s_mem s' = s_mem s -> (o' <? 1) = (o <? 1) -> (o' <? 8) = (o <? 8) ->
  (o' <? 16) = (o <? 16) -> mem_done o s -> mem_done o' s'.
Proof using Type. intros Ea Em E1 E2 E3. unfold mem_done. by rewrite Ea, Em, E1, E2, E3. Qed.

Lemma team_insert s i c c' : inv s -> s_cores s !! i = Some c -> c_id c' = c_id c -> c_master c' = c_master c ->
  (fun c => (c_id c, c_master c)) <$> <[i := c']> (s_cores s) = team.
Proof using Type.
  intros Hinv Hi E1 E2. rewrite list_fmap_insert, E1, E2. rewrite list_insert_id; [apply Hinv|]. by rewrite list_lookup_fmap, Hi.
Qed.

(** A CPU that only moves on, past none of the places the others look at. *)
Lemma inv_move s s' i c p : inv s -> s_cores s !! i = Some c ->
  s_irq s' = s_irq s -> s_as s' = s_as s -> s_mem s' = s_mem s -> s_cores s' = <[i := goto c p]> (s_cores s) ->
  Barrier.ready (s_tok s') = Barrier.ready (s_tok s) -> sync (s_tok s') (<[i := p]> (c_pc <$> s_cores s)) ->
  (2 <=? ord p) = (2 <=? ord (c_pc c)) -> (5 <=? ord p) = (5 <=? ord (c_pc c)) -> inc (c_pc c) <= inc p ->
  (c_master c = true -> (ord p <? 1) = (ord (c_pc c) <? 1) /\ (ord p <? 8) = (ord (c_pc c) <? 8) /\ (ord p <? 16) = (ord (c_pc c) <? 16)) ->
  inv s'.
Proof using Type.
  intros Hinv Hi Eirq Eas Emem Ecs Er Hsync E2 E5 Hinc Hm. pose proof Hinv as [I1 I2 I3 I4 I5 I6 I7].
  assert (s_vm s' = s_vm s) as Evm by (unfold s_vm; by rewrite Eirq).
  assert (forall j x, s_cores s' !! j = Some x -> exists y, s_cores s !! j = Some y /\ c_id x = c_id y /\ c_master x = c_master y /\
    inc (c_pc y) <= inc (c_pc x) /\ (c_master x = true -> (ord (c_pc x) <? 1) = (ord (c_pc y) <? 1) /\
      (ord (c_pc x) <? 8) = (ord (c_pc y) <? 8) /\ (ord (c_pc x) <? 16) = (ord (c_pc y) <? 16))) as Hback.
  { intros j x. rewrite Ecs. intros [(<- & <- & _)|[Hne Hx]]%list_lookup_insert_Some; [exists c|exists x]; by split_and!. }
  split.
  - rewrite Ecs. by apply (team_insert s i c).
  - rewrite Ecs, list_fmap_insert. exact Hsync.
  - intros j x Hx Hmx. destruct (Hback j x Hx) as (y & Hy & _ & Em & _ & Ho). rewrite Er, (I3 j y Hy) by congruence.
    destruct (Ho Hmx) as (Ho1 & _). destruct (Z.leb_spec 1 (ord (c_pc y))), (Z.leb_spec 1 (ord (c_pc x))); try done;
      destruct (Z.ltb_spec (ord (c_pc x)) 1), (Z.ltb_spec (ord (c_pc y)) 1); try done; lia.
  - rewrite Er, Evm. exact I4.
  - intros j x Hx Hix. destruct (Hback j x Hx) as (y & Hy & _ & _ & Hi' & _). destruct (I5 j y Hy) as [U M]; [lia|]. rewrite Evm. split; [done|].
    intros j' x' Hx' Hmx' Hox'. destruct (Hback j' x' Hx') as (y' & Hy' & Eid & Em' & _ & Ho). rewrite Eid. apply (M j' y' Hy'); [congruence|].
    destruct (Ho Hmx') as (Ho1 & _). destruct (Z.ltb_spec (ord (c_pc x')) 1), (Z.ltb_spec (ord (c_pc y')) 1); try done; lia.
  - rewrite Eirq, Ecs, list_fmap_insert. replace (view_of (goto c p)) with (view_of c).
    + rewrite list_insert_id; [done|]. by rewrite list_lookup_fmap, Hi.
    + unfold view_of, goto. cbn. by rewrite E2, E5.
  - intros j x Hx Hmx. destruct (Hback j x Hx) as (y & Hy & _ & Em & _ & Ho). destruct (Ho Hmx) as (Ho1 & Ho2 & Ho3).
    apply (mem_done_ext (ord (c_pc y)) _ s); try done. apply (I7 j y Hy). congruence.
Qed.

(** Accesses to the token. *)
Lemma token_inv s i c c' t' : inv s -> s_cores s !! i = Some c -> at_token c (s_tok s) = Some (c', t') ->
  inv (set_core (set_tok s t') i c').
Proof using Hteam.
  intros Hinv Hi Ha. pose proof (pc_lookup s i c Hi) as Hp.
  destruct (at_token_sync _ _ i c c' t' (in_sync _ Hinv)) as (Hs & Ec & Er & Hinc & S2 & S5 & Sm); [|done|done|].
  { rewrite length_fmap, (cores_len s Hinv). apply team_len. }
  rewrite Ec. by apply (inv_move s _ i c (c_pc c')).
Qed.

Lemma sync_act s i c q : inv s -> s_cores s !! i = Some c -> inc q = inc (c_pc c) -> seen q = seen (c_pc c) ->
  waiting q = false -> sync (s_tok s) (<[i := q]> (c_pc <$> s_cores s)).
Proof using Type.
  intros Hinv Hi Hinc Hs Hw. apply (sync_move _ _ i (c_pc c)); [apply Hinv|by apply pc_lookup|done|left; lia|]. by destruct q.
Qed.

(** The master fills in the VM and makes the token ready. *)
Lemma master_init_inv s i c s' : inv s -> s_cores s !! i = Some c -> c_pc c = PMaster -> c_master c = true ->
  vm_master_init vm_id_ cfg c s = Ok s' -> inv (set_core s' i (goto c PCpu)).
Proof using Hteam.
  intros Hinv Hi Hpc Hmc E. unfold vm_master_init in E. inv_bind E. destruct a as [sp ms]. injection E as <-.
  pose proof Hinv as [I1 I2 I3 I4 I5 I6 I7]. cbn [s_mem set_tok on_vm set_irq] in E0.
  pose proof (I7 i c Hi Hmc) as Hmem. rewrite Hpc in Hmem. change (s_mem s = mem0) in Hmem.
  assert (forall j x, s_cores s !! j = Some x -> c_master x = true -> j = i) as Huniq.
  { intros j x Hx Hmx. apply (core_master s Hinv j x Hx) in Hmx. apply (core_master s Hinv i c Hi) in Hmc. congruence. }
  pose proof (I3 i c Hi Hmc) as Hr. rewrite Hpc in Hr. change (Barrier.ready (s_tok s) = false) in Hr.
  assert (incs (c_pc <$> s_cores s) = 0) as Hz.
  { pose proof (sy_n _ _ I2) as Hn. rewrite Hr in Hn. pose proof (incs_bounds (c_pc <$> s_cores s) 0 0) as Hb.
    enough (Forall (fun p => 0 <= inc p <= 0) (c_pc <$> s_cores s)) by (specialize (Hb ltac:(done)); lia).
    apply (Forall_impl _ _ _ Hn). intros p Hp. lia. }
  pose proof team_len as Hlen.
  split; cbn [s_cores set_core set_space set_tok on_vm set_irq s_tok s_irq s_vm s_as s_mem iw].
  - by apply (team_insert s i c).
  - rewrite list_fmap_insert. cbn [c_pc goto]. pose proof (sync_act s i c PCpu Hinv Hi) as [S1 S2 S3 S4]; [by rewrite Hpc..|done|].
    split; [| |done|done]; cbn [Barrier.cpu_sync_init Barrier.count Barrier.ready Barrier.n].
    + rewrite (incs_insert _ i (c_pc c)) by (by apply pc_lookup). rewrite Hpc, Hz. done.
    + rewrite length_insert, length_fmap, (cores_len s Hinv), (tm_nr Hteam). apply i32_small. lia.
  - intros j x [(<- & <- & _)|[Hne Hx]]%list_lookup_insert_Some Hmx; [done|]. exfalso. apply Hne. symmetry. by apply (Huniq j x).
  - intros _. cbn. apply (tm_nr Hteam).
  - intros j x Hx Hix. cbn. split; [apply (I5 i c Hi); by rewrite Hpc|].
    intros j' x' [(<- & <- & _)|[Hne Hx']]%list_lookup_insert_Some Hmx' _; [done|]. exfalso. apply Hne. symmetry. by apply (Huniq j' x').
  - rewrite list_fmap_insert. replace (view_of (goto c PCpu)) with (view_of c) by (unfold view_of, goto; cbn; by rewrite Hpc).
    rewrite list_insert_id by (by rewrite list_lookup_fmap, Hi). destruct I6 as [V1 V2 V3 V4 V5 V6]. by split.
  - intros j x [(<- & <- & _)|[Hne Hx]]%list_lookup_insert_Some Hmx; [|exfalso; apply Hne; symmetry; by apply (Huniq j x)].
    exists sp, ms. rewrite <- Hmem. done.
Qed.

Lemma lookup_view (cs : list core) (j : nat) v : (view_of <$> cs) !! j = Some v -> exists c, cs !! j = Some c /\ v = view_of c.
Proof using Type. rewrite list_lookup_fmap. destruct (cs !! j) as [c|]; [|done]. intros [= <-]. by exists c. Qed.

Lemma started_vm s i c lk : inv s -> s_cores s !! i = Some c -> c_pc c = PCpu ->
  vm_inv (view_of <$> <[i := goto c (PEnter B1)]> (s_cores s))
    (set_vm (iw (s_irq s)) (set_cpus (s_vm s) (Z.lor (cpus (s_vm s)) (lsl64 1 (c_id c))) (spin_unlock lk))).
Proof using Hteam.
  intros Hinv Hi Hpc. destruct (core_id s Hinv i c Hi) as [_ Hid]. destruct (in_vm _ Hinv) as [V1 [V2 V2'] V3 V4 V5 V6].
  assert (forall j v, (view_of <$> <[i := goto c (PEnter B1)]> (s_cores s)) !! j = Some v ->
    (j = i /\ v = View (c_id c) true false None) \/ (j ≠ i /\ (view_of <$> s_cores s) !! j = Some v)) as Hv.
  { intros j v (x & [(<- & <- & _)|[Hne Hx]]%list_lookup_insert_Some & ->)%lookup_view; [by left|right]. by rewrite list_lookup_fmap, Hx. }
  assert ((view_of <$> s_cores s) !! i = Some (View (c_id c) false false None)) as Hvi
    by (rewrite list_lookup_fmap, Hi; unfold view_of; cbn; by rewrite Hpc).
  pose proof (lookup_lt_Some _ _ _ Hi) as Hlt.
  assert (forall j v, j ≠ i -> (view_of <$> s_cores s) !! j = Some v -> (view_of <$> <[i := goto c (PEnter B1)]> (s_cores s)) !! j = Some v) as Hv'.
  { intros j v Hne. rewrite !list_lookup_fmap. by rewrite list_lookup_insert_ne by done. }
  assert ((view_of <$> <[i := goto c (PEnter B1)]> (s_cores s)) !! i = Some (View (c_id c) true false None)) as Hvi'.
  { rewrite list_lookup_fmap, list_lookup_insert_eq by done. done. }
  assert (lsl64 1 (c_id c) = 2 ^ c_id c) as El.
  { unfold lsl64. rewrite Z.mod_small by lia. rewrite Z.shiftl_1_l. apply u64_small. split; [lia|]. apply Z.pow_lt_mono_r; lia. }
  split; cbn; try done.
  + split.
    * rewrite El. apply (lor_range 64); [lia|exact V2|]. split; [lia|]. apply Z.pow_lt_mono_r; lia.
    * intros p Hp. rewrite El, Z.lor_spec, Z.pow2_bits_eqb, orb_true_iff, Z.eqb_eq by lia. change (cpus (s_vm s)) with (cpus (wvm (iw (s_irq s)))). rewrite V2' by done. split.
      -- intros [(j & v & Hj & Hvp & Hvs)|<-]; [|by exists i, (View (c_id c) true false None)].
         exists j, v. split_and!; try done. apply Hv'; [|done]. intros ->. rewrite Hvi in Hj. injection Hj as <-. done.
      -- intros (j & v & [[-> ->]|[Hne Hj]]%Hv & Hvp & Hvs); [by right|left]. by exists j, v.
  + intros j v [[-> ->]|[Hne Hj]]%Hv Hin; [done|]. by apply (V3 j).
  + intros j v [[-> ->]|[Hne Hj]]%Hv Hin; [|by apply (V4 j)]. by apply (V4 i _ Hvi).
  + intros r k Hr Hok. apply (V5 r k Hr). destruct r as [u ?|]; [|done]. destruct Hok as (j & v & [[-> ->]|[Hne Hj]]%Hv & Hin & Hrk); [done|].
    by exists j, v.
Qed.

(** A CPU enters itself in [vm->cpus]. *)
Lemma cpu_init_inv s i c s' : inv s -> s_cores s !! i = Some c -> c_pc c = PCpu ->
  vm_cpu_init_ c s = Ok s' -> inv (set_core s' i (goto c (PEnter B1))).
Proof using Hteam.
  intros Hinv Hi Hpc E. unfold vm_cpu_init_ in E. inv_bind E. injection E as <-. unfold vm_cpu_init in E0. inv_bind E0. injection E0 as <-.
  pose proof Hinv as [I1 I2 I3 I4 I5 I6 I7]. destruct (I5 i c Hi) as [Hul _]; [by rewrite Hpc|].
  destruct (core_id s Hinv i c Hi) as [_ Hid].
  assert (unlocked (spin_unlock a0)) as Hul'.
  { destruct Hul as [U1 U2]. unfold spin_lock, get_ticket, my_turn in E. cbn in E. destruct (_ =? _); [|done]. injection E as <-.
    unfold unlocked, spin_unlock. cbn. rewrite U1. split; [done|apply u32_range]. }
  split; cbn [s_cores set_core set_space set_tok on_vm set_irq s_tok s_irq s_vm s_as s_mem iw].
  - by apply (team_insert s i c).
  - rewrite list_fmap_insert. by apply (sync_act s i c); rewrite ?Hpc.
  - intros j x [(<- & <- & _)|[Hne Hx]]%list_lookup_insert_Some Hmx; [|by apply (I3 j)].
    rewrite (I3 i c Hi Hmx), Hpc. done.
  - exact I4.
  - intros j x Hx Hix. cbn. split; [done|]. destruct (I5 i c Hi) as [_ M]; [by rewrite Hpc|].
    intros j' x' [(<- & <- & _)|[Hne Hx']]%list_lookup_insert_Some Hmx' Ho; [|by apply (M j')]. apply (M i c Hi Hmx'). rewrite Hpc. done.
  - by apply (started_vm s i c a0).
  - intros j x [(<- & <- & _)|[Hne Hx]]%list_lookup_insert_Some Hmx.
    + apply (mem_done_ext (ord (c_pc c)) _ s); [done|done|by rewrite Hpc..|]. by apply (I7 i).
    + apply (mem_done_ext (ord (c_pc x)) _ s); try done. by apply (I7 j).
Qed.

(** Once all are counted, a CPU's rank in the mask is its rank in the team. *)
Lemma rank_team s p : inv s -> (forall j c, s_cores s !! j = Some c -> 2 <= ord (c_pc c)) -> 0 <= p < 64 ->
  rank (s_vm s) p = rk team p.
Proof using Hteam.
  intros Hinv Hst Hp. apply zcount_ext. intros i Hi. destruct (in_vm _ Hinv) as [_ [_ Hmask] _ _ _ _].
  specialize (Hmask i ltac:(lia)). apply eq_bool_prop_intro. rewrite bool_decide_spec. split.
  - intros Hb. apply Is_true_true_1 in Hb. apply Hmask in Hb as (j & v & (c & Hc & ->)%lookup_view & <- & _).
    apply (core_id s Hinv j c Hc).
  - intros ([? m] & -> & [j Hj]%list_elem_of_lookup)%list_elem_of_fmap. apply Is_true_true_2, Hmask. exists j.
    rewrite <- (in_team _ Hinv), list_lookup_fmap in Hj. destruct (s_cores s !! j) as [c|] eqn:Hc; [|done]. injection Hj as <- <-.
    exists (view_of c). rewrite list_lookup_fmap, Hc. split; [done|]. split; [done|]. apply Z.leb_le. by apply (Hst j).
Qed.

(** A CPU sets its virtual CPU up. *)
Lemma vcpu_init_run s i c : inv s -> s_cores s !! i = Some c -> c_pc c = PVcpu ->
  exists mpidr ttbr V q, vm_vcpu_init cfg c s = Ok (Core (c_id c) (c_master c) (c_pc c) (Some (rk team (c_id c))) mpidr ttbr,
      on_vm s (set_spilled (set_vcpus (s_vm s) (<[Z.to_nat (rk team (c_id c)) := V]> (vcpus (s_vm s)))) q (vgic_spilled_lock (s_vm s)))) /\
    vcpu_ready cfg (rk team (c_id c)) (c_id c) V /\ fresh_ints (rk team (c_id c)) (v_ints V).
Proof using Hteam.
  intros Hinv Hi Hpc. destruct (core_id s Hinv i c Hi) as [_ Hid]. pose proof (rk_core s Hinv i c Hi) as Hrk.
  assert (forall j x, s_cores s !! j = Some x -> 2 <= ord (c_pc x)) as Hst.
  { intros j x Hx. pose proof (all_inc s Hinv i c Hi j x Hx) as Hs. rewrite Hpc in Hs. cbn in Hs. by destruct (c_pc x) as [| |[]|[]| | | | | | | |]. }
  assert (Barrier.ready (s_tok s) = true) as Hr by (apply (inc_ready s Hinv i c Hi); by rewrite Hpc).
  apply vm_vcpu_init_spec.
  - rewrite vm_calc_vcpu_id_spec by done. by rewrite (rank_team s _ Hinv Hst).
  - by rewrite (in_nr _ Hinv Hr).
  - apply (vm_zero _ _ (in_vm _ Hinv) i (view_of c)); [by rewrite list_lookup_fmap, Hi|]. unfold view_of. cbn. by rewrite Hpc.
Qed.

Lemma inited_vm s i c V q c' : inv s -> s_cores s !! i = Some c -> c_pc c = PVcpu ->
  c_id c' = c_id c -> c_pc c' = PEnter B2 -> c_vcpu c' = Some (rk team (c_id c)) ->
  vcpu_ready cfg (rk team (c_id c)) (c_id c) V -> fresh_ints (rk team (c_id c)) (v_ints V) ->
  vm_inv (view_of <$> <[i := c']> (s_cores s))
    (set_vm (iw (s_irq s)) (set_spilled (set_vcpus (s_vm s) (<[Z.to_nat (rk team (c_id c)) := V]> (vcpus (s_vm s)))) q (vgic_spilled_lock (s_vm s)))).
Proof using Hteam.
  intros Hinv Hi Hpc Hcc Hc' Hr0 HV Hints. assert (view_of c' = View (c_id c) true true (Some (rk team (c_id c)))) as Hvc by (unfold view_of; by rewrite Hcc, Hc', Hr0).
  destruct (in_vm _ Hinv) as [V1 [V2 V2'] V3 V4 V5 V6]. set (r := rk team (c_id c)) in *.
  pose proof (rk_core s Hinv i c Hi) as Hr. fold r in Hr.
  assert (forall j v, (view_of <$> <[i := c']> (s_cores s)) !! j = Some v ->
    (j = i /\ v = View (c_id c) true true (Some r)) \/
    (j ≠ i /\ (view_of <$> s_cores s) !! j = Some v /\ Z.to_nat (rk team (w_id v)) ≠ Z.to_nat r)) as Hv.
  { intros j v (x & [(<- & <- & _)|[Hne Hx]]%list_lookup_insert_Some & ->)%lookup_view; [left; by rewrite Hvc|right].
    rewrite list_lookup_fmap, Hx. split_and!; [done|done|]. intros E. apply Hne. symmetry. apply (rk_core_inj s Hinv j i x c Hx Hi).
    cbn in E. pose proof (rk_core s Hinv j x Hx). lia. }
  assert ((view_of <$> s_cores s) !! i = Some (View (c_id c) true false None)) as Hvi
    by (rewrite list_lookup_fmap, Hi; unfold view_of; cbn; by rewrite Hpc).
  pose proof (lookup_lt_Some _ _ _ Hi) as Hlt.
  assert ((view_of <$> <[i := c']> (s_cores s)) !! i = Some (View (c_id c) true true (Some r))) as Hvi'.
  { rewrite list_lookup_fmap, list_lookup_insert_eq by done. cbn. by rewrite Hvc. }
  assert ((Z.to_nat r < length (vcpus (wvm (iw (s_irq s)))))%nat) as Hlr by (rewrite V1; lia).
  split; cbn -[int_at].
  + rewrite length_insert. exact V1.
  + split; [exact V2|]. intros p Hp. rewrite (V2' p Hp). split.
    * intros (j & v & Hj & Hvp & Hvs). destruct (decide (j = i)) as [->|Hne].
      -- exists i, (View (c_id c) true true (Some r)). rewrite Hvi in Hj. injection Hj as <-. done.
      -- exists j, v. rewrite list_lookup_fmap, list_lookup_insert_ne by done. by rewrite <- list_lookup_fmap.
    * intros (j & v & [[-> ->]|(Hne & Hj & _)]%Hv & Hvp & Hvs); [|by exists j, v]. by exists i, (View (c_id c) true false None).
  + intros j v [[-> ->]|(Hne & Hj & Hnr)]%Hv Hin; cbn.
    * split; [done|]. exists V. fold r. by rewrite list_lookup_insert_eq.
    * rewrite list_lookup_insert_ne by done. by apply (V3 j).
  + intros j v [[-> ->]|(Hne & Hj & Hnr)]%Hv Hin; [done|]. rewrite list_lookup_insert_ne by done. by apply (V4 j).
  + intros rr k Hk Hok. destruct rr as [u n|n].
    * unfold int_at in Hk. cbn in Hk. destruct ((u <? 0) || (n <? 0)) eqn:Hun; [done|].
      destruct (decide (Z.to_nat u = Z.to_nat r)) as [Eu|Hu].
      -- assert (u = r) as -> by lia. rewrite list_lookup_insert_eq in Hk by done. cbn in Hk.
         destruct Hints as [_ Hints]. pose proof (Hints _ _ Hk) as Hg. by rewrite Z2Nat.id in Hg by lia.
      -- apply (V5 (Priv u n)).
         ++ unfold int_at. rewrite Hun. by rewrite list_lookup_insert_ne in Hk by done.
         ++ destruct Hok as (j & v & [[-> ->]|(Hne & Hj & Hnr)]%Hv & Hin & Erk); [by cbn in Erk; fold r in Erk; subst u|]. by exists j, v.
    * by apply (V5 (Spi n)).
  + exact V6.
Qed.

Lemma vcpu_init_inv s i c c' s' : inv s -> s_cores s !! i = Some c -> c_pc c = PVcpu ->
  vm_vcpu_init cfg c s = Ok (c', s') -> inv (set_core s' i (goto c' (PEnter B2))).
Proof using Hteam.
  intros Hinv Hi Hpc E. destruct (vcpu_init_run s i c Hinv Hi Hpc) as (mp & tt & V & q & E' & HV & Hints). rewrite E' in E. injection E as <- <-.
  pose proof Hinv as [I1 I2 I3 I4 I5 I6 I7]. set (r := rk team (c_id c)) in *. pose proof (rk_core s Hinv i c Hi) as Hr. fold r in Hr.
  split; cbn [s_cores set_core set_space set_tok on_vm set_irq s_tok s_irq s_vm s_as s_mem iw].
  - by apply (team_insert s i c).
  - rewrite list_fmap_insert. cbn [c_pc goto]. by apply (sync_act s i c); rewrite ?Hpc.
  - intros j x [(<- & <- & _)|[Hne Hx]]%list_lookup_insert_Some Hmx; [|by apply (I3 j)].
    rewrite (I3 i c Hi Hmx), Hpc. done.
  - exact I4.
  - intros j x Hx Hix. destruct (I5 i c Hi) as [U M]; [by rewrite Hpc|]. split; [done|].
    intros j' x' [(<- & <- & _)|[Hne Hx']]%list_lookup_insert_Some Hmx' Ho; [|by apply (M j')]. apply (M i c Hi Hmx'). rewrite Hpc. done.
  - by apply (inited_vm s i c V q).
  - intros j x [(<- & <- & _)|[Hne Hx]]%list_lookup_insert_Some Hmx.
    + apply (mem_done_ext (ord (c_pc c)) _ s); [done|done|by rewrite Hpc..|]. by apply (I7 i).
    + apply (mem_done_ext (ord (c_pc x)) _ s); try done. by apply (I7 j).
Qed.

(** *** After all virtual CPUs are set up *)

Lemma all_inited s i c : inv s -> s_cores s !! i = Some c -> 2 <= seen (c_pc c) ->
  forall j v, (view_of <$> s_cores s) !! j = Some v -> w_inited v = true.
Proof using Type.
  intros Hinv Hi Hk j v (x & Hx & ->)%lookup_view. pose proof (all_inc s Hinv i c Hi j x Hx) as Hinc.
  apply Z.leb_le. assert (2 <= inc (c_pc x)) as Hx2 by lia. by destruct (c_pc x) as [| |[]|[]| | | | | | | |].
Qed.

(** Every virtual CPU of the VM belongs to one of the CPUs. *)
Lemma vcpu_owner s u : inv s -> 0 <= u < Z.of_nat (length team) -> exists j c, s_cores s !! j = Some c /\ rk team (c_id c) = u.
Proof using Hteam.
  intros Hinv Hu. destruct (decide (Exists (fun c => rk team (c_id c) = u) (s_cores s))) as [He|Hne].
  { apply Exists_exists in He as (c & [j Hj]%list_elem_of_lookup & E). by exists j, c. }
  exfalso. set (l := (fun c => rk team (c_id c)) <$> s_cores s).
  assert (NoDup l) as Hnd.
  { apply NoDup_alt. intros a b n Ha Hb. unfold l in Ha, Hb. rewrite list_lookup_fmap in Ha, Hb.
    destruct (s_cores s !! a) as [x|] eqn:Ex; [|done]. destruct (s_cores s !! b) as [y|] eqn:Ey; [|done]. injection Ha as Ha. injection Hb as Hb.
    apply (rk_core_inj s Hinv a b x y Ex Ey). congruence. }
  assert (u :: l ⊆+ seqZ 0 (Z.of_nat (length team))) as Hsub.
  { apply NoDup_submseteq.
    - apply NoDup_cons. split; [|done]. intros (c & E & Hc)%list_elem_of_fmap. apply Hne, Exists_exists. by exists c.
    - intros z [->|(c & -> & [j Hj]%list_elem_of_lookup)%list_elem_of_fmap]%elem_of_cons; apply elem_of_seqZ; [lia|].
      pose proof (rk_core s Hinv j c Hj). lia. }
  apply submseteq_length in Hsub. unfold l in Hsub. rewrite length_cons, length_fmap, length_seqZ, (cores_len s Hinv) in Hsub. lia.
Qed.

Lemma all_good s i c : inv s -> s_cores s !! i = Some c -> 2 <= seen (c_pc c) -> good (iw (s_irq s)).
Proof using Hteam.
  intros Hinv Hi Hk. destruct (in_vm _ Hinv) as [V1 _ _ _ V5 V6]. apply good_wf; [|done].
  intros r x Hr _. apply (V5 r x Hr). destruct r as [u n|]; [|done].
  assert (0 <= u < Z.of_nat (length team)) as Hu.
  { pose proof (int_at_range _ _ _ Hr) as [Hu _]. split; [done|]. unfold int_at in Hr. destruct (_ || _); [done|].
    destruct (vcpus _ !! Z.to_nat u) as [v|] eqn:Ev; [|done]. apply lookup_lt_Some in Ev. lia. }
  destruct (vcpu_owner s u Hinv Hu) as (j & y & Hy & E). exists j, (view_of y). rewrite list_lookup_fmap, Hy. split; [done|]. split; [|done].
  apply (all_inited s i c Hinv Hi Hk j). by rewrite list_lookup_fmap, Hy.
Qed.

(** Changes that keep the virtual CPUs' numbers and the controller in order. *)
Lemma vm_inv_keepv vs w w' : (forall j v, vs !! j = Some v -> w_inited v = true) -> vm_inv vs w -> good w' -> keepv w w' -> vm_inv vs w'.
Proof using Type.
  intros Hall [V1 V2 V3 V4 V5 V6] [Hwf Hf] [K1 K2 K3]. destruct (good_of_wf w' Hwf Hf) as [G1 G2]. split; try done.
  - rewrite <- V1. symmetry. by eapply Forall2_length.
  - by rewrite K2.
  - intros j v Hj Hin. destruct (V3 j v Hj Hin) as (E & c & Hc & [R1 R2 R3 R4]). split; [done|].
    destruct (Forall2_lookup_l _ _ _ _ _ K1 Hc) as (c' & Hc' & [S1 S2 S3 S4 S5 S6]). exists c'. split; [done|]. split; congruence.
  - intros j v Hj Hin. by rewrite (Hall j v Hj) in Hin.
  - intros r x Hr _. apply (G1 r x Hr). by destruct r.
Qed.

(** The master sets up the distributor. *)
Lemma arch_inv s i c s' : inv s -> s_cores s !! i = Some c -> c_pc c = PArch ->
  vm_arch_init dscrp gicv_addr junk c s = Ok s' -> inv (set_core s' i (goto c (PEnter BClear))).
Proof using Hteam.
  intros Hinv Hi Hpc E. pose proof Hinv as [I1 I2 I3 I4 I5 I6 I7].
  assert (Barrier.ready (s_tok s) = true) as Hrd by (apply (inc_ready s Hinv i c Hi); by rewrite Hpc).
  destruct (I5 i c Hi) as [HU HM]; [by rewrite Hpc|].
  destruct (lookup_lt_is_Some_2 (s_cores s) mi) as [mc Hmc]; [rewrite (cores_len s Hinv); apply Hteam|].
  pose proof (proj2 (core_master s Hinv mi mc Hmc) eq_refl) as Hmm.
  assert (master (s_vm s) = c_id mc) as Em.
  { apply (HM mi mc Hmc Hmm). pose proof (I3 mi mc Hmc Hmm) as E1. rewrite Hrd in E1. symmetry in E1. by apply Z.leb_le in E1. }
  pose proof (sync_act s i c (PEnter BClear) Hinv Hi) as Hsync.
  unfold vm_arch_init in E. destruct (Z.eqb_spec (master (s_vm s)) (c_id c)) as [Eq|Hnq].
  - assert (i = mi) as -> by (apply (core_inj s Hinv i mi c mc Hi Hmc); congruence). assert (mc = c) as -> by congruence.
    inv_bind E. destruct a as [[sp ms] w]. injection E as <-.
    destruct (vgic_init_keeps dscrp gicv_addr junk _ _ _ _ _ _ (tm_junk Hteam) E0) as (K1 & K2 & K3 & K4 & K5 & K6 & K7).
    cbn in K1, K2, K3, K4, K5. split; cbn [s_cores set_core set_space set_tok on_vm set_irq s_tok s_irq s_vm s_as s_mem iw].
    + by apply (team_insert s mi c).
    + rewrite list_fmap_insert. apply Hsync; by rewrite ?Hpc.
    + intros j x [(<- & <- & _)|[Hne Hx]]%list_lookup_insert_Some Hmx; [by rewrite Hrd|by apply (I3 j)].
    + intros _. etrans; [exact K3|]. by apply I4.
    + intros j x _ _. split; [change (unlocked (vm_lock (wvm w))); rewrite K5; exact HU|].
      intros j' x' [(<- & <- & _)|[Hne Hx']]%list_lookup_insert_Some Hmx' Ho; (etrans; [exact K4|]); [exact Eq|by apply (HM j')].
    + rewrite list_fmap_insert. replace (view_of (goto c (PEnter BClear))) with (view_of c) by (unfold view_of, goto; cbn; by rewrite Hpc).
      rewrite list_insert_id by (by rewrite list_lookup_fmap, Hi). destruct I6 as [V1 V2 V3 V4 V5 V6]. split; rewrite ?K1, ?K2; try done.
      * intros r k Hr Hok. destruct r as [u n|n]; [|by apply K7]. apply (V5 (Priv u n)); [|done]. unfold int_at in *. by rewrite K1 in Hr.
      * by apply K6.
    + intros j x [(<- & <- & _)|[Hne Hx]]%list_lookup_insert_Some Hmx; [|exfalso; apply Hne; symmetry; by apply (core_master s Hinv j x Hx)].
      specialize (I7 mi c Hi Hmm). rewrite Hpc in I7. cbn in I7. destruct I7 as (sp1 & ms1 & E1 & <- & <-).
      exists (s_as s), (s_mem s). split; [done|]. cbn. by eexists _, w, sp, ms.
  - injection E as <-. apply (inv_move s _ i c (PEnter BClear)); try done; rewrite ?Hpc; try done; [by apply Hsync; rewrite ?Hpc|].
    intros Hm. exfalso. apply Hnq. rewrite Em. assert (i = mi) as -> by (by apply (core_master s Hinv i c Hi)). congruence.
Qed.

(** The others have passed the places where [vm->lock] and [vm->master] matter. *)
Lemma late s i c : inv s -> s_cores s !! i = Some c -> 3 <= seen (c_pc c) ->
  forall j x, s_cores s !! j = Some x -> ~ inc (c_pc x) <= 2.
Proof using Type. intros Hinv Hi Hk j x Hx. pose proof (all_inc s Hinv i c Hi j x Hx). lia. Qed.

(** The master sets up the memory. *)
Lemma mem_inv s i c s' : inv s -> s_cores s !! i = Some c -> c_pc c = PMem ->
  vm_init_master arm_at_s12e1w cfg dtb shared_mem c s = Ok s' -> inv (set_core s' i (goto c (PEnter B3))).
Proof using Hteam.
  intros Hinv Hi Hpc E. pose proof Hinv as [I1 I2 I3 I4 I5 I6 I7]. unfold vm_init_master in E.
  pose proof (sync_act s i c (PEnter B3) Hinv Hi) as Hsync. pose proof (late s i c Hinv Hi ltac:(by rewrite Hpc)) as Hlate.
  destruct (c_master c) eqn:Hm.
  - inv_bind E. destruct a as [[sp ms] x]. injection E as <-.
    pose proof (all_good s i c Hinv Hi ltac:(by rewrite Hpc)) as Hg.
    assert (good (iw (as_core c (s_irq s)))) as Hg' by exact Hg.
    destruct (vm_init_memory_good _ _ _ _ _ _ _ _ _ _ Hg' E0) as [Hg2 K].
    split; cbn [s_cores set_core set_space set_tok on_vm set_irq s_tok s_irq s_vm s_as s_mem iw].
    + by apply (team_insert s i c).
    + rewrite list_fmap_insert. apply Hsync; by rewrite ?Hpc.
    + intros j y [(<- & <- & _)|[Hne Hx]]%list_lookup_insert_Some Hmx; [|by apply (I3 j)]. by rewrite (I3 i c Hi Hm), Hpc.
    + intros Hr. etrans; [exact (kv_nr _ _ K)|]. by apply I4.
    + intros j y [(<- & <- & _)|[Hne Hx]]%list_lookup_insert_Some Hle; [done|]. by apply Hlate in Hx.
    + rewrite list_fmap_insert. replace (view_of (goto c (PEnter B3))) with (view_of c) by (unfold view_of, goto; cbn; by rewrite Hpc).
      rewrite list_insert_id by (by rewrite list_lookup_fmap, Hi). apply (vm_inv_keepv _ (iw (s_irq s))); [|done|done|].
      * apply (all_inited s i c Hinv Hi). by rewrite Hpc.
      * destruct K as [A1 A2 A3]. by split.
    + intros j y [(<- & <- & _)|[Hne Hx]]%list_lookup_insert_Some Hmx.
      * specialize (I7 i c Hi Hm). rewrite Hpc in I7. cbn in I7. destruct I7 as (sp1 & ms1 & E1 & w & w' & sp2 & ms2 & E2 & <- & <-).
        exists sp1, ms1. split; [done|]. cbn. exists w, w', (s_as s), (s_mem s). split; [done|]. by eexists _, x.
      * exfalso. apply Hne. apply (core_master s Hinv j y Hx) in Hmx. apply (core_master s Hinv i c Hi) in Hm. congruence.
  - injection E as <-. apply (inv_move s _ i c (PEnter B3)); try done; rewrite ?Hpc; try done; [by apply Hsync; rewrite ?Hpc|]. by rewrite Hm.
Qed.

(** Messages. *)
Lemma msg_inv s i s' : inv s -> mstep fuel i s = Some s' -> inv s'.
Proof using Hteam.
  intros Hinv E. unfold mstep in E. destruct (s_cores s !! i) as [c|] eqn:Hi; [|done]. cbn [mbind option_bind] in E.
  assert (3 <= seen (c_pc c) /\ exists x, call_handler fuel 0 cpu_msg 0 (as_core c (s_irq s)) = Ok ((), x) /\ s' = set_irq s x) as (Hk & x & E1 & ->).
  { destruct (c_pc c) as [| |[]| | | | | |y| | |]; try done; (split; [done|]);
      (destruct (call_handler _ _ _ _ _) as [[[] x]|]; [|done]); injection E as <-; by exists x. }
  clear E. unfold call_handler in E1. inv_bind E1. destruct a as [w ms]. injection E1 as <-.
  pose proof Hinv as [I1 I2 I3 I4 I5 I6 I7].
  pose proof (all_good s i c Hinv Hi ltac:(lia)) as Hg.
  assert (good (iw (as_core c (s_irq s)))) as Hg' by exact Hg.
  apply (cpu_msgs_good fuel) in E as [Hg2 K]; [|exact Hg'].
  pose proof (late s i c Hinv Hi Hk) as Hlate. split; try done.
  - intros Hr. etrans; [exact (kv_nr _ _ K)|]. by apply I4.
  - intros j z Hz Hle. by apply Hlate in Hz.
  - apply (vm_inv_keepv _ (iw (s_irq s))); [|done|exact Hg2|].
    + apply (all_inited s i c Hinv Hi). lia.
    + destruct K as [A1 A2 A3]. by split.
Qed.

Lemma cpu_inv s i s' : inv s -> cstep arm_at_s12e1w vm_id_ cfg dtb shared_mem dscrp gicv_addr junk slot i s = Some s' -> inv s'.
Proof using Hteam.
  intros Hinv E. unfold cstep in E. destruct (s_cores s !! i) as [c|] eqn:Hi; [|done]. cbn [mbind option_bind] in E.
  unfold VmInit.act in E. pose proof (fun q => sync_act s i c q Hinv Hi) as Hsync. destruct (c_pc c) as [| |b|b x| | | | |x| | |] eqn:Hpc.
  1, 2, 5, 6, 10, 11: match type of E with context [match ?o with Ok _ => _ | Halt _ => _ end] => destruct o as [[c' s1]|] eqn:E1; [|done] end;
    injection E as <-; inv_bind E1.
  - injection E1 as <- <-. destruct (c_master c) eqn:Hm; [by apply (master_init_inv s i c)|]. injection E as <-.
    apply (inv_move s _ i c PCpu); rewrite ?Hpc; try done; [by apply Hsync; rewrite ?Hpc|]. by rewrite Hm.
  - injection E1 as <- <-. by apply (cpu_init_inv s i c).
  - destruct a as [c1 s2]. injection E1 as <- <-. by apply (vcpu_init_inv s i c).
  - injection E1 as <- <-. by apply (arch_inv s i c).
  - injection E1 as <- <-. by apply (mem_inv s i c).
  - injection E1 as <- <-. apply (inv_move s _ i c PDone); rewrite ?Hpc; try done. by apply Hsync; rewrite ?Hpc.
  - destruct (at_token c (s_tok s)) as [[c' t']|] eqn:Ea; [|done]. injection E as <-. by apply (token_inv s i c).
  - destruct (at_token c (s_tok s)) as [[c' t']|] eqn:Ea; [|done]. injection E as <-. by apply (token_inv s i c).
  - destruct (at_token c (s_tok s)) as [[c' t']|] eqn:Ea; [|done]. injection E as <-. by apply (token_inv s i c).
  - destruct (at_token c (s_tok s)) as [[c' t']|] eqn:Ea; [|done]. injection E as <-. by apply (token_inv s i c).
  - destruct (at_token c (s_tok s)) as [[c' t']|] eqn:Ea; [|done]. injection E as <-. by apply (token_inv s i c).
  - destruct (at_token c (s_tok s)) as [[c' t']|] eqn:Ea; [|done]. injection E as <-. by apply (token_inv s i c).
Qed.

Lemma reach_inv s s' : inv s -> rtc step s s' -> inv s'.
Proof using Hteam.
  intros Hinv Hs. induction Hs as [s|s s1 s2 [i E|i E] _ IH]; [done| |]; apply IH; [by eapply cpu_inv|by eapply msg_inv].
Qed.

Lemma start_inv g ms t tm num sp l : unlocked (gicd_lock g) -> inv (start team g ms t tm num sp mem0 l).
Proof using Hteam.
  intros Hg. assert (forall (Q : core -> Prop), (forall p, Q (Core p.1 p.2 PMaster None 0 0)) ->
    forall j c, ((fun p : Z * bool => Core p.1 p.2 PMaster None 0 0) <$> team) !! j = Some c -> Q c) as Hall.
  { intros Q HQ j c. rewrite list_lookup_fmap. destruct (team !! j) as [p|]; [|done]. intros [= <-]. apply HQ. }
  assert (forall p, p ∈ c_pc <$> ((fun p : Z * bool => Core p.1 p.2 PMaster None 0 0) <$> team) -> p = PMaster) as Hpc.
  { intros p (c & -> & (y & -> & _)%list_elem_of_fmap)%list_elem_of_fmap. done. }
  split; cbn [start s_cores s_tok s_irq s_as s_mem Barrier.ready Barrier.count].
  - rewrite <- list_fmap_compose. rewrite <- (list_fmap_id team) at 2. apply list_fmap_ext. by intros i [].
  - split; cbn [Barrier.count Barrier.ready].
    + symmetry. pose proof (incs_bounds (c_pc <$> ((fun p : Z * bool => Core p.1 p.2 PMaster None 0 0) <$> team)) 0 0) as Hb.
      enough (Forall (fun p => 0 <= inc p <= 0) (c_pc <$> ((fun p : Z * bool => Core p.1 p.2 PMaster None 0 0) <$> team))) by (specialize (Hb ltac:(done)); lia).
      apply Forall_forall. by intros p ->%Hpc.
    + apply Forall_forall. by intros p ->%Hpc.
    + by intros p q ->%Hpc ->%Hpc.
    + apply Forall_forall. by intros p ->%Hpc.
  - by apply (Hall (fun c => c_master c = true -> false = (1 <=? ord (c_pc c)))).
  - done.
  - intros j c Hc _. split; [done|]. intros j' c' Hc' _ Ho. exfalso. revert Ho.
    apply (Hall (fun c => 1 <= ord (c_pc c) -> False)) with (j := j'); [cbn; lia|exact Hc'].
  - assert (forall j v, (view_of <$> ((fun p : Z * bool => Core p.1 p.2 PMaster None 0 0) <$> team)) !! j = Some v ->
      w_started v = false /\ w_inited v = false /\ w_id v ∈ team.*1) as Hv.
    { intros j v (c & Hc & ->)%lookup_view. rewrite list_lookup_fmap in Hc. destruct (team !! j) as [p|] eqn:Ep; [|done]. injection Hc as <-.
      split_and!; try done. cbn. apply list_elem_of_fmap_2. by eapply list_elem_of_lookup_2. }
    split; cbn [iw wvm zero_vm vcpus cpus].
    + apply length_replicate.
    + split; [done|]. intros p Hp. rewrite Z.bits_0. split; [done|]. intros (j & v & [Hs _]%Hv & _ & E). congruence.
    + intros j v (_ & E & _)%Hv Hin. congruence.
    + intros j v (_ & _ & Hin)%Hv _. apply lookup_replicate. split; [done|]. pose proof (rk_range team (tm_nodup Hteam) (tm_ids Hteam) _ Hin). lia.
    + intros r i Hr Hok. destruct r as [u k|k].
      * destruct Hok as (j & v & (_ & E & _)%Hv & Hin & _). congruence.
      * unfold int_at in Hr. by destruct (k <? 0).
    + split_and!; [done|done|]. by apply unlocked_gap.
  - by apply (Hall (fun c => c_master c = true -> mem_done (ord (c_pc c)) _)).
Qed.

Lemma least (l : list core) : l ≠ [] -> exists i c, l !! i = Some c /\ forall j c', l !! j = Some c' -> inc (c_pc c) <= inc (c_pc c').
Proof using Type.
  induction l as [|x l IH]; [done|]. intros _. destruct l as [|y l].
  - exists 0%nat, x. split; [done|]. by intros [|j] c' [= <-].
  - destruct IH as (i & c & Hi & Hc); [done|]. destruct (Z.le_gt_cases (inc (c_pc x)) (inc (c_pc c))).
    + exists 0%nat, x. split; [done|]. intros [|j] c'; [by intros [= <-]|]. intros Hj. specialize (Hc j c' Hj). lia.
    + exists (S i), c. split; [done|]. intros [|j] c'; [intros [= <-]; lia|]. apply Hc.
Qed.

(** The master has ended in the error exit of one of the initialisers of memory. *)
Definition master_stuck s : Prop := exists c, s_cores s !! mi = Some c /\
  (c_pc c = PMaster \/ c_pc c = PArch) /\ act c s = Some (Halt HError).

(** What the start relies on: a page pool in order, and interrupt controller addresses
    that can be mapped. *)
Record mem_ok : Prop := {
  mo_pool : pa_inv mem0.1 /\ bytes_ok mem0.2;
  mo_gicc : page_addr (gicc_addr dscrp) /\ gicc_addr dscrp + 2 * PAGE_SIZE <= 2 ^ 48;
  mo_gicv : page_addr gicv_addr /\ gicv_addr + 2 * PAGE_SIZE <= 2 ^ 48;
}.
Context (Hmem : mem_ok).

(** The master's initialisers stop only there. *)
Lemma master_halts s c h : inv s -> s_cores s !! mi = Some c -> c_pc c = PMaster \/ c_pc c = PArch -> act c s = Some (Halt h) -> h = HError.
Proof using Hteam Hmem.
  intros Hinv Hc Hp Ha. destruct Hmem as [[Hpi Hb] [Hg1 Hg2] [Hv1 Hv2]].
  pose proof (as_init_spec AS_VM vm_id_ mem0 Hpi Hb) as Has.
  pose proof (in_mem _ Hinv mi c Hc (proj2 (core_master s Hinv mi c Hc) eq_refl)) as Hm.
  destruct Hp as [Hp|Hp]; unfold VmInit.act in Ha; rewrite Hp in Ha, Hm; injection Ha as Ha; cbn in Hm.
  - rewrite (proj2 (core_master s Hinv mi c Hc) eq_refl) in Ha. unfold vm_master_init in Ha. cbn [s_mem set_tok on_vm set_irq] in Ha. rewrite Hm in Ha.
    destruct (as_init AS_VM vm_id_ 0 mem0) as [[sp ms]|h'] eqn:E; [done|]. unfold or_error in Has. by injection Ha as <-.
  - destruct Hm as (sp1 & ms1 & E1 & E2 & E3). rewrite E1 in Has. destruct Has as (T & Hs & Hlk & _). unfold vm_arch_init in Ha. destruct (_ =? _); [|done].
    rewrite E2, E3 in Ha. pose proof (vgic_init_or_error dscrp gicv_addr junk sp1 ms1 T (iw (as_core c (s_irq s))) Hs Hlk Hg1 Hg2 Hv1 Hv2) as Ho.
    destruct (vgic_init dscrp gicv_addr junk sp1 ms1 (iw (as_core c (s_irq s)))) as [[[sp2 ms2] w2]|h']; [done|]. unfold or_error in Ho. by injection Ha as <-.
Qed.

Lemma progress s : inv s -> (exists j c, s_cores s !! j = Some c /\ inc (c_pc c) <= 3) ->
  (exists i s', cstep arm_at_s12e1w vm_id_ cfg dtb shared_mem dscrp gicv_addr junk slot i s = Some s') \/ master_stuck s.
Proof using Hteam Hmem.
  intros Hinv (j0 & c0 & Hj0 & Hi0). pose proof Hinv as [I1 I2 I3 I4 I5 I6 I7].
  assert (forall i c, s_cores s !! i = Some c -> forall r, act c s = Some r -> (exists p, r = Ok p) \/ (i = mi /\ (c_pc c = PMaster \/ c_pc c = PArch)) ->
    (exists i s', cstep arm_at_s12e1w vm_id_ cfg dtb shared_mem dscrp gicv_addr junk slot i s = Some s') \/ master_stuck s) as Hact.
  { intros i c Hi r Hr Hok. destruct r as [[c' s']|h].
    - left. exists i. unfold cstep. rewrite Hi. cbn [mbind option_bind]. rewrite Hr. by eexists.
    - right. destruct Hok as [[p ?]|[-> Hp]]; [done|]. rewrite (master_halts s c h Hinv Hi Hp Hr) in Hr. by exists c. }
  destruct (Barrier.ready (s_tok s)) eqn:Hr.
  - destruct (least (s_cores s)) as (i & c & Hi & Hmin); [by destruct (s_cores s)|].
    assert (inc (c_pc c) <= 3) as Hinc by (specialize (Hmin j0 c0 Hj0); lia).
    assert (forall x, at_token c (s_tok s) = Some x -> act c s = None -> exists i s', cstep arm_at_s12e1w vm_id_ cfg dtb shared_mem dscrp gicv_addr junk slot i s = Some s') as Htok.
    { intros [c' t'] Ht Ha. exists i. unfold cstep. rewrite Hi. cbn [mbind option_bind]. rewrite Ha, Ht. by eexists. }
    destruct (c_pc c) as [| |b|b x| | | | |x| | |] eqn:Hpc; try (cbn in Hinc; lia).
    + eapply (Hact i c Hi); [unfold VmInit.act; by rewrite Hpc|]. destruct (c_master c) eqn:Hm.
      * right. split; [|by left]. by apply (core_master s Hinv i c Hi).
      * left. by eexists.
    + eapply (Hact i c Hi); [unfold VmInit.act; by rewrite Hpc|]. left. destruct (I5 i c Hi) as [HU _]; [by rewrite Hpc|].
      unfold vm_cpu_init_, vm_cpu_init. destruct (spin_lock_unlock _ HU) as (k & -> & _). by eexists.
    + left. eapply Htok; [unfold at_token; rewrite Hpc, Hr; done|unfold VmInit.act; by rewrite Hpc].
    + left. assert (Barrier.may_leave (s_tok s) x = true) as Hl.
      { pose proof (proj1 (Forall_forall _ _) (sy_exp _ _ I2) (c_pc c) (list_elem_of_lookup_2 _ _ _ (pc_lookup s i c Hi))) as He.
        rewrite Hpc in He. cbn [exp_ok] in He. unfold Barrier.may_leave. apply negb_true_iff, Z.ltb_ge. rewrite (sy_count _ _ I2), He.
        apply incs_ge. intros q (c' & -> & [j Hj]%list_elem_of_lookup)%list_elem_of_fmap. by apply (Hmin j). }
      eapply Htok; [unfold at_token; rewrite Hpc, Hl; done|unfold VmInit.act; by rewrite Hpc].
    + eapply (Hact i c Hi); [unfold VmInit.act; by rewrite Hpc|]. left.
      destruct (vcpu_init_run s i c Hinv Hi Hpc) as (mp & tt & V & q & -> & _). by eexists.
    + eapply (Hact i c Hi); [unfold VmInit.act; by rewrite Hpc|]. unfold vm_arch_init. destruct (Z.eqb_spec (master (s_vm s)) (c_id c)) as [Em|Hne].
      * right. split; [|by right]. destruct (lookup_lt_is_Some_2 (s_cores s) mi) as [mc Hmc]; [rewrite (cores_len s Hinv); apply Hteam|].
        apply (core_inj s Hinv i mi c mc Hi Hmc). rewrite <- Em. destruct (I5 i c Hi) as [_ HM]; [by rewrite Hpc|]. symmetry.
        pose proof (proj2 (core_master s Hinv mi mc Hmc) eq_refl) as Hmm. symmetry. apply (HM mi mc Hmc Hmm).
        pose proof (in_ready _ Hinv mi mc Hmc Hmm) as E1. rewrite Hr in E1. symmetry in E1. by apply Z.leb_le in E1.
      * left. by eexists.
    + left. eapply Htok; [unfold at_token; rewrite Hpc, Hr; done|unfold VmInit.act; by rewrite Hpc].
  - destruct (lookup_lt_is_Some_2 (s_cores s) mi) as [mc Hmc]; [rewrite (cores_len s Hinv); apply Hteam|].
    pose proof (proj2 (core_master s Hinv mi mc Hmc) eq_refl) as Hmm. pose proof (in_ready _ Hinv mi mc Hmc Hmm) as E1. rewrite Hr in E1. symmetry in E1.
    apply Z.leb_gt in E1. assert (c_pc mc = PMaster) as Hpc by (destruct (c_pc mc) as [| |[]|[]| | | | | | | |]; cbn in E1; lia || done).
    eapply (Hact mi mc Hmc); [unfold VmInit.act; by rewrite Hpc|]. right. split; [done|by left].
Qed.
End invariant.

(** ** The properties *)

(** A CPU's [vm_init] is past the last barrier. *)
Definition returned (c : core) : bool := match c_pc c with PReg | PDone => true | _ => false end.

(** C15: the CPUs of a VM bring it up together.  In every interleaving of the CPUs'
    [vm_init]s, however many messages they handle on the way, a CPU that is past
    the second barrier runs the virtual CPU whose number is its rank among the
    VM's CPUs, which points back to it and starts at the VM's entry; and when one
    of them returns, all of them have theirs, the numbers translate back to the
    CPUs, the virtual interrupt controller is well-formed with its locks free,
    and the address space and memory are what the master's initialisers made of
    them, each run once and in order. *)
Theorem vm_init_correct {H} `{GicHw H} {P} `{PageAllocator P} at_ vmid cfg dtb shared dscrp gicv junk fuel slot team mi
    g ms t tm num sp (pm : P * mem) l (s : vsys H P) :
  team_ok cfg junk team mi -> unlocked (gicd_lock g) ->
  rtc (step at_ vmid cfg dtb shared dscrp gicv junk fuel slot) (start team g ms t tm num sp pm l) s ->
  (forall j c, s_cores s !! j = Some c -> 5 <= ord (c_pc c) -> c_vcpu c = Some (rk team (c_id c)) /\
     exists v, vcpus (s_vm s) !! Z.to_nat (rk team (c_id c)) = Some v /\ vcpu_ready cfg (rk team (c_id c)) (c_id c) v) /\
  (forall j c, s_cores s !! j = Some c -> returned c = true ->
     (forall j' c', s_cores s !! j' = Some c' -> c_vcpu c' = Some (rk team (c_id c')) /\
        vm_translate_to_pcpuid (s_vm s) (rk team (c_id c')) = c_id c') /\
     wf (iw (s_irq s)) /\ all_free (iw (s_irq s)) /\
     exists sp1 ms1 (w w' : world H) sp2 ms2 (x x' : irqs H), as_init AS_VM vmid 0 pm = Ok (sp1, ms1) /\
       vgic_init dscrp gicv junk sp1 ms1 w = Ok (sp2, ms2, w') /\
       vm_init_memory (at_ (root (as_pt sp2))) cfg dtb shared sp2 ms2 x = Ok (s_as s, s_mem s, x')).
Proof.
  intros Ht Hg Hs. pose proof (start_inv at_ vmid cfg dtb shared dscrp gicv junk team mi Ht pm g ms t tm num sp l Hg) as H0'.
  pose proof (reach_inv _ _ _ _ _ _ _ _ _ _ _ _ Ht _ _ _ H0' Hs) as Hinv.
  assert (forall j c, s_cores s !! j = Some c -> 5 <= ord (c_pc c) -> c_vcpu c = Some (rk team (c_id c)) /\
     exists v, vcpus (s_vm s) !! Z.to_nat (rk team (c_id c)) = Some v /\ vcpu_ready cfg (rk team (c_id c)) (c_id c) v) as Hd.
  { intros j c Hj Ho. destruct (vm_done _ _ _ _ (in_vm _ _ _ _ _ _ _ _ _ _ _ Hinv) j (view_of c)) as [E1 E2].
    - by rewrite list_lookup_fmap, Hj.
    - by apply Z.leb_le.
    - unfold view_of in E1, E2. cbn [w_vc w_id] in E1, E2. by rewrite (proj2 (Z.leb_le 5 _) Ho) in E1. }
  split; [exact Hd|]. intros j c Hj Hr.
  assert (6 <= seen (c_pc c)) as Hseen by (unfold returned in Hr; by destruct (c_pc c)).
  assert (forall j' c', s_cores s !! j' = Some c' -> 17 <= ord (c_pc c')) as Hall.
  { intros j' c' Hj'. pose proof (all_inc _ _ _ _ _ _ _ _ _ _ s Hinv j c Hj j' c' Hj').
    assert (6 <= inc (c_pc c')) as Hi by lia. by destruct (c_pc c') as [| |[]|[]| | | | | | | |]. }
  assert (Barrier.ready (s_tok s) = true) as Hrd.
  { apply (inc_ready _ _ _ _ _ _ _ _ _ _ s Hinv j c Hj). unfold seen in Hseen. destruct (waiting _); lia. }
  split.
  - intros j' c' Hj'. destruct (Hd j' c' Hj') as (E1 & v & Hv & [R1 R2 _ _]); [specialize (Hall j' c' Hj'); lia|]. split; [done|].
    unfold vm_translate_to_pcpuid, vm_get_vcpu. rewrite (in_nr _ _ _ _ _ _ _ _ _ _ _ Hinv Hrd).
    pose proof (rk_core _ _ _ _ _ _ _ _ _ _ Ht _ s Hinv j' c' Hj'). rewrite (proj2 (Z.ltb_lt _ _)) by lia. by rewrite Hv.
  - destruct (all_good _ _ _ _ _ _ _ _ _ _ Ht _ s j c Hinv Hj ltac:(lia)) as [Hw Hf]. split; [done|]. split; [done|].
    destruct (lookup_lt_is_Some_2 (s_cores s) mi) as [mc Hmc]; [rewrite (cores_len _ _ _ _ _ _ _ _ _ _ s Hinv); apply Ht|].
    pose proof (in_mem _ _ _ _ _ _ _ _ _ _ _ Hinv mi mc Hmc (proj2 (core_master _ _ _ _ _ _ _ _ _ _ Ht _ s Hinv mi mc Hmc) eq_refl)) as Hm.
    unfold mem_done in Hm. specialize (Hall mi mc Hmc). rewrite (proj2 (Z.ltb_ge (ord (c_pc mc)) 1)), (proj2 (Z.ltb_ge (ord (c_pc mc)) 8)), (proj2 (Z.ltb_ge (ord (c_pc mc)) 16)) in Hm by lia.
    destruct Hm as (sp1 & ms1 & E1 & w & w' & sp2 & ms2 & E2 & x & x' & E3). by exists sp1, ms1, w, w', sp2, ms2, x, x'.
Qed.

(** C16: and they get there.  With a page pool in order and interrupt controller
    addresses that can be mapped, as long as a CPU has not got through the first
    barrier of [cpu_sync_and_clear_msgs], either some CPU can make a step or the
    master has ended in the error exit of [as_init] or [vgic_init]; no other
    fault, and no barrier, keeps the CPUs. *)
Theorem vm_init_progress {H} `{GicHw H} {P} `{PageAllocator P} at_ vmid cfg dtb shared dscrp gicv junk fuel slot team mi
    g ms t tm num sp (pm : P * mem) l (s : vsys H P) j c :
  team_ok cfg junk team mi -> mem_ok dscrp gicv pm -> unlocked (gicd_lock g) ->
  rtc (step at_ vmid cfg dtb shared dscrp gicv junk fuel slot) (start team g ms t tm num sp pm l) s ->
  s_cores s !! j = Some c -> inc (c_pc c) <= 3 ->
  (exists i s', cstep at_ vmid cfg dtb shared dscrp gicv junk slot i s = Some s') \/
  master_stuck at_ vmid cfg dtb shared dscrp gicv junk slot mi s.
Proof.
  intros Ht Hm Hg Hs Hj Hc. pose proof (start_inv at_ vmid cfg dtb shared dscrp gicv junk team mi Ht pm g ms t tm num sp l Hg) as H0'.
  pose proof (reach_inv _ _ _ _ _ _ _ _ _ _ _ _ Ht _ _ _ H0' Hs) as Hinv.
  apply (progress at_ vmid cfg dtb shared dscrp gicv junk slot team mi Ht pm Hm s Hinv). by exists j, c.
Qed.

(** *** CPUs 0 and 2 bring up a VM, taking turns *)

Definition two_cpus : list (Z * bool) := [(0, true); (2, false)].
Definition two_cfg : vm_config :=
  VmConfig 0x1FF000 0x1000 100 0x1FF000 4096 2 [VmDevRegion 1 0x1C0B0000 0x1C090000 0x10000 []] (RqConfigVm 0 0).
Definition two_dscrp : vgic_dscrp := VgicDscrp 0x2f000000 0x2c000000 0 0.
Definition empty_list : vmlist := VmList SPINLOCK_INITVAL {[VmHead := Link (Some VmHead) (Some VmHead)]}.

Definition two_start : vsys regfile page_pool :=
  start two_cpus demo_gic Msg.demo_sys no_handlers no_timer 4 vm_space two_state empty_list.

Definition two_step (i : nat) (s : vsys regfile page_pool) : option (vsys regfile page_pool) :=
  cstep walk_at 1 two_cfg demo_dtb 0 two_dscrp 0x2c020000 (fun _ => blank) 0 i s.

(** Steps that cannot be made are skipped. *)
Fixpoint two_run (l : list nat) (s : vsys regfile page_pool) : vsys regfile page_pool :=
  match l with
  | [] => s
  | i :: l => two_run l (match two_step i s with Some s' => s' | None => s end)
  end.

Fixpoint turns (n : nat) : list nat := match n with O => [] | S n => 0%nat :: 1%nat :: turns n end.

Lemma two_run_steps l s :
  rtc (step walk_at 1 two_cfg demo_dtb 0 two_dscrp 0x2c020000 (fun _ => blank) 10 0) s (two_run l s).
Proof.
  revert s. induction l as [|i l IH]; intros s; [apply rtc_refl|]. cbn [two_run]. destruct (two_step i s) as [s'|] eqn:E; [|apply IH].
  eapply rtc_l; [|apply IH]. by apply (step_cpu _ _ _ _ _ _ _ _ _ _ _ _ i).
Qed.

Lemma two_team_ok : team_ok two_cfg (fun _ => blank) two_cpus 0.
Proof.
  split; try done.
  - apply (bool_decide_unpack _). by vm_compute.
  - apply (bool_decide_unpack _). by vm_compute.
  - intros [|[|j]] p [= <-]; cbn; (split; [done|lia] || split; lia || done).
  - simpl. lia.
Qed.

Lemma vm_init_correct_witness :
  forallb returned (s_cores (two_run (turns 19) two_start)) = true /\
  wf (iw (s_irq (two_run (turns 19) two_start))) /\ all_free (iw (s_irq (two_run (turns 19) two_start))).
Proof.
  assert (forallb returned (s_cores (two_run (turns 19) two_start)) = true) as Hr by (by vm_compute).
  pose proof (two_run_steps (turns 19) two_start) as Hs.
  destruct (vm_init_correct walk_at 1 two_cfg demo_dtb 0 two_dscrp 0x2c020000 (fun _ => blank) 10 0 two_cpus 0
    demo_gic Msg.demo_sys no_handlers no_timer 4 vm_space two_state empty_list _ two_team_ok demo_gic_unlocked Hs) as [_ Hd].
  assert (match s_cores (two_run (turns 19) two_start) with [] => false | _ :: _ => true end = true) as Hne by (by vm_compute).
  split; [exact Hr|]. destruct (s_cores (two_run (turns 19) two_start)) as [|c l]; [discriminate Hne|].
  cbn [forallb] in Hr. apply andb_true_iff in Hr as [Hc _].
  destruct (Hd 0%nat c eq_refl Hc) as (_ & Hw & Hf & _). split; [exact Hw|exact Hf].
Defined.

(** Nine turns in, CPU 0 waits at the second barrier and CPU 2 is on its way there. *)
Lemma two_mem_ok : mem_ok two_dscrp 0x2c020000 two_state.
Proof. split; [split; [exact (sw_inv _ _ _ (two_state_wf 0x50010000 (or_introl eq_refl)))|done]|..].
  - split; [split; [vm_compute; split; congruence|done]|vm_compute; congruence].
  - split; [split; [vm_compute; split; congruence|done]|vm_compute; congruence].
Qed.

Definition waits_b2 (c : core) : bool := match c_pc c with PSpin B2 _ => true | _ => false end.

Lemma vm_init_progress_witness :
  let s := two_run ([0; 1; 0; 1; 0; 1; 0; 1; 0; 0])%nat two_start in
  existsb waits_b2 (s_cores s) = true /\
  ((exists i s', two_step i s = Some s') \/
   master_stuck walk_at 1 two_cfg demo_dtb 0 two_dscrp 0x2c020000 (fun _ => blank) 0 0 s).
Proof.
  intros s. assert (existsb waits_b2 (s_cores s) = true) as Hw by (by vm_compute). split; [exact Hw|].
  pose proof (two_run_steps ([0; 1; 0; 1; 0; 1; 0; 1; 0; 0])%nat two_start) as Hs. fold s in Hs. clearbody s.
  apply existsb_exists in Hw as (c & [j Hj]%list_elem_of_In%list_elem_of_lookup & Hc).
  apply (vm_init_progress walk_at 1 two_cfg demo_dtb 0 two_dscrp 0x2c020000 (fun _ => blank) 10 0 two_cpus 0
    demo_gic Msg.demo_sys no_handlers no_timer 4 vm_space two_state empty_list s j c
    two_team_ok two_mem_ok demo_gic_unlocked Hs Hj).
  unfold waits_b2 in Hc. by destruct (c_pc c) as [| | |[]| | | | | | | |].
Defined.
