(* ===== verification/Printk.v ===== *)
(** Printing: [lib/printk.c], [core/console.c] and [arch/aarch64/uart.c].

    Characters are bytes ([char] is unsigned on AArch64), a string is the list of
    its bytes before the NUL.  A variable argument is a 64-bit slot or a string;
    reading one that is not there faults.  The output is what the serial port's
    data register was sent. *)

From S2P Require Import Prelude Bit Spinlock.

(** ** [vsprintk] *)

Definition PRINT_TEXT_LEN : Z := 0x100.

Inductive arg := ANum (v : Z) | AStr (s : list Z).

Definition chr_percent : Z := 37.
Definition chr_nl : Z := 10.
Definition chr_cr : Z := 13.
Definition chr_tab : Z := 9.

(** [strnlen(s, n)]. *)
Definition str_nlen (s : list Z) (n : Z) : Z := Z.min (Z.of_nat (length s)) n.

(** [va_arg(args, T)] for an integer type, after the conversion [conv] to it. *)
Definition va_num (conv : Z -> Z) (args : list arg) : outcome (Z * list arg) :=
  match args with
  | ANum v :: args => Ok (conv v, args)
  | _ => Halt HFault
  end.

(** *** [%x] *)

Definition hex_digit (byte : Z) : Z := u8 (if byte <=? 9 then byte + 0x30 else byte + (0x61 - 0xa)).

(** The loop over the digits, from digit [i] on. *)
Fixpoint hex_loop (n : nat) (length length_in_bits i number : Z) (zero_padding keep_zeros : bool) : list Z :=
  match n with
  | O => []
  | S n =>
      let byte := Z.land (u8 (Z.shiftr number (length_in_bits - (i + 1) * 4))) 0xF in
      let keep_zeros := keep_zeros || negb (byte =? 0) || (i =? length - 1) in
      (if keep_zeros || zero_padding then [hex_digit byte] else []) ++
      hex_loop n length length_in_bits (i + 1) number zero_padding keep_zeros
  end.

Definition print_hex (is_long zero_padding : bool) (number : Z) : list Z :=
  let length := if is_long then 16 else 8 in
  let length_in_bits := if is_long then 64 else 32 in
  hex_loop (Z.to_nat length) length length_in_bits 0 number zero_padding false.

(** *** [%u], [%i], [%d] *)

(** [while (number >= divisor) { number -= divisor; ++sw_quotient_value; }] *)
Fixpoint sub_loop (fuel : nat) (number divisor q : Z) : outcome (Z * Z) :=
  match fuel with
  | O => Halt HFuel
  | S fuel => if divisor <=? number then sub_loop fuel (number - divisor) divisor (u64 (q + 1)) else Ok (number, q)
  end.

(** [while (j < max_num_zeros - 1) { new_div_val *= 10; j++; }] *)
Fixpoint new_div (n : nat) (new_div_val : Z) : Z :=
  match n with O => new_div_val | S n => new_div n (u64 (new_div_val * 10)) end.

Definition max_num_zeros : Z := 9.

Fixpoint dec_loop (n : nat) (i number divisor : Z) (zero_padding keep_zeros : bool) : outcome (list Z * Z) :=
  match n with
  | O => Ok ([], number)
  | S n =>
      '(number, q) ← sub_loop (S (Z.to_nat (number / divisor))) number divisor 0;
      let keep_zeros := keep_zeros || negb (q =? 0) in
      let out := if keep_zeros || zero_padding then [u8 (q + 0x30)] else [] in
      let divisor := new_div (Z.to_nat (max_num_zeros - 1 - i)) 1 in
      '(rest, number) ← dec_loop n (i + 1) number divisor zero_padding keep_zeros;
      Ok (out ++ rest, number)
  end.

Definition print_dec (zero_padding : bool) (number : Z) : outcome (list Z) :=
  '(out, number) ← dec_loop (Z.to_nat max_num_zeros) 0 number 1000000000 zero_padding false;
  Ok (out ++ [u8 (number + 0x30)]).

Definition print_signed (zero_padding : bool) (number_signed : Z) : outcome (list Z) :=
  if number_signed <? 0 then
    l ← print_dec zero_padding (u64 (- number_signed)); Ok (0x2d :: l)
  else print_dec zero_padding number_signed.

(** *** [%s] *)

(** The loop copies a character and goes on while it is not the NUL and [len] is
    below [PRINT_TEXT_LEN]. *)
Fixpoint copy_arg (s : list Z) (len : Z) : list Z * Z :=
  match s with
  | [] => ([], len)
  | c :: s => if len <? PRINT_TEXT_LEN then let '(o, len) := copy_arg s (len + 1) in (c :: o, len) else ([], len)
  end.

(** *** The switch *)

Definition convert (zero_padding is_long : bool) (c len : Z) (args : list arg) : outcome (list Z * Z * list arg) :=
  if c =? 120 (* x *) then
    '(number, args) ← va_num (if is_long then u64 else u32) args;
    Ok (print_hex is_long zero_padding number, len, args)
  else if c =? 117 (* u *) then
    '(number, args) ← va_num (if is_long then u64 else u32) args;
    l ← print_dec zero_padding number;
    Ok (l, len, args)
  else if (c =? 105) || (c =? 100) (* i, d *) then
    '(number, args) ← va_num (if is_long then i64 else i32) args;
    l ← print_signed zero_padding number;
    Ok (l, len, args)
  else if c =? 115 (* s *) then
    match args with
    | AStr s :: args => let '(o, len) := copy_arg s len in Ok (o, len, args)
    | _ => Halt HFault
    end
  else if c =? 99 (* c *) then
    '(ch, args) ← va_num u8 args;
    Ok ([ch], len, args)
  else if c =? chr_percent then Ok ([c], len, args)
  else if c =? chr_tab then Ok ([chr_percent; c], len, args)
  else if c =? chr_nl then Ok ([chr_percent; chr_cr; chr_nl], len, args)
  else Ok ([], len, args).

(** The two tests after the conversion. *)
Definition trailer (c : Z) : list Z :=
  if c =? chr_nl then [chr_cr; chr_nl] else if c =? chr_tab then [c] else [].

(** A format that ends inside a conversion: the pointer steps over the NUL and
    the loop reads what lies behind the string. *)
Fixpoint format (fmt : list Z) (len : Z) (args : list arg) : outcome (list Z) :=
  match fmt with
  | [] => Ok []
  | c :: f0 =>
      if c =? chr_percent then
        match f0 with
        | [] => Halt HFault
        | c1 :: f1 =>
            if c1 =? 48 (* 0 *) then
              match f1 with
              | [] => Halt HFault
              | c2 :: f2 =>
                  if c2 =? 108 (* l *) then
                    match f2 with
                    | [] => Halt HFault
                    | c3 :: f3 =>
                        '(o, len, args) ← convert true true c3 len args;
                        rest ← format f3 len args; Ok (o ++ trailer c3 ++ rest)
                    end
                  else
                    '(o, len, args) ← convert true false c2 len args;
                    rest ← format f2 len args; Ok (o ++ trailer c2 ++ rest)
              end
            else if c1 =? 108 then
              match f1 with
              | [] => Halt HFault
              | c2 :: f2 =>
                  '(o, len, args) ← convert false true c2 len args;
                  rest ← format f2 len args; Ok (o ++ trailer c2 ++ rest)
              end
            else
              '(o, len, args) ← convert false false c1 len args;
              rest ← format f1 len args; Ok (o ++ trailer c1 ++ rest)
        end
      else if (c =? chr_nl) || (c =? chr_tab) then
        rest ← format f0 len args; Ok (trailer c ++ rest)
      else
        rest ← format f0 len args; Ok (c :: rest)
  end.

(** The text with its NUL, and the result: the length of what is left of the
    format. *)
Definition vsprintk (fmt : list Z) (args : list arg) : outcome (list Z * Z) :=
  out ← format fmt (str_nlen fmt PRINT_TEXT_LEN) args;
  Ok (out ++ [0], str_nlen [] PRINT_TEXT_LEN).

(** ** The console *)

Record console := Console { con_lock : spinlock_t; uart : list Z }.

Definition uart_print_char (c : Z) (u : list Z) : list Z := u ++ [u32 c].

(** [do uart_print_char(s[i++]) while (s[i] != 0)]: [s] is the array the string
    is in; reading behind it faults. *)
Fixpoint print_from (s : list Z) (u : list Z) : outcome (list Z) :=
  match s with
  | [] => Halt HFault
  | c :: s =>
      let u := uart_print_char c u in
      match s with
      | [] => Halt HFault
      | c' :: _ => if c' =? 0 then Ok u else print_from s u
      end
  end.

Definition uart_print_string (s : list Z) (u : list Z) : outcome (list Z) := print_from s u.

Definition hexdigits : list Z := [48; 49; 50; 51; 52; 53; 54; 55; 56; 57; 65; 66; 67; 68; 69; 70].

(** [for (i = 60; i >= 0; i -= 4)]. *)
Fixpoint uart_hex_from (n : nat) (i v : Z) (u : list Z) : outcome (list Z) :=
  match n with
  | O => Ok u
  | S n => c ← rd hexdigits (Z.land (Z.shiftr v i) 0xf); uart_hex_from n (i - 4) v (uart_print_char c u)
  end.

Definition uart_print_hex (v : Z) (u : list Z) : outcome (list Z) := uart_hex_from 16 60 v u.

Definition console_write (str : list Z) (k : console) : outcome console :=
  l ← spin_lock (con_lock k);
  u ← uart_print_string str (uart k);
  Ok (Console (spin_unlock l) u).

(** The text goes to an array of [PRINT_TEXT_LEN] bytes on the stack. *)
Definition printk (fmt : list Z) (args : list arg) (k : console) : outcome (Z * console) :=
  '(buf, i) ← vsprintk fmt args;
  if PRINT_TEXT_LEN <? Z.of_nat (length buf) then Halt HFault else
  k ← console_write buf k;
  Ok (i, k).

(** *** [uart.c]: the rest *)

Definition STR_REG : list Z := [82; 69; 71; 58; 0].
Definition STR_EQ : list Z := [61; 0].

Definition uart_print_register (s : list Z) (n : Z) (u : list Z) : outcome (list Z) :=
  u ← uart_print_string STR_REG u;
  u ← print_from s u;
  u ← uart_print_string STR_EQ u;
  uart_print_hex n u.

Definition uart_print_register_colon (s : list Z) (n : Z) (s1 : list Z) (n1 : Z) (u : list Z) : outcome (list Z) :=
  u ← uart_print_register s n u;
  let u := uart_print_char 32 u in
  u ← uart_print_register s1 n1 u;
  Ok (uart_print_char chr_nl u).

(** The device's registers that the driver uses; [u_out] is what was written to
    [DR]. *)
Record pl011 := Pl011 { u_CR : Z; u_LCRH : Z; u_IMSC : Z; u_ICR : Z; u_MIS : Z; u_DR : Z; u_out : list Z }.

Definition RX_INTERRUPT : Z := Z.shiftl 1 4.
Definition BE_INTERRUPT : Z := Z.shiftl 1 9.
Definition LCRH_FEN : Z := Z.shiftl 1 4.
Definition CR_UARTEN : Z := Z.shiftl 1 0.
Definition IMSC_RXIM : Z := Z.shiftl 1 4.
Definition DR_DATA_MASK : Z := 0xFF.

Definition uart_enable_interrupts (u : pl011) : pl011 :=
  Pl011 (Z.lor (Z.land (u_CR u) (not32 CR_UARTEN)) CR_UARTEN) (Z.lor (u_LCRH u) LCRH_FEN)
    (Z.lor (u_IMSC u) IMSC_RXIM) BE_INTERRUPT (u_MIS u) (u_DR u) (u_out u).

Definition uart_handler (u : pl011) : pl011 :=
  if negb (Z.land (u_MIS u) RX_INTERRUPT =? 0) then
    let c := u8 (Z.land (u_DR u) DR_DATA_MASK) in
    Pl011 (u_CR u) (u_LCRH u) (u_IMSC u) (u_ICR u) (u_MIS u) (u_DR u)
      (uart_print_char chr_nl (uart_print_char c (u_out u)))
  else u.

(** ** Numerals *)

(** The lowest [w] digits of [n] in base [b], the highest first. *)
Fixpoint numeral (b : Z) (w : nat) (n : Z) : list Z :=
  match w with O => [] | S w => (n / b ^ Z.of_nat w) mod b :: numeral b w n end.

(** Without leading zeros, but for the last digit. *)
Fixpoint strip (l : list Z) : list Z :=
  match l with
  | [] => []
  | d :: l' => match l' with [] => l | _ :: _ => if d =? 0 then strip l' else l end
  end.

Definition value (b : Z) (l : list Z) : Z := foldl (fun acc d => acc * b + d) 0 l.

Definition digits (b : Z) (w : nat) (zero_padding : bool) (n : Z) : list Z :=
  if zero_padding then numeral b w n else strip (numeral b w n).

(** The digit a character stands for. *)
Definition digit_val (c : Z) : Z := if c <=? 57 then c - 48 else c - 87.

Lemma strip_cons d l : l ≠ [] -> strip (d :: l) = if d =? 0 then strip l else d :: l.
Proof. intros Hl. by destruct l as [|e l]. Qed.

Lemma numeral_digits b w n : 0 < b -> Forall (fun d => 0 <= d < b) (numeral b w n).
Proof. intros Hb. induction w as [|w IH]; constructor; [|done]. by apply Z.mod_pos_bound. Qed.

Lemma numeral_length b w n : length (numeral b w n) = w.
Proof. induction w as [|w IH]; [done|]. simpl. by rewrite IH. Qed.

Lemma strip_Forall (Q : Z -> Prop) l : Forall Q l -> Forall Q (strip l).
Proof.
  induction 1 as [|d l Hd Hl IH]; [constructor|]. destruct l as [|e l]; [by destruct d; constructor|].
  rewrite strip_cons by done. destruct (d =? 0); [done|]. by constructor.
Qed.

Lemma foldl_value b l a : foldl (fun acc d => acc * b + d) a l = a * b ^ Z.of_nat (length l) + value b l.
Proof.
  unfold value. revert a. induction l as [|d l IH]; intros a; [simpl; lia|]. cbn [foldl length].
  rewrite IH, (IH (0 * b + d)), Nat2Z.inj_succ, Z.pow_succ_r by lia. ring.
Qed.

Lemma value_cons b d l : value b (d :: l) = d * b ^ Z.of_nat (length l) + value b l.
Proof. unfold value at 1. cbn [foldl]. by rewrite foldl_value. Qed.

Lemma value_strip b l : value b (strip l) = value b l.
Proof.
  induction l as [|d l IH]; [done|]. destruct l as [|e l]; [by destruct d|]. rewrite strip_cons by done.
  destruct (Z.eqb_spec d 0) as [->|]; [|done]. by rewrite IH, (value_cons b 0).
Qed.

Lemma value_numeral b w n : 1 < b -> value b (numeral b w n) = n mod b ^ Z.of_nat w.
Proof.
  intros Hb. induction w as [|w IH]; [cbn; by rewrite Z.mod_1_r|]. cbn [numeral]. rewrite value_cons, IH, numeral_length.
  rewrite Nat2Z.inj_succ, Z.pow_succ_r by lia. assert (0 < b ^ Z.of_nat w) by (apply Z.pow_pos_nonneg; lia).
  rewrite (Z.mul_comm b). rewrite Z.rem_mul_r by lia. ring.
Qed.

Lemma numeral_mod b w n : 1 < b -> numeral b w (n mod b ^ Z.of_nat w) = numeral b w n.
Proof.
  intros Hb. assert (forall k, (k <= w)%nat -> numeral b k (n mod b ^ Z.of_nat w) = numeral b k n) as Hk; [|by apply Hk].
  induction k as [|k IH]; intros Hle; [done|]. cbn [numeral]. rewrite IH by lia. f_equal.
  assert (0 < b ^ Z.of_nat k) by (apply Z.pow_pos_nonneg; lia).
  assert (b ^ Z.of_nat w = b ^ Z.of_nat k * (b * b ^ (Z.of_nat w - Z.of_nat k - 1))) as ->.
  { rewrite <- Z.pow_succ_r by lia. rewrite <- Z.pow_add_r by lia. f_equal. lia. }
  set (q := b ^ (Z.of_nat w - Z.of_nat k - 1)). assert (0 < q) by (apply Z.pow_pos_nonneg; lia).
  rewrite Z.rem_mul_r by nia. rewrite Z.mul_comm, Z.div_add by lia. rewrite Z.div_small by (by apply Z.mod_pos_bound).
  rewrite Z.add_0_l, Z.rem_mul_r by lia. rewrite Z.mul_comm, Z.mod_add by lia. by rewrite Zmod_mod.
Qed.

(** ** The code's digits *)

Lemma hex_digit_small d : 0 <= d < 10 -> u8 (d + 0x30) = hex_digit d.
Proof. intros Hd. unfold hex_digit. by rewrite (proj2 (Z.leb_le d 9)) by lia. Qed.

Lemma digit_val_hex d : 0 <= d < 16 -> digit_val (hex_digit d) = d.
Proof.
  intros Hd. unfold hex_digit, digit_val, u8. destruct (Z.leb_spec d 9); rewrite Z.mod_small by lia.
  - destruct (Z.leb_spec (d + 48) 57); lia.
  - destruct (Z.leb_spec (d + (97 - 10)) 57); lia.
Qed.

Lemma hex_loop_spec n L number zp keep : (n <= L)%nat -> 0 <= number ->
  hex_loop n (Z.of_nat L) (4 * Z.of_nat L) (Z.of_nat L - Z.of_nat n) number zp keep =
  hex_digit <$> digits 16 n (zp || keep) number.
Proof.
  revert keep. induction n as [|n IH]; intros keep Hn Hnum.
  - unfold digits. by destruct (zp || keep).
  - cbn [hex_loop]. set (d := (number / 16 ^ Z.of_nat n) mod 16).
    assert (Z.land (u8 (Z.shiftr number (4 * Z.of_nat L - (Z.of_nat L - Z.of_nat (S n) + 1) * 4))) 0xF = d) as ->.
    { change 0xF with (Z.ones 4). rewrite Z.land_ones by lia. unfold u8. change (2 ^ 8) with (2 ^ 4 * 2 ^ 4). rewrite Z.rem_mul_r by lia.
      rewrite (Z.mul_comm (2 ^ 4) (_ mod _)), Z.mod_add, Zmod_mod by lia. rewrite Z.shiftr_div_pow2 by lia.
      unfold d. replace (16 ^ Z.of_nat n) with (2 ^ (4 * Z.of_nat n)) by (rewrite Z.pow_mul_r by lia; reflexivity).
      change (2 ^ 4) with 16. do 3 f_equal. lia. }
    replace (Z.of_nat L - Z.of_nat (S n) + 1) with (Z.of_nat L - Z.of_nat n) by lia. rewrite IH by lia.
    assert ((Z.of_nat L - Z.of_nat (S n) =? Z.of_nat L - 1) = (n =? 0)%nat) as ->.
    { destruct (Z.eqb_spec (Z.of_nat L - Z.of_nat (S n)) (Z.of_nat L - 1)), (Nat.eqb_spec n 0); try done; lia. }
    unfold digits. cbn [numeral]. fold d.
    destruct zp; [by rewrite orb_true_r|]. destruct keep; [done|]. cbn [orb].
    destruct n as [|n]; [by cbn; rewrite orb_true_r|]. rewrite orb_false_r, strip_cons by done.
    destruct (d =? 0); done.
Qed.

Lemma print_hex_spec il zp n : 0 <= n -> print_hex il zp n = hex_digit <$> digits 16 (if il then 16 else 8) zp n.
Proof.
  intros Hn. unfold print_hex. destruct il.
  - rewrite <- (orb_false_r zp) at 2. by rewrite <- (hex_loop_spec 16 16 n zp false) by (lia || done).
  - rewrite <- (orb_false_r zp) at 2. by rewrite <- (hex_loop_spec 8 8 n zp false) by (lia || done).
Qed.

Lemma sub_loop_spec fuel n d q : 0 < d -> 0 <= n -> (Z.to_nat (n / d) < fuel)%nat -> 0 <= q -> q + n / d < 2 ^ 64 ->
  sub_loop fuel n d q = Ok (n mod d, q + n / d).
Proof.
  intros Hd. revert n q. induction fuel as [|fuel IH]; intros n q Hn Hf Hq Hb; [lia|]. cbn [sub_loop].
  destruct (Z.leb_spec d n).
  - assert ((n - d) / d = n / d - 1) as E by (replace (n - d) with (n + -1 * d) by lia; rewrite Z.div_add by lia; lia).
    assert (0 < n / d) by (apply Z.div_str_pos; lia).
    rewrite IH; rewrite ?E; try lia; [|rewrite u64_small by lia; lia..].
    rewrite u64_small by lia. f_equal. f_equal; [|lia]. replace (n - d) with (n + -1 * d) by lia. by apply Z.mod_add; lia.
  - rewrite Z.div_small, Z.mod_small by lia. f_equal. f_equal. lia.
Qed.

Lemma new_div_spec n a : 0 <= a -> a * 10 ^ Z.of_nat n < 2 ^ 64 -> new_div n a = a * 10 ^ Z.of_nat n.
Proof.
  revert a. induction n as [|n IH]; intros a Ha Hb; [cbn; lia|]. cbn [new_div]. rewrite Nat2Z.inj_succ, Z.pow_succ_r in * by lia.
  assert (0 < 10 ^ Z.of_nat n) by (apply Z.pow_pos_nonneg; lia). rewrite u64_small by nia. rewrite IH by nia. ring.
Qed.

Lemma dec_loop_spec n number zp keep : (n <= 9)%nat -> 0 <= number < 10 ^ (Z.of_nat n + 1) ->
  exists out, dec_loop n (9 - Z.of_nat n) number (10 ^ Z.of_nat n) zp keep = Ok (out, number mod 10) /\
    out ++ [u8 (number mod 10 + 0x30)] = hex_digit <$> digits 10 (S n) (zp || keep) number.
Proof.
  revert number keep. induction n as [|n IH]; intros number keep Hn Hnum.
  - exists []. cbn in Hnum. change (10 ^ (0 + 1)) with 10 in Hnum. rewrite Z.mod_small by lia. split; [done|]. unfold digits. cbn.
    rewrite Z.div_1_r, Z.mod_small by lia. rewrite hex_digit_small by lia. destruct (zp || keep); [done|]. by destruct number.
  - cbn [dec_loop]. set (D := 10 ^ Z.of_nat (S n)). assert (0 < D) by (apply Z.pow_pos_nonneg; lia).
    assert (D * 10 = 10 ^ (Z.of_nat (S n) + 1)) as HD by (unfold D; rewrite Z.pow_add_r by lia; lia).
    assert (0 <= number / D < 10) as Hq by (split; [apply Z.div_pos; lia|apply Z.div_lt_upper_bound; lia]).
    rewrite (sub_loop_spec _ number D 0) by lia. mstep. rewrite Z.add_0_l. set (q := number / D) in *.
    replace (9 - Z.of_nat (S n) + 1) with (9 - Z.of_nat n) by lia.
    rewrite new_div_spec; [|lia|].
    2:{ assert (10 ^ Z.of_nat (Z.to_nat (max_num_zeros - 1 - (9 - Z.of_nat (S n)))) <= 10 ^ 9) by (apply Z.pow_le_mono_r; unfold max_num_zeros; lia). lia. }
    replace (Z.of_nat (Z.to_nat (max_num_zeros - 1 - (9 - Z.of_nat (S n))))) with (Z.of_nat n) by (unfold max_num_zeros; lia).
    rewrite Z.mul_1_l. destruct (IH (number mod D) (keep || negb (q =? 0))) as (out & E & Ho); [lia| |].
    { pose proof (Z.mod_pos_bound number D). replace (10 ^ (Z.of_nat n + 1)) with D by (unfold D; f_equal; lia). lia. }
    rewrite E. mstep. assert (number mod D mod 10 = number mod 10) as Em.
    { unfold D. rewrite Nat2Z.inj_succ, Z.pow_succ_r by lia. assert (0 < 10 ^ Z.of_nat n) by (apply Z.pow_pos_nonneg; lia).
      rewrite Z.rem_mul_r by lia. rewrite Z.mul_comm, Z.mod_add by lia. apply Zmod_mod. }
    rewrite Em in *. eexists. split; [reflexivity|]. rewrite <- app_assoc, Ho.
    assert (digits 10 (S n) (zp || (keep || negb (q =? 0))) (number mod D) = digits 10 (S n) (zp || (keep || negb (q =? 0))) number) as ->
      by (unfold digits, D; by rewrite numeral_mod by lia).
    assert (numeral 10 (S (S n)) number = q :: numeral 10 (S n) number) as En.
    { change (numeral 10 (S (S n)) number) with ((number / D) mod 10 :: numeral 10 (S n) number). f_equal. apply Z.mod_small. exact Hq. }
    unfold digits. rewrite En, strip_cons by done. rewrite hex_digit_small by lia.
    destruct zp, keep, (q =? 0); done.
Qed.

Lemma print_dec_spec zp n : 0 <= n < 10 ^ 10 -> print_dec zp n = Ok (hex_digit <$> digits 10 10 zp n).
Proof.
  intros Hn. unfold print_dec. destruct (dec_loop_spec 9 n zp false) as (out & E & Ho); [lia|exact Hn|].
  change (Z.to_nat max_num_zeros) with 9%nat. change (9 - Z.of_nat 9) with 0 in E. change (10 ^ Z.of_nat 9) with 1000000000 in E.
  rewrite E. mstep. by rewrite Ho, orb_false_r.
Qed.

(** ** What a format means *)

(** A format as its author reads it: text and conversions, each with its
    argument. *)
Inductive directive :=
| DChar (c : Z)
| DNewline
| DTab
| DHex (zero_padding is_long : bool) (v : Z)
| DUnsigned (zero_padding is_long : bool) (v : Z)
| DInt (zero_padding is_long : bool) (v : Z)
| DStr (s : list Z)
| DChr (c : Z)
| DPercent.

Definition flags (zero_padding is_long : bool) : list Z :=
  (if zero_padding then [48] else []) ++ (if is_long then [108] else []).

Definition fmt_of (d : directive) : list Z :=
  match d with
  | DChar c => [c]
  | DNewline => [chr_nl]
  | DTab => [chr_tab]
  | DHex zp il _ => chr_percent :: flags zp il ++ [120]
  | DUnsigned zp il _ => chr_percent :: flags zp il ++ [117]
  | DInt zp il _ => chr_percent :: flags zp il ++ [100]
  | DStr _ => [chr_percent; 115]
  | DChr _ => [chr_percent; 99]
  | DPercent => [chr_percent; chr_percent]
  end.

Definition args_of (d : directive) : list arg :=
  match d with
  | DHex _ _ v | DUnsigned _ _ v | DInt _ _ v => [ANum v]
  | DStr s => [AStr s]
  | DChr c => [ANum c]
  | _ => []
  end.

Definition unsigned_of (is_long : bool) (v : Z) : Z := if is_long then u64 v else u32 v.
Definition signed_of (is_long : bool) (v : Z) : Z := if is_long then i64 v else i32 v.

Definition render (d : directive) : list Z :=
  match d with
  | DChar c => [c]
  | DNewline => [chr_cr; chr_nl]
  | DTab => [chr_tab]
  | DHex zp il v => hex_digit <$> digits 16 (if il then 16 else 8) zp (unsigned_of il v)
  | DUnsigned zp il v => hex_digit <$> digits 10 10 zp (unsigned_of il v)
  | DInt zp il v => (if signed_of il v <? 0 then [0x2d] else []) ++ (hex_digit <$> digits 10 10 zp (Z.abs (signed_of il v)))
  | DStr s => s
  | DChr c => [c]
  | DPercent => [chr_percent]
  end.

(** Characters are not NUL, and decimals have at most ten digits. *)
Definition char_ok (c : Z) : Prop := 0 < c < 256.

Definition directive_ok (d : directive) : Prop :=
  match d with
  | DChar c => char_ok c /\ c ≠ chr_percent /\ c ≠ chr_nl /\ c ≠ chr_tab
  | DUnsigned _ il v => unsigned_of il v < 10 ^ 10
  | DInt _ il v => Z.abs (signed_of il v) < 10 ^ 10
  | DStr s => Forall char_ok s
  | DChr c => char_ok c
  | _ => True
  end.

Definition str_len (d : directive) : Z := match d with DStr s => Z.of_nat (length s) | _ => 0 end.

Lemma copy_arg_all s len : len + Z.of_nat (length s) <= PRINT_TEXT_LEN -> copy_arg s len = (s, len + Z.of_nat (length s)).
Proof.
  revert len. induction s as [|c s IH]; intros len Hl; [cbn; f_equal; lia|]. cbn [copy_arg length] in *.
  rewrite (proj2 (Z.ltb_lt len _)) by lia. rewrite IH by lia. f_equal. lia.
Qed.

Lemma unsigned_range il v : 0 <= unsigned_of il v.
Proof. unfold unsigned_of. destruct il; apply Z.mod_pos_bound; lia. Qed.

Lemma print_signed_spec zp v : - 2 ^ 63 <= v -> Z.abs v < 10 ^ 10 ->
  print_signed zp v = Ok ((if v <? 0 then [0x2d] else []) ++ (hex_digit <$> digits 10 10 zp (Z.abs v))).
Proof.
  intros Hlo Hv. unfold print_signed. destruct (Z.ltb_spec v 0).
  - rewrite u64_small by lia. rewrite print_dec_spec by lia. by rewrite Z.abs_neq by lia.
  - rewrite print_dec_spec by lia. by rewrite Z.abs_eq by lia.
Qed.

(** The conversions of the switch. *)
Lemma convert_hex zp il v len args : convert zp il 120 len (ANum v :: args) = Ok (render (DHex zp il v), len, args).
Proof. pose proof (unsigned_range il v). unfold convert. cbn. by rewrite print_hex_spec by (by destruct il); destruct il. Qed.

Lemma convert_unsigned zp il v len args : unsigned_of il v < 10 ^ 10 ->
  convert zp il 117 len (ANum v :: args) = Ok (render (DUnsigned zp il v), len, args).
Proof.
  intros Hv. unfold convert. cbn -[Z.pow]. pose proof (unsigned_range il v) as Hr.
  replace ((if il then u64 else u32) v) with (unsigned_of il v) by (by destruct il).
  by rewrite print_dec_spec by lia.
Qed.

Lemma convert_int zp il v len args : Z.abs (signed_of il v) < 10 ^ 10 ->
  convert zp il 100 len (ANum v :: args) = Ok (render (DInt zp il v), len, args).
Proof.
  intros Hv. unfold convert. cbn -[Z.pow]. replace ((if il then i64 else i32) v) with (signed_of il v) by (by destruct il).
  by rewrite print_signed_spec by lia.
Qed.

(** One directive. *)
Lemma format_directive d f len args : directive_ok d -> len + str_len d <= PRINT_TEXT_LEN ->
  format (fmt_of d ++ f) len (args_of d ++ args) = (rest ← format f (len + str_len d) args; Ok (render d ++ rest)).
Proof.
  intros Hd Hl. destruct d as [c| | |zp il v|zp il v|zp il v|s|c|]; cbn [fmt_of args_of str_len render] in *; rewrite ?Z.add_0_r in *.
  - destruct Hd as (_ & H1 & H2 & H3). cbn [app format]. by rewrite !(proj2 (Z.eqb_neq _ _)) by done.
  - done.
  - done.
  - destruct zp, il; cbn [flags app format]; cbn [Z.eqb Pos.eqb chr_percent]; by rewrite convert_hex.
  - destruct zp, il; cbn [flags app format]; cbn [Z.eqb Pos.eqb chr_percent]; by rewrite convert_unsigned.
  - destruct zp, il; cbn [flags app format]; cbn [Z.eqb Pos.eqb chr_percent]; by rewrite convert_int.
  - cbn [app format]. cbn [Z.eqb Pos.eqb chr_percent]. unfold convert. cbn [Z.eqb Pos.eqb orb]. by rewrite copy_arg_all by done.
  - cbn [app format]. cbn [Z.eqb Pos.eqb chr_percent]. unfold convert. cbn [Z.eqb Pos.eqb orb va_num]. mstep. unfold u8. cbn [directive_ok] in Hd. unfold char_ok in Hd. by rewrite Z.mod_small by lia.
  - done.
Qed.

Lemma format_directives ds len : Forall directive_ok ds -> len + foldr Z.add 0 (str_len <$> ds) <= PRINT_TEXT_LEN ->
  format (concat (fmt_of <$> ds)) len (concat (args_of <$> ds)) = Ok (concat (render <$> ds)).
Proof.
  intros Hds. revert len. induction Hds as [|d ds Hd Hds IH]; intros len Hl; [done|]. rewrite !fmap_cons in *. cbn [concat foldr] in *.
  assert (0 <= foldr Z.add 0 (str_len <$> ds)) as H0.
  { clear. induction ds as [|d ds IH]; [done|]. rewrite fmap_cons. cbn [foldr]. destruct d; cbn [str_len]; lia. }
  rewrite format_directive by (done || lia). by rewrite IH by lia.
Qed.

Lemma render_chars d : directive_ok d -> Forall char_ok (render d).
Proof.
  assert (forall b w zp n, 0 < b <= 16 -> Forall char_ok (hex_digit <$> digits b w zp n)) as Hn.
  { intros b w zp n Hb. apply Forall_fmap. assert (Forall (fun d => 0 <= d < b) (digits b w zp n)) as Hd.
    { unfold digits. destruct zp; [apply numeral_digits; lia|]. apply strip_Forall, numeral_digits. lia. }
    apply (Forall_impl _ _ _ Hd). intros x Hx. unfold compose, char_ok, hex_digit, u8. destruct (Z.leb_spec x 9); rewrite Z.mod_small by lia; lia. }
  destruct d as [c| | |zp il v|zp il v|zp il v|s|c|]; cbn [render directive_ok]; intros Hd.
  - by constructor; [destruct Hd|].
  - by repeat constructor.
  - by repeat constructor.
  - apply Hn. lia.
  - apply Hn. lia.
  - apply Forall_app. split; [|apply Hn; lia]. destruct (_ <? 0); by repeat constructor.
  - done.
  - by constructor.
  - by repeat constructor.
Qed.

Lemma print_from_spec s u : s ≠ [] -> Forall char_ok s -> print_from (s ++ [0]) u = Ok (u ++ s).
Proof.
  intros Hs Hc. revert u. induction Hc as [|c s Hc Hcs IH]; intros u; [done|]. cbn [app print_from].
  assert (uart_print_char c u = u ++ [c]) as -> by (unfold uart_print_char; by rewrite u32_small by (unfold char_ok in Hc; lia)).
  destruct s as [|c' s]; [done|]. cbn [app]. inversion Hcs as [|? ? Hc' _]; subst. unfold char_ok in Hc'.
  rewrite (proj2 (Z.eqb_neq c' 0)) by lia. change (c' :: s ++ [0]) with ((c' :: s) ++ [0]). rewrite IH by done. by rewrite <- app_assoc.
Qed.

(** ** The properties *)

(** C31: [printk] prints what its format says.  For every format of text and
    conversions with their arguments, the decimal ones below 10^10, whose text is
    not empty and fits the buffer, the characters
    sent to the serial port are those of the directives in order, with newlines
    as carriage return and line feed, the console's lock is taken and released,
    and the result is 0. *)
Theorem printk_renders ds k :
  Forall directive_ok ds -> unlocked (con_lock k) -> concat (render <$> ds) ≠ [] ->
  Z.of_nat (length (concat (fmt_of <$> ds))) + foldr Z.add 0 (str_len <$> ds) <= PRINT_TEXT_LEN ->
  Z.of_nat (length (concat (render <$> ds))) < PRINT_TEXT_LEN ->
  exists l, printk (concat (fmt_of <$> ds)) (concat (args_of <$> ds)) k =
      Ok (0, Console l (uart k ++ concat (render <$> ds))) /\ unlocked l.
Proof.
  intros Hds Hk Hne Hlen Hout. unfold printk, vsprintk. rewrite format_directives; [|done|unfold str_nlen; lia]. mstep.
  rewrite (proj2 (Z.ltb_ge _ _)) by (rewrite length_app; cbn [length]; lia).
  unfold console_write, uart_print_string. destruct (spin_lock_unlock _ Hk) as (l & -> & Hl & _). mstep.
  rewrite print_from_spec; [|done|].
  - mstep. by exists (spin_unlock l).
  - clear -Hds. induction Hds as [|d ds Hd Hds IH]; [constructor|]. rewrite fmap_cons. cbn [concat]. apply Forall_app. split; [by apply render_chars|exact IH].
Qed.

(** [VM %d: 0x%08lx...] with a newline. *)
Definition demo_text : list directive :=
  [DChar 86; DChar 77; DInt false false (2 ^ 32 - 7); DHex true true 0xdead; DStr [111; 107]; DNewline].

Lemma printk_renders_witness : exists l, printk (concat (fmt_of <$> demo_text)) (concat (args_of <$> demo_text)) (Console SPINLOCK_INITVAL []) =
  Ok (0, Console l ([86; 77; 45; 55] ++ replicate 12 48 ++ [100; 101; 97; 100; 111; 107; 13; 10])) /\ unlocked l.
Proof.
  apply (printk_renders demo_text (Console SPINLOCK_INITVAL [])).
  - repeat constructor; cbn; unfold chr_percent, chr_nl, chr_tab; try lia; try done.
  - by split.
  - done.
  - by vm_compute.
  - by vm_compute.
Defined.

(** Printed numbers read back.  Every value that fits the conversion comes out as
    a numeral of it: hexadecimal over the whole range of [unsigned] and
    [unsigned long], with all eight or sixteen digits when padded, and decimal
    up to ten digits. *)
Theorem printed_numbers_read_back (zp il : bool) n m :
  0 <= n < (if il then 2 ^ 64 else 2 ^ 32) -> 0 <= m < 10 ^ 10 ->
  (value 16 (digit_val <$> print_hex il zp n) = n /\ (zp = true -> length (print_hex il zp n) = if il then 16%nat else 8%nat)) /\
  exists l, print_dec zp m = Ok l /\ value 10 (digit_val <$> l) = m /\ Forall (fun c => 48 <= c < 58) l /\ (zp = true -> length l = 10%nat).
Proof.
  assert (forall b w z v, 0 < b <= 16 -> digit_val <$> (hex_digit <$> digits b w z v) = digits b w z v) as Hback.
  { intros b w z v Hb. rewrite <- list_fmap_compose. assert (Forall (fun d => 0 <= d < b) (digits b w z v)) as Hd.
    { unfold digits. destruct z; [apply numeral_digits; lia|]. apply strip_Forall, numeral_digits. lia. }
    rewrite <- (list_fmap_id (digits b w z v)) at 2. apply list_fmap_ext. intros i x Hx. change (digit_val (hex_digit x) = x). apply digit_val_hex.
    rewrite Forall_lookup in Hd. specialize (Hd i x Hx). cbv beta in Hd. lia. }
  assert (forall b w z v, 1 < b -> value b (digits b w z v) = v mod b ^ Z.of_nat w) as Hval.
  { intros b w z v Hb. unfold digits. destruct z; [|rewrite value_strip]; by apply value_numeral. }
  intros Hn Hm. split.
  - rewrite print_hex_spec by (by destruct Hn). split.
    + rewrite Hback, Hval by lia. by destruct il; rewrite Z.mod_small.
    + intros ->. rewrite length_fmap. unfold digits. rewrite numeral_length. by destruct il.
  - exists (hex_digit <$> digits 10 10 zp m). split; [by apply print_dec_spec|]. split; [rewrite Hback, Hval by lia; by apply Z.mod_small|]. split.
    + apply Forall_fmap. assert (Forall (fun d => 0 <= d < 10) (digits 10 10 zp m)) as Hd.
      { unfold digits. destruct zp; [by apply numeral_digits|]. by apply strip_Forall, numeral_digits. }
      apply (Forall_impl _ _ _ Hd). intros x Hx. unfold compose. rewrite <- hex_digit_small by lia. unfold u8. rewrite Z.mod_small by lia. lia.
    + intros ->. rewrite length_fmap. apply numeral_length.
Qed.

Lemma printed_numbers_read_back_witness :
  value 16 (digit_val <$> print_hex false false 0xbeef) = 0xbeef /\ exists l, print_dec true 1024 = Ok l /\ value 10 (digit_val <$> l) = 1024.
Proof.
  destruct (printed_numbers_read_back false false 0xbeef 1024 ltac:(lia) ltac:(lia)) as [[H1 _] _].
  destruct (printed_numbers_read_back true false 0xbeef 1024 ltac:(lia) ltac:(lia)) as [_ (l & H2 & H3 & _)].
  split; [exact H1|]. by exists l.
Defined.

(** ** Where the text goes wrong *)

(** Ten digits are all there is room for: [%lu] of 10000000000 prints a colon and
    nine zeros. *)
Lemma print_dec_overflows : print_dec false (10 ^ 10) = Ok (58 :: replicate 9 48).
Proof. by vm_compute. Qed.

(** A percent sign at the end of the format takes the reader behind the string. *)
Lemma format_runs_off : forall len args, format [chr_percent] len args = Halt HFault.
Proof. done. Qed.

(** A percent sign before a newline ends the line twice. *)
Lemma percent_newline_twice : vsprintk [chr_percent; chr_nl] [] = Ok ([chr_percent; chr_cr; chr_nl; chr_cr; chr_nl; 0], 0).
Proof. by vm_compute. Qed.

(** An empty text is not empty on the console: its NUL is sent, and the reading
    goes on behind it. *)
Lemma print_empty_runs_off u : uart_print_string [0] u = Halt HFault.
Proof. done. Qed.

(** Text longer than the buffer is written over what lies behind it. *)
Lemma printk_overflows : printk (replicate 256 65) [] (Console SPINLOCK_INITVAL []) = Halt HFault.
Proof. by vm_compute. Qed.
