(* ===== verification/Sched.v ===== *)
(** The scheduler of a build with [SCHEDULE]: [core/sched.c], [core/inc/sched.h].

    The run queue is a list of VMs; a VM has a queue of virtual CPUs per level
    and a bitmap of the levels that have one.  Lists and queues are those of
    [list.h], on one heap of nodes: the head of the run queue, the [list] member
    of a [struct task_struct], its [rq] queues and the [fifo] member of a
    [struct __task_struct].  Virtual CPUs are pairs of a VM and a position in
    its [vcpus]. *)

From S2P Require Import Prelude Bit Bitmap Spinlock PhysMem Objpool Dlist.

Definition DEFAULT_COUNTER : Z := 2.
Definition BMQ_LEVELS : Z := 8.
Definition DEFAULT_LEVEL : Z := 4.
Definition TASK_READY : Z := 0.
Definition TASK_RUNNING : Z := 1.

Inductive node := Runqueue | TaskList (vm : Z) | RqLevel (vm level : Z) | TaskFifo (id : Z).

#[export] Instance node_eq_dec : EqDecision node.
Proof. solve_decision. Defined.

#[export] Instance node_countable : Countable node.
Proof.
  apply (inj_countable'
    (fun x => match x with Runqueue => inl (inl ()) | TaskList v => inl (inr v) | RqLevel v l => inr (inl (v, l)) | TaskFifo i => inr (inr i) end)
    (fun x => match x with inl (inl _) => Runqueue | inl (inr v) => TaskList v | inr (inl (v, l)) => RqLevel v l | inr (inr i) => TaskFifo i end)).
  by intros [].
Defined.

(** What the scheduler uses of a [struct vm]: its number, the ids of its virtual CPUs
    and the root of its tables. *)
Record svm := Svm { sv_id : Z; sv_vcpu_ids : list Z; sv_root : Z }.

(** [struct __task_struct], its [fifo] apart; [task] is the number of the VM. *)
Record vtask := VTask { vt_status : Z; vt_level : Z; vt_need_resched : Z; vt_counter : Z; vt_task : Z; vt_vcpu : Z * Z }.

(** [struct task_struct], its [rq] and [list] apart. *)
Record task_struct := Task { t_status : Z; nr_vcpu_ready : Z; t_need_resched : Z; t_counter : Z; t_bitmap : Z; t_vm : Z }.

Record sched := Sched {
  vtasks : list vtask;
  tasks : list task_struct;
  queues : gmap node (link node);
  rq_lock : spinlock_t;
  cpu_vcpu : Z * Z;
  vttbr : Z;
}.

Definition set_vtasks (s : sched) (l : list vtask) : sched := Sched l (tasks s) (queues s) (rq_lock s) (cpu_vcpu s) (vttbr s).
Definition set_tasks (s : sched) (l : list task_struct) : sched := Sched (vtasks s) l (queues s) (rq_lock s) (cpu_vcpu s) (vttbr s).
Definition set_queues (s : sched) (q : gmap node (link node)) : sched := Sched (vtasks s) (tasks s) q (rq_lock s) (cpu_vcpu s) (vttbr s).
Definition set_rq_lock (s : sched) (l : spinlock_t) : sched := Sched (vtasks s) (tasks s) (queues s) l (cpu_vcpu s) (vttbr s).

Definition get_vtask (i : Z) : st sched vtask := fun s => t ← rd (vtasks s) i; Ok (t, s).
Definition put_vtask (i : Z) (t : vtask) : st sched () := fun s => l ← wr (vtasks s) i t; Ok ((), set_vtasks s l).
Definition get_task (i : Z) : st sched task_struct := fun s => t ← rd (tasks s) i; Ok (t, s).
Definition put_task (i : Z) (t : task_struct) : st sched () := fun s => l ← wr (tasks s) i t; Ok ((), set_tasks s l).
Definition on_queues (f : gmap node (link node) -> outcome (gmap node (link node))) : st sched () := fun s =>
  q ← f (queues s); Ok ((), set_queues s q).

Section sched.
Context (vms : list svm) (fuel : nat).

Definition get_vm (i : Z) : st sched svm := lift (rd vms i).

(** [cpu()->vcpu->id] and [cpu()->vcpu->vm->id]. *)
Definition __current : st sched Z :=
  p ← gets cpu_vcpu; vm ← get_vm (fst p); lift (rd (sv_vcpu_ids vm) (snd p)).
Definition current : st sched Z := p ← gets cpu_vcpu; vm ← get_vm (fst p); mret (sv_id vm).

Definition goodness (p : task_struct) : Z := i32 (t_counter p + 20).

(** [VTTBR_VMID_OFF] is 48 and the field has 8 bits. *)
Definition vttbr_of (vm : svm) : Z :=
  Z.lor (Z.land (lsl64 (sv_id vm) 48) (BIT64_MASK 48 8)) (Z.land (sv_root vm) (not64 (BIT64_MASK 48 8))).

Definition prepare_to_switch (next : Z) : st sched () :=
  p ← get_task next;
  vm ← get_vm (t_vm p);
  modify (fun s => Sched (vtasks s) (tasks s) (queues s) (rq_lock s) (cpu_vcpu s) (vttbr_of vm)).

Definition switch_to (next : Z) : st sched () :=
  p ← get_vtask next;
  modify (fun s => Sched (vtasks s) (tasks s) (queues s) (rq_lock s) (vt_vcpu p) (vttbr s)).

(** The entry of the virtual CPU is chosen by its id in the VM. *)
Definition __task_struct_init (task vcpu_id : Z) : st sched Z :=
  p ← get_task task;
  vm ← get_vm (t_vm p);
  id ← lift (rd (sv_vcpu_ids vm) vcpu_id);
  put_vtask id (VTask TASK_READY DEFAULT_LEVEL 0 DEFAULT_COUNTER task (t_vm p, vcpu_id)) ;;
  on_queues (fun q => INIT_FIFO q (Some (TaskFifo id))) ;;
  mret id.

(** [v] is the position of the VM. *)
Definition task_struct_init (v : Z) : st sched () :=
  vm ← get_vm v;
  let id := sv_id vm in
  p ← get_task id;
  let n := Z.of_nat (length (sv_vcpu_ids vm)) in
  put_task id (Task (t_status p) n 0 DEFAULT_COUNTER (t_bitmap p) v) ;;
  for_st (Z.to_nat BMQ_LEVELS) 0 (fun _ => on_queues (fun q => INIT_FIFO q (Some (RqLevel id DEFAULT_LEVEL)))) ;;
  for_st (Z.to_nat n) 0 (fun i =>
    k ← __task_struct_init id i;
    on_queues (fun q => fifo_in q (Some (TaskFifo k)) (Some (RqLevel id DEFAULT_LEVEL)))) ;;
  p ← get_task id;
  b ← lift (bitmap_set [t_bitmap p] DEFAULT_LEVEL);
  b ← lift (rd b 0);
  put_task id (Task (t_status p) (nr_vcpu_ready p) (t_need_resched p) (t_counter p) b (t_vm p)) ;;
  on_queues (fun q => list_add_tail q (Some (TaskList id)) (Some Runqueue)).

Definition update_task_times : st sched () :=
  c ← current;
  k ← __current;
  vp ← get_vtask k;
  let n := i32 (vt_counter vp - 1) in
  put_vtask k (if n <=? 0 then VTask (vt_status vp) (vt_level vp) 1 0 (vt_task vp) (vt_vcpu vp)
               else VTask (vt_status vp) (vt_level vp) (vt_need_resched vp) n (vt_task vp) (vt_vcpu vp)) ;;
  p ← get_task c;
  let n := i32 (t_counter p - 1) in
  put_task c (if n <=? 0 then Task (t_status p) (nr_vcpu_ready p) 1 0 (t_bitmap p) (t_vm p)
              else Task (t_status p) (nr_vcpu_ready p) (t_need_resched p) n (t_bitmap p) (t_vm p)).

(** *** [schedule] *)

(** The body of the loop over the run queue: [next] and [max_weight]. *)
Definition select_body (ts : list task_struct) (pos : node) (acc : option Z * Z) : outcome (option Z * Z * bool) :=
  match pos with
  | TaskList k =>
      temp ← rd ts k;
      if (t_status temp =? TASK_READY) && (0 <? nr_vcpu_ready temp) && (acc.2 <? goodness temp)
      then Ok (Some k, goodness temp, false) else Ok (acc, false)
  | _ => Halt HFault
  end.

(** [goto select_vm] is taken at most once. *)
Definition select_vm (acc : option Z * Z) : st sched (option Z * Z) := fun s =>
  a ← list_for_each_entry fuel (queues s) Runqueue (select_body (tasks s)) acc;
  Ok (a, s).

Definition recharge : st sched () := fun s =>
  ts ← list_for_each_entry fuel (queues s) Runqueue (fun pos ts =>
    match pos with
    | TaskList k =>
        p ← rd ts k;
        ts ← wr ts k (Task (t_status p) (nr_vcpu_ready p) (t_need_resched p) DEFAULT_COUNTER (t_bitmap p) (t_vm p));
        Ok (ts, false)
    | _ => Halt HFault
    end) (tasks s);
  Ok ((), set_tasks s ts).

(** [i = bit32_ffs(next->bitmap)]: the [size_t] result is stored in an [int]. *)
Definition first_level (bitmap : Z) : outcome Z := r ← bit32_ffs bitmap; Ok (i32 r).

(** [while (1)] over the virtual CPUs of [next], from level [i] on; each turn
    takes a virtual CPU out of a queue.  The assertion is [HError]. *)
Fixpoint select_vcpu (n : nat) (next i : Z) : st sched Z :=
  match n with
  | O => stop HFuel
  | S n =>
      if i =? -1 then stop HError else
      q ← gets queues;
      r ← lift (fifo_out q (Some (RqLevel next i)));
      modify (fun s => set_queues s (snd r)) ;;
      match fst r with
      | Some (TaskFifo k) =>
          p ← get_vtask k;
          if vt_status p =? TASK_READY then
            on_queues (fun q => fifo_in q (Some (TaskFifo k)) (Some (RqLevel next i))) ;; mret k
          else
            q ← gets queues;
            e ← lift (fifo_empty q (Some (RqLevel next i)));
            if (e : bool) then
              t ← get_task next;
              b ← lift (bitmap_clear [t_bitmap t] i);
              b ← lift (rd b 0);
              put_task next (Task (t_status t) (nr_vcpu_ready t) (t_need_resched t) (t_counter t) b (t_vm t)) ;;
              i ← lift (first_level b);
              select_vcpu n next i
            else select_vcpu n next i
      | _ => stop HFault
      end
  end.

Definition schedule : st sched () :=
  __prev ← __current;
  prev ← current;
  l ← gets rq_lock;
  l ← lift (spin_lock l);
  modify (fun s => set_rq_lock s l) ;;
  p ← get_task prev;
  put_task prev (Task TASK_READY (i32 (nr_vcpu_ready p + 1)) (t_need_resched p) (t_counter p) (t_bitmap p) (t_vm p)) ;;
  vp ← get_vtask __prev;
  put_vtask __prev (VTask TASK_READY (vt_level vp) (vt_need_resched vp) (vt_counter vp) (vt_task vp) (vt_vcpu vp)) ;;
  a ← select_vm (None, 20);
  a ← (match fst a with
       | None => recharge ;; select_vm a
       | Some _ => mret a
       end);
  match fst a with
  | None => modify (fun s => set_rq_lock s (spin_unlock (rq_lock s)))
  | Some next =>
      t ← get_task next;
      i ← lift (first_level (t_bitmap t));
      __next ← select_vcpu fuel next i;
      vp ← get_vtask __next;
      put_vtask __next (VTask TASK_RUNNING (vt_level vp) (vt_need_resched vp) (vt_counter vp) (vt_task vp) (vt_vcpu vp)) ;;
      t ← get_task next;
      put_task next (Task (t_status t) (i32 (nr_vcpu_ready t - 1)) (t_need_resched t) (t_counter t) (t_bitmap t) (t_vm t)) ;;
      vp ← get_vtask __prev;
      put_vtask __prev (VTask (vt_status vp) (vt_level vp) 0 (vt_counter vp) (vt_task vp) (vt_vcpu vp)) ;;
      p ← get_task prev;
      put_task prev (Task (t_status p) (nr_vcpu_ready p) 0 (t_counter p) (t_bitmap p) (t_vm p)) ;;
      modify (fun s => set_rq_lock s (spin_unlock (rq_lock s))) ;;
      prepare_to_switch next ;;
      switch_to __next
  end.

Definition try_reschedule : st sched () :=
  k ← __current; vp ← get_vtask k;
  c ← current; p ← get_task c;
  if negb (vt_need_resched vp =? 0) || negb (t_need_resched p =? 0) then schedule else mret ().
End sched.

(** ** Running the primitives *)

Section run.
Context (vms : list svm) (fuel : nat).
Implicit Types s : sched.

Lemma get_task_run s k t : 0 <= k -> tasks s !! Z.to_nat k = Some t -> get_task k s = Ok (t, s).
Proof. intros Hk Ht. unfold get_task. by rewrite (proj2 (rd_Ok _ _ _) (conj Hk Ht)). Qed.

Lemma put_task_run s k t t' : 0 <= k -> tasks s !! Z.to_nat k = Some t ->
  put_task k t' s = Ok ((), set_tasks s (<[Z.to_nat k := t']> (tasks s))).
Proof. intros Hk Ht. unfold put_task. apply lookup_lt_Some in Ht. by rewrite wr_Ok by lia. Qed.

Lemma get_vtask_run s k t : 0 <= k -> vtasks s !! Z.to_nat k = Some t -> get_vtask k s = Ok (t, s).
Proof. intros Hk Ht. unfold get_vtask. by rewrite (proj2 (rd_Ok _ _ _) (conj Hk Ht)). Qed.

Lemma put_vtask_run s k t t' : 0 <= k -> vtasks s !! Z.to_nat k = Some t ->
  put_vtask k t' s = Ok ((), set_vtasks s (<[Z.to_nat k := t']> (vtasks s))).
Proof. intros Hk Ht. unfold put_vtask. apply lookup_lt_Some in Ht. by rewrite wr_Ok by lia. Qed.

(** ** The order of the run queue *)

(** The counter of VM [k]. *)
Definition counter (ts : list task_struct) (k : Z) : Z := default 0 (t_counter <$> ts !! Z.to_nat k).

(** A VM the scheduler may choose. *)
Definition runnable (ts : list task_struct) (k : Z) : Prop :=
  0 <= k /\ exists t, ts !! Z.to_nat k = Some t /\ t_status t = TASK_READY /\ 0 < nr_vcpu_ready t < 2 ^ 30 /\
    0 <= t_counter t <= DEFAULT_COUNTER.

(** The first VM with the largest counter, if it beats [w]. *)
Fixpoint best (ts : list task_struct) (L : list Z) (acc : option Z * Z) : option Z * Z :=
  match L with
  | [] => acc
  | k :: L => best ts L (if acc.2 <? counter ts k + 20 then (Some k, counter ts k + 20) else acc)
  end.

Lemma select_fold ts L acc : Forall (runnable ts) L ->
  fold_until (select_body ts) (TaskList <$> L) acc = Ok (best ts L acc).
Proof.
  intros HL. revert acc. induction HL as [|k L (Hk & t & Ht & Hst & Hnr & Hc) HL IH]; intros acc; [done|]. simpl.
  rewrite (proj2 (rd_Ok _ _ _) (conj Hk Ht)). mstep. rewrite Hst, (proj2 (Z.ltb_lt 0 _)) by lia. cbn [Z.eqb andb].
  unfold counter. rewrite Ht. simpl. unfold goodness. rewrite i32_small by (unfold DEFAULT_COUNTER in *; lia).
  destruct (acc.2 <? t_counter t + 20); mstep; apply IH.
Qed.

(** [k] comes in [L] before every VM with as large a counter. *)
Definition first_max (ts : list task_struct) (L : list Z) (k : Z) : Prop :=
  exists L1 L2, L = L1 ++ k :: L2 /\ Forall (fun j => counter ts j < counter ts k) L1 /\ Forall (fun j => counter ts j <= counter ts k) L2.

Lemma best_spec ts L acc :
  (best ts L acc = acc /\ Forall (fun j => counter ts j + 20 <= acc.2) L) \/
  exists k, best ts L acc = (Some k, counter ts k + 20) /\ acc.2 < counter ts k + 20 /\ first_max ts L k.
Proof.
  revert acc. induction L as [|j L IH]; intros acc; [by left|]. simpl. destruct (Z.ltb_spec acc.2 (counter ts j + 20)) as [Hlt|Hge].
  - right. destruct (IH (Some j, counter ts j + 20)) as [[E Hall]|(k & E & Hk & L1 & L2 & -> & H1 & H2)]; cbn [snd] in *.
    + exists j. split; [done|]. split; [done|]. exists [], L. split; [done|]. split; [constructor|].
      eapply Forall_impl; [exact Hall|]. cbn. lia.
    + exists k. split; [done|]. split; [lia|]. exists (j :: L1), L2. split; [done|]. split; [|done]. constructor; [lia|done].
  - destruct (IH acc) as [[E Hall]|(k & E & Hk & L1 & L2 & -> & H1 & H2)].
    + left. split; [done|]. by constructor.
    + right. exists k. split; [done|]. split; [done|]. exists (j :: L1), L2. split; [done|]. split; [|done]. constructor; [lia|done].
Qed.

(** *** Recharging *)

Definition recharged (t : task_struct) : task_struct :=
  Task (t_status t) (nr_vcpu_ready t) (t_need_resched t) DEFAULT_COUNTER (t_bitmap t) (t_vm t).

Lemma recharge_fold ts L : Forall (fun k => 0 <= k /\ is_Some (ts !! Z.to_nat k)) L ->
  exists ts', fold_until (fun pos ts => match pos with
    | TaskList k => p ← rd ts k; ts ← wr ts k (recharged p); Ok (ts, false) | _ => Halt HFault end) (TaskList <$> L) ts = Ok ts' /\
  forall i, ts' !! i = (if decide (Z.of_nat i ∈ L) then recharged <$> ts !! i else ts !! i).
Proof.
  revert ts. induction L as [|k L IH]; intros ts HL; [by exists ts|]. inversion HL as [|? ? [Hk [t Ht]] HL']; subst. simpl.
  rewrite (proj2 (rd_Ok _ _ _) (conj Hk Ht)). mstep. pose proof (lookup_lt_Some _ _ _ Ht). rewrite wr_Ok by lia. mstep.
  destruct (IH (<[Z.to_nat k := recharged t]> ts)) as (ts' & E & Hts).
  { eapply Forall_impl; [exact HL'|]. cbn. intros j [Hj Hs]. split; [done|]. destruct (decide (Z.to_nat j = Z.to_nat k)) as [->|Hne].
    - rewrite list_lookup_insert_eq by done. by eexists.
    - by rewrite list_lookup_insert_ne. }
  exists ts'. split; [done|]. intros i. rewrite Hts. destruct (decide (i = Z.to_nat k)) as [->|Hne].
  - rewrite list_lookup_insert_eq, Ht by done. rewrite (decide_True (P := Z.of_nat (Z.to_nat k) ∈ k :: L)) by (rewrite Z2Nat.id by lia; by left).
    by destruct (decide _).
  - rewrite list_lookup_insert_ne by done. destruct (decide (Z.of_nat i ∈ L)); [rewrite decide_True by (by right); done|].
    rewrite decide_False; [done|]. intros [Heq|]%elem_of_cons; [|done]. apply Hne. lia.
Qed.

(** ** The invariant *)

(** [p] points to virtual CPU number [i] of VM [k]. *)
Definition is_vcpu (p : Z * Z) (k i : Z) : Prop :=
  0 <= p.1 /\ 0 <= p.2 /\ exists vm, vms !! Z.to_nat p.1 = Some vm /\ sv_id vm = k /\ sv_vcpu_ids vm !! Z.to_nat p.2 = Some i.

(** The entry of VM [k], which has [n] virtual CPUs that do not run. *)
Definition task_ok (s : sched) (k n : Z) : Prop :=
  0 <= k /\ exists t, tasks s !! Z.to_nat k = Some t /\ t_status t = TASK_READY /\ nr_vcpu_ready t = n /\ 0 <= n < 2 ^ 30 /\
    0 <= t_counter t <= DEFAULT_COUNTER /\ t_bitmap t = Z.shiftl 1 DEFAULT_LEVEL /\
    0 <= t_vm t /\ exists vm, vms !! Z.to_nat (t_vm t) = Some vm /\ sv_id vm = k.

(** VMs [L] are queued, each with its virtual CPUs [Q] and [B] of them waiting while it
    does not run; virtual CPU [vc] of VM [c] runs. *)
Record sched_ok (s : sched) (L : list Z) (Q : Z -> list Z) (B : Z -> Z) (A : gmap node (list node)) (c vc : Z) : Prop := {
  so_rep : represents (queues s) A;
  so_runq : A !! Runqueue = Some (TaskList <$> L);
  so_rq k : k ∈ L -> A !! RqLevel k DEFAULT_LEVEL = Some (TaskFifo <$> Q k) /\ Q k ≠ [];
  so_task k : k ∈ L -> task_ok s k (if decide (k = c) then B k - 1 else B k) /\ 1 <= B k < 2 ^ 30;
  so_vtask k i : k ∈ L -> i ∈ Q k -> 0 <= i /\ exists p, vtasks s !! Z.to_nat i = Some p /\
    (i ≠ vc -> vt_status p = TASK_READY) /\ is_vcpu (vt_vcpu p) k i;
  so_cur : is_vcpu (cpu_vcpu s) c vc /\ c ∈ L /\ vc ∈ Q c;
  so_lock : unlocked (rq_lock s);
}.

Lemma current_run s c vc : is_vcpu (cpu_vcpu s) c vc -> current vms s = Ok (c, s) /\ __current vms s = Ok (vc, s).
Proof.
  intros (H1 & H2 & vm & Hv & Hi & Hj). unfold current, __current, get_vm, lift, gets, mbind, st_bind.
  rewrite (proj2 (rd_Ok _ _ _) (conj H1 Hv)). rewrite Hi. by rewrite (proj2 (rd_Ok _ _ _) (conj H2 Hj)).
Qed.

(** *** Choosing the VM *)

Lemma counter_ext ts ts' L : (forall k, k ∈ L -> counter ts' k = counter ts k) -> forall k, k ∈ L -> first_max ts L k -> first_max ts' L k.
Proof.
  intros He k Hk (L1 & L2 & -> & H1 & H2). exists L1, L2. split; [done|]. split.
  - apply Forall_forall. intros j Hj. rewrite Forall_forall in H1. rewrite !He by set_solver. by apply H1.
  - apply Forall_forall. intros j Hj. rewrite Forall_forall in H2. rewrite !He by set_solver. by apply H2.
Qed.

(** What becomes of the counters: kept while one is left, otherwise all are full again. *)
Definition counters_after (ts : list task_struct) (L : list Z) (k : Z) : Z :=
  if forallb (fun j => counter ts j =? 0) L then DEFAULT_COUNTER else counter ts k.

Lemma select_phase s L A next0 : represents (queues s) A -> A !! Runqueue = Some (TaskList <$> L) -> (length L < fuel)%nat ->
  L = next0 :: tail L -> Forall (runnable (tasks s)) L ->
  exists next w ts', (a ← select_vm fuel (None, 20); match fst a with None => recharge fuel ;; select_vm fuel a | Some _ => mret a end) s =
      Ok ((Some next, w), set_tasks s ts') /\ first_max ts' L next /\
    (forall k, k ∈ L -> counter ts' k = counters_after (tasks s) L k) /\
    (forall i, ts' !! i = tasks s !! i \/ ts' !! i = recharged <$> tasks s !! i).
Proof.
  intros Hr Hq Hf HL Hrun. pose proof (rep_list _ _ Hr _ _ Hq) as Hlist.
  assert (forall ts acc, Forall (runnable ts) L -> select_vm fuel acc (set_tasks s ts) = Ok (best ts L acc, set_tasks s ts)) as Hsel.
  { intros ts acc Hrt. unfold select_vm. cbn [queues set_tasks tasks].
    rewrite (list_for_each_entry_fold _ _ _ _ (TaskList <$> L)) by (by rewrite ?length_fmap). by rewrite select_fold. }
  assert (set_tasks s (tasks s) = s) as Hid by (by destruct s).
  assert (select_vm fuel (None, 20) s = Ok (best (tasks s) L (None, 20), s)) as Hsel0 by (rewrite <- Hid at 1 3; by apply Hsel).
  unfold mbind at 1, st_bind at 1. rewrite Hsel0.
  destruct (best_spec (tasks s) L (None, 20)) as [[-> Hall]|(k & -> & Hlt & Hmax)]; cbn [fst snd] in *.
  - assert (Forall (fun k => 0 <= k /\ is_Some (tasks s !! Z.to_nat k)) L) as Hex.
    { eapply Forall_impl; [exact Hrun|]. intros k (Hk & t & Ht & _). split; [done|]. by eexists. }
    destruct (recharge_fold (tasks s) L Hex) as (ts' & E & Hts).
    assert (recharge fuel s = Ok ((), set_tasks s ts')) as Er.
    { unfold recharge. rewrite (list_for_each_entry_fold _ _ _ _ (TaskList <$> L)) by (by rewrite ?length_fmap). unfold recharged in E. by rewrite E. }
    assert (forall k, k ∈ L -> counter ts' k = DEFAULT_COUNTER) as Hc.
    { intros k Hk. rewrite Forall_forall in Hex. destruct (Hex k Hk) as [Hk0 [t Ht]]. unfold counter. rewrite Hts, Z2Nat.id by lia.
      by rewrite decide_True, Ht by done. }
    assert (Forall (runnable ts') L) as Hrun'.
    { rewrite Forall_forall in Hrun |- *. intros k Hk. destruct (Hrun k Hk) as (Hk0 & t & Ht & Hs & Hn & _). split; [done|].
      exists (recharged t). rewrite Hts, Z2Nat.id, decide_True, Ht by (done || lia). split_and!; try done; try lia; cbn; unfold DEFAULT_COUNTER; lia. }
    unfold mbind, st_bind. rewrite Er, Hsel by done.
    destruct (best_spec ts' L (None, 20)) as [[_ Hno]|(k & -> & _ & Hmax)].
    { rewrite Forall_forall in Hno. specialize (Hno next0 ltac:(rewrite HL; left)). rewrite Hc in Hno by (rewrite HL; left). unfold DEFAULT_COUNTER in Hno. cbn in Hno. lia. }
    exists k, (counter ts' k + 20), ts'. split; [done|]. split; [done|]. split.
    + intros j Hj. rewrite (Hc j Hj). unfold counters_after. rewrite (proj2 (forallb_forall _ _)); [done|]. intros y Hy%list_elem_of_In.
      rewrite Forall_forall in Hall, Hrun. specialize (Hall y Hy). destruct (Hrun y Hy) as (_ & t & Ht & _ & _ & Hct). unfold counter in *. rewrite Ht in *. cbn in *. lia.
    + intros i. rewrite Hts. destruct (decide _); auto.
  - exists k, (counter (tasks s) k + 20), (tasks s). rewrite Hid. split; [done|]. split; [done|]. split; [|by left].
    intros j Hj. unfold counters_after. destruct (forallb _ L) eqn:Ef; [|done]. rewrite forallb_forall in Ef.
    destruct Hmax as (L1 & L2 & E & _). assert (In k L) as Hk by (rewrite E; apply list_elem_of_In; set_solver). specialize (Ef k Hk). lia.
Qed.

(** *** Choosing the virtual CPU *)

Lemma removed_fresh (q : gmap node (link node)) A hd x l : represents q A -> A !! hd = Some (x :: l) -> fresh (<[hd := l]> A) x.
Proof.
  intros Hr Hh h2 l2. destruct (rep_list _ _ Hr _ _ Hh) as [Hnd _]. apply NoDup_cons in Hnd as [Hn1 Hn2]. apply NoDup_cons in Hn2 as [Hn2 _].
  destruct (decide (h2 = hd)) as [->|Hne].
  - rewrite lookup_insert_eq. intros [= <-]. set_solver.
  - rewrite lookup_insert_ne by done. intros H2. apply (rep_disj _ _ Hr hd (x :: l) h2 l2 x Hh H2); [done|]. set_solver.
Qed.

(** A virtual CPU that does not wait: its entry says that it runs, on whatever CPU. *)
Definition busy (vs : list vtask) (i : Z) : Prop :=
  0 <= i /\ exists p, vs !! Z.to_nat i = Some p /\ vt_status p ≠ TASK_READY.

(** One turn of the loop on a busy virtual CPU: it leaves the queue. *)
Lemma select_pop s A next j l n : represents (queues s) A -> A !! RqLevel next DEFAULT_LEVEL = Some (TaskFifo <$> j :: l) -> busy (vtasks s) j ->
  exists q', represents q' (<[RqLevel next DEFAULT_LEVEL := TaskFifo <$> l]> A) /\
    select_vcpu (S n) next DEFAULT_LEVEL s =
      (if bool_decide (l = []) then
         t ← get_task next; b ← lift (bitmap_clear [t_bitmap t] DEFAULT_LEVEL); b ← lift (rd b 0);
         put_task next (Task (t_status t) (nr_vcpu_ready t) (t_need_resched t) (t_counter t) b (t_vm t)) ;;
         i ← lift (first_level b); select_vcpu n next i
       else select_vcpu n next DEFAULT_LEVEL) (set_queues s q').
Proof.
  intros Hr Hq (Hj & p & Hp & Hst). rewrite fmap_cons in Hq. destruct (fifo_out_rep _ _ _ _ _ Hr Hq) as (q1 & E1 & Hr1).
  exists q1. split; [done|]. cbn [select_vcpu]. change (DEFAULT_LEVEL =? -1) with false. cbv iota.
  unfold mbind at 1, st_bind at 1, gets at 1. unfold mbind at 1, st_bind at 1, lift at 1. rewrite E1. cbn [fst snd].
  unfold mbind at 1, st_bind at 1, modify at 1. unfold mbind at 1, st_bind at 1. rewrite (get_vtask_run _ j p) by done.
  rewrite (proj2 (Z.eqb_neq _ _) Hst). unfold mbind at 1, st_bind at 1, gets at 1. cbn [queues set_queues].
  unfold mbind at 1, st_bind at 1, lift at 1, fifo_empty.
  rewrite (list_empty_list _ _ (TaskFifo <$> l)) by (apply (rep_list _ _ Hr1), lookup_insert_eq).
  rewrite (bool_decide_ext (TaskFifo <$> l = []) (l = [])) by (by destruct l). by destruct (bool_decide _).
Qed.

Lemma select_skips s A next run h rest p : represents (queues s) A ->
  A !! RqLevel next DEFAULT_LEVEL = Some (TaskFifo <$> run ++ h :: rest) -> Forall (busy (vtasks s)) run ->
  0 <= h -> vtasks s !! Z.to_nat h = Some p -> vt_status p = TASK_READY -> forall n, (length run < n)%nat ->
  exists q', select_vcpu n next DEFAULT_LEVEL s = Ok (h, set_queues s q') /\
    represents q' (<[RqLevel next DEFAULT_LEVEL := TaskFifo <$> rest ++ [h]]> A).
Proof.
  intros Hr Hq Hb Hh Hp Hst. revert s A Hr Hq Hb Hp. induction run as [|j run IH]; intros s A Hr Hq Hb Hp n Hn.
  - cbn [app] in Hq. rewrite fmap_cons in Hq. destruct n as [|n]; [simpl in Hn; lia|]. cbn [select_vcpu]. change (DEFAULT_LEVEL =? -1) with false. cbv iota.
    destruct (fifo_out_rep _ _ _ _ _ Hr Hq) as (q1 & E1 & Hr1).
    destruct (list_add_tail_rep q1 _ (RqLevel next DEFAULT_LEVEL) (TaskFifo <$> rest) (TaskFifo h) Hr1) as (q2 & E2 & Hr2).
    { apply lookup_insert_eq. }
    { by eapply removed_fresh. }
    exists q2. split.
    + unfold mbind, st_bind, gets, lift. rewrite E1. cbn [fst snd]. unfold modify. rewrite (get_vtask_run _ h p) by done. rewrite Hst, Z.eqb_refl.
      unfold on_queues, fifo_in, mbind, outcome_bind. cbn [queues set_queues]. by rewrite E2.
    + rewrite insert_insert_eq in Hr2. by rewrite fmap_app.
  - destruct n as [|n]; [lia|]. inversion Hb as [|? ? Hj Hb']; subst. cbn [app] in Hq.
    destruct (select_pop s A next j (run ++ h :: rest) n Hr Hq Hj) as (q1 & Hr1 & E1). rewrite bool_decide_false in E1 by (by destruct run).
    destruct (IH (set_queues s q1) _ Hr1) with (n := n) as (q2 & E2 & Hr2); [apply lookup_insert_eq|done|done|simpl in Hn; lia|].
    exists q2. rewrite E1, E2. split; [done|]. by rewrite insert_insert_eq in Hr2.
Qed.

Lemma clear_default_level : bitmap_clear [Z.shiftl 1 DEFAULT_LEVEL] DEFAULT_LEVEL = Ok [0] /\ first_level 0 = Ok (-1).
Proof. by vm_compute. Qed.

Lemma select_exhausts s A next j run t : represents (queues s) A ->
  A !! RqLevel next DEFAULT_LEVEL = Some (TaskFifo <$> j :: run) -> Forall (busy (vtasks s)) (j :: run) ->
  0 <= next -> tasks s !! Z.to_nat next = Some t -> t_bitmap t = Z.shiftl 1 DEFAULT_LEVEL -> forall n, (length (j :: run) < n)%nat ->
  select_vcpu n next DEFAULT_LEVEL s = Halt HError.
Proof.
  intros Hr Hq Hb Hk Ht Hbm. revert s A j Hr Hq Hb Ht. induction run as [|k run IH]; intros s A j Hr Hq Hb Ht n Hn.
  all: destruct n as [|n]; [lia|]; inversion Hb as [|? ? Hj Hb']; subst.
  - destruct (select_pop s A next j [] n Hr Hq Hj) as (q1 & _ & E1). rewrite bool_decide_true in E1 by done. rewrite E1.
    unfold mbind at 1, st_bind at 1. rewrite (get_task_run _ next t) by done. unfold mbind at 1, st_bind at 1, lift at 1. rewrite Hbm, (proj1 clear_default_level).
    unfold mbind at 1, st_bind at 1, lift at 1. change (rd [0] 0) with (Ok 0). cbv beta iota. unfold mbind at 1, st_bind at 1. rewrite (put_task_run _ next t) by done.
    unfold mbind at 1, st_bind at 1, lift at 1. rewrite (proj2 clear_default_level). destruct n as [|n]; [simpl in Hn; lia|]. done.
  - destruct (select_pop s A next j (k :: run) n Hr Hq Hj) as (q1 & Hr1 & E1). rewrite bool_decide_false in E1 by done. rewrite E1.
    apply (IH (set_queues s q1) _ k Hr1); [apply lookup_insert_eq|done|done|simpl in Hn |- *; lia].
Qed.

(** ** [schedule] *)

(** The state once the running virtual CPU counts as ready. *)
Definition yielded (s : sched) (c vc : Z) (t : task_struct) (p : vtask) (l : spinlock_t) : sched :=
  Sched (<[Z.to_nat vc := VTask TASK_READY (vt_level p) (vt_need_resched p) (vt_counter p) (vt_task p) (vt_vcpu p)]> (vtasks s))
    (<[Z.to_nat c := Task TASK_READY (i32 (nr_vcpu_ready t + 1)) (t_need_resched t) (t_counter t) (t_bitmap t) (t_vm t)]> (tasks s))
    (queues s) l (cpu_vcpu s) (vttbr s).

Lemma yielded_task s L Q B A c vc t p l k : sched_ok s L Q B A c vc -> tasks s !! Z.to_nat c = Some t -> k ∈ L ->
  task_ok (yielded s c vc t p l) k (B k).
Proof.
  intros Hok Ht Hk. destruct (so_task _ _ _ _ _ _ _ Hok k Hk) as [(Hk0 & tk & Htk & Hs & Hn & Hb & Hc & Hbm & Hv) HB]. split; [done|].
  destruct (so_cur _ _ _ _ _ _ _ Hok) as (_ & Hcl & _). destruct (so_task _ _ _ _ _ _ _ Hok c Hcl) as [(Hc0 & _) _].
  cbn [tasks yielded]. destruct (decide (k = c)) as [->|Hne].
  - destruct Hv as [Hv0 Hv]. assert (t = tk) as -> by congruence. rewrite list_lookup_insert_eq by (by eapply lookup_lt_Some).
    eexists. split; [done|]. cbn. rewrite i32_small by lia. split_and!; try done; lia.
  - rewrite list_lookup_insert_ne by lia. exists tk. done.
Qed.

Lemma yielded_vtask s L Q B A c vc t p l k i : sched_ok s L Q B A c vc -> vtasks s !! Z.to_nat vc = Some p -> k ∈ L -> i ∈ Q k ->
  exists p', vtasks (yielded s c vc t p l) !! Z.to_nat i = Some p' /\ vt_status p' = TASK_READY /\ is_vcpu (vt_vcpu p') k i.
Proof.
  intros Hok Hp Hk Hi. destruct (so_vtask _ _ _ _ _ _ _ Hok k i Hk Hi) as (Hi0 & pi & Hpi & Hs & Hv).
  destruct (so_cur _ _ _ _ _ _ _ Hok) as (_ & Hcl & Hvc). destruct (so_vtask _ _ _ _ _ _ _ Hok c vc Hcl Hvc) as (Hvc0 & _).
  cbn [vtasks yielded]. destruct (decide (i = vc)) as [->|Hne].
  - assert (p = pi) as -> by congruence. rewrite list_lookup_insert_eq by (by eapply lookup_lt_Some). eexists. split; [done|]. done.
  - rewrite list_lookup_insert_ne by lia. exists pi. split_and!; [done|by apply Hs|done].
Qed.

Lemma insert_lookup_Some {X} (l : list X) a z i y : l !! i = Some y -> <[a := z]> l !! i = Some (if decide (i = a) then z else y).
Proof.
  intros Hi. destruct (decide (i = a)) as [->|Hne]; [apply list_lookup_insert_eq; by eapply lookup_lt_Some|by rewrite list_lookup_insert_ne].
Qed.

(** The end of [schedule]: [next] and [h] were chosen. *)
Definition chosen (c vc next h : Z) : st sched () :=
  vp ← get_vtask h;
  put_vtask h (VTask TASK_RUNNING (vt_level vp) (vt_need_resched vp) (vt_counter vp) (vt_task vp) (vt_vcpu vp)) ;;
  t ← get_task next;
  put_task next (Task (t_status t) (i32 (nr_vcpu_ready t - 1)) (t_need_resched t) (t_counter t) (t_bitmap t) (t_vm t)) ;;
  vp ← get_vtask vc;
  put_vtask vc (VTask (vt_status vp) (vt_level vp) 0 (vt_counter vp) (vt_task vp) (vt_vcpu vp)) ;;
  p ← get_task c;
  put_task c (Task (t_status p) (nr_vcpu_ready p) 0 (t_counter p) (t_bitmap p) (t_vm p)) ;;
  modify (fun s => set_rq_lock s (spin_unlock (rq_lock s))) ;;
  prepare_to_switch vms next ;;
  switch_to h.

(** The entries of a table that differ only in who runs. *)
Definition vt_like (p p' : vtask) : Prop := vt_vcpu p' = vt_vcpu p /\ vt_level p' = vt_level p /\ vt_counter p' = vt_counter p.
Definition t_like (t t' : task_struct) : Prop :=
  t_status t' = t_status t /\ t_counter t' = t_counter t /\ t_bitmap t' = t_bitmap t /\ t_vm t' = t_vm t.

Lemma chosen_run s c vc next h t tc ph pv vm : 0 <= c -> 0 <= vc -> 0 <= next -> 0 <= h ->
  tasks s !! Z.to_nat next = Some t -> tasks s !! Z.to_nat c = Some tc ->
  vtasks s !! Z.to_nat h = Some ph -> vtasks s !! Z.to_nat vc = Some pv ->
  0 <= t_vm t -> vms !! Z.to_nat (t_vm t) = Some vm ->
  exists s', chosen c vc next h s = Ok ((), s') /\ queues s' = queues s /\ rq_lock s' = spin_unlock (rq_lock s) /\
    cpu_vcpu s' = vt_vcpu ph /\ vttbr s' = vttbr_of vm /\
    (forall i p, vtasks s !! i = Some p -> exists p', vtasks s' !! i = Some p' /\ vt_like p p' /\
       vt_status p' = if decide (i = Z.to_nat h) then TASK_RUNNING else vt_status p) /\
    (forall i p, tasks s !! i = Some p -> exists p', tasks s' !! i = Some p' /\ t_like p p' /\
       nr_vcpu_ready p' = if decide (i = Z.to_nat next) then i32 (nr_vcpu_ready p - 1) else nr_vcpu_ready p).
Proof.
  intros Hc Hvc Hn Hh Ht Htc Hph Hpv Hv0 Hvm. unfold chosen, mbind, st_bind. rewrite (get_vtask_run _ h ph) by done. rewrite (put_vtask_run _ h ph) by done.
  rewrite (get_task_run _ next t) by done. rewrite (put_task_run _ next t) by done. cbn [set_vtasks set_tasks].
  set (ph' := VTask TASK_RUNNING _ _ _ _ _). set (t' := Task (t_status t) _ _ _ _ _).
  pose proof (insert_lookup_Some _ (Z.to_nat h) ph' _ _ Hpv) as Hpv'. set (pv' := if decide _ then ph' else pv) in Hpv'.
  pose proof (insert_lookup_Some _ (Z.to_nat next) t' _ _ Htc) as Htc'. set (tc' := if decide _ then t' else tc) in Htc'.
  rewrite (get_vtask_run _ vc pv') by done. rewrite (put_vtask_run _ vc pv') by done. cbn [set_vtasks set_tasks].
  rewrite (get_task_run _ c tc') by done. rewrite (put_task_run _ c tc') by done. unfold modify, set_rq_lock. cbn [set_vtasks set_tasks tasks vtasks queues rq_lock cpu_vcpu vttbr].
  set (pv2 := VTask (vt_status pv') _ _ _ _ _). set (tc2 := Task (t_status tc') _ _ _ _ _).
  assert (exists t3, <[Z.to_nat c := tc2]> (<[Z.to_nat next := t']> (tasks s)) !! Z.to_nat next = Some t3 /\ t_vm t3 = t_vm t) as (t3 & Ht3 & Hvm3).
  { pose proof (insert_lookup_Some _ (Z.to_nat next) t' _ _ Ht) as H1. rewrite decide_True in H1 by done.
    pose proof (insert_lookup_Some _ (Z.to_nat c) tc2 _ _ H1) as H2. eexists. split; [exact H2|]. destruct (decide (Z.to_nat next = Z.to_nat c)) as [E|]; [|done].
    subst tc2 tc'. rewrite <- E, decide_True by done. done. }
  assert (exists p3, <[Z.to_nat vc := pv2]> (<[Z.to_nat h := ph']> (vtasks s)) !! Z.to_nat h = Some p3 /\ vt_vcpu p3 = vt_vcpu ph) as (p3 & Hp3 & Hvp3).
  { pose proof (insert_lookup_Some _ (Z.to_nat h) ph' _ _ Hph) as H1. rewrite decide_True in H1 by done.
    pose proof (insert_lookup_Some _ (Z.to_nat vc) pv2 _ _ H1) as H2. eexists. split; [exact H2|]. destruct (decide (Z.to_nat h = Z.to_nat vc)) as [E|]; [|done].
    subst pv2 pv'. rewrite <- E, decide_True by done. done. }
  unfold prepare_to_switch, switch_to, mbind, st_bind. rewrite (get_task_run _ next t3) by done. unfold get_vm, lift. rewrite Hvm3.
  rewrite (proj2 (rd_Ok _ _ _) (conj Hv0 Hvm)). unfold modify. rewrite (get_vtask_run _ h p3) by done.
  eexists. split; [reflexivity|]. cbn [queues rq_lock cpu_vcpu vtasks tasks vttbr]. split_and!; try done.
  - intros i p Hi. pose proof (insert_lookup_Some _ (Z.to_nat h) ph' _ _ Hi) as H1. pose proof (insert_lookup_Some _ (Z.to_nat vc) pv2 _ _ H1) as H2.
    eexists. split; [exact H2|]. subst pv2 pv' ph'. repeat destruct (decide _); subst; simplify_eq; cbn; try done.
  - intros i p Hi. pose proof (insert_lookup_Some _ (Z.to_nat next) t' _ _ Hi) as H1. pose proof (insert_lookup_Some _ (Z.to_nat c) tc2 _ _ H1) as H2.
    eexists. split; [exact H2|]. subst tc2 tc' t'. repeat destruct (decide _); subst; simplify_eq; cbn; try done.
Qed.

Lemma schedule_shape s c vc t p l s2 next w : is_vcpu (cpu_vcpu s) c vc -> 0 <= c -> tasks s !! Z.to_nat c = Some t ->
  0 <= vc -> vtasks s !! Z.to_nat vc = Some p -> spin_lock (rq_lock s) = Ok l ->
  (a ← select_vm fuel (None, 20); match fst a with None => recharge fuel ;; select_vm fuel a | Some _ => mret a end) (yielded s c vc t p l) =
    Ok ((Some next, w), s2) ->
  schedule vms fuel s = (t ← get_task next; i ← lift (first_level (t_bitmap t)); h ← select_vcpu fuel next i; chosen c vc next h) s2.
Proof.
  intros Hcur Hc Ht Hvc Hp Hl Hsel. destruct (current_run s c vc Hcur) as [E1 E2]. unfold schedule.
  unfold mbind at 1, st_bind at 1. rewrite E2. unfold mbind at 1, st_bind at 1. rewrite E1.
  unfold mbind at 1, st_bind at 1, gets at 1. unfold mbind at 1, st_bind at 1, lift at 1. rewrite Hl.
  unfold mbind at 1, st_bind at 1, modify at 1. unfold mbind at 1, st_bind at 1. rewrite (get_task_run _ c t) by done.
  unfold mbind at 1, st_bind at 1. rewrite (put_task_run _ c t) by done.
  unfold mbind at 1, st_bind at 1. rewrite (get_vtask_run _ vc p) by done.
  unfold mbind at 1, st_bind at 1. rewrite (put_vtask_run _ vc p) by done.
  change (set_vtasks _ _) with (yielded s c vc t p l). revert Hsel. unfold mbind at 1, st_bind at 1. intros Hsel.
  unfold mbind at 1, st_bind at 1. destruct (select_vm fuel (None, 20) (yielded s c vc t p l)) as [[a s1]|]; [|done].
  unfold mbind at 1, st_bind at 1. rewrite Hsel. reflexivity.
Qed.

Lemma yielded_counter s c vc t p l k : tasks s !! Z.to_nat c = Some t -> counter (tasks (yielded s c vc t p l)) k = counter (tasks s) k.
Proof.
  intros Ht. unfold counter. cbn [tasks yielded]. destruct (tasks s !! Z.to_nat k) as [tk|] eqn:Hk.
  - rewrite (insert_lookup_Some _ _ _ _ _ Hk). destruct (decide _) as [E|]; [|done]. rewrite E in Hk. by assert (tk = t) as -> by congruence.
  - destruct (decide (Z.to_nat k = Z.to_nat c)) as [E|Hne]; [rewrite E in Hk; congruence|]. by rewrite list_lookup_insert_ne, Hk.
Qed.

Lemma counters_after_ext ts ts' L k : (forall j, counter ts' j = counter ts j) -> counters_after ts' L k = counters_after ts L k.
Proof.
  intros He. unfold counters_after. rewrite He. replace (forallb (fun j => counter ts' j =? 0) L) with (forallb (fun j => counter ts j =? 0) L); [done|].
  induction L as [|j L IH]; [done|]. simpl. by rewrite He, IH.
Qed.

(** Recharging keeps everything but the counter. *)
Lemma recharged_task s ts' k n : task_ok s k n -> ts' !! Z.to_nat k = tasks s !! Z.to_nat k \/ ts' !! Z.to_nat k = recharged <$> tasks s !! Z.to_nat k ->
  task_ok (set_tasks s ts') k n.
Proof.
  intros (Hk & t & Ht & Hs & Hn & Hn2 & Hc & Hb & Hv) Hts. split; [done|]. cbn [tasks set_tasks]. rewrite Ht in Hts.
  destruct Hts as [->| ->]; [by exists t|]. destruct Hv as [Hv0 Hv]. exists (recharged t). split; [done|]. cbn. split_and!; try done; unfold DEFAULT_COUNTER; lia.
Qed.

(** The choice is the same whatever else the entries hold. *)
Definition rotate (Q : Z -> list Z) (next h : Z) (rest : list Z) (k : Z) : list Z := if decide (k = next) then rest ++ [h] else Q k.

Lemma schedule_run s L Q B A c vc : sched_ok s L Q B A c vc -> (length L < fuel)%nat ->
  exists next h rest s' A', schedule vms fuel s = Ok ((), s') /\ next ∈ L /\ Q next = h :: rest /\
    first_max (tasks s') L next /\ (forall k, k ∈ L -> counter (tasks s') k = counters_after (tasks s) L k) /\
    (exists vm, sv_id vm = next /\ vttbr s' = vttbr_of vm /\ vm ∈ vms) /\
    sched_ok s' L (rotate Q next h rest) B A' next h.
Proof.
  intros Hok Hf. destruct (so_cur _ _ _ _ _ _ _ Hok) as (Hcur & Hcl & Hvc).
  destruct (so_task _ _ _ _ _ _ _ Hok c Hcl) as [(Hc0 & t & Ht & _) _]. destruct (so_vtask _ _ _ _ _ _ _ Hok c vc Hcl Hvc) as (Hvc0 & p & Hp & _).
  destruct (spin_lock_unlock _ (so_lock _ _ _ _ _ _ _ Hok)) as (l & El & Hul & _). set (s1 := yielded s c vc t p l).
  assert (forall k, k ∈ L -> task_ok s1 k (B k)) as Htask by (intros k Hk; by eapply yielded_task).
  destruct (select_phase s1 L A (default 0 (head L))) as (next & w & ts' & Esel & Hmax & Hcnt & Hts);
    [apply Hok|apply Hok|done|by destruct L; [apply elem_of_nil in Hcl|]| |].
  { apply Forall_forall. intros k Hk. destruct (Htask k Hk) as (Hk0 & tk & Htk & Hs & Hn & Hn2 & Hc & _). destruct (so_task _ _ _ _ _ _ _ Hok k Hk) as [_ HB].
    split; [done|]. exists tk. split_and!; try done; lia. }
  assert (next ∈ L) as Hnl by (destruct Hmax as (L1 & L2 & -> & _); set_solver). set (s2 := set_tasks s1 ts') in *.
  assert (forall k, k ∈ L -> task_ok s2 k (B k)) as Htask2 by (intros k Hk; apply recharged_task; auto).
  destruct (Htask2 next Hnl) as (Hn0 & tn & Htn & _ & _ & _ & _ & Hbn & Hv0 & vm & Hvm & Hid).
  destruct (Htask2 c Hcl) as (_ & tc & Htc & _). destruct (so_rq _ _ _ _ _ _ _ Hok next Hnl) as [HA HQ].
  destruct (Q next) as [|h rest] eqn:EQ; [done|].
  assert (forall k i, k ∈ L -> i ∈ Q k -> exists p', vtasks s2 !! Z.to_nat i = Some p' /\ vt_status p' = TASK_READY /\ is_vcpu (vt_vcpu p') k i) as Hvt
    by (intros k i Hk Hi; by eapply (yielded_vtask s L Q B A)).
  destruct (Hvt next h Hnl ltac:(rewrite EQ; left)) as (ph & Hph & Hst & Hvh). destruct (Hvt c vc Hcl Hvc) as (pv & Hpv & _ & _).
  assert (0 <= h) as Hh0 by (apply (so_vtask _ _ _ _ _ _ _ Hok next h Hnl); rewrite EQ; left).
  destruct (select_skips s2 A next [] h rest ph) with (n := fuel) as (q' & Eq & Hrep); [apply Hok|done|constructor|done|done|done|simpl; lia|].
  destruct (chosen_run (set_queues s2 q') c vc next h tn tc ph pv vm) as (s' & Ech & Hq & Hlk & Hcv & Hvb & Hvts & Htsk); try done.
  exists next, h, rest, s', (<[RqLevel next DEFAULT_LEVEL := TaskFifo <$> rest ++ [h]]> A).
  assert (forall k, k ∈ L -> counter (tasks s') k = counter ts' k) as Hcs.
  { intros k Hk. destruct (Htask2 k Hk) as (_ & tk & Htk & _). destruct (Htsk _ _ Htk) as (t3 & Ht3 & (_ & Hc3 & _) & _).
    unfold counter. rewrite Ht3. cbn [tasks s2 set_tasks] in Htk. rewrite Htk. cbn. by rewrite Hc3. }
  split; [|split; [done|split; [done|split; [|split; [|split]]]]].
  - rewrite (schedule_shape s c vc t p l s2 next w) by done. unfold mbind at 1, st_bind at 1. rewrite (get_task_run _ next tn) by done.
    unfold mbind at 1, st_bind at 1, lift. rewrite Hbn. change (first_level (Z.shiftl 1 DEFAULT_LEVEL)) with (Ok DEFAULT_LEVEL).
    unfold mbind, st_bind. by rewrite Eq, Ech.
  - by apply (counter_ext ts').
  - intros k Hk. rewrite (Hcs k Hk), (Hcnt k Hk). apply counters_after_ext. intros j. by apply yielded_counter.
  - exists vm. split; [done|]. split; [done|]. by eapply list_elem_of_lookup_2.
  - split.
    + by rewrite Hq.
    + rewrite lookup_insert_ne by done. apply Hok.
    + intros k Hk. unfold rotate. destruct (decide (k = next)) as [->|Hne].
      * rewrite lookup_insert_eq. split; [done|]. by destruct rest.
      * rewrite lookup_insert_ne by congruence. by apply (so_rq _ _ _ _ _ _ _ Hok).
    + intros k Hk. destruct (so_task _ _ _ _ _ _ _ Hok k Hk) as [_ HB]. split; [|done]. destruct (Htask2 k Hk) as (Hk0 & tk & Htk & Hs & Hn & Hn2 & Hc & Hb & Hv).
      split; [done|]. destruct (Htsk _ _ Htk) as (t3 & Ht3 & (T1 & T2 & T3 & T4) & Hnr). exists t3. rewrite T1, T2, T3, T4, Hnr. split; [done|]. split; [done|].
      destruct (decide (k = next)) as [->|Hne].
      * destruct Hv as [Hv1 Hv2]. rewrite decide_True, i32_small by (done || lia). split_and!; try done; lia.
      * rewrite decide_False by lia. done.
    + intros k i Hk Hi. assert (i ∈ Q k) as Hi'.
      { unfold rotate in Hi. destruct (decide (k = next)) as [->|]; [|done]. rewrite EQ. set_solver. }
      split; [by apply (so_vtask _ _ _ _ _ _ _ Hok k i)|]. destruct (Hvt k i Hk Hi') as (pi & Hpi & Hsi & Hvi).
      destruct (Hvts _ _ Hpi) as (p3 & Hp3 & (V1 & _) & Hs3). exists p3. rewrite V1, Hs3. split_and!; try done.
      intros Hne. rewrite decide_False; [done|]. destruct (so_vtask _ _ _ _ _ _ _ Hok k i Hk Hi') as (Hi0 & _). lia.
    + rewrite Hcv. split_and!; [done|done|]. unfold rotate. rewrite decide_True by done. set_solver.
    + rewrite Hlk. done.
Qed.

(** ** [task_struct_init] *)

Lemma reinit_rep (q : gmap node (link node)) A h l : represents q (<[h := l]> A) -> fresh A h ->
  exists q', INIT_FIFO q (Some h) = Ok q' /\ represents q' (<[h := []]> A).
Proof.
  intros Hr Hf. apply (rep_weaken _ _ h) in Hr. rewrite delete_insert_eq in Hr.
  destruct (init_rep q (delete h A) h Hr) as (q' & E & Hr').
  { intros h2 l2 [_ H2]%lookup_delete_Some. by apply Hf. }
  exists q'. split; [done|]. by rewrite insert_delete_eq in Hr'.
Qed.

(** The loop that initialises the queue of one level again and again. *)
Lemma init_levels_run s A k n i : represents (queues s) A -> fresh A (RqLevel k DEFAULT_LEVEL) ->
  exists q', for_st (S n) i (fun _ => on_queues (fun q => INIT_FIFO q (Some (RqLevel k DEFAULT_LEVEL)))) s = Ok ((), set_queues s q') /\
    represents q' (<[RqLevel k DEFAULT_LEVEL := []]> A).
Proof.
  revert s i. set (h := RqLevel k DEFAULT_LEVEL). intros s i Hr Hf. destruct (init_rep _ A h Hr Hf) as (q1 & E1 & Hr1).
  assert (forall n i s, represents (queues s) (<[h := []]> A) -> exists q', for_st n i (fun _ => on_queues (fun q => INIT_FIFO q (Some h))) s =
    Ok ((), set_queues s q') /\ represents q' (<[h := []]> A)) as Hloop.
  { clear s i Hr q1 E1 Hr1. induction n0 as [|m IH]; intros i s Hr; [by exists (queues s); destruct s|]. cbn [for_st].
    destruct (reinit_rep _ A h [] Hr Hf) as (q1 & E1 & Hr1). unfold mbind, st_bind, on_queues at 1, mbind, outcome_bind. rewrite E1.
    destruct (IH (i + 1) (set_queues s q1) Hr1) as (q' & E & Hr'). exists q'. by rewrite E. }
  cbn [for_st]. unfold mbind, st_bind, on_queues at 1, mbind, outcome_bind, INIT_FIFO at 1. rewrite E1.
  destruct (Hloop n (i + 1) (set_queues s q1) Hr1) as (q' & E & Hr'). exists q'. by rewrite E.
Qed.

(** The entry a virtual CPU gets. *)
Definition new_vtask (k v j : Z) : vtask := VTask TASK_READY DEFAULT_LEVEL 0 DEFAULT_COUNTER k (v, j).

(** The first [j] virtual CPUs are queued. *)
Record queued (s0 s : sched) (A : gmap node (list node)) (ids : list Z) (k v : Z) (j : nat) : Prop := {
  qd_rep : represents (queues s) (<[RqLevel k DEFAULT_LEVEL := TaskFifo <$> take j ids]> A);
  qd_rest : tasks s = tasks s0 /\ rq_lock s = rq_lock s0 /\ cpu_vcpu s = cpu_vcpu s0 /\ vttbr s = vttbr s0 /\ length (vtasks s) = length (vtasks s0);
  qd_new i m : (m < j)%nat -> ids !! m = Some i -> vtasks s !! Z.to_nat i = Some (new_vtask k v (Z.of_nat m));
  qd_old i : (forall m x, (m < j)%nat -> ids !! m = Some x -> Z.to_nat x ≠ i) -> vtasks s !! i = vtasks s0 !! i;
}.

Lemma queue_one s0 s A ids k v vm j i t : queued s0 s A ids k v j -> ids !! j = Some i ->
  NoDup ids -> Forall (fun x => 0 <= x < Z.of_nat (length (vtasks s0))) ids ->
  fresh A (TaskFifo i) -> 0 <= k -> tasks s0 !! Z.to_nat k = Some t -> t_vm t = v -> 0 <= v -> vms !! Z.to_nat v = Some vm -> sv_vcpu_ids vm = ids ->
  exists s', (x ← __task_struct_init vms k (Z.of_nat j); on_queues (fun q => fifo_in q (Some (TaskFifo x)) (Some (RqLevel k DEFAULT_LEVEL)))) s = Ok ((), s') /\
    queued s0 s' A ids k v (S j).
Proof.
  intros [Hr (Q1 & Q2 & Q3 & Q4 & Q5) Hnew Hold] Hj Hnd Hrange Hfresh Hk Ht Hvt Hv Hvm Hids.
  assert (0 <= i < Z.of_nat (length (vtasks s0))) as Hi by (rewrite Forall_forall in Hrange; apply Hrange; by eapply list_elem_of_lookup_2).
  assert (forall m x, ids !! m = Some x -> m ≠ j -> Z.to_nat x ≠ Z.to_nat i) as Hother.
  { intros m x Hm Hne E. apply Hne, (NoDup_lookup _ _ _ _ Hnd Hm). rewrite Forall_forall in Hrange.
    pose proof (Hrange x ltac:(by eapply list_elem_of_lookup_2)). assert (x = i) as -> by lia. done. }
  assert (exists z, vtasks s !! Z.to_nat i = Some z) as [z Hz] by (apply lookup_lt_is_Some_2; lia).
  set (h := RqLevel k DEFAULT_LEVEL) in *. set (A1 := <[h := TaskFifo <$> take j ids]> A) in *.
  assert (fresh A1 (TaskFifo i)) as Hf1.
  { intros h2 l2. unfold A1. destruct (decide (h2 = h)) as [->|Hne]; [|rewrite lookup_insert_ne by done; apply Hfresh].
    rewrite lookup_insert_eq. intros [= <-] [|Hin]%elem_of_cons; [done|]. apply list_elem_of_fmap in Hin as (x & [= <-] & Hin).
    apply list_elem_of_lookup in Hin as [m Hm]. apply lookup_take_Some in Hm as [Hm Hlt]. assert (m ≠ j) as Hmj by lia. by destruct (Hother m i Hm Hmj). }
  destruct (init_rep (queues s) A1 (TaskFifo i) Hr Hf1) as (q1 & E1 & Hr1). apply (rep_weaken _ _ (TaskFifo i)) in Hr1.
  rewrite delete_insert_eq in Hr1. rewrite delete_id in Hr1 by (destruct (A1 !! TaskFifo i) as [l0|] eqn:E0; [|done]; specialize (Hf1 _ _ E0); set_solver).
  destruct (list_add_tail_rep q1 A1 h (TaskFifo <$> take j ids) (TaskFifo i) Hr1) as (q2 & E2 & Hr2); [apply lookup_insert_eq|done|].
  eexists. split.
  - unfold __task_struct_init, mbind, st_bind. rewrite (get_task_run _ k t) by (done || by rewrite Q1). unfold get_vm, lift.
    rewrite Hvt, (proj2 (rd_Ok _ _ _) (conj Hv Hvm)), Hids. rewrite (proj2 (rd_Ok ids (Z.of_nat j) i)) by (rewrite Nat2Z.id; split; [lia|done]).
    rewrite (put_vtask_run _ i z) by (done || lia). unfold on_queues, mbind, outcome_bind, INIT_FIFO. cbn [queues set_vtasks]. rewrite E1.
    cbn [queues set_queues]. unfold mret, st_ret, fifo_in. cbn [queues set_queues]. rewrite E2. reflexivity.
  - split; cbn [queues set_queues vtasks set_vtasks tasks rq_lock cpu_vcpu vttbr].
    + subst A1. rewrite insert_insert_eq in Hr2. by rewrite (take_S_r _ _ _ Hj), fmap_app.
    + split_and!; try done. by rewrite length_insert.
    + intros x m Hm Hx. destruct (decide (m = j)) as [->|Hne].
      * assert (x = i) as -> by congruence. by apply list_lookup_insert_eq; lia.
      * rewrite list_lookup_insert_ne by (apply not_eq_sym; by eapply Hother). apply Hnew; [lia|done].
    + intros x Hx. rewrite list_lookup_insert_ne by (apply (Hx j i); [lia|done]). apply Hold. intros m y Hm. apply Hx. lia.
Qed.

Lemma queue_all s0 s A ids k v vm t j n : queued s0 s A ids k v j -> (j + n = length ids)%nat ->
  NoDup ids -> Forall (fun x => 0 <= x < Z.of_nat (length (vtasks s0))) ids -> (forall i, i ∈ ids -> fresh A (TaskFifo i)) ->
  0 <= k -> tasks s0 !! Z.to_nat k = Some t -> t_vm t = v -> 0 <= v -> vms !! Z.to_nat v = Some vm -> sv_vcpu_ids vm = ids ->
  exists s', for_st n (Z.of_nat j) (fun i => x ← __task_struct_init vms k i; on_queues (fun q => fifo_in q (Some (TaskFifo x)) (Some (RqLevel k DEFAULT_LEVEL)))) s = Ok ((), s') /\
    queued s0 s' A ids k v (length ids).
Proof.
  revert s j. induction n as [|n IH]; intros s j Hq Hlen Hnd Hr Hf Hk Ht Hvt Hv Hvm Hids.
  - replace j with (length ids) in Hq by lia. by exists s.
  - destruct (lookup_lt_is_Some_2 ids j) as [i Hi]; [lia|].
    destruct (queue_one s0 s A ids k v vm j i t) as (s1 & E1 & Hq1); try done; [apply Hf; by eapply list_elem_of_lookup_2|].
    destruct (IH s1 (S j)) as (s2 & E2 & Hq2); try done; [lia|]. exists s2. split; [|done]. cbn [for_st]. unfold mbind at 1, st_bind at 1. rewrite E1.
    by replace (Z.of_nat j + 1) with (Z.of_nat (S j)) by lia.
Qed.

Lemma set_default_level b : bitmap_set [b] DEFAULT_LEVEL = Ok [Z.lor b (Z.shiftl 1 DEFAULT_LEVEL)].
Proof. done. Qed.

(** What [task_struct_init] makes of the state before it enters the VM into the run
    queue: the VM's queue holds its virtual CPUs in order, each with an entry of
    its own. *)
Record filled (s s' : sched) (A : gmap node (list node)) (ids : list Z) (k v : Z) (t : task_struct) : Prop := {
  fl_rep : represents (queues s') (<[RqLevel k DEFAULT_LEVEL := TaskFifo <$> ids]> A);
  fl_tasks : tasks s' = <[Z.to_nat k := Task (t_status t) (Z.of_nat (length ids)) 0 DEFAULT_COUNTER (Z.lor (t_bitmap t) (Z.shiftl 1 DEFAULT_LEVEL)) v]> (tasks s);
  fl_rest : rq_lock s' = rq_lock s /\ cpu_vcpu s' = cpu_vcpu s /\ vttbr s' = vttbr s;
  fl_len : length (vtasks s') = length (vtasks s);
  fl_new i m : ids !! m = Some i -> vtasks s' !! Z.to_nat i = Some (new_vtask k v (Z.of_nat m));
  fl_old i : (forall x, x ∈ ids -> Z.to_nat x ≠ i) -> vtasks s' !! i = vtasks s !! i;
}.

Lemma task_init_fills s A v vm t : let k := sv_id vm in let ids := sv_vcpu_ids vm in
  represents (queues s) A -> 0 <= v -> vms !! Z.to_nat v = Some vm ->
  0 <= k -> tasks s !! Z.to_nat k = Some t -> NoDup ids -> Forall (fun x => 0 <= x < Z.of_nat (length (vtasks s))) ids ->
  fresh A (RqLevel k DEFAULT_LEVEL) -> (forall i, i ∈ ids -> fresh A (TaskFifo i)) ->
  exists s1, task_struct_init vms v s = on_queues (fun q => list_add_tail q (Some (TaskList k)) (Some Runqueue)) s1 /\ filled s s1 A ids k v t.
Proof.
  intros k ids Hr Hv Hvm Hk Ht Hnd Hrange Hfr Hfi. set (h := RqLevel k DEFAULT_LEVEL) in *.
  set (t1 := Task (t_status t) (Z.of_nat (length ids)) 0 DEFAULT_COUNTER (t_bitmap t) v). set (s1 := set_tasks s (<[Z.to_nat k := t1]> (tasks s))).
  destruct (init_levels_run s1 A k 7 0 Hr Hfr) as (q1 & E1 & Hr1). set (s2 := set_queues s1 q1) in *.
  assert (tasks s2 !! Z.to_nat k = Some t1) as Ht1 by (apply list_lookup_insert_eq; by eapply lookup_lt_Some).
  destruct (queue_all s2 s2 A ids k v vm t1 0 (length ids)) as (s3 & E3 & [Hr3 (Q1 & Q2 & Q3 & Q4 & Q5) Hnew Hold]); try done.
  { split; try done. by intros i m Hm%Nat.nlt_0_r. }
  rewrite firstn_all in Hr3.
  eexists. split.
  - unfold task_struct_init, mbind, st_bind, get_vm, lift. rewrite (proj2 (rd_Ok _ _ _) (conj Hv Hvm)). fold k ids.
    rewrite (get_task_run _ k t), (put_task_run _ k t) by done. fold t1. fold s1. change (Z.to_nat BMQ_LEVELS) with 8%nat. rewrite E1.
    rewrite Nat2Z.id. change 0 with (Z.of_nat 0) at 1. unfold mbind, st_bind in E3. rewrite E3. rewrite (get_task_run _ k t1) by (done || by rewrite Q1).
    rewrite set_default_level. change (rd [Z.lor (t_bitmap t1) (Z.shiftl 1 DEFAULT_LEVEL)] 0) with (Ok (Z.lor (t_bitmap t1) (Z.shiftl 1 DEFAULT_LEVEL))).
    cbv beta iota. rewrite (put_task_run _ k t1) by (done || by rewrite Q1). reflexivity.
  - split; cbn [queues set_queues tasks set_tasks vtasks rq_lock cpu_vcpu vttbr]; try done.
    + rewrite Q1. cbn [s2 s1 tasks set_queues set_tasks]. rewrite list_insert_insert_eq. done.
    + intros i m Hm. apply (Hnew i m); [|done]. by eapply lookup_lt_Some.
    + intros i Hi. rewrite Hold; [done|]. intros m x Hm Hx. apply Hi. by eapply list_elem_of_lookup_2.
Qed.

(** What it leaves of a VM that is not in the run queue: the VM is last in it. *)
Lemma task_init_run s A L v vm t : let k := sv_id vm in let ids := sv_vcpu_ids vm in
  represents (queues s) A -> A !! Runqueue = Some (TaskList <$> L) -> 0 <= v -> vms !! Z.to_nat v = Some vm ->
  0 <= k -> tasks s !! Z.to_nat k = Some t -> NoDup ids -> Forall (fun x => 0 <= x < Z.of_nat (length (vtasks s))) ids ->
  fresh A (TaskList k) -> fresh A (RqLevel k DEFAULT_LEVEL) -> (forall i, i ∈ ids -> fresh A (TaskFifo i)) ->
  exists s1 q, filled s s1 A ids k v t /\ task_struct_init vms v s = Ok ((), set_queues s1 q) /\
    represents q (<[Runqueue := TaskList <$> L ++ [k]]> (<[RqLevel k DEFAULT_LEVEL := TaskFifo <$> ids]> A)).
Proof.
  intros k ids Hr Hq Hv Hvm Hk Ht Hnd Hrange Hfl Hfr Hfi.
  destruct (task_init_fills s A v vm t Hr Hv Hvm Hk Ht Hnd Hrange Hfr Hfi) as (s1 & E1 & Hf). fold k ids in E1, Hf.
  destruct (list_add_tail_rep (queues s1) _ Runqueue (TaskList <$> L) (TaskList k) (fl_rep _ _ _ _ _ _ _ Hf)) as (q & E & Hr'); [by rewrite lookup_insert_ne| |].
  { intros h2 l2. destruct (decide (h2 = RqLevel k DEFAULT_LEVEL)) as [->|Hne]; [|rewrite lookup_insert_ne by done; apply Hfl].
    rewrite lookup_insert_eq. intros [= <-] [|Hin]%elem_of_cons; [done|]. by apply list_elem_of_fmap in Hin as (x & ? & _). }
  exists s1, q. split; [done|]. split; [|by rewrite fmap_app]. rewrite E1. unfold on_queues, mbind, outcome_bind. by rewrite E.
Qed.

(** *** A VM registered twice *)

(** A CPU can name its virtual CPU, and the VM and virtual CPU it names have entries. *)
Definition running (s : sched) : Prop :=
  exists c vc, is_vcpu (cpu_vcpu s) c vc /\ 0 <= c /\ 0 <= vc /\ is_Some (tasks s !! Z.to_nat c) /\ is_Some (vtasks s !! Z.to_nat vc).

(** Once a node of the run queue is its own successor, choosing a VM never ends. *)
Lemma schedule_hangs s (L : list Z) k : running s -> unlocked (rq_lock s) ->
  lnext (nd (queues s) Runqueue) = Some (default (TaskList k) (TaskList <$> head L)) ->
  (forall x, x ∈ TaskList <$> k :: L -> exists y, lnext (nd (queues s) x) = Some y /\ y ∈ TaskList <$> k :: L) ->
  Forall (fun j => 0 <= j /\ is_Some (tasks s !! Z.to_nat j)) (k :: L) -> schedule vms fuel s = Halt HFuel.
Proof.
  intros (c & vc & Hcur & Hc & Hvc & [t Ht] & [p Hp]) Hlk Hhead Hcyc Hex. destruct (current_run s c vc Hcur) as [E1 E2].
  destruct (spin_lock_unlock _ Hlk) as (l & El & _ & _). unfold schedule.
  unfold mbind at 1, st_bind at 1. rewrite E2. unfold mbind at 1, st_bind at 1. rewrite E1.
  unfold mbind at 1, st_bind at 1, gets at 1. unfold mbind at 1, st_bind at 1, lift at 1. rewrite El.
  unfold mbind at 1, st_bind at 1, modify at 1. unfold mbind at 1, st_bind at 1. rewrite (get_task_run _ c t) by done.
  unfold mbind at 1, st_bind at 1. rewrite (put_task_run _ c t) by done.
  unfold mbind at 1, st_bind at 1. rewrite (get_vtask_run _ vc p) by done.
  unfold mbind at 1, st_bind at 1. rewrite (put_vtask_run _ vc p) by done.
  change (set_vtasks _ _) with (yielded s c vc t p l).
  assert (select_vm fuel (None, 20) (yielded s c vc t p l) = Halt HFuel) as Hsel; [|unfold mbind at 1, st_bind at 1; by rewrite Hsel].
  unfold select_vm, list_for_each_entry, get_next. mstep. cbn [queues yielded tasks]. rewrite Hhead.
  set (ts := <[Z.to_nat c := _]> (tasks s)). assert (Forall (fun j => 0 <= j /\ is_Some (ts !! Z.to_nat j)) (k :: L)) as Hex'.
  { eapply Forall_impl; [exact Hex|]. cbn. intros j [Hj [y Hy]]. split; [done|]. unfold ts. rewrite (insert_lookup_Some _ _ _ _ _ Hy). by eexists. }
  rewrite (list_iter_cycle _ (fun _ => True) _ _ (TaskList <$> k :: L)); try done.
  - intros Hin. by apply list_elem_of_fmap in Hin as (? & ? & _).
  - intros x a Hin _. apply list_elem_of_fmap in Hin as (j & -> & Hj). rewrite Forall_forall in Hex'. destruct (Hex' j Hj) as [Hj0 [y Hy]].
    cbn [select_body]. rewrite (proj2 (rd_Ok _ _ _) (conj Hj0 Hy)). mstep. by destruct (_ && _); eexists.
  - destruct L as [|j L]; cbn; [left|]. right. left.
Qed.

(** ** The timer tick *)

Lemma update_task_times_run s L Q B A c vc : sched_ok s L Q B A c vc ->
  exists s', update_task_times vms s = Ok ((), s') /\ sched_ok s' L Q B A c vc.
Proof.
  intros Hok. destruct (so_cur _ _ _ _ _ _ _ Hok) as (Hcur & Hcl & Hvc). destruct (current_run s c vc Hcur) as [E1 E2].
  destruct (so_task _ _ _ _ _ _ _ Hok c Hcl) as [(Hc0 & t & Ht & Hct) _]. destruct (so_vtask _ _ _ _ _ _ _ Hok c vc Hcl Hvc) as (Hvc0 & p & Hp & _).
  unfold update_task_times, mbind, st_bind. rewrite E1, E2. rewrite (get_vtask_run _ vc p), (put_vtask_run _ vc p) by done.
  rewrite (get_task_run _ c t), (put_task_run _ c t) by done. set (p' := if _ <=? 0 then _ else _). set (t' := if _ <=? 0 then _ else _).
  assert (vt_status p' = vt_status p /\ vt_vcpu p' = vt_vcpu p) as [Hps Hpv] by (unfold p'; by destruct (_ <=? 0)).
  assert (t_like t t' \/ t_status t' = t_status t /\ 0 <= t_counter t' <= DEFAULT_COUNTER /\ t_bitmap t' = t_bitmap t /\ t_vm t' = t_vm t) as Htl.
  { right. destruct Hct as (_ & _ & _ & Hcr & _). unfold DEFAULT_COUNTER in *.
    assert (i32 (t_counter t - 1) = t_counter t - 1) as Ei.
    { assert (t_counter t = 0 \/ t_counter t = 1 \/ t_counter t = 2) as [->|[->| ->]] by lia; done. }
    unfold t'. rewrite Ei. destruct (Z.leb_spec (t_counter t - 1) 0); cbn; split_and!; done || lia. }
  assert (nr_vcpu_ready t' = nr_vcpu_ready t) as Hnr by (unfold t'; destruct (i32 (t_counter t - 1) <=? 0); reflexivity).
  eexists. split; [reflexivity|]. destruct Hok as [O1 O2 O3 O4 O5 O6 O7]. split; cbn [queues tasks vtasks set_tasks set_vtasks cpu_vcpu rq_lock]; try done.
  - intros k Hk. destruct (O4 k Hk) as [(Hk0 & tk & Htk & Hs & Hn & Hn2 & Hc & Hb & Hv) HB]. split; [|done]. split; [done|].
    cbn [tasks set_tasks set_vtasks]. rewrite (insert_lookup_Some _ _ _ _ _ Htk). eexists. split; [done|].
    destruct (decide (Z.to_nat k = Z.to_nat c)) as [E|]; [|done]. rewrite E in Htk. assert (tk = t) as -> by congruence.
    destruct Htl as [(L1 & L2 & L3 & L4)|(L1 & L2 & L3 & L4)]; rewrite Hnr, L1, L3, L4; split_and!; try done; try lia; try (by destruct Hv).
  - intros k i Hk Hi. destruct (O5 k i Hk Hi) as (Hi0 & pi & Hpi & Hsi & Hvi). split; [done|]. rewrite (insert_lookup_Some _ _ _ _ _ Hpi).
    eexists. split; [done|]. destruct (decide (Z.to_nat i = Z.to_nat vc)) as [E|]; [|done]. rewrite E in Hpi. assert (pi = p) as -> by congruence. by rewrite Hps, Hpv.
Qed.

(** The scheduler at work: ticks and switches. *)
Inductive sstep : sched -> sched -> Prop :=
| step_tick s s' : update_task_times vms s = Ok ((), s') -> sstep s s'
| step_schedule s s' : schedule vms fuel s = Ok ((), s') -> sstep s s'
| step_try s s' : try_reschedule vms fuel s = Ok ((), s') -> sstep s s'.

Lemma rotate_perm Q next h rest k : Q next = h :: rest -> rotate Q next h rest k ≡ₚ Q k.
Proof. intros HQ. unfold rotate. destruct (decide (k = next)) as [->|]; [|done]. rewrite HQ. symmetry. apply Permutation_cons_append. Qed.

Lemma try_reschedule_shape s L Q B A c vc : sched_ok s L Q B A c vc ->
  try_reschedule vms fuel s = schedule vms fuel s \/ try_reschedule vms fuel s = Ok ((), s).
Proof.
  intros Hok. destruct (so_cur _ _ _ _ _ _ _ Hok) as (Hcur & Hcl & Hvc). destruct (current_run s c vc Hcur) as [E1 E2].
  destruct (so_task _ _ _ _ _ _ _ Hok c Hcl) as [(Hc0 & t & Ht & Hct) _]. destruct (so_vtask _ _ _ _ _ _ _ Hok c vc Hcl Hvc) as (Hvc0 & p & Hp & _).
  assert (try_reschedule vms fuel s = (if negb (vt_need_resched p =? 0) || negb (t_need_resched t =? 0) then schedule vms fuel else mret ()) s) as E.
  { unfold try_reschedule. unfold mbind at 1, st_bind at 1. rewrite E2. unfold mbind at 1, st_bind at 1. rewrite (get_vtask_run _ vc p) by done.
    unfold mbind at 1, st_bind at 1. rewrite E1. unfold mbind at 1, st_bind at 1. by rewrite (get_task_run _ c t) by done. }
  rewrite E. destruct (_ || _); [left|right]; reflexivity.
Qed.

Lemma sstep_ok s s' L Q B A c vc : sched_ok s L Q B A c vc -> (length L < fuel)%nat -> sstep s s' ->
  exists Q' A' c' vc', sched_ok s' L Q' B A' c' vc' /\ forall k, Q' k ≡ₚ Q k.
Proof.
  intros Hok Hf Hs. assert (schedule vms fuel s = Ok ((), s') -> exists Q' A' c' vc', sched_ok s' L Q' B A' c' vc' /\ forall k, Q' k ≡ₚ Q k) as Hsch.
  { intros E. destruct (schedule_run s L Q B A c vc Hok Hf) as (next & h & rest & s1 & A' & E1 & _ & HQ & _ & _ & _ & Hok').
    rewrite E in E1. injection E1 as <-. exists (rotate Q next h rest), A', next, h. split; [done|]. intros k. by apply rotate_perm. }
  destruct Hs as [s s' E|s s' E|s s' E]; [| |].
  - destruct (update_task_times_run s L Q B A c vc Hok) as (s1 & E1 & Hok1). rewrite E in E1. injection E1 as <-. by exists Q, A, c, vc.
  - by apply Hsch.
  - destruct (try_reschedule_shape s L Q B A c vc Hok) as [E1|E1]; rewrite E1 in E; [by apply Hsch|]. injection E as <-. by exists Q, A, c, vc.
Qed.
End run.

(** ** From the first VM on *)

(** [LIST_HEAD_INIT(runqueue)] and zeroed tables. *)
Definition empty_sched (nvm nvcpu : nat) (p : Z * Z) : sched :=
  Sched (replicate nvcpu (VTask 0 0 0 0 0 (0, 0))) (replicate nvm (Task 0 0 0 0 0 0))
    {[Runqueue := Link (K:=node) (Some Runqueue) (Some Runqueue)]} SPINLOCK_INITVAL p 0.

Lemma empty_represents nvm nvcpu p : represents (queues (empty_sched nvm nvcpu p)) {[Runqueue := []]}.
Proof.
  split.
  - intros h l [<- <-]%lookup_singleton_Some. split; [apply NoDup_singleton|]. split; [|done]. split; unfold nd; cbn [queues empty_sched]; by rewrite lookup_singleton_eq.
  - intros h1 l1 h2 l2 k [<- _]%lookup_singleton_Some [<- _]%lookup_singleton_Some. done.
Qed.

(** A single VM, registered, one of whose virtual CPUs runs. *)
Lemma first_vm_ok vms nvm nvcpu v vm j i : 0 <= v -> vms !! Z.to_nat v = Some vm -> 0 <= sv_id vm < Z.of_nat nvm ->
  NoDup (sv_vcpu_ids vm) -> Forall (fun x => 0 <= x < Z.of_nat nvcpu) (sv_vcpu_ids vm) -> 0 <= j -> sv_vcpu_ids vm !! Z.to_nat j = Some i ->
  Z.of_nat (length (sv_vcpu_ids vm)) < 2 ^ 29 ->
  exists s A, task_struct_init vms v (empty_sched nvm nvcpu (v, j)) = Ok ((), s) /\
    sched_ok vms s [sv_id vm] (fun _ => sv_vcpu_ids vm) (fun _ => Z.of_nat (length (sv_vcpu_ids vm)) + 1) A (sv_id vm) i.
Proof.
  intros Hv Hvm Hid Hnd Hr Hj Hi Hlen. set (ids := sv_vcpu_ids vm) in *. set (k := sv_id vm) in *.
  assert (forall x, x ≠ Runqueue -> fresh ({[Runqueue := []]} : gmap node (list node)) x) as Hf.
  { intros x Hx h l [<- <-]%lookup_singleton_Some. set_solver. }
  destruct (task_init_run vms (empty_sched nvm nvcpu (v, j)) {[Runqueue := []]} [] v vm (Task 0 0 0 0 0 0)) as (s & q & [R1 R3 (R4 & R5 & R6) Rl R7 R8] & E & R2);
    try done; try (by apply Hf); try lia.
  - apply empty_represents.
  - cbn [tasks empty_sched]. apply lookup_replicate. split; [done|]. fold k. lia.
  - cbn [vtasks empty_sched]. by rewrite length_replicate.
  - intros x _. by apply Hf.
  - eexists _, _. split; [exact E|]. fold ids k in R2, R3, R7. assert (i ∈ ids) as Hin by (by eapply list_elem_of_lookup_2).
    cbn [tasks empty_sched t_status t_bitmap] in R3. split; cbn [queues set_queues tasks vtasks rq_lock cpu_vcpu].
    + exact R2.
    + by rewrite lookup_insert_eq.
    + intros k' ->%list_elem_of_singleton. rewrite lookup_insert_ne, lookup_insert_eq by done. split; [done|]. by destruct ids.
    + intros k' ->%list_elem_of_singleton. rewrite decide_True by done. split; [|lia]. split; [lia|]. cbn [tasks set_queues]. rewrite R3.
      eexists. split; [apply list_lookup_insert_eq; rewrite length_replicate; lia|]. cbn. unfold DEFAULT_COUNTER. split_and!; try done; try lia. by exists vm.
    + intros k' x ->%list_elem_of_singleton Hx. pose proof Hx as [m Hm]%list_elem_of_lookup. rewrite Forall_forall in Hr. split; [by apply Hr|].
      eexists. split; [by apply R7|]. split; [done|]. unfold is_vcpu. cbn [vt_vcpu new_vtask fst snd].
      split_and!; [done|lia|]. exists vm. by rewrite Nat2Z.id.
    + rewrite R5. split_and!; [|by left|done]. cbn. split_and!; try done. by exists vm.
    + by rewrite R4.
Qed.

(** A VM that [task_struct_init] can register. *)
Record registrable (vms : list svm) (s : sched) (A : gmap node (list node)) (L : list Z) (v : Z) (vm : svm) (t : task_struct) : Prop := {
  rb_rep : represents (queues s) A;
  rb_runq : A !! Runqueue = Some (TaskList <$> L);
  rb_vm : 0 <= v /\ vms !! Z.to_nat v = Some vm;
  rb_task : 0 <= sv_id vm /\ tasks s !! Z.to_nat (sv_id vm) = Some t;
  rb_ids : NoDup (sv_vcpu_ids vm) /\ Forall (fun x => 0 <= x < Z.of_nat (length (vtasks s))) (sv_vcpu_ids vm);
  rb_fresh : fresh A (TaskList (sv_id vm)) /\ fresh A (RqLevel (sv_id vm) DEFAULT_LEVEL) /\ forall i, i ∈ sv_vcpu_ids vm -> fresh A (TaskFifo i);
  rb_queued : Forall (fun j => 0 <= j /\ is_Some (tasks s !! Z.to_nat j)) L;
}.

(** The VM's own nodes apart, the run queue is as it was. *)
Lemma reregister_fresh (A : gmap node (list node)) L k ids x : fresh A x -> x ≠ Runqueue -> (forall j, x = TaskList j -> False) ->
  fresh (delete (RqLevel k DEFAULT_LEVEL) (<[Runqueue := TaskList <$> L ++ [k]]> (<[RqLevel k DEFAULT_LEVEL := TaskFifo <$> ids]> A))) x.
Proof.
  intros Hf Hx Hn h l [Hne H]%lookup_delete_Some. destruct (decide (h = Runqueue)) as [->|Hr].
  - rewrite lookup_insert_eq in H. injection H as <-. intros [?|Hin]%elem_of_cons; [done|]. apply list_elem_of_fmap in Hin as (j & -> & _). by apply (Hn j).
  - rewrite !lookup_insert_ne in H by done. by apply (Hf h l).
Qed.

Lemma running_ext vms s s' : running vms s -> cpu_vcpu s' = cpu_vcpu s -> length (tasks s') = length (tasks s) -> length (vtasks s') = length (vtasks s) ->
  running vms s'.
Proof.
  intros (c & vc & H1 & H2 & H3 & H4%lookup_lt_is_Some_1 & H5%lookup_lt_is_Some_1) Hc Ht Hv. exists c, vc. rewrite Hc.
  split_and!; try done; apply lookup_lt_is_Some_2; lia.
Qed.

(** The successors in a run queue whose last node was added again. *)
Lemma runq_cycle (q q' : gmap node (link node)) L k : is_list q Runqueue (TaskList <$> L ++ [k]) ->
  lnext (nd q' (TaskList k)) = Some (TaskList k) -> (forall x, x ≠ TaskList k -> lnext (nd q' x) = lnext (nd q x)) ->
  lnext (nd q' Runqueue) = Some (default (TaskList k) (TaskList <$> head L)) /\
  forall x, x ∈ TaskList <$> k :: L -> exists y, lnext (nd q' x) = Some y /\ y ∈ TaskList <$> k :: L.
Proof.
  intros Hl Hk Ho. split.
  - rewrite Ho by done. destruct (is_list_ends _ _ _ Hl) as [-> _]. by destruct L.
  - rewrite fmap_app in Hl. intros x Hx. destruct (decide (x = TaskList k)) as [->|Hne]; [exists (TaskList k); split; [done|left]|].
    rewrite fmap_cons in Hx |- *. apply elem_of_cons in Hx as [?|Hx]; [done|]. rewrite Ho by done.
    destruct (next_before _ _ _ _ _ x Hl ltac:(by right)) as (y & Hy & Hin). exists y. split; [done|]. set_solver.
Qed.

(** ** The properties *)

(** C19: the choice of a virtual CPU within a VM, on every path and whatever the other
    CPUs run.  The loop takes virtual CPUs out of the VM's queue until one is
    ready: this one is returned and goes to the end of the queue, and those taken
    out before it, which run on other CPUs, are in no queue any more.  When
    all of them run the assertion fails, after as many turns. *)
Theorem select_vcpu_correct s A next Q fuel :
  represents (queues s) A -> A !! RqLevel next DEFAULT_LEVEL = Some (TaskFifo <$> Q) -> Q ≠ [] ->
  (forall i, i ∈ Q -> 0 <= i /\ is_Some (vtasks s !! Z.to_nat i)) ->
  0 <= next -> (exists t, tasks s !! Z.to_nat next = Some t /\ t_bitmap t = Z.shiftl 1 DEFAULT_LEVEL) -> (length Q < fuel)%nat ->
  (exists run h rest q', Q = run ++ h :: rest /\ Forall (busy (vtasks s)) run /\ ~ busy (vtasks s) h /\
     select_vcpu fuel next DEFAULT_LEVEL s = Ok (h, set_queues s q') /\
     represents q' (<[RqLevel next DEFAULT_LEVEL := TaskFifo <$> rest ++ [h]]> A)) \/
  (Forall (busy (vtasks s)) Q /\ select_vcpu fuel next DEFAULT_LEVEL s = Halt HError).
Proof.
  intros Hr Hq Hne Hex Hk (t & Ht & Hb) Hf.
  assert (Forall (busy (vtasks s)) Q \/ exists run h rest p, Q = run ++ h :: rest /\ Forall (busy (vtasks s)) run /\
    0 <= h /\ vtasks s !! Z.to_nat h = Some p /\ vt_status p = TASK_READY) as [Hall|(run & h & rest & p & -> & Hrun & Hh & Hp & Hst)].
  - clear Hq Hne Hf. induction Q as [|i Q IH]; [by left|]. destruct (Hex i ltac:(left)) as [Hi [p Hp]].
    destruct (decide (vt_status p = TASK_READY)) as [Hst|Hst]; [right; by exists [], i, Q, p|].
    assert (busy (vtasks s) i) as Hbi by (split; [done|by exists p]).
    destruct IH as [IH|(run & h & rest & p' & -> & Hrun & Hrest)]; [intros j Hj; apply Hex; by right|left; by constructor|].
    right. exists (i :: run), h, rest, p'. split; [done|]. split; [by constructor|done].
  - right. split; [done|]. destruct Q as [|i Q]; [done|]. by eapply select_exhausts.
  - left. destruct (select_skips s A next run h rest p Hr Hq Hrun Hh Hp Hst fuel) as (q' & E & Hr'); [rewrite length_app in Hf; lia|].
    exists run, h, rest, q'. split_and!; try done. intros (_ & p' & Hp' & Hst'). congruence.
Qed.

(** With [SCHEDULE], a VM of two CPUs stops the scheduler.  [vm_init] calls
    [task_struct_init] on every CPU of a VM: the first call returns with the VM
    last in the run queue; the second returns too, but makes the VM's node its own
    successor, and from then on [schedule] never ends, whatever the number of
    steps; it holds the lock of the run queue while it turns. *)
Theorem task_struct_init_twice (vms : list svm) s A L v vm t :
  registrable vms s A L v vm t -> running vms s -> unlocked (rq_lock s) ->
  exists s1 s2, task_struct_init vms v s = Ok ((), s1) /\ task_struct_init vms v s1 = Ok ((), s2) /\
    forall fuel, schedule vms fuel s2 = Halt HFuel.
Proof.
  intros [Hr Hq [Hv Hvm] [Hk Ht] [Hnd Hrg] (Hf1 & Hf2 & Hf3) HL] Hrun Hlk. set (k := sv_id vm) in *. set (ids := sv_vcpu_ids vm) in *.
  destruct (task_init_run vms s A L v vm t) as (s1 & q1 & F1 & E1 & Hr1); try done. fold k ids in E1, F1, Hr1.
  pose proof F1 as [_ T1 (X1 & Y1 & _) N1 _ _]. apply (rep_weaken _ _ (RqLevel k DEFAULT_LEVEL)) in Hr1.
  assert (is_Some (tasks s1 !! Z.to_nat k)) as [t1 Ht1].
  { rewrite T1. apply lookup_lt_is_Some_2. rewrite length_insert. by eapply lookup_lt_Some. }
  destruct (task_init_fills vms (set_queues s1 q1) _ v vm t1 Hr1) as (s2 & E2 & F2); try done.
  { cbn [vtasks set_queues]. by rewrite N1. }
  { by apply reregister_fresh. }
  { intros i Hi. by apply reregister_fresh; [apply Hf3| |]. }
  fold k ids in E2, F2. pose proof F2 as [R2 T2 (X2 & Y2 & _) N2 _ _]. cbn [tasks vtasks rq_lock cpu_vcpu set_queues] in T2, X2, Y2, N2.
  assert (is_list (queues s2) Runqueue (TaskList <$> L ++ [k])) as Hlist.
  { apply (rep_list _ _ R2). by rewrite lookup_insert_ne, lookup_delete_ne, lookup_insert_eq by done. }
  pose proof Hlist as Hlist'. rewrite fmap_app in Hlist'. destruct (list_add_tail_again _ _ _ _ Hlist') as (q2 & E3 & Hself & Hoth).
  destruct (runq_cycle _ _ _ _ Hlist Hself Hoth) as [Hhead Hcyc].
  exists (set_queues s1 q1), (set_queues s2 q2). split; [done|]. split.
  { rewrite E2. unfold on_queues, mbind, outcome_bind. by rewrite E3. }
  assert (length (tasks s2) = length (tasks s)) as Hlen by (rewrite T2, T1, !length_insert; done).
  intros fuel. apply (schedule_hangs vms fuel _ L k); cbn [queues set_queues tasks rq_lock]; try done.
  - apply (running_ext vms s); cbn [cpu_vcpu tasks vtasks set_queues]; [done|congruence|done|congruence].
  - by rewrite X2, X1.
  - assert (forall j, is_Some (tasks s !! j) -> is_Some (tasks s2 !! j)) as Hkeep by (intros j Hj%lookup_lt_is_Some_1; apply lookup_lt_is_Some_2; lia).
    constructor; [split; [done|]; apply Hkeep; by eexists|]. eapply Forall_impl; [exact HL|]. cbn. intros j [Hj Hs]. split; [done|by apply Hkeep].
Qed.

(** [schedule] on a machine with one physical CPU, where at most one virtual CPU runs and
    no two share an entry of [__tasks]: with VMs and virtual CPUs properly queued it returns with the lock free; the VM is the first of those with the
    largest counter, after all counters were refilled if none had any left; the
    virtual CPU is the one that waits longest in that VM's queue, which goes to
    the end of it; the VM's page tables are installed and its virtual CPU is
    current; and everything is properly queued again. *)
Theorem schedule_correct (vms : list svm) (fuel : nat) s L Q B A c vc :
  sched_ok vms s L Q B A c vc -> (length L < fuel)%nat ->
  exists next h rest s' A', schedule vms fuel s = Ok ((), s') /\ next ∈ L /\ Q next = h :: rest /\
    first_max (tasks s') L next /\ (forall k, k ∈ L -> counter (tasks s') k = counters_after (tasks s) L k) /\
    (exists vm, sv_id vm = next /\ vttbr s' = vttbr_of vm /\ vm ∈ vms) /\
    is_vcpu vms (cpu_vcpu s') next h /\ sched_ok vms s' L (rotate Q next h rest) B A' next h.
Proof.
  intros Hok Hf. destruct (schedule_run vms fuel s L Q B A c vc Hok Hf) as (next & h & rest & s' & A' & E & Hn & HQ & Hm & Hc & Hv & Hok').
  exists next, h, rest, s', A'. pose proof (so_cur _ _ _ _ _ _ _ _ Hok') as (Hcur & _). done.
Qed.

(** On such a machine, however ticks and switches follow one another, nothing queued is lost or
    duplicated.  From a state with all virtual CPUs queued, every reachable
    state has the same VMs in the run queue and each VM's queue is a
    rearrangement of what it was; and in each of them the next tick and the
    next switch return. *)
Theorem sched_reachable (vms : list svm) (fuel : nat) s s' L Q B A c vc :
  sched_ok vms s L Q B A c vc -> (length L < fuel)%nat -> rtc (sstep vms fuel) s s' ->
  (exists Q' A' c' vc', sched_ok vms s' L Q' B A' c' vc' /\ forall k, Q' k ≡ₚ Q k) /\
  (exists s1, schedule vms fuel s' = Ok ((), s1)) /\ (exists s1, update_task_times vms s' = Ok ((), s1)).
Proof.
  intros Hok Hf Hs. assert (exists Q' A' c' vc', sched_ok vms s' L Q' B A' c' vc' /\ forall k, Q' k ≡ₚ Q k) as (Q' & A' & c' & vc' & Hok' & Hp).
  { revert Q A c vc Hok. induction Hs as [s|s s1 s2 H1 _ IH]; intros Q A c vc Hok; [by exists Q, A, c, vc|].
    destruct (sstep_ok vms fuel s s1 L Q B A c vc Hok Hf H1) as (Q1 & A1 & c1 & v1 & Hok1 & P1).
    destruct (IH Q1 A1 c1 v1 Hok1) as (Q2 & A2 & c2 & v2 & Hok2 & P2). exists Q2, A2, c2, v2. split; [done|]. intros k. by rewrite P2. }
  split; [by exists Q', A', c', vc'|]. split.
  - destruct (schedule_run vms fuel s' L Q' B A' c' vc' Hok' Hf) as (next & h & rest & s1 & A1 & E & _). by exists s1.
  - destruct (update_task_times_run vms s' L Q' B A' c' vc' Hok') as (s1 & E & _). by exists s1.
Qed.

(** ** A machine with one VM of three virtual CPUs *)

Definition demo_vms : list svm := [Svm 0 [0; 1; 2] 0x50010000].

Lemma demo_ok : exists s A, task_struct_init demo_vms 0 (empty_sched 1 3 (0, 1)) = Ok ((), s) /\
  sched_ok demo_vms s [0] (fun _ => [0; 1; 2]) (fun _ => 4) A 0 1.
Proof.
  apply (first_vm_ok demo_vms 1 3 0 (Svm 0 [0; 1; 2] 0x50010000) 1 1); try done; cbn [sv_vcpu_ids sv_id].
  - by apply (bool_decide_unpack _).
  - by apply (bool_decide_unpack _).
Qed.

Lemma schedule_correct_witness : exists s A next h s', sched_ok demo_vms s [0] (fun _ => [0; 1; 2]) (fun _ => 4) A 0 1 /\
  schedule demo_vms 2 s = Ok ((), s') /\ next ∈ [0] /\ is_vcpu demo_vms (cpu_vcpu s') next h.
Proof.
  destruct demo_ok as (s & A & _ & Hok).
  destruct (schedule_correct demo_vms 2 s [0] (fun _ => [0; 1; 2]) (fun _ => 4) A 0 1 Hok ltac:(simpl; lia)) as (next & h & rest & s' & A' & H1 & H2 & _ & _ & _ & _ & H3 & _).
  exists s, A, next, h, s'. done.
Defined.

Lemma sched_reachable_witness : exists s A s1, sched_ok demo_vms s [0] (fun _ => [0; 1; 2]) (fun _ => 4) A 0 1 /\ schedule demo_vms 2 s = Ok ((), s1).
Proof.
  destruct demo_ok as (s & A & _ & Hok).
  destruct (sched_reachable demo_vms 2 s s [0] (fun _ => [0; 1; 2]) (fun _ => 4) A 0 1 Hok ltac:(simpl; lia) (rtc_refl _ _)) as (_ & (s1 & H) & _).
  exists s, A, s1. done.
Defined.

(** ** What two VMs share *)

(** Two VMs number their virtual CPUs from zero each, and [__tasks] is indexed by
    that number alone: after both have been registered, choosing the first VM
    makes the second VM's virtual CPU current, over the first VM's page tables. *)
Definition shared_vms : list svm := [Svm 0 [0] 0x1000; Svm 1 [0] 0x2000].

Lemma sched_entry_shared :
  match (task_struct_init shared_vms 0 ;; task_struct_init shared_vms 1 ;; schedule shared_vms 3) (empty_sched 2 1 (0, 0)) with
  | Ok (_, s) => bool_decide (cpu_vcpu s = (1, 0) /\ vttbr s = vttbr_of (Svm 0 [0] 0x1000))
  | Halt _ => false
  end = true.
Proof. vm_compute. reflexivity. Qed.

(** Virtual CPU 0 runs on another CPU: the choice falls on virtual CPU 1, and 0 is in no
    queue any more. *)
Lemma demo_queued : exists s A, represents (queues s) A /\ A !! RqLevel 0 DEFAULT_LEVEL = Some (TaskFifo <$> [0; 1; 2]) /\
  vtasks s = [VTask TASK_RUNNING 4 0 2 0 (0, 0); new_vtask 0 0 1; new_vtask 0 0 2] /\ tasks s = [Task 0 3 0 2 16 0].
Proof.
  destruct demo_ok as (s & A & E & Hok). exists (set_vtasks s (<[0%nat := VTask TASK_RUNNING 4 0 2 0 (0, 0)]> (vtasks s))), A.
  destruct Hok as [H1 _ H3 _ _ _ _]. split; [done|]. split; [apply (H3 0); by left|].
  assert (match task_struct_init demo_vms 0 (empty_sched 1 3 (0, 1)) with Ok (_, s) => (vtasks s, tasks s) | Halt _ => ([], []) end =
    ([new_vtask 0 0 0; new_vtask 0 0 1; new_vtask 0 0 2], [Task 0 3 0 2 16 0])) as Ec by (vm_compute; reflexivity).
  rewrite E in Ec. injection Ec as Ev Et. cbn [vtasks tasks set_vtasks]. rewrite Ev, Et. clear. split; reflexivity.
Qed.

Lemma select_vcpu_correct_witness : exists s A q', represents (queues s) A /\ A !! RqLevel 0 DEFAULT_LEVEL = Some (TaskFifo <$> [0; 1; 2]) /\
  select_vcpu 4 0 DEFAULT_LEVEL s = Ok (1, set_queues s q') /\ represents q' (<[RqLevel 0 DEFAULT_LEVEL := TaskFifo <$> [2; 1]]> A).
Proof.
  destruct demo_queued as (s & A & Hr & Hq & Hv & Ht). exists s, A.
  assert (~ busy (vtasks s) 1) as H1 by (rewrite Hv; intros (_ & p & [= <-] & Hp); by apply Hp).
  assert (busy (vtasks s) 0) as H0 by (rewrite Hv; split; [done|]; eexists; split; done).
  destruct (select_vcpu_correct s A 0 [0; 1; 2] 4 Hr Hq) as [(run & h & rest & q' & E & Hb & Hh & Es & Hr')|[Hall _]]; try done; try (simpl; lia).
  - rewrite Hv. intros i Hi. repeat (apply elem_of_cons in Hi as [->|Hi]; [split; [lia|by eexists]|]). by apply elem_of_nil in Hi.
  - rewrite Ht. by eexists.
  - destruct run as [|a [|b run]]; simplify_eq/=; [by destruct (Hh H0)|by exists q'|].
    inversion Hb as [|? ? _ Hb']; by inversion Hb'.
  - inversion Hall as [|? ? _ Hb']; by inversion Hb'.
Defined.

Lemma task_struct_init_twice_witness : exists s1 s2, task_struct_init demo_vms 0 (empty_sched 1 3 (0, 1)) = Ok ((), s1) /\
  task_struct_init demo_vms 0 s1 = Ok ((), s2) /\ forall fuel, schedule demo_vms fuel s2 = Halt HFuel.
Proof.
  assert (forall x, x ≠ Runqueue -> fresh ({[Runqueue := []]} : gmap node (list node)) x) as Hf.
  { intros x Hx h l [<- <-]%lookup_singleton_Some. set_solver. }
  apply (task_struct_init_twice demo_vms (empty_sched 1 3 (0, 1)) {[Runqueue := []]} [] 0 (Svm 0 [0; 1; 2] 0x50010000) (Task 0 0 0 0 0 0)).
  - split; try done; cbn [sv_id sv_vcpu_ids]; [apply empty_represents| |split_and!].
    + split; by apply (bool_decide_unpack _).
    + by apply Hf.
    + by apply Hf.
    + intros i _. by apply Hf.
  - exists 0, 1. split_and!; try done; try (by eexists). split_and!; try done. by exists (Svm 0 [0; 1; 2] 0x50010000).
  - done.
Defined.
