(* ===== verification/Boot.v ===== *)
(** The start of the system: [main.c], [cpu_init] of [core/cpu.c],
    [interrupts_init] of [core/interrupts.c] and [vmm_init] of [core/vmm.c].

    Every CPU runs [main]; the five barriers on [cpu_glb_sync] are all that keeps
    them apart.  A step is what a CPU does between two accesses to memory that
    others may touch at the same time: an access to the token, a turn of the
    search for a VM (under the lock of the VM's entry), the load or the store of a
    bitmap's granule, or a function that only works on the CPU's own state, on
    the master's, or under a lock.  The steps are those of the components: the
    barrier is the one of [Cpu], the search the one of [Vmm].

    A CPU is followed to the call of [vm_init] or to [cpu_idle].  [vm_init] itself,
    with the barriers of its VM, is the subject of [VmInit]; of what it does only
    the registration at its end is a step here, because it uses [vm_list], which
    the CPUs that come later still empty.  Where a CPU waits inside
    [vm_init], and at the barrier on [vm->sync] after it, is not seen here. *)

From S2P Require Import Prelude Bit Bitmap Atomic Spinlock PhysMem Objpool Mem Dlist Cpu Gic Vm Irq Vmm ArchVmm.

(** ** Control flow *)

(** The barriers of [cpu_init], [main], the two of [gic_init], and the one of
    [vmm_init]. *)
Inductive gbar := G1 | G2 | G3 | G4 | G5.

(** The accesses of [interrupts_init] after [gic_init].  [interrupts_reserve] sets
    a bit in two bitmaps that all CPUs share: a load and a store of the granule
    each, with no lock. *)
Inductive which := Hyp | Glb.

Inductive task :=
| TEnable (id : Z)
| THandler (id : Z) (h : irq_handler)
| TLoad (m : which) (id : Z)
| TStore (m : which) (id w : Z)
| TTimer
| TPrio | TPend | TOn.

Inductive place :=
| QInit
| QSync
| QEnter (b : gbar)
| QSpin (b : gbar) (exp : Z)
| QMem
| QGic
| QGicCpu
| QIrq (todo : list task)
| QArch
| QList
| QSearch (i : nat)
| QAlloc (i : nat) (master : bool)
| QVm (i : nat) (master : bool) (vm : Z)
| QListed (i : nat) (master : bool)
| QIdle.

#[export] Instance gbar_eq_dec : EqDecision gbar.
Proof. solve_decision. Defined.
#[export] Instance which_eq_dec : EqDecision which.
Proof. solve_decision. Defined.
#[export] Instance irq_handler_eq_dec : EqDecision irq_handler.
Proof. solve_decision. Defined.
#[export] Instance task_eq_dec : EqDecision task.
Proof. solve_decision. Defined.
#[export] Instance place_eq_dec : EqDecision place.
Proof. solve_decision. Defined.

(** [struct cpu], with the system registers that the start sets; [handling_msgs] is
    in [Cpu.Msg]. *)
Record core := Core {
  c_at : place;
  mpidr : Z;
  el2 : el2_regs;
  c_ctl : Z;
  c_cval : Z;
}.

Definition goto (c : core) (p : place) : core := Core p (mpidr c) (el2 c) (c_ctl c) (c_cval c).

(** The globals of [cpu.c], of [gic.c], [interrupts.c] and [timer.c], and of
    [vmm.c] and [arch_vmm.c]. *)
Record cpusys := CpuSys {
  cpu_glb_sync : Barrier.cpu_synctoken;
  cpumsg_handlers_id : list Z;
  ipi_cpumsg_handler_num : Z;
  cpu_interfaces : Msg.msgsys;
}.

Record irqsys (G : Type) := IrqSys { i_gic : gic G; i_tab : intrs; i_timer : timer }.
Arguments IrqSys {G} _ _ _.
Arguments i_gic {G} _.
Arguments i_tab {G} _.
Arguments i_timer {G} _.

Record vmmsys := VmmSys { v_tcr : tcr; v_list : vmlist; vm_assign : list vm_assignment }.

Record boot (G : Type) := BootSys { bc : cpusys; bm : memsys; bi : irqsys G; bv : vmmsys; cores : list core }.
Arguments BootSys {G} _ _ _ _ _.
Arguments bc {G} _.
Arguments bm {G} _.
Arguments bi {G} _.
Arguments bv {G} _.
Arguments cores {G} _.

Definition then_ (tasks : list task) (b : gbar) : place :=
  match b with G1 => QMem | G2 => QGic | G3 => QGicCpu | G4 => QIrq tasks | G5 => QList end.

Section boot.
(** The interrupt controller; [view c] are its registers as CPU [c] sees them, the
    banked ones being different for every CPU. *)
Context {G : Type} (view : Z -> GicHw G).
(** [config.hyp.nr_cpus] and the VMs' numbers of CPUs, the maintenance interrupt,
    the memory between the linker's symbols, [CNTFRQ_EL0], and each CPU's
    [MPIDR_EL1] and [ID_AA64MMFR0_EL1]. *)
Context (nr_cpus : Z) (conf : list Z) (maintenance_id mem_vm_begin mem_vm_end frq : Z) (mpidr_el1 mmfr0 : Z -> Z).
Context (sizeof_vm sizeof_vcpu alignof_vcpu : Z).

Implicit Types s : boot G.

Definition set_bc s (x : cpusys) : boot G := BootSys x (bm s) (bi s) (bv s) (cores s).
Definition set_bm s (x : memsys) : boot G := BootSys (bc s) x (bi s) (bv s) (cores s).
Definition set_bi s (x : irqsys G) : boot G := BootSys (bc s) (bm s) x (bv s) (cores s).
Definition set_bv s (x : vmmsys) : boot G := BootSys (bc s) (bm s) (bi s) x (cores s).
Definition set_core s (i : nat) (c : core) : boot G := BootSys (bc s) (bm s) (bi s) (bv s) (<[i := c]> (cores s)).

Definition is_master (id : Z) : bool := id =? CPU_MASTER.

(** *** [cpu_init] *)

Definition cpu_init (id : Z) (c : core) s : outcome (core * boot G) :=
  let x := bc s in
  ifs ← Msg.cpu_if_init (cpu_interfaces x) id;
  Ok (Core (if is_master id then QSync else QEnter G1) (mpidr_el1 id) (el2 c) (c_ctl c) (c_cval c),
      set_bc s (CpuSys (cpu_glb_sync x) (cpumsg_handlers_id x) (ipi_cpumsg_handler_num x) ifs)).

(** The master's part: the token, and the numbers of the message handlers in the
    order of their section. *)
Definition cpu_init_master s : boot G :=
  let x := bc s in
  let n := length (cpumsg_handlers_id x) in
  set_bc s (CpuSys (Barrier.cpu_sync_init nr_cpus) (Z.of_nat <$> seq 0 n) (Z.of_nat n) (cpu_interfaces x)).

(** *** [interrupts_init] *)

Definition reserve (id : Z) (h : irq_handler) : list task :=
  if id <? MAX_INTERRUPTS then [THandler id h; TLoad Hyp id; TLoad Glb id] else [].

Definition irq_tasks (id : Z) : list task :=
  TEnable maintenance_id ::
  (if is_master id then reserve Msg.IPI_CPU_MSG cpu_msg else []) ++
  TTimer :: reserve IRQ_TIMER timer_interrupt ++ [TPrio; TPend; TOn; TEnable Msg.IPI_CPU_MSG].

Definition on_gic (m : st (gic G) ()) (x : irqsys G) : outcome (irqsys G) :=
  '(_, g) ← m (i_gic x); Ok (IrqSys g (i_tab x) (i_timer x)).

Definition map_of (m : which) (t : intrs) : bitmap_t :=
  match m with Hyp => hyp_interrupt_bitmap t | Glb => global_interrupt_bitmap t end.
Definition set_map (m : which) (b : bitmap_t) (t : intrs) : intrs :=
  match m with
  | Hyp => Intrs b (global_interrupt_bitmap t) (interrupt_handlers t)
  | Glb => Intrs (hyp_interrupt_bitmap t) b (interrupt_handlers t)
  end.

(** The first of the tasks; [TLoad] leaves the store of what it loaded to be done. *)
Definition do_task (id : Z) (c : core) (t : task) (todo : list task) (x : irqsys G) : outcome (core * irqsys G) :=
  match t with
  | TEnable i => x ← on_gic (@interrupts_arch_enable G (view id) id i true) x; Ok (goto c (QIrq todo), x)
  | THandler i h =>
      hs ← wr (interrupt_handlers (i_tab x)) i (Some h);
      Ok (goto c (QIrq todo), IrqSys (i_gic x) (Intrs (hyp_interrupt_bitmap (i_tab x)) (global_interrupt_bitmap (i_tab x)) hs) (i_timer x))
  | TLoad m i => w ← rd (map_of m (i_tab x)) (i / BITMAP_GRANULE_LEN); Ok (goto c (QIrq (TStore m i w :: todo)), x)
  | TStore m i w =>
      b ← wr (map_of m (i_tab x)) (i / BITMAP_GRANULE_LEN) (Z.lor w (lsl32 1 (i mod BITMAP_GRANULE_LEN)));
      Ok (goto c (QIrq todo), IrqSys (i_gic x) (set_map m b (i_tab x)) (i_timer x))
  | TTimer =>
      let g := i_timer x in
      let t := timer_init frq (Timer (TIMER_WAIT g) (cntfrq g) (timer_cnt g) (c_ctl c) (c_cval c)) in
      Ok (Core (QIrq todo) (mpidr c) (el2 c) (cnthp_ctl t) (cnthp_cval t), IrqSys (i_gic x) (i_tab x) t)
  | TPrio => x ← on_gic (@gic_set_prio G (view id) IRQ_TIMER 0) x; Ok (goto c (QIrq todo), x)
  | TPend => x ← on_gic (@gic_set_pend G (view id) id IRQ_TIMER false) x; Ok (goto c (QIrq todo), x)
  | TOn => x ← on_gic (@gic_set_enable G (view id) IRQ_TIMER true) x; Ok (goto c (QIrq todo), x)
  end.

(** When nobody interferes, the accesses of [reserve] amount to [interrupts_reserve]. *)
Fixpoint do_tasks (fuel : nat) (id : Z) (c : core) (x : irqsys G) : outcome (core * irqsys G) :=
  match fuel, c_at c with
  | S fuel, QIrq (t :: todo) => '(c, x) ← do_task id c t todo x; do_tasks fuel id c x
  | _, _ => Ok (c, x)
  end.

Lemma reserve_alone id c i h x t : interrupts_reserve (i_tab x) i h = Ok t ->
  do_tasks 6 id (goto c (QIrq (reserve i h))) x = Ok (goto c (QIrq []), IrqSys (i_gic x) t (i_timer x)).
Proof.
  unfold interrupts_reserve, reserve. destruct (i <? MAX_INTERRUPTS); [|intros [= <-]; by destruct x].
  intros (hs & Eh & H)%bind_Ok. apply bind_Ok in H as (b1 & E1 & H). apply bind_Ok in H as (b2 & E2 & H). injection H as <-.
  unfold bitmap_set in E1, E2. apply bind_Ok in E1 as (w1 & R1 & W1), E2 as (w2 & R2 & W2).
  cbn [do_tasks goto c_at do_task]. rewrite Eh. cbn [mbind outcome_bind do_tasks goto c_at do_task map_of i_tab hyp_interrupt_bitmap].
  rewrite R1. cbn [mbind outcome_bind do_tasks goto c_at do_task map_of i_tab hyp_interrupt_bitmap].
  rewrite W1. cbn [mbind outcome_bind do_tasks goto c_at do_task map_of set_map i_tab global_interrupt_bitmap].
  rewrite R2. cbn [mbind outcome_bind do_tasks goto c_at do_task map_of set_map i_tab global_interrupt_bitmap].
  rewrite W2. reflexivity.
Qed.

(** *** A CPU on its own *)

(** What CPU [id] does next, when it is not at the token; [None] when it is there,
    idles or has registered its VM.  The step at [QVm] is [vm_init] as far as it
    concerns the other VMs' CPUs: the null pointer it would follow, and the
    registration in [vm_list]. *)
Definition act (id : Z) (c : core) s : option (outcome (core * boot G)) :=
  match c_at c with
  | QInit => Some (cpu_init id c s)
  | QSync => Some (Ok (goto c (QEnter G1), cpu_init_master s))
  | QMem => Some (
      s ← (if is_master id then ms ← mem_init mem_vm_begin mem_vm_end (ram (bm s)); Ok (set_bm s ms) else Ok s);
      Ok (goto c (QEnter G2), s))
  | QGic => Some (
      s ← (if is_master id then
             '(g, t) ← @gic_init_master G (view id) maintenance_id (i_gic (bi s)) (i_tab (bi s));
             Ok (set_bi s (IrqSys g t (i_timer (bi s))))
           else Ok s);
      Ok (goto c (QEnter G3), s))
  | QGicCpu => Some (x ← on_gic (@gic_cpu_init G (view id) id) (bi s); Ok (goto c (QEnter G4), set_bi s x))
  | QIrq [] => Some (Ok (goto c QArch, s))
  | QIrq (t :: todo) => Some ('(c, x) ← do_task id c t todo (bi s); Ok (c, set_bi s x))
  | QArch => Some (
      '(t, r) ← vmm_arch_init (mmfr0 id) (v_tcr (bv s)) (el2 c);
      Ok (Core (QEnter G5) (mpidr c) r (c_ctl c) (c_cval c),
          set_bv s (VmmSys t (v_list (bv s)) (vm_assign (bv s)))))
  | QList => Some (
      l ← vm_list_init (v_list (bv s));
      Ok (goto c (QSearch 0), set_bv s (VmmSys (v_tcr (bv s)) l (vm_assign (bv s)))))
  | QSearch i => Some (
      match conf !! i with
      | None => Ok (goto c QIdle, s)
      | Some nr =>
          a ← rd (vm_assign (bv s)) (Z.of_nat i);
          '(r, a) ← assign_turn id nr a;
          t ← wr (vm_assign (bv s)) (Z.of_nat i) a;
          Ok (goto c (match r with Some m => QAlloc i m | None => QSearch (S i) end),
              set_bv s (VmmSys (v_tcr (bv s)) (v_list (bv s)) t))
      end)
  | QAlloc i m => Some (
      '(al, t, p, r) ← vmm_alloc_install_vm sizeof_vm sizeof_vcpu alignof_vcpu (Z.of_nat i) m conf (vm_assign (bv s))
        (root_page_pool (bm s)) (ram (bm s));
      Ok (goto c (QVm i m (al_vm al)),
          set_bm (set_bv s (VmmSys (v_tcr (bv s)) (v_list (bv s)) t)) (MemSys p (shared_mem (bm s)) r)))
  | QVm i m vm => Some (
      if vm =? 0 then Halt HFault else
      l ← vm_list_register (v_list (bv s)) (Z.of_nat i);
      Ok (goto c (QListed i m), set_bv s (VmmSys (v_tcr (bv s)) l (vm_assign (bv s)))))
  | QEnter _ | QSpin _ _ | QListed _ _ | QIdle => None
  end.

(** One access to the token. *)
Definition at_token (id : Z) (c : core) (t : Barrier.cpu_synctoken) : option (core * Barrier.cpu_synctoken) :=
  match c_at c with
  | QEnter b =>
      if Barrier.ready t then
        let val := atomic_inc_return (Barrier.count t) in
        Some (goto c (QSpin b (Barrier.exp_v val (Barrier.n t))), Barrier.Token (Barrier.ready t) (Barrier.n t) val)
      else None
  | QSpin b x => if Barrier.may_leave t x then Some (goto c (then_ (irq_tasks id) b), t) else None
  | _ => None
  end.

Definition set_tok s (t : Barrier.cpu_synctoken) : boot G :=
  let x := bc s in set_bc s (CpuSys t (cpumsg_handlers_id x) (ipi_cpumsg_handler_num x) (cpu_interfaces x)).

(** CPU [i] makes a step, if it can. *)
Definition cstep (i : nat) s : option (boot G) :=
  c ← cores s !! i;
  match act (Z.of_nat i) c s with
  | Some (Ok (c, s)) => Some (set_core s i c)
  | Some (Halt _) => None
  | None => '(c, t) ← at_token (Z.of_nat i) c (cpu_glb_sync (bc s)); Some (set_core (set_tok s t) i c)
  end.

Definition step s s' : Prop := exists i, cstep i s = Some s'.

(** A schedule, CPU by CPU; a CPU that cannot step is passed over. *)
Fixpoint run (l : list nat) s : boot G :=
  match l with [] => s | i :: l => run l (default s (cstep i s)) end.

Lemma run_reach l s : rtc step s (run l s).
Proof.
  revert s. induction l as [|i l IH]; intros s; [apply rtc_refl|]. cbn [run]. destruct (cstep i s) as [s1|] eqn:E; [|apply IH].
  eapply rtc_l; [by exists i|]. apply IH.
Qed.

(** ** The barriers *)

(** How many barriers a CPU has entered, and how many it has left behind. *)
Definition entered (p : place) : Z :=
  match p with
  | QInit | QSync | QEnter G1 => 0
  | QSpin G1 _ | QMem | QEnter G2 => 1
  | QSpin G2 _ | QGic | QEnter G3 => 2
  | QSpin G3 _ | QGicCpu | QEnter G4 => 3
  | QSpin G4 _ | QIrq _ | QArch | QEnter G5 => 4
  | _ => 5
  end.

Definition spins (p : place) : bool := match p with QSpin _ _ => true | _ => false end.
Definition left (p : place) : Z := entered p - (if spins p then 1 else 0).

(** A CPU and the system as [Cpu] sees them.  Until the master has set up the
    token nobody gets past [while (!token->ready)]. *)
Definition bpc (c : core) : Barrier.pc * Z :=
  (match c_at c with QSpin _ x => Barrier.Spin x Barrier.ThenReturn | _ => Barrier.Idle end, entered (c_at c)).

Definition token s : Barrier.cpu_synctoken := cpu_glb_sync (bc s).
Definition babs s : Barrier.sys :=
  Barrier.Sys (if Barrier.ready (token s) then token s else Barrier.cpu_sync_init nr_cpus) (bpc <$> cores s).

Definition early (p : place) : bool := match p with QInit | QSync | QEnter G1 => true | _ => false end.

Record synced s : Prop := {
  sd_early : Barrier.ready (token s) = false -> Forall (fun c => early (c_at c) = true) (cores s);
  sd_late : forall c, Barrier.ready (token s) = true -> cores s !! 0%nat = Some c -> c_at c <> QInit /\ c_at c <> QSync;
  sd_master : forall i c, cores s !! i = Some c -> c_at c = QSync -> i = 0%nat;
  sd_open : forall c, cores s !! 0%nat = Some c -> Barrier.ready (token s) = false -> c_at c = QInit \/ c_at c = QSync;
}.

(** What a CPU does on its own leaves the other CPUs and, but for the master's
    set-up, the token alone. *)
Record own (c c' : core) s s' : Prop := {
  ow_cores : cores s' = cores s;
  ow_pc : bpc c' = bpc c;
  ow_token : token s' = if decide (c_at c = QSync) then Barrier.cpu_sync_init nr_cpus else token s;
  ow_sync : c_at c' = QSync -> c_at c = QInit;
  ow_init : c_at c' <> QInit;
  ow_free : forall b, c_at c <> QEnter b;
}.

Ltac bind_steps :=
  repeat match goal with
  | H : (_ ≫= _) = Ok _ |- _ => let E := fresh "E" in apply bind_Ok in H as (? & E & H); cbn beta iota in H
  | H : (let '(_, _) := ?x in _) = Ok _ |- _ => destruct x; cbn beta iota in H
  | H : (if ?b then _ else _) = Ok _ |- _ => destruct b eqn:?; try done
  | H : match ?x with Some _ => _ | None => _ end = Ok _ |- _ => destruct x eqn:?; try done
  | H : Ok _ = Ok _ |- _ => injection H; clear H; intros; subst
  end.

Lemma do_task_at id c t todo x c' x' : do_task id c t todo x = Ok (c', x') -> exists l, c_at c' = QIrq l.
Proof. intros H. destruct t; cbn [do_task] in H; bind_steps; eexists; reflexivity. Qed.

Lemma act_own id c s c' s' : act id c s = Some (Ok (c', s')) -> own c c' s s' /\ (c_at c = QInit -> c_at c' = if is_master id then QSync else QEnter G1).
Proof.
  unfold act. intros H. destruct (c_at c) as [| |b|b x| | | |[|t todo]| | |i|i m|i m vm|i m|] eqn:Ec; try done;
    apply (f_equal (default (Halt HFault))) in H; change (default _ (Some ?x)) with x in H.
  7: { bind_steps. match goal with H : do_task _ _ _ _ _ = _ |- _ => apply do_task_at in H as [l El] end.
       split; [|done]. constructor; unfold bpc; rewrite ?El, ?Ec, ?decide_False by done; done. }
  all: unfold cpu_init in H; bind_steps; split; try done; try (intros _; reflexivity); constructor; unfold bpc; rewrite ?Ec;
    try reflexivity; try done; rewrite ?decide_False by done; try reflexivity; cbn [c_at goto];
    first [by destruct (is_master id) | match goal with |- context [match ?o with Some _ => _ | None => _ end] => by destruct o end].
Qed.

Lemma bpc_insert (l : list core) i c c' : l !! i = Some c -> bpc c' = bpc c -> bpc <$> <[i := c']> l = bpc <$> l.
Proof. intros Hi E. rewrite list_fmap_insert, E. apply list_insert_id. by rewrite list_lookup_fmap, Hi. Qed.

Lemma cstep_inv i s s' : cstep i s = Some s' -> exists c, cores s !! i = Some c /\
  ((exists c' s1, act (Z.of_nat i) c s = Some (Ok (c', s1)) /\ s' = set_core s1 i c') \/
   (act (Z.of_nat i) c s = None /\ exists c' t, at_token (Z.of_nat i) c (token s) = Some (c', t) /\ s' = set_core (set_tok s t) i c')).
Proof.
  unfold cstep. destruct (cores s !! i) as [c|] eqn:Hc; [|done]. cbn [mbind option_bind]. intros H. exists c. split; [done|].
  destruct (act (Z.of_nat i) c s) as [[[c' s1]|]|] eqn:Ha; [left|done|right].
  - injection H as <-. eauto.
  - split; [done|]. fold (token s) in H. destruct (at_token (Z.of_nat i) c (token s)) as [[c' t]|] eqn:Et; [|done]. cbn in H. injection H as <-. eauto.
Qed.

Lemma token_early i s c : synced s -> cores s !! i = Some c -> early (c_at c) = false -> Barrier.ready (token s) = true.
Proof.
  intros Hs Hc He. destruct (Barrier.ready (token s)) eqn:Er; [done|]. pose proof (Forall_lookup_1 _ _ _ _ (sd_early _ Hs Er) Hc) as Hc'.
  cbn in Hc'. congruence.
Qed.

Lemma babs_step s s' : synced s -> step s s' -> babs s' = babs s \/ Barrier.bstep (babs s) (babs s').
Proof.
  intros Hs [i Hi]. apply cstep_inv in Hi as (c & Hc & [(c' & s1 & Ha & ->)|(_ & c' & t & Ht & ->)]).
  - left. apply act_own in Ha as [[Ecs Epc Etok _ _ _] _]. unfold babs, token in *. cbn [bc set_core cores].
    rewrite Ecs, (bpc_insert _ _ _ _ Hc Epc), Etok. destruct (decide (c_at c = QSync)) as [E|]; [|done].
    destruct (Barrier.ready (cpu_glb_sync (bc s))) eqn:Er; [|done]. exfalso.
    pose proof (sd_master _ Hs _ _ Hc E) as ->. by destruct (sd_late _ Hs c Er Hc).
  - right. unfold at_token in Ht. destruct (c_at c) as [| |b|b x| | | | | | | | | | |] eqn:Ec; try done.
    + destruct (Barrier.ready (token s)) eqn:Er; [|done]. injection Ht as <- <-.
      replace (babs (set_core _ _ _)) with (Barrier.Sys (Barrier.Token true (Barrier.n (token s)) (atomic_inc_return (Barrier.count (token s))))
        (<[i := (Barrier.Spin (Barrier.exp_v (atomic_inc_return (Barrier.count (token s))) (Barrier.n (token s))) Barrier.ThenReturn, entered (QEnter b) + 1)]> (Barrier.cpus (babs s)))).
      * eapply Barrier.b_enter; [|unfold babs; by rewrite Er|unfold babs, Barrier.enter; cbn [Barrier.token]; by rewrite Er, Er].
        unfold babs. cbn [Barrier.cpus]. rewrite list_lookup_fmap, Hc. cbn. unfold bpc. by rewrite Ec.
      * unfold babs, token. cbn [bc set_core set_tok set_bc cpu_glb_sync Barrier.ready cores Barrier.cpus]. rewrite list_fmap_insert. do 2 f_equal. by destruct b.
    + pose proof (token_early _ _ _ Hs Hc ltac:(by rewrite Ec)) as Er. destruct (Barrier.may_leave (token s) x) eqn:Em; [|done]. injection Ht as <- <-.
      replace (babs (set_core _ _ _)) with (Barrier.Sys (token s) (<[i := (Barrier.Idle, entered (QSpin b x))]> (Barrier.cpus (babs s)))).
      * replace (Barrier.Sys (token s)) with (Barrier.Sys (Barrier.token (babs s))) by (unfold babs; cbn [Barrier.token]; by rewrite Er).
        eapply Barrier.b_leave; [|unfold babs; cbn [Barrier.token]; by rewrite Er].
        unfold babs. cbn [Barrier.cpus]. rewrite list_lookup_fmap, Hc. cbn. unfold bpc. by rewrite Ec.
      * unfold babs, token. cbn [bc set_core set_tok set_bc cpu_glb_sync cores Barrier.cpus]. unfold token in Er. rewrite Er, list_fmap_insert. do 2 f_equal. by destruct b.
Qed.

Lemma synced_step s s' : synced s -> step s s' -> synced s'.
Proof.
  intros Hs [i Hi]. apply cstep_inv in Hi as (c & Hc & [(c' & s1 & Ha & ->)|(_ & c' & t & Ht & ->)]).
  - apply act_own in Ha as [[Ecs Epc Etok Esy Ein Hfr] Hinit]. unfold token in Etok.
    assert (forall j d, <[i := c']> (cores s1) !! j = Some d -> (j = i /\ d = c') \/ (j <> i /\ cores s !! j = Some d)) as Hl.
    { intros j d. rewrite Ecs. intros [(-> & -> & _)|[? ?]]%list_lookup_insert_Some; auto. }
    split; unfold token; cbn [bc set_core cores]; rewrite ?Etok.
    + intros Hr. rewrite Ecs. destruct (decide (c_at c = QSync)); [done|]. pose proof (sd_early _ Hs Hr) as Hf. apply Forall_insert; [done|].
      pose proof (Forall_lookup_1 _ _ _ _ Hf Hc) as He. cbn in He. destruct (c_at c) as [| |[]| | | | | | | | | | | |] eqn:Ec; try done.
      * rewrite Hinit by done. by destruct (is_master _).
      * by destruct (Hfr G1).
    + intros d Hr Hd. apply Hl in Hd as [[<- ->]|[Hne Hd]].
      * split; [done|]. intros E. specialize (Esy E). rewrite decide_False in Hr by (by rewrite Esy). by destruct (sd_late _ Hs c Hr Hc).
      * apply (sd_late _ Hs); [|done]. destruct (decide (c_at c = QSync)) as [E|]; [|done]. by pose proof (sd_master _ Hs _ _ Hc E).
    + intros j d Hd Ed. apply Hl in Hd as [[-> ->]|[_ Hd]]; [|by eapply sd_master]. rewrite Hinit in Ed by auto.
      unfold is_master, CPU_MASTER in Ed. destruct (Z.eqb_spec (Z.of_nat i) 0); [lia|done].
    + intros d Hd Hr. destruct (decide (c_at c = QSync)) as [|Hns]; [done|]. apply Hl in Hd as [[<- ->]|[_ Hd]]; [|by apply (sd_open _ Hs)].
      destruct (sd_open _ Hs c Hc Hr) as [E|]; [|done]. right. rewrite Hinit by done. done.
  - assert (Barrier.ready (token s) = true /\ Barrier.ready t = true /\ early (c_at c') = false) as (Er & Er' & He).
    { unfold at_token in Ht. destruct (c_at c) as [| |b|b x| | | | | | | | | | |] eqn:Ec; try done.
      - destruct (Barrier.ready (token s)) eqn:Er; [|done]. by injection Ht as <- <-.
      - pose proof (token_early _ _ _ Hs Hc ltac:(by rewrite Ec)) as Er. destruct (Barrier.may_leave (token s) x); [|done].
        injection Ht as <- <-. split_and!; [done..|by destruct b]. }
    assert (forall j d, <[i := c']> (cores s) !! j = Some d -> d = c' \/ cores s !! j = Some d) as Hl.
    { intros j d [(-> & -> & _)|[? ?]]%list_lookup_insert_Some; auto. }
    split; unfold token; cbn [bc set_core set_tok set_bc cpu_glb_sync cores]; rewrite ?Er'; try done.
    + intros d _ [-> |Hd]%Hl; [|by apply (sd_late _ Hs)]. by destruct (c_at c').
    + intros j d [-> |Hd]%Hl E; [by rewrite E in He|]. by apply (sd_master _ Hs _ _ Hd).
Qed.

(** ** Reachable states *)

(** The CPUs enter [main]; the other variables have the values of the image. *)
Record started (N : nat) s : Prop := {
  st_len : length (cores s) = N;
  st_at : Forall (fun c => c_at c = QInit) (cores s);
  st_token : token s = Barrier.Token false 0 0;
  st_assign : vm_assign (bv s) = replicate (length conf) blank_entry;
}.

Section reach.
Context (N : nat) (HN : (0 < N)%nat) (Hnr : nr_cpus = Z.of_nat N) (Hlim : 6 * Z.of_nat N <= 2 ^ 31).

Lemma entered_range p : 0 <= entered p <= 5.
Proof. destruct p as [| |[]|[] ?| | | | | | | | | | |]; cbn; lia. Qed.

Lemma babs_total s : length (cores s) = N -> Barrier.total (babs s) + Z.of_nat N <= 2 ^ 31.
Proof.
  intros Hl. unfold Barrier.total, Barrier.entered, babs. cbn [Barrier.cpus].
  assert (Forall (fun x => x <= 5) (snd <$> (bpc <$> cores s))) as Hle.
  { apply Forall_fmap, Forall_fmap, Forall_forall. intros c _. cbn. pose proof (entered_range (c_at c)). lia. }
  destruct (Barrier.sum_le _ _ Hle) as [Hs _]. rewrite !length_fmap, Hl in Hs. lia.
Qed.

Lemma babs_start s : started N s -> synced s /\ babs s = Barrier.init N.
Proof.
  intros [Hl Hat Ht _]. split.
  - split; rewrite ?Ht; try done.
    + intros _. apply (Forall_impl _ _ _ Hat). intros c ->. done.
    + intros i c Hc E. pose proof (Forall_lookup_1 _ _ _ _ Hat Hc) as H. cbn in H. congruence.
    + intros c Hc _. left. by pose proof (Forall_lookup_1 _ _ _ _ Hat Hc).
  - unfold babs, Barrier.init. rewrite Ht, Hnr. cbn [Barrier.ready]. f_equal. rewrite <- Hl.
    clear Hl. induction Hat as [|c l Hc _ IH]; [done|]. cbn. rewrite IH. unfold bpc. by rewrite Hc.
Qed.

Lemma step_length s s' : step s s' -> length (cores s') = length (cores s).
Proof.
  intros [i Hi]. apply cstep_inv in Hi as (c & Hc & [(c' & s1 & Ha & ->)|(_ & c' & t & Ht & ->)]); cbn [cores set_core set_tok set_bc]; rewrite length_insert.
  - by apply act_own in Ha as [[-> _ _ _ _ _] _].
  - done.
Qed.

Lemma reach_barrier s0 s : started N s0 -> rtc step s0 s -> synced s /\ length (cores s) = N /\ rtc Barrier.bstep (Barrier.init N) (babs s).
Proof.
  intros H0 Hr. pose proof (st_len _ _ H0) as Hl. revert s Hr. apply (rtc_ind_r (fun s => synced s /\ length (cores s) = N /\ rtc Barrier.bstep (Barrier.init N) (babs s))).
  - destruct (babs_start _ H0) as [Hs ->]. split; [done|]. split; [done|apply rtc_refl].
  - intros s s' _ Hst (Hs & Hls & Hb). split; [by eapply synced_step|]. split; [by rewrite (step_length _ _ Hst)|].
    destruct (babs_step s s' Hs Hst) as [->|Hbs]; [done|]. by eapply rtc_r.
Qed.

Lemma reach_binv s0 s : started N s0 -> rtc step s0 s -> Barrier.inv N (babs s) /\ 0 <= Barrier.total (babs s).
Proof.
  intros H0 Hr. destruct (reach_barrier s0 s H0 Hr) as (_ & Hl & Hb). apply (Barrier.inv_reachable N HN); [lia|done|]. by apply babs_total.
Qed.

Lemma at_round_left r n c : Barrier.at_round r n (bpc c) -> left (c_at c) <= r <= entered (c_at c).
Proof.
  unfold bpc, left. generalize (entered (c_at c)). intros e. destruct (c_at c); cbn [spins Barrier.at_round]; lia.
Qed.

(** What a CPU has left behind, all CPUs have entered. *)
Lemma phases s i j c d : Barrier.inv N (babs s) -> cores s !! i = Some c -> cores s !! j = Some d -> left (c_at c) <= entered (c_at d).
Proof.
  intros [_ _ _ _ Hrd] Hc Hd.
  assert (forall k x, cores s !! k = Some x -> left (c_at x) <= Barrier.total (babs s) / Z.of_nat N <= entered (c_at x)) as Hat.
  { intros k x Hk. apply (at_round_left _ (Z.of_nat N)), (Forall_lookup_1 _ _ k _ Hrd). unfold babs. cbn [Barrier.cpus]. by rewrite list_lookup_fmap, Hk. }
  destruct (Hat _ _ Hc), (Hat _ _ Hd). lia.
Qed.

(** *** Nobody waits for ever *)

(** The CPU has called [vm_init], or idles. *)
Definition arrived (p : place) : bool := match p with QVm _ _ _ | QListed _ _ | QIdle => true | _ => false end.
Definition at_bar (p : place) : bool := match p with QEnter _ | QSpin _ _ => true | _ => false end.

Lemma act_some id c s : at_bar (c_at c) = false -> arrived (c_at c) = false -> exists r, act id c s = Some r.
Proof. unfold act. destruct (c_at c) as [| | | | | | |[]| | | | | | |]; try done; intros _ _; eexists; reflexivity. Qed.

(** A CPU that has not arrived makes a step. *)
Definition moves s : Prop := exists i c s', cores s !! i = Some c /\ arrived (c_at c) = false /\ cstep i s = Some s'.

Lemma act_step s i c r : cores s !! i = Some c -> arrived (c_at c) = false -> act (Z.of_nat i) c s = Some r -> moves s \/ exists e, r = Halt e.
Proof.
  intros Hc Hn Ha. destruct r as [[c' s1]|e]; [left|right; by exists e]. exists i, c, (set_core s1 i c'). split_and!; [done|done|].
  unfold cstep. rewrite Hc. cbn [mbind option_bind]. by rewrite Ha.
Qed.

Lemma bar_step s i c : cores s !! i = Some c -> at_bar (c_at c) = true -> is_Some (at_token (Z.of_nat i) c (token s)) -> moves s.
Proof.
  intros Hc Hb [[c' t] Ht]. exists i, c, (set_core (set_tok s t) i c'). split_and!; [done|by destruct (c_at c)|]. unfold cstep. rewrite Hc. cbn [mbind option_bind].
  replace (act (Z.of_nat i) c s) with (@None (outcome (core * boot G))) by (unfold act; by destruct (c_at c)). fold (token s). by rewrite Ht.
Qed.

(** Some CPU has entered no more barriers than are complete. *)
Lemma behind s : length (cores s) = N -> 0 <= Barrier.total (babs s) ->
  exists i c, cores s !! i = Some c /\ entered (c_at c) <= Barrier.total (babs s) / Z.of_nat N.
Proof.
  intros Hl H0. set (r := Barrier.total (babs s) / Z.of_nat N).
  destruct (decide (Exists (fun c => entered (c_at c) <= r) (cores s))) as [He|He%not_Exists_Forall]; [|exfalso|apply _].
  - apply Exists_exists in He as (c & [i Hi]%list_elem_of_lookup & He). eauto.
  - assert (forall l, Forall (fun c => ~ entered (c_at c) <= r) l -> (r + 1) * Z.of_nat (length l) <= foldr Z.add 0 (snd <$> (bpc <$> l))) as Hge.
    { induction 1 as [|c l Hc _ IH]; [cbn; lia|]. cbn [fmap list_fmap foldr length]. unfold bpc at 1. cbn [snd]. rewrite Nat2Z.inj_succ, Z.mul_succ_r. lia. }
    apply Hge in He. rewrite Hl in He. change (foldr _ _ _) with (Barrier.total (babs s)) in He. unfold r in He.
    pose proof (Z.div_mod (Barrier.total (babs s)) (Z.of_nat N)). pose proof (Z.mod_pos_bound (Barrier.total (babs s)) (Z.of_nat N)). lia.
Qed.

Lemma spin_leaves s i c b x : synced s -> Barrier.inv N (babs s) -> cores s !! i = Some c -> c_at c = QSpin b x ->
  entered (c_at c) <= Barrier.total (babs s) / Z.of_nat N -> moves s.
Proof.
  intros Hs [_ _ _ Hct Hrd] Hc Ec He. pose proof (token_early _ _ _ Hs Hc ltac:(by rewrite Ec)) as Er.
  assert (bpc c = (Barrier.Spin x Barrier.ThenReturn, entered (c_at c))) as Hb by (unfold bpc; by rewrite Ec).
  assert (Barrier.at_round (Barrier.total (babs s) / Z.of_nat N) (Z.of_nat N) (bpc c)) as Hat.
  { apply (Forall_lookup_1 _ _ i _ Hrd). unfold babs. cbn [Barrier.cpus]. by rewrite list_lookup_fmap, Hc. }
  rewrite Hb in Hat. cbn [Barrier.at_round] in Hat. apply (bar_step s i c Hc); [by rewrite Ec|]. unfold at_token. rewrite Ec.
  assert (Barrier.count (token s) = Barrier.total (babs s)) as Hct' by (rewrite <- Hct; unfold babs; cbn [Barrier.token]; by rewrite Er).
  unfold Barrier.may_leave. rewrite Hct'. destruct (Z.ltb_spec (Barrier.total (babs s)) x) as [Hlt|]; [|by eexists]. exfalso.
  pose proof (Z.mul_div_le (Barrier.total (babs s)) (Z.of_nat N)). lia.
Qed.

Lemma some_step s : synced s -> Barrier.inv N (babs s) -> 0 <= Barrier.total (babs s) -> length (cores s) = N ->
  Exists (fun c => arrived (c_at c) = false) (cores s) ->
  moves s \/ exists i c e, cores s !! i = Some c /\ arrived (c_at c) = false /\ act (Z.of_nat i) c s = Some (Halt e).
Proof.
  intros Hs Hi H0 Hl Hex.
  destruct (decide (Exists (fun c => at_bar (c_at c) = false /\ arrived (c_at c) = false) (cores s))) as [He|He%not_Exists_Forall]; [| |apply _].
  { apply Exists_exists in He as (c & [i Hc]%list_elem_of_lookup & Hb & Ha). destruct (act_some (Z.of_nat i) c s Hb Ha) as [r Hr].
    destruct (act_step s i c r Hc Ha Hr) as [|[e ->]]; [by left|right; eauto 10]. }
  left. assert (forall i c, cores s !! i = Some c -> arrived (c_at c) = false -> at_bar (c_at c) = true) as Hbar.
  { intros i c Hc Ha. pose proof (Forall_lookup_1 _ _ _ _ He Hc) as Hn. cbn in Hn. destruct (at_bar (c_at c)); [done|]. by destruct Hn. }
  assert (Barrier.ready (token s) = true) as Er.
  { destruct (Barrier.ready (token s)) eqn:Er; [done|]. destruct (lookup_lt_is_Some_2 (cores s) 0) as [c Hc]; [lia|].
    destruct (sd_open _ Hs c Hc Er) as [E|E]; specialize (Hbar _ _ Hc); rewrite E in Hbar; by discriminate Hbar. }
  assert (forall i c, cores s !! i = Some c -> at_bar (c_at c) = true -> entered (c_at c) <= Barrier.total (babs s) / Z.of_nat N -> moves s) as Hgo.
  { intros i c Hc Hb Hle. destruct (c_at c) as [| |b|b x| | | | | | | | | | |] eqn:Ec; try done.
    - apply (bar_step s i c Hc); [by rewrite Ec|]. unfold at_token. rewrite Ec, Er. by eexists.
    - apply (spin_leaves s i c b x); try done. by rewrite Ec. }
  destruct (behind s Hl H0) as (i & c & Hc & Hle). destruct (arrived (c_at c)) eqn:Ea; [|by eapply Hgo; eauto].
  apply Exists_exists in Hex as (d & [j Hd]%list_elem_of_lookup & Hda). apply (Hgo j d Hd (Hbar j d Hd Hda)).
  assert (entered (c_at c) = 5) by (by destruct (c_at c)). pose proof (entered_range (c_at d)). lia.
Qed.

(** *** The VMs *)

(** The search as [Vmm] sees it. *)
Definition vpc (c : core) : Vmm.pc :=
  match c_at c with
  | QSearch i => Visit i
  | QAlloc i m | QVm i m _ | QListed i m => Got i m
  | QIdle => Vmm.Idle
  | _ => Visit 0
  end.
Definition vabs s : Vmm.sys := Vmm.Sys (vm_assign (bv s)) (vpc <$> cores s).

Lemma ok_alloc n es ps i a al : ok conf n (Vmm.Sys es ps) -> es !! i = Some a ->
  ok conf n (Vmm.Sys (<[i := VmAssignment (va_lock a) (va_master a) (ncpus a) (va_cpus a) al]> es) ps).
Proof.
  intros [[Le Lp] Oe Ov Oi Og] Ha. cbn [entries pcs] in *.
  assert (forall j, full conf es j -> full conf (<[i := VmAssignment (va_lock a) (va_master a) (ncpus a) (va_cpus a) al]> es) j) as Hf.
  { intros j. by apply (full_insert conf es i a); [done|done|]; intros nr Hk; apply (Oe i nr a Hk Ha). }
  split; cbn [entries pcs]; [by rewrite length_insert| | | |done].
  - intros j nr b Hj [(<- & <- & _)|[_ Hb]]%list_lookup_insert_Some; [|by apply Oe]. by destruct (Oe i nr a Hj Ha).
  - intros c k j Hc Hk. apply Hf. by eapply Ov.
  - intros c j Hc. apply Hf. by eapply Oi.
Qed.

Lemma act_vmm id c s c' s' : act id c s = Some (Ok (c', s')) ->
  (vm_assign (bv s') = vm_assign (bv s) /\ vpc c' = vpc c) \/ (exists i, c_at c = QSearch i) \/ (exists i m, c_at c = QAlloc i m).
Proof.
  intros H. destruct (c_at c) as [| |b|b x| | | |[|t todo]| | |i|i m|i m vm|i m|] eqn:Ec; try (right; left; by eexists); try (right; right; by do 2 eexists); left;
    unfold act in H; rewrite Ec in H; try done;
    apply (f_equal (default (Halt HFault))) in H; change (default _ (Some ?x)) with x in H; unfold cpu_init in H.
  7: { bind_steps. match goal with H : do_task _ _ _ _ _ = _ |- _ => apply do_task_at in H as [l El] end. unfold vpc. by rewrite El, Ec. }
  all: bind_steps; split; try done; unfold vpc; rewrite Ec; cbn [c_at goto]; try done; by destruct (is_master id).
Qed.

Context (Hconf : Forall (fun nr => 0 <= nr < 2 ^ 63) conf) (HN64 : (N <= 64)%nat).

Lemma vpc_insert (l : list core) i c c' : l !! i = Some c -> vpc c' = vpc c -> vpc <$> <[i := c']> l = vpc <$> l.
Proof. intros Hi E. rewrite list_fmap_insert, E. apply list_insert_id. by rewrite list_lookup_fmap, Hi. Qed.

Lemma search_step s i c k c' s' : ok conf N (vabs s) -> cores s !! i = Some c -> c_at c = QSearch k ->
  act (Z.of_nat i) c s = Some (Ok (c', s')) -> turn conf (vabs s) (vabs (set_core s' i c')).
Proof.
  intros Hok Hc Ec H. unfold act in H. rewrite Ec in H. apply (f_equal (default (Halt HFault))) in H; change (default _ (Some ?x)) with x in H.
  assert (pcs (vabs s) !! i = Some (Visit k)) as Hp by (unfold vabs; cbn [pcs]; rewrite list_lookup_fmap, Hc; cbn; unfold vpc; by rewrite Ec).
  destruct (conf !! k) as [nr|] eqn:Hk.
  - bind_steps.
    match goal with H : rd _ _ = Ok ?a |- _ => apply rd_Ok in H as [_ Ha]; rewrite Nat2Z.id in Ha end.
    match goal with H : wr _ _ _ = Ok _ |- _ => rewrite wr_Ok in H by (apply lookup_lt_Some in Ha; lia); rewrite Nat2Z.id in H; injection H as <- end.
    match goal with H : assign_turn _ _ ?a = Ok (?o, ?a') |- _ =>
      pose proof (turn_at conf (vabs s) i k nr a o a' Hp Hk Ha H) as Ht end.
    replace (vabs (set_core _ _ _)) with (Vmm.Sys (<[k := v]> (entries (vabs s))) (<[i := match o with Some m => Got k m | None => Visit (S k) end]> (pcs (vabs s)))); [done|].
    unfold vabs. cbn [entries pcs bv set_core set_bv vm_assign cores]. rewrite list_fmap_insert. do 2 f_equal. by destruct o.
  - injection H as <- <-. replace (vabs (set_core _ _ _)) with (Vmm.Sys (entries (vabs s)) (<[i := Vmm.Idle]> (pcs (vabs s)))); [by eapply turn_end|].
    unfold vabs. cbn [entries pcs bv set_core cores]. by rewrite list_fmap_insert.
Qed.

Lemma alloc_step s i c k m c' s' : ok conf N (vabs s) -> cores s !! i = Some c -> c_at c = QAlloc k m ->
  act (Z.of_nat i) c s = Some (Ok (c', s')) -> ok conf N (vabs (set_core s' i c')).
Proof.
  intros Hok Hc Ec H. unfold act in H. rewrite Ec in H. apply (f_equal (default (Halt HFault))) in H; change (default _ (Some ?x)) with x in H.
  unfold vmm_alloc_install_vm in H. unfold vabs. apply bind_Ok in H as ([[[al t] p] r] & Ea & H). cbn beta iota in H. injection H as <- <-.
  cbn [bv set_core set_bm set_bv vm_assign cores]. rewrite (vpc_insert _ _ c) by (done || (unfold vpc; by rewrite Ec)).
  apply bind_Ok in Ea as (a & [_ Ha]%rd_Ok & Ea). rewrite Nat2Z.id in Ha. apply bind_Ok in Ea as (nr & _ & Ea). destruct m.
  - apply bind_Ok in Ea as ([[al' p'] r'] & _ & Ea). apply bind_Ok in Ea as (t' & Et & Ea). injection Ea as <- <- <- <-.
    rewrite wr_Ok in Et by (apply lookup_lt_Some in Ha; lia). rewrite Nat2Z.id in Et. injection Et as <-. by apply ok_alloc.
  - by injection Ea as <- <- <- <-.
Qed.

Lemma vmm_step s s' : step s s' -> ok conf N (vabs s) -> ok conf N (vabs s').
Proof.
  intros [i Hi] Hok. apply cstep_inv in Hi as (c & Hc & [(c' & s1 & Ha & ->)|(_ & c' & t & Ht & ->)]).
  - pose proof (act_own _ _ _ _ _ Ha) as [[Ecs _ _ _ _ _] _].
    destruct (act_vmm _ _ _ _ _ Ha) as [[Ev Ep]|[[k Ek]|(k & m & Ek)]].
    + unfold vabs in *. cbn [bv set_core cores]. by rewrite Ecs, Ev, (vpc_insert _ _ _ _ Hc Ep).
    + eapply turn_ok; [done|lia|exact Hok|]. by eapply search_step.
    + by eapply alloc_step.
  - unfold vabs in *. cbn [bv set_core set_tok set_bc cores]. rewrite (vpc_insert _ _ c); [done|done|].
    unfold at_token, vpc in *. destruct (c_at c) as [| |b|b x| | | | | | | | | | |] eqn:Ec; try done.
    + destruct (Barrier.ready (token s)); [|done]. by injection Ht as <- <-.
    + destruct (Barrier.may_leave (token s) x); [|done]. injection Ht as <- <-. by destruct b.
Qed.

Lemma reach_vmm s0 s : started N s0 -> rtc step s0 s -> ok conf N (vabs s).
Proof.
  intros [Hl Hat _ Hv] Hr. revert s Hr. apply (rtc_ind_r (fun s => ok conf N (vabs s))).
  - replace (vabs s0) with (Vmm.start conf N); [by apply start_ok|]. unfold vabs, Vmm.start. rewrite Hv. f_equal. rewrite <- Hl.
    clear Hl Hv. induction Hat as [|c l Hc _ IH]; [done|]. cbn. rewrite IH. unfold vpc. by rewrite Hc.
  - intros s s' _ Hst IH. by eapply vmm_step.
Qed.

(** *** Memory and interrupts *)

Definition past_mem (p : place) : bool := (2 <=? entered p) || bool_decide (p = QEnter G2).
Definition past_gic (p : place) : bool := (3 <=? entered p) || bool_decide (p = QEnter G3).

(** The maintenance interrupt has its handler and is marked in both bitmaps. *)
Record reserved (t : intrs) : Prop := {
  rs_handler : interrupt_handlers t !! Z.to_nat maintenance_id = Some (Some gic_maintenance);
  rs_map : forall m, bit (map_of m t) maintenance_id = true;
}.

(** A store that is due does not take the mark away. *)
Definition harmless (t : task) : Prop :=
  match t with
  | THandler i _ => 0 <= i /\ i <> maintenance_id
  | TStore _ i w => i / 32 = maintenance_id / 32 -> Z.testbit w (maintenance_id mod 32) = true
  | _ => True
  end.

Record ready_for s : Prop := {
  rf_mem : forall c, cores s !! 0%nat = Some c -> past_mem (c_at c) = true ->
    pool_wf (root_page_pool (bm s)) /\ 0 < base (root_page_pool (bm s));
  rf_irq : forall c, cores s !! 0%nat = Some c -> past_gic (c_at c) = true -> reserved (i_tab (bi s));
  rf_todo : forall i c l, cores s !! i = Some c -> c_at c = QIrq l -> Forall harmless l;
}.

Context (nr_pages : Z) (Hbase : 0 < mem_vm_begin) (Halign : mem_vm_begin mod PAGE_SIZE = 0)
  (Hend : mem_vm_end = mem_vm_begin + nr_pages * PAGE_SIZE) (Htop : mem_vm_end < 2 ^ 48) (Hpages : 8209 < nr_pages <= 2 ^ 19).
Context (Hmid : 0 <= maintenance_id < MAX_INTERRUPTS) (Hmid1 : maintenance_id <> Msg.IPI_CPU_MSG) (Hmid2 : maintenance_id <> IRQ_TIMER).
Context (Hsvm : 0 < sizeof_vm < 2 ^ 40) (Hsvc : 0 < sizeof_vcpu < 2 ^ 40) (Hal : 0 < alignof_vcpu) (Hald : (alignof_vcpu | PAGE_SIZE))
  (Hsmall : Forall (fun nr => 0 <= nr < 2 ^ 10) conf).

Lemma wr_bit map i v map' : wr map (i / BITMAP_GRANULE_LEN) v = Ok map' ->
  bit map' maintenance_id = if maintenance_id / 32 =? i / 32 then Z.testbit v (maintenance_id mod 32) else bit map maintenance_id.
Proof.
  unfold wr, BITMAP_GRANULE_LEN, bit. destruct (Z.leb_spec 0 (i / 32)), (Z.ltb_spec (i / 32) (Z.of_nat (length map))); try done.
  intros [= <-]. pose proof (Z.div_pos maintenance_id 32). destruct (Z.eqb_spec (maintenance_id / 32) (i / 32)) as [-> |].
  - by rewrite list_lookup_insert_eq by lia.
  - by rewrite list_lookup_insert_ne by lia.
Qed.

Lemma rd_bit map i w : rd map (i / BITMAP_GRANULE_LEN) = Ok w -> i / 32 = maintenance_id / 32 ->
  Z.testbit w (maintenance_id mod 32) = bit map maintenance_id.
Proof. intros [_ H]%rd_Ok E. unfold BITMAP_GRANULE_LEN in H. unfold bit. by rewrite <- E, H. Qed.

Lemma bitmap_set_mark map map' : bitmap_set map maintenance_id = Ok map' -> bit map' maintenance_id = true.
Proof.
  unfold bitmap_set. intros (w & _ & H)%bind_Ok. apply wr_bit in H. rewrite H, Z.eqb_refl, Z.lor_spec.
  unfold BITMAP_GRANULE_LEN. pose proof (Z.mod_pos_bound maintenance_id 32 ltac:(lia)).
  rewrite testbit_lsl32, Z.sub_diag by lia. rewrite (proj2 (Z.ltb_lt _ _)) by lia. apply orb_true_r.
Qed.

Lemma interrupts_reserve_mark t t' : interrupts_reserve t maintenance_id gic_maintenance = Ok t' -> reserved t'.
Proof.
  unfold interrupts_reserve. rewrite (proj2 (Z.ltb_lt _ _)) by lia. intros (hs & Eh & H)%bind_Ok.
  apply bind_Ok in H as (b1 & E1%bitmap_set_mark & H). apply bind_Ok in H as (b2 & E2%bitmap_set_mark & H). injection H as <-. split.
  - unfold wr in Eh. destruct (_ && _) eqn:Eb; [|done]. injection Eh as <-. apply andb_true_iff in Eb as [_ Hlt%Z.ltb_lt].
    apply list_lookup_insert_eq. lia.
  - by intros [].
Qed.

Lemma do_task_mark id c t todo x c' x' : do_task id c t todo x = Ok (c', x') -> harmless t -> Forall harmless todo -> reserved (i_tab x) ->
  reserved (i_tab x') /\ forall l, c_at c' = QIrq l -> Forall harmless l.
Proof.
  intros H Ht Hl Hr. destruct t as [i|i h|m i|m i w| | | |]; cbn [do_task] in H; unfold on_gic in H; bind_steps; cbn [i_tab c_at goto]; try (split; [done|by intros l [= <-]]).
  - split; [|by intros l [= <-]]. destruct Ht as [Hi Hne], Hr as [Hh Hm]. split; [|by intros m; specialize (Hm m); destruct m].
    match goal with H : wr _ _ _ = Ok _ |- _ => unfold wr in H; destruct (_ && _); [|done]; injection H as <- end.
    cbn [interrupt_handlers]. rewrite list_lookup_insert_ne by lia. done.
  - split; [done|]. intros l [= <-]. constructor; [|done]. cbn. intros E0. erewrite rd_bit by eauto. apply Hr.
  - split; [|by intros l [= <-]]. destruct Hr as [Hh Hm]. match goal with H : wr _ _ _ = Ok _ |- _ => apply wr_bit in H end. split; [by destruct m|].
    assert (bit x0 maintenance_id = true) as Hb.
    { match goal with H : bit x0 _ = _ |- _ => rewrite H end. destruct (Z.eqb_spec (maintenance_id / 32) (i / 32)) as [E0|]; [|apply Hm].
      rewrite Z.lor_spec, Ht by done. done. }
    intros m'. pose proof (Hm m'). by destruct m, m'.
Qed.

Lemma irq_tasks_harmless id : Forall harmless (irq_tasks id).
Proof.
  unfold irq_tasks. assert (forall h, Forall harmless (reserve Msg.IPI_CPU_MSG h) /\ Forall harmless (reserve IRQ_TIMER h)) as Hr.
  { intros h. split; (constructor; [split; [vm_compute; congruence|done]|repeat constructor]). }
  constructor; [done|]. apply Forall_app. split; [destruct (is_master id); [apply Hr|constructor]|].
  constructor; [done|]. apply Forall_app. split; [apply Hr|repeat constructor].
Qed.

Lemma act_mem id c s c' s' : act id c s = Some (Ok (c', s')) ->
  (bm s' = bm s /\ (c_at c = QMem -> is_master id = false)) \/
  (c_at c = QMem /\ is_master id = true /\ mem_init mem_vm_begin mem_vm_end (ram (bm s)) = Ok (bm s')) \/
  (exists k m, c_at c = QAlloc k m).
Proof.
  intros H. destruct (c_at c) as [| |b|b x| | | |[|t todo]| | |i|i m|i m vm|i m|] eqn:Ec; try (right; right; by do 2 eexists);
    unfold act in H; rewrite Ec in H; try done;
    apply (f_equal (default (Halt HFault))) in H; change (default _ (Some ?x)) with x in H; unfold cpu_init in H; bind_steps;
    solve [left; by split | right; left; by split_and!].
Qed.

Lemma act_irq id c s c' s' : act id c s = Some (Ok (c', s')) ->
  (i_tab (bi s') = i_tab (bi s) /\ (c_at c = QGic -> is_master id = false) /\ forall l, c_at c' <> QIrq l) \/
  (c_at c = QGic /\ reserved (i_tab (bi s')) /\ forall l, c_at c' <> QIrq l) \/
  (exists t todo, c_at c = QIrq (t :: todo) /\ do_task id c t todo (bi s) = Ok (c', bi s')).
Proof.
  intros H. destruct (c_at c) as [| |b|b x| | | |[|t todo]| | |i|i m|i m vm|i m|] eqn:Ec;
    unfold act in H; rewrite Ec in H; try done;
    apply (f_equal (default (Halt HFault))) in H; change (default _ (Some ?x)) with x in H; unfold cpu_init, on_gic in H; bind_steps;
    try (left; split_and!; [done|done|]; cbn [c_at goto]; try done; intros l; by destruct (is_master id)).
  - right; left. split; [done|]. split; [|done]. unfold gic_init_master, gicd_init in *. bind_steps.
    match goal with H : interrupts_reserve _ _ _ = Ok _ |- _ => apply interrupts_reserve_mark in H end. done.
  - right; right. eauto.
  - left. split_and!; [done|done|]. cbn [c_at goto]. intros l. by destruct o.
Qed.

Lemma act_past id c s c' s' : act id c s = Some (Ok (c', s')) ->
  (past_mem (c_at c') = true -> past_mem (c_at c) = true \/ c_at c = QMem) /\
  (past_gic (c_at c') = true -> past_gic (c_at c) = true \/ c_at c = QGic).
Proof.
  intros H. pose proof (act_own _ _ _ _ _ H) as [[_ Hb _ _ _ _] _]. unfold bpc in Hb. injection Hb as _ He. unfold past_mem, past_gic. rewrite He.
  split; destruct (_ <=? entered (c_at c)); auto; cbn [orb]; intros E%bool_decide_eq_true; rewrite E in He; right; unfold act in H;
    destruct (c_at c) as [| |[]|[] ?| | | | | | | | | | |]; done.
Qed.

Lemma token_past id c t c' t' : at_token id c t = Some (c', t') ->
  (past_mem (c_at c') = true -> past_mem (c_at c) = true) /\ (past_gic (c_at c') = true -> past_gic (c_at c) = true) /\
  (forall l, c_at c' = QIrq l -> Forall harmless l).
Proof.
  unfold at_token. destruct (c_at c) as [| |b|b x| | | | | | | | | | |] eqn:Ec; try done.
  - destruct (Barrier.ready t); [|done]. intros [= <- _]. split_and!; try done; by destruct b.
  - destruct (Barrier.may_leave t x); [|done]. intros [= <- _]. split_and!; [by destruct b..|]. intros l. destruct b; try done. intros [= <-]. apply irq_tasks_harmless.
Qed.

(** Allocating a VM keeps the pool. *)
Lemma alloc_pool s id c k m c' s' : c_at c = QAlloc k m -> act id c s = Some (Ok (c', s')) ->
  pool_wf (root_page_pool (bm s)) -> 0 < base (root_page_pool (bm s)) ->
  pool_wf (root_page_pool (bm s')) /\ 0 < base (root_page_pool (bm s')).
Proof.
  intros Ec H Hwf Hb. unfold act in H. rewrite Ec in H. apply (f_equal (default (Halt HFault))) in H; change (default _ (Some ?x)) with x in H.
  unfold vmm_alloc_install_vm in H. apply bind_Ok in H as ([[[al t] p] r] & Ea & H). cbn beta iota in H. injection H as <- <-. cbn [bm set_bm root_page_pool].
  apply bind_Ok in Ea as (a & _ & Ea). apply bind_Ok in Ea as (nr & [_ Hk]%rd_Ok & Ea). pose proof (Forall_lookup_1 _ _ _ _ Hsmall Hk) as Hn. cbn in Hn. destruct m.
  - apply bind_Ok in Ea as ([[al' p'] r'] & Ev & Ea). apply bind_Ok in Ea as (t' & _ & Ea). injection Ea as <- <- <- <-.
    destruct (vmm_alloc_vm_run sizeof_vm sizeof_vcpu alignof_vcpu nr (root_page_pool (bm s)) (ram (bm s)) Hwf Hb Hsvm Hsvc Hn Hal Hald)
      as [(i & al2 & p2 & m2 & E2 & _ & _ & Hwf2 & Ha2 & _)|[E2 _]]; rewrite E2 in Ev; [|done].
    injection Ev as <- <- <-. split; [done|]. destruct Ha2 as (_ & _ & -> & _). done.
  - by injection Ea as <- <- <- <-.
Qed.

Lemma past_all p k : 4 <= k -> k <= entered p -> past_mem p = true /\ past_gic p = true.
Proof. intros Hk He. unfold past_mem, past_gic. destruct (Z.leb_spec 2 (entered p)), (Z.leb_spec 3 (entered p)); done || lia. Qed.

Lemma ready_step s s' : Barrier.inv N (babs s) -> length (cores s) = N -> step s s' -> ready_for s -> ready_for s'.
Proof.
  intros Hinv Hl [i Hi] [Hm Hq Ht].
  destruct (lookup_lt_is_Some_2 (cores s) 0) as [c0 H0]; [lia|].
  apply cstep_inv in Hi as (c & Hc & [(c' & s1 & Ha & ->)|(_ & c' & t & Htk & ->)]).
  - pose proof (act_own _ _ _ _ _ Ha) as [[Ecs _ _ _ _ _] _]. pose proof (act_past _ _ _ _ _ Ha) as [Pm Pq].
    assert (left (c_at c) <= entered (c_at c0)) as Hph by (eapply phases; eauto).
    assert (forall d, <[i := c']> (cores s1) !! 0%nat = Some d -> (i = 0%nat /\ d = c' /\ c = c0) \/ d = c0) as Hd0.
    { intros d. rewrite Ecs. intros [(-> & -> & _)|[_ Hd]]%list_lookup_insert_Some; [left|right]; [|congruence]. split_and!; [done..|congruence]. }
    split; cbn [cores set_core bm bi].
    + intros d Hd Hp. destruct (act_mem _ _ _ _ _ Ha) as [[-> Hnm]|[(Ec & Hma & Hmi)|(k & m & Ec)]].
      * apply Hd0 in Hd as [(-> & -> & ->)| ->]; [|by eapply Hm]. destruct (Pm Hp) as [Hp'|E]; [by eapply Hm|]. by specialize (Hnm E).
      * destruct (mem_init_spec mem_vm_begin nr_pages (ram (bm s))) as (ms & E & Hwf & Hb & _); [done|done|lia|done|].
        rewrite <- Hend, Hmi in E. injection E as <-. split; [done|lia].
      * rewrite Ec in Hph. pose proof (past_all (c_at c0) (5 - 0) ltac:(done) Hph) as [Hp0 _].
        destruct (Hm c0 H0 Hp0) as [Hwf Hb]. by eapply alloc_pool.
    + intros d Hd Hp. destruct (act_irq _ _ _ _ _ Ha) as [(-> & Hnm & _)|[(Ec & Hr & _)|(t & todo & Ec & Hdo)]].
      * apply Hd0 in Hd as [(-> & -> & ->)| ->]; [|by eapply Hq]. destruct (Pq Hp) as [Hp'|E]; [by eapply Hq|]. by specialize (Hnm E).
      * done.
      * rewrite Ec in Hph. pose proof (past_all (c_at c0) (4 - 0) ltac:(done) Hph) as [_ Hp0].
        pose proof (Ht _ _ _ Hc Ec) as Hf. apply Forall_cons in Hf as [Hf1 Hf2]. apply (do_task_mark _ _ _ _ _ _ _ Hdo Hf1 Hf2 (Hq c0 H0 Hp0)).
    + intros j d l Hj Ed. rewrite Ecs in Hj. apply list_lookup_insert_Some in Hj as [(<- & <- & _)|[_ Hj]]; [|by eapply Ht].
      destruct (act_irq _ _ _ _ _ Ha) as [(_ & _ & Hn)|[(_ & _ & Hn)|(t & todo & Ec & Hdo)]]; [by destruct (Hn l)..|].
      rewrite Ec in Hph. pose proof (past_all (c_at c0) (4 - 0) ltac:(done) Hph) as [_ Hp0].
      pose proof (Ht _ _ _ Hc Ec) as Hf. apply Forall_cons in Hf as [Hf1 Hf2]. by apply (do_task_mark _ _ _ _ _ _ _ Hdo Hf1 Hf2 (Hq c0 H0 Hp0)).
  - destruct (token_past _ _ _ _ _ Htk) as (Pm & Pq & Pl).
    assert (forall j d, <[i := c']> (cores s) !! j = Some d -> (j = i /\ d = c') \/ cores s !! j = Some d) as Hd0.
    { intros j d [(-> & -> & _)|[_ Hd]]%list_lookup_insert_Some; auto. }
    split; cbn [cores set_core set_tok set_bc bm bi].
    + intros d [[<- ->]|Hd]%Hd0 Hp; [|by eapply Hm]. apply (Hm c Hc), Pm, Hp.
    + intros d [[<- ->]|Hd]%Hd0 Hp; [|by eapply Hq]. apply (Hq c Hc), Pq, Hp.
    + intros j d l [[-> ->]|Hd]%Hd0 E; [by apply Pl|by eapply Ht].
Qed.

Lemma reach_ready s0 s : started N s0 -> rtc step s0 s -> ready_for s.
Proof.
  intros H0 Hr. revert s Hr.
  assert (forall s, rtc step s0 s -> rtc step s0 s /\ ready_for s) as H; [|intros s Hs; by apply H].
  apply (rtc_ind_r (fun s => rtc step s0 s /\ ready_for s)).
  - split; [apply rtc_refl|]. pose proof (st_at _ _ H0) as Hat.
    split; [intros c Hc|intros c Hc|intros i c l Hc]; pose proof (Forall_lookup_1 _ _ _ _ Hat Hc) as E; cbn in E; by rewrite E.
  - intros s s' _ Hst [Hr IH]. split; [by eapply rtc_r|]. destruct (reach_barrier s0 s H0 Hr) as (_ & Hl & _).
    eapply ready_step; [by apply (reach_binv s0)|done|done|done].
Qed.

Lemma boot_facts s0 s : started N s0 -> rtc step s0 s ->
  synced s /\ Barrier.inv N (babs s) /\ 0 <= Barrier.total (babs s) /\ length (cores s) = N /\ ready_for s /\ ok conf N (vabs s).
Proof.
  intros H0 Hr. destruct (reach_barrier s0 s H0 Hr) as (Hs & Hl & _), (reach_binv s0 s H0 Hr) as [Hi Ht].
  split_and!; try done; [by eapply reach_ready|by eapply reach_vmm].
Qed.

End reach.

End boot.

(** ** The properties *)

Section properties.
Context {G : Type} (view : Z -> GicHw G).
Context (conf : list Z) (maintenance_id mem_vm_begin nr_pages frq : Z) (mpidr_el1 mmfr0 : Z -> Z).
Context (sizeof_vm sizeof_vcpu alignof_vcpu : Z).

(** What the theorems ask of the configuration, the platform and the image. *)
Record sane (N : nat) : Prop := {
  sn_cpus : (0 < N <= 64)%nat;
  sn_conf : Forall (fun nr => 0 <= nr < 2 ^ 10) conf;
  sn_mem : 0 < mem_vm_begin /\ mem_vm_begin mod PAGE_SIZE = 0 /\ mem_vm_begin + nr_pages * PAGE_SIZE < 2 ^ 48 /\ 8209 < nr_pages <= 2 ^ 19;
  sn_irq : 0 <= maintenance_id < MAX_INTERRUPTS /\ maintenance_id <> Msg.IPI_CPU_MSG /\ maintenance_id <> IRQ_TIMER;
  sn_size : 0 < sizeof_vm < 2 ^ 40 /\ 0 < sizeof_vcpu < 2 ^ 40 /\ 0 < alignof_vcpu /\ (alignof_vcpu | PAGE_SIZE);
}.

Definition one_step (N : nat) : boot G -> boot G -> Prop :=
  step view (Z.of_nat N) conf maintenance_id mem_vm_begin (mem_vm_begin + nr_pages * PAGE_SIZE) frq mpidr_el1 mmfr0 sizeof_vm sizeof_vcpu alignof_vcpu.

(** A function that CPU [i] calls ends in an error or a fault. *)
Definition stopped (N : nat) (s : boot G) : Prop := exists i c e, cores s !! i = Some c /\
  act view (Z.of_nat N) conf maintenance_id mem_vm_begin (mem_vm_begin + nr_pages * PAGE_SIZE) frq mpidr_el1 mmfr0 sizeof_vm sizeof_vcpu alignof_vcpu
    (Z.of_nat i) c s = Some (Halt e).

(** A CPU on its way makes a step, or is stopped in a function it calls. *)
Definition on_the_move (N : nat) (s : boot G) : Prop :=
  moves view (Z.of_nat N) conf maintenance_id mem_vm_begin (mem_vm_begin + nr_pages * PAGE_SIZE) frq mpidr_el1 mmfr0 sizeof_vm sizeof_vcpu alignof_vcpu s.
Definition stopped_early (N : nat) (s : boot G) : Prop := exists i c e, cores s !! i = Some c /\ arrived (c_at c) = false /\
  act view (Z.of_nat N) conf maintenance_id mem_vm_begin (mem_vm_begin + nr_pages * PAGE_SIZE) frq mpidr_el1 mmfr0 sizeof_vm sizeof_vcpu alignof_vcpu
    (Z.of_nat i) c s = Some (Halt e).

Lemma facts (N : nat) (s0 s : boot G) : sane N -> started conf N s0 -> rtc (one_step N) s0 s ->
  synced s /\ Barrier.inv N (babs (Z.of_nat N) s) /\ 0 <= Barrier.total (babs (Z.of_nat N) s) /\ length (cores s) = N /\
  ready_for maintenance_id s /\ ok conf N (vabs s).
Proof.
  intros [[HN HN64] Hsmall (Hb & Hal & Htop & Hp) (Hm & Hm1 & Hm2) (Hs1 & Hs2 & Hs3 & Hs4)] H0 Hr.
  assert (Forall (fun nr => 0 <= nr < 2 ^ 63) conf) as Hconf by (apply (Forall_impl _ _ _ Hsmall); intros; lia).
  eapply boot_facts; try exact Hr; try eassumption; try done. lia.
Qed.

(** C13: the barriers of the start are where they have to be.  In every interleaving
    of the CPUs: no CPU has left a barrier of [cpu_glb_sync] that another has not
    entered; a CPU past the second one finds the root page pool set up; a CPU past
    the third one finds the maintenance interrupt registered; and at every moment
    the VMs have at most the CPUs of their configuration, exactly one of them the
    master, and a CPU only idles when all VMs are full. *)
Theorem boot_ordered (N : nat) (s0 s : boot G) : sane N -> started conf N s0 -> rtc (one_step N) s0 s ->
  (forall i j c d, cores s !! i = Some c -> cores s !! j = Some d -> left (c_at c) <= entered (c_at d)) /\
  (forall i c, cores s !! i = Some c -> 2 <= left (c_at c) -> pool_wf (root_page_pool (bm s))) /\
  (forall i c, cores s !! i = Some c -> 3 <= left (c_at c) -> reserved maintenance_id (i_tab (bi s))) /\
  ok conf N (vabs s).
Proof.
  intros Hsn H0 Hr. destruct (facts N s0 s Hsn H0 Hr) as (_ & Hi & _ & Hl & Hrf & Hok). pose proof (sn_cpus _ Hsn).
  destruct (lookup_lt_is_Some_2 (cores s) 0) as [c0 Hc0]; [lia|].
  assert (Hph : forall i j c d, cores s !! i = Some c -> cores s !! j = Some d -> left (c_at c) <= entered (c_at d)) by (intros i j c d Hc Hd; eapply phases; [|exact Hi|exact Hc|exact Hd]; lia).
  split; [done|]. split; [|split; [|done]].
  - intros i c Hc Hle. apply (rf_mem _ _ Hrf c0 Hc0). unfold past_mem. specialize (Hph i 0%nat c c0 Hc Hc0). by rewrite (proj2 (Z.leb_le _ _)) by lia.
  - intros i c Hc Hle. apply (rf_irq _ _ Hrf c0 Hc0). unfold past_gic. specialize (Hph i 0%nat c c0 Hc Hc0). by rewrite (proj2 (Z.leb_le _ _)) by lia.
Qed.

(** C14: the start does not hang before [vm_init].  In every interleaving of the CPUs, as
    long as some CPU has neither called [vm_init] nor gone idle, a CPU of which the
    same is true can make a step, whatever becomes of those that have, unless
    such a CPU has been stopped by an error or a fault of a function it called:
    none of the five barriers keeps a CPU for ever.  ([VmInit] takes over
    from there.) *)
Theorem boot_progress (N : nat) (s0 s : boot G) : sane N -> started conf N s0 -> rtc (one_step N) s0 s ->
  Exists (fun c => arrived (c_at c) = false) (cores s) -> on_the_move N s \/ stopped_early N s.
Proof.
  intros Hsn H0 Hr Hex. destruct (facts N s0 s Hsn H0 Hr) as (Hs & Hi & Ht & Hl & _). eapply some_step; try done. by apply (sn_cpus _ Hsn).
Qed.

End properties.

(** ** Two CPUs *)

(** A controller whose registers hold what is written to them; the first target
    registers tell each CPU its number. *)
Definition demo_view (c : Z) : GicHw regfile := {|
  hw_read h r := match r with ITARGETSR i => if i <? 8 then Z.shiftl 0x01010101 c else h r | _ => regfile_read h r end;
  hw_write := regfile_write;
  hw_ack h := (h GICC_IAR, h);
|}.

Definition demo_core : core := Core QInit 0 (El2Regs 0 0 0) 0 0.

Definition demo_boot (conf : list Z) (n : nat) : boot regfile :=
  BootSys
    (CpuSys (Barrier.Token false 0 0) [0] 0 (Msg.MsgSys (Msg.msg_pool_init 0x40080000) ∅ ∅ (replicate 2 (Spinlock 7 7)) [] {[0; 1]}))
    (MemSys (PagePool 0 0 0 0 [] SPINLOCK_INITVAL) 0 ∅)
    (IrqSys (Gic (fun r => match r with TYPER => 2 | GICH_VTR => 3 | _ => 0 end) SPINLOCK_INITVAL (replicate 8 0) 0)
       (Intrs (replicate 32 0) (replicate 32 0) (replicate 1024 None)) (Timer 2000 0 0 0 0))
    (VmmSys tcr_init (VmList SPINLOCK_INITVAL ∅) (replicate (length conf) blank_entry))
    (replicate n demo_core).

Abbreviation demo_run conf n l := (run demo_view (Z.of_nat n) conf 25 0x50010000 (0x50010000 + 8210 * PAGE_SIZE) 62500000 (fun c => Z.lor 0x80000000 c)
  (fun _ => 5) 0x3000 0x1000 16 l (demo_boot conf n)).

Fixpoint alternate (n : nat) : list nat := match n with O => [] | S n => 0%nat :: 1%nat :: alternate n end.

Lemma demo_started conf n : started conf n (demo_boot conf n).
Proof. split; [apply length_replicate|by apply Forall_replicate|done|done]. Qed.

Lemma demo_sane : sane [1; 1] 25 0x50010000 8210 0x3000 0x1000 16 2.
Proof.
  split; [lia|repeat constructor; lia|vm_compute; split_and!; congruence|vm_compute; split_and!; congruence|].
  split; [lia|]. split; [lia|]. split; [lia|]. by exists 256.
Qed.

(** Both CPUs run a VM of their own at the end of the round robin. *)
Lemma boot_ordered_witness : let s := demo_run [1; 1] 2 (alternate 60) in
  c_at <$> cores s = [QListed 1 true; QListed 0 true] /\ pool_wf (root_page_pool (bm s)) /\ reserved 25 (i_tab (bi s)).
Proof.
  intros s. assert (c_at <$> cores s = [QListed 1 true; QListed 0 true]) as E by (vm_compute; reflexivity).
  destruct (boot_ordered demo_view [1; 1] 25 0x50010000 8210 62500000 (fun c => Z.lor 0x80000000 c) (fun _ => 5) 0x3000 0x1000 16 2
    (demo_boot [1; 1] 2) s demo_sane (demo_started _ _) (run_reach _ _ _ _ _ _ _ _ _ _ _ _ _ _)) as (_ & Hm & Hi & _).
  clearbody s. destruct (cores s) as [|c l] eqn:Ec; [done|]. assert (c_at c = QListed 1 true) as Ea by (by injection E).
  assert (cores s !! 0%nat = Some c) as Hc by (by rewrite Ec). split; [exact E|]. split; [apply (Hm 0%nat c)|apply (Hi 0%nat c)]; [done|rewrite Ea; vm_compute; congruence|done|rewrite Ea; vm_compute; congruence].
Defined.

(** CPU 0 waits at the first barrier, but CPU 1 is on the move. *)
Lemma boot_progress_witness : let s := demo_run [1; 1] 2 [1%nat; 0%nat; 0%nat; 0%nat] in
  c_at <$> cores s = [QSpin G1 2; QEnter G1] /\
  (on_the_move demo_view [1; 1] 25 0x50010000 8210 62500000 (fun c => Z.lor 0x80000000 c) (fun _ => 5) 0x3000 0x1000 16 2 s \/
   stopped_early demo_view [1; 1] 25 0x50010000 8210 62500000 (fun c => Z.lor 0x80000000 c) (fun _ => 5) 0x3000 0x1000 16 2 s).
Proof.
  intros s. split; [vm_compute; reflexivity|].
  apply (boot_progress demo_view [1; 1] 25 0x50010000 8210 62500000 (fun c => Z.lor 0x80000000 c) (fun _ => 5) 0x3000 0x1000 16 2
    (demo_boot [1; 1] 2) s demo_sane (demo_started _ _) (run_reach _ _ _ _ _ _ _ _ _ _ _ _ _ _)).
  left. vm_compute. reflexivity.
Defined.

(** ** Where the barriers are missing *)

(** C40: [interrupts_reserve] is not atomic and has no lock, and every CPU reserves its
    timer.  With two CPUs that take turns both get through [interrupts_init], and
    the reservation of the interrupt that carries the messages between CPUs is
    lost: CPU 1 stored back the granule it had loaded before the master set the bit.
    The handler is in the table, but [interrupts_handle] would end in the error exit. *)
Theorem boot_reserve_lost : exists s,
  rtc (one_step demo_view [1; 1] 25 0x50010000 8210 62500000 (fun c => Z.lor 0x80000000 c) (fun _ => 5) 0x3000 0x1000 16 2) (demo_boot [1; 1] 2) s /\
  Forall (fun c => entered (c_at c) = 5) (cores s) /\
  interrupt_handlers (i_tab (bi s)) !! Z.to_nat Msg.IPI_CPU_MSG = Some (Some cpu_msg) /\
  bit (hyp_interrupt_bitmap (i_tab (bi s))) Msg.IPI_CPU_MSG = false.
Proof.
  exists (demo_run [1; 1] 2 (alternate 60)). split; [apply run_reach|]. split; [|vm_compute; done].
  apply Forall_lookup. intros i c Hc. assert (c_at <$> cores (demo_run [1; 1] 2 (alternate 60)) = [QListed 1 true; QListed 0 true]) as E by (vm_compute; reflexivity).
  assert ((c_at <$> cores (demo_run [1; 1] 2 (alternate 60))) !! i = Some (c_at c)) as Hi by (by rewrite list_lookup_fmap, Hc).
  rewrite E in Hi. destruct i as [|[|i]]; [by injection Hi as <-..|done].
Qed.

(** A VM disappears.  Every CPU empties the list of VMs after the last barrier, whether
    or not another CPU has already put its VM into it: there is an interleaving
    of two CPUs, each with a VM of its own, in which CPU 0 has registered its
    VM and [get_vm_by_id] does not find it. *)
Theorem boot_vm_lost : exists s c,
  rtc (one_step demo_view [1; 1] 25 0x50010000 8210 62500000 (fun c => Z.lor 0x80000000 c) (fun _ => 5) 0x3000 0x1000 16 2) (demo_boot [1; 1] 2) s /\
  cores s !! 0%nat = Some c /\ c_at c = QListed 0 true /\ get_vm_by_id 4 (fun i => i) (v_list (bv s)) 0 = Ok None.
Proof.
  set (s := demo_run [1; 1] 2 (alternate 32 ++ replicate 6 0%nat ++ [1%nat])).
  destruct (cores s) as [|c l] eqn:Ec; [by vm_compute in Ec|]. exists s, c.
  assert (c_at c = QListed 0 true) as Ea.
  { assert (c_at <$> (cores s !! 0%nat) = Some (QListed 0 true)) as E by (vm_compute; reflexivity). rewrite Ec in E. by injection E. }
  split; [apply run_reach|]. rewrite Ec. split; [done|]. split; [done|]. vm_compute. reflexivity.
Qed.

(** A CPU that joins a VM does not wait for the master to allocate it: there is an
    interleaving of the two CPUs of one VM in which the second calls [vm_init]
    with a null pointer, and is stopped by the fault. *)
Theorem boot_vm_null : exists s,
  rtc (one_step demo_view [2] 25 0x50010000 8210 62500000 (fun c => Z.lor 0x80000000 c) (fun _ => 5) 0x3000 0x1000 16 2) (demo_boot [2] 2) s /\
  c_at <$> cores s = [QAlloc 0 true; QVm 0 false 0] /\
  stopped demo_view [2] 25 0x50010000 8210 62500000 (fun c => Z.lor 0x80000000 c) (fun _ => 5) 0x3000 0x1000 16 2 s.
Proof.
  set (s := demo_run [2] 2 (alternate 32 ++ replicate 3 0%nat ++ replicate 3 1%nat)). exists s.
  assert (c_at <$> cores s = [QAlloc 0 true; QVm 0 false 0]) as E by (vm_compute; reflexivity).
  split; [apply run_reach|]. split; [done|].
  assert ((c_at <$> cores s) !! 1%nat = Some (QVm 0 false 0)) as E1 by (by rewrite E). rewrite list_lookup_fmap in E1.
  destruct (cores s !! 1%nat) as [c|] eqn:Hc; [|done]. injection E1 as E1. exists 1%nat, c, HFault. split; [done|]. unfold act. rewrite E1. reflexivity.
Qed.
