(* ===== verification/Config.v ===== *)
(** The configuration and the platform of the repository: [config.c] (with
    [TEST_SCENE] 5, as it is set there), [entry.h],
    [plat/qemu-aarch64-virt/platform.c], and what the other files ask of them.

    Where the images lie and how long they are is known to the linker only: the
    symbols are parameters. *)

From S2P Require Import Prelude Bit Bitmap Spinlock PhysMem Objpool Mem PageTable Mmu Vpage Dlist Cpu Gic Vm Vgic Irq Vmm ArchVmm GuestMem Boot.

(** ** [config.h] and [config.c] *)

(** [struct config]; [nr_vms] is the length of [vm], whose elements come with their
    [arch.gic]. *)
Record config_t := Config {
  hyp_nr_cpus : Z;
  vm_cfgs : list (vm_config * vgic_dscrp);
  dtb : dtb_config;
}.

Definition ENTRY_POINT : Z := 0x401014b0.

Definition vm_gic : vgic_dscrp := VgicDscrp 0x08000000 0x08010000 0x080A0000 0.

Section config.
Context (vm1_beg vm1_size vm2_beg vm2_size dtb1_beg dtb1_size : Z).

Definition vm1 : vm_config :=
  VmConfig 0x40100000 vm1_beg vm1_size ENTRY_POINT 0x8000000 1
    [VmDevRegion 1 0x1C0B0000 0x1C090000 0x10000 [39]; VmDevRegion 2 0 0 0 [27]]
    (RqConfigVm 0x10000000 (1024 * 1024)).

Definition vm2 : vm_config :=
  VmConfig 0x40100000 vm2_beg vm2_size ENTRY_POINT 0x8000000 1 [] (RqConfigVm 0x10000000 (1024 * 1024)).

Definition config : config_t := Config 2 [(vm1, vm_gic); (vm2, vm_gic)] (DtbConfig 0x40000000 dtb1_beg dtb1_size).

(** ** [platform.c] *)

(** [struct platform] with [struct arch_platform], less the fields that the
    initialiser leaves out and nobody reads; what it leaves out is zero. *)
Record platform_t := Platform {
  plat_cpu_num : Z;
  p_gicd_addr : Z; p_gicc_addr : Z; p_gich_addr : Z; p_gicv_addr : Z; p_gicr_addr : Z;
  maintenance_id : Z;
  smmu_base : Z; smmu_interrupt_id : Z; smmu_global_mask : Z;
}.

Definition platform : platform_t :=
  Platform 0 0x08000000 0x08010000 0x08030000 0x08040000 0x080A0000 25 0x9050000 187 0.

(** ** What is asked of them *)

(** The start: as many CPUs as the token counts, a maintenance interrupt of its own,
    a CPU for every VM. *)
Lemma shipped_boot_sane sizeof_vm sizeof_vcpu alignof_vcpu :
  0 < sizeof_vm < 2 ^ 40 -> 0 < sizeof_vcpu < 2 ^ 40 -> 0 < alignof_vcpu -> (alignof_vcpu | PAGE_SIZE) ->
  sane ((fun c => cfg_nr_cpus c.1) <$> vm_cfgs config) (maintenance_id platform) VM_BASE (VM_SIZE / PAGE_SIZE) sizeof_vm sizeof_vcpu alignof_vcpu
    (Z.to_nat (hyp_nr_cpus config)).
Proof.
  intros H1 H2 H3 H4. split; [cbn; lia|do 2 (constructor; [cbn; lia|]); constructor|vm_compute; split_and!; congruence|vm_compute; split_and!; congruence|done].
Qed.

(** Every CPU that [config] starts has its place in [cpu_interfaces], and every VM
    gets its CPU. *)
Lemma shipped_cpus : hyp_nr_cpus config = zsum ((fun c => cfg_nr_cpus c.1) <$> vm_cfgs config).
Proof. reflexivity. Qed.

(** The number of CPUs is left out of the initialiser.  The second CPU of the
    configuration has no MPIDR, and no message of the virtual GIC leaves its CPU:
    neither a software interrupt for another CPU nor the request to route one. *)
Lemma platform_no_cpus : hyp_nr_cpus config = 2 /\ cpu_id_to_mpidr (plat_cpu_num platform) 1 = not64 (Z.land (not32 MPIDR_RES1) MPIDR_RES0_MSK).
Proof. done. Qed.

Theorem platform_sends_nothing {G : Type} (w : world G) mask msg : cpu_num w = plat_cpu_num platform -> send_to_mask mask msg w = Ok ((), w).
Proof. intros E. unfold send_to_mask. cbv beta iota zeta delta [mbind st_bind gets]. rewrite E. reflexivity. Qed.

Section guests.
Context {P : Type} `{PageAllocator P}.

(** The state in which the memory of a VM is set up: its address space holds the
    virtual CPU interface and nothing else, and the descriptor of the shared memory
    is the one of [mem_init]. *)
Record fresh_guest (sp : addr_space) (s : P * mem) (T : gmap Z Z) (p : Z) : Prop := {
  fg_wf : space_wf sp s T;
  fg_lock : unlocked (as_lock sp);
  fg_low : low s;
  fg_busy : forall x, 0 <= x < 2 ^ 48 -> ~ (gicc_addr vm_gic <= x < gicc_addr vm_gic + 0x10000) -> busy s.2 (root (as_pt sp)) x = false;
  fg_shared : p <> 0 /\ load64 s.2 p = SHARED_MEM_BASE /\ load64 s.2 (p + 16) = SHARED_MEM_SIZE /\
    page_addr (load64 s.2 (p + 8)) /\ load64 s.2 (p + 8) + SHARED_MEM_SIZE <= 2 ^ 48 /\ outside s T p 24;
}.

Lemma shared_is sp s T p : fresh_guest sp s T p -> shared_region s.2 p = [Region SHARED_MEM_BASE 4096 (load64 s.2 (p + 8))].
Proof.
  intros [_ _ _ _ (Hp & E1 & E2 & _)]. unfold shared_region. rewrite (proj2 (Z.eqb_neq p 0)), E1, E2 by done. reflexivity.
Qed.

(** The devices of a VM, as pages. *)
Lemma dev_regions_of c g : (c, g) ∈ vm_cfgs config ->
  dev_regions (devs c) = [] \/ dev_regions (devs c) = [Region 0 0 0; Region 0x1C090000 16 0x1C0B0000].
Proof. cbn [vm_cfgs config]. intros [[= -> ->]|[[= -> ->]|[]%elem_of_nil]%elem_of_cons]%elem_of_cons; [right|left]; reflexivity. Qed.

Lemma device_free x l : l = [] \/ l = [Region 0 0 0; Region 0x1C090000 16 0x1C0B0000] -> covers l x = true -> 0x1C090000 <= x < 0x1C0A0000.
Proof.
  intros [-> | ->]; [done|]. cbn [covers existsb]. unfold in_region. cbn [rg_va rg_n]. unfold PAGE_SIZE.
  destruct (Z.leb_spec 0 x), (Z.ltb_spec x (0 + 0 * 0x1000)), (Z.leb_spec 0x1C090000 x), (Z.ltb_spec x (0x1C090000 + 16 * 0x1000)); cbn [andb orb]; done || lia.
Qed.

Lemma devs_apart_of c g : (c, g) ∈ vm_cfgs config -> devs_apart (devs c).
Proof.
  cbn [vm_cfgs config]. intros [[= -> ->]|[[= -> ->]|[]%elem_of_nil]%elem_of_cons]%elem_of_cons; [|done].
  split; [|done]. intros x Hx. exfalso. change (dev_regions _) with [Region 0 0 0] in Hx. cbn [covers existsb] in Hx. unfold in_region in Hx.
  cbn [rg_va rg_n] in Hx. unfold PAGE_SIZE in Hx. destruct (Z.leb_spec 0 x), (Z.ltb_spec x (0 + 0 * 0x1000)); cbn [andb orb] in Hx; done || lia.
Qed.

Lemma shared_free x pa : covers [Region SHARED_MEM_BASE 4096 pa] x = true <-> 0x70000000 <= x < 0x71000000.
Proof.
  cbn [covers existsb]. unfold in_region. cbn [rg_va rg_n]. rewrite orb_false_r, andb_true_iff, Z.leb_le, Z.ltb_lt. unfold SHARED_MEM_BASE, PAGE_SIZE. lia.
Qed.

Lemma not_covers l x : (covers l x = true -> False) -> covers l x = false.
Proof. destruct (covers l x); [|done]. intros H0. by destruct H0. Qed.

(** The configured regions of both VMs are disjoint, from each other, from the
    virtual CPU interface, from the shared memory, from RAM and device tree, for
    images of up to 512 MB and a device tree of up to 1 MB. *)
Theorem shipped_guests_ok c g sp s T p : (c, g) ∈ vm_cfgs config -> fresh_guest sp s T p ->
  0 <= size c < 0x20000000 -> outside s T (load_addr c) (size c) ->
  1 <= dtb_size (dtb config) <= 0x100000 -> outside s T (dtb_load_addr (dtb config)) (dtb_size (dtb config)) ->
  guest_ok c (dtb config) p sp s T.
Proof.
  intros Hc Hf Hsz Hsrc Hdsz Hdsrc. pose proof (shared_is _ _ _ _ Hf) as Hsh. pose proof (dev_regions_of c g Hc) as Hd.
  assert (base_addr c = 0x40100000 /\ dmem_size c = 0x8000000) as [Hba Hdm].
  { cbn [vm_cfgs config] in Hc. by apply elem_of_cons in Hc as [[= -> ->]|[[= -> ->]|[]%elem_of_nil]%elem_of_cons]. }
  assert (1 <= ram_pages c <= 0x28000) as Hrp.
  { unfold ram_pages. rewrite Hdm, u64_small by lia. pose proof (NUM_PAGES_bounds (size c + 0x8000000) ltac:(unfold PAGE_SIZE; lia)). unfold PAGE_SIZE in *. lia. }
  assert (1 <= dtb_pages (dtb config) <= 0x100) as Hdp.
  { unfold dtb_pages. pose proof (NUM_PAGES_bounds (dtb_size (dtb config)) ltac:(unfold PAGE_SIZE; lia)). unfold PAGE_SIZE in *. lia. }
  destruct Hf as [Hwf Hlk Hlow Hbusy (Hp & _ & _ & Hpa & Hpl & Hpo)].
  assert (Forall region_ok (fixed_regions c s.2 p)) as Hreg.
  { unfold fixed_regions. rewrite Hsh. apply Forall_app. split.
    - constructor; [|constructor]. split; [by vm_compute|]. split; [done|]. unfold PAGE_SIZE, SHARED_MEM_BASE, SHARED_MEM_SIZE in *. cbn [rg_va rg_n rg_pa]. lia.
    - destruct Hd as [-> | ->]; repeat constructor; vm_compute; congruence. }
  split; try done.
  - rewrite Hba, Hdm. split; [by vm_compute|]. unfold PAGE_SIZE. lia.
  - change (dtb_base_addr (dtb config)) with 0x40000000. split; [by vm_compute|]. unfold PAGE_SIZE. lia.
  - split.
    + by eapply devs_apart_of.
    + rewrite Hsh. intros x Hx%shared_free. apply not_covers. intros Hx'%device_free; [lia|done].
  - intros x Hx. apply Hbusy; [by eapply covers_range|]. unfold fixed_regions in Hx. rewrite covers_app, Hsh in Hx. change (gicc_addr vm_gic) with 0x08010000.
    apply orb_true_iff in Hx as [Hx%shared_free|Hx%device_free]; [lia|lia|done].
  - intros pa pb x Hx. apply not_covers. unfold fixed_regions in Hx. rewrite covers_app, Hsh in Hx. cbn [covers existsb]. unfold in_region. cbn [rg_va rg_n].
    rewrite Hba. change (dtb_base_addr (dtb config)) with 0x40000000. rewrite orb_false_r, orb_true_iff, !andb_true_iff, !Z.leb_le, !Z.ltb_lt. unfold PAGE_SIZE.
    apply orb_true_iff in Hx as [Hx%shared_free|Hx%device_free]; [lia|lia|done].
Qed.

End guests.
End config.
